(* ===== verification/_CoqProject ===== *)
-Q . S2P
Prelude.v
TransactionId.v
Bitstream.v
BitmapCompression.v
BitUtils.v
Bitmapset.v
AoTid.v
VisimapEntry.v
GddTheory.v
GddDetector.v
GddBackend.v
VarBlock.v
Crc32cTable.v
Crc32c.v
AoHeader.v
Slru.v
DistributedLog.v
LocalDistribXact.v
DistributedSnapshot.v
SubTrans.v
Snapshot.v
Clog.v
TransactionLog.v
LegacyHash.v
CdbHash.v
ValueSet.v
DirectDispatch.v
FtsProbe.v
FtsCycle.v
FtsTermination.v
FtsHandler.v
DtxLog.v
DtxSegment.v
DtxProtocol.v
DtxAtomicity.v
