(* ===== verification/Prelude.v ===== *)
(** * WarehousePG: a verification library for the storage and coordination core

    WarehousePG is a massively parallel database derived from PostgreSQL.  A
    coordinator plans and dispatches queries to segments; tables are stored as
    heaps or as append-only segment files.  This library models parts of the
    append-only storage, the global deadlock detector, distributed snapshots with
    the transaction logs behind them, the distribution of rows over the segments
    with the dispatch of queries to where the rows are, two-phase commit with its
    log and its recovery, the fault tolerance service and the data structures
    below all these, and proves them correct.  Paths are relative to the source
    directory of the repository.

    ** How C is read

    Functions are translated one by one, with the names of the source.  A loop or
    a branch that needs a definition of its own comes just before the function it
    is part of, and has the source lines of that function.  [Prelude]
    has the conventions: machine integers are [Z] with the casts [u8] ... [s64]
    written where C converts; memory is a list of bytes or words, read and
    written through checked accesses; a computation that may fail returns
    [outcome]: [Ok] a value, [Err] when the code raises an error with
    [elog(ERROR)] or [ereport(ERROR)], [Ub] when it accesses memory outside an
    object or follows a pointer to nothing.  A theorem that concludes [Ok], or
    that excludes [Ub], is thus a memory-safety statement too.  Structures that
    the code updates in place are passed and returned; pointers into a buffer
    are offsets, pointers between graph structures are keys.  [Assert] is not
    executed.  The configuration is the usual one: 64-bit, little-endian,
    [BITS_PER_BITMAPWORD] 64.

    ** The parts

    - [Bitstream] (src/backend/utils/misc/bitstream.c): bit cursors.  Fields are
      read back as written; no sequence of operations leaves the buffer.
    - [BitmapCompression] (src/backend/utils/misc/bitmap_compression.c), on the
      bit stream: compression and decompression of visibility bitmaps.  The
      round trip holds for every bitmap and never needs more than the raw size
      and the header; the default format is decoded safely from any bytes; the
      raw format only when the input is as long as it announces.
    - [BitUtils] (src/port/pg_bitutils.c) and [Bitmapset]
      (src/backend/nodes/bitmapset.c): sets of small integers.  A set refines the
      integer whose bits are its members; the theorems cover building, updating,
      comparing, iterating, counting and hashing sets.
    - [AoTid] (src/include/access/appendonlytid.h): row identifiers of append-only
      tables and their reading as heap item pointers.  Packing is invertible and
      keeps the order; the macro for the first row of a block wraps.
    - [VisimapEntry] (src/backend/access/appendonly/appendonly_visimap_entry.c), on
      [Bitmapset], [BitmapCompression] and [AoTid]: which rows of a range are
      deleted.  Hiding a row, enumerating hidden rows, and the round trip of an
      entry through its stored tuple.
    - [VarBlock] (src/backend/cdb/cdbvarblock.c): the packing of rows of varying
      length into the content of a block.  What is stored is read back, by a scan
      and by index; the validity check is safe on any bytes and makes the reader
      safe.
    - [Crc32cTable] and [Crc32c] (src/port/pg_crc32c_sb8.c): the checksum of a
      block.  The table-driven routine equals bit-by-bit division, and a change
      within four bytes always changes the checksum.
    - [AoHeader] (src/include/cdb/cdbappendonlystorage*.h,
      src/backend/cdb/cdbappendonlystorageformat.c and the parts of
      cdbappendonlystorageread.c and cdbappendonlystoragewrite.c that make and
      examine headers), on [Crc32c]: the four kinds of block headers.  A header
      is read back as it was made, corruption within four bytes is reported, and
      the first row number of a large content header is protected by nothing.
    - [GddTheory], [GddDetector] and [GddBackend] (src/backend/utils/gdd and three
      functions of src/backend/storage/ipc/procarray.c): the global deadlock
      detector.  [GddTheory] is its contract, wait-for graphs as lists of edges
      with their reduction and with what transactions can do on their own.
      [GddDetector] has the maps, lists and degree counters of the code and the
      relation [ctx_rep] to a graph; adding an edge, reducing and breaking
      deadlocks refine the contract.  [GddBackend] is a whole round: it always
      completes, and cancels transactions exactly when there is a deadlock among
      the running ones.
    - [TransactionId] (src/backend/access/transam/transam.c,
      src/include/access/transam.h): 32-bit identifiers compared around a circle.
    - [Slru] (src/backend/access/transam/slru.c): the buffers over the segment
      files of a log.  Reading, zeroing, flushing and truncating behave as on a
      map from page numbers to pages, whatever is evicted in between.
    - [DistributedLog] (src/backend/access/transam/distributedlog.c), on [Slru]:
      which distributed transaction a local one committed in.  A commit is found
      afterwards and nothing else changes; advancing the horizon always finishes
      and keeps what is not older; so does start-up, which finds the horizon again;
      the scan backwards finds the last commit on disk; recording subtransactions
      reads one entry past their array.
    - [LocalDistribXact] (src/backend/cdb/cdblocaldistribxact.c): the cache of such
      pairs in a backend, which is a bounded map with the oldest use evicted.
    - [DistributedSnapshot] (src/backend/cdb/cdbdistributedsnapshot.c and the
      making of distributed snapshots in src/backend/storage/ipc/procarray.c), on
      the two before: a snapshot made on the coordinator, sent as bytes and tested
      on a segment sees exactly the distributed transactions that were over when
      it was made, whatever the caches hold.
    - [SubTrans] (src/backend/access/transam/subtrans.c), on [Slru]: parents of
      subtransactions.  The topmost transaction is found after any history of
      links, and a restart zeroes the active pages, around the circle, and keeps
      the links it is said to keep.
    - [Snapshot] (src/backend/utils/time/snapmgr.c), on the three before: the test
      of a transaction against an MVCC snapshot follows its specification on any
      sequence of tests, also through a copy; a snapshot that lost its
      subtransactions answers as one that has them; a snapshot restored in a
      parallel worker has an uninitialised array of local ids.
    - [Clog] (src/backend/access/transam/clog.c), on [Slru]: the status bits of
      transactions, and the order in which those of a tree are written.
    - [TransactionLog] (src/backend/access/transam/transam.c), on [Clog] and
      [SubTrans]: has a transaction committed or aborted?  At every moment of a
      commit over many pages either all of the tree has committed or none of it;
      an abort is final.
    - [LegacyHash] (src/backend/cdb/cdblegacyhash.c, with the equalities of bpchar
      and interval in src/backend/utils/adt): the hash functions of the old
      distribution scheme.  The hash of padded strings agrees with their equality
      but for the empty one; that of intervals does not.
    - [CdbHash] (src/backend/cdb/cdbhash.c and its callers in
      src/backend/executor, src/backend/commands/copy.c and
      src/backend/cdb/cdbmutate.c), on [LegacyHash]: the segment of a row.  All
      callers agree on it, and when segments are added a row stays or goes to a
      new one.
    - [ValueSet] (src/backend/optimizer/util/predtest_valueset.c and the part of
      predtest.c that walks clauses): the values a condition leaves for a column.
    - [DirectDispatch] (src/backend/cdb/cdbtargeteddispatch.c with cdbcat.c,
      cdbllize.c and src/backend/executor/execUtils.c), on [CdbHash] and
      [ValueSet]: the segments a slice is sent to.  They have every row that the
      query must find, under conditions that are named and that three examples
      show to be needed.
    - [FtsProbe], [FtsCycle] and [FtsTermination] (src/backend/fts/ftsprobe.c and
      the probing part of fts.c): a cycle of the fault tolerance prober.
      [FtsProbe] is the model.  [FtsCycle] shows what a cycle may change: a mirror
      is promoted only when it was in sync, each pair keeps one primary, the
      assertions of the code hold and the configuration stays well formed.
      [FtsTermination] shows that a cycle ends when the clock runs, unless an
      answer arrives in part, when it never ends.
    - [FtsHandler] (src/backend/fts/ftsmessagehandler.c,
      src/backend/replication/gp_replication.c), on [FtsProbe]: the answers of a
      segment.  Messages and answers are understood as they were meant; a mirror
      that keeps failing is reported down; a repeated promotion changes nothing.
    - [DtxLog] (src/backend/cdb/cdbtm.c and cdbdtxrecovery.c, with the parts about
      distributed transactions of src/backend/access/transam/xlog.c and xact.c and
      of src/backend/storage/ipc/procarray.c): what of two-phase commit survives a
      crash of the coordinator.  Backends, the checkpointer, the recovery process
      and crashes are actions in any order.  Redo finds every commit that is not
      forgotten; identifiers are never reused; the array that redo fills can be
      too small.
    - [DtxSegment] (the QE side of src/backend/cdb/cdbtm.c): one distributed
      transaction on a segment, with what the network can do to a message and with
      processes of lost connections.
    - [DtxProtocol] (the QD side of src/backend/cdb/cdbtm.c with its callers in
      src/backend/access/transam/xact.c, and src/backend/cdb/cdbdtxrecovery.c), on
      the two before: the session with its errors and retries, the recovery
      process and crashes, as computations against a list of events.
      [DtxAtomicity] proves an invariant of all their histories: segments that a
      transaction wrote on never disagree, a commit that returns has happened on
      every segment, and orphaned prepared transactions end the right way.

    ** Interfaces

    [Slru] is written against the class [SlruCtl], the zero page and the order of
    pages that each log gives to the buffer manager; [DistributedLog], [SubTrans]
    and [Clog] have its instances.  The tree of [Clog] is written over any way of
    setting the statuses on a page, so that [TransactionLog] can stop it between
    two pages.  [ValueSet] states what it needs of the operators of a family as
    the record [op_contract], which [DirectDispatch] relies on.  [DistributedSnapshot] and [Snapshot] are written against the
    class [CommitLog], with the laws [CommitLogSpec]; [DistributedLog] is the
    instance.

    Code outside the repository, or behind the network, is an argument: the
    result of the query over all segments in [GddBackend], the contents of the
    process array when it is read, the hash function in [Bitmapset], what
    [malloc] returns and what new memory holds in [DistributedSnapshot] and
    [Snapshot], the catalog and the functions of the types in [CdbHash] and
    [DirectDispatch], what libpq, poll and the clock answer in [FtsProbe], the
    files and the wal position in [FtsHandler], the fates of messages and the
    moments of crashes in [DtxProtocol].  None of the theorems assumes anything
    about them beyond what their statements say.

    ** Fuel

    Loops that are not structural take fuel, and the theorems show that it is
    enough.  The reductions of [GddDetector] take the number of edges of the graph
    (each repetition removes one), the walk over the vertices of a graph takes
    their number, breaking deadlocks takes the number of edges (each victim
    removes at least one).  Word scans of [BitUtils] take the number of bytes.
    The choice of a buffer and the truncation in [Slru] take the number of slots
    (each repetition writes a dirty one).  The loops over pages and transactions
    of [DistributedLog] and [SubTrans] take the distance around the circle to
    where they stop.  The jump hash takes the number of segments (each round passes
    one), the search of [ValueSet] the depth of the condition.  The loop of the
    prober runs over the answers of its environment, and [FtsTermination] gives a
    number of passes that is enough.  The retries of [DtxProtocol] take the number
    of events that are left (each round takes one, and without one the coordinator
    crashes).  Other loops run over the list they traverse or over a count
    that the code computes first.

    ** What is not modelled

    File and network I/O (buffered reads and appends, the connections of the
    dispatcher, the interconnect), the access methods and the block directory over catalogs, the
    assembly of large content from several blocks, compression libraries, the
    hardware variants of the bit and checksum routines, debug output and the text
    of error details, memory contexts, locks and shared memory.  The logs and
    caches are those of one backend at a time: a page that another process reads
    or writes, and a horizon that moves during a scan, do not occur.  Of two-phase
    commit, savepoints and internal subtransactions, the wait for other
    transactions after a commit, the replication of the coordinator's log to its
    standby and the readers of a session are left out.  Anchored snapshots and the
    stacks of active and registered snapshots are left out.  The planner, the executor and the parts inherited from PostgreSQL are out of scope.

    This file holds the shared vocabulary: machine integers and bytes, checked
    memory, the outcome monad, and the lemmas and tactics on them. *)

From Stdlib Require Import ZArith String.
From Stdlib Require Export Lia ZifyBool.
From stdpp Require Export base numbers list option tactics strings.

#[global] Open Scope Z_scope.
#[global] Arguments Z.testbit : simpl never.
#[global] Arguments Z.land : simpl never.
#[global] Arguments Z.lor : simpl never.
#[global] Arguments Z.shiftl : simpl never.
#[global] Arguments Z.shiftr : simpl never.
#[global] Arguments Z.pow : simpl never.
#[global] Arguments Z.mul : simpl never.
#[global] Arguments Z.add : simpl never.
#[global] Arguments Z.sub : simpl never.
#[global] Arguments Z.modulo : simpl never.
#[global] Arguments Z.div : simpl never.
#[global] Arguments Z.of_nat : simpl never.
#[global] Arguments Z.to_nat : simpl never.
#[global] Arguments Nat.mul : simpl never.

(** ** Outcomes of C functions

    [Ok a] is a normal return, [Err m] is [elog(ERROR, m)] (control leaves the
    function and the transaction aborts) and [Ub] is an access outside an
    allocated object. *)
Inductive outcome (A : Type) : Type :=
| Ok (a : A)
| Err (m : string)
| Ub.
Arguments Ok {A} a.
Arguments Err {A} m.
Arguments Ub {A}.

#[export] Instance outcome_ret : MRet outcome := fun A a => Ok a.
#[export] Instance outcome_bind : MBind outcome := fun A B f m =>
  match m with Ok a => f a | Err e => Err e | Ub => Ub end.

(** ** Machine integers *)
Definition u8 (z : Z) : Z := z mod 2 ^ 8.
Definition u16 (z : Z) : Z := z mod 2 ^ 16.
Definition u32 (z : Z) : Z := z mod 2 ^ 32.
Definition u64 (z : Z) : Z := z mod 2 ^ 64.
Definition s32 (z : Z) : Z := (z + 2 ^ 31) mod 2 ^ 32 - 2 ^ 31.
Definition s64 (z : Z) : Z := (z + 2 ^ 63) mod 2 ^ 64 - 2 ^ 63.

(** ** Checked access to arrays indexed by C integers *)
Definition zlen {A} (l : list A) : Z := Z.of_nat (length l).

Definition zget {A} (l : list A) (i : Z) : outcome A :=
  if i <? 0 then Ub
  else match l !! Z.to_nat i with Some x => Ok x | None => Ub end.

Definition zset {A} (l : list A) (i : Z) (x : A) : outcome (list A) :=
  if (0 <=? i) && (i <? zlen l) then Ok (<[Z.to_nat i := x]> l) else Ub.

(** [memcpy] of [n] elements out of [src] at [off], and of [src] into [dst] at [off]. *)
Definition mem_read {A} (src : list A) (off n : Z) : outcome (list A) :=
  if (0 <=? off) && (0 <=? n) && (off + n <=? zlen src)
  then Ok (take (Z.to_nat n) (drop (Z.to_nat off) src)) else Ub.

Definition mem_write {A} (dst : list A) (off : Z) (src : list A) : outcome (list A) :=
  if (0 <=? off) && (off + zlen src <=? zlen dst)
  then Ok (take (Z.to_nat off) dst ++ src ++ drop (Z.to_nat off + length src) dst)
  else Ub.

(** Little-endian byte representation of unsigned integers. *)
Fixpoint le_split (n : nat) (v : Z) : list Z :=
  match n with
  | O => []
  | S n => v mod 256 :: le_split n (v / 256)
  end.

Fixpoint le_join (bs : list Z) : Z :=
  match bs with
  | [] => 0
  | b :: bs => b + 256 * le_join bs
  end.

(** [v] fits in [n] unsigned bits. *)
Definition ubits (n v : Z) : Prop := 0 <= v < 2 ^ n.

(** ** Automation *)

(** Linear arithmetic that knows division and modulo by constants. *)
Ltac zlia := Z.to_euclidean_division_equations; lia.

(** Case analysis on the boolean integer tests of the code. *)
Ltac case_bool1 :=
  match goal with
  | |- context [Z.eqb ?a ?b] => destruct (Z.eqb_spec a b)
  | |- context [Z.ltb ?a ?b] => destruct (Z.ltb_spec a b)
  | |- context [Z.leb ?a ?b] => destruct (Z.leb_spec a b)
  | H : context [Z.eqb ?a ?b] |- _ => destruct (Z.eqb_spec a b)
  | H : context [Z.ltb ?a ?b] |- _ => destruct (Z.ltb_spec a b)
  | H : context [Z.leb ?a ?b] |- _ => destruct (Z.leb_spec a b)
  end.
Ltac case_bools := repeat (case_bool1; simpl in *; try lia; try congruence).

(** Inversion of a computation that returned normally. *)
Ltac outcome_inv :=
  repeat match goal with
  | H : Ok _ = Ok _ |- _ => injection H as H; subst
  | H : Err _ = Ok _ |- _ => discriminate H
  | H : Ub = Ok _ |- _ => discriminate H
  | H : mbind (M:=outcome) _ ?m = Ok _ |- _ =>
      let E := fresh "E" in destruct m eqn:E; simpl in H; try discriminate H
  end.

Create HintDb wpg.
#[export] Hint Extern 1 (_ <= _) => lia : wpg.
#[export] Hint Extern 1 (_ < _) => lia : wpg.
#[export] Hint Extern 1 (_ = _ :> Z) => lia : wpg.

(** Rewriting of [Z.testbit] through the bit operations of the code. *)
Create Rewrite HintDb bits.
Create Rewrite HintDb wrap.
#[export] Hint Rewrite Z.land_spec Z.lor_spec Z.lxor_spec Z.ldiff_spec Z.testbit_0_l
  : bits.
#[export] Hint Rewrite Z.shiftl_spec Z.shiftr_spec Z.lnot_spec using lia : bits.

(** ** Machine integer lemmas *)
Lemma u8_small z : 0 <= z < 2 ^ 8 -> u8 z = z.
Proof. apply Z.mod_small. Qed.
Lemma u16_small z : 0 <= z < 2 ^ 16 -> u16 z = z.
Proof. apply Z.mod_small. Qed.
Lemma u32_small z : 0 <= z < 2 ^ 32 -> u32 z = z.
Proof. apply Z.mod_small. Qed.
Lemma u64_small z : 0 <= z < 2 ^ 64 -> u64 z = z.
Proof. apply Z.mod_small. Qed.
Lemma s32_small z : - 2 ^ 31 <= z < 2 ^ 31 -> s32 z = z.
Proof. intros. unfold s32. rewrite Z.mod_small by lia. lia. Qed.
Lemma s64_small z : - 2 ^ 63 <= z < 2 ^ 63 -> s64 z = z.
Proof. intros. unfold s64. rewrite Z.mod_small by lia. lia. Qed.
Lemma u8_bound z : 0 <= u8 z < 2 ^ 8.
Proof. apply Z.mod_pos_bound. lia. Qed.
Lemma u16_bound z : 0 <= u16 z < 2 ^ 16.
Proof. apply Z.mod_pos_bound. lia. Qed.
Lemma u32_bound z : 0 <= u32 z < 2 ^ 32.
Proof. apply Z.mod_pos_bound. lia. Qed.
Lemma u64_bound z : 0 <= u64 z < 2 ^ 64.
Proof. apply Z.mod_pos_bound. lia. Qed.
#[export] Hint Rewrite u8_small u16_small u32_small u64_small s32_small s64_small
  using lia : wrap.

Lemma ubits_testbit n v i : ubits n v -> n <= i -> Z.testbit v i = false.
Proof.
  intros [H0 H1] Hi. destruct (Z.eq_dec v 0) as [-> | Hv]; [apply Z.testbit_0_l |].
  apply Z.bits_above_log2; [done |].
  destruct (Z_lt_le_dec n 0); [rewrite Z.pow_neg_r in H1 by lia; lia |].
  apply Z.log2_lt_pow2 in H1; lia.
Qed.

Lemma testbit_ubits n v :
  0 <= n -> 0 <= v -> (forall i, n <= i -> Z.testbit v i = false) -> ubits n v.
Proof.
  intros Hn Hv H. split; [done |].
  destruct (Z.eq_dec v 0) as [-> | Hv0]; [lia |].
  apply Z.log2_lt_pow2; [lia |].
  destruct (Z_lt_le_dec (Z.log2 v) n); [done |].
  specialize (H (Z.log2 v) l). rewrite Z.bit_log2 in H; [done | lia].
Qed.

Lemma ubits_mono n m v : n <= m -> ubits n v -> ubits m v.
Proof.
  intros H [H0 H1]. split; [done |].
  apply Z.lt_le_trans with (2 ^ n); [done | by apply Z.pow_le_mono_r].
Qed.

Lemma ubits_lor n a b : 0 <= n -> ubits n a -> ubits n b -> ubits n (Z.lor a b).
Proof.
  intros Hn Ha Hb. apply testbit_ubits; [done | apply Z.lor_nonneg; split; [apply Ha | apply Hb] |].
  intros i Hi. by rewrite Z.lor_spec, (ubits_testbit n a i), (ubits_testbit n b i).
Qed.

Lemma ubits_land_r n a b : 0 <= n -> 0 <= a -> ubits n b -> ubits n (Z.land a b).
Proof.
  intros Hn Ha Hb. apply testbit_ubits; [done | apply Z.land_nonneg; auto |].
  intros i Hi. rewrite Z.land_spec, (ubits_testbit n b i) by done. apply andb_false_r.
Qed.

Lemma ubits_land_l n a b : 0 <= n -> ubits n a -> 0 <= b -> ubits n (Z.land a b).
Proof. intros. rewrite Z.land_comm. by apply ubits_land_r. Qed.

Lemma mod_pow2_testbit v n i :
  0 <= i -> 0 <= n -> Z.testbit (v mod 2 ^ n) i = (i <? n) && Z.testbit v i.
Proof.
  intros Hi Hn. destruct (Z.ltb_spec i n); simpl.
  - by rewrite Z.mod_pow2_bits_low.
  - by rewrite Z.mod_pow2_bits_high.
Qed.

Lemma testbit_pow2 n i : 0 <= n -> Z.testbit (2 ^ n) i = (i =? n).
Proof.
  intros. destruct (Z.eqb_spec i n) as [-> | Hne].
  - by apply Z.pow2_bits_true.
  - apply Z.pow2_bits_false. lia.
Qed.


(** [w + 2 ^ n * v]: [w] in the [n] low bits, [v] above. *)
Lemma join_testbit n w v i :
  0 <= n -> ubits n w -> 0 <= i ->
  Z.testbit (w + 2 ^ n * v) i = if i <? n then Z.testbit w i else Z.testbit v (i - n).
Proof.
  intros Hn [Hw0 Hw1] Hi. assert (0 < 2 ^ n) by (apply Z.pow_pos_nonneg; lia).
  destruct (Z.ltb_spec i n).
  - rewrite <- (Z.mod_pow2_bits_low (w + 2 ^ n * v) n i) by lia.
    rewrite Z.mul_comm, Z.mod_add, Z.mod_small by lia. done.
  - replace i with ((i - n) + n) at 1 by lia. rewrite <- Z.div_pow2_bits by lia.
    rewrite Z.mul_comm, Z.div_add, Z.div_small by lia. done.
Qed.

Lemma join_inj n w v w' v' :
  ubits n w -> ubits n w' -> w + 2 ^ n * v = w' + 2 ^ n * v' -> w = w' /\ v = v'.
Proof.
  unfold ubits. intros. assert (v = v') as -> by nia. lia.
Qed.

Lemma join_compare n w v w' v' :
  ubits n w -> ubits n w' ->
  (w + 2 ^ n * v ?= w' + 2 ^ n * v') = match v ?= v' with Eq => w ?= w' | c => c end.
Proof.
  unfold ubits. intros. destruct (Z.compare_spec v v') as [-> | |].
  - destruct (Z.compare_spec w w'); [apply Z.compare_eq_iff | apply Z.compare_lt_iff
      | apply Z.compare_gt_iff]; lia.
  - apply Z.compare_lt_iff. nia.
  - apply Z.compare_gt_iff. nia.
Qed.

(** Two nonnegative integers with the same bits are equal. *)
Lemma bits_ext a b : (forall i, 0 <= i -> Z.testbit a i = Z.testbit b i) -> a = b.
Proof. intros H. apply Z.bits_inj'. done. Qed.

Lemma join_lor n a b u v :
  0 <= n -> ubits n a -> ubits n b ->
  Z.lor (a + 2 ^ n * u) (b + 2 ^ n * v) = Z.lor a b + 2 ^ n * Z.lor u v.
Proof.
  intros. apply bits_ext. intros i Hi.
  rewrite Z.lor_spec, !join_testbit, !Z.lor_spec by auto using ubits_lor.
  by destruct (i <? n).
Qed.

Lemma join_land n a b u v :
  0 <= n -> ubits n a -> ubits n b ->
  Z.land (a + 2 ^ n * u) (b + 2 ^ n * v) = Z.land a b + 2 ^ n * Z.land u v.
Proof.
  intros ? ? Hb. apply bits_ext. intros i Hi.
  rewrite Z.land_spec, !join_testbit, !Z.land_spec
    by (try apply ubits_land_l; auto; apply Hb).
  by destruct (i <? n).
Qed.

Lemma ubits_ldiff n a b : 0 <= n -> ubits n a -> 0 <= b -> ubits n (Z.ldiff a b).
Proof.
  intros Hn Ha Hb. apply testbit_ubits; [done | apply Z.ldiff_nonneg; left; apply Ha |].
  intros i Hi. by rewrite Z.ldiff_spec, (ubits_testbit n a i).
Qed.

Lemma join_ldiff n a b u v :
  0 <= n -> ubits n a -> ubits n b ->
  Z.ldiff (a + 2 ^ n * u) (b + 2 ^ n * v) = Z.ldiff a b + 2 ^ n * Z.ldiff u v.
Proof.
  intros ? ? Hb. apply bits_ext. intros i Hi.
  rewrite Z.ldiff_spec, !join_testbit, !Z.ldiff_spec
    by (try apply ubits_ldiff; auto; apply Hb).
  by destruct (i <? n).
Qed.

(** [a << n | b] with [b] in the low bits is a sum. *)
Lemma lor_shiftl_join n a b :
  0 <= n -> ubits n b -> Z.lor (Z.shiftl a n) b = b + 2 ^ n * a.
Proof.
  intros Hn Hb. apply bits_ext. intros i Hi. rewrite Z.lor_spec, join_testbit by done.
  destruct (Z.ltb_spec i n).
  - by rewrite Z.shiftl_spec_low.
  - by rewrite Z.shiftl_spec_high, (ubits_testbit n b i), orb_false_r by (done || lia).
Qed.

(** [v & (0xFF.. << k)] keeps the bits from [k] on of a value of [n] bits. *)
Lemma land_high_mask n k v :
  0 <= k <= n -> ubits n v -> Z.land v (2 ^ n - 2 ^ k) = 2 ^ k * (v / 2 ^ k).
Proof.
  intros Hk Hv. assert (0 < 2 ^ k) by (apply Z.pow_pos_nonneg; lia).
  replace (2 ^ n - 2 ^ k) with (Z.shiftl (Z.ones (n - k)) k).
  2: { rewrite Z.shiftl_mul_pow2, Z.ones_equiv by lia.
       assert (2 ^ n = 2 ^ (n - k) * 2 ^ k) by (rewrite <- Z.pow_add_r by lia; f_equal; lia). lia. }
  replace (2 ^ k * (v / 2 ^ k)) with (Z.shiftl (Z.shiftr v k) k)
    by (rewrite Z.shiftl_mul_pow2, Z.shiftr_div_pow2 by lia; lia).
  apply bits_ext. intros i Hi. rewrite Z.land_spec. destruct (Z_lt_le_dec i k).
  - rewrite !Z.shiftl_spec_low by lia. apply andb_false_r.
  - rewrite !Z.shiftl_spec_high, Z.shiftr_spec, Z.testbit_ones by lia.
    replace (i - k + k) with i by lia. destruct (Z_lt_le_dec i n).
    + replace ((0 <=? i - k) && (i - k <? n - k)) with true by lia. apply andb_true_r.
    + by rewrite (ubits_testbit n v i).
Qed.

(** The single-bit mask [1 << k] and the test of the bit it selects. *)
Lemma u32_mask k : 0 <= k < 32 -> u32 (Z.shiftl 1 k) = 2 ^ k.
Proof.
  intros. rewrite Z.shiftl_mul_pow2, Z.mul_1_l by lia.
  apply u32_small. split; [lia | apply Z.pow_lt_mono_r; lia].
Qed.

Lemma land_mask c k : 0 <= k -> negb (Z.land c (2 ^ k) =? 0) = Z.testbit c k.
Proof.
  intros Hk. destruct (Z.testbit c k) eqn:Et.
  - destruct (Z.eqb_spec (Z.land c (2 ^ k)) 0) as [E0 |]; [| done].
    apply (f_equal (fun z => Z.testbit z k)) in E0.
    rewrite Z.land_spec, Z.pow2_bits_true, Et, Z.testbit_0_l in E0; done.
  - apply negb_false_iff, Z.eqb_eq, Z.bits_inj'. intros m Hm.
    rewrite Z.land_spec, testbit_pow2, Z.testbit_0_l by done.
    destruct (Z.eqb_spec m k) as [-> |]; [by rewrite Et | apply andb_false_r].
Qed.

(** ** Checked array access *)
Lemma zlen_nonneg {A} (l : list A) : 0 <= zlen l.
Proof. unfold zlen. lia. Qed.

Lemma zlen_app {A} (l k : list A) : zlen (l ++ k) = zlen l + zlen k.
Proof. unfold zlen. rewrite length_app. lia. Qed.

Lemma zget_lookup {A} (l : list A) i x :
  0 <= i -> l !! Z.to_nat i = Some x -> zget l i = Ok x.
Proof. intros Hi E. unfold zget. rewrite E. by destruct (Z.ltb_spec i 0); [lia |]. Qed.

Lemma zget_nat {A} (l : list A) (i : nat) x : l !! i = Some x -> zget l (Z.of_nat i) = Ok x.
Proof. intros. apply zget_lookup; [lia |]. by rewrite Nat2Z.id. Qed.

Lemma zget_mid {A} (pre : list A) x post : zget (pre ++ x :: post) (zlen pre) = Ok x.
Proof. unfold zlen. apply zget_nat. by apply list_lookup_middle. Qed.

Lemma zget_out {A} (l : list A) i : zlen l <= i -> zget l i = Ub.
Proof.
  unfold zlen, zget. intros Hi. destruct (Z.ltb_spec i 0); [done |]. by rewrite lookup_ge_None_2 by lia.
Qed.

Lemma zget_inv {A} (l : list A) i x :
  zget l i = Ok x -> 0 <= i < zlen l /\ l !! Z.to_nat i = Some x.
Proof.
  unfold zget. destruct (Z.ltb_spec i 0); [done |].
  destruct (l !! Z.to_nat i) eqn:E; [| done]. intros [= ->].
  apply lookup_lt_Some in E as ?. unfold zlen. split; [lia | done].
Qed.

Lemma zget_ok {A} (l : list A) i : 0 <= i < zlen l -> exists x, zget l i = Ok x.
Proof.
  unfold zlen. intros Hi.
  destruct (lookup_lt_is_Some_2 l (Z.to_nat i)) as [x E]; [lia |].
  exists x. apply zget_lookup; [lia | done].
Qed.

Lemma zset_ok {A} (l : list A) i x :
  0 <= i < zlen l -> zset l i x = Ok (<[Z.to_nat i := x]> l).
Proof. intros [H1 H2]. unfold zset. by rewrite (proj2 (Z.leb_le _ _) H1), (proj2 (Z.ltb_lt _ _) H2). Qed.

Lemma mem_read_ok {A} (l : list A) off n :
  0 <= off -> 0 <= n -> off + n <= zlen l ->
  mem_read l off n = Ok (take (Z.to_nat n) (drop (Z.to_nat off) l)).
Proof. intros. unfold mem_read. by case_bools. Qed.

Lemma mem_write_ok {A} (dst src : list A) off :
  0 <= off -> off + zlen src <= zlen dst ->
  mem_write dst off src
  = Ok (take (Z.to_nat off) dst ++ src ++ drop (Z.to_nat off + length src) dst).
Proof. intros. unfold mem_write. by case_bools. Qed.

(** ** Little-endian bytes *)
Lemma le_split_length n v : length (le_split n v) = n.
Proof. revert v. induction n; intros; simpl; auto. Qed.

Lemma le_join_split n v : le_join (le_split n v) = v mod 256 ^ Z.of_nat n.
Proof.
  revert v. induction n as [| n IH]; intros v; simpl le_join.
  - by rewrite Z.mod_1_r.
  - rewrite IH, Nat2Z.inj_succ, Z.pow_succ_r by lia.
    rewrite Z.rem_mul_r by lia. done.
Qed.

Lemma le_split_join bs :
  Forall (ubits 8) bs -> le_split (length bs) (le_join bs) = bs.
Proof.
  induction 1 as [| b bs Hb Hbs IH]; simpl; [done |].
  unfold ubits in Hb. f_equal.
  - rewrite Z.mul_comm, Z.mod_add, Z.mod_small; lia.
  - rewrite Z.mul_comm, Z.div_add, Z.div_small, Z.add_0_l by lia. done.
Qed.

Lemma le_split_bytes n v : Forall (ubits 8) (le_split n v).
Proof.
  revert v. induction n; intros; simpl; constructor; auto.
  apply (Z.mod_pos_bound v 256). lia.
Qed.

(** ** Reading and writing in the middle of a buffer *)

Lemma mem_read_mid {A} (a b c : list A) off n :
  off = zlen a -> n = zlen b -> mem_read (a ++ b ++ c) off n = Ok b.
Proof.
  intros -> ->. pose proof (zlen_nonneg a). pose proof (zlen_nonneg b). pose proof (zlen_nonneg c).
  rewrite mem_read_ok by (rewrite ?zlen_app; lia). unfold zlen. rewrite !Nat2Z.id.
  by rewrite drop_app_length, take_app_length.
Qed.

Lemma mem_read_front {A} (b c : list A) n : n = zlen b -> mem_read (b ++ c) 0 n = Ok b.
Proof. by apply (mem_read_mid []). Qed.

Lemma mem_write_mid {A} (a b b' c : list A) off :
  off = zlen a -> length b' = length b -> mem_write (a ++ b ++ c) off b' = Ok (a ++ b' ++ c).
Proof.
  intros -> Hl. pose proof (zlen_nonneg a). pose proof (zlen_nonneg c).
  rewrite mem_write_ok by (rewrite ?zlen_app; unfold zlen in *; lia). unfold zlen. rewrite Nat2Z.id.
  rewrite take_app_length, Hl. do 3 f_equal. rewrite app_assoc, drop_app_length'; [done |].
  by rewrite length_app.
Qed.

Lemma zlen_nil {A} : zlen (@nil A) = 0.
Proof. done. Qed.

Lemma zlen_cons {A} (x : A) l : zlen (x :: l) = zlen l + 1.
Proof. unfold zlen. cbn [length]. lia. Qed.

Lemma zlen_replicate {A} n (x : A) : zlen (replicate n x) = Z.of_nat n.
Proof. unfold zlen. by rewrite length_replicate. Qed.

Lemma zlen_le_split n v : zlen (le_split n v) = Z.of_nat n.
Proof. unfold zlen. by rewrite le_split_length. Qed.

(** A list can be cut at any length up to its own. *)
Lemma split_at {A} (l : list A) n :
  0 <= n <= zlen l -> exists a b, l = a ++ b /\ zlen a = n /\ zlen b = zlen l - n.
Proof.
  intros Hn. exists (take (Z.to_nat n) l), (drop (Z.to_nat n) l). unfold zlen in *.
  rewrite take_drop, length_take, length_drop. split_and!; [done | lia | lia].
Qed.

(** ** Arrays of integers as bytes *)

Definition flat (w : nat) (vs : list Z) : list Z := flat_map (le_split w) vs.

(** [n] integers of [w] bytes. *)
Fixpoint unflat (w n : nat) (bs : list Z) : list Z :=
  match n with
  | O => []
  | S n => le_join (take w bs) :: unflat w n (drop w bs)
  end.

Lemma zlen_flat w l : zlen (flat w l) = Z.of_nat w * zlen l.
Proof.
  unfold flat. induction l as [| v l IH]; cbn [flat_map]; [rewrite zlen_nil; lia |].
  rewrite zlen_app, IH, zlen_le_split, zlen_cons. lia.
Qed.

Lemma flat_app w a b : flat w (a ++ b) = flat w a ++ flat w b.
Proof. apply flat_map_app. Qed.

Lemma unflat_flat w vs : Forall (fun v => 0 <= v < 256 ^ Z.of_nat w) vs -> unflat w (length vs) (flat w vs) = vs.
Proof.
  induction vs as [| v vs IH]; intros H; [done |]. apply Forall_cons in H as [Hv H]. cbn [length unflat flat flat_map].
  rewrite take_app_length', drop_app_length' by (by rewrite le_split_length).
  rewrite le_join_split, Z.mod_small by done. f_equal. by apply IH.
Qed.
