(* ===== verification/TransactionId.v ===== *)
(** * Transaction identifiers

    Models the macros of src/include/access/transam.h and the comparisons of
    src/backend/access/transam/transam.c.  Identifiers are 32-bit counters that
    wrap around: of two normal identifiers the older one is the one from which
    the other is reached by going forward less than half the circle.  The three
    permanent identifiers below [FirstNormalTransactionId] are older than all
    normal ones. *)

From stdpp Require Import numbers.
From S2P Require Import Prelude.

Definition InvalidTransactionId : Z := 0.
Definition FirstNormalTransactionId : Z := 3.
Definition MaxTransactionId : Z := 0xFFFFFFFF.

(** The 64-bit identifiers of distributed transactions. *)
Definition InvalidDistributedTransactionId : Z := 0.

Definition TransactionIdIsValid (xid : Z) : bool := negb (xid =? InvalidTransactionId).
Definition TransactionIdIsNormal (xid : Z) : bool := FirstNormalTransactionId <=? xid.
Definition TransactionIdEquals (id1 id2 : Z) : bool := id1 =? id2.

Definition TransactionIdPrecedes (id1 id2 : Z) : bool :=
  if negb (TransactionIdIsNormal id1) || negb (TransactionIdIsNormal id2) then id1 <? id2
  else s32 (id1 - id2) <? 0.

Definition TransactionIdPrecedesOrEquals (id1 id2 : Z) : bool :=
  if negb (TransactionIdIsNormal id1) || negb (TransactionIdIsNormal id2) then id1 <=? id2
  else s32 (id1 - id2) <=? 0.

Definition TransactionIdFollows (id1 id2 : Z) : bool :=
  if negb (TransactionIdIsNormal id1) || negb (TransactionIdIsNormal id2) then id2 <? id1
  else 0 <? s32 (id1 - id2).

Definition TransactionIdFollowsOrEquals (id1 id2 : Z) : bool :=
  if negb (TransactionIdIsNormal id1) || negb (TransactionIdIsNormal id2) then id2 <=? id1
  else 0 <=? s32 (id1 - id2).

Definition TransactionIdAdvance (dest : Z) : Z :=
  let dest := u32 (dest + 1) in
  if dest <? FirstNormalTransactionId then FirstNormalTransactionId else dest.

(** Below [FirstNormalTransactionId] the counter goes on backwards, past zero. *)
Definition TransactionIdRetreat (dest : Z) : Z :=
  let dest := u32 (dest - 1) in
  if dest <? FirstNormalTransactionId then MaxTransactionId else dest.

(** ** The circle of normal identifiers *)

Definition normal_xid (xid : Z) : Prop := FirstNormalTransactionId <= xid < 2 ^ 32.

(** How far forward [b] lies from [a]. *)
Definition xid_dist (a b : Z) : Z := (b - a) mod 2 ^ 32.

Lemma xid_dist_bound a b : 0 <= xid_dist a b < 2 ^ 32.
Proof. unfold xid_dist. apply Z.mod_pos_bound. lia. Qed.

Lemma xid_dist_refl a : xid_dist a a = 0.
Proof. unfold xid_dist. by rewrite Z.sub_diag. Qed.

Lemma normal_valid xid : normal_xid xid -> TransactionIdIsNormal xid = true /\ TransactionIdIsValid xid = true.
Proof.
  unfold normal_xid, TransactionIdIsNormal, TransactionIdIsValid, FirstNormalTransactionId, InvalidTransactionId. lia.
Qed.

Lemma precedes_dist a b :
  normal_xid a -> normal_xid b -> TransactionIdPrecedes a b = (0 <? xid_dist a b) && (xid_dist a b <=? 2 ^ 31).
Proof.
  intros Ha Hb. destruct (normal_valid a Ha) as [Na _]. destruct (normal_valid b Hb) as [Nb _].
  unfold TransactionIdPrecedes. rewrite Na, Nb. cbn [negb orb]. unfold s32, xid_dist, normal_xid in *. zlia.
Qed.

Lemma follows_dist a b :
  normal_xid a -> normal_xid b -> TransactionIdFollows a b = (0 <? xid_dist b a) && (xid_dist b a <? 2 ^ 31).
Proof.
  intros Ha Hb. destruct (normal_valid a Ha) as [Na _]. destruct (normal_valid b Hb) as [Nb _].
  unfold TransactionIdFollows. rewrite Na, Nb. cbn [negb orb]. unfold s32, xid_dist, normal_xid in *. zlia.
Qed.

Lemma precedes_or_equals_dist a b :
  normal_xid a -> normal_xid b -> TransactionIdPrecedesOrEquals a b = (xid_dist a b <=? 2 ^ 31).
Proof.
  intros Ha Hb. destruct (normal_valid a Ha) as [Na _]. destruct (normal_valid b Hb) as [Nb _].
  unfold TransactionIdPrecedesOrEquals. rewrite Na, Nb. cbn [negb orb]. unfold s32, xid_dist, normal_xid in *. zlia.
Qed.

Lemma follows_or_equals_dist a b :
  normal_xid a -> normal_xid b -> TransactionIdFollowsOrEquals a b = (xid_dist b a <? 2 ^ 31).
Proof.
  intros Ha Hb. destruct (normal_valid a Ha) as [Na _]. destruct (normal_valid b Hb) as [Nb _].
  unfold TransactionIdFollowsOrEquals. rewrite Na, Nb. cbn [negb orb]. unfold s32, xid_dist, normal_xid in *. zlia.
Qed.

Lemma advance_normal xid : normal_xid xid -> normal_xid (TransactionIdAdvance xid).
Proof.
  unfold normal_xid, TransactionIdAdvance, FirstNormalTransactionId. intros H. pose proof (u32_bound (xid + 1)).
  destruct (Z.ltb_spec (u32 (xid + 1)) 3); lia.
Qed.

(** Advancing gets strictly closer to a later identifier without passing it. *)
Lemma advance_dist a b :
  normal_xid a -> normal_xid b -> 0 < xid_dist a b ->
  0 < xid_dist a (TransactionIdAdvance a) /\
  xid_dist a b = xid_dist a (TransactionIdAdvance a) + xid_dist (TransactionIdAdvance a) b.
Proof.
  unfold normal_xid, xid_dist, TransactionIdAdvance, u32, FirstNormalTransactionId. intros Ha Hb Hd.
  destruct (Z.ltb_spec ((a + 1) mod 2 ^ 32) 3); zlia.
Qed.
