(* ===== verification/Bitstream.v ===== *)
(** * The in-memory bit stream

    Models src/backend/utils/misc/bitstream.c and the [Bitstream] struct of
    src/include/utils/bitstream.h: a cursor over a byte buffer that reads and
    writes single bits, most significant bit of each byte first.  The buffer the
    C struct points to is carried in the record; an out-parameter of a C function
    is an extra argument and result.  The section [Refinement] relates the stream
    to the flat list of bits [bits (bs_data bs)]. *)

From S2P Require Import Prelude.

Record Bitstream := mkBitstream {
  bs_bitOffset : Z;
  bs_byteOffset : Z;
  bs_data : list Z;
  bs_dataSize : Z;
  bs_error : bool
}.

(** ** Operations *)

Definition Bitstream_CheckForError (bs : Bitstream) : bool * Bitstream :=
  if bs_error bs then (false, bs)
  else if bs_dataSize bs <=? bs_byteOffset bs then
    (false, mkBitstream (bs_bitOffset bs) 0 (bs_data bs) (bs_dataSize bs) true)
  else (true, bs).

Definition Bitstream_Init (d : list Z) (size : Z) : Bitstream :=
  mkBitstream 0 0 d size false.

(** [bitOffset++] with the carry into [byteOffset]. *)
Definition Bitstream_advance (bs : Bitstream) : Bitstream :=
  if bs_bitOffset bs + 1 =? 8
  then mkBitstream 0 (s32 (bs_byteOffset bs + 1)) (bs_data bs) (bs_dataSize bs) (bs_error bs)
  else mkBitstream (bs_bitOffset bs + 1) (bs_byteOffset bs) (bs_data bs) (bs_dataSize bs) (bs_error bs).

Definition Bitstream_GetBit (bs : Bitstream) (v : Z) : outcome (bool * Bitstream * Z) :=
  let '(ok, bs) := Bitstream_CheckForError bs in
  if negb ok then Ok (false, bs, v)
  else
    c ← zget (bs_data bs) (bs_byteOffset bs);
    let mask := u32 (Z.shiftl 1 (7 - bs_bitOffset bs)) in
    let v := if Z.land c mask =? 0 then 0 else 1 in
    Ok (true, Bitstream_advance bs, v).

Definition Bitstream_GetOffset (bs : Bitstream) : Z :=
  s32 (s32 (bs_byteOffset bs * 8) + bs_bitOffset bs).

Definition Bitstream_Skip (bs : Bitstream) (skipBitCount : Z) : bool * Bitstream :=
  let '(ok, bs) := Bitstream_CheckForError bs in
  if negb ok then (false, bs)
  else
    let newBitOffset := u32 (bs_bitOffset bs + skipBitCount) in
    (true, mkBitstream (newBitOffset mod 8)
                       (s32 (u32 (bs_byteOffset bs + newBitOffset / 8)))
                       (bs_data bs) (bs_dataSize bs) (bs_error bs)).

Definition Bitstream_Align (bs : Bitstream) (alignment : Z) : bool * Bitstream :=
  let forAlignment := Z.rem (Bitstream_GetOffset bs) alignment in
  if 0 <? forAlignment then Bitstream_Skip bs (alignment - forAlignment) else (true, bs).

(** The returned pointer is given as its offset from the start of the buffer. *)
Definition Bitstream_GetAlignedData (bs : Bitstream) (alignment : Z) : Z * Bitstream :=
  let '(_, bs) := Bitstream_Align bs alignment in (bs_byteOffset bs, bs).

Definition Bitstream_PutBit (bs : Bitstream) (v : Z) : outcome (bool * Bitstream) :=
  let '(ok, bs) := Bitstream_CheckForError bs in
  if negb ok then Ok (false, bs)
  else
    bs ← (if v =? 0 then Ok bs
          else
            let mask := u32 (Z.shiftl 1 (7 - bs_bitOffset bs)) in
            c ← zget (bs_data bs) (bs_byteOffset bs);
            d ← zset (bs_data bs) (bs_byteOffset bs) (u8 (Z.lor c mask));
            Ok (mkBitstream (bs_bitOffset bs) (bs_byteOffset bs) d (bs_dataSize bs) (bs_error bs)));
    Ok (true, Bitstream_advance bs).

(** The loop of [Bitstream_Get]: [n] more bits to shift into [v]. *)
Fixpoint Bitstream_Get_loop (n : nat) (bs : Bitstream) (v value : Z)
  : outcome (bool * Bitstream * Z) :=
  match n with
  | O => Ok (true, bs, v)
  | S n =>
      let v := u32 (Z.shiftl v 1) in
      '(ok, bs, tmp) ← Bitstream_GetBit bs 0;
      if negb ok then Ok (false, bs, value)
      else Bitstream_Get_loop n bs (Z.lor v tmp) value
  end.

Definition Bitstream_Get (bs : Bitstream) (n value : Z) : outcome (bool * Bitstream * Z) :=
  Bitstream_Get_loop (Z.to_nat n) bs 0 value.

Fixpoint Bitstream_Put_loop (n : nat) (bs : Bitstream) (v mask : Z)
  : outcome (bool * Bitstream) :=
  match n with
  | O => Ok (true, bs)
  | S n =>
      let bitValue := if Z.land v mask =? 0 then 0 else 1 in
      '(ok, bs) ← Bitstream_PutBit bs bitValue;
      if negb ok then Ok (false, bs)
      else Bitstream_Put_loop n bs v (Z.shiftr mask 1)
  end.

Definition Bitstream_Put (bs : Bitstream) (v bitCount : Z) : outcome (bool * Bitstream) :=
  Bitstream_Put_loop (Z.to_nat bitCount) bs v (u32 (Z.shiftl 1 (bitCount - 1))).

Definition Bitstream_HasError (bs : Bitstream) : bool := bs_error bs.

Definition Bitstream_GetRemaining (bs : Bitstream) : Z :=
  s32 (s32 (bs_dataSize bs * 8) - Bitstream_GetOffset bs).

Definition Bitstream_GetLength (bs : Bitstream) : Z :=
  if bs_bitOffset bs =? 0 then bs_byteOffset bs else s32 (bs_byteOffset bs + 1).

(** ** The stream as a list of bits *)

Definition bits8 (c : Z) : list bool :=
  [Z.testbit c 7; Z.testbit c 6; Z.testbit c 5; Z.testbit c 4;
   Z.testbit c 3; Z.testbit c 2; Z.testbit c 1; Z.testbit c 0].

Definition bits (d : list Z) : list bool := d ≫= bits8.
#[global] Arguments bits : simpl never.
#[global] Arguments u8 : simpl never.
#[global] Arguments u32 : simpl never.

(** The [n] low bits of [v], most significant first, and their value. *)
Fixpoint bits_msb (n : nat) (v : Z) : list bool :=
  match n with
  | O => []
  | S n => Z.testbit v (Z.of_nat n) :: bits_msb n v
  end.

Fixpoint val_msb (v : Z) (l : list bool) : Z :=
  match l with
  | [] => v
  | b :: l => val_msb (2 * v + Z.b2z b) l
  end.

(** A usable stream: the cursor is normalised, the buffer has at least the
    announced size and the size is small enough for bit offsets to be C [int]s. *)
Definition bs_wf (bs : Bitstream) : Prop :=
  bs_error bs = false /\ 0 <= bs_bitOffset bs < 8 /\ 0 <= bs_byteOffset bs /\
  8 * bs_byteOffset bs + bs_bitOffset bs <= 8 * bs_dataSize bs /\
  bs_dataSize bs <= zlen (bs_data bs) /\ 8 * bs_dataSize bs < 2 ^ 31 /\
  Forall (ubits 8) (bs_data bs).

(** The bits of the stream: those of the first [dataSize] bytes of the buffer. *)
Definition bs_bits (bs : Bitstream) : list bool :=
  bits (take (Z.to_nat (bs_dataSize bs)) (bs_data bs)).

Definition bs_pos (bs : Bitstream) : nat :=
  Z.to_nat (8 * bs_byteOffset bs + bs_bitOffset bs).

(** Two states of one stream: same buffer size, same announced size. *)
Definition bs_same (bs bs' : Bitstream) : Prop :=
  bs_dataSize bs' = bs_dataSize bs /\ length (bs_data bs') = length (bs_data bs).

(** A stream that has been written up to the cursor, zeros after it. *)
Definition bs_written (bs : Bitstream) (w : list bool) : Prop :=
  bs_wf bs /\ bs_pos bs = length w /\
  bs_bits bs = w ++ replicate (length (bs_bits bs) - length w) false.

(** A stream whose unread bits are [r]. *)
Definition bs_unread (bs : Bitstream) (r : list bool) : Prop :=
  bs_wf bs /\ drop (bs_pos bs) (bs_bits bs) = r.

Lemma bits_cons c d : bits (c :: d) = bits8 c ++ bits d.
Proof. done. Qed.

Lemma bits_length d : length (bits d) = (8 * length d)%nat.
Proof. induction d; [done |]. rewrite bits_cons, length_app, IHd. simpl. lia. Qed.

Lemma bits_lookup d i j c :
  d !! i = Some c -> (j < 8)%nat -> bits d !! (8 * i + j)%nat = bits8 c !! j.
Proof.
  revert i. induction d as [| c' d IH]; intros [| i] Hi Hj; try discriminate Hi;
    rewrite bits_cons; simpl in Hi.
  - injection Hi as ->. by rewrite lookup_app_l by (simpl; lia).
  - rewrite lookup_app_r by (simpl; lia). rewrite <- (IH i) by done.
    f_equal. simpl. lia.
Qed.

Lemma bits_insert d i j c c' :
  d !! i = Some c -> (j < 8)%nat -> bits8 c' = <[j := true]> (bits8 c) ->
  bits (<[i := c']> d) = <[(8 * i + j)%nat := true]> (bits d).
Proof.
  revert i. induction d as [| c0 d IH]; intros [| i] Hi Hj Hc; try discriminate Hi;
    simpl in Hi; rewrite bits_cons.
  - injection Hi as ->. change (<[O := c']> (c :: d)) with (c' :: d).
    by rewrite bits_cons, Hc, insert_app_l by (simpl; lia).
  - change (<[S i := c']> (c0 :: d)) with (c0 :: <[i := c']> d). rewrite bits_cons, insert_app_r_alt by (simpl; lia). rewrite (IH i) by done.
    do 2 f_equal. simpl. lia.
Qed.

Lemma bits8_set c j :
  ubits 8 c -> (j < 8)%nat ->
  bits8 (u8 (Z.lor c (2 ^ (7 - Z.of_nat j)))) = <[j := true]> (bits8 c).
Proof.
  intros Hc Hj. rewrite u8_small.
  2: { apply (ubits_lor 8); [done | done | split; [lia |]]. apply Z.pow_lt_mono_r; lia. }
  unfold bits8. rewrite !Z.lor_spec.
  do 8 (destruct j as [| j]; [simpl; rewrite ?orb_true_r, ?orb_false_r; done |]). lia.
Qed.

Lemma bits8_lookup c j :
  (j < 8)%nat -> bits8 c !! j = Some (Z.testbit c (7 - Z.of_nat j)).
Proof. intros Hj. do 8 (destruct j as [| j]; [done |]). lia. Qed.

Lemma bits_msb_length n v : length (bits_msb n v) = n.
Proof. induction n; simpl; auto. Qed.

Lemma val_msb_bits n v v0 :
  val_msb v0 (bits_msb n v) = v0 * 2 ^ Z.of_nat n + v mod 2 ^ Z.of_nat n.
Proof.
  revert v0. induction n as [| n IH]; intros v0; simpl val_msb.
  - rewrite Z.mod_1_r. simpl. lia.
  - rewrite IH, Nat2Z.inj_succ, Z.pow_succ_r by lia.
    rewrite (Z.mul_comm 2 (2 ^ Z.of_nat n)), Z.rem_mul_r by lia.
    rewrite <- Z.shiftr_div_pow2, <- Z.bit0_mod, Z.shiftr_spec, Z.add_0_l by lia. lia.
Qed.

(** ** Single bits *)

Lemma bs_bits_eq bs bs' :
  bs_data bs' = bs_data bs -> bs_dataSize bs' = bs_dataSize bs -> bs_bits bs' = bs_bits bs.
Proof. unfold bs_bits. by intros -> ->. Qed.

Lemma bs_bits_length bs :
  bs_wf bs -> length (bs_bits bs) = (8 * Z.to_nat (bs_dataSize bs))%nat.
Proof.
  intros (_ & _ & _ & _ & Hs & _). unfold bs_bits, zlen in *.
  rewrite bits_length, length_take. lia.
Qed.

Lemma bs_wf_check bs :
  bs_wf bs ->
  Bitstream_CheckForError bs =
  if (bs_pos bs <? length (bs_bits bs))%nat then (true, bs)
  else (false, mkBitstream 0 0 (bs_data bs) (bs_dataSize bs) true).
Proof.
  intros Hwf. pose proof Hwf as (He & Hb & Hy & Hle & Hs & _ & _).
  unfold Bitstream_CheckForError. rewrite He, bs_bits_length by done. unfold bs_pos.
  destruct (Z.leb_spec (bs_dataSize bs) (bs_byteOffset bs)), (Nat.ltb_spec
    (Z.to_nat (8 * bs_byteOffset bs + bs_bitOffset bs)) (8 * Z.to_nat (bs_dataSize bs)));
    try lia; [| done].
  do 2 f_equal. lia.
Qed.

Lemma bs_pos_split bs :
  bs_wf bs ->
  bs_pos bs = (8 * Z.to_nat (bs_byteOffset bs) + Z.to_nat (bs_bitOffset bs))%nat.
Proof. intros (_ & Hb & Hy & _). unfold bs_pos. lia. Qed.

Lemma bs_advance_wf bs d :
  bs_wf bs -> (bs_pos bs < length (bs_bits bs))%nat ->
  length d = length (bs_data bs) -> Forall (ubits 8) d ->
  let bs' := Bitstream_advance
    (mkBitstream (bs_bitOffset bs) (bs_byteOffset bs) d (bs_dataSize bs) (bs_error bs)) in
  bs_wf bs' /\ bs_pos bs' = S (bs_pos bs) /\ bs_data bs' = d /\
  bs_dataSize bs' = bs_dataSize bs.
Proof.
  intros Hwf Hlt Hlen Hd. pose proof Hwf as (He & Hb & Hy & Hle & Hs & Hmax & _).
  rewrite bs_bits_length in Hlt by done. unfold bs_pos, zlen in *.
  unfold Bitstream_advance, bs_wf, bs_pos; simpl.
  destruct (Z.eqb_spec (bs_bitOffset bs + 1) 8); simpl; unfold zlen;
    rewrite ?s32_small by lia; (split; [split_and!; auto; lia | split_and!; auto; lia]).
Qed.

Lemma Bitstream_PutBit_spec bs v :
  bs_wf bs -> (bs_pos bs < length (bs_bits bs))%nat ->
  exists bs', Bitstream_PutBit bs v = Ok (true, bs') /\ bs_wf bs' /\
    bs_pos bs' = S (bs_pos bs) /\ bs_same bs bs' /\
    bs_bits bs' =
      if v =? 0 then bs_bits bs else <[bs_pos bs := true]> (bs_bits bs).
Proof.
  intros Hwf Hlt. pose proof Hwf as (He & Hb & Hy & Hle & Hs & Hmax & Hd).
  unfold Bitstream_PutBit. rewrite bs_wf_check, (proj2 (Nat.ltb_lt _ _) Hlt) by done. simpl.
  destruct (Z.eqb_spec v 0) as [-> | Hv]; simpl.
  - destruct (bs_advance_wf bs (bs_data bs)) as (? & ? & Hd' & Hs'); auto.
    destruct bs; simpl in *. eexists; split; [done |]. unfold bs_same, bs_bits.
    by rewrite Hd', Hs'.
  - pose proof Hlt as Hlt'. rewrite bs_bits_length, bs_pos_split in Hlt' by done.
    destruct (zget_ok (bs_data bs) (bs_byteOffset bs)) as [c Hc]; [lia |].
    rewrite Hc; simpl. apply zget_inv in Hc as [Hin Hc].
    rewrite zset_ok by done; simpl. rewrite u32_mask by lia.
    assert (ubits 8 c) by by eapply Forall_lookup_1.
    edestruct (bs_advance_wf bs
      (<[Z.to_nat (bs_byteOffset bs) := u8 (Z.lor c (2 ^ (7 - bs_bitOffset bs)))]> (bs_data bs)))
      as (? & ? & Hd' & Hs'); auto.
    + by rewrite length_insert.
    + apply Forall_insert; [done | apply u8_bound].
    + eexists; split; [done |]. split_and!; [done | done | |].
      { split; [done |]. by rewrite Hd', length_insert. }
      unfold bs_bits. rewrite Hd', Hs', bs_pos_split, take_insert_lt by (done || lia).
      apply bits_insert with c; [by rewrite lookup_take_lt by lia | lia |].
      rewrite <- bits8_set by (done || lia). by rewrite Z2Nat.id by lia.
Qed.

Lemma Bitstream_GetBit_spec bs v b :
  bs_wf bs -> bs_bits bs !! bs_pos bs = Some b ->
  exists bs', Bitstream_GetBit bs v = Ok (true, bs', Z.b2z b) /\ bs_wf bs' /\
    bs_pos bs' = S (bs_pos bs) /\ bs_data bs' = bs_data bs /\
    bs_dataSize bs' = bs_dataSize bs.
Proof.
  intros Hwf Hlk. pose proof Hwf as (He & Hb & Hy & Hle & Hs & Hmax & Hd).
  assert (Hlt : (bs_pos bs < length (bs_bits bs))%nat) by by eapply lookup_lt_Some.
  unfold Bitstream_GetBit. rewrite bs_wf_check, (proj2 (Nat.ltb_lt _ _) Hlt) by done. simpl.
  pose proof Hlt as Hlt'. rewrite bs_bits_length, bs_pos_split in Hlt' by done.
  destruct (zget_ok (bs_data bs) (bs_byteOffset bs)) as [c Hc]; [lia |].
  rewrite Hc; simpl. apply zget_inv in Hc as [Hin Hc].
  unfold bs_bits in Hlk. rewrite bs_pos_split, (bits_lookup _ _ _ c), bits8_lookup in Hlk
    by (done || lia || by rewrite lookup_take_lt by lia).
  rewrite Z2Nat.id in Hlk by lia. injection Hlk as <-.
  destruct (bs_advance_wf bs (bs_data bs)) as (? & ? & Hd' & ?); auto.
  rewrite u32_mask by lia. rewrite <- land_mask by lia.
  destruct bs; simpl in *. eexists; split; [| done].
  by destruct (Z.eqb_spec (Z.land c (2 ^ (7 - bs_bitOffset0))) 0).
Qed.

(** A stream that has hit its end: every later operation fails and changes nothing. *)
Definition bs_failed (bs : Bitstream) : Prop := bs_error bs = true.

Lemma bs_failed_check bs :
  bs_failed bs -> Bitstream_CheckForError bs = (false, bs).
Proof. unfold Bitstream_CheckForError. by intros ->. Qed.

(** What is left of a stream that ran out of room: a byte buffer of the same size. *)
Definition bs_junk (bs bs' : Bitstream) : Prop :=
  length (bs_data bs') = length (bs_data bs) /\ Forall (ubits 8) (bs_data bs').

(** ** Runs of bits *)

Lemma bs_written_snoc bs w v :
  bs_written bs w -> (length w < length (bs_bits bs))%nat ->
  exists bs', Bitstream_PutBit bs v = Ok (true, bs') /\
    bs_written bs' (w ++ [negb (v =? 0)]) /\ bs_same bs bs'.
Proof.
  intros (Hwf & Hpos & Hbits) Hlt.
  destruct (Bitstream_PutBit_spec bs v) as (bs' & -> & Hwf' & Hpos' & Hsz & Hb); [done | lia |].
  exists bs'. split_and!; auto. split_and!; [done | rewrite length_app; simpl; lia |].
  assert (Hl : length (bs_bits bs') = length (bs_bits bs)).
  { rewrite Hb. destruct (v =? 0); [done | apply length_insert]. }
  rewrite Hl, Hb, length_app; simpl.
  destruct (length (bs_bits bs) - length w)%nat as [| k] eqn:Ek; [lia |].
  replace (length (bs_bits bs) - (length w + 1))%nat with k by lia.
  rewrite <- app_assoc; simpl. rewrite Hbits. simpl replicate.
  destruct (v =? 0); [done |]. rewrite Hpos. simpl negb.
  rewrite insert_app_r_alt, Nat.sub_diag by lia. done.
Qed.

Lemma bs_written_full bs w v :
  bs_written bs w -> length w = length (bs_bits bs) ->
  exists bs', Bitstream_PutBit bs v = Ok (false, bs') /\ bs_failed bs' /\
    bs_data bs' = bs_data bs.
Proof.
  intros (Hwf & Hpos & _) Hfull. unfold Bitstream_PutBit.
  rewrite bs_wf_check, (proj2 (Nat.ltb_ge _ _)) by (done || lia). by eexists.
Qed.

Lemma bs_written_cap bs w :
  bs_written bs w -> Z.of_nat (length (bs_bits bs)) = 8 * bs_dataSize bs.
Proof.
  intros (Hwf & _). rewrite bs_bits_length by done. destruct Hwf as (_ & ? & ? & ? & _). lia.
Qed.

(** The mask of the bit under the cursor of [Bitstream_Put_loop], and its shift. *)
Definition put_mask (n : nat) (mask : Z) : Prop := n = O \/ mask = 2 ^ (Z.of_nat n - 1).

Lemma put_mask_next n mask :
  put_mask (S n) mask -> mask = 2 ^ Z.of_nat n /\ put_mask n (Z.shiftr mask 1).
Proof.
  intros [? | ->]; [done |]. replace (Z.of_nat (S n) - 1) with (Z.of_nat n) by lia.
  split; [done |]. destruct n as [| n]; [by left | right].
  rewrite Z.shiftr_div_pow2 by lia. by rewrite <- Z.pow_sub_r by lia.
Qed.

Lemma put_bit_value v n :
  negb ((if Z.land v (2 ^ Z.of_nat n) =? 0 then 0 else 1) =? 0) = Z.testbit v (Z.of_nat n).
Proof. rewrite <- land_mask by lia. by destruct (Z.land v _ =? 0). Qed.

Lemma Bitstream_Put_loop_ok n bs v w mask :
  bs_written bs w -> Z.of_nat (length w + n) <= 8 * bs_dataSize bs -> put_mask n mask ->
  exists bs', Bitstream_Put_loop n bs v mask = Ok (true, bs') /\
    bs_written bs' (w ++ bits_msb n v) /\ bs_same bs bs'.
Proof.
  revert bs w mask. induction n as [| n IH]; intros bs w mask Hw Hcap Hm; simpl.
  - exists bs. by rewrite app_nil_r.
  - apply put_mask_next in Hm as [-> Hm]. pose proof (bs_written_cap _ _ Hw).
    edestruct bs_written_snoc as (bs1 & -> & Hw1 & [Hs1 Hl1]); [done | lia |]; simpl.
    rewrite put_bit_value in Hw1.
    edestruct (IH bs1) as (bs2 & E & Hw2 & [Hs2 Hl2]); [exact Hw1 | | exact Hm |];
      [rewrite length_app, Hs1; simpl; lia |].
    exists bs2. unfold bs_same. rewrite Hs2, Hs1, Hl2, Hl1.
    split_and!; auto. by rewrite <- app_assoc in Hw2.
Qed.

Lemma Bitstream_Put_loop_full n bs v w mask :
  bs_written bs w -> 8 * bs_dataSize bs < Z.of_nat (length w + n) -> put_mask n mask ->
  exists bs', Bitstream_Put_loop n bs v mask = Ok (false, bs') /\ bs_junk bs bs'.
Proof.
  revert bs w mask. induction n as [| n IH]; intros bs w mask Hw Hcap Hm; simpl.
  - pose proof (bs_written_cap _ _ Hw). destruct Hw as (_ & _ & Hb).
    apply (f_equal length) in Hb. rewrite length_app in Hb. lia.
  - apply put_mask_next in Hm as [-> Hm]. pose proof (bs_written_cap _ _ Hw) as Hc.
    pose proof Hw as (_ & _ & Hb). apply (f_equal length) in Hb. rewrite length_app in Hb.
    destruct (decide (length w = length (bs_bits bs))) as [Hfull | Hlt].
    + edestruct bs_written_full as (bs1 & -> & Hf & Hd); [done | done |]; simpl.
      exists bs1. unfold bs_junk. rewrite Hd. split_and!; try done.
      destruct Hw as ((_ & _ & _ & _ & _ & _ & Hby) & _). done.
    + edestruct bs_written_snoc as (bs1 & -> & Hw1 & [Hs1 Hl1]); [done | lia |]; simpl.
      edestruct (IH bs1) as (bs2 & E & Hl & Hf); [exact Hw1 | | exact Hm |];
        [rewrite length_app, Hs1; simpl; lia |].
      exists bs2. unfold bs_junk. rewrite Hl, Hl1. by split_and!.
Qed.

(** Writing [bitCount] bits appends the low bits of [v], most significant first. *)
Lemma Bitstream_Put_ok bs v n w :
  bs_written bs w -> 1 <= n <= 32 -> Z.of_nat (length w) + n <= 8 * bs_dataSize bs ->
  exists bs', Bitstream_Put bs v n = Ok (true, bs') /\
    bs_written bs' (w ++ bits_msb (Z.to_nat n) v) /\ bs_same bs bs'.
Proof.
  intros Hw Hn Hcap. apply Bitstream_Put_loop_ok; [done | lia |].
  right. rewrite u32_mask by lia. f_equal. lia.
Qed.

(** Without room for all the bits the write fails and the stream is marked. *)
Lemma Bitstream_Put_full bs v n w :
  bs_written bs w -> 1 <= n <= 32 -> 8 * bs_dataSize bs < Z.of_nat (length w) + n ->
  exists bs', Bitstream_Put bs v n = Ok (false, bs') /\ bs_junk bs bs'.
Proof.
  intros Hw Hn Hcap. eapply Bitstream_Put_loop_full; [done | lia |].
  right. rewrite u32_mask by lia. f_equal. lia.
Qed.

(** [puts m bs w l]: the computation [m], run on a stream where [w] has been
    written, appends [l] when there is room for it and otherwise reports failure. *)
Definition puts (m : outcome (bool * Bitstream)) (bs : Bitstream) (w l : list bool) : Prop :=
  (Z.of_nat (length (w ++ l)) <= 8 * bs_dataSize bs ->
   exists bs', m = Ok (true, bs') /\ bs_written bs' (w ++ l) /\ bs_same bs bs') /\
  (8 * bs_dataSize bs < Z.of_nat (length (w ++ l)) ->
   exists bs', m = Ok (false, bs') /\ bs_junk bs bs').

Lemma puts_nil bs w : bs_written bs w -> puts (Ok (true, bs)) bs w [].
Proof.
  intros Hw. split; rewrite app_nil_r.
  - intros _. by exists bs.
  - pose proof (bs_written_cap _ _ Hw). destruct Hw as (_ & _ & Hb).
    apply (f_equal length) in Hb. rewrite length_app in Hb. lia.
Qed.

Lemma puts_Put bs v n w :
  bs_written bs w -> 1 <= n <= 32 ->
  puts (Bitstream_Put bs v n) bs w (bits_msb (Z.to_nat n) v).
Proof.
  intros Hw Hn. split; rewrite length_app, bits_msb_length; intros.
  - apply Bitstream_Put_ok; auto; lia.
  - eapply Bitstream_Put_full; [done | done | lia].
Qed.

Lemma puts_seq m k bs w l1 l2 :
  puts m bs w l1 ->
  (forall bs1, bs_written bs1 (w ++ l1) -> bs_same bs bs1 -> puts (k bs1) bs1 (w ++ l1) l2) ->
  puts ('(ok, bs) ← m; if negb ok then Ok (false, bs) else k bs) bs w (l1 ++ l2).
Proof.
  intros [Hok Hno] Hk. rewrite !length_app in *.
  destruct (Z_le_gt_dec (Z.of_nat (length w + length l1)) (8 * bs_dataSize bs)) as [Hr | Hr].
  - destruct Hok as (bs1 & -> & Hw1 & Hs1); [done |]; simpl.
    destruct (Hk bs1 Hw1 Hs1) as [Hok Hno']. destruct Hs1 as [Hs1 Hl1].
    rewrite <- app_assoc, Hs1 in Hok, Hno'. split; intros Hle.
    + destruct (Hok Hle) as (bs2 & -> & Hw2 & [Hs2 Hl2]). exists bs2. split_and!; try done.
      split; congruence.
    + destruct (Hno' Hle) as (bs2 & -> & [Hl2 Hj]). exists bs2. split; [done |]. split; [congruence | done].
  - split; rewrite !length_app; intros; [lia |].
    destruct Hno as (bs1 & -> & Hj); [lia |]. by exists bs1.
Qed.

Lemma bs_unread_cons bs b r v :
  bs_unread bs (b :: r) ->
  exists bs', Bitstream_GetBit bs v = Ok (true, bs', Z.b2z b) /\ bs_unread bs' r /\
    bs_data bs' = bs_data bs /\ bs_dataSize bs' = bs_dataSize bs.
Proof.
  intros (Hwf & Hd).
  assert (Hlk : bs_bits bs !! bs_pos bs = Some b).
  { rewrite <- (Nat.add_0_r (bs_pos bs)), <- lookup_drop, Hd. done. }
  destruct (Bitstream_GetBit_spec bs v b Hwf Hlk) as (bs' & -> & Hwf' & Hp & Hd' & Hs).
  exists bs'. split_and!; auto. split; [done |].
  rewrite Hp, (bs_bits_eq bs bs' Hd' Hs), <- (Nat.add_1_r (bs_pos bs)), <- drop_drop, Hd. done.
Qed.

Lemma bs_unread_nil bs v :
  bs_unread bs [] ->
  exists bs', Bitstream_GetBit bs v = Ok (false, bs', v) /\ bs_failed bs' /\
    bs_data bs' = bs_data bs.
Proof.
  intros (Hwf & Hd). apply (f_equal length) in Hd. rewrite length_drop in Hd. simpl in Hd.
  unfold Bitstream_GetBit. rewrite bs_wf_check, (proj2 (Nat.ltb_ge _ _)) by (done || lia).
  by eexists.
Qed.

Lemma lor_shift_bit v b :
  0 <= v -> Z.lor (2 * v) (Z.b2z b) = 2 * v + Z.b2z b.
Proof.
  intros Hv. destruct b; simpl Z.b2z; [| by rewrite Z.lor_0_r, Z.add_0_r].
  destruct v; done || lia.
Qed.

Lemma Bitstream_Get_loop_ok l bs v value r :
  bs_unread bs (l ++ r) -> 0 <= v -> v < 2 ^ (32 - Z.of_nat (length l)) ->
  (length l <= 32)%nat ->
  exists bs', Bitstream_Get_loop (length l) bs v value = Ok (true, bs', val_msb v l) /\
    bs_unread bs' r /\ bs_data bs' = bs_data bs /\ bs_dataSize bs' = bs_dataSize bs.
Proof.
  revert bs v. induction l as [| b l IH]; intros bs v Hu Hv Hlt Hlen; simpl in *.
  - by exists bs.
  - destruct (bs_unread_cons bs b (l ++ r) 0 Hu) as (bs1 & -> & Hu1 & Hd1 & Hs1); simpl.
    assert (Hp : 2 ^ (32 - Z.of_nat (length l)) = 2 * 2 ^ (32 - Z.of_nat (S (length l)))).
    { rewrite <- Z.pow_succ_r by lia. f_equal. lia. }
    assert (2 ^ (32 - Z.of_nat (length l)) <= 2 ^ 32) by (apply Z.pow_le_mono_r; lia).
    rewrite Z.shiftl_mul_pow2, Z.pow_1_r, Z.mul_comm, u32_small, lor_shift_bit by lia.
    destruct (IH bs1 (2 * v + Z.b2z b) Hu1) as (bs2 & -> & Hu2 & Hd2 & Hs2);
      [destruct b; simpl; lia | destruct b; simpl; lia | lia |].
    exists bs2. split_and!; auto; congruence.
Qed.

Lemma Bitstream_Get_loop_short n bs v value r :
  bs_unread bs r -> (length r < n)%nat ->
  exists bs', Bitstream_Get_loop n bs v value = Ok (false, bs', value) /\ bs_failed bs' /\
    bs_data bs' = bs_data bs.
Proof.
  revert bs v r. induction n as [| n IH]; intros bs v [| b r] Hu Hlen; simpl in *; try lia.
  - by destruct (bs_unread_nil bs 0 Hu) as (bs1 & -> & Hf & Hd); simpl; eexists.
  - destruct (bs_unread_cons bs b r 0 Hu) as (bs1 & -> & Hu1 & Hd1 & Hs1); simpl.
    rewrite <- Hd1. apply (IH _ _ r); [done | lia].
Qed.

(** Reading [n] bits returns their value and consumes them. *)
Lemma Bitstream_Get_ok bs n value v r :
  bs_unread bs (bits_msb (Z.to_nat n) v ++ r) -> 1 <= n <= 32 -> 0 <= v < 2 ^ n ->
  exists bs', Bitstream_Get bs n value = Ok (true, bs', v) /\ bs_unread bs' r /\
    bs_data bs' = bs_data bs /\ bs_dataSize bs' = bs_dataSize bs.
Proof.
  intros Hu Hn Hv. unfold Bitstream_Get.
  edestruct (Bitstream_Get_loop_ok (bits_msb (Z.to_nat n) v) bs 0 value r)
    as (bs' & E & Hu' & Hd' & Hs'); rewrite ?bits_msb_length in *; try done || lia.
  exists bs'. split_and!; auto. rewrite E, val_msb_bits, Z2Nat.id by lia.
  by rewrite Z.mod_small by lia.
Qed.

(** Reading past the end fails, marks the stream and leaves the value alone. *)
Lemma Bitstream_Get_short bs n value r :
  bs_unread bs r -> 1 <= n -> Z.of_nat (length r) < n ->
  exists bs', Bitstream_Get bs n value = Ok (false, bs', value) /\ bs_failed bs' /\
    bs_data bs' = bs_data bs.
Proof. intros. eapply Bitstream_Get_loop_short; [done | lia]. Qed.

(** ** Skipping *)

Lemma bs_skip_wf bs k :
  bs_wf bs -> 0 <= k -> (bs_pos bs < length (bs_bits bs))%nat ->
  (bs_pos bs + Z.to_nat k <= length (bs_bits bs))%nat ->
  exists bs', Bitstream_Skip bs k = (true, bs') /\ bs_wf bs' /\
    bs_pos bs' = (bs_pos bs + Z.to_nat k)%nat /\ bs_data bs' = bs_data bs /\
    bs_dataSize bs' = bs_dataSize bs.
Proof.
  intros Hwf Hk Hlt Hle. unfold Bitstream_Skip.
  rewrite bs_wf_check, (proj2 (Nat.ltb_lt _ _) Hlt) by done; simpl.
  rewrite bs_bits_length in Hlt, Hle by done.
  destruct Hwf as (He & Hb & Hy & Hle' & Hs & Hmax & Hd). unfold bs_pos, zlen in *.
  assert (0 <= (bs_bitOffset bs + k) / 8 <= bs_bitOffset bs + k) by zlia.
  rewrite (u32_small (bs_bitOffset bs + k)) by lia.
  rewrite u32_small, s32_small by lia.
  eexists; split; [done |]. unfold bs_wf, bs_pos, zlen; simpl.
  pose proof (Z.div_mod (bs_bitOffset bs + k) 8 ltac:(lia)).
  pose proof (Z.mod_pos_bound (bs_bitOffset bs + k) 8 ltac:(lia)).
  split_and!; auto; lia.
Qed.

(** Skipping in a stream being written leaves zero bits behind the cursor. *)
Lemma bs_written_skip bs w k :
  bs_written bs w -> 0 < k -> Z.of_nat (length w) + k <= 8 * bs_dataSize bs ->
  exists bs', Bitstream_Skip bs k = (true, bs') /\
    bs_written bs' (w ++ replicate (Z.to_nat k) false) /\ bs_same bs bs'.
Proof.
  intros Hw Hk Hcap. pose proof (bs_written_cap _ _ Hw). destruct Hw as (Hwf & Hpos & Hb).
  destruct (bs_skip_wf bs k Hwf) as (bs' & -> & Hwf' & Hp & Hd & Hs); [lia.. |].
  exists bs'. split_and!; [done | | split; [done | by rewrite Hd]].
  split_and!; [done | rewrite length_app, length_replicate; lia |].
  rewrite (bs_bits_eq bs bs' Hd Hs). rewrite Hb at 1. rewrite length_app, length_replicate, <- app_assoc. f_equal.
  rewrite <- replicate_add. f_equal. lia.
Qed.

Lemma bs_unread_skip bs l r :
  bs_unread bs (l ++ r) -> l <> [] ->
  exists bs', Bitstream_Skip bs (zlen l) = (true, bs') /\ bs_unread bs' r /\
    bs_data bs' = bs_data bs /\ bs_dataSize bs' = bs_dataSize bs.
Proof.
  intros (Hwf & Hd) Hl. pose proof Hd as Hlen. apply (f_equal length) in Hlen.
  rewrite length_drop, length_app in Hlen. unfold zlen.
  assert (length l <> O) by (by destruct l).
  destruct (bs_skip_wf bs (Z.of_nat (length l)) Hwf) as (bs' & -> & Hwf' & Hp & Hd' & Hs); [lia.. |].
  exists bs'. split_and!; auto. split; [done |].
  rewrite Hp, (bs_bits_eq bs bs' Hd' Hs), <- drop_drop, Hd, Nat2Z.id. by rewrite drop_app_length.
Qed.

(** ** Fresh streams *)

Lemma bits_app d1 d2 : bits (d1 ++ d2) = bits d1 ++ bits d2.
Proof. unfold bits. by rewrite bind_app. Qed.

Lemma bits_take n d : bits (take n d) = take (8 * n) (bits d).
Proof.
  destruct (Nat.le_gt_cases n (length d)).
  - rewrite <- (take_drop n d) at 2. rewrite bits_app, take_app_length'; [done |].
    rewrite bits_length, length_take. lia.
  - rewrite !take_ge; [done | rewrite bits_length; lia | lia].
Qed.

Lemma bits_zero n : bits (replicate n 0) = replicate (8 * n) false.
Proof.
  induction n as [| n IH]; [done |]. replace (8 * S n)%nat with (8 + 8 * n)%nat by lia.
  change (replicate (S n) 0) with (0 :: replicate n 0). by rewrite bits_cons, IH.
Qed.

Lemma bs_init_wf d size :
  0 <= size <= zlen d -> 8 * size < 2 ^ 31 -> Forall (ubits 8) d ->
  bs_wf (Bitstream_Init d size).
Proof. intros. unfold bs_wf; simpl. split_and!; auto; lia. Qed.

Lemma bs_init_written d size :
  0 <= size <= zlen d -> 8 * size < 2 ^ 31 -> Forall (ubits 8) d ->
  take (Z.to_nat size) d = replicate (Z.to_nat size) 0 ->
  bs_written (Bitstream_Init d size) [].
Proof.
  intros Hs Hmax Hd Hz. split_and!; [by apply bs_init_wf | done |].
  rewrite bs_bits_length by (by apply bs_init_wf). unfold bs_bits; simpl.
  by rewrite Hz, bits_zero, Nat.sub_0_r.
Qed.

Lemma bs_init_unread d size :
  0 <= size <= zlen d -> 8 * size < 2 ^ 31 -> Forall (ubits 8) d ->
  bs_unread (Bitstream_Init d size) (bits (take (Z.to_nat size) d)).
Proof. intros. split; [by apply bs_init_wf | done]. Qed.

(** ** Safety of every stream operation *)

(** What holds of any stream between operations, failed or not. *)
Definition bs_inv (bs : Bitstream) : Prop :=
  0 <= bs_bitOffset bs < 8 /\ 0 <= bs_byteOffset bs < 2 ^ 31 /\
  bs_dataSize bs <= zlen (bs_data bs) /\ 8 * bs_dataSize bs < 2 ^ 31.

Inductive bs_op :=
| OpGet (n : Z)
| OpPut (v n : Z)
| OpSkip (k : Z)
| OpAlign (alignment : Z).

Definition bs_run1 (op : bs_op) (bs : Bitstream) : outcome (bool * Bitstream) :=
  match op with
  | OpGet n => '(ok, bs, _) ← Bitstream_Get bs n 0; Ok (ok, bs)
  | OpPut v n => Bitstream_Put bs v n
  | OpSkip k => Ok (Bitstream_Skip bs k)
  | OpAlign a => Ok (Bitstream_Align bs a)
  end.

Fixpoint bs_run (ops : list bs_op) (bs : Bitstream) : outcome (list bool * Bitstream) :=
  match ops with
  | [] => Ok ([], bs)
  | op :: ops =>
      '(ok, bs) ← bs_run1 op bs;
      '(oks, bs) ← bs_run ops bs;
      Ok (ok :: oks, bs)
  end.

Lemma bs_inv_check bs ok bs' :
  bs_inv bs -> Bitstream_CheckForError bs = (ok, bs') ->
  bs_inv bs' /\ bs_data bs' = bs_data bs /\
  (ok = true -> bs' = bs /\ bs_byteOffset bs < bs_dataSize bs).
Proof.
  intros (? & ? & ? & ?). unfold Bitstream_CheckForError.
  destruct (bs_error bs); [| destruct (Z.leb_spec (bs_dataSize bs) (bs_byteOffset bs))];
    intros [= <- <-]; unfold bs_inv; simpl; split_and!; try done; lia.
Qed.

Lemma bs_inv_advance bs d :
  bs_inv bs -> bs_byteOffset bs < bs_dataSize bs -> length d = length (bs_data bs) ->
  bs_inv (Bitstream_advance
    (mkBitstream (bs_bitOffset bs) (bs_byteOffset bs) d (bs_dataSize bs) (bs_error bs))).
Proof.
  intros (? & ? & Hs & ?) Hlt Hd. unfold Bitstream_advance, bs_inv, zlen in *; simpl.
  rewrite s32_small by lia.
  destruct (Z.eqb_spec (bs_bitOffset bs + 1) 8); simpl; unfold zlen;
    split_and!; try done; lia.
Qed.

Lemma bs_inv_advance_same bs :
  bs_inv bs -> bs_byteOffset bs < bs_dataSize bs -> bs_inv (Bitstream_advance bs).
Proof. intros Hi Hlt. pose proof (bs_inv_advance bs (bs_data bs) Hi Hlt eq_refl). by destruct bs. Qed.

Lemma bs_advance_data bs : bs_data (Bitstream_advance bs) = bs_data bs.
Proof. unfold Bitstream_advance. by destruct (_ =? _). Qed.

(** An operation result that kept the invariant and the size of the buffer. *)
Definition bs_keeps (bs bs' : Bitstream) : Prop :=
  bs_inv bs' /\ length (bs_data bs') = length (bs_data bs).

Lemma bs_keeps_trans bs1 bs2 bs3 : bs_keeps bs1 bs2 -> bs_keeps bs2 bs3 -> bs_keeps bs1 bs3.
Proof. intros [_ H1] [H2 H3]. split; [done | congruence]. Qed.

Lemma Bitstream_GetBit_safe bs v :
  bs_inv bs -> exists ok bs' v', Bitstream_GetBit bs v = Ok (ok, bs', v') /\ bs_keeps bs bs'.
Proof.
  intros Hinv. unfold Bitstream_GetBit.
  destruct (Bitstream_CheckForError bs) as [[] bs1] eqn:E;
    apply bs_inv_check in E as (Hi & Hd & Hok); auto; simpl.
  - destruct Hok as [-> Hlt]; [done |]. pose proof Hinv as (? & ? & Hs & ?).
    destruct (zget_ok (bs_data bs) (bs_byteOffset bs)) as [c ->]; [lia |]; simpl.
    do 3 eexists; split; [done |]. split; [| by rewrite bs_advance_data].
    by apply bs_inv_advance_same.
  - do 3 eexists; split; [done |]. split; [done | by rewrite Hd].
Qed.

Lemma Bitstream_PutBit_safe bs v :
  bs_inv bs -> exists ok bs', Bitstream_PutBit bs v = Ok (ok, bs') /\ bs_keeps bs bs'.
Proof.
  intros Hinv. unfold Bitstream_PutBit.
  destruct (Bitstream_CheckForError bs) as [[] bs1] eqn:E;
    apply bs_inv_check in E as (Hi & Hd & Hok); auto; simpl.
  - destruct Hok as [-> Hlt]; [done |]. pose proof Hinv as (? & ? & Hs & ?).
    destruct (v =? 0); simpl.
    { do 2 eexists; split; [done |]. split; [| by rewrite bs_advance_data].
      by apply bs_inv_advance_same. }
    destruct (zget_ok (bs_data bs) (bs_byteOffset bs)) as [c ->]; [lia |]; simpl.
    rewrite zset_ok by lia; simpl.
    do 2 eexists; split; [done |]. unfold bs_keeps. rewrite bs_advance_data; simpl.
    rewrite length_insert. split; [| done]. apply bs_inv_advance; auto using length_insert.
  - do 2 eexists; split; [done |]. split; [done | by rewrite Hd].
Qed.

Lemma Bitstream_Get_safe n bs v value :
  bs_inv bs ->
  exists ok bs' v', Bitstream_Get_loop n bs v value = Ok (ok, bs', v') /\ bs_keeps bs bs'.
Proof.
  revert bs v. induction n as [| n IH]; intros bs v Hinv; simpl.
  { do 3 eexists; split; [done |]. by split. }
  destruct (Bitstream_GetBit_safe bs 0 Hinv) as (ok & bs1 & b & -> & Hk); simpl.
  destruct ok; simpl; [| by do 3 eexists].
  destruct (IH bs1 (Z.lor (u32 (Z.shiftl v 1)) b)) as (ok & bs2 & v' & -> & Hk'); [apply Hk |].
  do 3 eexists; split; [done |]. by eapply bs_keeps_trans.
Qed.

Lemma Bitstream_Put_safe n bs v mask :
  bs_inv bs ->
  exists ok bs', Bitstream_Put_loop n bs v mask = Ok (ok, bs') /\ bs_keeps bs bs'.
Proof.
  revert bs mask. induction n as [| n IH]; intros bs mask Hinv; simpl.
  { do 2 eexists; split; [done |]. by split. }
  edestruct (Bitstream_PutBit_safe bs) as (ok & bs1 & -> & Hk); [done |]; simpl.
  destruct ok; simpl; [| by do 2 eexists].
  destruct (IH bs1 (Z.shiftr mask 1)) as (ok & bs2 & -> & Hk'); [apply Hk |].
  do 2 eexists; split; [done |]. by eapply bs_keeps_trans.
Qed.

Lemma Bitstream_Skip_safe bs k : bs_inv bs -> bs_keeps bs (Bitstream_Skip bs k).2.
Proof.
  intros Hinv. unfold Bitstream_Skip.
  destruct (Bitstream_CheckForError bs) as [[] bs1] eqn:E;
    apply bs_inv_check in E as (Hi & Hd & Hok); auto; simpl; [| split; [done | by rewrite Hd]].
  destruct Hok as [-> Hlt]; [done |]. destruct Hinv as (? & ? & Hs & Hm).
  pose proof (u32_bound (bs_bitOffset bs + k)).
  set (nb := u32 (bs_bitOffset bs + k)) in *.
  assert (0 <= nb / 8 < 2 ^ 29) by zlia.
  assert (0 <= nb mod 8 < 8) by zlia.
  unfold bs_keeps, bs_inv; simpl.
  rewrite u32_small, s32_small by lia. split_and!; done || lia.
Qed.

Lemma bs_run1_safe op bs :
  bs_inv bs -> exists ok bs', bs_run1 op bs = Ok (ok, bs') /\ bs_keeps bs bs'.
Proof.
  intros Hinv. destruct op as [n | v n | k | a]; simpl.
  - destruct (Bitstream_Get_safe (Z.to_nat n) bs 0 0 Hinv) as (ok & bs' & v' & E & Hk).
    unfold Bitstream_Get. rewrite E. by do 2 eexists.
  - by apply Bitstream_Put_safe.
  - pose proof (Bitstream_Skip_safe bs k Hinv). destruct (Bitstream_Skip bs k). by do 2 eexists.
  - unfold Bitstream_Align. destruct (0 <? _); [| by do 2 eexists; split; [done | split]].
    set (k := a - _). pose proof (Bitstream_Skip_safe bs k Hinv).
    destruct (Bitstream_Skip bs k). by do 2 eexists.
Qed.

Lemma bs_run_safe ops bs :
  bs_inv bs -> exists oks bs', bs_run ops bs = Ok (oks, bs') /\ bs_keeps bs bs'.
Proof.
  revert bs. induction ops as [| op ops IH]; intros bs Hinv; simpl.
  { do 2 eexists; split; [done | by split]. }
  destruct (bs_run1_safe op bs Hinv) as (ok & bs1 & -> & Hk); simpl.
  destruct (IH bs1) as (oks & bs2 & -> & Hk'); [apply Hk |]; simpl.
  do 2 eexists; split; [done |]. by eapply bs_keeps_trans.
Qed.

(** ** Fields written in sequence *)

Definition field := (Z * Z)%type.
Definition field_ok (f : field) : Prop := 1 <= f.1 <= 32 /\ 0 <= f.2 < 2 ^ f.1.
Definition field_bits (f : field) : list bool := bits_msb (Z.to_nat f.1) f.2.

Fixpoint put_fields (fs : list field) (bs : Bitstream) : outcome (bool * Bitstream) :=
  match fs with
  | [] => Ok (true, bs)
  | (n, v) :: fs =>
      '(ok, bs) ← Bitstream_Put bs v n;
      if negb ok then Ok (false, bs) else put_fields fs bs
  end.

Fixpoint get_fields (ns : list Z) (bs : Bitstream) : outcome (bool * Bitstream * list Z) :=
  match ns with
  | [] => Ok (true, bs, [])
  | n :: ns =>
      '(ok, bs, v) ← Bitstream_Get bs n 0;
      if negb ok then Ok (false, bs, [])
      else
        '(ok, bs, vs) ← get_fields ns bs;
        Ok (ok, bs, v :: vs)
  end.

Lemma put_fields_ok fs bs w :
  bs_written bs w -> Forall field_ok fs ->
  Z.of_nat (length (w ++ flat_map field_bits fs)) <= 8 * bs_dataSize bs ->
  exists bs', put_fields fs bs = Ok (true, bs') /\
    bs_written bs' (w ++ flat_map field_bits fs) /\ bs_same bs bs'.
Proof.
  revert bs w. induction fs as [| [n v] fs IH]; intros bs w Hw Hok Hcap; simpl in *.
  { exists bs. by rewrite app_nil_r. }
  apply Forall_cons in Hok as [[Hn Hv] Hok]; simpl in *.
  rewrite !length_app in Hcap. change (field_bits (n, v)) with (bits_msb (Z.to_nat n) v) in *.
  rewrite bits_msb_length in Hcap.
  destruct (Bitstream_Put_ok bs v n w Hw Hn) as (bs1 & -> & Hw1 & [Hs1 Hl1]); [lia |]; simpl.
  destruct (IH bs1 _ Hw1 Hok) as (bs2 & -> & Hw2 & [Hs2 Hl2]).
  { rewrite !length_app, bits_msb_length, Hs1. lia. }
  exists bs2. unfold bs_same. rewrite Hs2, Hs1, Hl2, Hl1. split_and!; auto. by rewrite app_assoc.
Qed.

Lemma get_fields_ok fs bs r :
  Forall field_ok fs -> bs_unread bs (flat_map field_bits fs ++ r) ->
  exists bs', get_fields (map fst fs) bs = Ok (true, bs', map snd fs) /\ bs_unread bs' r.
Proof.
  revert bs. induction fs as [| [n v] fs IH]; intros bs Hok Hu; simpl in *.
  { by exists bs. }
  apply Forall_cons in Hok as [[Hn Hv] Hok]; simpl in *.
  rewrite <- app_assoc in Hu.
  destruct (Bitstream_Get_ok bs n 0 v _ Hu Hn Hv) as (bs1 & -> & Hu1 & _); simpl.
  destruct (IH bs1 Hok Hu1) as (bs2 & -> & Hu2); simpl. by exists bs2.
Qed.

(** ** Properties *)

(** Fields written one after the other into a zeroed buffer that has room
    for them are read back, in order and with their values, by a stream opened
    on the resulting buffer; writing and reading stay inside the buffer. *)
Theorem bitstream_fields_roundtrip (fs : list field) (size : nat) :
  Forall field_ok fs ->
  Z.of_nat (length (flat_map field_bits fs)) <= 8 * Z.of_nat size ->
  8 * Z.of_nat size < 2 ^ 31 ->
  exists bs,
    put_fields fs (Bitstream_Init (replicate size 0) (Z.of_nat size)) = Ok (true, bs) /\
    Bitstream_GetOffset bs = Z.of_nat (length (flat_map field_bits fs)) /\
    exists bs',
      get_fields (map fst fs) (Bitstream_Init (bs_data bs) (Z.of_nat size))
      = Ok (true, bs', map snd fs).
Proof.
  intros Hok Hcap Hmax. set (d := replicate size 0).
  assert (Hz : zlen d = Z.of_nat size) by (unfold zlen, d; by rewrite length_replicate).
  assert (Hw : bs_written (Bitstream_Init d (Z.of_nat size)) []).
  { apply bs_init_written; [lia | done | by apply Forall_replicate |].
    unfold d. rewrite take_replicate. f_equal. lia. }
  destruct (put_fields_ok fs _ [] Hw Hok Hcap) as (bs & -> & Hw' & [Hs Hl]); simpl in *.
  exists bs. split; [done |]. destruct Hw' as (Hwf & Hpos & Hb).
  pose proof Hwf as (_ & ? & ? & ? & Hlen & ? & Hd). split.
  { unfold Bitstream_GetOffset. unfold bs_pos in Hpos.
    rewrite (s32_small (bs_byteOffset bs * 8)), s32_small by lia. lia. }
  destruct (get_fields_ok fs (Bitstream_Init (bs_data bs) (Z.of_nat size))
    (replicate (length (bs_bits bs) - length (flat_map field_bits fs)) false))
    as (bs' & -> & _); [done | | by exists bs'].
  rewrite <- Hb. unfold bs_bits. rewrite Hs. apply bs_init_unread; auto; lia.
Qed.

Lemma bitstream_fields_roundtrip_witness :
  exists bs,
    put_fields [(1, 1); (12, 2730); (32, 4294967295)]
      (Bitstream_Init (replicate 6 0) (Z.of_nat 6)) = Ok (true, bs) /\
    Bitstream_GetOffset bs = 45 /\
    exists bs',
      get_fields [1; 12; 32] (Bitstream_Init (bs_data bs) (Z.of_nat 6))
      = Ok (true, bs', [1; 2730; 4294967295]).
Proof.
  apply (bitstream_fields_roundtrip [(1, 1); (12, 2730); (32, 4294967295)] 6).
  - repeat constructor; simpl; lia.
  - vm_compute. done.
  - vm_compute. done.
Defined.

(** Whatever the bytes and whatever sequence of reads, writes, skips and
    alignments is run, with any arguments, no byte outside the buffer is
    touched, the buffer keeps its size and the cursor stays normalised. *)
Theorem bitstream_ops_in_bounds (ops : list bs_op) (d : list Z) :
  8 * zlen d < 2 ^ 31 ->
  exists oks bs, bs_run ops (Bitstream_Init d (zlen d)) = Ok (oks, bs) /\
    length (bs_data bs) = length d /\ 0 <= bs_bitOffset bs < 8 /\ 0 <= bs_byteOffset bs.
Proof.
  intros Hmax. pose proof (zlen_nonneg d).
  destruct (bs_run_safe ops (Bitstream_Init d (zlen d))) as (oks & bs & E & (Hb & Hy & _) & Hl).
  - unfold bs_inv; simpl. split_and!; try done; lia.
  - exists oks, bs. split_and!; try done; lia.
Qed.

Lemma bitstream_ops_in_bounds_witness :
  exists oks bs,
    bs_run [OpPut 7 3; OpSkip (-20); OpGet 32; OpAlign 16; OpPut 1 32]
      (Bitstream_Init [0; 255; 3] 3) = Ok (oks, bs) /\
    length (bs_data bs) = 3%nat /\ 0 <= bs_bitOffset bs < 8 /\ 0 <= bs_byteOffset bs.
Proof.
  apply (bitstream_ops_in_bounds
    [OpPut 7 3; OpSkip (-20); OpGet 32; OpAlign 16; OpPut 1 32] [0; 255; 3]).
  vm_compute. done.
Defined.
