(* ===== verification/BitmapCompression.v ===== *)
(** * Bitmap compression

    Models src/backend/utils/misc/bitmap_compression.c: the block compressor of
    visibility bitmaps and its decompressor, on top of the bit stream of
    [Bitstream.v].  A [uint32] array is the list of its words; the raw copies of
    the uncompressed format go through the little-endian bytes of the words.
    [elog(ERROR)] is [Err], a copy that leaves a buffer is [Ub].  The in-memory
    bitmap word has 64 bits (BITS_PER_BITMAPWORD on 64-bit little-endian
    builds). *)

From S2P Require Import Prelude Bitstream.

(** ** Data *)

Definition BITMAP_COMPRESSION_FLAG_ZERO : Z := 0.
Definition BITMAP_COMPRESSION_FLAG_ONE : Z := 1.
Definition BITMAP_COMPRESSION_FLAG_RLE : Z := 2.
Definition BITMAP_COMPRESSION_FLAG_RAW : Z := 3.

(** The enum [BitmapCompressionType]: an [int] in C. *)
Definition BITMAP_COMPRESSION_TYPE_NO : Z := 0.
Definition BITMAP_COMPRESSION_TYPE_DEFAULT : Z := 1.

Definition BITMAP_COMPRESSION_HEADER_SIZE : Z := 2.

Record BitmapDecompressState := mkBitmapDecompressState {
  bds_bitstream : Bitstream;
  bds_compressionType : Z;
  bds_blockCount : Z
}.

(** [uint32] words and their bytes in memory. *)
Definition bytes_of_u32s (ws : list Z) : list Z := flat_map (le_split 4) ws.

Fixpoint u32s_of_bytes (bs : list Z) : list Z :=
  match bs with
  | b0 :: b1 :: b2 :: b3 :: bs => le_join [b0; b1; b2; b3] :: u32s_of_bytes bs
  | _ => []
  end.

(** ** Decompression *)

(** [st0] is the caller's structure before the call. *)
Definition BitmapDecompress_Init (st0 : BitmapDecompressState) (inData : list Z)
    (inDataSize : Z) : outcome (bool * BitmapDecompressState) :=
  let bs := Bitstream_Init inData inDataSize in
  '(ok, bs, tmp) ← Bitstream_Get bs 1 0;
  if negb ok then
    Ok (false, mkBitmapDecompressState bs (bds_compressionType st0) (bds_blockCount st0))
  else
    let ty := tmp in
    let '(ok, bs) := Bitstream_Skip bs 3 in
    if negb ok then Ok (false, mkBitmapDecompressState bs ty (bds_blockCount st0))
    else
      '(ok, bs, tmp) ← Bitstream_Get bs 12 tmp;
      if negb ok then Ok (false, mkBitmapDecompressState bs ty (bds_blockCount st0))
      else Ok (true, mkBitmapDecompressState bs ty tmp).

Definition BitmapDecompress_GetBlockCount (st : BitmapDecompressState) : Z := bds_blockCount st.

Definition BitmapDecompress_GetCompressionType (st : BitmapDecompressState) : Z :=
  bds_compressionType st.

Definition BitmapDecompress_HasError (st : BitmapDecompressState) : bool :=
  Bitstream_HasError (bds_bitstream st).

(** The [switch] on the flag of block [i]. *)
Definition BitmapDecompress_switch (flag i : Z) (bs : Bitstream) (bitmap : list Z)
    (lastBlockData rleRepeatCount : Z) (failed : bool)
  : outcome (Bitstream * list Z * Z * bool) :=
  if flag =? BITMAP_COMPRESSION_FLAG_ZERO then
    bitmap ← zset bitmap i 0;
    Ok (bs, bitmap, rleRepeatCount, failed)
  else if flag =? BITMAP_COMPRESSION_FLAG_ONE then
    bitmap ← zset bitmap i 0xFFFFFFFF;
    Ok (bs, bitmap, rleRepeatCount, failed)
  else if flag =? BITMAP_COMPRESSION_FLAG_RAW then
    old ← zget bitmap i;
    '(ok, bs, w) ← Bitstream_Get bs 32 old;
    bitmap ← zset bitmap i w;
    Ok (bs, bitmap, rleRepeatCount, if ok : bool then failed else true)
  else if flag =? BITMAP_COMPRESSION_FLAG_RLE then
    '(ok, bs, c) ← Bitstream_Get bs 8 rleRepeatCount;
    if negb ok then Ok (bs, bitmap, c, true)
    else
      bitmap ← zset bitmap i lastBlockData;
      Ok (bs, bitmap, c, failed)
  else Err "Invalid compression flag".

(** The block loop of [BitmapDecompress_Decompress] from block [i], [k] blocks to
    go.  The result carries the stream, the bitmap, the RLE counter and [failed]. *)
Fixpoint BitmapDecompress_loop (k : nat) (i : Z) (bs : Bitstream) (bitmap : list Z)
    (lastBlockData rleRepeatCount : Z) (failed : bool)
  : outcome (Bitstream * list Z * Z * bool) :=
  match k with
  | O => Ok (bs, bitmap, rleRepeatCount, failed)
  | S k =>
      if rleRepeatCount =? 0 then
        '(ok, bs, flag) ← Bitstream_Get bs 2 0;
        if negb ok then Ok (bs, bitmap, rleRepeatCount, true)
        else
          '(bs, bitmap, rleRepeatCount, failed) ←
            BitmapDecompress_switch flag i bs bitmap lastBlockData rleRepeatCount failed;
          last ← zget bitmap i;
          BitmapDecompress_loop k (i + 1) bs bitmap last rleRepeatCount failed
      else
        bitmap ← zset bitmap i lastBlockData;
        BitmapDecompress_loop k (i + 1) bs bitmap lastBlockData
          (u32 (rleRepeatCount - 1)) failed
  end.

Definition BitmapDecompress_Decompress (st : BitmapDecompressState) (bitmap : list Z)
    (bitmapDataSize : Z) : outcome (BitmapDecompressState * list Z) :=
  let n := bds_blockCount st in
  let ty := bds_compressionType st in
  if (n <? 0) || (bitmapDataSize <? n) then
    Err "invalid block count for bitmap during decompression"
  else if ty =? BITMAP_COMPRESSION_TYPE_NO then
    let '(p, bs) := Bitstream_GetAlignedData (bds_bitstream st) 16 in
    bytes ← mem_read (bs_data bs) p (n * 4);
    bitmap ← mem_write bitmap 0 (u32s_of_bytes bytes);
    Ok (mkBitmapDecompressState bs ty n, bitmap)
  else if ty =? BITMAP_COMPRESSION_TYPE_DEFAULT then
    '(bs, bitmap, rleRepeatCount, failed) ←
      BitmapDecompress_loop (Z.to_nat n) 0 (bds_bitstream st) bitmap 0 0 false;
    if 0 <? rleRepeatCount then Err "illegal RLE state after bitmap decompression"
    else if failed : bool then Err "bitstream read error seen during decompression"
    else Ok (mkBitmapDecompressState bs ty n, bitmap)
  else Err "illegal compression type during bitmap decompression".

(** ** Compression *)

Fixpoint Bitmap_EncodeRLE_loop (k : nat) (bs : Bitstream) (lastBlockFlag : Z)
  : outcome (bool * Bitstream) :=
  match k with
  | O => Ok (true, bs)
  | S k =>
      '(ok, bs) ← Bitstream_Put bs lastBlockFlag 2;
      if negb ok then Ok (false, bs) else Bitmap_EncodeRLE_loop k bs lastBlockFlag
  end.

Definition Bitmap_EncodeRLE (bs : Bitstream) (rleRepeatCount lastBlockFlag : Z)
  : outcome (bool * Bitstream) :=
  if (lastBlockFlag =? BITMAP_COMPRESSION_FLAG_RAW) || (4 <? rleRepeatCount) then
    '(ok, bs) ← Bitstream_Put bs BITMAP_COMPRESSION_FLAG_RLE 2;
    if negb ok then Ok (false, bs)
    else
      Bitstream_Put bs (u32 (rleRepeatCount - 1)) 8
  else Bitmap_EncodeRLE_loop (Z.to_nat rleRepeatCount) bs lastBlockFlag.

(** A single block outside a run: the flag, and the word itself when it is raw. *)
Definition Bitmap_BlockFlag (blockData : Z) : Z :=
  if blockData =? 0 then BITMAP_COMPRESSION_FLAG_ZERO
  else if blockData =? 0xFFFFFFFF then BITMAP_COMPRESSION_FLAG_ONE
  else BITMAP_COMPRESSION_FLAG_RAW.

Definition Bitmap_EncodeBlock (bs : Bitstream) (blockData : Z) : outcome (bool * Bitstream) :=
  if blockData =? 0 then Bitstream_Put bs BITMAP_COMPRESSION_FLAG_ZERO 2
  else if blockData =? 0xFFFFFFFF then Bitstream_Put bs BITMAP_COMPRESSION_FLAG_ONE 2
  else
    '(ok, bs) ← Bitstream_Put bs BITMAP_COMPRESSION_FLAG_RAW 2;
    if negb ok then Ok (false, bs) else Bitstream_Put bs blockData 32.

(** The pending run, if any, is written out. *)
Definition Bitmap_FlushRLE (bs : Bitstream) (rleRepeatCount lastBlockFlag : Z)
  : outcome (bool * Bitstream) :=
  if 0 <? rleRepeatCount then Bitmap_EncodeRLE bs rleRepeatCount lastBlockFlag
  else Ok (true, bs).

(** The loop of [Bitmap_Compress_Default] over the remaining blocks, [i] being
    the index of the first of them, and the write of the last run. *)
Fixpoint Bitmap_Compress_loop (blocks : list Z) (i : Z) (bs : Bitstream)
    (lastBlockData lastBlockFlag rleRepeatCount : Z) : outcome (bool * Bitstream) :=
  match blocks with
  | [] => Bitmap_FlushRLE bs rleRepeatCount lastBlockFlag
  | blockData :: blocks =>
      if (blockData =? lastBlockData) && (rleRepeatCount <=? 255) && (0 <? i) then
        Bitmap_Compress_loop blocks (i + 1) bs lastBlockData lastBlockFlag
          (rleRepeatCount + 1)
      else
        '(ok, bs) ← Bitmap_FlushRLE bs rleRepeatCount lastBlockFlag;
        if negb ok then Ok (false, bs)
        else
          let rleRepeatCount := if 0 <? rleRepeatCount then 0 else rleRepeatCount in
          '(ok, bs) ← Bitmap_EncodeBlock bs blockData;
          if negb ok then Ok (false, bs)
          else Bitmap_Compress_loop blocks (i + 1) bs blockData
                 (Bitmap_BlockFlag blockData) rleRepeatCount
  end.

Definition Bitmap_Compress_Default (bitmap : list Z) (bs : Bitstream)
  : outcome (bool * Bitstream) :=
  Bitmap_Compress_loop bitmap 0 bs 0 0 0.

Definition Bitmap_Compress_Write_Header (compressionType blockCount : Z) (bs : Bitstream)
  : outcome (bool * Bitstream) :=
  '(ok, bs) ← Bitstream_Put bs (u32 compressionType) 1;
  if negb ok then Ok (false, bs)
  else
    let '(ok, bs) := Bitstream_Skip bs 3 in
    if negb ok then Ok (false, bs) else Bitstream_Put bs (u32 blockCount) 12.

(** [memset(outData, 0, n)]. *)
Definition zero_prefix (d : list Z) (n : Z) : outcome (list Z) :=
  mem_write d 0 (replicate (Z.to_nat n) 0).

(** The [BITMAP_COMPRESSION_TYPE_NO] call, which the default type falls back to.
    Returns the length and the contents of [outData]. *)
Definition Bitmap_Compress_No (bitmap outData : list Z) (maxOutDataSize : Z)
  : outcome (Z * list Z) :=
  outData ← zero_prefix outData maxOutDataSize;
  let bs := Bitstream_Init outData maxOutDataSize in
  '(ok, bs) ← Bitmap_Compress_Write_Header BITMAP_COMPRESSION_TYPE_NO (zlen bitmap) bs;
  if negb ok then Err "Failed to write bitmap compression header"
  else if zlen bitmap =? 0 then Ok (2, bs_data bs)
  else
    let '(p, bs) := Bitstream_GetAlignedData bs 16 in
    d ← mem_write (bs_data bs) p (bytes_of_u32s bitmap);
    Ok (zlen bitmap * 4 + 2, d).

(** [bitmapDataSize] is the length of [bitmap]. *)
Definition Bitmap_Compress (compressionType : Z) (bitmap outData : list Z)
    (maxOutDataSize : Z) : outcome (Z * list Z) :=
  if compressionType =? BITMAP_COMPRESSION_TYPE_NO then
    Bitmap_Compress_No bitmap outData maxOutDataSize
  else
    outData ← zero_prefix outData maxOutDataSize;
    let bs := Bitstream_Init outData maxOutDataSize in
    '(ok, bs) ← Bitmap_Compress_Write_Header compressionType (zlen bitmap) bs;
    if negb ok then Err "Failed to write bitmap compression header"
    else if compressionType =? BITMAP_COMPRESSION_TYPE_DEFAULT then
      '(ok, bs) ← Bitmap_Compress_Default bitmap bs;
      if negb ok then
        outData ← zero_prefix (bs_data bs) maxOutDataSize;
        Bitmap_Compress_No bitmap outData maxOutDataSize
      else Ok (Bitstream_GetLength bs, bs_data bs)
    else Err "illegal compression type during bitmap compression".

(** ** Block counts *)

(** Returns [(onDiskBlockCount, bmsWordCount)]. *)
Definition BitmapDecompress_CalculateBlockCounts (st : BitmapDecompressState) : Z * Z :=
  let onDiskBlockCount := BitmapDecompress_GetBlockCount st in
  (onDiskBlockCount, if onDiskBlockCount =? 1 then 1 else onDiskBlockCount / 2).

(** The bitmap is NULL or its words. *)
Definition BitmapCompress_CalculateBlockCounts (bitmap : option (list Z)) : Z * Z :=
  match bitmap with
  | None => (0, 0)
  | Some words =>
      let bmsWordCount := zlen words in
      if (bmsWordCount =? 1)
         && (match words with w :: _ => Z.shiftr w 32 =? 0 | [] => false end)
      then (1, bmsWordCount) else (zlen words * 2, bmsWordCount)
  end.

(** ** The code words of the compressed format *)

Inductive token :=
| TZero
| TOne
| TRaw (w : Z)
| TRle (c : Z).

Definition token_bits (t : token) : list bool :=
  match t with
  | TZero => bits_msb 2 BITMAP_COMPRESSION_FLAG_ZERO
  | TOne => bits_msb 2 BITMAP_COMPRESSION_FLAG_ONE
  | TRaw w => bits_msb 2 BITMAP_COMPRESSION_FLAG_RAW ++ bits_msb 32 w
  | TRle c => bits_msb 2 BITMAP_COMPRESSION_FLAG_RLE ++ bits_msb 8 c
  end.

Definition token_ok (t : token) : Prop :=
  match t with
  | TZero | TOne => True
  | TRaw w => ubits 32 w
  | TRle c => ubits 8 c
  end.

(** The words a token sequence stands for, [last] being the previous word. *)
Fixpoint expand (last : Z) (ts : list token) : list Z :=
  match ts with
  | [] => []
  | TZero :: ts => 0 :: expand 0 ts
  | TOne :: ts => 0xFFFFFFFF :: expand 0xFFFFFFFF ts
  | TRaw w :: ts => w :: expand w ts
  | TRle c :: ts => replicate (S (Z.to_nat c)) last ++ expand last ts
  end.

(** The tokens the compressor writes. *)
Definition rle_tokens (cnt flag : Z) : list token :=
  if (flag =? BITMAP_COMPRESSION_FLAG_RAW) || (4 <? cnt) then [TRle (cnt - 1)]
  else replicate (Z.to_nat cnt)
         (if flag =? BITMAP_COMPRESSION_FLAG_ZERO then TZero else TOne).

Definition flush_tokens (cnt flag : Z) : list token :=
  if 0 <? cnt then rle_tokens cnt flag else [].

Definition block_token (w : Z) : token :=
  if w =? 0 then TZero else if w =? 0xFFFFFFFF then TOne else TRaw w.

Fixpoint compress_tokens (blocks : list Z) (i last flag cnt : Z) : list token :=
  match blocks with
  | [] => flush_tokens cnt flag
  | w :: blocks =>
      if (w =? last) && (cnt <=? 255) && (0 <? i)
      then compress_tokens blocks (i + 1) last flag (cnt + 1)
      else flush_tokens cnt flag ++ block_token w ::
           compress_tokens blocks (i + 1) w (Bitmap_BlockFlag w) (if 0 <? cnt then 0 else cnt)
  end.

Definition bitmap_tokens (blocks : list Z) : list token := compress_tokens blocks 0 0 0 0.

(** ** The compressor writes its tokens *)

Lemma Bitmap_EncodeRLE_puts bs w cnt flag :
  bs_written bs w -> 0 < cnt <= 256 -> 0 <= flag <= 3 -> flag <> BITMAP_COMPRESSION_FLAG_RLE ->
  puts (Bitmap_EncodeRLE bs cnt flag) bs w (flat_map token_bits (rle_tokens cnt flag)).
Proof.
  intros Hw Hc Hf Hr. unfold Bitmap_EncodeRLE, rle_tokens.
  destruct (_ || _) eqn:E; cbn [flat_map].
  - rewrite app_nil_r. apply puts_seq.
    + by apply (puts_Put bs BITMAP_COMPRESSION_FLAG_RLE 2 w).
    + intros bs1 Hw1 _. rewrite u32_small by lia. by apply (puts_Put bs1 (cnt - 1) 8).
  - apply orb_false_iff in E as [E _]. apply Z.eqb_neq in E.
    assert (Hb : token_bits (if flag =? BITMAP_COMPRESSION_FLAG_ZERO then TZero else TOne)
                 = bits_msb 2 flag).
    { unfold BITMAP_COMPRESSION_FLAG_RAW, BITMAP_COMPRESSION_FLAG_RLE in *.
      assert (flag = 0 \/ flag = 1) as [-> | ->] by lia; done. }
    clear Hc. revert bs w Hw. induction (Z.to_nat cnt) as [| n IH]; intros bs w Hw;
      cbn [flat_map replicate Bitmap_EncodeRLE_loop].
    { by apply puts_nil. }
    rewrite Hb. apply puts_seq; [by apply (puts_Put bs flag 2) |]. auto.
Qed.

Lemma Bitmap_FlushRLE_puts bs w cnt flag :
  bs_written bs w -> cnt <= 256 -> 0 <= flag <= 3 -> flag <> BITMAP_COMPRESSION_FLAG_RLE ->
  puts (Bitmap_FlushRLE bs cnt flag) bs w (flat_map token_bits (flush_tokens cnt flag)).
Proof.
  intros. unfold Bitmap_FlushRLE, flush_tokens. destruct (Z.ltb_spec 0 cnt).
  - by apply Bitmap_EncodeRLE_puts.
  - by apply puts_nil.
Qed.

Lemma Bitmap_EncodeBlock_puts bs w v :
  bs_written bs w -> puts (Bitmap_EncodeBlock bs v) bs w (token_bits (block_token v)).
Proof.
  intros Hw. unfold Bitmap_EncodeBlock, block_token. destruct (v =? 0).
  { by apply (puts_Put bs BITMAP_COMPRESSION_FLAG_ZERO 2). }
  destruct (v =? 0xFFFFFFFF).
  { by apply (puts_Put bs BITMAP_COMPRESSION_FLAG_ONE 2). }
  apply puts_seq; [by apply (puts_Put bs BITMAP_COMPRESSION_FLAG_RAW 2) |].
  intros bs1 Hw1 _. by apply (puts_Put bs1 v 32).
Qed.

Lemma Bitmap_BlockFlag_range v :
  0 <= Bitmap_BlockFlag v <= 3 /\ Bitmap_BlockFlag v <> BITMAP_COMPRESSION_FLAG_RLE.
Proof. unfold Bitmap_BlockFlag. by repeat destruct (_ =? _). Qed.

Lemma Bitmap_Compress_loop_puts blocks i bs w last flag cnt :
  bs_written bs w -> cnt <= 256 -> 0 <= flag <= 3 -> flag <> BITMAP_COMPRESSION_FLAG_RLE ->
  puts (Bitmap_Compress_loop blocks i bs last flag cnt) bs w
       (flat_map token_bits (compress_tokens blocks i last flag cnt)).
Proof.
  revert i bs w last flag cnt.
  induction blocks as [| v blocks IH]; intros i bs w last flag cnt Hw Hc Hf Hr; simpl.
  { by apply Bitmap_FlushRLE_puts. }
  destruct (_ && _ && _) eqn:E.
  - apply andb_true_iff in E as [[_ Hle]%andb_true_iff _]. apply Z.leb_le in Hle.
    apply IH; auto; lia.
  - rewrite flat_map_app; cbn [flat_map]. apply puts_seq; [by apply Bitmap_FlushRLE_puts |].
    intros bs1 Hw1 _. apply puts_seq; [by apply Bitmap_EncodeBlock_puts |].
    intros bs2 Hw2 _. destruct (Bitmap_BlockFlag_range v). apply IH; auto.
    destruct (Z.ltb_spec 0 cnt); lia.
Qed.

(** ** The tokens stand for the bitmap *)


Lemma expand_rle last ts cnt flag :
  0 < cnt <= 256 -> flag = Bitmap_BlockFlag last ->
  expand last (rle_tokens cnt flag ++ ts) = replicate (Z.to_nat cnt) last ++ expand last ts.
Proof.
  intros Hc ->. unfold rle_tokens. destruct (_ || _) eqn:E.
  - simpl. replace (Z.to_nat cnt) with (S (Z.to_nat (cnt - 1))) by lia. done.
  - apply orb_false_iff in E as [E _]. revert E. unfold Bitmap_BlockFlag.
    clear. destruct (Z.eqb_spec last 0) as [-> |].
    { intros _. simpl. induction (Z.to_nat cnt) as [| k IH]; simpl; [done | by rewrite IH]. }
    destruct (Z.eqb_spec last 0xFFFFFFFF) as [-> |]; [| done].
    intros _. simpl. induction (Z.to_nat cnt) as [| k IH]; simpl; [done | by rewrite IH].
Qed.

Lemma expand_flush last ts cnt flag :
  0 <= cnt <= 256 -> flag = Bitmap_BlockFlag last ->
  expand last (flush_tokens cnt flag ++ ts) = replicate (Z.to_nat cnt) last ++ expand last ts.
Proof.
  intros Hc Hf. unfold flush_tokens. destruct (Z.ltb_spec 0 cnt).
  - apply expand_rle; [lia | done].
  - by replace cnt with 0 by lia.
Qed.

Lemma expand_block last v ts : expand last (block_token v :: ts) = v :: expand v ts.
Proof.
  unfold block_token. destruct (Z.eqb_spec v 0) as [-> |]; [done |].
  by destruct (Z.eqb_spec v 0xFFFFFFFF) as [-> |].
Qed.

Lemma expand_compress blocks i last flag cnt :
  0 < i -> 0 <= cnt <= 256 -> flag = Bitmap_BlockFlag last ->
  expand last (compress_tokens blocks i last flag cnt)
  = replicate (Z.to_nat cnt) last ++ blocks.
Proof.
  revert i last flag cnt.
  induction blocks as [| v blocks IH]; intros i last flag cnt Hi Hc Hf; simpl.
  { rewrite <- (app_nil_r (flush_tokens cnt flag)), expand_flush by done. done. }
  destruct (_ && _ && _) eqn:E.
  - apply andb_true_iff in E as [[Hv Hle]%andb_true_iff _].
    apply Z.leb_le in Hle. apply Z.eqb_eq in Hv as ->. rewrite IH by (done || lia).
    replace (Z.to_nat (cnt + 1)) with (Z.to_nat cnt + 1)%nat by lia.
    by rewrite replicate_add, <- app_assoc.
  - rewrite expand_flush, expand_block by done. do 2 f_equal.
    by replace (if 0 <? cnt then 0 else cnt) with 0 by (destruct (Z.ltb_spec 0 cnt); lia);
      rewrite IH by (done || lia).
Qed.

Lemma expand_bitmap last blocks : expand last (bitmap_tokens blocks) = blocks.
Proof.
  destruct blocks as [| v blocks]; [done |]. unfold bitmap_tokens; cbn [compress_tokens].
  rewrite andb_false_r. change (flush_tokens 0 0) with (@nil token); cbn [app].
  by rewrite expand_block, expand_compress by done.
Qed.

Lemma rle_tokens_ok cnt flag :
  0 < cnt <= 256 -> Forall token_ok (rle_tokens cnt flag).
Proof.
  intros. unfold rle_tokens. destruct (_ || _).
  - constructor; [| done]. split; lia.
  - apply Forall_replicate. by destruct (flag =? _).
Qed.

Lemma compress_tokens_ok blocks i last flag cnt :
  0 <= cnt <= 256 -> Forall (ubits 32) blocks ->
  Forall token_ok (compress_tokens blocks i last flag cnt).
Proof.
  revert i last flag cnt. induction blocks as [| v blocks IH]; intros i last flag cnt Hc Hb; simpl.
  { unfold flush_tokens. destruct (Z.ltb_spec 0 cnt); [apply rle_tokens_ok; lia | constructor]. }
  apply Forall_cons in Hb as [Hv Hb]. destruct (_ && _ && _) eqn:E.
  - apply andb_true_iff in E as [[_ Hle]%andb_true_iff _]. apply Z.leb_le in Hle.
    apply IH; [lia | done].
  - apply Forall_app. split.
    { unfold flush_tokens. destruct (Z.ltb_spec 0 cnt); [apply rle_tokens_ok; lia | constructor]. }
    constructor; [unfold block_token; destruct (v =? 0); [done |]; by destruct (v =? 0xFFFFFFFF) |].
    apply IH; [| done]. destruct (Z.ltb_spec 0 cnt); lia.
Qed.

(** ** The decompressor reads tokens *)

(** [store i l m]: the words [l] stored into [m] from index [i] on. *)
Fixpoint store (i : nat) (l m : list Z) : list Z :=
  match l with
  | [] => m
  | x :: l => store (S i) l (<[i := x]> m)
  end.

Lemma store_length i l m : length (store i l m) = length m.
Proof. revert i m. induction l; intros; simpl; [done | by rewrite IHl, length_insert]. Qed.

Lemma store_app i l1 l2 m : store i (l1 ++ l2) m = store (i + length l1) l2 (store i l1 m).
Proof.
  revert i m. induction l1 as [| x l1 IH]; intros i m; simpl.
  - by rewrite Nat.add_0_r.
  - by rewrite IH, Nat.add_succ_r.
Qed.

Lemma store_take i l m :
  (i + length l <= length m)%nat ->
  store i l m = take i m ++ l ++ drop (i + length l) m.
Proof.
  revert i m. induction l as [| x l IH]; intros i m Hle; simpl in *.
  - by rewrite Nat.add_0_r, take_drop.
  - rewrite IH by (rewrite length_insert; lia).
    rewrite drop_insert_lt, Nat.add_succ_r by lia.
    rewrite (take_S_r _ _ x) by (rewrite list_lookup_insert_eq; [done | lia]).
    rewrite take_insert_ge, <- app_assoc by lia. done.
Qed.

Lemma store_all l m : length l = length m -> store 0 l m = l.
Proof. intros Hl. rewrite store_take by lia. by rewrite take_0, drop_ge, app_nil_r by lia. Qed.

Lemma zset_nat {A} (l : list A) (i : nat) x :
  (i < length l)%nat -> zset l (Z.of_nat i) x = Ok (<[i := x]> l).
Proof. intros. rewrite zset_ok by (unfold zlen; lia). by rewrite Nat2Z.id. Qed.

Lemma decompress_run c k i bs bitmap last failed :
  (i + c <= length bitmap)%nat -> Z.of_nat c < 2 ^ 32 ->
  BitmapDecompress_loop (c + k) (Z.of_nat i) bs bitmap last (Z.of_nat c) failed
  = BitmapDecompress_loop k (Z.of_nat (i + c)) bs (store i (replicate c last) bitmap)
      last 0 failed.
Proof.
  revert i bitmap. induction c as [| c IH]; intros i bitmap Hle Hc; simpl.
  { by rewrite Nat.add_0_r. }
  destruct (Z.eqb_spec (Z.of_nat (S c)) 0); [lia |].
  rewrite zset_nat by lia; simpl. rewrite u32_small by lia.
  replace (Z.of_nat (S c) - 1) with (Z.of_nat c) by lia.
  replace (Z.of_nat i + 1) with (Z.of_nat (S i)) by lia.
  rewrite IH by (rewrite ?length_insert; lia). do 2 f_equal. lia.
Qed.

(** What a token leaves pending after its first block, and that block. *)
Definition token_head (last : Z) (t : token) : Z :=
  match t with TZero => 0 | TOne => 0xFFFFFFFF | TRaw w => w | TRle _ => last end.
Definition token_rest (t : token) : Z := match t with TRle c => c | _ => 0 end.

Lemma expand_head last t ts :
  expand last (t :: ts)
  = token_head last t :: replicate (Z.to_nat (token_rest t)) (token_head last t)
      ++ expand (token_head last t) ts.
Proof. by destruct t. Qed.

Lemma decompress_token t k i bs bitmap last r :
  bs_unread bs (token_bits t ++ r) -> token_ok t -> (i < length bitmap)%nat ->
  exists bs', bs_unread bs' r /\ bs_data bs' = bs_data bs /\
    BitmapDecompress_loop (S k) (Z.of_nat i) bs bitmap last 0 false
    = BitmapDecompress_loop k (Z.of_nat (S i)) bs' (<[i := token_head last t]> bitmap)
        (token_head last t) (token_rest t) false.
Proof.
  intros Hu Ht Hi. cbn [BitmapDecompress_loop]. rewrite Z.eqb_refl.
  destruct (lookup_lt_is_Some_2 bitmap i Hi) as [old Hold].
  assert (Hget : forall w, zget (<[i := w]> bitmap) (Z.of_nat i) = Ok w).
  { intros w. apply zget_nat. by apply list_lookup_insert_eq. }
  replace (Z.of_nat i + 1) with (Z.of_nat (S i)) by lia.
  destruct t as [| | w | c]; cbn [token_bits token_head token_rest] in *;
    rewrite <- ?app_assoc in Hu;
    match type of Hu with
    | bs_unread _ (bits_msb 2 ?f ++ _) =>
        destruct (Bitstream_Get_ok bs 2 0 f _ Hu) as (bs1 & -> & Hu1 & Hd1 & _); [done | done |]
    end; cbn [mbind outcome_bind negb].
  - exists bs1. split_and!; auto. unfold BitmapDecompress_switch; simpl.
    rewrite zset_nat by done; simpl. by rewrite Hget.
  - exists bs1. split_and!; auto. unfold BitmapDecompress_switch; simpl.
    rewrite zset_nat by done; simpl. by rewrite Hget.
  - destruct (Bitstream_Get_ok bs1 32 old w _ Hu1) as (bs2 & E & Hu2 & Hd2 & _); [done | done |].
    exists bs2. split_and!; auto; [congruence |]. unfold BitmapDecompress_switch; simpl.
    rewrite (zget_nat _ _ _ Hold); simpl. rewrite E; simpl.
    rewrite zset_nat by done; simpl. by rewrite Hget.
  - destruct (Bitstream_Get_ok bs1 8 0 c _ Hu1) as (bs2 & E & Hu2 & Hd2 & _); [done | done |].
    exists bs2. split_and!; auto; [congruence |]. unfold BitmapDecompress_switch; simpl.
    rewrite E; simpl. rewrite zset_nat by done; simpl. by rewrite Hget.
Qed.

Lemma decompress_tokens ts i bs bitmap last r :
  bs_unread bs (flat_map token_bits ts ++ r) -> Forall token_ok ts ->
  (i + length (expand last ts) <= length bitmap)%nat ->
  exists bs', bs_unread bs' r /\ bs_data bs' = bs_data bs /\
    BitmapDecompress_loop (length (expand last ts)) (Z.of_nat i) bs bitmap last 0 false
    = Ok (bs', store i (expand last ts) bitmap, 0, false).
Proof.
  revert i bs bitmap last. induction ts as [| t ts IH]; intros i bs bitmap last Hu Hok Hle.
  { by exists bs. }
  apply Forall_cons in Hok as [Ht Hok]. cbn [flat_map] in Hu. rewrite <- app_assoc in Hu.
  rewrite expand_head in *. set (w := token_head last t) in *.
  set (c := Z.to_nat (token_rest t)) in *.
  cbn [length] in *. rewrite length_app, length_replicate in *.
  destruct (decompress_token t (c + length (expand w ts)) i bs bitmap last _ Hu Ht)
    as (bs1 & Hu1 & Hd1 & ->); [lia |]. fold w.
  assert (Hc : 0 <= token_rest t < 2 ^ 8) by (destruct t; done).
  replace (token_rest t) with (Z.of_nat c) by (unfold c; lia).
  rewrite decompress_run by (rewrite ?length_insert; lia).
  destruct (IH (S i + c)%nat bs1 (store (S i) (replicate c w) (<[i := w]> bitmap)) w)
    as (bs2 & Hu2 & Hd2 & ->); [done | done | rewrite store_length, length_insert; lia |].
  exists bs2. split_and!; auto; [congruence |].
  cbn [store]. by rewrite store_app, length_replicate.
Qed.

(** ** The header *)

Definition header_bits (ty n : Z) : list bool :=
  bits_msb 1 ty ++ [false; false; false] ++ bits_msb 12 n.

Lemma header_bits_length ty n : length (header_bits ty n) = 16%nat.
Proof. done. Qed.

Lemma Bitmap_Compress_Write_Header_ok ty n bs :
  bs_written bs [] -> 2 <= bs_dataSize bs -> ubits 1 ty -> ubits 12 n ->
  exists bs', Bitmap_Compress_Write_Header ty n bs = Ok (true, bs') /\
    bs_written bs' (header_bits ty n) /\ bs_same bs bs'.
Proof.
  intros Hw Hs [Ht0 Ht1] [Hn0 Hn1]. unfold Bitmap_Compress_Write_Header.
  rewrite !u32_small by lia.
  destruct (Bitstream_Put_ok bs ty 1 [] Hw) as (bs1 & -> & Hw1 & [Hs1 Hl1]); [done | simpl; lia |].
  cbn [mbind outcome_bind negb].
  destruct (bs_written_skip bs1 _ 3 Hw1) as (bs2 & -> & Hw2 & [Hs2 Hl2]);
    [done | rewrite length_app, bits_msb_length; simpl; lia |]. cbn [negb].
  destruct (Bitstream_Put_ok bs2 n 12 _ Hw2) as (bs3 & -> & Hw3 & [Hs3 Hl3]);
    [done | rewrite !length_app, bits_msb_length, length_replicate; simpl; lia |].
  exists bs3. split_and!; [done | exact Hw3 |]. split; congruence.
Qed.

Lemma BitmapDecompress_Init_ok st0 d size ty n r :
  bs_unread (Bitstream_Init d size) (header_bits ty n ++ r) -> ubits 1 ty -> ubits 12 n ->
  exists bs, BitmapDecompress_Init st0 d size = Ok (true, mkBitmapDecompressState bs ty n) /\
    bs_unread bs r /\ bs_data bs = d /\ bs_dataSize bs = size.
Proof.
  intros Hu Ht Hn. unfold BitmapDecompress_Init.
  unfold header_bits in Hu. rewrite <- !app_assoc in Hu.
  destruct (Bitstream_Get_ok _ 1 0 ty _ Hu) as (bs1 & -> & Hu1 & Hd1 & Hs1); [done | done |].
  cbn [mbind outcome_bind negb].
  destruct (bs_unread_skip bs1 _ _ Hu1) as (bs2 & E & Hu2 & Hd2 & Hs2); [done |].
  change (zlen [false; false; false]) with 3 in E. rewrite E. cbn [negb].
  destruct (Bitstream_Get_ok _ 12 ty n _ Hu2) as (bs3 & -> & Hu3 & Hd3 & Hs3); [done | done |].
  exists bs3. split_and!; [done | done | |]; simpl in *; congruence.
Qed.

(** ** Words and bytes *)

Lemma u32s_bytes ws : Forall (ubits 32) ws -> u32s_of_bytes (bytes_of_u32s ws) = ws.
Proof.
  unfold bytes_of_u32s. induction 1 as [| w ws Hw _ IH]; [done |].
  cbn [flat_map]. pose proof (le_join_split 4 w) as Hj.
  change (256 ^ Z.of_nat 4) with (2 ^ 32) in Hj. rewrite Z.mod_small in Hj by done.
  change (le_split 4 w) with
    [w mod 256; w / 256 mod 256; w / 256 / 256 mod 256; w / 256 / 256 / 256 mod 256] in *.
  cbn [app u32s_of_bytes]. by rewrite Hj, IH.
Qed.

Lemma bytes_of_u32s_length ws : length (bytes_of_u32s ws) = (4 * length ws)%nat.
Proof.
  unfold bytes_of_u32s. induction ws; cbn [flat_map]; [done |].
  rewrite length_app, le_split_length, IHws. simpl. lia.
Qed.

Lemma bytes_of_u32s_bytes ws : Forall (ubits 8) (bytes_of_u32s ws).
Proof.
  unfold bytes_of_u32s. induction ws; cbn [flat_map]; [done |].
  apply Forall_app. split; [apply le_split_bytes | done].
Qed.

Lemma aligned_at_16 bs :
  bs_wf bs -> bs_pos bs = 16%nat -> Bitstream_GetAlignedData bs 16 = (2, bs).
Proof.
  intros (He & Hb & Hy & Hle & Hs & Hm & _) Hp. unfold bs_pos in Hp.
  assert (bs_byteOffset bs = 2 /\ bs_bitOffset bs = 0) as [Ey Eb] by lia.
  unfold Bitstream_GetAlignedData, Bitstream_Align, Bitstream_GetOffset.
  rewrite Ey, Eb. simpl. by rewrite Ey.
Qed.

(** ** The two encodings *)

(** [d] holds, in its first [n] bytes, an encoding of the words [ws]. *)
Inductive bitmap_encoding (ws d : list Z) (n : Z) : Prop :=
| encoding_default pad :
    bits (take (Z.to_nat n) d)
    = header_bits BITMAP_COMPRESSION_TYPE_DEFAULT (zlen ws)
      ++ flat_map token_bits (bitmap_tokens ws) ++ pad ->
    bitmap_encoding ws d n
| encoding_no pad :
    n = zlen ws * 4 + 2 ->
    bits (take (Z.to_nat n) d) = header_bits BITMAP_COMPRESSION_TYPE_NO (zlen ws) ++ pad ->
    take (4 * length ws) (drop 2 d) = bytes_of_u32s ws ->
    bitmap_encoding ws d n.

(** Both encodings only depend on the first [n] bytes. *)
Lemma bitmap_encoding_take ws d d' n :
  take (Z.to_nat n) d' = take (Z.to_nat n) d -> bitmap_encoding ws d n -> bitmap_encoding ws d' n.
Proof.
  intros Ht [pad Hb | pad Hn Hb Hd].
  - apply encoding_default with pad. by rewrite Ht.
  - apply encoding_no with pad; [done | by rewrite Ht |]. rewrite <- Hd.
    rewrite !take_drop_commute.
    replace (2 + 4 * length ws)%nat with (Z.to_nat n) by (rewrite Hn; unfold zlen; lia).
    by rewrite Ht.
Qed.

Lemma ex_intro_swap {A B} (x : A) (P : A -> Prop) (Q : A -> B -> Prop) :
  P x -> (exists y, Q x y) -> exists x y, P x /\ Q x y.
Proof. intros H [y Hy]. eauto. Qed.

(** Any buffer that holds an encoding decompresses to the words. *)
Lemma bitmap_encoding_decompress ws d n st0 bitmap :
  bitmap_encoding ws d n -> Forall (ubits 32) ws -> zlen ws < 2 ^ 12 ->
  0 <= n <= zlen d -> 8 * n < 2 ^ 31 -> Forall (ubits 8) d -> (length ws <= length bitmap)%nat ->
  exists st st',
    (BitmapDecompress_Init st0 d n = Ok (true, st) /\
     BitmapDecompress_HasError st = false /\ BitmapDecompress_GetBlockCount st = zlen ws) /\
    BitmapDecompress_Decompress st bitmap (zlen ws)
    = Ok (st', ws ++ drop (length ws) bitmap).
Proof.
  intros Henc Hws Hlen Hn Hmax Hd Hbm. pose proof (zlen_nonneg ws) as Hnn.
  pose proof (bs_init_unread d n Hn Hmax Hd) as Hu.
  destruct Henc as [pad Hb | pad En Hb Hraw]; rewrite Hb in Hu.
  - destruct (BitmapDecompress_Init_ok st0 d n _ _ _ Hu) as (bs & -> & Hu1 & Hd1 & Hs1); [done | done |].
    eapply ex_intro_swap; [split_and!; [done | apply Hu1 | done] |].
    unfold BitmapDecompress_Decompress; simpl.
    destruct (Z.ltb_spec (zlen ws) 0), (Z.ltb_spec (zlen ws) (zlen ws)); try lia; simpl.
    destruct (decompress_tokens (bitmap_tokens ws) 0 bs bitmap 0 pad Hu1)
      as (bs2 & _ & _ & E); [apply compress_tokens_ok; [lia | done] | by rewrite expand_bitmap |].
    rewrite expand_bitmap in E. change (Z.of_nat 0) with 0 in E.
    unfold zlen. rewrite Nat2Z.id, E; simpl. eexists.
    rewrite store_take by done. by rewrite take_0.
  - destruct (BitmapDecompress_Init_ok st0 d n _ _ _ Hu) as (bs & -> & Hu1 & Hd1 & Hs1); [done | done |].
    eapply ex_intro_swap; [split_and!; [done | apply Hu1 | done] |].
    unfold BitmapDecompress_Decompress; simpl.
    destruct (Z.ltb_spec (zlen ws) 0), (Z.ltb_spec (zlen ws) (zlen ws)); try lia; simpl.
    rewrite aligned_at_16; [| apply Hu1 |].
    2: { destruct Hu1 as [Hwf1 Hu1]. apply (f_equal length) in Hb, Hu1. revert Hu1.
         rewrite length_drop, (bs_bits_length bs Hwf1), Hs1.
         rewrite bits_length, length_app, header_bits_length, length_take in Hb.
         destruct Hwf1 as (_ & ? & ? & ? & _). unfold bs_pos, zlen in *. lia. }
    rewrite Hd1, mem_read_ok by (unfold zlen in *; lia); simpl.
    replace (Z.to_nat (zlen ws * 4)) with (4 * length ws)%nat by (unfold zlen; lia).
    change (Z.to_nat 2) with 2%nat. rewrite Hraw, u32s_bytes by done.
    rewrite mem_write_ok by (unfold zlen in *; lia). by eexists.
Qed.

(** ** Compression *)

Lemma zero_prefix_ok d n :
  0 <= n <= zlen d ->
  zero_prefix d n = Ok (replicate (Z.to_nat n) 0 ++ drop (Z.to_nat n) d).
Proof.
  intros. unfold zero_prefix. rewrite mem_write_ok.
  - by rewrite length_replicate.
  - done.
  - unfold zlen in *. rewrite length_replicate. lia.
Qed.

Lemma zero_prefix_stream d n :
  0 <= n <= zlen d -> 8 * n < 2 ^ 31 -> Forall (ubits 8) d ->
  exists d', zero_prefix d n = Ok d' /\ length d' = length d /\ Forall (ubits 8) d' /\
    bs_written (Bitstream_Init d' n) [].
Proof.
  intros Hn Hmax Hd. rewrite zero_prefix_ok by done. eexists; split; [done |].
  set (d' := _ ++ _). assert (Hl : length d' = length d).
  { unfold d', zlen in *. rewrite length_app, length_replicate, length_drop. lia. }
  assert (Hd' : Forall (ubits 8) d').
  { apply Forall_app. split; [by apply Forall_replicate | by apply Forall_drop]. }
  split_and!; [done | done |]. apply bs_init_written; auto.
  - unfold zlen in *. lia.
  - unfold d'. by rewrite take_app_length' by (by rewrite length_replicate).
Qed.

(** [outData] is usable for [ws]: room for the words and the header. *)
Definition out_ok (ws out : list Z) (max : Z) : Prop :=
  zlen ws * 4 + 2 <= max <= zlen out /\ 8 * max < 2 ^ 31 /\ Forall (ubits 8) out.

Lemma Bitmap_Compress_No_ok ws out max :
  out_ok ws out max -> zlen ws < 2 ^ 12 -> Forall (ubits 32) ws ->
  exists n d, Bitmap_Compress_No ws out max = Ok (n, d) /\
    2 <= n <= max /\ length d = length out /\ Forall (ubits 8) d /\ bitmap_encoding ws d n.
Proof.
  intros (Hmax & Hm & Hout) Hlen Hws. pose proof (zlen_nonneg ws). unfold Bitmap_Compress_No.
  destruct (zero_prefix_stream out max) as (d & -> & Hl & Hd & Hw); [lia | done | done |].
  cbn [mbind outcome_bind].
  destruct (Bitmap_Compress_Write_Header_ok BITMAP_COMPRESSION_TYPE_NO (zlen ws) _ Hw)
    as (bs & -> & (Hwf & Hpos & Hb) & [Hs Hld]); [simpl; lia | done | done |].
  cbn [mbind outcome_bind negb]. simpl in Hs, Hld.
  pose proof Hwf as (_ & _ & _ & _ & Hz & _ & Hby). rewrite Hs in Hz.
  assert (Hhdr : forall n, 2 <= n <= max -> exists pad, bits (take (Z.to_nat n) (bs_data bs))
    = header_bits BITMAP_COMPRESSION_TYPE_NO (zlen ws) ++ pad).
  { intros n Hn. unfold bs_bits in Hb. rewrite Hs in Hb.
    apply (f_equal (take (8 * Z.to_nat n))) in Hb.
    rewrite <- bits_take, take_take, Nat.min_l, take_app_ge in Hb
      by (rewrite ?header_bits_length; lia). eauto. }
  destruct (Z.eqb_spec (zlen ws) 0) as [E0 | E0].
  { destruct (Hhdr 2 ltac:(lia)) as [pad Hp]. exists 2, (bs_data bs).
    split_and!; try done || lia. apply encoding_no with pad; [lia | done |].
    destruct ws; [by rewrite take_0 | unfold zlen in E0; simpl in E0; lia]. }
  rewrite aligned_at_16 by done. unfold zlen in *.
  rewrite mem_write_ok; [| lia | unfold zlen; rewrite bytes_of_u32s_length; lia].
  cbn [mbind outcome_bind]. change (Z.to_nat 2) with 2%nat.
  rewrite bytes_of_u32s_length. do 2 eexists; split; [done |].
  assert (H2 : length (take 2 (bs_data bs)) = 2%nat) by (rewrite length_take; lia).
  split_and!; [lia | lia | | |].
  - rewrite !length_app, bytes_of_u32s_length, H2, length_drop. lia.
  - repeat apply Forall_app_2; auto using bytes_of_u32s_bytes, Forall_take, Forall_drop.
  - destruct (Hhdr 2 ltac:(lia)) as [pad0 Hp]. change (Z.to_nat 2) with 2%nat in Hp.
    eapply encoding_no; [done | |].
    + rewrite take_app_ge, bits_app by lia. unfold zlen. rewrite Hp, <- app_assoc.
      reflexivity.
    + rewrite drop_app_length' by done. by rewrite take_app_length' by (by rewrite bytes_of_u32s_length).
Qed.

Lemma Bitstream_GetLength_written bs w :
  bs_written bs w ->
  8 * (Bitstream_GetLength bs - 1) < Z.of_nat (length w) <= 8 * Bitstream_GetLength bs /\
  Bitstream_GetLength bs <= bs_dataSize bs.
Proof.
  intros ((_ & ? & ? & ? & _ & ? & _) & Hp & _). unfold Bitstream_GetLength.
  rewrite <- Hp. unfold bs_pos. rewrite s32_small by lia.
  destruct (Z.eqb_spec (bs_bitOffset bs) 0); lia.
Qed.

Lemma Bitmap_Compress_ok ws out max :
  out_ok ws out max -> zlen ws < 2 ^ 12 -> Forall (ubits 32) ws ->
  exists n d, Bitmap_Compress BITMAP_COMPRESSION_TYPE_DEFAULT ws out max = Ok (n, d) /\
    2 <= n <= max /\ length d = length out /\ Forall (ubits 8) d /\ bitmap_encoding ws d n.
Proof.
  intros Hok Hlen Hws. pose proof Hok as (Hmax & Hm & Hout). pose proof (zlen_nonneg ws).
  unfold Bitmap_Compress.
  change (BITMAP_COMPRESSION_TYPE_DEFAULT =? BITMAP_COMPRESSION_TYPE_NO) with false. cbv iota.
  destruct (zero_prefix_stream out max) as (d & -> & Hl & Hd & Hw); [lia | done | done |].
  cbn [mbind outcome_bind].
  destruct (Bitmap_Compress_Write_Header_ok BITMAP_COMPRESSION_TYPE_DEFAULT (zlen ws) _ Hw)
    as (bs & -> & Hw1 & [Hs Hld]); [simpl; lia | done | done |].
  cbn [mbind outcome_bind negb]. simpl in Hs, Hld. rewrite Z.eqb_refl.
  destruct (Bitmap_Compress_loop_puts ws 0 bs _ 0 0 0 Hw1) as [Hyes Hno]; [done | done | done |].
  fold (bitmap_tokens ws) in Hyes, Hno. unfold Bitmap_Compress_Default.
  destruct (Z_le_gt_dec (Z.of_nat (length (header_bits BITMAP_COMPRESSION_TYPE_DEFAULT (zlen ws)
    ++ flat_map token_bits (bitmap_tokens ws)))) (8 * bs_dataSize bs)) as [Hle | Hgt].
  - destruct (Hyes Hle) as (bs2 & -> & Hw2 & [Hs2 Hl2]). cbn [mbind outcome_bind negb].
    do 2 eexists; split; [done |].
    pose proof (Bitstream_GetLength_written bs2 _ Hw2) as [Hlo Hhi].
    rewrite length_app, header_bits_length in Hlo.
    destruct Hw2 as ((_ & _ & _ & _ & Hz2 & _ & Hby) & _ & Hb).
    split_and!; [lia | lia | congruence | done |].
    eapply encoding_default. unfold bs_bits in Hb. apply (f_equal (take (8 * Z.to_nat (Bitstream_GetLength bs2)))) in Hb.
    rewrite <- bits_take, take_take, Nat.min_l, take_app_ge in Hb
      by (rewrite ?length_app, ?header_bits_length; lia).
    rewrite Hb, <- app_assoc. done.
  - destruct Hno as (bs2 & -> & [Hl2 Hby]); [lia |]. cbn [mbind outcome_bind negb].
    destruct (zero_prefix_stream (bs_data bs2) max) as (d2 & -> & Hl3 & Hd3 & _);
      [unfold zlen in *; lia | done | done |]. cbn [mbind outcome_bind].
    destruct (Bitmap_Compress_No_ok ws d2 max) as (n & d3 & -> & ? & Hl4 & ? & ?);
      [| done | done |].
    + unfold out_ok, zlen in *. split_and!; try done; lia.
    + do 2 eexists; split; [done |]. split_and!; try done; lia || congruence.
Qed.

(** ** Decompression of arbitrary bytes *)

(** A computation that does not leave its buffers and, when it returns, keeps
    the size of the bitmap and a usable stream. *)
Definition decompress_safe (bitmap : list Z)
    (m : outcome (Bitstream * list Z * Z * bool)) : Prop :=
  match m with
  | Ok (bs, bitmap', _, _) => bs_inv bs /\ length bitmap' = length bitmap
  | Err _ => True
  | Ub => False
  end.

Lemma Bitstream_Get_inv bs n v :
  bs_inv bs -> exists ok bs' v', Bitstream_Get bs n v = Ok (ok, bs', v') /\ bs_inv bs'.
Proof.
  intros H. destruct (Bitstream_Get_safe (Z.to_nat n) bs 0 v H) as (ok & bs' & v' & E & Hk & _).
  by exists ok, bs', v'.
Qed.

Lemma BitmapDecompress_switch_safe flag i bs bitmap last rle failed :
  bs_inv bs -> 0 <= i < zlen bitmap ->
  decompress_safe bitmap (BitmapDecompress_switch flag i bs bitmap last rle failed).
Proof.
  intros Hbs Hi. unfold BitmapDecompress_switch.
  destruct (zget_ok bitmap i Hi) as [old Hold].
  destruct (flag =? BITMAP_COMPRESSION_FLAG_ZERO).
  { rewrite zset_ok by done. cbn. by rewrite length_insert. }
  destruct (flag =? BITMAP_COMPRESSION_FLAG_ONE).
  { rewrite zset_ok by done. cbn. by rewrite length_insert. }
  destruct (flag =? BITMAP_COMPRESSION_FLAG_RAW).
  { rewrite Hold. cbn [mbind outcome_bind].
    destruct (Bitstream_Get_inv bs 32 old Hbs) as (ok & bs' & w & -> & Hbs').
    cbn [mbind outcome_bind]. rewrite zset_ok by done. cbn. by rewrite length_insert. }
  destruct (flag =? BITMAP_COMPRESSION_FLAG_RLE); [| done].
  destruct (Bitstream_Get_inv bs 8 rle Hbs) as (ok & bs' & w & -> & Hbs').
  cbn [mbind outcome_bind]. destruct ok; cbn [negb]; [| done].
  rewrite zset_ok by done. cbn. by rewrite length_insert.
Qed.

Lemma BitmapDecompress_loop_safe k i bs bitmap last rle failed :
  bs_inv bs -> 0 <= i -> i + Z.of_nat k <= zlen bitmap ->
  decompress_safe bitmap (BitmapDecompress_loop k i bs bitmap last rle failed).
Proof.
  revert i bs bitmap last rle failed.
  induction k as [| k IH]; intros i bs bitmap last rle failed Hbs Hi Hk; [done |].
  cbn [BitmapDecompress_loop]. destruct (rle =? 0).
  - destruct (Bitstream_Get_inv bs 2 0 Hbs) as (ok & bs1 & flag & -> & Hbs1).
    cbn [mbind outcome_bind]. destruct ok; cbn [negb]; [| done].
    pose proof (BitmapDecompress_switch_safe flag i bs1 bitmap last rle failed Hbs1 ltac:(lia)) as Hs.
    destruct (BitmapDecompress_switch _ _ _ _ _ _ _) as [[[[bs2 bm2] rle2] f2] | |]; try done.
    destruct Hs as [Hbs2 Hl2]. cbn [mbind outcome_bind].
    destruct (zget_ok bm2 i) as [l ->]; [unfold zlen in *; lia |]. cbn [mbind outcome_bind].
    specialize (IH (i + 1) bs2 bm2 l rle2 f2 Hbs2 ltac:(lia) ltac:(unfold zlen in *; lia)).
    unfold decompress_safe in *. by rewrite Hl2 in IH.
  - rewrite zset_ok by lia. cbn [mbind outcome_bind].
    specialize (IH (i + 1) bs (<[Z.to_nat i := last]> bitmap) last (u32 (rle - 1)) failed Hbs
      ltac:(lia) ltac:(unfold zlen in *; rewrite length_insert; lia)).
    unfold decompress_safe in *. by rewrite length_insert in IH.
Qed.

(** ** Properties *)

(** C18: Compressing a bitmap of [uint32] words into a buffer with room for the
    raw words always succeeds, needs at most the raw size plus the two header
    bytes and never fails on incompressible data (it falls back to the raw
    format); decompressing those bytes, from any buffer that starts with them,
    reports the block count and gives back exactly the words. *)
Theorem bitmap_compress_roundtrip (ws out : list Z) (max : Z) :
  Forall (ubits 32) ws -> zlen ws < 2 ^ 12 -> out_ok ws out max ->
  exists n d,
    Bitmap_Compress BITMAP_COMPRESSION_TYPE_DEFAULT ws out max = Ok (n, d) /\
    BITMAP_COMPRESSION_HEADER_SIZE <= n <= max /\ length d = length out /\
    forall st0 buf bitmap,
      n <= zlen buf -> Forall (ubits 8) buf ->
      take (Z.to_nat n) buf = take (Z.to_nat n) d -> (length ws <= length bitmap)%nat ->
      exists st st',
        (BitmapDecompress_Init st0 buf n = Ok (true, st) /\
         BitmapDecompress_HasError st = false /\ BitmapDecompress_GetBlockCount st = zlen ws) /\
        BitmapDecompress_Decompress st bitmap (zlen ws)
        = Ok (st', ws ++ drop (length ws) bitmap).
Proof.
  intros Hws Hlen Hok. pose proof Hok as (? & ? & _).
  destruct (Bitmap_Compress_ok ws out max Hok Hlen Hws) as (n & d & E & Hn & Hl & Hd & Henc).
  exists n, d. unfold BITMAP_COMPRESSION_HEADER_SIZE.
  split_and!; try done; try lia. intros st0 buf bitmap Hb Hby Ht Hbm.
  apply bitmap_encoding_decompress; auto; try lia. by eapply bitmap_encoding_take.
Qed.

Lemma bitmap_compress_roundtrip_witness :
  exists n d,
    Bitmap_Compress BITMAP_COMPRESSION_TYPE_DEFAULT [0; 0; 7; 7; 0xFFFFFFFF] (replicate 30 9) 22
    = Ok (n, d) /\
    BITMAP_COMPRESSION_HEADER_SIZE <= n <= 22 /\ length d = 30%nat /\
    forall st0 buf bitmap,
      n <= zlen buf -> Forall (ubits 8) buf ->
      take (Z.to_nat n) buf = take (Z.to_nat n) d -> (5 <= length bitmap)%nat ->
      exists st st',
        (BitmapDecompress_Init st0 buf n = Ok (true, st) /\
         BitmapDecompress_HasError st = false /\ BitmapDecompress_GetBlockCount st = 5) /\
        BitmapDecompress_Decompress st bitmap 5
        = Ok (st', [0; 0; 7; 7; 0xFFFFFFFF] ++ drop 5 bitmap).
Proof.
  apply (bitmap_compress_roundtrip [0; 0; 7; 7; 0xFFFFFFFF] (replicate 30 9) 22).
  - repeat constructor; simpl; lia.
  - vm_compute. done.
  - split; [unfold zlen; simpl; lia |]. split; [lia |].
    apply Forall_replicate. split; lia.
Defined.

(** Decompressing the default format is memory safe on any input bytes
    whatsoever, corrupted or truncated: it either raises an error or returns a
    bitmap of the caller's size; no access leaves the input or the bitmap. *)
Theorem bitmap_decompress_default_safe (st : BitmapDecompressState) (bitmap : list Z) (size : Z) :
  bs_inv (bds_bitstream st) -> bds_compressionType st = BITMAP_COMPRESSION_TYPE_DEFAULT ->
  size <= zlen bitmap ->
  (exists m, BitmapDecompress_Decompress st bitmap size = Err m) \/
  (exists st' bitmap', BitmapDecompress_Decompress st bitmap size = Ok (st', bitmap') /\
     length bitmap' = length bitmap).
Proof.
  intros Hbs Hty Hsize. unfold BitmapDecompress_Decompress. rewrite Hty.
  destruct (_ || _) eqn:E; [by eauto |]. apply orb_false_iff in E as [E1 E2].
  apply Z.ltb_ge in E1, E2. simpl.
  pose proof (BitmapDecompress_loop_safe (Z.to_nat (bds_blockCount st)) 0 _ bitmap 0 0 false Hbs
    ltac:(lia) ltac:(lia)) as Hs.
  destruct (BitmapDecompress_loop _ _ _ _ _ _ _) as [[[[bs bm] rle] f] | |]; try done; simpl; [| eauto].
  destruct Hs as [_ Hl]. destruct (0 <? rle); [by eauto |]. destruct f; [by eauto |]. right. eauto.
Qed.

(** A truncated stream: two blocks announced, one raw block cut short. *)
Definition truncated_state : BitmapDecompressState :=
  mkBitmapDecompressState (mkBitstream 0 2 [0x80; 2; 0xC0; 1] 4 false)
    BITMAP_COMPRESSION_TYPE_DEFAULT 2.

Lemma bitmap_decompress_default_safe_witness :
  (exists m, BitmapDecompress_Decompress truncated_state [5; 5] 2 = Err m) \/
  (exists st' bitmap', BitmapDecompress_Decompress truncated_state [5; 5] 2 = Ok (st', bitmap') /\
     length bitmap' = 2%nat).
Proof.
  apply (bitmap_decompress_default_safe truncated_state [5; 5] 2).
  - unfold bs_inv. simpl. unfold zlen. simpl. lia.
  - reflexivity.
  - unfold zlen. simpl. lia.
Defined.

(** C40: The raw format has no such check: decompression copies the announced
    number of words from behind the header whatever the input size, so it stays
    inside the input buffer exactly when the buffer really holds that many
    bytes. *)
Theorem bitmap_decompress_raw_bounds (st : BitmapDecompressState) (bitmap : list Z) :
  bs_wf (bds_bitstream st) -> bs_pos (bds_bitstream st) = 16%nat ->
  bds_compressionType st = BITMAP_COMPRESSION_TYPE_NO -> 0 <= bds_blockCount st <= zlen bitmap ->
  BitmapDecompress_Decompress st bitmap (bds_blockCount st) <> Ub <->
  2 + 4 * bds_blockCount st <= zlen (bs_data (bds_bitstream st)).
Proof.
  intros Hwf Hp Hty Hn. unfold BitmapDecompress_Decompress. rewrite Hty.
  destruct (Z.ltb_spec (bds_blockCount st) 0), (Z.ltb_spec (bds_blockCount st) (bds_blockCount st));
    try lia; simpl.
  rewrite aligned_at_16 by done. unfold mem_read.
  destruct (Z.leb_spec 0 (bds_blockCount st * 4)); [| lia]. simpl.
  destruct (Z.leb_spec (2 + bds_blockCount st * 4) (zlen (bs_data (bds_bitstream st)))); simpl.
  2: { split; [done | lia]. }
  split; [lia |]. intros _. set (bytes := take _ _).
  assert (Hl : forall k l, length l = (4 * k)%nat -> length (u32s_of_bytes l) = k).
  { clear. intros k. induction k as [| k IH]; intros l Hl.
    - by destruct l.
    - do 4 (destruct l as [| ? l]; [simpl in Hl; lia |]). simpl. f_equal. apply IH.
      simpl in Hl. lia. }
  rewrite mem_write_ok; [done | lia |]. unfold zlen.
  rewrite (Hl (Z.to_nat (bds_blockCount st))); [unfold zlen in *; lia |].
  unfold bytes. rewrite length_take, length_drop. unfold zlen in *. lia.
Qed.

(** A raw bitmap that announces 4095 words in a six-byte input. *)
Definition overrun_state : BitmapDecompressState :=
  mkBitmapDecompressState (mkBitstream 0 2 [0x0F; 0xFF; 1; 2; 3; 4] 6 false)
    BITMAP_COMPRESSION_TYPE_NO 4095.

Lemma bitmap_decompress_raw_bounds_witness :
  BitmapDecompress_Decompress overrun_state (replicate 4095 0) 4095 <> Ub <-> 2 + 4 * 4095 <= 6.
Proof.
  apply (bitmap_decompress_raw_bounds overrun_state (replicate 4095 0)).
  - unfold bs_wf. simpl. unfold zlen, ubits. simpl.
    split_and!; try done; try lia. repeat (constructor; [lia |]). constructor.
  - vm_compute. reflexivity.
  - reflexivity.
  - unfold zlen. rewrite length_replicate. simpl. lia.
Defined.
