(* ===== verification/BitUtils.v ===== *)
(** * Bit-twiddling primitives

    Models src/port/pg_bitutils.c and the inline functions of
    src/include/port/pg_bitutils.h: the byte tables and the portable code paths
    (those compiled without the compiler builtins) for the leftmost and the
    rightmost one bit and the number of ones of a word.  Every loop runs over
    the bytes of the word; a word of [8 * n] bits needs [n] rounds, which is the
    fuel given. *)

From S2P Require Import Prelude.

(** ** Tables *)

Definition pg_leftmost_one_pos : list Z :=
  [0; 0; 1; 1; 2; 2; 2; 2; 3; 3; 3; 3; 3; 3; 3; 3;
   4; 4; 4; 4; 4; 4; 4; 4; 4; 4; 4; 4; 4; 4; 4; 4;
   5; 5; 5; 5; 5; 5; 5; 5; 5; 5; 5; 5; 5; 5; 5; 5;
   5; 5; 5; 5; 5; 5; 5; 5; 5; 5; 5; 5; 5; 5; 5; 5;
   6; 6; 6; 6; 6; 6; 6; 6; 6; 6; 6; 6; 6; 6; 6; 6;
   6; 6; 6; 6; 6; 6; 6; 6; 6; 6; 6; 6; 6; 6; 6; 6;
   6; 6; 6; 6; 6; 6; 6; 6; 6; 6; 6; 6; 6; 6; 6; 6;
   6; 6; 6; 6; 6; 6; 6; 6; 6; 6; 6; 6; 6; 6; 6; 6;
   7; 7; 7; 7; 7; 7; 7; 7; 7; 7; 7; 7; 7; 7; 7; 7;
   7; 7; 7; 7; 7; 7; 7; 7; 7; 7; 7; 7; 7; 7; 7; 7;
   7; 7; 7; 7; 7; 7; 7; 7; 7; 7; 7; 7; 7; 7; 7; 7;
   7; 7; 7; 7; 7; 7; 7; 7; 7; 7; 7; 7; 7; 7; 7; 7;
   7; 7; 7; 7; 7; 7; 7; 7; 7; 7; 7; 7; 7; 7; 7; 7;
   7; 7; 7; 7; 7; 7; 7; 7; 7; 7; 7; 7; 7; 7; 7; 7;
   7; 7; 7; 7; 7; 7; 7; 7; 7; 7; 7; 7; 7; 7; 7; 7;
   7; 7; 7; 7; 7; 7; 7; 7; 7; 7; 7; 7; 7; 7; 7; 7].

Definition pg_rightmost_one_pos : list Z :=
  [0; 0; 1; 0; 2; 0; 1; 0; 3; 0; 1; 0; 2; 0; 1; 0;
   4; 0; 1; 0; 2; 0; 1; 0; 3; 0; 1; 0; 2; 0; 1; 0;
   5; 0; 1; 0; 2; 0; 1; 0; 3; 0; 1; 0; 2; 0; 1; 0;
   4; 0; 1; 0; 2; 0; 1; 0; 3; 0; 1; 0; 2; 0; 1; 0;
   6; 0; 1; 0; 2; 0; 1; 0; 3; 0; 1; 0; 2; 0; 1; 0;
   4; 0; 1; 0; 2; 0; 1; 0; 3; 0; 1; 0; 2; 0; 1; 0;
   5; 0; 1; 0; 2; 0; 1; 0; 3; 0; 1; 0; 2; 0; 1; 0;
   4; 0; 1; 0; 2; 0; 1; 0; 3; 0; 1; 0; 2; 0; 1; 0;
   7; 0; 1; 0; 2; 0; 1; 0; 3; 0; 1; 0; 2; 0; 1; 0;
   4; 0; 1; 0; 2; 0; 1; 0; 3; 0; 1; 0; 2; 0; 1; 0;
   5; 0; 1; 0; 2; 0; 1; 0; 3; 0; 1; 0; 2; 0; 1; 0;
   4; 0; 1; 0; 2; 0; 1; 0; 3; 0; 1; 0; 2; 0; 1; 0;
   6; 0; 1; 0; 2; 0; 1; 0; 3; 0; 1; 0; 2; 0; 1; 0;
   4; 0; 1; 0; 2; 0; 1; 0; 3; 0; 1; 0; 2; 0; 1; 0;
   5; 0; 1; 0; 2; 0; 1; 0; 3; 0; 1; 0; 2; 0; 1; 0;
   4; 0; 1; 0; 2; 0; 1; 0; 3; 0; 1; 0; 2; 0; 1; 0].

Definition pg_number_of_ones : list Z :=
  [0; 1; 1; 2; 1; 2; 2; 3; 1; 2; 2; 3; 2; 3; 3; 4;
   1; 2; 2; 3; 2; 3; 3; 4; 2; 3; 3; 4; 3; 4; 4; 5;
   1; 2; 2; 3; 2; 3; 3; 4; 2; 3; 3; 4; 3; 4; 4; 5;
   2; 3; 3; 4; 3; 4; 4; 5; 3; 4; 4; 5; 4; 5; 5; 6;
   1; 2; 2; 3; 2; 3; 3; 4; 2; 3; 3; 4; 3; 4; 4; 5;
   2; 3; 3; 4; 3; 4; 4; 5; 3; 4; 4; 5; 4; 5; 5; 6;
   2; 3; 3; 4; 3; 4; 4; 5; 3; 4; 4; 5; 4; 5; 5; 6;
   3; 4; 4; 5; 4; 5; 5; 6; 4; 5; 5; 6; 5; 6; 6; 7;
   1; 2; 2; 3; 2; 3; 3; 4; 2; 3; 3; 4; 3; 4; 4; 5;
   2; 3; 3; 4; 3; 4; 4; 5; 3; 4; 4; 5; 4; 5; 5; 6;
   2; 3; 3; 4; 3; 4; 4; 5; 3; 4; 4; 5; 4; 5; 5; 6;
   3; 4; 4; 5; 4; 5; 5; 6; 4; 5; 5; 6; 5; 6; 6; 7;
   2; 3; 3; 4; 3; 4; 4; 5; 3; 4; 4; 5; 4; 5; 5; 6;
   3; 4; 4; 5; 4; 5; 5; 6; 4; 5; 5; 6; 5; 6; 6; 7;
   3; 4; 4; 5; 4; 5; 5; 6; 4; 5; 5; 6; 5; 6; 6; 7;
   4; 5; 5; 6; 5; 6; 6; 7; 5; 6; 6; 7; 6; 7; 7; 8].

Definition byte_entry (t : list Z) (b : Z) : Z := nth (Z.to_nat b) t 0.

(** ** Portable loops *)

(** [while ((word >> shift) == 0) shift -= 8;] then the table of the byte. *)
Fixpoint leftmost_loop (fuel : nat) (word shift : Z) : Z :=
  match fuel with
  | O => shift
  | S fuel =>
      if Z.shiftr word shift =? 0 then leftmost_loop fuel word (shift - 8)
      else shift + byte_entry pg_leftmost_one_pos (Z.land (Z.shiftr word shift) 255)
  end.

Definition pg_leftmost_one_pos32 (word : Z) : Z := leftmost_loop 4 word (32 - 8).
Definition pg_leftmost_one_pos64 (word : Z) : Z := leftmost_loop 8 word (64 - 8).

Fixpoint rightmost_loop (fuel : nat) (word result : Z) : Z :=
  match fuel with
  | O => result
  | S fuel =>
      if Z.land word 255 =? 0 then rightmost_loop fuel (Z.shiftr word 8) (result + 8)
      else result + byte_entry pg_rightmost_one_pos (Z.land word 255)
  end.

Definition pg_rightmost_one_pos32 (word : Z) : Z := rightmost_loop 4 word 0.
Definition pg_rightmost_one_pos64 (word : Z) : Z := rightmost_loop 8 word 0.

Fixpoint popcount_loop (fuel : nat) (word result : Z) : Z :=
  match fuel with
  | O => result
  | S fuel =>
      if word =? 0 then result
      else popcount_loop fuel (Z.shiftr word 8)
             (result + byte_entry pg_number_of_ones (Z.land word 255))
  end.

Definition pg_popcount32_slow (word : Z) : Z := popcount_loop 4 word 0.
Definition pg_popcount64_slow (word : Z) : Z := popcount_loop 8 word 0.

(** [pg_rotate_right32]. *)
Definition pg_rotate_right32 (word n : Z) : Z :=
  Z.lor (Z.shiftr word n) (u32 (Z.shiftl word (4 * 8 - n))).

(** ** Reference definitions *)

(** The least significant one bit of [w] is bit [r]. *)
Definition is_lowest (w r : Z) : Prop :=
  0 <= r /\ Z.testbit w r = true /\ forall j, 0 <= j < r -> Z.testbit w j = false.

(** The number of ones among the [n] low bits of [w]. *)
Fixpoint ones (n : nat) (w : Z) : Z :=
  match n with
  | O => 0
  | S n => Z.b2z (Z.testbit w (Z.of_nat n)) + ones n w
  end.

(** ** The tables are right *)

Lemma forall_byte (f : Z -> bool) :
  forallb f (map Z.of_nat (seq 0 256)) = true -> forall b, ubits 8 b -> f b = true.
Proof.
  intros H b [H0 H1]. rewrite forallb_forall in H. apply H.
  apply in_map_iff. exists (Z.to_nat b). split; [lia |]. apply in_seq. lia.
Qed.

Lemma byte_land_bound w : ubits 8 (Z.land w 255).
Proof. change 255 with (Z.ones 8). rewrite Z.land_ones by lia. apply Z.mod_pos_bound. lia. Qed.

Lemma land_255 w : Z.land w 255 = w mod 2 ^ 8.
Proof. change 255 with (Z.ones 8). by rewrite Z.land_ones by lia. Qed.

Lemma leftmost_table b : ubits 8 b -> b <> 0 -> byte_entry pg_leftmost_one_pos b = Z.log2 b.
Proof.
  intros Hb Hnz.
  pose proof (forall_byte (fun b => (b =? 0) || (byte_entry pg_leftmost_one_pos b =? Z.log2 b))) as H.
  specialize (H ltac:(vm_compute; reflexivity) b Hb). simpl in H.
  apply orb_true_iff in H as [H | H]; [lia | by apply Z.eqb_eq].
Qed.

Lemma rightmost_table b :
  ubits 8 b -> b <> 0 -> is_lowest b (byte_entry pg_rightmost_one_pos b).
Proof.
  intros Hb Hnz.
  pose proof (forall_byte (fun b => (b =? 0) ||
    ((0 <=? byte_entry pg_rightmost_one_pos b) &&
     Z.testbit b (byte_entry pg_rightmost_one_pos b) &&
     (b mod 2 ^ byte_entry pg_rightmost_one_pos b =? 0)))) as H.
  specialize (H ltac:(vm_compute; reflexivity) b Hb). simpl in H.
  apply orb_true_iff in H as [H | H]; [lia |].
  apply andb_true_iff in H as [[H1 H2]%andb_true_iff H3].
  apply Z.leb_le in H1. apply Z.eqb_eq in H3.
  split_and!; auto. intros j Hj.
  apply (f_equal (fun z => Z.testbit z j)) in H3.
  by rewrite Z.mod_pow2_bits_low, Z.testbit_0_l in H3 by lia.
Qed.

Lemma popcount_table b : ubits 8 b -> byte_entry pg_number_of_ones b = ones 8 b.
Proof.
  intros Hb. apply Z.eqb_eq.
  apply (forall_byte (fun b => byte_entry pg_number_of_ones b =? ones 8 b)); [| done].
  vm_compute. reflexivity.
Qed.

(** ** The loops are right *)

Lemma leftmost_loop_ok fuel word :
  0 < word < 2 ^ (8 * Z.of_nat fuel) ->
  leftmost_loop fuel word (8 * Z.of_nat fuel - 8) = Z.log2 word.
Proof.
  induction fuel as [| fuel IH]; intros Hw; [simpl in Hw; lia |].
  cbn [leftmost_loop]. set (sh := 8 * Z.of_nat (S fuel) - 8).
  assert (Hsh : sh = 8 * Z.of_nat fuel) by (unfold sh; lia).
  destruct (Z.eqb_spec (Z.shiftr word sh) 0) as [E | E].
  - rewrite Hsh. replace (8 * Z.of_nat fuel - 8) with (8 * Z.of_nat fuel - 8) by lia.
    apply IH. split; [lia |]. rewrite Z.shiftr_div_pow2 in E by lia.
    apply Z.div_small_iff in E; [rewrite <- Hsh; lia | lia].
  - assert (Hb : ubits 8 (Z.shiftr word sh)).
    { rewrite Z.shiftr_div_pow2 by lia. split; [apply Z.div_pos; lia |].
      apply Z.div_lt_upper_bound; [lia |]. rewrite <- Z.pow_add_r by lia.
      replace (sh + 8) with (8 * Z.of_nat (S fuel)) by lia. lia. }
    rewrite land_255, Z.mod_small by done. rewrite leftmost_table by done.
    rewrite Z.log2_shiftr by lia.
    assert (sh <= Z.log2 word).
    { apply Z.log2_le_pow2; [lia |]. destruct (Z_lt_le_dec word (2 ^ sh)) as [Hlt |]; [| done].
      exfalso. apply E. rewrite Z.shiftr_div_pow2 by lia. apply Z.div_small. lia. }
    lia.
Qed.

Lemma is_lowest_shift w r : 0 <= w -> w mod 2 ^ 8 = 0 -> is_lowest (Z.shiftr w 8) r -> is_lowest w (r + 8).
Proof.
  intros Hw H0 (Hr & Ht & Hl). rewrite Z.shiftr_spec in Ht by lia.
  split_and!; [lia | done |]. intros j Hj. destruct (Z_lt_le_dec j 8).
  - apply (f_equal (fun z => Z.testbit z j)) in H0.
    by rewrite Z.mod_pow2_bits_low, Z.testbit_0_l in H0 by lia.
  - specialize (Hl (j - 8) ltac:(lia)). rewrite Z.shiftr_spec in Hl by lia.
    by replace (j - 8 + 8) with j in Hl by lia.
Qed.

Lemma rightmost_loop_ok fuel word result :
  0 < word < 2 ^ (8 * Z.of_nat fuel) ->
  is_lowest word (rightmost_loop fuel word result - result).
Proof.
  revert word result. induction fuel as [| fuel IH]; intros word result Hw; [simpl in Hw; lia |].
  cbn [rightmost_loop]. rewrite land_255. destruct (Z.eqb_spec (word mod 2 ^ 8) 0) as [E | E].
  - replace (rightmost_loop fuel (Z.shiftr word 8) (result + 8) - result)
      with (rightmost_loop fuel (Z.shiftr word 8) (result + 8) - (result + 8) + 8) by lia.
    apply is_lowest_shift; [lia | done |]. apply IH.
    rewrite Z.shiftr_div_pow2 by lia. pose proof (Z.div_mod word (2 ^ 8) ltac:(lia)).
    split; [lia |]. apply Z.div_lt_upper_bound; [lia |].
    rewrite <- Z.pow_add_r by lia. replace (8 + 8 * Z.of_nat fuel) with (8 * Z.of_nat (S fuel)) by lia. lia.
  - replace (result + byte_entry pg_rightmost_one_pos (word mod 2 ^ 8) - result)
      with (byte_entry pg_rightmost_one_pos (word mod 2 ^ 8)) by lia.
    assert (Hb : ubits 8 (word mod 2 ^ 8)) by (apply Z.mod_pos_bound; lia).
    destruct (rightmost_table _ Hb E) as (H0 & H1 & H2).
    rewrite mod_pow2_testbit in H1 by lia. apply andb_true_iff in H1 as [H3 H1].
    apply Z.ltb_lt in H3. split_and!; [done | done |]. intros j Hj.
    specialize (H2 j Hj). rewrite mod_pow2_testbit in H2 by lia.
    by rewrite (proj2 (Z.ltb_lt j 8)) in H2 by lia.
Qed.

Lemma ones_ext n w w' :
  (forall j, 0 <= j < Z.of_nat n -> Z.testbit w j = Z.testbit w' j) -> ones n w = ones n w'.
Proof.
  induction n as [| n IH]; intros H; [done |]. cbn [ones].
  rewrite IH by (intros; apply H; lia). by rewrite H by lia.
Qed.

Lemma ones_zero n : ones n 0 = 0.
Proof. induction n as [| n IH]; [done |]. cbn [ones]. by rewrite IH, Z.testbit_0_l. Qed.

Lemma ones_split k n w :
  ones (n + k) w = ones k (w mod 2 ^ Z.of_nat k) + ones n (Z.shiftr w (Z.of_nat k)).
Proof.
  induction n as [| n IH]; cbn [ones Nat.add].
  - rewrite Z.add_0_r. apply ones_ext. intros. by rewrite Z.mod_pow2_bits_low by lia.
  - rewrite IH, Z.shiftr_spec by lia. rewrite Nat2Z.inj_add. lia.
Qed.

Lemma ones_nonneg n w : 0 <= ones n w <= Z.of_nat n.
Proof. induction n as [| n IH]; cbn [ones]; [lia |]. destruct (Z.testbit _ _); simpl; lia. Qed.

(** Leading zeros are not counted. *)
Lemma ones_stable n m v : (n <= m)%nat -> ubits (Z.of_nat n) v -> ones m v = ones n v.
Proof.
  intros Hnm Hv. induction Hnm as [| m Hnm IH]; [done |]. cbn [ones].
  rewrite (ubits_testbit (Z.of_nat n) v) by (done || lia). simpl. lia.
Qed.

Lemma ones_setbit n v x :
  0 <= x < Z.of_nat n -> Z.testbit v x = false -> ones n (Z.lor v (2 ^ x)) = ones n v + 1.
Proof.
  induction n as [| n IH]; intros Hx Hv; [lia |]. cbn [ones].
  rewrite Z.lor_spec, testbit_pow2 by lia. destruct (Z.eqb_spec (Z.of_nat n) x) as [<- | Hne].
  - rewrite Hv, (ones_ext n _ v); [simpl; lia |]. intros j Hj.
    rewrite Z.lor_spec, testbit_pow2 by lia. replace (j =? Z.of_nat n) with false by lia.
    apply orb_false_r.
  - rewrite IH, orb_false_r by (done || lia). lia.
Qed.

Lemma popcount_loop_ok fuel word result :
  0 <= word < 2 ^ (8 * Z.of_nat fuel) ->
  popcount_loop fuel word result = result + ones (8 * fuel) word.
Proof.
  revert word result. induction fuel as [| fuel IH]; intros word result Hw; cbn [popcount_loop].
  { replace (8 * 0)%nat with 0%nat by lia. cbn [ones]. lia. }
  destruct (Z.eqb_spec word 0) as [-> | E]; [rewrite ones_zero; lia |].
  rewrite IH, land_255, popcount_table.
  - replace (8 * S fuel)%nat with (8 * fuel + 8)%nat by lia. rewrite ones_split.
    change (Z.of_nat 8) with 8. lia.
  - apply Z.mod_pos_bound. lia.
  - rewrite Z.shiftr_div_pow2 by lia. split; [apply Z.div_pos; lia |].
    apply Z.div_lt_upper_bound; [lia |]. rewrite <- Z.pow_add_r by lia.
    replace (8 + 8 * Z.of_nat fuel) with (8 * Z.of_nat (S fuel)) by lia. lia.
Qed.

Lemma pg_leftmost_one_pos64_ok w : 0 < w < 2 ^ 64 -> pg_leftmost_one_pos64 w = Z.log2 w.
Proof. intros. by apply (leftmost_loop_ok 8). Qed.

Lemma pg_rightmost_one_pos64_ok w : 0 < w < 2 ^ 64 -> is_lowest w (pg_rightmost_one_pos64 w).
Proof.
  intros. unfold pg_rightmost_one_pos64. rewrite <- (Z.sub_0_r (rightmost_loop _ _ _)).
  by apply (rightmost_loop_ok 8).
Qed.

Lemma pg_popcount64_slow_ok w : ubits 64 w -> pg_popcount64_slow w = ones 64 w.
Proof. intros. unfold pg_popcount64_slow. by rewrite (popcount_loop_ok 8). Qed.

(** ** Properties *)

(** On every nonzero 64-bit word the portable scans find the most and the
    least significant one bit, and on every word the portable count is the
    number of one bits. *)
Theorem bitutils_word_scans (w : Z) :
  0 <= w < 2 ^ 64 ->
  pg_popcount64_slow w = ones 64 w /\
  (w <> 0 -> pg_leftmost_one_pos64 w = Z.log2 w /\ is_lowest w (pg_rightmost_one_pos64 w)).
Proof.
  intros Hw. split; [by apply pg_popcount64_slow_ok |]. intros Hnz.
  split; [apply pg_leftmost_one_pos64_ok | apply pg_rightmost_one_pos64_ok]; lia.
Qed.

Lemma bitutils_word_scans_witness :
  pg_popcount64_slow 0x8000000000F00100 = ones 64 0x8000000000F00100 /\
  (0x8000000000F00100 <> 0 ->
   pg_leftmost_one_pos64 0x8000000000F00100 = Z.log2 0x8000000000F00100 /\
   is_lowest 0x8000000000F00100 (pg_rightmost_one_pos64 0x8000000000F00100)).
Proof. apply (bitutils_word_scans 0x8000000000F00100). lia. Defined.
