(* ===== verification/Bitmapset.v ===== *)
(** * Bitmap sets

    Models src/backend/nodes/bitmapset.c on the 64-bit word configuration.  A
    [Bitmapset *] is [None] for NULL and [Some words] for an allocated set,
    [nwords] being the length of the list; functions that recycle their input
    return the new set.  [elog(ERROR)] is [Err], an access outside the word
    array is [Ub].  The abstraction [bms_val] reads a set as the integer whose
    bits are the members, so that set operations refine bit operations. *)

From S2P Require Import Prelude BitUtils.

Definition Bitmapset := option (list Z).

Definition BITS_PER_BITMAPWORD : Z := 64.
Definition WORDNUM (x : Z) : Z := Z.quot x BITS_PER_BITMAPWORD.
Definition BITNUM (x : Z) : Z := Z.rem x BITS_PER_BITMAPWORD.

(** [(bitmapword) 1 << n], [~ w] and [~ (bitmapword) 0] on 64 bits. *)
Definition word_bit (n : Z) : Z := u64 (Z.shiftl 1 n).
Definition word_ones : Z := 2 ^ 64 - 1.
Definition word_not (w : Z) : Z := Z.lxor word_ones w.

(** [RIGHTMOST_ONE]: [x & -x] in two's complement. *)
Definition RIGHTMOST_ONE (x : Z) : Z := u64 (Z.land x (- x)).
Definition HAS_MULTIPLE_ONES (x : Z) : bool := negb (RIGHTMOST_ONE x =? x).

Definition negative_member : string := "negative bitmapset member not allowed".

(** ** Tests *)

Definition bms_copy (a : Bitmapset) : Bitmapset := a.

Definition bms_is_empty (a : Bitmapset) : bool :=
  match a with
  | None => true
  | Some ws => forallb (fun w => w =? 0) ws
  end.

Fixpoint words_equal (shorter longer : list Z) : bool :=
  match shorter, longer with
  | s :: ss, l :: ls => (s =? l) && words_equal ss ls
  | _, ls => forallb (fun w => w =? 0) ls
  end.

Definition bms_equal (a b : Bitmapset) : bool :=
  match a, b with
  | None, None => true
  | None, Some _ => bms_is_empty b
  | Some _, None => bms_is_empty a
  | Some aw, Some bw =>
      if zlen aw <=? zlen bw then words_equal aw bw else words_equal bw aw
  end.

(** Comparison of the common words, most significant first. *)
Fixpoint words_compare_down (i : nat) (aw bw : list Z) : outcome Z :=
  match i with
  | O => Ok 0
  | S i =>
      a ← zget aw (Z.of_nat i);
      b ← zget bw (Z.of_nat i);
      if negb (a =? b) then Ok (if b <? a then 1 else -1)
      else words_compare_down i aw bw
  end.

Definition bms_compare (a b : Bitmapset) : outcome Z :=
  match a, b with
  | None, _ => Ok (if bms_is_empty b then 0 else -1)
  | Some _, None => Ok (if bms_is_empty a then 0 else 1)
  | Some aw, Some bw =>
      let shortlen := Nat.min (length aw) (length bw) in
      if negb (forallb (fun w => w =? 0) (drop shortlen aw)) then Ok 1
      else if negb (forallb (fun w => w =? 0) (drop shortlen bw)) then Ok (-1)
      else words_compare_down shortlen aw bw
  end.

Definition bms_make_singleton (x : Z) : outcome Bitmapset :=
  if x <? 0 then Err negative_member
  else
    let wordnum := WORDNUM x in
    let bitnum := BITNUM x in
    ws ← zset (replicate (Z.to_nat (wordnum + 1)) 0) wordnum (word_bit bitnum);
    Ok (Some ws).

(** ** Operations that build a new set *)

(** [result->words[i] |= other->words[i]] for the words of [other]. *)
Fixpoint words_or (result other : list Z) : list Z :=
  match result, other with
  | r :: rs, o :: os => Z.lor r o :: words_or rs os
  | _, _ => result
  end.

(** [result->words[i] &= other->words[i]] for the words of [result]. *)
Fixpoint words_and (result other : list Z) : list Z :=
  match result, other with
  | r :: rs, o :: os => Z.land r o :: words_and rs os
  | _, _ => []
  end.

(** [result->words[i] &= ~b->words[i]] for the common words. *)
Fixpoint words_andnot (result b : list Z) : list Z :=
  match result, b with
  | r :: rs, o :: os => Z.land r (word_not o) :: words_andnot rs os
  | _, _ => result
  end.

Definition bms_union (a b : Bitmapset) : Bitmapset :=
  match a, b with
  | None, _ => bms_copy b
  | _, None => bms_copy a
  | Some aw, Some bw =>
      if zlen aw <=? zlen bw then Some (words_or bw aw) else Some (words_or aw bw)
  end.

Definition bms_intersect (a b : Bitmapset) : Bitmapset :=
  match a, b with
  | None, _ | _, None => None
  | Some aw, Some bw =>
      if zlen aw <=? zlen bw then Some (words_and aw bw) else Some (words_and bw aw)
  end.

Definition bms_difference (a b : Bitmapset) : Bitmapset :=
  match a, b with
  | None, _ => None
  | Some _, None => bms_copy a
  | Some aw, Some bw => Some (words_andnot aw bw)
  end.

(** ** Relations between sets *)

Fixpoint words_subset (aw bw : list Z) : bool :=
  match aw, bw with
  | a :: aw, b :: bw => (Z.land a (word_not b) =? 0) && words_subset aw bw
  | aw, _ => forallb (fun w => w =? 0) aw
  end.

Definition bms_is_subset (a b : Bitmapset) : bool :=
  match a, b with
  | None, _ => true
  | Some _, None => bms_is_empty a
  | Some aw, Some bw => words_subset aw bw
  end.

Inductive BMS_Comparison := BMS_EQUAL | BMS_SUBSET1 | BMS_SUBSET2 | BMS_DIFFERENT.

(** The status after finding that [a] (resp. [b]) is not included in the other;
    [None] is the early return of [BMS_DIFFERENT]. *)
Definition not_subset_a (r : BMS_Comparison) : option BMS_Comparison :=
  match r with BMS_SUBSET1 => None | _ => Some BMS_SUBSET2 end.
Definition not_subset_b (r : BMS_Comparison) : option BMS_Comparison :=
  match r with BMS_SUBSET2 => None | _ => Some BMS_SUBSET1 end.

Fixpoint words_subset_compare_extra (bw : list Z) (result : BMS_Comparison)
  : option BMS_Comparison :=
  match bw with
  | [] => Some result
  | b :: bw =>
      result ← (if negb (b =? 0) then not_subset_b result else Some result);
      words_subset_compare_extra bw result
  end.

Fixpoint words_subset_compare (aw bw : list Z) (result : BMS_Comparison)
  : option BMS_Comparison :=
  match aw, bw with
  | a :: aw', b :: bw' =>
      result ← (if negb (Z.land a (word_not b) =? 0) then not_subset_a result else Some result);
      result ← (if negb (Z.land b (word_not a) =? 0) then not_subset_b result else Some result);
      words_subset_compare aw' bw' result
  | a :: aw', [] =>
      result ← (if negb (a =? 0) then not_subset_a result else Some result);
      words_subset_compare aw' [] result
  | [], bw => words_subset_compare_extra bw result
  end.

Definition bms_subset_compare (a b : Bitmapset) : BMS_Comparison :=
  match a, b with
  | None, None => BMS_EQUAL
  | None, Some _ => if bms_is_empty b then BMS_EQUAL else BMS_SUBSET1
  | Some _, None => if bms_is_empty a then BMS_EQUAL else BMS_SUBSET2
  | Some aw, Some bw =>
      match words_subset_compare aw bw BMS_EQUAL with
      | Some r => r
      | None => BMS_DIFFERENT
      end
  end.

Definition bms_is_member (x : Z) (a : Bitmapset) : outcome bool :=
  if x <? 0 then Err negative_member
  else
    match a with
    | None => Ok false
    | Some ws =>
        let wordnum := WORDNUM x in
        let bitnum := BITNUM x in
        if zlen ws <=? wordnum then Ok false
        else
          w ← zget ws wordnum;
          Ok (negb (Z.land w (word_bit bitnum) =? 0))
    end.

Definition bms_member_index (a : Bitmapset) (x : Z) : outcome Z :=
  m ← bms_is_member x a;
  if negb m then Ok (-1)
  else
    match a with
    | None => Ub
    | Some ws =>
        let wordnum := WORDNUM x in
        let bitnum := BITNUM x in
        let result := fold_left (fun r w => if negb (w =? 0) then r + pg_popcount64_slow w else r)
                        (take (Z.to_nat wordnum) ws) 0 in
        let mask := u64 (word_bit bitnum - 1) in
        w ← zget ws wordnum;
        Ok (result + pg_popcount64_slow (Z.land w mask))
    end.

Fixpoint words_overlap (aw bw : list Z) : bool :=
  match aw, bw with
  | a :: aw, b :: bw => negb (Z.land a b =? 0) || words_overlap aw bw
  | _, _ => false
  end.

Definition bms_overlap (a b : Bitmapset) : bool :=
  match a, b with
  | Some aw, Some bw => words_overlap aw bw
  | _, _ => false
  end.

Fixpoint bms_overlap_list_loop (ws : list Z) (l : list Z) : outcome bool :=
  match l with
  | [] => Ok false
  | x :: l =>
      if x <? 0 then Err negative_member
      else
        hit ← (if WORDNUM x <? zlen ws then
                 w ← zget ws (WORDNUM x);
                 Ok (negb (Z.land w (word_bit (BITNUM x)) =? 0))
               else Ok false);
        if hit : bool then Ok true else bms_overlap_list_loop ws l
  end.

Definition bms_overlap_list (a : Bitmapset) (b : list Z) : outcome bool :=
  match a with
  | None => Ok false
  | Some ws => bms_overlap_list_loop ws b
  end.

Fixpoint words_nonempty_difference (aw bw : list Z) : bool :=
  match aw, bw with
  | a :: aw, b :: bw => negb (Z.land a (word_not b) =? 0) || words_nonempty_difference aw bw
  | a :: aw, [] => negb (a =? 0) || words_nonempty_difference aw []
  | [], _ => false
  end.

Definition bms_nonempty_difference (a b : Bitmapset) : bool :=
  match a, b with
  | None, _ => false
  | Some _, None => negb (bms_is_empty a)
  | Some aw, Some bw => words_nonempty_difference aw bw
  end.

(** ** Cardinality *)

(** The scan shared by the singleton tests: [None] when two members are seen. *)
Fixpoint words_singleton (ws : list Z) (wordnum result : Z) : option Z :=
  match ws with
  | [] => Some result
  | w :: ws =>
      if negb (w =? 0) then
        if (0 <=? result) || HAS_MULTIPLE_ONES w then None
        else words_singleton ws (wordnum + 1)
               (wordnum * BITS_PER_BITMAPWORD + pg_rightmost_one_pos64 w)
      else words_singleton ws (wordnum + 1) result
  end.

Definition bms_singleton_member (a : Bitmapset) : outcome Z :=
  match a with
  | None => Err "bitmapset is empty"
  | Some ws =>
      match words_singleton ws 0 (-1) with
      | None => Err "bitmapset has multiple members"
      | Some result => if result <? 0 then Err "bitmapset is empty" else Ok result
      end
  end.

(** The result is the value stored in [*member], [None] when the test fails. *)
Definition bms_get_singleton_member (a : Bitmapset) : option Z :=
  match a with
  | None => None
  | Some ws =>
      match words_singleton ws 0 (-1) with
      | None => None
      | Some result => if result <? 0 then None else Some result
      end
  end.

Definition bms_num_members (a : Bitmapset) : Z :=
  match a with
  | None => 0
  | Some ws =>
      fold_left (fun r w => if negb (w =? 0) then r + pg_popcount64_slow w else r) ws 0
  end.

Inductive BMS_Membership := BMS_EMPTY_SET | BMS_SINGLETON | BMS_MULTIPLE.

Fixpoint words_membership (ws : list Z) (result : BMS_Membership) : BMS_Membership :=
  match ws with
  | [] => result
  | w :: ws =>
      if negb (w =? 0) then
        match result with
        | BMS_EMPTY_SET =>
            if HAS_MULTIPLE_ONES w then BMS_MULTIPLE else words_membership ws BMS_SINGLETON
        | _ => BMS_MULTIPLE
        end
      else words_membership ws result
  end.

Definition bms_membership (a : Bitmapset) : BMS_Membership :=
  match a with
  | None => BMS_EMPTY_SET
  | Some ws => words_membership ws BMS_EMPTY_SET
  end.

(** ** Operations that recycle their input *)

(** [repalloc] to [n] words with the enlarged portion zeroed. *)
Definition words_enlarge (ws : list Z) (n : Z) : list Z :=
  ws ++ replicate (Z.to_nat n - length ws) 0.

Definition bms_add_member (a : Bitmapset) (x : Z) : outcome Bitmapset :=
  if x <? 0 then Err negative_member
  else
    match a with
    | None => bms_make_singleton x
    | Some ws =>
        let wordnum := WORDNUM x in
        let bitnum := BITNUM x in
        let ws := if zlen ws <=? wordnum then words_enlarge ws (wordnum + 1) else ws in
        w ← zget ws wordnum;
        ws ← zset ws wordnum (Z.lor w (word_bit bitnum));
        Ok (Some ws)
    end.

Definition bms_covers_member (a : Bitmapset) (x : Z) : outcome bool :=
  if x <? 0 then Err negative_member
  else
    match a with
    | None => Ok false
    | Some ws => Ok (WORDNUM x <? zlen ws)
    end.

Definition bms_resize (a : Bitmapset) (wc : Z) : Bitmapset :=
  match a with
  | Some ws => if wc <=? zlen ws then a else Some (words_enlarge ws wc)
  | None => Some (replicate (Z.to_nat wc) 0)
  end.

Definition bms_del_member (a : Bitmapset) (x : Z) : outcome Bitmapset :=
  if x <? 0 then Err negative_member
  else
    match a with
    | None => Ok None
    | Some ws =>
        let wordnum := WORDNUM x in
        let bitnum := BITNUM x in
        if wordnum <? zlen ws then
          w ← zget ws wordnum;
          ws ← zset ws wordnum (Z.land w (word_not (word_bit bitnum)));
          Ok (Some ws)
        else Ok a
    end.

Definition bms_add_members (a b : Bitmapset) : Bitmapset :=
  match a, b with
  | None, _ => bms_copy b
  | Some _, None => a
  | Some aw, Some bw =>
      if zlen aw <? zlen bw then Some (words_or bw aw) else Some (words_or aw bw)
  end.

(** [while (wordnum < uwordnum) a->words[wordnum++] = ~(bitmapword) 0;] *)
Fixpoint words_fill (k : nat) (ws : list Z) (wordnum : Z) : outcome (list Z) :=
  match k with
  | O => Ok ws
  | S k =>
      ws ← zset ws wordnum word_ones;
      words_fill k ws (wordnum + 1)
  end.

Definition bms_add_range (a : Bitmapset) (lower upper : Z) : outcome Bitmapset :=
  if upper <? lower then Ok a
  else if lower <? 0 then Err negative_member
  else
    let uwordnum := WORDNUM upper in
    let ws := match a with
              | None => replicate (Z.to_nat (uwordnum + 1)) 0
              | Some ws => if zlen ws <=? uwordnum then words_enlarge ws (uwordnum + 1) else ws
              end in
    let lwordnum := WORDNUM lower in
    let lbitnum := BITNUM lower in
    let ushiftbits := BITS_PER_BITMAPWORD - (BITNUM upper + 1) in
    let lmask := word_not (u64 (word_bit lbitnum - 1)) in
    let umask := Z.shiftr word_ones ushiftbits in
    if lwordnum =? uwordnum then
      w ← zget ws lwordnum;
      ws ← zset ws lwordnum (Z.lor w (Z.land lmask umask));
      Ok (Some ws)
    else
      w ← zget ws lwordnum;
      ws ← zset ws lwordnum (Z.lor w lmask);
      ws ← words_fill (Z.to_nat (uwordnum - (lwordnum + 1))) ws (lwordnum + 1);
      w ← zget ws uwordnum;
      ws ← zset ws uwordnum (Z.lor w umask);
      Ok (Some ws).

(** [a->words[i] &= b->words[i]], and zero for the words [b] does not have. *)
Fixpoint words_and_zero (aw bw : list Z) : list Z :=
  match aw, bw with
  | a :: aw, b :: bw => Z.land a b :: words_and_zero aw bw
  | a :: aw, [] => 0 :: words_and_zero aw []
  | [], _ => []
  end.

Definition bms_int_members (a b : Bitmapset) : Bitmapset :=
  match a, b with
  | None, _ => None
  | Some _, None => None
  | Some aw, Some bw => Some (words_and_zero aw bw)
  end.

Definition bms_del_members (a b : Bitmapset) : Bitmapset :=
  match a, b with
  | None, _ => None
  | Some _, None => a
  | Some aw, Some bw => Some (words_andnot aw bw)
  end.

Definition bms_join (a b : Bitmapset) : Bitmapset :=
  match a, b with
  | None, _ => b
  | Some _, None => a
  | Some aw, Some bw =>
      if zlen aw <? zlen bw then Some (words_or bw aw) else Some (words_or aw bw)
  end.

(** ** Iteration *)

(** The member found and the words after its removal. *)
Fixpoint words_first_member (ws : list Z) (wordnum : Z) : Z * list Z :=
  match ws with
  | [] => (-1, [])
  | w :: ws =>
      if negb (w =? 0) then
        let r := RIGHTMOST_ONE w in
        (wordnum * BITS_PER_BITMAPWORD + pg_rightmost_one_pos64 r,
         Z.land w (word_not r) :: ws)
      else
        let '(x, ws) := words_first_member ws (wordnum + 1) in (x, w :: ws)
  end.

Definition bms_first_member (a : Bitmapset) : Z * Bitmapset :=
  match a with
  | None => (-1, None)
  | Some ws => let '(x, ws) := words_first_member ws 0 in (x, Some ws)
  end.

(** The loop of [bms_next_member] over the words from [wordnum] on. *)
Fixpoint words_next_member (ws : list Z) (wordnum mask : Z) : Z :=
  match ws with
  | [] => -2
  | w :: ws =>
      let w := Z.land w mask in
      if negb (w =? 0) then wordnum * BITS_PER_BITMAPWORD + pg_rightmost_one_pos64 w
      else words_next_member ws (wordnum + 1) word_ones
  end.

Definition bms_next_member (a : Bitmapset) (prevbit : Z) : Z :=
  match a with
  | None => -2
  | Some ws =>
      let prevbit := prevbit + 1 in
      let mask := u64 (Z.shiftl word_ones (BITNUM prevbit)) in
      words_next_member (drop (Z.to_nat (WORDNUM prevbit)) ws) (WORDNUM prevbit) mask
  end.

(** The loop of [bms_prev_member] from word [n - 1] down to word 0. *)
Fixpoint words_prev_member (n : nat) (ws : list Z) (mask : Z) : outcome Z :=
  match n with
  | O => Ok (-2)
  | S n =>
      w ← zget ws (Z.of_nat n);
      let w := Z.land w mask in
      if negb (w =? 0) then Ok (Z.of_nat n * BITS_PER_BITMAPWORD + pg_leftmost_one_pos64 w)
      else words_prev_member n ws word_ones
  end.

Definition bms_prev_member (a : Bitmapset) (prevbit : Z) : outcome Z :=
  match a with
  | None => Ok (-2)
  | Some ws =>
      if prevbit =? 0 then Ok (-2)
      else
        let prevbit := if prevbit =? -1 then zlen ws * BITS_PER_BITMAPWORD - 1
                       else prevbit - 1 in
        let ushiftbits := BITS_PER_BITMAPWORD - (BITNUM prevbit + 1) in
        let mask := Z.shiftr word_ones ushiftbits in
        words_prev_member (Z.to_nat (WORDNUM prevbit + 1)) ws mask
  end.

(** ** Hashing *)

(** The words up to the last nonzero one. *)
Fixpoint strip_zeros (n : nat) (ws : list Z) : list Z :=
  match n with
  | O => []
  | S n => if nth n ws 0 =? 0 then strip_zeros n ws else take (S n) ws
  end.

(** [hash_any] hashes the bytes of the words. *)
Definition bms_hash_value (hash_any : list Z -> Z) (a : Bitmapset) : Z :=
  match a with
  | None => 0
  | Some ws =>
      match strip_zeros (length ws) ws with
      | [] => 0
      | ws => hash_any (flat_map (le_split 8) ws)
      end
  end.

(** ** Abstraction *)

(** The integer whose bits are the bits of the words, least significant word
    first, and the integer of a set. *)
Fixpoint words_val (ws : list Z) : Z :=
  match ws with
  | [] => 0
  | w :: ws => w + 2 ^ 64 * words_val ws
  end.

Definition bms_val (a : Bitmapset) : Z :=
  match a with None => 0 | Some ws => words_val ws end.

(** Every word is a 64-bit unsigned integer. *)
Definition words_wf (ws : list Z) : Prop := Forall (ubits 64) ws.
Definition bms_wf (a : Bitmapset) : Prop :=
  match a with None => True | Some ws => words_wf ws end.

Lemma ubits64_0 : ubits 64 0.
Proof. unfold ubits. lia. Qed.
Lemma ubits64_ones : ubits 64 word_ones.
Proof. unfold ubits, word_ones. lia. Qed.

Lemma word_not_testbit w i :
  ubits 64 w -> 0 <= i -> Z.testbit (word_not w) i = (i <? 64) && negb (Z.testbit w i).
Proof.
  intros Hw Hi. unfold word_not, word_ones. change (2 ^ 64 - 1) with (Z.ones 64).
  rewrite Z.lxor_spec, Z.testbit_ones by lia. destruct (Z.ltb_spec i 64).
  - rewrite (proj2 (Z.leb_le 0 i)) by lia. by destruct (Z.testbit w i).
  - rewrite (ubits_testbit 64 w i) by done. by rewrite andb_false_r.
Qed.

Lemma ubits64_not w : ubits 64 w -> ubits 64 (word_not w).
Proof.
  intros Hw. apply testbit_ubits; [lia | |].
  - unfold word_not. apply Z.lxor_nonneg. destruct Hw. unfold word_ones. lia.
  - intros i Hi. rewrite word_not_testbit by (done || lia).
    by rewrite (proj2 (Z.ltb_ge i 64)) by lia.
Qed.

Lemma land_word_not a b : ubits 64 a -> ubits 64 b -> Z.land a (word_not b) = Z.ldiff a b.
Proof.
  intros Ha Hb. apply bits_ext. intros i Hi.
  rewrite Z.land_spec, Z.ldiff_spec, word_not_testbit by done.
  destruct (Z.ltb_spec i 64); [done |]. by rewrite (ubits_testbit 64 a i).
Qed.

Lemma ubits64_lor a b : ubits 64 a -> ubits 64 b -> ubits 64 (Z.lor a b).
Proof. apply ubits_lor. lia. Qed.
Lemma ubits64_land a b : ubits 64 a -> ubits 64 b -> ubits 64 (Z.land a b).
Proof. intros ? [? ?]. by apply ubits_land_l. Qed.
Lemma ubits64_ldiff a b : ubits 64 a -> ubits 64 b -> ubits 64 (Z.ldiff a b).
Proof. intros ? [? ?]. by apply ubits_ldiff. Qed.

Create HintDb bms.
#[export] Hint Resolve ubits64_0 ubits64_ones ubits64_not ubits64_lor ubits64_land
  ubits64_ldiff : bms.
#[export] Hint Unfold words_wf bms_wf : bms.
#[export] Hint Constructors Forall : bms.

Lemma words_val_nonneg ws : words_wf ws -> 0 <= words_val ws.
Proof.
  intros H. induction H as [| w ws [Hw _] _ IH]; [done |].
  cbn [words_val]. lia.
Qed.

Lemma bms_val_nonneg a : bms_wf a -> 0 <= bms_val a.
Proof. destruct a; [apply words_val_nonneg | done]. Qed.

Lemma words_val_app l1 l2 :
  words_val (l1 ++ l2) = words_val l1 + 2 ^ (64 * zlen l1) * words_val l2.
Proof.
  unfold zlen. induction l1 as [| w l1 IH]; cbn [words_val app length]; [simpl; lia |].
  rewrite IH. replace (64 * Z.of_nat (S (length l1))) with (64 + 64 * Z.of_nat (length l1)) by lia.
  rewrite Z.pow_add_r by lia. lia.
Qed.

Lemma words_val_zeros n : words_val (replicate n 0) = 0.
Proof. induction n as [| n IH]; [done |]. cbn [replicate words_val]. lia. Qed.

Lemma words_val_bound ws : words_wf ws -> ubits (64 * zlen ws) (words_val ws).
Proof.
  unfold zlen, ubits. intros H. induction H as [| w ws [Hw0 Hw1] _ IH]; cbn [words_val length]; [simpl; lia |].
  replace (64 * Z.of_nat (S (length ws))) with (64 + 64 * Z.of_nat (length ws)) by lia.
  rewrite Z.pow_add_r by lia. nia.
Qed.

(** The bit [i] of the value is the bit [i mod 64] of the word [i / 64]. *)
Lemma words_val_testbit ws i :
  words_wf ws -> 0 <= i ->
  Z.testbit (words_val ws) i =
  match ws !! Z.to_nat (i / 64) with Some w => Z.testbit w (i mod 64) | None => false end.
Proof.
  intros H. revert i. induction H as [| w ws Hw _ IH]; intros i Hi; cbn [words_val].
  { by rewrite Z.testbit_0_l, lookup_nil. }
  rewrite join_testbit by (done || lia). destruct (Z.ltb_spec i 64).
  - rewrite Z.div_small, Z.mod_small by lia. done.
  - rewrite IH by lia.
    assert (Ed : (i - 64) / 64 = i / 64 - 1) by zlia. assert (1 <= i / 64) by zlia.
    rewrite Ed. replace (Z.to_nat (i / 64)) with (S (Z.to_nat (i / 64 - 1))) by lia.
    simpl. replace ((i - 64) mod 64) with (i mod 64) by zlia. done.
Qed.

Lemma join64_eqb a b u v :
  ubits 64 a -> ubits 64 b ->
  (a + 2 ^ 64 * u =? b + 2 ^ 64 * v) = (a =? b) && (u =? v).
Proof.
  intros Ha Hb. destruct (Z.eqb_spec (a + 2 ^ 64 * u) (b + 2 ^ 64 * v)) as [E | E].
  - apply join_inj in E as [-> ->]; [| done..]. by rewrite !Z.eqb_refl.
  - destruct (Z.eqb_spec a b) as [-> |]; [| done]. destruct (Z.eqb_spec u v) as [-> |]; done.
Qed.

Lemma join64_eqb0 a u : ubits 64 a -> (a + 2 ^ 64 * u =? 0) = (a =? 0) && (u =? 0).
Proof. intros Ha. rewrite <- (join64_eqb a 0 u 0); auto with bms. Qed.

(** ** The word loops compute bit operations on the values *)

Lemma words_all_zero ws : words_wf ws -> forallb (fun w => w =? 0) ws = (words_val ws =? 0).
Proof.
  intros H. induction H as [| w ws Hw _ IH]; [done |]. cbn [forallb words_val].
  by rewrite join64_eqb0, IH.
Qed.

Lemma words_equal_ok s l :
  words_wf s -> words_wf l -> (length s <= length l)%nat ->
  words_equal s l = (words_val s =? words_val l).
Proof.
  intros Hs. revert l. induction Hs as [| w s Hw _ IH]; intros l Hl Hlen.
  - destruct l as [| x l]; [done |].
    change (words_equal [] (x :: l)) with (forallb (fun w => w =? 0) (x :: l)).
    rewrite words_all_zero by done. apply Z.eqb_sym.
  - destruct Hl as [| x l Hx Hl]; simpl in Hlen; [lia |]. cbn [words_equal words_val].
    by rewrite IH, join64_eqb by (done || lia).
Qed.

Lemma words_or_ok r o :
  words_wf r -> words_wf o -> (length o <= length r)%nat ->
  words_wf (words_or r o) /\ words_val (words_or r o) = Z.lor (words_val r) (words_val o).
Proof.
  intros Hr. revert o. induction Hr as [| w r Hw Hr IH]; intros o Ho Hlen.
  - destruct o; simpl in Hlen; [done | lia].
  - destruct Ho as [| x o Hx Ho]; cbn [words_or words_val].
    + rewrite Z.lor_0_r. split; [by constructor | done].
    + destruct (IH o Ho) as [Hwf Hv]; [simpl in Hlen; lia |].
      rewrite join_lor, Hv by (done || lia). split; [| done]. constructor; auto with bms.
Qed.

Lemma words_and_ok r o :
  words_wf r -> words_wf o ->
  words_wf (words_and r o) /\ words_val (words_and r o) = Z.land (words_val r) (words_val o).
Proof.
  intros Hr. revert o. induction Hr as [| w r Hw Hr IH]; intros o Ho.
  - split; [constructor | done].
  - destruct Ho as [| x o Hx Ho]; cbn [words_and words_val].
    + rewrite Z.land_0_r. split; [constructor | done].
    + destruct (IH o Ho) as [Hwf Hv].
      rewrite join_land, Hv by (done || lia). split; [| done]. constructor; auto with bms.
Qed.

Lemma words_and_zero_ok r o :
  words_wf r -> words_wf o ->
  words_wf (words_and_zero r o) /\
  words_val (words_and_zero r o) = Z.land (words_val r) (words_val o).
Proof.
  intros Hr. revert o. induction Hr as [| w r Hw Hr IH]; intros o Ho.
  - split; [constructor | done].
  - destruct Ho as [| x o Hx Ho]; cbn [words_and_zero words_val].
    + destruct (IH [] ltac:(constructor)) as [Hwf Hv]. rewrite Hv. cbn [words_val].
      rewrite !Z.land_0_r. split; [constructor; auto with bms | done].
    + destruct (IH o Ho) as [Hwf Hv].
      rewrite join_land, Hv by (done || lia). split; [| done]. constructor; auto with bms.
Qed.

Lemma words_andnot_ok r o :
  words_wf r -> words_wf o ->
  words_wf (words_andnot r o) /\
  words_val (words_andnot r o) = Z.ldiff (words_val r) (words_val o).
Proof.
  intros Hr. revert o. induction Hr as [| w r Hw Hr IH]; intros o Ho.
  - split; [constructor | done].
  - destruct Ho as [| x o Hx Ho]; cbn [words_andnot words_val].
    + rewrite Z.ldiff_0_r. split; [by constructor | done].
    + destruct (IH o Ho) as [Hwf Hv].
      rewrite land_word_not, join_ldiff, Hv by (done || lia).
      split; [| done]. constructor; auto with bms.
Qed.

Lemma words_subset_ok aw bw :
  words_wf aw -> words_wf bw ->
  words_subset aw bw = (Z.ldiff (words_val aw) (words_val bw) =? 0).
Proof.
  intros Ha. revert bw. induction Ha as [| a aw Ha Haw IH]; intros bw Hb; [by destruct bw |].
  destruct Hb as [| b bw Hb Hbw].
  - change (words_subset (a :: aw) []) with (forallb (fun w => w =? 0) (a :: aw)).
    rewrite words_all_zero by by constructor. cbn [words_val]. by rewrite Z.ldiff_0_r.
  - cbn [words_subset words_val].
    rewrite land_word_not, join_ldiff, join64_eqb0, IH by (auto with bms; lia). done.
Qed.

Lemma words_nonempty_difference_ok aw bw :
  words_wf aw -> words_wf bw ->
  words_nonempty_difference aw bw = negb (Z.ldiff (words_val aw) (words_val bw) =? 0).
Proof.
  intros Ha. revert bw. induction Ha as [| a aw Ha Haw IH]; intros bw Hb; [by destruct bw |].
  destruct Hb as [| b bw Hb Hbw]; cbn [words_nonempty_difference words_val].
  - rewrite IH by constructor. cbn [words_val].
    by rewrite !Z.ldiff_0_r, join64_eqb0, negb_andb by done.
  - by rewrite land_word_not, join_ldiff, join64_eqb0, IH, negb_andb by (auto with bms; lia).
Qed.

Lemma words_overlap_ok aw bw :
  words_wf aw -> words_wf bw ->
  words_overlap aw bw = negb (Z.land (words_val aw) (words_val bw) =? 0).
Proof.
  intros Ha. revert bw. induction Ha as [| a aw Ha Haw IH]; intros bw Hb; [by destruct bw |].
  destruct Hb as [| b bw Hb Hbw]; cbn [words_overlap words_val].
  - by rewrite Z.land_0_r.
  - by rewrite join_land, join64_eqb0, IH, negb_andb by (auto with bms; lia).
Qed.

(** The verdict of a comparison from "[a] has a member outside [b]" and "[b] has
    a member outside [a]". *)
Definition cmp_of (na nb : bool) : BMS_Comparison :=
  match na, nb with
  | false, false => BMS_EQUAL
  | false, true => BMS_SUBSET1
  | true, false => BMS_SUBSET2
  | true, true => BMS_DIFFERENT
  end.

Lemma not_subset_a_step (na nb c : bool) :
  na && nb = false ->
  (if c then not_subset_a (cmp_of na nb) else Some (cmp_of na nb)) =
  if c && nb then None else Some (cmp_of (na || c) nb).
Proof. by destruct na, nb, c. Qed.

Lemma not_subset_b_step (na nb c : bool) :
  na && nb = false ->
  (if c then not_subset_b (cmp_of na nb) else Some (cmp_of na nb)) =
  if c && na then None else Some (cmp_of na (nb || c)).
Proof. by destruct na, nb, c. Qed.

Lemma words_subset_compare_extra_ok bw na nb :
  words_wf bw -> na && nb = false ->
  default BMS_DIFFERENT (words_subset_compare_extra bw (cmp_of na nb)) =
  cmp_of na (nb || negb (words_val bw =? 0)).
Proof.
  intros Hb. revert na nb. induction Hb as [| b bw Hb Hbw IH]; intros na nb Hn.
  { cbn. by rewrite orb_false_r. }
  cbn [words_subset_compare_extra words_val]. rewrite not_subset_b_step by done.
  rewrite join64_eqb0, negb_andb, orb_assoc by done.
  destruct (negb (b =? 0)), na, nb; try done; cbn [andb orb mbind option_bind];
    by rewrite IH by done.
Qed.

Lemma words_subset_compare_ok aw bw na nb :
  words_wf aw -> words_wf bw -> na && nb = false ->
  default BMS_DIFFERENT (words_subset_compare aw bw (cmp_of na nb)) =
  cmp_of (na || negb (Z.ldiff (words_val aw) (words_val bw) =? 0))
         (nb || negb (Z.ldiff (words_val bw) (words_val aw) =? 0)).
Proof.
  intros Ha. revert bw na nb.
  induction Ha as [| a aw Ha Haw IH]; intros bw na nb Hb Hn.
  - rewrite Z.ldiff_0_l, Z.ldiff_0_r, orb_false_r. by apply words_subset_compare_extra_ok.
  - destruct Hb as [| b bw Hb Hbw]; cbn [words_subset_compare words_val];
      rewrite not_subset_a_step by done.
    + rewrite Z.ldiff_0_r, Z.ldiff_0_l, join64_eqb0, negb_andb, orb_assoc by done.
      specialize (IH [] (na || negb (a =? 0)) nb ltac:(constructor)).
      cbn [words_val] in IH. rewrite Z.ldiff_0_r, Z.ldiff_0_l in IH.
      destruct (negb (a =? 0)), na, nb; try done; cbn [andb orb mbind option_bind] in *;
        by apply IH.
    + rewrite !land_word_not, !join_ldiff, !join64_eqb0, !negb_andb, !orb_assoc
        by (auto with bms; lia).
      destruct (negb (Z.ldiff a b =? 0)), (negb (Z.ldiff b a =? 0)), na, nb; try done;
        cbn [andb orb mbind option_bind cmp_of not_subset_b];
        first [ done | by apply (IH bw false false) | by apply (IH bw false true)
              | by apply (IH bw true false) ].
Qed.

(** The sign C returns for a three-way comparison. *)
Definition sign_of (c : comparison) : Z := match c with Eq => 0 | Lt => -1 | Gt => 1 end.

Lemma take_S_zget (ws : list Z) n :
  (n < length ws)%nat -> exists w, zget ws (Z.of_nat n) = Ok w /\ ws !! n = Some w /\
                         take (S n) ws = take n ws ++ [w].
Proof.
  intros H. destruct (lookup_lt_is_Some_2 ws n H) as [w Hw]. exists w.
  split_and!; [by apply zget_nat | done | by apply take_S_r].
Qed.

Lemma words_compare_down_ok n aw bw :
  words_wf aw -> words_wf bw -> (n <= length aw)%nat -> (n <= length bw)%nat ->
  words_compare_down n aw bw = Ok (sign_of (words_val (take n aw) ?= words_val (take n bw))).
Proof.
  intros Ha Hb. induction n as [| n IH]; intros Hla Hlb; [done |]. cbn [words_compare_down].
  destruct (take_S_zget aw n Hla) as (a & Ea & La & Ta).
  destruct (take_S_zget bw n Hlb) as (b & Eb & Lb & Tb).
  rewrite Ea, Eb, Ta, Tb, !words_val_app. cbn [mbind outcome_bind words_val].
  assert (Za : zlen (take n aw) = Z.of_nat n) by (unfold zlen; rewrite length_take; lia).
  assert (Zb : zlen (take n bw) = Z.of_nat n) by (unfold zlen; rewrite length_take; lia).
  pose proof (words_val_bound (take n aw) (Forall_take _ _ _ Ha)) as Ba.
  pose proof (words_val_bound (take n bw) (Forall_take _ _ _ Hb)) as Bb.
  rewrite Za in *. rewrite Zb in *. rewrite join_compare, Z.mul_0_r, !Z.add_0_r by done.
  destruct (Z.compare_spec a b) as [-> | H | H].
  - rewrite Z.eqb_refl. apply IH; lia.
  - rewrite (proj2 (Z.eqb_neq a b)), (proj2 (Z.ltb_ge b a)) by lia. done.
  - rewrite (proj2 (Z.eqb_neq a b)), (proj2 (Z.ltb_lt b a)) by lia. done.
Qed.

Lemma words_take_drop n ws :
  words_wf ws -> (n <= length ws)%nat ->
  words_val ws = words_val (take n ws) + 2 ^ (64 * Z.of_nat n) * words_val (drop n ws).
Proof.
  intros H Hn. rewrite <- (take_drop n ws) at 1. rewrite words_val_app.
  unfold zlen. by rewrite length_take, Nat.min_l.
Qed.

Lemma bms_is_empty_ok a : bms_wf a -> bms_is_empty a = (bms_val a =? 0).
Proof. destruct a; [apply words_all_zero | done]. Qed.

Lemma bms_compare_ok a b :
  bms_wf a -> bms_wf b -> bms_compare a b = Ok (sign_of (bms_val a ?= bms_val b)).
Proof.
  intros Ha Hb. pose proof (bms_val_nonneg a Ha) as Na. pose proof (bms_val_nonneg b Hb) as Nb.
  destruct a as [aw |]; [destruct b as [bw |] |]; cbn [bms_compare].
  - cbn [bms_val bms_wf] in *. set (n := Nat.min (length aw) (length bw)).
    rewrite !words_all_zero by by apply Forall_drop.
    rewrite (words_take_drop n aw), (words_take_drop n bw) by (done || lia).
    pose proof (words_val_bound (take n aw) (Forall_take _ _ _ Ha)) as Ba.
    pose proof (words_val_bound (take n bw) (Forall_take _ _ _ Hb)) as Bb.
    unfold zlen in *. rewrite length_take, Nat.min_l in Ba, Bb by lia.
    rewrite join_compare by done. rewrite words_compare_down_ok by (done || lia).
    pose proof (words_val_nonneg (drop n aw) (Forall_drop _ _ _ Ha)).
    pose proof (words_val_nonneg (drop n bw) (Forall_drop _ _ _ Hb)).
    assert (words_val (drop n aw) = 0 \/ words_val (drop n bw) = 0) as Hz.
    { destruct (Nat.le_ge_cases (length aw) (length bw)); [left | right];
        rewrite drop_ge by lia; done. }
    destruct (Z.eqb_spec (words_val (drop n aw)) 0) as [Ea | Ea]; cbn [negb].
    + rewrite Ea. destruct (Z.eqb_spec (words_val (drop n bw)) 0) as [Eb | Eb]; cbn [negb].
      * by rewrite Eb.
      * rewrite (proj2 (Z.compare_lt_iff _ _)) by lia. done.
    + rewrite (proj2 (Z.compare_gt_iff _ _)) by lia. done.
  - rewrite bms_is_empty_ok by done. change (bms_val None) with 0.
    destruct (Z.eqb_spec (bms_val (Some aw)) 0) as [-> |]; [done |].
    by rewrite (proj2 (Z.compare_gt_iff _ _)) by lia.
  - rewrite bms_is_empty_ok by done. change (bms_val None) with 0.
    destruct (Z.eqb_spec (bms_val b) 0) as [-> |]; [done |].
    by rewrite (proj2 (Z.compare_lt_iff _ _)) by lia.
Qed.

(** ** Single members *)

Lemma WORDNUM_div x : 0 <= x -> WORDNUM x = x / 64.
Proof. intros. by apply Z.quot_div_nonneg. Qed.
Lemma BITNUM_mod x : 0 <= x -> BITNUM x = x mod 64.
Proof. intros. by apply Z.rem_mod_nonneg. Qed.

Lemma word_bit_pow2 n : 0 <= n < 64 -> word_bit n = 2 ^ n.
Proof.
  intros Hn. unfold word_bit. rewrite Z.shiftl_mul_pow2, Z.mul_1_l by lia.
  apply u64_small. split; [lia |]. apply Z.pow_lt_mono_r; lia.
Qed.

Lemma ubits64_pow2 n : 0 <= n < 64 -> ubits 64 (2 ^ n).
Proof. intros. split; [lia |]. apply Z.pow_lt_mono_r; lia. Qed.

Lemma land_pow2_test w n : 0 <= n -> negb (Z.land w (2 ^ n) =? 0) = Z.testbit w n.
Proof.
  intros Hn. destruct (Z.testbit w n) eqn:E.
  - apply negb_true_iff, Z.eqb_neq. intros H. apply (f_equal (fun z => Z.testbit z n)) in H.
    by rewrite Z.land_spec, E, testbit_pow2, Z.eqb_refl, Z.testbit_0_l in H by done.
  - apply negb_false_iff, Z.eqb_eq, bits_ext. intros i Hi.
    rewrite Z.land_spec, testbit_pow2, Z.testbit_0_l by done.
    destruct (Z.eqb_spec i n) as [-> |]; [by rewrite E | apply andb_false_r].
Qed.

(** Reading the word of [x], when the set has it. *)
Lemma zget_WORDNUM (ws : list Z) x :
  0 <= x -> WORDNUM x < zlen ws ->
  exists w, zget ws (WORDNUM x) = Ok w /\ ws !! Z.to_nat (x / 64) = Some w.
Proof.
  intros Hx Hl. rewrite WORDNUM_div in * by done. unfold zlen in Hl.
  destruct (lookup_lt_is_Some_2 ws (Z.to_nat (x / 64))) as [w Hw]; [zlia |].
  exists w. split; [| done]. apply zget_lookup; [zlia | done].
Qed.

Lemma words_wf_lookup ws k w : words_wf ws -> ws !! k = Some w -> ubits 64 w.
Proof. intros H. by apply Forall_lookup_1. Qed.

(** Replacing one word changes the bits of that word only. *)
Lemma words_insert_testbit ws k w i :
  words_wf ws -> ubits 64 w -> (k < length ws)%nat -> 0 <= i ->
  Z.testbit (words_val (<[k := w]> ws)) i =
  if i / 64 =? Z.of_nat k then Z.testbit w (i mod 64) else Z.testbit (words_val ws) i.
Proof.
  intros Hwf Hw Hk Hi. rewrite !words_val_testbit; auto using Forall_insert.
  2: by apply Forall_insert.
  assert (0 <= i / 64) by zlia. destruct (Z.eqb_spec (i / 64) (Z.of_nat k)) as [E | E].
  - rewrite E, Nat2Z.id. by rewrite list_lookup_insert_eq.
  - rewrite list_lookup_insert_ne by lia. done.
Qed.

Lemma words_enlarge_wf ws n : words_wf ws -> words_wf (words_enlarge ws n).
Proof. intros H. apply Forall_app. split; [done |]. apply Forall_replicate, ubits64_0. Qed.

Lemma words_enlarge_val ws n : words_val (words_enlarge ws n) = words_val ws.
Proof. unfold words_enlarge. rewrite words_val_app, words_val_zeros. lia. Qed.

Lemma words_enlarge_length ws n : zlen (words_enlarge ws n) = Z.max (zlen ws) n.
Proof.
  unfold zlen, words_enlarge. rewrite length_app, length_replicate. lia.
Qed.

Lemma index_split i x : i / 64 = x / 64 -> i mod 64 = x mod 64 -> i = x.
Proof. intros. zlia. Qed.

Lemma testbit_setbit v x i : 0 <= x -> Z.testbit (Z.lor v (2 ^ x)) i = Z.testbit v i || (i =? x).
Proof. intros. by rewrite Z.lor_spec, testbit_pow2. Qed.

Lemma bms_is_member_ok x a :
  bms_wf a -> 0 <= x -> bms_is_member x a = Ok (Z.testbit (bms_val a) x).
Proof.
  intros Ha Hx. unfold bms_is_member. rewrite (proj2 (Z.ltb_ge x 0)) by lia.
  destruct a as [ws |]; cbn [bms_val]; [| by rewrite Z.testbit_0_l].
  rewrite words_val_testbit by done. destruct (Z.leb_spec (zlen ws) (WORDNUM x)) as [H | H].
  - rewrite WORDNUM_div in H by done. unfold zlen in H.
    by rewrite lookup_ge_None_2 by zlia.
  - destruct (zget_WORDNUM ws x Hx H) as (w & -> & ->). cbn [mbind outcome_bind].
    assert (0 <= x mod 64 < 64) by zlia.
    by rewrite BITNUM_mod, word_bit_pow2, land_pow2_test by lia.
Qed.

Lemma words_set_bit ws x :
  words_wf ws -> 0 <= x -> WORDNUM x < zlen ws ->
  exists ws', (w ← zget ws (WORDNUM x); zset ws (WORDNUM x) (Z.lor w (word_bit (BITNUM x)))) = Ok ws' /\
    words_wf ws' /\ words_val ws' = Z.lor (words_val ws) (2 ^ x).
Proof.
  intros Hwf Hx Hl. destruct (zget_WORDNUM ws x Hx Hl) as (w & -> & Hw).
  cbn [mbind outcome_bind]. rewrite WORDNUM_div in * by done. unfold zlen in Hl.
  assert (Hm : 0 <= x mod 64 < 64) by zlia. assert (0 <= x / 64) by zlia.
  rewrite BITNUM_mod, word_bit_pow2 by lia.
  pose proof (words_wf_lookup _ _ _ Hwf Hw) as Hu. pose proof (ubits64_pow2 _ Hm) as Hp.
  eexists. split_and!.
  - apply zset_ok; unfold zlen; lia.
  - apply Forall_insert; auto with bms.
  - apply bits_ext. intros i Hi. rewrite words_insert_testbit by (auto with bms; lia).
    rewrite !testbit_setbit, words_val_testbit by (done || lia). rewrite Z2Nat.id by lia.
    destruct (Z.eqb_spec (i / 64) (x / 64)) as [E | E].
    + rewrite E, Hw. f_equal. destruct (Z.eqb_spec i x) as [-> | Hne]; [by rewrite Z.eqb_refl |].
      apply Z.eqb_neq. intros E'. apply Hne. by apply index_split.
    + destruct (Z.eqb_spec i x) as [-> | Hne]; [done | by rewrite orb_false_r].
Qed.

Lemma words_clear_bit ws x :
  words_wf ws -> 0 <= x -> WORDNUM x < zlen ws ->
  exists ws', (w ← zget ws (WORDNUM x);
               zset ws (WORDNUM x) (Z.land w (word_not (word_bit (BITNUM x))))) = Ok ws' /\
    words_wf ws' /\ words_val ws' = Z.ldiff (words_val ws) (2 ^ x).
Proof.
  intros Hwf Hx Hl. destruct (zget_WORDNUM ws x Hx Hl) as (w & -> & Hw).
  cbn [mbind outcome_bind]. rewrite WORDNUM_div in * by done. unfold zlen in Hl.
  assert (Hm : 0 <= x mod 64 < 64) by zlia. assert (0 <= x / 64) by zlia.
  pose proof (words_wf_lookup _ _ _ Hwf Hw) as Hu. pose proof (ubits64_pow2 _ Hm) as Hp.
  rewrite BITNUM_mod, word_bit_pow2, land_word_not by (done || lia).
  eexists. split_and!.
  - apply zset_ok; unfold zlen; lia.
  - apply Forall_insert; auto with bms.
  - apply bits_ext. intros i Hi. rewrite words_insert_testbit by (auto with bms; lia).
    rewrite !Z.ldiff_spec, !testbit_pow2, words_val_testbit by (done || lia).
    rewrite Z2Nat.id by lia. destruct (Z.eqb_spec (i / 64) (x / 64)) as [E | E].
    + rewrite E, Hw. do 2 f_equal.
      destruct (Z.eqb_spec i x) as [-> | Hne]; [by rewrite Z.eqb_refl |].
      apply Z.eqb_neq. intros E'. apply Hne. by apply index_split.
    + destruct (Z.eqb_spec i x) as [-> | Hne]; [done | by rewrite andb_true_r].
Qed.

(** [zget] then [zset] then [Ok (Some _)], as the member updates do. *)
Lemma bind_some_ok {A} (m : outcome A) (f : A -> outcome (list Z)) ws :
  mbind f m = Ok ws ->
  mbind (fun w => mbind (fun ws => Ok (Some ws)) (f w)) m = Ok (Some ws).
Proof. destruct m; [| done..]. simpl. by intros ->. Qed.

Lemma bms_make_singleton_ok x :
  0 <= x -> exists r, bms_make_singleton x = Ok r /\ bms_wf r /\ bms_val r = 2 ^ x.
Proof.
  intros Hx. unfold bms_make_singleton. rewrite (proj2 (Z.ltb_ge x 0)) by lia.
  set (z := replicate (Z.to_nat (WORDNUM x + 1)) 0).
  assert (Hz : words_wf z) by apply Forall_replicate, ubits64_0.
  assert (0 <= WORDNUM x) by (rewrite WORDNUM_div by done; zlia).
  assert (Hl : WORDNUM x < zlen z) by (unfold zlen, z; rewrite length_replicate; lia).
  destruct (words_set_bit z x Hz Hx Hl) as (ws & E & Hwf & Hv).
  destruct (zget_WORDNUM z x Hx Hl) as (w & Ew & Hw). rewrite Ew in E.
  cbn [mbind outcome_bind] in E. apply lookup_replicate in Hw as [-> _].
  rewrite Z.lor_0_l in E. rewrite E. exists (Some ws). split_and!; [done | done |].
  cbn [bms_val]. rewrite Hv. unfold z. by rewrite words_val_zeros, Z.lor_0_l.
Qed.

Lemma bms_add_member_ok a x :
  bms_wf a -> 0 <= x ->
  exists r, bms_add_member a x = Ok r /\ bms_wf r /\ bms_val r = Z.lor (bms_val a) (2 ^ x).
Proof.
  intros Ha Hx. unfold bms_add_member. rewrite (proj2 (Z.ltb_ge x 0)) by lia.
  destruct a as [ws |]; [| by apply bms_make_singleton_ok].
  set (ws' := if _ <=? _ then _ else _).
  assert (words_wf ws' /\ words_val ws' = words_val ws /\ WORDNUM x < zlen ws') as (Hw & Hv & Hl).
  { unfold ws'. destruct (Z.leb_spec (zlen ws) (WORDNUM x)); [| done].
    rewrite words_enlarge_val, words_enlarge_length. split_and!; [by apply words_enlarge_wf | done | lia]. }
  destruct (words_set_bit ws' x Hw Hx Hl) as (r & E & Hwf & Hr). exists (Some r).
  split_and!; [by apply bind_some_ok in E | done |]. cbn [bms_val]. by rewrite Hr, Hv.
Qed.

(** A member within the word array is added in place. *)
Lemma bms_add_member_in_place ws x r :
  0 <= x -> WORDNUM x < zlen ws -> bms_add_member (Some ws) x = Ok r ->
  exists ws', r = Some ws' /\ zlen ws' = zlen ws.
Proof.
  intros Hx Hl. unfold bms_add_member.
  rewrite (proj2 (Z.ltb_ge x 0)), (proj2 (Z.leb_gt (zlen ws) _)) by lia.
  destruct (zget_WORDNUM ws x Hx Hl) as (w & -> & _). cbn [mbind outcome_bind].
  assert (0 <= WORDNUM x) by (rewrite WORDNUM_div by done; zlia).
  rewrite zset_ok by lia. cbn [mbind outcome_bind]. intros [= <-]. eexists. split; [done |].
  unfold zlen. by rewrite length_insert.
Qed.

Lemma bms_resize_ok a wc :
  bms_wf a -> bms_wf (bms_resize a wc) /\ bms_val (bms_resize a wc) = bms_val a.
Proof.
  intros Ha. destruct a as [ws |]; cbn [bms_resize bms_wf bms_val].
  - destruct (wc <=? zlen ws); [done |].
    split; [by apply words_enlarge_wf | apply words_enlarge_val].
  - split; [apply Forall_replicate, ubits64_0 | apply words_val_zeros].
Qed.

Lemma bms_del_member_ok a x :
  bms_wf a -> 0 <= x ->
  exists r, bms_del_member a x = Ok r /\ bms_wf r /\ bms_val r = Z.ldiff (bms_val a) (2 ^ x).
Proof.
  intros Ha Hx. unfold bms_del_member. rewrite (proj2 (Z.ltb_ge x 0)) by lia.
  destruct a as [ws |]; [| exists None; by rewrite Z.ldiff_0_l].
  destruct (Z.ltb_spec (WORDNUM x) (zlen ws)) as [Hl | Hl].
  - destruct (words_clear_bit ws x Ha Hx Hl) as (r & E & Hwf & Hr). exists (Some r).
    split_and!; [by apply bind_some_ok in E | done |]. cbn [bms_val]. by rewrite Hr.
  - exists (Some ws). split_and!; [done | done |]. apply bits_ext. intros i Hi. cbn [bms_val].
    rewrite Z.ldiff_spec, testbit_pow2 by done. destruct (Z.eqb_spec i x) as [-> |].
    + rewrite words_val_testbit by done. rewrite WORDNUM_div in Hl by done. unfold zlen in Hl.
      by rewrite lookup_ge_None_2 by zlia.
    + by rewrite andb_true_r.
Qed.

(** ** Ranges *)

Lemma lmask_testbit b i :
  0 <= b < 64 -> 0 <= i ->
  Z.testbit (word_not (u64 (word_bit b - 1))) i = (i <? 64) && (b <=? i).
Proof.
  intros Hb Hi. rewrite word_bit_pow2 by done. pose proof (ubits64_pow2 b Hb) as [? ?].
  assert (0 < 2 ^ b) by (apply Z.pow_pos_nonneg; lia).
  rewrite u64_small by lia. replace (2 ^ b - 1) with (Z.ones b) by (rewrite Z.ones_equiv; lia).
  rewrite word_not_testbit; [| rewrite Z.ones_equiv; split; lia | done].
  rewrite Z.testbit_ones by lia. rewrite (proj2 (Z.leb_le 0 i)) by done.
  f_equal. simpl. by rewrite Z.leb_antisym.
Qed.

Lemma umask_testbit b i :
  0 <= b < 64 -> 0 <= i ->
  Z.testbit (Z.shiftr word_ones (BITS_PER_BITMAPWORD - (b + 1))) i = (i <=? b).
Proof.
  intros Hb Hi. unfold BITS_PER_BITMAPWORD. rewrite Z.shiftr_spec by lia.
  change word_ones with (Z.ones 64). rewrite Z.testbit_ones by lia. zlia.
Qed.

(** [words[k] |= mask] adds the members of the mask. *)
Lemma words_or_mask ws k mask :
  words_wf ws -> ubits 64 mask -> 0 <= k < zlen ws ->
  exists ws', (w ← zget ws k; zset ws k (Z.lor w mask)) = Ok ws' /\
    words_wf ws' /\ zlen ws' = zlen ws /\
    forall i, 0 <= i -> Z.testbit (words_val ws') i =
      Z.testbit (words_val ws) i || ((i / 64 =? k) && Z.testbit mask (i mod 64)).
Proof.
  intros Hwf Hm Hk. destruct (zget_ok ws k Hk) as [w Ew]. rewrite Ew.
  cbn [mbind outcome_bind]. apply zget_inv in Ew as [_ Hw].
  pose proof (words_wf_lookup _ _ _ Hwf Hw) as Hu. eexists. split_and!.
  - by apply zset_ok.
  - apply Forall_insert; auto with bms.
  - unfold zlen. by rewrite length_insert.
  - intros i Hi. unfold zlen in Hk. rewrite words_insert_testbit by (auto with bms; lia).
    rewrite Z2Nat.id by lia. destruct (Z.eqb_spec (i / 64) k) as [E | E].
    + rewrite words_val_testbit, E, Hw, Z.lor_spec by done. done.
    + by rewrite orb_false_r.
Qed.

Lemma words_fill_ok k ws n :
  words_wf ws -> 0 <= n -> n + Z.of_nat k <= zlen ws ->
  exists ws', words_fill k ws n = Ok ws' /\ words_wf ws' /\ zlen ws' = zlen ws /\
    forall i, 0 <= i -> Z.testbit (words_val ws') i =
      Z.testbit (words_val ws) i || ((n <=? i / 64) && (i / 64 <? n + Z.of_nat k)).
Proof.
  revert ws n. induction k as [| k IH]; intros ws n Hwf Hn Hl; cbn [words_fill].
  { exists ws. split_and!; [done.. |]. intros i Hi.
    change (Z.of_nat 0) with 0. replace ((n <=? i / 64) && (i / 64 <? n + 0)) with false by lia.
    by rewrite orb_false_r. }
  rewrite zset_ok by lia. cbn [mbind outcome_bind].
  set (ws1 := <[Z.to_nat n := word_ones]> ws).
  assert (Hwf1 : words_wf ws1) by (apply Forall_insert; auto with bms).
  assert (Hl1 : zlen ws1 = zlen ws) by (unfold zlen, ws1; by rewrite length_insert).
  destruct (IH ws1 (n + 1)) as (ws' & E & Hwf' & Hl' & Ht); [done | lia | lia |].
  exists ws'. split_and!; [done | done | lia |]. intros i Hi.
  rewrite Ht by done. unfold ws1. unfold zlen in Hl. rewrite words_insert_testbit by (auto with bms; lia).
  rewrite Z2Nat.id by lia. pose proof (Nat2Z.is_nonneg k). destruct (Z.eqb_spec (i / 64) n) as [E' | E'].
  - change word_ones with (Z.ones 64). rewrite Z.testbit_ones by lia.
    replace ((0 <=? i mod 64) && (i mod 64 <? 64)) with true by zlia.
    rewrite Nat2Z.inj_succ. replace ((n <=? i / 64) && (i / 64 <? n + Z.succ (Z.of_nat k))) with true by lia.
    by rewrite orb_true_r.
  - f_equal. lia.
Qed.

Lemma ubits64_lmask b : 0 <= b < 64 -> ubits 64 (word_not (u64 (word_bit b - 1))).
Proof. intros. apply ubits64_not, u64_bound. Qed.

Lemma ubits64_umask b :
  0 <= b < 64 -> ubits 64 (Z.shiftr word_ones (BITS_PER_BITMAPWORD - (b + 1))).
Proof.
  intros Hb. apply testbit_ubits; [lia | apply Z.shiftr_nonneg; unfold word_ones; lia |].
  intros i Hi. rewrite umask_testbit by lia. lia.
Qed.

(** The two masked words and the filled words between them. *)
Lemma words_add_range_ok ws lower upper :
  words_wf ws -> 0 <= lower <= upper -> upper / 64 < zlen ws ->
  let lmask := word_not (u64 (word_bit (lower mod 64) - 1)) in
  let umask := Z.shiftr word_ones (BITS_PER_BITMAPWORD - (upper mod 64 + 1)) in
  exists ws',
    (if lower / 64 =? upper / 64 then
       w ← zget ws (lower / 64);
       ws ← zset ws (lower / 64) (Z.lor w (Z.land lmask umask));
       Ok (Some ws)
     else
       w ← zget ws (lower / 64);
       ws ← zset ws (lower / 64) (Z.lor w lmask);
       ws ← words_fill (Z.to_nat (upper / 64 - (lower / 64 + 1))) ws (lower / 64 + 1);
       w ← zget ws (upper / 64);
       ws ← zset ws (upper / 64) (Z.lor w umask);
       Ok (Some ws)) = Ok (Some ws') /\
    words_wf ws' /\
    forall i, 0 <= i -> Z.testbit (words_val ws') i =
      Z.testbit (words_val ws) i || ((lower <=? i) && (i <=? upper)).
Proof.
  intros Hwf Hlu Hlen lmask umask.
  assert (Hml : 0 <= lower mod 64 < 64) by zlia. assert (Hmu : 0 <= upper mod 64 < 64) by zlia.
  assert (Hd : 0 <= lower / 64 <= upper / 64) by zlia.
  pose proof (ubits64_lmask _ Hml) as Hul. pose proof (ubits64_umask _ Hmu) as Huu.
  destruct (Z.eqb_spec (lower / 64) (upper / 64)) as [Ed | Ed].
  - destruct (words_or_mask ws (lower / 64) (Z.land lmask umask)) as (ws' & E & Hwf' & _ & Ht);
      [done | by apply ubits64_land | lia |].
    exists ws'. split_and!; [by apply bind_some_ok | done |]. intros i Hi. rewrite Ht by done.
    unfold lmask, umask. rewrite Z.land_spec, lmask_testbit, umask_testbit by (done || zlia).
    f_equal. zlia.
  - destruct (words_or_mask ws (lower / 64) lmask) as (ws1 & E1 & Hwf1 & Hl1 & Ht1);
      [done | done | lia |].
    destruct (words_fill_ok (Z.to_nat (upper / 64 - (lower / 64 + 1))) ws1 (lower / 64 + 1))
      as (ws2 & E2 & Hwf2 & Hl2 & Ht2); [done | lia | lia |].
    destruct (words_or_mask ws2 (upper / 64) umask) as (ws3 & E3 & Hwf3 & _ & Ht3);
      [done | done | lia |].
    exists ws3. split_and!; [| done |].
    + destruct (zget ws (lower / 64)) as [w | |]; [| done..].
      cbn [mbind outcome_bind] in E1 |- *. rewrite E1. cbn [mbind outcome_bind]. rewrite E2.
      by apply bind_some_ok in E3.
    + intros i Hi. rewrite Ht3, Ht2, Ht1 by done. unfold lmask, umask.
      rewrite lmask_testbit, umask_testbit by (done || zlia). rewrite <- !orb_assoc. f_equal. zlia.
Qed.

Lemma bms_add_range_ok a lower upper :
  bms_wf a -> 0 <= lower <= upper ->
  exists r, bms_add_range a lower upper = Ok r /\ bms_wf r /\
    forall i, 0 <= i -> Z.testbit (bms_val r) i =
      Z.testbit (bms_val a) i || ((lower <=? i) && (i <=? upper)).
Proof.
  intros Ha Hlu. unfold bms_add_range.
  rewrite (proj2 (Z.ltb_ge upper lower)), (proj2 (Z.ltb_ge lower 0)) by lia.
  set (ws := match a with Some _ => _ | None => _ end).
  assert (words_wf ws /\ words_val ws = bms_val a /\ upper / 64 < zlen ws) as (Hwf & Hv & Hl).
  { unfold ws. rewrite WORDNUM_div by lia. assert (0 <= upper / 64) by zlia.
    destruct a as [aw |].
    - destruct (Z.leb_spec (zlen aw) (upper / 64)); [| done].
      rewrite words_enlarge_val, words_enlarge_length.
      split_and!; [by apply words_enlarge_wf | done | lia].
    - rewrite words_val_zeros. split_and!; [apply Forall_replicate, ubits64_0 | done |].
      unfold zlen. rewrite length_replicate. lia. }
  destruct (words_add_range_ok ws lower upper Hwf Hlu Hl) as (r & E & Hwf' & Ht).
  exists (Some r). rewrite <- Hv. split_and!; [| done | exact Ht].
  rewrite !WORDNUM_div, !BITNUM_mod by lia. exact E.
Qed.

(** ** Cardinality and order *)

Lemma ones_cons w ws n :
  ubits 64 w -> ones (n + 64) (w + 2 ^ 64 * words_val ws) = ones 64 w + ones n (words_val ws).
Proof.
  intros Hw. rewrite ones_split. change (Z.of_nat 64) with 64. f_equal.
  - apply ones_ext. intros j Hj. change (Z.of_nat 64) with 64 in Hj.
    rewrite Z.mod_pow2_bits_low, join_testbit by (done || lia).
    by rewrite (proj2 (Z.ltb_lt j 64)) by lia.
  - f_equal. destruct Hw. rewrite Z.shiftr_div_pow2 by lia. zlia.
Qed.

(** The counting loop adds the ones of every word. *)
Lemma words_count_ok ws r :
  words_wf ws ->
  fold_left (fun r w => if negb (w =? 0) then r + pg_popcount64_slow w else r) ws r =
  r + ones (64 * length ws) (words_val ws).
Proof.
  intros H. revert r. induction H as [| w ws Hw _ IH]; intros r; cbn [fold_left words_val length].
  { replace (64 * 0)%nat with 0%nat by lia. cbn [ones]. lia. }
  replace (64 * S (length ws))%nat with (64 * length ws + 64)%nat by lia.
  rewrite IH, ones_cons by done. destruct (Z.eqb_spec w 0) as [-> |]; cbn [negb].
  - rewrite ones_zero. lia.
  - rewrite pg_popcount64_slow_ok by done. lia.
Qed.

Lemma bms_num_members_ok a :
  bms_wf a -> exists n, ubits (Z.of_nat n) (bms_val a) /\ bms_num_members a = ones n (bms_val a).
Proof.
  destruct a as [ws |]; intros H; [| exists 0%nat; unfold ubits; simpl; lia].
  exists (64 * length ws)%nat. cbn [bms_val bms_num_members]. rewrite words_count_ok by done.
  split; [| lia]. rewrite Nat2Z.inj_mul. by apply words_val_bound.
Qed.

Lemma bms_num_members_ones a n :
  bms_wf a -> ubits (Z.of_nat n) (bms_val a) -> bms_num_members a = ones n (bms_val a).
Proof.
  intros Ha Hn. destruct (bms_num_members_ok a Ha) as (m & Hm & ->).
  destruct (Nat.le_ge_cases n m); [| symmetry]; by apply ones_stable.
Qed.

Lemma ones_land_low n w b :
  0 <= b <= Z.of_nat n -> ones n (Z.land w (Z.ones b)) = ones (Z.to_nat b) w.
Proof.
  intros Hb. replace n with ((n - Z.to_nat b) + Z.to_nat b)%nat by lia. rewrite ones_split.
  rewrite (ones_ext (n - Z.to_nat b) _ 0), ones_zero, Z.add_0_r.
  - apply ones_ext. intros j Hj.
    rewrite Z.mod_pow2_bits_low, Z.land_spec, Z.testbit_ones by lia.
    replace ((0 <=? j) && (j <? b)) with true by lia. apply andb_true_r.
  - intros j Hj. rewrite Z.shiftr_spec, Z.land_spec, Z.testbit_ones, Z.testbit_0_l by lia.
    replace (j + Z.of_nat (Z.to_nat b) <? b) with false by lia. by rewrite !andb_false_r.
Qed.

(** The rank of [x]: the members of the full words below it, then those of its own word. *)
Lemma bms_member_index_ok a x :
  bms_wf a -> 0 <= x ->
  bms_member_index a x =
  Ok (if Z.testbit (bms_val a) x then ones (Z.to_nat x) (bms_val a) else -1).
Proof.
  intros Ha Hx. unfold bms_member_index. rewrite bms_is_member_ok by done.
  cbn [mbind outcome_bind]. destruct (Z.testbit (bms_val a) x) eqn:E; cbn [negb]; [| done].
  destruct a as [ws |]; cbn [bms_val bms_wf] in *; [| by rewrite Z.testbit_0_l in E].
  assert (Hl : WORDNUM x < zlen ws).
  { rewrite WORDNUM_div by done. rewrite words_val_testbit in E by done. unfold zlen.
    destruct (ws !! Z.to_nat (x / 64)) eqn:El; [| done]. apply lookup_lt_Some in El. zlia. }
  destruct (zget_WORDNUM ws x Hx Hl) as (w & -> & Hw). cbn [mbind outcome_bind].
  rewrite WORDNUM_div, BITNUM_mod in * by done. unfold zlen in Hl.
  set (k := Z.to_nat (x / 64)) in *. set (b := x mod 64).
  assert (Hb : 0 <= b < 64) by (unfold b; zlia).
  pose proof (words_wf_lookup _ _ _ Ha Hw) as Hu. pose proof (ubits64_pow2 b Hb) as Hp.
  assert (0 < 2 ^ b) by (apply Z.pow_pos_nonneg; lia).
  rewrite words_count_ok by by apply Forall_take.
  rewrite word_bit_pow2, u64_small by (unfold ubits in Hp; lia).
  replace (2 ^ b - 1) with (Z.ones b) by (rewrite Z.ones_equiv; lia).
  rewrite pg_popcount64_slow_ok by (apply ubits64_land; [done | rewrite Z.ones_equiv; unfold ubits in *; lia]).
  rewrite length_take_le by lia.
  replace (Z.to_nat x) with (Z.to_nat b + 64 * k)%nat by (unfold b, k; zlia).
  rewrite ones_split. f_equal. rewrite Z.add_0_l. f_equal.
  - apply ones_ext. intros j Hj. rewrite Z.mod_pow2_bits_low by lia.
    rewrite !words_val_testbit by (done || lia || by apply Forall_take).
    rewrite lookup_take_lt by zlia. done.
  - rewrite ones_land_low by lia.
    apply ones_ext. intros j Hj.
    rewrite Z.shiftr_spec by lia.
    rewrite words_val_testbit by (done || lia).
    replace ((j + Z.of_nat (64 * k)) / 64) with (Z.of_nat k) by zlia.
    replace ((j + Z.of_nat (64 * k)) mod 64) with j by zlia.
    by rewrite Nat2Z.id, Hw.
Qed.

(** ** Iteration *)

Lemma is_lowest_unique v r r' : is_lowest v r -> is_lowest v r' -> r = r'.
Proof.
  intros (H0 & H1 & H2) (H0' & H1' & H2').
  destruct (Z.lt_trichotomy r r') as [H | [H | H]]; [| done |].
  - rewrite H2' in H1 by lia. done.
  - rewrite H2 in H1' by lia. done.
Qed.

Lemma is_lowest_pow2 r : 0 <= r -> is_lowest (2 ^ r) r.
Proof.
  intros Hr. split_and!; [done | by rewrite testbit_pow2, Z.eqb_refl |].
  intros j Hj. rewrite testbit_pow2 by done. lia.
Qed.

Lemma is_lowest_lt64 w r : ubits 64 w -> is_lowest w r -> r < 64.
Proof.
  intros Hw (_ & H & _). destruct (Z_lt_le_dec r 64); [done |].
  by rewrite (ubits_testbit 64 w r) in H.
Qed.

Lemma is_lowest_cons_low w u r : ubits 64 w -> is_lowest w r -> is_lowest (w + 2 ^ 64 * u) r.
Proof.
  intros Hw H. pose proof (is_lowest_lt64 w r Hw H) as Hr. destruct H as (H0 & H1 & H2).
  split_and!; [done | |].
  - rewrite join_testbit by (done || lia). by rewrite (proj2 (Z.ltb_lt r 64)).
  - intros j Hj. rewrite join_testbit by (done || lia). rewrite (proj2 (Z.ltb_lt j 64)) by lia. auto.
Qed.

Lemma is_lowest_cons_high u r : is_lowest u r -> is_lowest (0 + 2 ^ 64 * u) (r + 64).
Proof.
  intros (H0 & H1 & H2). split_and!; [lia | |].
  - rewrite join_testbit by (auto with bms; lia). rewrite (proj2 (Z.ltb_ge _ 64)) by lia.
    by replace (r + 64 - 64) with r by lia.
  - intros j Hj. rewrite join_testbit by (auto with bms; lia).
    destruct (Z.ltb_spec j 64); [apply Z.testbit_0_l | apply H2; lia].
Qed.

Lemma land_word_ones w : ubits 64 w -> Z.land w word_ones = w.
Proof.
  intros [? ?]. change word_ones with (Z.ones 64). by rewrite Z.land_ones, Z.mod_small by lia.
Qed.

(** Without a mask the scan finds the least member of the remaining words. *)
Lemma words_next_member_ones ws n :
  words_wf ws ->
  (words_val ws = 0 /\ words_next_member ws n word_ones = -2) \/
  is_lowest (words_val ws) (words_next_member ws n word_ones - 64 * n).
Proof.
  intros H. revert n. induction H as [| w ws Hw _ IH]; intros n; [by left |].
  cbn [words_next_member words_val]. rewrite land_word_ones by done.
  destruct (Z.eqb_spec w 0) as [-> | Hnz]; cbn [negb].
  - destruct (IH (n + 1)) as [[E ->] | Hl]; [left; lia | right].
    apply is_lowest_cons_high in Hl. eapply eq_ind; [exact Hl |]. lia.
  - right. unfold BITS_PER_BITMAPWORD.
    replace (n * 64 + pg_rightmost_one_pos64 w - 64 * n) with (pg_rightmost_one_pos64 w) by lia.
    apply is_lowest_cons_low; [done |]. apply pg_rightmost_one_pos64_ok.
    destruct Hw. lia.
Qed.

(** The mask of the first word only removes members of that word. *)
Lemma words_next_member_mask w ws n mask :
  ubits 64 w -> 0 <= mask ->
  words_next_member (w :: ws) n mask = words_next_member (Z.land w mask :: ws) n word_ones.
Proof.
  intros Hw Hm. cbn [words_next_member].
  by rewrite (land_word_ones (Z.land w mask)) by (apply ubits_land_l; [lia | done..]).
Qed.

(** [r] is the least member greater than [p]. *)
Definition next_after (v p r : Z) : Prop :=
  p < r /\ Z.testbit v r = true /\ forall i, p < i < r -> Z.testbit v i = false.

Lemma words_val_drop_testbit ws k j :
  words_wf ws -> 0 <= j ->
  Z.testbit (words_val (drop k ws)) j = Z.testbit (words_val ws) (j + 64 * Z.of_nat k).
Proof.
  intros H Hj. rewrite !words_val_testbit by (by apply Forall_drop || done || lia).
  rewrite lookup_drop. replace (Z.to_nat ((j + 64 * Z.of_nat k) / 64)) with (k + Z.to_nat (j / 64))%nat by zlia.
  by replace ((j + 64 * Z.of_nat k) mod 64) with (j mod 64) by zlia.
Qed.

Lemma next_mask_testbit b i :
  0 <= b < 64 -> 0 <= i -> Z.testbit (u64 (Z.shiftl word_ones b)) i = (b <=? i) && (i <? 64).
Proof.
  intros Hb Hi. unfold u64. rewrite mod_pow2_testbit, Z.shiftl_spec by lia.
  change word_ones with (Z.ones 64). rewrite Z.testbit_ones by lia. lia.
Qed.

(** The bits seen from word [q / 64] on, after masking the bits below [q mod 64]. *)
Lemma masked_drop_testbit ws q w rest j :
  words_wf ws -> 0 <= q -> drop (Z.to_nat (q / 64)) ws = w :: rest -> 0 <= j ->
  Z.testbit (words_val (Z.land w (u64 (Z.shiftl word_ones (q mod 64))) :: rest)) j =
  (q mod 64 <=? j) && Z.testbit (words_val ws) (j + 64 * (q / 64)).
Proof.
  intros Ha Hq Hd Hj. pose proof (words_val_drop_testbit ws (Z.to_nat (q / 64)) j Ha Hj) as Ht.
  pose proof (Forall_drop _ (Z.to_nat (q / 64)) _ Ha) as Hwf. rewrite Hd in Ht, Hwf.
  inversion_clear Hwf as [| ? ? Hw Hrest]. cbn [words_val] in *.
  rewrite Z2Nat.id in Ht by zlia. rewrite <- Ht.
  pose proof (u64_bound (Z.shiftl word_ones (q mod 64))).
  rewrite !join_testbit by (done || lia || (apply ubits_land_l; [lia | done | lia])).
  destruct (Z.ltb_spec j 64).
  - rewrite Z.land_spec, next_mask_testbit by zlia.
    rewrite (proj2 (Z.ltb_lt j 64)), andb_true_r by lia. apply andb_comm.
  - replace (q mod 64 <=? j) with true by zlia. done.
Qed.

Lemma bms_next_member_ok a p :
  bms_wf a -> -1 <= p ->
  (bms_next_member a p = -2 /\ forall i, p < i -> Z.testbit (bms_val a) i = false) \/
  next_after (bms_val a) p (bms_next_member a p).
Proof.
  intros Ha Hp. destruct a as [ws |]; cbn [bms_val bms_wf] in *.
  2: { left. split; [done |]. intros. apply Z.testbit_0_l. }
  unfold bms_next_member. rewrite WORDNUM_div, BITNUM_mod by lia.
  assert (Hq : exists q, q = p + 1) by eauto. destruct Hq as [q Hq]. rewrite <- Hq.
  pose proof (fun w rest j => masked_drop_testbit ws q w rest j Ha ltac:(lia)) as Hm.
  pose proof (fun j => words_val_drop_testbit ws (Z.to_nat (q / 64)) j Ha) as Ht.
  pose proof (Forall_drop _ (Z.to_nat (q / 64)) _ Ha) as Hd.
  rewrite Z2Nat.id in Ht by zlia. destruct (drop (Z.to_nat (q / 64)) ws) as [| w rest].
  { left. split; [done |]. intros i Hi. specialize (Ht (i - 64 * (q / 64)) ltac:(zlia)).
    rewrite Z.testbit_0_l in Ht. rewrite Ht. f_equal. lia. }
  inversion_clear Hd as [| ? ? Hw Hrest]. specialize (Hm w rest).
  pose proof (u64_bound (Z.shiftl word_ones (q mod 64))) as Hu.
  set (mask := u64 _) in *. rewrite words_next_member_mask by (done || lia).
  destruct (words_next_member_ones (Z.land w mask :: rest) (q / 64)) as [[Ez Er] | (H0 & H1 & H2)].
  - constructor; [| done]. apply ubits_land_l; [lia | done | lia].
  - left. split; [done |]. intros i Hi. specialize (Hm (i - 64 * (q / 64)) eq_refl ltac:(zlia)).
    rewrite Ez, Z.testbit_0_l in Hm.
    replace (q mod 64 <=? i - 64 * (q / 64)) with true in Hm by zlia.
    rewrite Hm. simpl. f_equal. lia.
  - right. set (r := words_next_member _ _ _) in *. rewrite Hm in H1 by (done || lia).
    apply andb_true_iff in H1 as [Hlo H1]. replace (r - 64 * (q / 64) + 64 * (q / 64)) with r in H1 by lia.
    split_and!; [zlia | done |]. intros i Hi. specialize (H2 (i - 64 * (q / 64)) ltac:(zlia)).
    rewrite Hm in H2 by (done || zlia).
    replace (q mod 64 <=? i - 64 * (q / 64)) with true in H2 by zlia.
    by replace (i - 64 * (q / 64) + 64 * (q / 64)) with i in H2 by lia.
Qed.

Lemma log2_join k a w :
  0 <= k -> ubits k a -> 0 < w -> Z.log2 (a + 2 ^ k * w) = k + Z.log2 w.
Proof.
  intros Hk [Ha0 Ha1] Hw. pose proof (Z.log2_spec w Hw) as [H1 H2]. pose proof (Z.log2_nonneg w).
  assert (0 < 2 ^ k) by (apply Z.pow_pos_nonneg; lia).
  apply Z.log2_unique; [lia |]. rewrite Z.pow_succ_r in H2 |- * by lia.
  rewrite Z.pow_add_r by lia. nia.
Qed.

(** The result of a downward scan of a value: its most significant one. *)
Definition scan_down (v : Z) (o : outcome Z) : Prop :=
  (v = 0 /\ o = Ok (-2)) \/ (0 < v /\ o = Ok (Z.log2 v)).

Lemma words_prev_member_step n ws w mask :
  words_wf ws -> ws !! n = Some w -> 0 <= mask ->
  scan_down (words_val (take n ws)) (words_prev_member n ws word_ones) ->
  scan_down (words_val (take n ws) + 2 ^ (64 * Z.of_nat n) * Z.land w mask)
            (words_prev_member (S n) ws mask).
Proof.
  intros Hwf Hw Hm IH. cbn [words_prev_member]. rewrite (zget_nat _ _ _ Hw).
  cbn [mbind outcome_bind]. pose proof (words_wf_lookup _ _ _ Hwf Hw) as Hu.
  pose proof (ubits_land_l 64 w mask ltac:(lia) Hu Hm) as [H0 H1].
  pose proof (words_val_bound (take n ws) (Forall_take _ _ _ Hwf)) as Hb.
  assert (Hl : zlen (take n ws) = Z.of_nat n)
    by (apply lookup_lt_Some in Hw; unfold zlen; rewrite length_take; lia).
  rewrite Hl in Hb. destruct (Z.eqb_spec (Z.land w mask) 0) as [-> | Hnz]; cbn [negb].
  - rewrite Z.mul_0_r, Z.add_0_r. exact IH.
  - right. rewrite pg_leftmost_one_pos64_ok, log2_join by (done || lia).
    assert (0 < 2 ^ (64 * Z.of_nat n)) by (apply Z.pow_pos_nonneg; lia).
    unfold BITS_PER_BITMAPWORD. destruct Hb. split; [nia | f_equal; lia].
Qed.

Lemma words_prev_member_ones n ws :
  words_wf ws -> (n <= length ws)%nat ->
  scan_down (words_val (take n ws)) (words_prev_member n ws word_ones).
Proof.
  intros Hwf. induction n as [| n IH]; intros Hn; [by left |].
  destruct (take_S_zget ws n Hn) as (w & _ & Hw & ->). rewrite words_val_app.
  assert (zlen (take n ws) = Z.of_nat n) as -> by (unfold zlen; rewrite length_take; lia).
  cbn [words_val]. rewrite Z.mul_0_r, Z.add_0_r.
  rewrite <- (land_word_ones w) by by eapply words_wf_lookup.
  apply words_prev_member_step; [done | done | unfold word_ones; lia |]. apply IH. lia.
Qed.

(** The bits seen below and at position [q]. *)
Lemma masked_take_testbit ws q w i :
  words_wf ws -> 0 <= q -> ws !! Z.to_nat (q / 64) = Some w -> 0 <= i ->
  Z.testbit (words_val (take (Z.to_nat (q / 64)) ws) + 2 ^ (64 * (q / 64)) *
             Z.land w (Z.shiftr word_ones (BITS_PER_BITMAPWORD - (q mod 64 + 1)))) i =
  (i <=? q) && Z.testbit (words_val ws) i.
Proof.
  intros Hwf Hq Hw Hi. set (k := q / 64). assert (Hk : 0 <= k) by zlia.
  pose proof (words_val_bound (take (Z.to_nat k) ws) (Forall_take _ _ _ Hwf)) as Hb.
  assert (Hl : zlen (take (Z.to_nat k) ws) = k)
    by (apply lookup_lt_Some in Hw; unfold zlen; rewrite length_take; lia).
  rewrite Hl in Hb. rewrite join_testbit by (done || lia).
  rewrite (words_val_testbit ws) by done. destruct (Z.ltb_spec i (64 * k)) as [Hlt | Hge].
  - rewrite words_val_testbit by (done || by apply Forall_take).
    rewrite lookup_take_lt by zlia. replace (i <=? q) with true by zlia. done.
  - rewrite Z.land_spec, umask_testbit by (unfold k; zlia).
    destruct (Z_lt_le_dec i (64 * k + 64)) as [H | H].
    + replace (i / 64) with k by zlia. unfold k in *. rewrite Hw.
      replace (i mod 64) with (i - 64 * (q / 64)) by zlia. rewrite andb_comm. f_equal. zlia.
    + pose proof (words_wf_lookup _ _ _ Hwf Hw). rewrite (ubits_testbit 64 w) by (done || lia).
      replace (i <=? q) with false by (unfold k in *; zlia). done.
Qed.

(** [r] is the greatest member below [p]. *)
Definition prev_before (v p r : Z) : Prop :=
  0 <= r < p /\ Z.testbit v r = true /\ forall i, r < i < p -> Z.testbit v i = false.

(** The scan below [q + 1], a position of the words of the set. *)
Lemma words_prev_member_ok ws q :
  words_wf ws -> 0 <= q -> q / 64 < zlen ws ->
  exists r, words_prev_member (Z.to_nat (q / 64 + 1)) ws
              (Z.shiftr word_ones (BITS_PER_BITMAPWORD - (q mod 64 + 1))) = Ok r /\
    ((r = -2 /\ forall i, 0 <= i <= q -> Z.testbit (words_val ws) i = false) \/
     prev_before (words_val ws) (q + 1) r).
Proof.
  intros Hwf Hq Hl. unfold zlen in Hl.
  destruct (lookup_lt_is_Some_2 ws (Z.to_nat (q / 64))) as [w Hw]; [zlia |].
  pose proof (fun i => masked_take_testbit ws q w i Hwf Hq Hw) as Ht.
  pose proof (ubits64_umask (q mod 64) ltac:(zlia)) as [Hm _].
  pose proof (words_prev_member_step _ ws w _ Hwf Hw Hm
                (words_prev_member_ones (Z.to_nat (q / 64)) ws Hwf ltac:(zlia))) as Hs.
  replace (Z.to_nat (q / 64 + 1)) with (S (Z.to_nat (q / 64))) by zlia.
  rewrite Z2Nat.id in Hs by zlia. set (v := _ + _) in *.
  destruct Hs as [[Ev ->] | [Hv ->]]; eexists; (split; [reflexivity |]).
  - left. split; [done |]. intros i Hi. specialize (Ht i ltac:(lia)).
    rewrite Ev, Z.testbit_0_l in Ht. replace (i <=? q) with true in Ht by lia. done.
  - right. pose proof (Z.bit_log2 v Hv) as Hb. pose proof (Z.log2_nonneg v).
    rewrite Ht in Hb by done. apply andb_true_iff in Hb as [Hle Hb].
    split_and!; [lia | lia | done |]. intros i Hi. specialize (Ht i ltac:(lia)).
    rewrite Z.bits_above_log2 in Ht by lia. replace (i <=? q) with true in Ht by lia. done.
Qed.

(** [-1] asks for the greatest member of all. *)
Lemma bms_prev_member_ok a p :
  bms_wf a -> a <> Some [] ->
  (p = -1 \/ 0 <= p /\ forall ws, a = Some ws -> p <= 64 * zlen ws) ->
  exists r, bms_prev_member a p = Ok r /\
    ((r = -2 /\ forall i, 0 <= i -> (p = -1 \/ i < p) -> Z.testbit (bms_val a) i = false) \/
     0 <= r /\ (p = -1 \/ r < p) /\ Z.testbit (bms_val a) r = true /\
     forall i, r < i -> (p = -1 \/ i < p) -> Z.testbit (bms_val a) i = false).
Proof.
  intros Ha Hne Hp. destruct a as [ws |]; cbn [bms_val bms_wf bms_prev_member] in *.
  2: { exists (-2). split; [done |]. left. split; [done |]. intros. apply Z.testbit_0_l. }
  destruct (Z.eqb_spec p 0) as [-> | Hp0].
  { exists (-2). split; [done |]. left. split; [done |]. lia. }
  assert (0 < zlen ws) by (unfold zlen; destruct ws; [done | simpl; lia]).
  set (q := if p =? -1 then _ else _).
  assert (Hq : 0 <= q < 64 * zlen ws /\
               forall i, 0 <= i < 64 * zlen ws -> (p = -1 \/ i < p) <-> i <= q).
  { unfold q, BITS_PER_BITMAPWORD. destruct (Z.eqb_spec p (-1)) as [-> | Hp1];
      [split; [lia | intros; lia] |].
    destruct Hp as [-> | [Hp Hp']]; [done |]. specialize (Hp' ws eq_refl).
    split; [lia | intros; lia]. }
  destruct Hq as [Hq Hiff]. rewrite WORDNUM_div, BITNUM_mod by lia.
  destruct (words_prev_member_ok ws q Ha) as (r & E & Hr); [lia | zlia |].
  pose proof (words_val_bound ws Ha) as Hb.
  assert (Hhi : forall i, 64 * zlen ws <= i -> Z.testbit (words_val ws) i = false)
    by (intros; by eapply ubits_testbit).
  exists r. split; [done |]. destruct Hr as [[-> Hr] | (Hr0 & Hr1 & Hr2)]; [left | right].
  - split; [done |]. intros i Hi Hip. destruct (Z_lt_le_dec i (64 * zlen ws)); [| by apply Hhi].
    apply Hr. split; [done |]. by apply Hiff.
  - split_and!; [lia | apply Hiff; lia | done |]. intros i Hi Hip.
    destruct (Z_lt_le_dec i (64 * zlen ws)); [| by apply Hhi].
    apply Hr2. apply Hiff in Hip; lia.
Qed.

(** ** Singletons *)

(** [x & -x] isolates the least significant one. *)
Lemma RIGHTMOST_ONE_ok w r : ubits 64 w -> is_lowest w r -> RIGHTMOST_ONE w = 2 ^ r.
Proof.
  intros Hw Hl. pose proof (is_lowest_lt64 w r Hw Hl) as Hr64. destruct Hl as (Hr & H1 & H2).
  assert (Hland : Z.land w (- w) = 2 ^ r).
  { set (k := w / 2 ^ (r + 1)).
    assert (Hp : 0 < 2 ^ r) by (apply Z.pow_pos_nonneg; lia).
    assert (Hp1 : 2 ^ (r + 1) = 2 * 2 ^ r) by (rewrite Z.pow_add_r by lia; lia).
    assert (Hwk : w = 2 ^ r + 2 ^ (r + 1) * k).
    { rewrite (Z.div_mod w (2 ^ (r + 1))) at 1 by lia. fold k.
      enough (w mod 2 ^ (r + 1) = 2 ^ r) by lia. apply bits_ext. intros i Hi.
      rewrite mod_pow2_testbit, testbit_pow2 by lia.
      destruct (Z.ltb_spec i (r + 1)); simpl; [| lia].
      destruct (Z.eqb_spec i r) as [-> |]; [done |]. apply H2. lia. }
    assert (Hneg : - w = Z.lnot (Z.ones r + 2 ^ (r + 1) * k)).
    { unfold Z.lnot. rewrite Z.ones_equiv. lia. }
    assert (ubits (r + 1) (2 ^ r)) by (unfold ubits; lia).
    assert (ubits (r + 1) (Z.ones r)) by (rewrite Z.ones_equiv; unfold ubits; lia).
    rewrite Hneg, Hwk at 1. apply bits_ext. intros i Hi.
    rewrite Z.land_spec, Z.lnot_spec, !join_testbit, Z.testbit_ones, testbit_pow2 by (done || lia).
    destruct (Z.ltb_spec i (r + 1)); [lia |].
    replace (i =? r) with false by lia. apply andb_negb_r. }
  unfold RIGHTMOST_ONE. rewrite Hland. apply u64_small. destruct (ubits64_pow2 r); lia.
Qed.

Lemma word_lowest w : ubits 64 w -> w <> 0 -> is_lowest w (pg_rightmost_one_pos64 w).
Proof. intros [? ?] ?. apply pg_rightmost_one_pos64_ok. lia. Qed.

Lemma HAS_MULTIPLE_ONES_ok w :
  ubits 64 w -> w <> 0 -> HAS_MULTIPLE_ONES w = negb (w =? 2 ^ pg_rightmost_one_pos64 w).
Proof.
  intros Hw Hnz. unfold HAS_MULTIPLE_ONES.
  rewrite (RIGHTMOST_ONE_ok w _ Hw (word_lowest w Hw Hnz)). by rewrite Z.eqb_sym.
Qed.

(** Exactly one member: the value is a power of two. *)
Definition is_pow2 (v : Z) : bool := v =? 2 ^ Z.log2 v.

Lemma is_pow2_join w u :
  ubits 64 w -> 0 < u -> is_pow2 (w + 2 ^ 64 * u) = (w =? 0) && is_pow2 u.
Proof.
  intros Hw Hu. unfold is_pow2. rewrite log2_join by (done || lia). pose proof (Z.log2_nonneg u).
  rewrite Z.pow_add_r by lia. replace (2 ^ 64 * 2 ^ Z.log2 u) with (0 + 2 ^ 64 * 2 ^ Z.log2 u) by lia.
  apply join64_eqb; auto with bms.
Qed.

Lemma rightmost_pow2 w :
  ubits 64 w -> w <> 0 ->
  (w =? 2 ^ pg_rightmost_one_pos64 w) = is_pow2 w /\
  (is_pow2 w = true -> pg_rightmost_one_pos64 w = Z.log2 w).
Proof.
  intros Hw Hnz. pose proof (word_lowest w Hw Hnz) as Hl. unfold is_pow2.
  assert (Hlog : w = 2 ^ Z.log2 w -> pg_rightmost_one_pos64 w = Z.log2 w).
  { intros E. rewrite E in Hl at 1. eapply is_lowest_unique; [exact Hl |].
    apply is_lowest_pow2, Z.log2_nonneg. }
  split; [| by intros ?%Z.eqb_eq; apply Hlog].
  destruct (Z.eqb_spec w (2 ^ pg_rightmost_one_pos64 w)) as [E | E].
  - destruct Hl as [Hl _]. symmetry. apply Z.eqb_eq. rewrite E at 2. by rewrite Z.log2_pow2.
  - symmetry. apply Z.eqb_neq. intros E'. apply E. by rewrite (Hlog E').
Qed.

Lemma words_singleton_ok ws n res :
  words_wf ws -> 0 <= n ->
  words_singleton ws n res =
  if words_val ws =? 0 then Some res
  else if (0 <=? res) || negb (is_pow2 (words_val ws)) then None
  else Some (64 * n + Z.log2 (words_val ws)).
Proof.
  intros H. revert n res. induction H as [| w ws Hw Hws IH]; intros n res Hn; [done |].
  cbn [words_singleton words_val]. rewrite join64_eqb0 by done.
  pose proof (words_val_nonneg ws Hws) as Hu.
  destruct (Z.eqb_spec w 0) as [-> | Hnz]; cbn [negb andb].
  - rewrite IH by lia. destruct (Z.eqb_spec (words_val ws) 0) as [E | E]; [done |].
    rewrite is_pow2_join, log2_join by (auto with bms; lia). cbn [Z.eqb andb].
    destruct ((0 <=? res) || _); [done |]. f_equal. lia.
  - destruct (rightmost_pow2 w Hw Hnz) as [Hp Hlog].
    rewrite HAS_MULTIPLE_ONES_ok, Hp by done. pose proof (word_lowest w Hw Hnz) as [Hpos _].
    destruct (Z.eqb_spec (words_val ws) 0) as [E | E].
    + rewrite E, Z.mul_0_r, Z.add_0_r. destruct (0 <=? res); [done |]. cbn [orb].
      destruct (is_pow2 w); cbn [negb]; [| done]. rewrite IH by lia.
      rewrite <- Hlog by done. f_equal. unfold BITS_PER_BITMAPWORD. lia.
    + rewrite is_pow2_join by (auto with bms; lia). rewrite (proj2 (Z.eqb_neq w 0) Hnz). cbn [andb negb].
      rewrite orb_true_r. destruct ((0 <=? res) || negb (is_pow2 w)); [done |].
      rewrite IH by lia.
      by rewrite (proj2 (Z.leb_le 0 _)) by (unfold BITS_PER_BITMAPWORD; lia).
Qed.

Lemma words_membership_ok ws :
  words_wf ws ->
  words_membership ws BMS_SINGLETON = (if words_val ws =? 0 then BMS_SINGLETON else BMS_MULTIPLE) /\
  words_membership ws BMS_EMPTY_SET =
    if words_val ws =? 0 then BMS_EMPTY_SET
    else if is_pow2 (words_val ws) then BMS_SINGLETON else BMS_MULTIPLE.
Proof.
  intros H. induction H as [| w ws Hw Hws [IH1 IH2]]; [done |].
  cbn [words_membership words_val]. rewrite join64_eqb0 by done.
  pose proof (words_val_nonneg ws Hws) as Hu.
  destruct (Z.eqb_spec w 0) as [-> | Hnz]; cbn [negb andb].
  - rewrite IH1, IH2. split; [done |]. destruct (Z.eqb_spec (words_val ws) 0) as [E | E]; [done |].
    by rewrite is_pow2_join by (auto with bms; lia).
  - split; [done |]. destruct (rightmost_pow2 w Hw Hnz) as [Hp _].
    rewrite HAS_MULTIPLE_ONES_ok, Hp, IH1 by done.
    destruct (Z.eqb_spec (words_val ws) 0) as [E | E].
    + rewrite E, Z.mul_0_r, Z.add_0_r. by destruct (is_pow2 w).
    + rewrite is_pow2_join by (auto with bms; lia). rewrite (proj2 (Z.eqb_neq w 0) Hnz).
      by destruct (is_pow2 w).
Qed.

(** Removing the least member. *)
Lemma words_first_member_ok ws n x ws' :
  words_wf ws -> words_first_member ws n = (x, ws') ->
  (words_val ws = 0 /\ x = -1 /\ ws' = ws) \/
  (is_lowest (words_val ws) (x - 64 * n) /\ words_wf ws' /\
   words_val ws' = Z.ldiff (words_val ws) (2 ^ (x - 64 * n))).
Proof.
  intros H. revert n x ws'. induction H as [| w ws Hw Hws IH]; intros n x ws' E.
  { injection E as <- <-. by left. }
  cbn [words_first_member words_val] in *. destruct (Z.eqb_spec w 0) as [-> | Hnz]; cbn [negb] in E.
  - destruct (words_first_member ws (n + 1)) as [y ws1] eqn:E1. injection E as <- <-.
    destruct (IH _ _ _ E1) as [(Hv & -> & ->) | (Hl & Hwf & Hv)]; [left; by rewrite Hv |].
    right. replace (y - 64 * n) with (y - 64 * (n + 1) + 64) by lia. cbn [words_val].
    split_and!; [by apply is_lowest_cons_high | constructor; auto with bms |]. destruct Hl as [Hl _].
    rewrite Hv, (Z.add_comm _ 64), Z.pow_add_r by lia.
    rewrite <- (Z.add_0_l (2 ^ 64 * 2 ^ _)), join_ldiff by (auto with bms; lia). done.
  - injection E as <- <-. pose proof (word_lowest w Hw Hnz) as Hl.
    pose proof (is_lowest_lt64 w _ Hw Hl) as H64. pose proof (proj1 Hl) as H0.
    rewrite (RIGHTMOST_ONE_ok w _ Hw Hl). set (r := pg_rightmost_one_pos64 w) in *.
    destruct (ubits64_pow2 r) as [Hp0 Hp1]; [lia |].
    assert (Hrr : pg_rightmost_one_pos64 (2 ^ r) = r).
    { eapply is_lowest_unique; [apply word_lowest; [done | lia] | by apply is_lowest_pow2]. }
    rewrite Hrr. unfold BITS_PER_BITMAPWORD. replace (n * 64 + r - 64 * n) with r by lia. right.
    rewrite land_word_not by done. cbn [words_val].
    split_and!; [by apply is_lowest_cons_low | constructor; auto with bms |].
    { by apply ubits64_ldiff. }
    replace (2 ^ r) with (2 ^ r + 2 ^ 64 * 0) at 2 by lia.
    by rewrite join_ldiff, Z.ldiff_0_r by (done || lia).
Qed.

(** ** Hashing *)

(** No zero word at the end. *)
Definition stripped (ws : list Z) : Prop := forall x, last ws = Some x -> x <> 0.

Lemma strip_zeros_ok n ws :
  (n <= length ws)%nat ->
  stripped (strip_zeros n ws) /\ exists k, take n ws = strip_zeros n ws ++ replicate k 0.
Proof.
  induction n as [| n IH]; intros Hn; cbn [strip_zeros].
  { split; [done |]. by exists 0%nat. }
  destruct (take_S_zget ws n Hn) as (w & _ & Hw & Ht).
  rewrite (nth_lookup_Some _ _ 0 _ Hw). destruct (Z.eqb_spec w 0) as [-> | Hnz].
  - destruct IH as [Hs [k Hk]]; [lia |]. split; [done |]. exists (S k).
    by rewrite Ht, Hk, replicate_S_end, app_assoc.
  - rewrite Ht. split; [| exists 0%nat; by rewrite app_nil_r].
    intros x Hx. rewrite last_snoc in Hx. congruence.
Qed.

Lemma stripped_cons w ws : stripped (w :: ws) -> stripped ws.
Proof. intros H x Hx. apply H. by rewrite last_cons, Hx. Qed.

Lemma stripped_zero ws : words_wf ws -> stripped ws -> words_val ws = 0 -> ws = [].
Proof.
  intros Hwf. induction Hwf as [| w ws Hw Hws IH]; intros Hs Hv; [done |]. cbn [words_val] in Hv.
  pose proof (words_val_nonneg ws Hws). destruct Hw.
  rewrite IH in Hs; [| by eapply stripped_cons | lia].
  exfalso. apply (Hs w); [done | lia].
Qed.

Lemma stripped_inj ws ws' :
  words_wf ws -> words_wf ws' -> stripped ws -> stripped ws' ->
  words_val ws = words_val ws' -> ws = ws'.
Proof.
  intros H. revert ws'. induction H as [| w ws Hw Hws IH]; intros ws' Hwf' Hs Hs' Hv.
  - symmetry. by apply stripped_zero.
  - destruct Hwf' as [| w' ws' Hw' Hws']; [by apply stripped_zero; auto with bms |].
    cbn [words_val] in Hv. apply join_inj in Hv as [-> Hv]; [| done..].
    f_equal. apply IH; eauto using stripped_cons.
Qed.

Lemma strip_zeros_val ws :
  words_wf ws ->
  let s := strip_zeros (length ws) ws in stripped s /\ words_wf s /\ words_val s = words_val ws.
Proof.
  intros Hwf s. destruct (strip_zeros_ok (length ws) ws (le_n _)) as [Hs [k Hk]].
  rewrite take_ge in Hk by lia. fold s in Hs, Hk. split_and!; [done | |].
  - rewrite Hk in Hwf. by apply Forall_app in Hwf as [? _].
  - rewrite Hk, words_val_app, words_val_zeros. lia.
Qed.

(** The hash through the canonical words of the set. *)
Lemma bms_hash_value_val h a b :
  bms_wf a -> bms_wf b -> bms_val a = bms_val b -> bms_hash_value h a = bms_hash_value h b.
Proof.
  intros Ha Hb Hv.
  assert (Hcan : forall c, bms_wf c -> exists s, stripped s /\ words_wf s /\ words_val s = bms_val c /\
            bms_hash_value h c = match s with [] => 0 | s => h (flat_map (le_split 8) s) end).
  { intros [ws |] Hc; [| exists []; split_and!; (done || constructor)].
    destruct (strip_zeros_val ws Hc) as (H1 & H2 & H3).
    exists (strip_zeros (length ws) ws). split_and!; [done.. |]. unfold bms_hash_value.
    by destruct (strip_zeros (length ws) ws). }
  destruct (Hcan a Ha) as (s & H1 & H2 & H3 & ->). destruct (Hcan b Hb) as (s' & H1' & H2' & H3' & ->).
  by rewrite (stripped_inj s s') by (done || congruence).
Qed.

Lemma bms_equal_ok a b : bms_wf a -> bms_wf b -> bms_equal a b = (bms_val a =? bms_val b).
Proof.
  intros Ha Hb. destruct a as [aw |], b as [bw |]; cbn [bms_equal].
  - cbn [bms_val bms_wf] in *. unfold zlen.
    destruct (Z.leb_spec (Z.of_nat (length aw)) (Z.of_nat (length bw))).
    + apply words_equal_ok; (done || lia).
    + rewrite words_equal_ok by (done || lia). apply Z.eqb_sym.
  - by rewrite bms_is_empty_ok.
  - rewrite bms_is_empty_ok by done. apply Z.eqb_sym.
  - done.
Qed.

(** ** Properties *)

(** C35: The set-building and recycling operations refine integer bit operations:
    on well-formed sets union, join and add_members are the bitwise or,
    intersection and int_members the bitwise and, difference and del_members the
    bitwise and-not of the sets read as integers, and they return well-formed
    sets. *)
Theorem bms_algebra (a b : Bitmapset) :
  bms_wf a -> bms_wf b ->
  Forall (fun '(r, v) => bms_wf r /\ bms_val r = v)
    [(bms_union a b, Z.lor (bms_val a) (bms_val b));
     (bms_join a b, Z.lor (bms_val a) (bms_val b));
     (bms_add_members a b, Z.lor (bms_val a) (bms_val b));
     (bms_intersect a b, Z.land (bms_val a) (bms_val b));
     (bms_int_members a b, Z.land (bms_val a) (bms_val b));
     (bms_difference a b, Z.ldiff (bms_val a) (bms_val b));
     (bms_del_members a b, Z.ldiff (bms_val a) (bms_val b))].
Proof.
  intros Ha Hb. destruct a as [aw |], b as [bw |]; cbn [bms_wf bms_val] in *.
  2-4: rewrite ?Z.lor_0_r, ?Z.land_0_r, ?Z.ldiff_0_r, ?Z.ldiff_0_l; repeat constructor; done.
  assert (Hor : forall c, (c = true -> (length aw <= length bw)%nat) ->
                     (c = false -> (length bw <= length aw)%nat) ->
      bms_wf (if c then Some (words_or bw aw) else Some (words_or aw bw)) /\
      bms_val (if c then Some (words_or bw aw) else Some (words_or aw bw)) =
      Z.lor (words_val aw) (words_val bw)).
  { intros [] H1 H2; [rewrite Z.lor_comm |]; apply words_or_ok; auto. }
  repeat apply Forall_cons_2; [| | | | | | | constructor];
    cbn [bms_union bms_join bms_add_members bms_intersect bms_int_members bms_difference
         bms_del_members]; unfold zlen.
  1-3: apply Hor; lia.
  2: by apply words_and_zero_ok.
  2-3: by apply words_andnot_ok.
  case_match; [| rewrite Z.land_comm]; by apply words_and_ok.
Qed.

Ltac wf_words := repeat constructor; unfold ubits; lia.

Lemma bms_algebra_witness :
  bms_val (bms_union (Some [5]) (Some [2; 1])) = Z.lor 5 (2 + 2 ^ 64).
Proof.
  assert (H : bms_wf (Some [5])) by wf_words. assert (H' : bms_wf (Some [2; 1])) by wf_words.
  pose proof (bms_algebra _ _ H H') as E. apply Forall_inv in E as [_ E]. exact E.
Defined.

(** The relations between sets decide the relations of their values: empty,
    equal, three-way comparison, inclusion, overlap, nonempty difference and the
    four-way subset comparison, whatever the numbers of trailing zero words. *)
Theorem bms_relations (a b : Bitmapset) :
  bms_wf a -> bms_wf b ->
  bms_is_empty a = (bms_val a =? 0) /\
  bms_equal a b = (bms_val a =? bms_val b) /\
  bms_compare a b = Ok (sign_of (bms_val a ?= bms_val b)) /\
  bms_is_subset a b = (Z.ldiff (bms_val a) (bms_val b) =? 0) /\
  bms_overlap a b = negb (Z.land (bms_val a) (bms_val b) =? 0) /\
  bms_nonempty_difference a b = negb (Z.ldiff (bms_val a) (bms_val b) =? 0) /\
  bms_subset_compare a b =
    cmp_of (negb (Z.ldiff (bms_val a) (bms_val b) =? 0))
           (negb (Z.ldiff (bms_val b) (bms_val a) =? 0)).
Proof.
  intros Ha Hb.
  split_and!; [by apply bms_is_empty_ok | by apply bms_equal_ok | by apply bms_compare_ok | ..];
    destruct a as [aw |], b as [bw |]; cbn [bms_is_subset bms_overlap bms_nonempty_difference
      bms_subset_compare bms_val bms_is_empty] in *; rewrite ?words_all_zero by done;
    rewrite ?Z.ldiff_0_r, ?Z.ldiff_0_l, ?Z.land_0_r; try done.
  - by apply words_subset_ok.
  - by apply words_overlap_ok.
  - by apply words_nonempty_difference_ok.
  - pose proof (words_subset_compare_ok aw bw false false Ha Hb eq_refl) as E.
    cbn [orb] in E. by rewrite <- E.
  - by destruct (words_val aw =? 0).
  - by destruct (words_val bw =? 0).
Qed.

Lemma bms_relations_witness :
  bms_subset_compare (Some [5]) (Some [7; 1]) = BMS_SUBSET1.
Proof.
  assert (H : bms_wf (Some [5])) by wf_words. assert (H' : bms_wf (Some [7; 1])) by wf_words.
  destruct (bms_relations _ _ H H') as (_ & _ & _ & _ & _ & _ & E).
  rewrite E. vm_compute. reflexivity.
Defined.

(** Membership and its updates: for a nonnegative member the test reads the
    bit, adding sets exactly that bit (growing the word array when needed),
    deleting clears it, adding a range sets exactly the bits of the range; an
    empty range leaves the set as it is, and a negative member is an error. *)
Theorem bms_member_updates (a : Bitmapset) (x y : Z) :
  bms_wf a ->
  (0 <= x ->
   bms_is_member x a = Ok (Z.testbit (bms_val a) x) /\
   (exists r, bms_make_singleton x = Ok r /\ bms_wf r /\ bms_val r = 2 ^ x) /\
   (exists r, bms_add_member a x = Ok r /\ bms_wf r /\ bms_val r = Z.lor (bms_val a) (2 ^ x)) /\
   (exists r, bms_del_member a x = Ok r /\ bms_wf r /\ bms_val r = Z.ldiff (bms_val a) (2 ^ x)) /\
   (x <= y -> exists r, bms_add_range a x y = Ok r /\ bms_wf r /\
      forall i, 0 <= i -> Z.testbit (bms_val r) i =
        Z.testbit (bms_val a) i || ((x <=? i) && (i <=? y)))) /\
  (y < x -> bms_add_range a x y = Ok a) /\
  (x < 0 ->
   bms_is_member x a = Err negative_member /\ bms_add_member a x = Err negative_member /\
   bms_del_member a x = Err negative_member /\
   (x <= y -> bms_add_range a x y = Err negative_member)).
Proof.
  intros Ha. split_and!; intros Hx.
  - split_and!; [by apply bms_is_member_ok | by apply bms_make_singleton_ok
      | by apply bms_add_member_ok | by apply bms_del_member_ok |].
    intros. by apply bms_add_range_ok.
  - unfold bms_add_range. by rewrite (proj2 (Z.ltb_lt y x)).
  - apply Z.ltb_lt in Hx.
    unfold bms_is_member, bms_add_member, bms_del_member, bms_add_range. rewrite Hx.
    split_and!; [done..|]. intros H. by rewrite (proj2 (Z.ltb_ge y x)).
Qed.

Lemma bms_member_updates_witness :
  exists r, bms_add_member (Some [1]) 70 = Ok r /\ bms_val r = Z.lor 1 (2 ^ 70).
Proof.
  assert (H : bms_wf (Some [1])) by wf_words.
  destruct (bms_member_updates _ 70 70 H) as [E _].
  destruct (E ltac:(lia)) as (_ & _ & (r & E1 & _ & E2) & _). exists r. split; [exact E1 | exact E2].
Defined.

(** Iteration is in order and complete: [bms_next_member] returns the least
    member after the given one and [-2] exactly when there is none;
    [bms_prev_member], started at [-1] or at a position of the word array, never
    leaves the array and returns the greatest member below; [bms_first_member]
    returns the least member and removes it. *)
Theorem bms_iteration (a : Bitmapset) (p : Z) :
  bms_wf a -> a <> Some [] -> -1 <= p ->
  ((bms_next_member a p = -2 /\ forall i, p < i -> Z.testbit (bms_val a) i = false) \/
   next_after (bms_val a) p (bms_next_member a p)) /\
  ((p = -1 \/ forall ws, a = Some ws -> p <= 64 * zlen ws) ->
   exists r, bms_prev_member a p = Ok r /\
    ((r = -2 /\ forall i, 0 <= i -> (p = -1 \/ i < p) -> Z.testbit (bms_val a) i = false) \/
     0 <= r /\ (p = -1 \/ r < p) /\ Z.testbit (bms_val a) r = true /\
     forall i, r < i -> (p = -1 \/ i < p) -> Z.testbit (bms_val a) i = false)) /\
  (let '(x, a') := bms_first_member a in
   (bms_val a = 0 /\ x = -1 /\ a' = a) \/
   (is_lowest (bms_val a) x /\ bms_wf a' /\ bms_val a' = Z.ldiff (bms_val a) (2 ^ x))).
Proof.
  intros Ha Hne Hp. split_and!; [by apply bms_next_member_ok | |].
  - intros H. apply bms_prev_member_ok; [done | done |].
    destruct (Z.eq_dec p (-1)) as [-> |]; [by left | right]. split; [lia |].
    destruct H as [-> | H]; done.
  - destruct a as [ws |]; [| by left]. cbn [bms_first_member].
    destruct (words_first_member ws 0) as [x ws'] eqn:E.
    apply words_first_member_ok in E; [| done]. rewrite Z.mul_0_r, Z.sub_0_r in E.
    destruct E as [(? & ? & ->) | E]; [by left | right; exact E].
Qed.

Lemma bms_iteration_witness : next_after (bms_val (Some [9; 4])) 3 (bms_next_member (Some [9; 4]) 3).
Proof.
  assert (H : bms_wf (Some [9; 4])) by wf_words.
  destruct (bms_iteration _ 3 H) as [[[E _] | E] _]; [discriminate | lia | | exact E].
  vm_compute in E. discriminate E.
Defined.

(** Counting: [bms_num_members] is the number of ones of the value,
    [bms_member_index] the rank of a member ([-1] for a non-member), and the
    membership class and the singleton tests tell zero, one and several members
    apart, returning the single member when there is one. *)
Theorem bms_counting (a : Bitmapset) (x : Z) :
  bms_wf a -> 0 <= x ->
  (exists n, ubits (Z.of_nat n) (bms_val a) /\ bms_num_members a = ones n (bms_val a)) /\
  bms_member_index a x =
    Ok (if Z.testbit (bms_val a) x then ones (Z.to_nat x) (bms_val a) else -1) /\
  bms_membership a =
    (if bms_val a =? 0 then BMS_EMPTY_SET
     else if is_pow2 (bms_val a) then BMS_SINGLETON else BMS_MULTIPLE) /\
  bms_get_singleton_member a =
    (if is_pow2 (bms_val a) && negb (bms_val a =? 0) then Some (Z.log2 (bms_val a)) else None) /\
  bms_singleton_member a =
    (if bms_val a =? 0 then Err "bitmapset is empty"
     else if is_pow2 (bms_val a) then Ok (Z.log2 (bms_val a))
     else Err "bitmapset has multiple members").
Proof.
  intros Ha Hx. split_and!; [by apply bms_num_members_ok | by apply bms_member_index_ok | ..];
    (destruct a as [ws |]; [| done]); cbn [bms_val bms_wf] in *.
  { by apply words_membership_ok. }
  all: unfold bms_get_singleton_member, bms_singleton_member; rewrite words_singleton_ok by done;
    change (0 <=? -1) with false; cbn [orb].
  all: pose proof (Z.log2_nonneg (words_val ws)).
  all: destruct (words_val ws =? 0), (is_pow2 (words_val ws)); cbn [negb andb]; try done.
  all: by rewrite (proj2 (Z.ltb_ge _ 0)) by lia.
Qed.

Lemma bms_counting_witness : bms_member_index (Some [9; 4]) 66 = Ok 2.
Proof.
  assert (H : bms_wf (Some [9; 4])) by wf_words.
  destruct (bms_counting _ 66 H ltac:(lia)) as (_ & E & _). rewrite E. vm_compute. reflexivity.
Defined.

(** Sets that compare equal hash equal, for any hash function of the word
    bytes: the hash ignores trailing zero words. *)
Theorem bms_hash_respects_equal (hash_any : list Z -> Z) (a b : Bitmapset) :
  bms_wf a -> bms_wf b -> bms_equal a b = true ->
  bms_hash_value hash_any a = bms_hash_value hash_any b.
Proof.
  intros Ha Hb E. rewrite bms_equal_ok in E by done. apply Z.eqb_eq in E.
  by apply bms_hash_value_val.
Qed.

Lemma bms_hash_respects_equal_witness :
  bms_hash_value zlen (Some [6; 0; 0]) = bms_hash_value zlen (Some [6]).
Proof. apply (bms_hash_respects_equal zlen); [wf_words | wf_words | reflexivity]. Defined.

Lemma bms_overlap_list_ok a l :
  bms_wf a -> Forall (fun x => 0 <= x) l ->
  bms_overlap_list a l = Ok (existsb (fun x => Z.testbit (bms_val a) x) l).
Proof.
  intros Ha Hl. destruct a as [ws |]; cbn [bms_overlap_list bms_val bms_wf] in *.
  - induction Hl as [| x l Hx _ IH]; [done |]. cbn [bms_overlap_list_loop existsb].
    pose proof (bms_is_member_ok x (Some ws) Ha Hx) as E. unfold bms_is_member in E.
    rewrite (proj2 (Z.ltb_ge x 0)) in * by lia. cbn [bms_val] in E. rewrite Z.leb_antisym in E.
    destruct (WORDNUM x <? zlen ws); cbn [negb] in E.
    + rewrite E. cbn [mbind outcome_bind]. destruct (Z.testbit (words_val ws) x); [done | apply IH].
    + injection E as <-. cbn [mbind outcome_bind orb]. apply IH.
  - f_equal. symmetry. induction l as [| x l IH]; [done |]. cbn [existsb].
    rewrite Z.testbit_0_l. apply IH. by inversion Hl.
Qed.
