(* ===== verification/AoTid.v ===== *)
(** * Append-only tuple identifiers

    Models src/include/access/appendonlytid.h: the 48-bit identifier of a row of
    an append-only table (7 bits of segment file number, 40 bits of row number)
    and its reading as a heap item pointer (src/include/storage/block.h and
    itemptr.h, and the comparison of src/backend/storage/page/itemptr.c).  The
    cast between the two structures keeps the three 16-bit fields in place. *)

From S2P Require Import Prelude.

Record AOTupleId := mkAOTupleId { bytes_0_1 : Z; bytes_2_3 : Z; bytes_4_5 : Z }.

(** [ip_blkid.bi_hi], [ip_blkid.bi_lo] and [ip_posid]. *)
Record ItemPointerData := mkItemPointer { bi_hi : Z; bi_lo : Z; ip_posid : Z }.

#[export] Instance ItemPointerData_eq_dec : EqDecision ItemPointerData.
Proof. solve_decision. Defined.

(** The cast [(ItemPointer) h]. *)
Definition tid_of (h : AOTupleId) : ItemPointerData :=
  mkItemPointer (bytes_0_1 h) (bytes_2_3 h) (bytes_4_5 h).

Definition InvalidBlockNumber : Z := 0xFFFFFFFF.
Definition InvalidOffsetNumber : Z := 0.

Definition ItemPointerSetInvalid : ItemPointerData :=
  mkItemPointer (Z.shiftr InvalidBlockNumber 16) (Z.land InvalidBlockNumber 0xffff)
    InvalidOffsetNumber.

(** [BlockIdGetBlockNumber (&pointer->ip_blkid)]. *)
Definition ItemPointerGetBlockNumberNoCheck (p : ItemPointerData) : Z :=
  Z.lor (u32 (Z.shiftl (bi_hi p) 16)) (bi_lo p).

Definition ItemPointerGetOffsetNumberNoCheck (p : ItemPointerData) : Z := ip_posid p.

Definition ItemPointerCompare (arg1 arg2 : ItemPointerData) : Z :=
  let b1 := ItemPointerGetBlockNumberNoCheck arg1 in
  let b2 := ItemPointerGetBlockNumberNoCheck arg2 in
  if b1 <? b2 then -1
  else if b2 <? b1 then 1
  else if ItemPointerGetOffsetNumberNoCheck arg1 <? ItemPointerGetOffsetNumberNoCheck arg2 then -1
  else if ItemPointerGetOffsetNumberNoCheck arg2 <? ItemPointerGetOffsetNumberNoCheck arg1 then 1
  else 0.

Definition AO_MAX_TUPLES_PER_HEAP_BLOCK : Z := Z.shiftl 1 15.
Definition AO_MAX_HEAP_BLOCKS_PER_SEGMENT : Z := Z.shiftl 1 25.
Definition AOTupleId_MaxRowNum : Z := 1099511627775.
Definition AOTupleId_MaxSegmentFileNum : Z := 127.

(** The block-number macros, on a [BlockNumber] (32 bits, unsigned). *)
Definition AOSegmentGet_segno (heapBlk : Z) : Z := heapBlk / AO_MAX_HEAP_BLOCKS_PER_SEGMENT.
Definition AOSegmentGet_startHeapBlock (segno : Z) : Z := u32 (Z.shiftl segno 25).
Definition AOHeapBlockGet_startHeapBlock (heapBlk : Z) : Z := Z.land heapBlk 0xFE000000.
Definition AOHeapBlockGet_startRowNum (heapBlk : Z) : Z :=
  Z.max (u32 (u32 (heapBlk - AOHeapBlockGet_startHeapBlock heapBlk)
              * AO_MAX_TUPLES_PER_HEAP_BLOCK)) 1.

Definition AOTupleIdGet_segmentFileNum (h : AOTupleId) : Z :=
  Z.shiftr (Z.land (bytes_0_1 h) 0xFE00) 9.

(** [bytes_4_5 - 1] is an [int] that is converted to 64 bits. *)
Definition AOTupleIdGet_rowNum (h : AOTupleId) : Z :=
  let rowNumber := u64 (Z.shiftl (Z.land (bytes_0_1 h) 0x01FF) 31) in
  let rowNumber := Z.lor rowNumber (u64 (Z.shiftl (bytes_2_3 h) 15)) in
  Z.lor rowNumber (u64 (bytes_4_5 h - 1)).

Definition AOTupleIdInit (segfilenum rownum : Z) : AOTupleId :=
  let b01 := u16 (Z.shiftl (u16 (Z.land 0x007F segfilenum)) 9) in
  let b01 := Z.lor b01 (u16 (Z.shiftr (Z.land 0x000000FFFFFFFFFF rownum) 31)) in
  let b23 := u16 (Z.shiftr (Z.land 0x000000007FFFFFFF rownum) 15) in
  let b45 := u16 (Z.land 0x7FFF rownum + 1) in
  mkAOTupleId b01 b23 b45.

Definition AOTupleIdSetInvalid : AOTupleId :=
  let p := ItemPointerSetInvalid in mkAOTupleId (bi_hi p) (bi_lo p) (ip_posid p).

(** ** Arithmetic form of the identifier *)

Definition aotid_ok (segno rownum : Z) : Prop :=
  0 <= segno <= AOTupleId_MaxSegmentFileNum /\ 0 <= rownum <= AOTupleId_MaxRowNum.

Lemma land_ones_l n v : 0 <= n -> Z.land (2 ^ n - 1) v = v mod 2 ^ n.
Proof. intros. rewrite Z.land_comm, <- Z.land_ones, Z.ones_equiv by lia. f_equal. Qed.

Lemma AOTupleIdInit_arith segno rownum :
  aotid_ok segno rownum ->
  AOTupleIdInit segno rownum =
  mkAOTupleId (rownum / 2 ^ 31 + 2 ^ 9 * segno) (rownum mod 2 ^ 31 / 2 ^ 15) (rownum mod 2 ^ 15 + 1).
Proof.
  unfold aotid_ok, AOTupleId_MaxSegmentFileNum, AOTupleId_MaxRowNum. intros [Hs Hr].
  unfold AOTupleIdInit. change 0x007F with (2 ^ 7 - 1). change 0x000000FFFFFFFFFF with (2 ^ 40 - 1).
  change 0x000000007FFFFFFF with (2 ^ 31 - 1). change 0x7FFF with (2 ^ 15 - 1).
  rewrite !land_ones_l, !Z.shiftr_div_pow2 by lia.
  rewrite (Z.mod_small segno), (Z.mod_small rownum (2 ^ 40)) by lia.
  rewrite (u16_small segno) by lia.
  rewrite (u16_small (Z.shiftl segno 9)) by (rewrite Z.shiftl_mul_pow2 by lia; lia).
  rewrite !u16_small by zlia. f_equal. apply lor_shiftl_join; [lia |]. unfold ubits. zlia.
Qed.

Lemma AOTupleIdGet_segmentFileNum_arith h :
  ubits 16 (bytes_0_1 h) -> AOTupleIdGet_segmentFileNum h = bytes_0_1 h / 2 ^ 9.
Proof.
  intros H. unfold AOTupleIdGet_segmentFileNum. change 0xFE00 with (2 ^ 16 - 2 ^ 9).
  rewrite land_high_mask, Z.shiftr_div_pow2 by (done || lia). zlia.
Qed.

Lemma AOTupleIdGet_rowNum_arith h :
  ubits 16 (bytes_0_1 h) -> ubits 16 (bytes_2_3 h) -> 1 <= bytes_4_5 h <= 2 ^ 15 ->
  AOTupleIdGet_rowNum h =
  bytes_4_5 h - 1 + 2 ^ 15 * (bytes_2_3 h + 2 ^ 16 * (bytes_0_1 h mod 2 ^ 9)).
Proof.
  intros [H0 H1] [H2 H3] H4. unfold AOTupleIdGet_rowNum. change 0x01FF with (2 ^ 9 - 1).
  rewrite Z.land_comm, land_ones_l by lia.
  rewrite (u64_small (Z.shiftl (_ mod _) 31)) by (rewrite Z.shiftl_mul_pow2 by lia; zlia).
  rewrite (u64_small (Z.shiftl _ 15)) by (rewrite Z.shiftl_mul_pow2 by lia; zlia).
  rewrite u64_small by lia. change 31 with (16 + 15). rewrite <- Z.shiftl_shiftl by lia.
  rewrite <- Z.shiftl_lor, lor_shiftl_join by (unfold ubits; zlia).
  rewrite lor_shiftl_join by (unfold ubits; zlia). done.
Qed.

Lemma AOTupleId_get_init segno rownum :
  aotid_ok segno rownum ->
  let h := AOTupleIdInit segno rownum in
  AOTupleIdGet_segmentFileNum h = segno /\ AOTupleIdGet_rowNum h = rownum /\
  ubits 16 (bytes_0_1 h) /\ ubits 16 (bytes_2_3 h) /\ 1 <= bytes_4_5 h <= 2 ^ 15.
Proof.
  intros H h. unfold h. rewrite AOTupleIdInit_arith by done.
  unfold aotid_ok, AOTupleId_MaxSegmentFileNum, AOTupleId_MaxRowNum in H.
  rewrite AOTupleIdGet_segmentFileNum_arith, AOTupleIdGet_rowNum_arith
    by (cbn [bytes_0_1 bytes_2_3 bytes_4_5]; unfold ubits; zlia).
  cbn [bytes_0_1 bytes_2_3 bytes_4_5]. unfold ubits. split_and!; zlia.
Qed.

(** Reading the identifier as an item pointer. *)
Lemma tid_block_arith segno rownum :
  aotid_ok segno rownum ->
  ItemPointerGetBlockNumberNoCheck (tid_of (AOTupleIdInit segno rownum)) =
  segno * 2 ^ 25 + rownum / 2 ^ 15.
Proof.
  intros H. rewrite AOTupleIdInit_arith by done. unfold ItemPointerGetBlockNumberNoCheck. cbn.
  unfold aotid_ok, AOTupleId_MaxSegmentFileNum, AOTupleId_MaxRowNum in H.
  rewrite u32_small by (rewrite Z.shiftl_mul_pow2 by lia; zlia).
  rewrite lor_shiftl_join by (unfold ubits; zlia). zlia.
Qed.

(** ** Properties *)

(** The identifier of a row determines it: for every segment file number and
    row number in range, the packed identifier gives back both, its offset part
    is between 1 and 32768 (never the invalid offset), and it is never the
    invalid identifier. *)
Theorem aotid_roundtrip (segno rownum : Z) :
  aotid_ok segno rownum ->
  let h := AOTupleIdInit segno rownum in
  AOTupleIdGet_segmentFileNum h = segno /\ AOTupleIdGet_rowNum h = rownum /\
  1 <= ip_posid (tid_of h) <= AO_MAX_TUPLES_PER_HEAP_BLOCK /\
  tid_of h <> ItemPointerSetInvalid.
Proof.
  intros H h. destruct (AOTupleId_get_init segno rownum H) as (H1 & H2 & _ & _ & H3).
  fold h in H1, H2, H3. change AO_MAX_TUPLES_PER_HEAP_BLOCK with (2 ^ 15).
  unfold tid_of. cbn [ip_posid]. split_and!; [done | done | lia | lia |].
  intros E. apply (f_equal ip_posid) in E. cbn [ip_posid ItemPointerSetInvalid] in E.
  unfold InvalidOffsetNumber in E. lia.
Qed.

Lemma aotid_roundtrip_witness :
  AOTupleIdGet_rowNum (AOTupleIdInit 3 987654321012) = 987654321012.
Proof.
  assert (H : aotid_ok 3 987654321012) by (split; vm_compute; split; discriminate).
  exact (proj1 (proj2 (aotid_roundtrip _ _ H))).
Defined.

(** Read as a heap item pointer, an identifier lies in the logical heap block
    of its segment and row, from which the segment number and the first block of
    the segment are recovered, and the item pointer order is the order of segment
    number, then row number. *)
Theorem aotid_heap_order (segno rownum segno' rownum' : Z) :
  aotid_ok segno rownum -> aotid_ok segno' rownum' ->
  let blk := ItemPointerGetBlockNumberNoCheck (tid_of (AOTupleIdInit segno rownum)) in
  blk = AOSegmentGet_startHeapBlock segno + rownum / AO_MAX_TUPLES_PER_HEAP_BLOCK /\
  AOSegmentGet_segno blk = segno /\
  AOHeapBlockGet_startHeapBlock blk = AOSegmentGet_startHeapBlock segno /\
  ItemPointerCompare (tid_of (AOTupleIdInit segno rownum)) (tid_of (AOTupleIdInit segno' rownum')) =
    match segno ?= segno' with
    | Lt => -1
    | Gt => 1
    | Eq => match rownum ?= rownum' with Lt => -1 | Gt => 1 | Eq => 0 end
    end.
Proof.
  intros H H' blk. unfold blk, ItemPointerCompare. rewrite !tid_block_arith by done.
  rewrite !AOTupleIdInit_arith by done. unfold ItemPointerGetOffsetNumberNoCheck.
  cbn [tid_of ip_posid bytes_0_1 bytes_2_3 bytes_4_5].
  unfold aotid_ok, AOTupleId_MaxSegmentFileNum, AOTupleId_MaxRowNum in *.
  unfold AOSegmentGet_startHeapBlock, AOSegmentGet_segno, AOHeapBlockGet_startHeapBlock.
  change AO_MAX_TUPLES_PER_HEAP_BLOCK with (2 ^ 15). change AO_MAX_HEAP_BLOCKS_PER_SEGMENT with (2 ^ 25).
  change 0xFE000000 with (2 ^ 32 - 2 ^ 25).
  rewrite land_high_mask by (unfold ubits; zlia).
  rewrite u32_small by (rewrite Z.shiftl_mul_pow2 by lia; lia). rewrite Z.shiftl_mul_pow2 by lia.
  split_and!; [done | zlia | zlia |].
  destruct (Z.compare_spec segno segno') as [-> | |]; [| case_bools; zlia..].
  destruct (Z.compare_spec rownum rownum'); case_bools; zlia.
Qed.

Lemma aotid_heap_order_witness :
  ItemPointerCompare (tid_of (AOTupleIdInit 1 40000)) (tid_of (AOTupleIdInit 1 70000)) = -1.
Proof.
  assert (H : aotid_ok 1 40000) by (split; vm_compute; split; discriminate).
  assert (H' : aotid_ok 1 70000) by (split; vm_compute; split; discriminate).
  destruct (aotid_heap_order _ _ _ _ H H') as (_ & _ & _ & E). rewrite E. reflexivity.
Defined.

(** [AOHeapBlockGet_startRowNum] multiplies in 32 bits.  For block [k] of a
    segment it returns the first row number of the block, [32768 * k] (1 for the
    first block), exactly when [k < 2 ^ 17]; from there on, that is for row
    numbers from [2 ^ 32] to the documented maximum of [2 ^ 40 - 1], the product
    wraps and the row number returned is smaller. *)
Theorem ao_start_rownum_wraps (segno k : Z) :
  0 <= segno <= AOTupleId_MaxSegmentFileNum -> 0 <= k < AO_MAX_HEAP_BLOCKS_PER_SEGMENT ->
  let r := AOHeapBlockGet_startRowNum (AOSegmentGet_startHeapBlock segno + k) in
  r = Z.max ((k * 2 ^ 15) mod 2 ^ 32) 1 /\
  (k < 2 ^ 17 -> r = Z.max (k * AO_MAX_TUPLES_PER_HEAP_BLOCK) 1) /\
  (2 ^ 17 <= k -> r < k * AO_MAX_TUPLES_PER_HEAP_BLOCK).
Proof.
  intros Hs Hk r. unfold AOTupleId_MaxSegmentFileNum in Hs.
  change AO_MAX_HEAP_BLOCKS_PER_SEGMENT with (2 ^ 25) in Hk.
  change AO_MAX_TUPLES_PER_HEAP_BLOCK with (2 ^ 15).
  assert (Hr : r = Z.max ((k * 2 ^ 15) mod 2 ^ 32) 1).
  { unfold r, AOHeapBlockGet_startRowNum, AOHeapBlockGet_startHeapBlock, AOSegmentGet_startHeapBlock.
    rewrite Z.shiftl_mul_pow2, (u32_small (segno * 2 ^ 25)) by lia.
    change 0xFE000000 with (2 ^ 32 - 2 ^ 25). rewrite land_high_mask by (unfold ubits; zlia).
    replace (segno * 2 ^ 25 + k - 2 ^ 25 * ((segno * 2 ^ 25 + k) / 2 ^ 25)) with k by zlia.
    rewrite (u32_small k) by lia. change AO_MAX_TUPLES_PER_HEAP_BLOCK with (2 ^ 15). done. }
  split_and!; [done | intros; rewrite Hr, Z.mod_small by lia; done |].
  intros Hk'. rewrite Hr. zlia.
Qed.

Lemma ao_start_rownum_wraps_witness :
  AOHeapBlockGet_startRowNum (AOSegmentGet_startHeapBlock 1 + 2 ^ 17) < 2 ^ 17 * 2 ^ 15.
Proof.
  destruct (ao_start_rownum_wraps 1 (2 ^ 17)) as (_ & _ & E);
    [unfold AOTupleId_MaxSegmentFileNum; lia
    | change AO_MAX_HEAP_BLOCKS_PER_SEGMENT with (2 ^ 25); lia |].
  apply E. lia.
Defined.
