(* ===== verification/VisimapEntry.v ===== *)
(** * Visibility map entries of append-only tables

    Models src/backend/access/appendonly/appendonly_visimap_entry.c and
    src/include/access/appendonly_visimap_entry.h.  An entry is the bitmap of
    the deleted rows among 32768 consecutive rows of a segment file.  The bitmap
    is a [Bitmapset] of 64-bit words in memory; on disk it is a compressed
    sequence of 32-bit words in a varlena of an aovisimap tuple.  Memory contexts
    and debug logging are left out; [bms_free] followed by an assignment is the
    assignment.  A heap tuple of the aovisimap relation is its three nullable
    attributes, the third one detoasted. *)

From S2P Require Import Prelude Bitstream BitmapCompression BitUtils Bitmapset AoTid.

Definition APPENDONLY_VISIMAP_MAX_RANGE : Z := 32768.
Definition APPENDONLY_VISIMAP_MAX_BITMAP_SIZE : Z := 4096.
Definition APPENDONLY_VISIMAP_MAX_BITMAP_WORD_COUNT : Z := APPENDONLY_VISIMAP_MAX_BITMAP_SIZE / 8.

(** [offsetof(AppendOnlyVisimapData, data)]: the length and version words. *)
Definition visimap_data_offset : Z := 8.
Definition APPENDONLY_VISIMAP_DATA_BUFFER_SIZE : Z :=
  visimap_data_offset + APPENDONLY_VISIMAP_MAX_BITMAP_SIZE + BITMAP_COMPRESSION_HEADER_SIZE.

Record AppendOnlyVisimapData := mkVisimapData {
  vd_len : Z;          (* VARSIZE *)
  vd_version : Z;
  vd_data : list Z     (* the bytes from [data] to the end of the buffer *)
}.

Record AppendOnlyVisimapEntry := mkVisimapEntry {
  ve_data : AppendOnlyVisimapData;
  ve_bitmap : Bitmapset;
  ve_segmentFileNum : Z;
  ve_firstRowNum : Z;
  ve_dirty : bool;
  ve_tupleTid : ItemPointerData
}.

(** A tuple of the aovisimap relation; [None] is SQL NULL. *)
Record aovisimap_tuple := mkAovisimapTuple {
  avt_segno : option Z;
  avt_firstrownum : option Z;
  avt_visimap : option AppendOnlyVisimapData
}.

Inductive TM_Result :=
| TM_Ok | TM_Invisible | TM_SelfModified | TM_Updated | TM_Deleted | TM_BeingModified
| TM_WouldBlock.

(** The 64-bit words of a bitmap seen as [uint32 *], and back (little-endian). *)
Definition u32_view (ws : list Z) : list Z := flat_map (fun w => [u32 w; Z.shiftr w 32]) ws.

Fixpoint u64_view (us : list Z) : list Z :=
  match us with
  | lo :: hi :: us => (lo + 2 ^ 32 * hi) :: u64_view us
  | _ => []
  end.

(** ** Life cycle *)

(** [e0] is the zero-allocated structure. *)
Definition AppendOnlyVisimapEntry_Init (e0 : AppendOnlyVisimapEntry) : AppendOnlyVisimapEntry :=
  mkVisimapEntry
    (mkVisimapData 0 0
       (replicate (Z.to_nat (APPENDONLY_VISIMAP_DATA_BUFFER_SIZE - visimap_data_offset)) 0))
    None (-1) (-1) false (ve_tupleTid e0).

Definition AppendOnlyVisimapEntry_Reset (e : AppendOnlyVisimapEntry) : AppendOnlyVisimapEntry :=
  mkVisimapEntry (ve_data e) None (-1) (-1) false (ve_tupleTid e).

(** A NULL [data] pointer is a buffer without bytes: every access is out of bounds. *)
Definition AppendOnlyVisimapEntry_Finish (e : AppendOnlyVisimapEntry) : AppendOnlyVisimapEntry :=
  mkVisimapEntry (mkVisimapData 0 0 []) None (ve_segmentFileNum e) (ve_firstRowNum e)
    (ve_dirty e) (ve_tupleTid e).

Definition AppendOnlyVisimapEntry_IsValid (e : AppendOnlyVisimapEntry) : bool :=
  (0 <=? ve_segmentFileNum e) && (0 <=? ve_firstRowNum e).

Definition AppendOnlyVisimapEntry_HasChanged (e : AppendOnlyVisimapEntry) : bool := ve_dirty e.

Definition AppendOnlyVisimapEntry_GetFirstRowNum (tupleId : AOTupleId) : Z :=
  let rowNum := s64 (AOTupleIdGet_rowNum tupleId) in
  Z.quot rowNum APPENDONLY_VISIMAP_MAX_RANGE * APPENDONLY_VISIMAP_MAX_RANGE.

Definition AppendOnlyVisimapEntry_New (e : AppendOnlyVisimapEntry) (tupleId : AOTupleId)
  : AppendOnlyVisimapEntry :=
  mkVisimapEntry (ve_data e) None (AOTupleIdGet_segmentFileNum tupleId)
    (AppendOnlyVisimapEntry_GetFirstRowNum tupleId) (ve_dirty e) ItemPointerSetInvalid.

(** ** Reading and writing the on-disk form *)

(** The caller's [BitmapDecompressState] is not initialised. *)
Definition AppendOnlyVisiMapEnty_ReadData (st0 : BitmapDecompressState)
    (e : AppendOnlyVisimapEntry) (dataSize : Z) : outcome AppendOnlyVisimapEntry :=
  '(_, st) ← BitmapDecompress_Init st0 (vd_data (ve_data e)) dataSize;
  if BitmapDecompress_HasError st then
    Err "error occurred during visimap bitmap decompression"
  else
    let '(onDiskBlockCount, bmsWordCount) := BitmapDecompress_CalculateBlockCounts st in
    let e' := fun bm => mkVisimapEntry (ve_data e) bm (ve_segmentFileNum e) (ve_firstRowNum e)
                          (ve_dirty e) (ve_tupleTid e) in
    if 0 <? onDiskBlockCount then
      '(_, us) ← BitmapDecompress_Decompress st
                   (u32_view (replicate (Z.to_nat bmsWordCount) 0)) onDiskBlockCount;
      Ok (e' (Some (u64_view us)))
    else if negb (onDiskBlockCount =? 0) then Err "illegal visimap block count"
    else Ok (e' None).

Definition AppendOnlyVisimap_GetAttrNotNull (d : option Z) : outcome Z :=
  match d with Some v => Ok v | None => Err "got invalid value: NULL" end.

Definition AppendOnlyVisimapEntry_Copyout (st0 : BitmapDecompressState)
    (e : AppendOnlyVisimapEntry) (t : aovisimap_tuple) : outcome AppendOnlyVisimapEntry :=
  segno ← AppendOnlyVisimap_GetAttrNotNull (avt_segno t);
  first ← AppendOnlyVisimap_GetAttrNotNull (avt_firstrownum t);
  match avt_visimap t with
  | None =>
      Ok (mkVisimapEntry (ve_data e) None (s32 segno) first (ve_dirty e) (ve_tupleTid e))
  | Some value =>
      (* memcpy of VARSIZE bytes over the data buffer *)
      let dataSize := vd_len value - visimap_data_offset in
      bytes ← mem_read (vd_data value) 0 dataSize;
      data ← mem_write (vd_data (ve_data e)) 0 bytes;
      AppendOnlyVisiMapEnty_ReadData st0
        (mkVisimapEntry (mkVisimapData (vd_len value) (vd_version value) data)
           (ve_bitmap e) (s32 segno) first (ve_dirty e) (ve_tupleTid e)) dataSize
  end.

Definition AppendOnlyVisimapEntry_GetHiddenTupleCount (e : AppendOnlyVisimapEntry) : Z :=
  bms_num_members (ve_bitmap e).

Definition AppendOnlyVisimapEntry_WriteData (e : AppendOnlyVisimapEntry)
  : outcome AppendOnlyVisimapEntry :=
  let '(blockCount, bmsWordCount) := BitmapCompress_CalculateBlockCounts (ve_bitmap e) in
  let bitmapSize := 4 * blockCount + BITMAP_COMPRESSION_HEADER_SIZE in
  let words := match ve_bitmap e with Some ws => u32_view ws | None => [] end in
  words ← mem_read words 0 blockCount;
  '(compressedBitmapSize, data) ← Bitmap_Compress BITMAP_COMPRESSION_TYPE_DEFAULT words
                                    (vd_data (ve_data e)) bitmapSize;
  Ok (mkVisimapEntry (mkVisimapData (visimap_data_offset + compressedBitmapSize) 1 data)
        (ve_bitmap e) (ve_segmentFileNum e) (ve_firstRowNum e) (ve_dirty e) (ve_tupleTid e)).

(** The arrays [values] and [nulls] are the tuple that is returned. *)
Definition AppendOnlyVisimapEntry_Write (e : AppendOnlyVisimapEntry)
  : outcome (AppendOnlyVisimapEntry * aovisimap_tuple) :=
  let tup := mkAovisimapTuple (Some (ve_segmentFileNum e)) (Some (ve_firstRowNum e)) in
  let clean := fun e => mkVisimapEntry (ve_data e) (ve_bitmap e) (ve_segmentFileNum e)
                          (ve_firstRowNum e) false (ve_tupleTid e) in
  if bms_is_empty (ve_bitmap e) then Ok (clean e, tup None)
  else
    e ← AppendOnlyVisimapEntry_WriteData e;
    Ok (clean e, tup (Some (ve_data e))).

(** ** Visibility *)

Definition AppendOnlyVisimapEntry_AreAllVisible (e : AppendOnlyVisimapEntry) : bool :=
  bms_is_empty (ve_bitmap e).

Definition AppendOnlyVisimapEntry_GetRownumOffset (e : AppendOnlyVisimapEntry) (rowNum : Z) : Z :=
  rowNum - ve_firstRowNum e.

Definition AppendOnlyVisimapEntry_CoversTuple (e : AppendOnlyVisimapEntry) (tupleId : AOTupleId)
  : bool :=
  if negb (AppendOnlyVisimapEntry_IsValid e) then false
  else if negb (ve_segmentFileNum e =? AOTupleIdGet_segmentFileNum tupleId) then false
  else
    let rowNum := s64 (AOTupleIdGet_rowNum tupleId) in
    (ve_firstRowNum e <=? rowNum)
    && (rowNum <? ve_firstRowNum e + APPENDONLY_VISIMAP_MAX_RANGE).

Definition AppendOnlyVisimapEntry_IsVisible (e : AppendOnlyVisimapEntry) (tupleId : AOTupleId)
  : outcome bool :=
  let rowNum := s64 (AOTupleIdGet_rowNum tupleId) in
  if AppendOnlyVisimapEntry_AreAllVisible e then Ok true
  else
    let rowNumOffset := AppendOnlyVisimapEntry_GetRownumOffset e rowNum in
    m ← bms_is_member (s32 rowNumOffset) (ve_bitmap e);
    Ok (negb m).

Definition AppendOnlyVisimapEntry_GetMinimalSizeToCover (offset : Z) : Z :=
  let m := u32 (Z.quot offset BITS_PER_BITMAPWORD + 1) in
  let m := u32 (m - 1) in
  let m := Z.lor m (Z.shiftr m 1) in
  let m := Z.lor m (Z.shiftr m 2) in
  let m := Z.lor m (Z.shiftr m 4) in
  let m := Z.lor m (Z.shiftr m 8) in
  let m := Z.lor m (Z.shiftr m 16) in
  u32 (m + 1).

Definition AppendOnlyVisimapEntry_HideTuple (e : AppendOnlyVisimapEntry) (tupleId : AOTupleId)
  : outcome (TM_Result * AppendOnlyVisimapEntry) :=
  let rowNum := s64 (AOTupleIdGet_rowNum tupleId) in
  let rowNumOffset := AppendOnlyVisimapEntry_GetRownumOffset e rowNum in
  covers ← bms_covers_member (ve_bitmap e) (s32 rowNumOffset);
  let bitmap := if negb covers
                then bms_resize (ve_bitmap e)
                       (s32 (AppendOnlyVisimapEntry_GetMinimalSizeToCover rowNumOffset))
                else ve_bitmap e in
  m ← bms_is_member (s32 rowNumOffset) bitmap;
  '(result, bitmap) ←
    (if negb m then
       bitmap ← bms_add_member bitmap (s32 rowNumOffset);
       Ok (TM_Ok, bitmap)
     else if ve_dirty e then Ok (TM_SelfModified, bitmap)
     else Ok (TM_Updated, bitmap));
  Ok (result, mkVisimapEntry (ve_data e) bitmap (ve_segmentFileNum e) (ve_firstRowNum e)
                true (ve_tupleTid e)).

(** The tuple identifier is updated when there is a next hidden row. *)
Definition AppendOnlyVisimapEntry_GetNextInvisible (e : AppendOnlyVisimapEntry)
    (tupleId : AOTupleId) : bool * AOTupleId :=
  let currentBitmapOffset :=
    if AppendOnlyVisimapEntry_CoversTuple e tupleId
    then AppendOnlyVisimapEntry_GetRownumOffset e (s64 (AOTupleIdGet_rowNum tupleId))
    else -1 in
  let offset := bms_next_member (ve_bitmap e) (s32 currentBitmapOffset) in
  if 0 <=? offset then
    let rowNum := ve_firstRowNum e + offset in
    (true, AOTupleIdInit (u16 (ve_segmentFileNum e)) (u64 rowNum))
  else (false, tupleId).

(** ** The smallest power of two *)

(** [m'] has bit [i] when [m] has a bit among [i .. i + s - 1]. *)
Definition smeared (s m m' : Z) : Prop :=
  forall i, 0 <= i -> Z.testbit m' i = true <-> exists t, 0 <= t < s /\ Z.testbit m (i + t) = true.

Lemma smear_step s m m' :
  0 < s -> smeared s m m' -> smeared (2 * s) m (Z.lor m' (Z.shiftr m' s)).
Proof.
  intros Hs H i Hi. rewrite Z.lor_spec, Z.shiftr_spec, orb_true_iff, (H i), (H (i + s)) by lia.
  split.
  - intros [(t & Ht & E) | (t & Ht & E)]; [exists t; split; [lia | done] |].
    exists (s + t). split; [lia |]. by rewrite Z.add_assoc.
  - intros (t & Ht & E). destruct (Z_lt_le_dec t s); [left; exists t; split; [lia | done] |].
    right. exists (t - s). split; [lia |]. by replace (i + s + (t - s)) with (i + t) by lia.
Qed.

Lemma smear_start m : smeared 1 m m.
Proof.
  intros i Hi. split; [intros E; exists 0; split; [lia | by rewrite Z.add_0_r] |].
  intros (t & Ht & E). by replace (i + t) with i in E by lia.
Qed.

(** Smearing over the whole width sets all bits up to the leftmost one. *)
Lemma smear_all m m' : 0 < m < 2 ^ 32 -> smeared 32 m m' -> m' = Z.ones (Z.log2 m + 1).
Proof.
  intros Hm H. pose proof (Z.log2_nonneg m).
  assert (Z.log2 m < 32) by (apply Z.log2_lt_pow2; lia).
  apply bits_ext. intros i Hi. rewrite Z.testbit_ones by lia.
  apply eq_true_iff_eq. rewrite (H i Hi). split.
  - intros (t & Ht & E). destruct (Z_lt_le_dec (Z.log2 m) (i + t)) as [Hlt |]; [| lia].
    rewrite Z.bits_above_log2 in E by lia. done.
  - intros Hlt. exists (Z.log2 m - i). split; [lia |].
    replace (i + (Z.log2 m - i)) with (Z.log2 m) by lia. apply Z.bit_log2. lia.
Qed.

Lemma GetMinimalSizeToCover_log2 offset :
  0 <= offset -> offset / 64 < 2 ^ 31 ->
  AppendOnlyVisimapEntry_GetMinimalSizeToCover offset = 2 ^ Z.log2_up (offset / 64 + 1).
Proof.
  intros H0 H1. unfold AppendOnlyVisimapEntry_GetMinimalSizeToCover, BITS_PER_BITMAPWORD.
  rewrite Z.quot_div_nonneg by lia. assert (0 <= offset / 64) by zlia.
  set (k := offset / 64) in *. rewrite (u32_small (k + 1)) by lia.
  replace (k + 1 - 1) with k by lia. rewrite (u32_small k) by lia.
  destruct (Z.eq_dec k 0) as [-> | Hk]; [done |].
  assert (Hm := smear_step 16 k _ ltac:(lia) (smear_step 8 k _ ltac:(lia)
    (smear_step 4 k _ ltac:(lia) (smear_step 2 k _ ltac:(lia) (smear_step 1 k _ ltac:(lia) (smear_start k)))))).
  apply smear_all in Hm; [| lia]. cbv zeta. change (2 * 1) with 2 in Hm. rewrite Hm.
  rewrite Z.ones_equiv. rewrite Z.log2_up_eqn by lia. replace (Z.pred (k + 1)) with k by lia. unfold Z.succ.
  assert (2 ^ (Z.log2 k + 1) <= 2 ^ 31) by
    (apply Z.pow_le_mono_r; [lia |]; enough (Z.log2 k < 31) by lia; apply Z.log2_lt_pow2; lia).
  rewrite u32_small by (pose proof (Z.pow_pos_nonneg 2 (Z.log2 k + 1) ltac:(lia));
    pose proof (Z.log2_nonneg k); lia). lia.
Qed.

(** ** Well-formed entries *)

(** The three 16-bit fields of an identifier, with a valid offset. *)
Definition aotid_wf (t : AOTupleId) : Prop :=
  ubits 16 (bytes_0_1 t) /\ ubits 16 (bytes_2_3 t) /\ 1 <= bytes_4_5 t <= 2 ^ 15.

Definition visimap_buffer_wf (d : AppendOnlyVisimapData) : Prop :=
  zlen (vd_data d) = APPENDONLY_VISIMAP_DATA_BUFFER_SIZE - visimap_data_offset /\
  Forall (ubits 8) (vd_data d).

Definition visimap_bitmap_wf (b : Bitmapset) : Prop :=
  bms_wf b /\
  forall ws, b = Some ws -> 1 <= zlen ws <= APPENDONLY_VISIMAP_MAX_BITMAP_WORD_COUNT.

(** An entry that is unset, or that covers an aligned range of row numbers. *)
Definition visimap_range_wf (seg first : Z) : Prop :=
  (seg = -1 /\ first = -1) \/
  (0 <= seg <= AOTupleId_MaxSegmentFileNum /\ 0 <= first /\
   first mod APPENDONLY_VISIMAP_MAX_RANGE = 0 /\
   first + APPENDONLY_VISIMAP_MAX_RANGE <= AOTupleId_MaxRowNum + 1).

Definition visimap_entry_wf (e : AppendOnlyVisimapEntry) : Prop :=
  visimap_buffer_wf (ve_data e) /\ visimap_bitmap_wf (ve_bitmap e) /\
  visimap_range_wf (ve_segmentFileNum e) (ve_firstRowNum e).

(** The abstract state: the set of hidden row numbers. *)
Definition hidden (e : AppendOnlyVisimapEntry) (row : Z) : bool :=
  (ve_firstRowNum e <=? row) && Z.testbit (bms_val (ve_bitmap e)) (row - ve_firstRowNum e).

Definition rowNum_of (t : AOTupleId) : Z := s64 (AOTupleIdGet_rowNum t).

Lemma rowNum_of_bound t : aotid_wf t -> 0 <= rowNum_of t < 2 ^ 40 /\ rowNum_of t = AOTupleIdGet_rowNum t.
Proof.
  intros (H1 & H2 & H3). unfold rowNum_of. rewrite AOTupleIdGet_rowNum_arith by done.
  unfold ubits in *. rewrite s64_small by zlia. zlia.
Qed.

(** What coverage means for the offset of the row. *)
Lemma CoversTuple_inv e t :
  aotid_wf t -> AppendOnlyVisimapEntry_CoversTuple e t = true ->
  0 <= ve_segmentFileNum e /\ 0 <= ve_firstRowNum e /\
  ve_segmentFileNum e = AOTupleIdGet_segmentFileNum t /\
  0 <= rowNum_of t - ve_firstRowNum e < APPENDONLY_VISIMAP_MAX_RANGE.
Proof.
  intros Ht. unfold AppendOnlyVisimapEntry_CoversTuple, AppendOnlyVisimapEntry_IsValid.
  fold (rowNum_of t). destruct ((0 <=? ve_segmentFileNum e) && _) eqn:E1; [| done].
  destruct (ve_segmentFileNum e =? _) eqn:E2; [| done]. cbn [negb]. lia.
Qed.

Lemma visible_hidden e t :
  visimap_entry_wf e -> aotid_wf t -> AppendOnlyVisimapEntry_CoversTuple e t = true ->
  AppendOnlyVisimapEntry_IsVisible e t = Ok (negb (hidden e (rowNum_of t))).
Proof.
  intros (_ & [Hb _] & _) Ht Hc. destruct (CoversTuple_inv e t Ht Hc) as (_ & Hf & _ & Ho).
  unfold AppendOnlyVisimapEntry_IsVisible, AppendOnlyVisimapEntry_AreAllVisible, hidden.
  fold (rowNum_of t). unfold AppendOnlyVisimapEntry_GetRownumOffset.
  unfold APPENDONLY_VISIMAP_MAX_RANGE in Ho. rewrite s32_small by lia.
  rewrite bms_is_empty_ok by done. rewrite (proj2 (Z.leb_le _ (rowNum_of t))) by lia.
  destruct (Z.eqb_spec (bms_val (ve_bitmap e)) 0) as [E |].
  - by rewrite E, Z.testbit_0_l.
  - rewrite bms_is_member_ok by (done || lia). done.
Qed.

(** The resized bitmap has room for the row and at most the allowed words. *)
Lemma resize_covers b o :
  visimap_bitmap_wf b -> 0 <= o < APPENDONLY_VISIMAP_MAX_RANGE ->
  exists ws,
    (covers ← bms_covers_member b o;
     Ok (if negb covers then bms_resize b (s32 (AppendOnlyVisimapEntry_GetMinimalSizeToCover o))
         else b)) = Ok (Some ws) /\
    words_wf ws /\ words_val ws = bms_val b /\ WORDNUM o < zlen ws /\
    1 <= zlen ws <= APPENDONLY_VISIMAP_MAX_BITMAP_WORD_COUNT.
Proof.
  intros [Hwf Hlen] Ho. unfold APPENDONLY_VISIMAP_MAX_RANGE in Ho.
  change APPENDONLY_VISIMAP_MAX_BITMAP_WORD_COUNT with 512 in *.
  assert (Hw : 0 <= o / 64 < 512) by zlia.
  unfold bms_covers_member. rewrite (proj2 (Z.ltb_ge o 0)) by lia. rewrite WORDNUM_div by lia.
  rewrite GetMinimalSizeToCover_log2 by lia.
  pose proof (Z.log2_up_le_mono (o / 64 + 1) 512 ltac:(lia)) as Hup.
  change (Z.log2_up 512) with 9 in Hup. pose proof (Z.log2_up_nonneg (o / 64 + 1)).
  assert (Hsz : o / 64 + 1 <= 2 ^ Z.log2_up (o / 64 + 1) <= 512).
  { split; [by apply Z.log2_up_le_pow2; lia |]. change 512 with (2 ^ 9). by apply Z.pow_le_mono_r. }
  set (sz := 2 ^ _) in *. rewrite s32_small by lia.
  destruct (bms_resize_ok b sz Hwf) as [Hwf' Hval'].
  destruct b as [ws |]; cbn [mbind outcome_bind bms_resize] in *.
  - specialize (Hlen ws eq_refl). destruct (Z.ltb_spec (o / 64) (zlen ws)); cbn [negb].
    + exists ws. split_and!; (done || lia).
    + destruct (Z.leb_spec sz (zlen ws)); [lia |]. exists (words_enlarge ws sz).
      rewrite words_enlarge_length. split_and!; (done || lia).
  - exists (replicate (Z.to_nat sz) 0). unfold zlen. rewrite length_replicate.
    split_and!; (done || lia).
Qed.

Lemma HideTuple_bitmap e t :
  visimap_entry_wf e -> aotid_wf t -> AppendOnlyVisimapEntry_CoversTuple e t = true ->
  let o := rowNum_of t - ve_firstRowNum e in
  exists bitmap,
    AppendOnlyVisimapEntry_HideTuple e t =
      Ok (if negb (hidden e (rowNum_of t)) then TM_Ok
          else if ve_dirty e then TM_SelfModified else TM_Updated,
          mkVisimapEntry (ve_data e) bitmap (ve_segmentFileNum e) (ve_firstRowNum e) true
            (ve_tupleTid e)) /\
    visimap_bitmap_wf bitmap /\ bms_val bitmap = Z.lor (bms_val (ve_bitmap e)) (2 ^ o).
Proof.
  intros (_ & Hb & _) Ht Hc o. destruct (CoversTuple_inv e t Ht Hc) as (_ & _ & _ & Ho).
  fold o in Ho. destruct (resize_covers (ve_bitmap e) o Hb Ho) as (ws & E & Hwf & Hv & Hw & Hl).
  unfold AppendOnlyVisimapEntry_HideTuple. fold (rowNum_of t).
  unfold AppendOnlyVisimapEntry_GetRownumOffset. fold o. unfold APPENDONLY_VISIMAP_MAX_RANGE in Ho.
  rewrite (s32_small o) by lia.
  destruct (bms_covers_member (ve_bitmap e) o) as [covers | |]; [| done..].
  cbn [mbind outcome_bind] in E |- *. injection E as ->.
  rewrite bms_is_member_ok by (done || lia). cbn [mbind outcome_bind bms_val]. rewrite Hv.
  unfold hidden. fold o. replace (ve_firstRowNum e <=? rowNum_of t) with true by lia. cbn [andb].
  destruct (Z.testbit (bms_val (ve_bitmap e)) o) eqn:Eb; cbn [negb mbind outcome_bind].
  - exists (Some ws). split_and!; [by destruct (ve_dirty e) | split; [done |] |].
    + by intros ? [= <-].
    + cbn [bms_val]. rewrite Hv. apply bits_ext. intros i Hi. rewrite testbit_setbit by lia.
      destruct (Z.eqb_spec i o) as [-> |]; [by rewrite Eb | by rewrite orb_false_r].
  - destruct (bms_add_member_ok (Some ws) o Hwf ltac:(lia)) as (r & Er & Hr & Hrv).
    destruct (bms_add_member_in_place ws o r ltac:(lia) Hw Er) as (ws' & -> & Hl').
    rewrite Er. cbn [mbind outcome_bind]. exists (Some ws'). split_and!; [done | split; [done |] |].
    + intros ? [= <-]. lia.
    + rewrite Hrv. cbn [bms_val]. by rewrite Hv.
Qed.

(** Members stay below the range of an entry. *)
Lemma visimap_bitmap_bound b : visimap_bitmap_wf b -> ubits (Z.of_nat (64 * 512)) (bms_val b).
Proof.
  intros [Hwf Hl]. destruct b as [ws |]; [| split; [done | vm_compute; done]].
  specialize (Hl ws eq_refl). change APPENDONLY_VISIMAP_MAX_BITMAP_WORD_COUNT with 512 in Hl.
  eapply ubits_mono; [| apply words_val_bound; exact Hwf]. lia.
Qed.

(** ** The on-disk form *)

Lemma u32_view_length ws : length (u32_view ws) = (2 * length ws)%nat.
Proof. unfold u32_view. induction ws as [| w ws IH]; [done |]. cbn [flat_map app length]. lia. Qed.

Lemma u32_view_wf ws : words_wf ws -> Forall (ubits 32) (u32_view ws).
Proof.
  intros H. unfold u32_view. induction H as [| w ws [Hw0 Hw1] _ IH]; cbn [flat_map app]; [constructor |].
  constructor; [apply u32_bound |]. constructor; [| done].
  rewrite Z.shiftr_div_pow2 by lia. unfold ubits. zlia.
Qed.

Lemma u64_u32_view ws : words_wf ws -> u64_view (u32_view ws) = ws.
Proof.
  intros H. unfold u32_view. induction H as [| w ws [Hw0 Hw1] _ IH]; cbn [flat_map app u64_view]; [done |].
  rewrite IH. f_equal. unfold u32. rewrite Z.shiftr_div_pow2 by lia. zlia.
Qed.

Lemma flat_map_replicate_0 n : u32_view (replicate n 0) = replicate (2 * n) 0.
Proof.
  unfold u32_view. induction n as [| n IH]; [done |]. cbn [replicate flat_map app].
  replace (2 * S n)%nat with (S (S (2 * n))) by lia. cbn [replicate]. by rewrite IH.
Qed.

(** The blocks written for a bitmap, and the memory they are read back into. *)
Lemma visimap_blocks ws :
  words_wf ws -> 1 <= zlen ws -> zlen ws <= 512 ->
  let '(n, _) := BitmapCompress_CalculateBlockCounts (Some ws) in
  exists us, mem_read (u32_view ws) 0 n = Ok us /\ zlen us = n /\ 1 <= n <= 1024 /\
    Forall (ubits 32) us /\
    exists k, (forall st, BitmapDecompress_GetBlockCount st = n ->
                 BitmapDecompress_CalculateBlockCounts st = (n, k)) /\
        (length us <= length (u32_view (replicate (Z.to_nat k) 0%Z)))%nat /\
        u64_view (us ++ drop (length us) (u32_view (replicate (Z.to_nat k) 0))) = ws.
Proof.
  intros Hwf Hl1 Hl2. pose proof (u32_view_wf ws Hwf) as Hu. pose proof (u32_view_length ws) as Hlen.
  unfold BitmapCompress_CalculateBlockCounts, zlen in *.
  unfold BitmapDecompress_CalculateBlockCounts.
  destruct ((Z.of_nat (length ws) =? 1) && match ws with w :: _ => Z.shiftr w 32 =? 0 | [] => false end) eqn:E1.
  - destruct ws as [| w [| ? ?]]; [done | | cbn [length] in E1; lia]. cbn [u32_view flat_map app] in *.
    exists [u32 w]. inversion_clear Hwf as [| ? ? [Hw0 Hw1] _]. inversion_clear Hu as [| ? ? Hu1 _].
    split_and!; [done | done | lia | lia | by constructor |]. exists 1.
    split_and!; [by intros st -> | simpl; lia |]. apply andb_true_iff in E1 as [_ E1].
    rewrite Z.shiftr_div_pow2 in E1 by lia.
    change (u64_view ([u32 w] ++ [0]) = [w]). cbn [app u64_view]. f_equal. unfold u32. zlia.
  - exists (u32_view ws). rewrite mem_read_ok by (unfold zlen; lia). rewrite drop_0, take_ge by lia.
    split_and!; [done | lia | lia | lia | done |]. exists (Z.of_nat (length ws)).
    rewrite flat_map_replicate_0, length_replicate. split_and!; [| lia |].
    { intros st ->. destruct (Z.eqb_spec (Z.of_nat (length ws) * 2) 1); [lia |].
      by rewrite Z.div_mul by lia. }
    rewrite drop_ge by (rewrite length_replicate; lia). rewrite app_nil_r. by apply u64_u32_view.
Qed.

(** A varlena that holds an encoding of the blocks of [ws] is read back as [ws]. *)
Lemma ReadData_encoding st0 e ws us n m d :
  words_wf ws -> 1 <= zlen ws -> zlen ws <= 512 ->
  BitmapCompress_CalculateBlockCounts (Some ws) = (n, m) ->
  mem_read (u32_view ws) 0 n = Ok us ->
  visimap_buffer_wf (ve_data e) -> 0 <= d <= zlen (vd_data (ve_data e)) ->
  bitmap_encoding us (vd_data (ve_data e)) d ->
  AppendOnlyVisiMapEnty_ReadData st0 e d =
  Ok (mkVisimapEntry (ve_data e) (Some ws) (ve_segmentFileNum e) (ve_firstRowNum e)
        (ve_dirty e) (ve_tupleTid e)).
Proof.
  intros Hwf Hl1 Hl2 En Eus [Hbl Hby] Hd Henc.
  pose proof (visimap_blocks ws Hwf Hl1 Hl2) as Hbk. rewrite En in Hbk.
  destruct Hbk as (us' & Eus' & Hus & Hn & Hu32 & Hback). rewrite Eus in Eus'. injection Eus' as <-.
  change (APPENDONLY_VISIMAP_DATA_BUFFER_SIZE - visimap_data_offset) with 4098 in Hbl.
  destruct Hback as (k & Hk & Hkl & Hkw).
  destruct (bitmap_encoding_decompress us (vd_data (ve_data e)) d st0 _ Henc Hu32
              ltac:(lia) Hd ltac:(lia) Hby Hkl) as (st & st' & (Ei & Eh & Ec) & Ed).
  unfold AppendOnlyVisiMapEnty_ReadData. rewrite Ei. cbn [mbind outcome_bind]. rewrite Eh.
  rewrite Hk by congruence. rewrite (proj2 (Z.ltb_lt 0 n)) by lia. rewrite Hus in Ed. rewrite Ed.
  cbn [mbind outcome_bind]. by rewrite Hkw.
Qed.

(** Writing a nonempty bitmap leaves an encoding of its blocks in the buffer. *)
Lemma WriteData_encoding e ws :
  visimap_buffer_wf (ve_data e) -> visimap_bitmap_wf (ve_bitmap e) -> ve_bitmap e = Some ws ->
  exists n m us c data,
    BitmapCompress_CalculateBlockCounts (Some ws) = (n, m) /\
    mem_read (u32_view ws) 0 n = Ok us /\
    AppendOnlyVisimapEntry_WriteData e =
      Ok (mkVisimapEntry (mkVisimapData (visimap_data_offset + c) 1 data) (Some ws)
            (ve_segmentFileNum e) (ve_firstRowNum e) (ve_dirty e) (ve_tupleTid e)) /\
    2 <= c <= zlen data /\ visimap_buffer_wf (mkVisimapData (visimap_data_offset + c) 1 data) /\
    bitmap_encoding us data c.
Proof.
  intros [Hbl Hby] [Hwf Hlen] Eb. specialize (Hlen ws Eb). rewrite Eb in Hwf.
  change APPENDONLY_VISIMAP_MAX_BITMAP_WORD_COUNT with 512 in Hlen.
  pose proof (visimap_blocks ws Hwf ltac:(lia) ltac:(lia)) as Hbk.
  destruct (BitmapCompress_CalculateBlockCounts (Some ws)) as [n m] eqn:En.
  destruct Hbk as (us & Eus & Hus & Hn & Hu32 & _).
  change (APPENDONLY_VISIMAP_DATA_BUFFER_SIZE - visimap_data_offset) with 4098 in Hbl.
  destruct (Bitmap_Compress_ok us (vd_data (ve_data e)) (4 * n + 2)) as (c & data & Ec & Hc & Hl & Hd & Henc);
    [split_and!; (done || lia) | lia | done |].
  exists n, m, us, c, data. unfold AppendOnlyVisimapEntry_WriteData. rewrite Eb, En, Eus.
  cbn [mbind outcome_bind]. unfold BITMAP_COMPRESSION_HEADER_SIZE. rewrite Ec.
  unfold visimap_buffer_wf. cbn [vd_data].
  change (APPENDONLY_VISIMAP_DATA_BUFFER_SIZE - visimap_data_offset) with 4098.
  unfold zlen in *. split_and!; (done || lia).
Qed.

Lemma s32_seg seg first : visimap_range_wf seg first -> s32 seg = seg.
Proof.
  unfold visimap_range_wf, AOTupleId_MaxSegmentFileNum. intros. apply s32_small. lia.
Qed.

(** ** Properties *)

(** C33: Deleting a covered row: [AppendOnlyVisimapEntry_HideTuple] succeeds,
    reports [TM_Ok] exactly when the row was visible (otherwise
    [TM_SelfModified] when the entry was already changed by this command and
    [TM_Updated] when not), hides that row and no other, leaves a well-formed
    entry of at most 512 words that is marked as changed, and adds one to the
    hidden tuple count exactly when the row was visible. *)
Theorem visimap_hide_tuple (e : AppendOnlyVisimapEntry) (t : AOTupleId) :
  visimap_entry_wf e -> aotid_wf t -> AppendOnlyVisimapEntry_CoversTuple e t = true ->
  exists was result e',
    AppendOnlyVisimapEntry_IsVisible e t = Ok was /\
    AppendOnlyVisimapEntry_HideTuple e t = Ok (result, e') /\
    result = (if was : bool then TM_Ok else if ve_dirty e then TM_SelfModified else TM_Updated) /\
    AppendOnlyVisimapEntry_HasChanged e' = true /\ visimap_entry_wf e' /\
    AppendOnlyVisimapEntry_GetHiddenTupleCount e' =
      AppendOnlyVisimapEntry_GetHiddenTupleCount e + (if was : bool then 1 else 0) /\
    forall t', aotid_wf t' ->
      AppendOnlyVisimapEntry_CoversTuple e' t' = AppendOnlyVisimapEntry_CoversTuple e t' /\
      (AppendOnlyVisimapEntry_CoversTuple e t' = true ->
       AppendOnlyVisimapEntry_IsVisible e' t' =
       if rowNum_of t' =? rowNum_of t then Ok false else AppendOnlyVisimapEntry_IsVisible e t').
Proof.
  intros He Ht Hc. pose proof (HideTuple_bitmap e t He Ht Hc) as (bitmap & E & Hb & Hv).
  pose proof He as (Hbuf & Hbm & Hr). destruct (CoversTuple_inv e t Ht Hc) as (_ & Hf & _ & Ho).
  exists (negb (hidden e (rowNum_of t))). do 2 eexists. rewrite visible_hidden by done.
  set (e' := mkVisimapEntry _ _ _ _ _ _) in E. assert (He' : visimap_entry_wf e') by done.
  split_and!; [done | exact E | by destruct (hidden _ _) | done | done | |].
  - unfold AppendOnlyVisimapEntry_GetHiddenTupleCount. cbn [ve_bitmap e'].
    rewrite !(bms_num_members_ones _ (64 * 512)) by
      (apply Hb || apply Hbm || by apply visimap_bitmap_bound). rewrite Hv.
    unfold hidden. replace (ve_firstRowNum e <=? rowNum_of t) with true by lia. cbn [andb].
    unfold APPENDONLY_VISIMAP_MAX_RANGE in Ho.
    destruct (Z.testbit (bms_val (ve_bitmap e)) _) eqn:Eb; cbn [negb].
    + rewrite Z.add_0_r. apply ones_ext. intros j Hj. rewrite testbit_setbit by lia.
      destruct (Z.eqb_spec j (rowNum_of t - ve_firstRowNum e)) as [-> |]; [by rewrite Eb | by rewrite orb_false_r].
    + apply ones_setbit; [lia | done].
  - intros t' Ht'. split; [done |]. intros Hc'.
    destruct (CoversTuple_inv e t' Ht' Hc') as (_ & _ & _ & Ho').
    rewrite !visible_hidden by done. unfold hidden. cbn [ve_bitmap ve_firstRowNum e'].
    replace (ve_firstRowNum e <=? rowNum_of t') with true by lia. cbn [andb].
    rewrite Hv, testbit_setbit by lia.
    destruct (Z.eqb_spec (rowNum_of t') (rowNum_of t)) as [-> | Hne].
    + by rewrite Z.eqb_refl, orb_true_r.
    + replace (_ - _ =? _) with false by lia. by rewrite orb_false_r.
Qed.

(** A new entry for row 70000 of segment file 3. *)
Definition visimap_example : AppendOnlyVisimapEntry :=
  AppendOnlyVisimapEntry_New
    (AppendOnlyVisimapEntry_Init (mkVisimapEntry (mkVisimapData 0 0 []) None 0 0 false ItemPointerSetInvalid))
    (AOTupleIdInit 3 70000).

Lemma visimap_example_wf : visimap_entry_wf visimap_example.
Proof.
  split_and!.
  - split; [reflexivity | apply Forall_replicate; unfold ubits; lia].
  - split; [exact I | discriminate].
  - right. change (ve_segmentFileNum visimap_example) with 3. change (ve_firstRowNum visimap_example) with 65536.
    unfold AOTupleId_MaxSegmentFileNum, APPENDONLY_VISIMAP_MAX_RANGE, AOTupleId_MaxRowNum. zlia.
Qed.

Lemma visimap_hide_tuple_witness :
  exists e', AppendOnlyVisimapEntry_HideTuple visimap_example (AOTupleIdInit 3 70000) = Ok (TM_Ok, e').
Proof.
  destruct (visimap_hide_tuple visimap_example (AOTupleIdInit 3 70000))
    as (was & result & e' & E1 & E2 & E3 & _).
  - apply visimap_example_wf.
  - split_and!; vm_compute; done || (split; discriminate || reflexivity).
  - reflexivity.
  - exists e'. rewrite E2, E3. vm_compute in E1. injection E1 as <-. reflexivity.
Defined.

(** What is written is read back: persisting a valid entry succeeds and marks
    it clean, and copying the resulting tuple out into any entry with a data
    buffer gives an entry for the same segment file and first row that hides
    exactly the same rows. *)
Theorem visimap_write_copyout (e e0 : AppendOnlyVisimapEntry) (st0 : BitmapDecompressState) :
  visimap_entry_wf e -> AppendOnlyVisimapEntry_IsValid e = true ->
  visimap_buffer_wf (ve_data e0) ->
  exists e1 tup e2,
    AppendOnlyVisimapEntry_Write e = Ok (e1, tup) /\
    visimap_entry_wf e1 /\ AppendOnlyVisimapEntry_HasChanged e1 = false /\
    AppendOnlyVisimapEntry_Copyout st0 e0 tup = Ok e2 /\
    visimap_entry_wf e2 /\
    ve_segmentFileNum e2 = ve_segmentFileNum e /\ ve_firstRowNum e2 = ve_firstRowNum e /\
    AppendOnlyVisimapEntry_GetHiddenTupleCount e2 = AppendOnlyVisimapEntry_GetHiddenTupleCount e /\
    forall row, hidden e2 row = hidden e row.
Proof.
  intros (Hbuf & Hbm & Hr) Hvalid Hbuf0. pose proof (s32_seg _ _ Hr) as Hseg.
  unfold AppendOnlyVisimapEntry_Write. rewrite bms_is_empty_ok by apply Hbm.
  destruct (Z.eqb_spec (bms_val (ve_bitmap e)) 0) as [Ez | Ez].
  - do 3 eexists. split_and!; [reflexivity | done | done | reflexivity | ..];
      cbn [ve_segmentFileNum ve_firstRowNum]; rewrite ?Hseg; try done.
    + unfold AppendOnlyVisimapEntry_GetHiddenTupleCount. cbn [ve_bitmap].
      rewrite (bms_num_members_ones (ve_bitmap e) 0), Ez; [done | apply Hbm |].
      rewrite Ez. unfold ubits. simpl. lia.
    + intros row. unfold hidden. cbn [ve_bitmap ve_firstRowNum bms_val]. by rewrite Ez.
  - destruct (ve_bitmap e) as [ws |] eqn:Eb; [| done]. rewrite <- Eb in Hbm.
    destruct (WriteData_encoding e ws Hbuf Hbm Eb) as (n & m & us & c & data & En & Eus & Ew & Hc & Hd & Henc).
    rewrite Ew. cbn [mbind outcome_bind ve_data ve_bitmap ve_segmentFileNum ve_firstRowNum ve_tupleTid].
    pose proof Hbm as [Hwf Hlen]. specialize (Hlen ws Eb). rewrite Eb in Hwf, Hbm.
    change APPENDONLY_VISIMAP_MAX_BITMAP_WORD_COUNT with 512 in Hlen.
    destruct Hd as [Hdl Hdb]. destruct Hbuf0 as [Hl0 Hb0]. cbn [vd_data] in Hdl, Hdb.
    change (APPENDONLY_VISIMAP_DATA_BUFFER_SIZE - visimap_data_offset) with 4098 in *.
    set (data2 := take (Z.to_nat c) data ++ drop (Z.to_nat c) (vd_data (ve_data e0))).
    assert (Hl2 : zlen data2 = 4098).
    { unfold data2, zlen in *. rewrite length_app, length_take, length_drop. lia. }
    set (e2 := mkVisimapEntry (mkVisimapData (visimap_data_offset + c) 1 data2) (Some ws)
                 (ve_segmentFileNum e) (ve_firstRowNum e) (ve_dirty e0) (ve_tupleTid e0)).
    assert (Hbuf2 : visimap_buffer_wf (ve_data e2)).
    { split; [exact Hl2 |]. apply Forall_app. split; [by apply Forall_take | by apply Forall_drop]. }
    eexists _, _, e2. split_and!; [reflexivity | done | done | | done | done | done | | ].
    + unfold AppendOnlyVisimapEntry_Copyout. cbn [avt_segno avt_firstrownum avt_visimap
        AppendOnlyVisimap_GetAttrNotNull mbind outcome_bind vd_len vd_data vd_version].
      replace (visimap_data_offset + c - visimap_data_offset) with c by lia.
      rewrite mem_read_ok by lia. cbn [mbind outcome_bind]. change (Z.to_nat 0) with 0%nat.
      rewrite drop_0. assert (Hlt : length (take (Z.to_nat c) data) = Z.to_nat c)
        by (rewrite length_take; unfold zlen in *; lia).
      rewrite mem_write_ok by (unfold zlen in *; lia). cbn [mbind outcome_bind].
      rewrite Hlt, Nat.add_0_l, Hseg. change (take (Z.to_nat 0) _) with (@nil Z). cbn [app].
      fold data2. rewrite (ReadData_encoding st0 _ ws us n m c); try done; cbn [ve_data vd_data]; try lia.
      eapply bitmap_encoding_take; [| exact Henc]. unfold data2.
      by rewrite take_app_length'.
    + unfold AppendOnlyVisimapEntry_GetHiddenTupleCount. by rewrite Eb.
    + intros row. unfold hidden. by rewrite Eb.
Qed.

(** The same entry with three hidden rows. *)
Definition visimap_example_hidden : AppendOnlyVisimapEntry :=
  mkVisimapEntry (ve_data visimap_example) (Some [5; 0; 0; 2 ^ 63]) 3 65536 true ItemPointerSetInvalid.

Lemma visimap_example_hidden_wf : visimap_entry_wf visimap_example_hidden.
Proof.
  destruct visimap_example_wf as (H1 & _ & H3). split_and!; [exact H1 | | exact H3].
  split; [wf_words |]. intros ws [= <-]. vm_compute. split; discriminate.
Qed.

Lemma visimap_write_copyout_witness :
  exists e1 tup e2, AppendOnlyVisimapEntry_Write visimap_example_hidden = Ok (e1, tup) /\
    AppendOnlyVisimapEntry_GetHiddenTupleCount e2 = 3.
Proof.
  destruct (visimap_write_copyout visimap_example_hidden visimap_example
              (mkBitmapDecompressState (Bitstream_Init [] 0) 0 0))
    as (e1 & tup & e2 & E & _ & _ & _ & _ & _ & _ & Ec & _).
  - apply visimap_example_hidden_wf.
  - reflexivity.
  - apply (proj1 visimap_example_wf).
  - exists e1, tup, e2. split; [exact E |]. rewrite Ec. vm_compute. reflexivity.
Defined.

(** The size a bitmap is enlarged to is the smallest power of two of words
    that covers the offset, and stays within 512 words for every offset of an
    entry. *)
Theorem visimap_minimal_size (offset : Z) :
  0 <= offset -> offset / 64 < 2 ^ 31 ->
  AppendOnlyVisimapEntry_GetMinimalSizeToCover offset = 2 ^ Z.log2_up (offset / 64 + 1) /\
  (offset < APPENDONLY_VISIMAP_MAX_RANGE ->
   AppendOnlyVisimapEntry_GetMinimalSizeToCover offset <= APPENDONLY_VISIMAP_MAX_BITMAP_WORD_COUNT).
Proof.
  intros H0 H1. rewrite GetMinimalSizeToCover_log2 by done. split; [done |].
  unfold APPENDONLY_VISIMAP_MAX_RANGE. intros H2.
  change APPENDONLY_VISIMAP_MAX_BITMAP_WORD_COUNT with (2 ^ Z.log2_up 512).
  apply Z.pow_le_mono_r; [lia |]. apply Z.log2_up_le_mono. zlia.
Qed.

Lemma visimap_minimal_size_witness : AppendOnlyVisimapEntry_GetMinimalSizeToCover 1000 = 16.
Proof. destruct (visimap_minimal_size 1000) as [E _]; [lia | zlia |]. rewrite E. reflexivity. Defined.

(** Enumerating the hidden rows of an entry: [AppendOnlyVisimapEntry_GetNextInvisible]
    moves the identifier to the next hidden row after it (the first hidden row
    when the identifier is outside the entry), in increasing order and without
    skipping any, and returns false, leaving the identifier alone, exactly when
    no hidden row follows. *)
Theorem visimap_next_invisible (e : AppendOnlyVisimapEntry) (t : AOTupleId) :
  visimap_entry_wf e -> AppendOnlyVisimapEntry_IsValid e = true -> aotid_wf t ->
  let from := if AppendOnlyVisimapEntry_CoversTuple e t then rowNum_of t else ve_firstRowNum e - 1 in
  let '(found, t') := AppendOnlyVisimapEntry_GetNextInvisible e t in
  if found : bool then
    aotid_wf t' /\ AOTupleIdGet_segmentFileNum t' = ve_segmentFileNum e /\
    from < rowNum_of t' < ve_firstRowNum e + APPENDONLY_VISIMAP_MAX_RANGE /\
    hidden e (rowNum_of t') = true /\
    forall row, from < row < rowNum_of t' -> hidden e row = false
  else t' = t /\ forall row, from < row -> hidden e row = false.
Proof.
  intros (_ & Hbm & Hr) Hvalid Ht from. unfold AppendOnlyVisimapEntry_GetNextInvisible.
  fold (rowNum_of t). unfold AppendOnlyVisimapEntry_GetRownumOffset.
  pose proof (CoversTuple_inv e t Ht) as Hc. unfold AppendOnlyVisimapEntry_IsValid in Hvalid.
  unfold visimap_range_wf, APPENDONLY_VISIMAP_MAX_RANGE in *.
  set (cur := if AppendOnlyVisimapEntry_CoversTuple e t then rowNum_of t - ve_firstRowNum e else -1).
  assert (Hcur : cur = from - ve_firstRowNum e /\ -1 <= cur < 32768).
  { unfold cur, from. destruct (AppendOnlyVisimapEntry_CoversTuple e t); [specialize (Hc eq_refl) |]; lia. }
  rewrite s32_small by lia. pose proof (visimap_bitmap_bound _ Hbm) as Hbd.
  destruct (bms_next_member_ok (ve_bitmap e) cur) as [[-> Hnone] | (Hlt & Hbit & Hmin)];
    [apply Hbm | lia | |].
  { split; [done |]. intros row Hrow. unfold hidden.
    rewrite Hnone by lia. apply andb_false_r. }
  set (r := bms_next_member _ _) in *. rewrite (proj2 (Z.leb_le 0 r)) by lia.
  assert (Hr32 : r < 32768).
  { destruct (Z_lt_le_dec r 32768); [done |]. rewrite (ubits_testbit _ _ r Hbd) in Hbit; [done | lia]. }
  assert (Hok : aotid_ok (ve_segmentFileNum e) (ve_firstRowNum e + r)) by (unfold aotid_ok; lia).
  unfold aotid_ok, AOTupleId_MaxSegmentFileNum, AOTupleId_MaxRowNum in Hok.
  rewrite u16_small, u64_small by lia.
  destruct (AOTupleId_get_init _ _ Hok) as (H1 & H2 & H3). pose proof (rowNum_of_bound _ H3) as [_ Hrn].
  rewrite H2 in Hrn. rewrite H1, Hrn. unfold hidden.
  replace (ve_firstRowNum e + r - ve_firstRowNum e) with r by lia. rewrite Hbit.
  split_and!; try done; try lia. intros row Hrow.
  destruct (Z.leb_spec (ve_firstRowNum e) row); [| done]. apply Hmin. lia.
Qed.

Lemma visimap_next_invisible_witness :
  let r := AppendOnlyVisimapEntry_GetNextInvisible visimap_example_hidden (AOTupleIdInit 3 65539) in
  fst r = true /\ hidden visimap_example_hidden (rowNum_of (snd r)) = true.
Proof.
  assert (Ht : aotid_wf (AOTupleIdInit 3 65539))
    by (split_and!; vm_compute; done || (split; discriminate || reflexivity)).
  pose proof (visimap_next_invisible visimap_example_hidden _ visimap_example_hidden_wf eq_refl Ht) as E.
  cbv zeta. assert (F : fst (AppendOnlyVisimapEntry_GetNextInvisible visimap_example_hidden
                               (AOTupleIdInit 3 65539)) = true) by (vm_compute; reflexivity).
  destruct (AppendOnlyVisimapEntry_GetNextInvisible visimap_example_hidden (AOTupleIdInit 3 65539))
    as [found t']. cbn [fst snd] in *. subst found. cbv zeta in E. split; [reflexivity | apply E].
Defined.

(** Entries partition the rows: a new entry for an identifier is well-formed
    and covers exactly the identifiers of the same segment file whose row number
    has the same quotient by 32768, all of them visible. *)
Theorem visimap_new_entry (e : AppendOnlyVisimapEntry) (t t' : AOTupleId) :
  visimap_buffer_wf (ve_data e) -> aotid_wf t -> aotid_wf t' ->
  let e' := AppendOnlyVisimapEntry_New e t in
  visimap_entry_wf e' /\ AppendOnlyVisimapEntry_IsValid e' = true /\
  AppendOnlyVisimapEntry_CoversTuple e' t = true /\
  AppendOnlyVisimapEntry_CoversTuple e' t' =
    (AOTupleIdGet_segmentFileNum t =? AOTupleIdGet_segmentFileNum t') &&
    (rowNum_of t / APPENDONLY_VISIMAP_MAX_RANGE =? rowNum_of t' / APPENDONLY_VISIMAP_MAX_RANGE) /\
  AppendOnlyVisimapEntry_IsVisible e' t' = Ok true.
Proof.
  intros Hbuf Ht Ht' e'. destruct (rowNum_of_bound t Ht) as [Hr _].
  destruct (rowNum_of_bound t' Ht') as [Hr' _]. pose proof Ht as (Hb & _ & _).
  assert (Hseg : 0 <= AOTupleIdGet_segmentFileNum t <= 127).
  { rewrite AOTupleIdGet_segmentFileNum_arith by done. unfold ubits in Hb. zlia. }
  assert (Hf : ve_firstRowNum e' = rowNum_of t / 32768 * 32768).
  { unfold e', AppendOnlyVisimapEntry_New, AppendOnlyVisimapEntry_GetFirstRowNum,
      APPENDONLY_VISIMAP_MAX_RANGE. cbn [ve_firstRowNum]. fold (rowNum_of t).
    by rewrite Z.quot_div_nonneg by lia. }
  assert (Hs : ve_segmentFileNum e' = AOTupleIdGet_segmentFileNum t) by done.
  assert (Hcov : forall u, 0 <= rowNum_of u -> AppendOnlyVisimapEntry_CoversTuple e' u =
    (AOTupleIdGet_segmentFileNum t =? AOTupleIdGet_segmentFileNum u) &&
    (rowNum_of t / 32768 =? rowNum_of u / 32768)).
  { intros u Hu. unfold AppendOnlyVisimapEntry_CoversTuple, AppendOnlyVisimapEntry_IsValid,
      APPENDONLY_VISIMAP_MAX_RANGE. fold (rowNum_of u). rewrite Hf, Hs.
    replace ((0 <=? AOTupleIdGet_segmentFileNum t) && (0 <=? rowNum_of t / 32768 * 32768)) with true by zlia.
    cbn [negb]. destruct (AOTupleIdGet_segmentFileNum t =? _); cbn [negb andb]; [| done]. zlia. }
  unfold APPENDONLY_VISIMAP_MAX_RANGE. rewrite !Hcov by lia. rewrite !Z.eqb_refl.
  split_and!; try done.
  - split_and!; [done | by split |]. right. rewrite Hf, Hs.
    unfold AOTupleId_MaxSegmentFileNum, APPENDONLY_VISIMAP_MAX_RANGE, AOTupleId_MaxRowNum. zlia.
  - unfold AppendOnlyVisimapEntry_IsValid. rewrite Hf, Hs. zlia.
Qed.

Lemma visimap_new_entry_witness :
  AppendOnlyVisimapEntry_IsVisible
    (AppendOnlyVisimapEntry_New visimap_example_hidden (AOTupleIdInit 3 65539)) (AOTupleIdInit 3 65540)
  = Ok true.
Proof.
  apply (visimap_new_entry visimap_example_hidden (AOTupleIdInit 3 65539) (AOTupleIdInit 3 65540)).
  - apply (proj1 visimap_example_wf).
  - split_and!; vm_compute; done || (split; discriminate || reflexivity).
  - split_and!; vm_compute; done || (split; discriminate || reflexivity).
Defined.
