(* ===== verification/GddTheory.v ===== *)
(** * Wait-for graphs and their reduction

    The abstract contract of the global deadlock detector (see
    src/backend/utils/gdd/README.md and gdddetector.c).  A wait-for graph is a
    list of edges, each on a segment, from the waiting to the awaited
    transaction, solid or dotted.  Two notions are related here:

    - the reduction of the detector, which removes the edges of a transaction
      that nobody waits for or that waits for nobody on any segment, and the
      dotted edges to a transaction that waits for nobody on their segment;
    - what the transactions can do on their own: one that waits for nobody ends,
      and releases every lock; one that waits for nobody on a segment may
      release the locks of the dotted edges there.  A graph that this can empty
      has no deadlock. *)

From stdpp Require Import relations.
From S2P Require Import Prelude.

(** The graph without one edge. *)
Definition without {E} `{!EqDecision E} (e : E) (G : list E) : list E :=
  filter (fun e' => e' <> e) G.

Lemma elem_of_without {E} `{!EqDecision E} (e e' : E) G :
  e' ∈ without e G <-> e' ∈ G /\ e' <> e.
Proof. unfold without. rewrite list_elem_of_filter. tauto. Qed.

Lemma without_length {E} `{!EqDecision E} (e : E) G :
  e ∈ G -> (length (without e G) < length G)%nat.
Proof. intros He. apply length_filter_lt with e; [done |]. by intros []. Qed.

Lemma Forall_subset {E} (P : E -> Prop) (F G : list E) : F ⊆ G -> Forall P G -> Forall P F.
Proof. rewrite !Forall_forall. auto. Qed.

Section WaitFor.
  Context {E : Type} `{!EqDecision E}.
  Context (seg from to : E -> Z) (solid : E -> bool).

Implicit Types (G F : list E) (e : E).

Definition no_in G (v : Z) : Prop := Forall (fun e => to e <> v) G.
Definition no_out G (v : Z) : Prop := Forall (fun e => from e <> v) G.
Definition no_local_out G (s v : Z) : Prop := Forall (fun e => from e = v -> seg e <> s) G.

(** The lock an edge waits for can be released. *)
Definition releasable G e : Prop :=
  no_out G (to e) \/ (solid e = false /\ no_local_out G (seg e) (to e)).

(** The detector may remove the edge. *)
Definition removable G e : Prop := no_in G (from e) \/ releasable G e.

(** One edge is removed according to a rule. *)
Definition rule_step (rule : list E -> E -> Prop) G G' : Prop :=
  exists e, e ∈ G /\ rule G e /\ G' = without e G.

Definition reduces : list E -> list E -> Prop := rtc (rule_step removable).
Definition progresses : list E -> list E -> Prop := rtc (rule_step releasable).

Definition stuck (rule : list E -> E -> Prop) G : Prop := forall e, e ∈ G -> ~ rule G e.

(** All waits can be resolved. *)
Definition deadlock_free G : Prop := progresses G [].

#[export] Instance no_in_dec G v : Decision (no_in G v).
Proof. apply _. Defined.
#[export] Instance no_out_dec G v : Decision (no_out G v).
Proof. apply _. Defined.
#[export] Instance no_local_out_dec G s v : Decision (no_local_out G s v).
Proof. apply _. Defined.
#[export] Instance releasable_dec G e : Decision (releasable G e).
Proof. apply _. Defined.
#[export] Instance removable_dec G e : Decision (removable G e).
Proof. apply _. Defined.

(** Rules only become easier to apply in a smaller graph. *)
Lemma releasable_mono F G e : F ⊆ G -> releasable G e -> releasable F e.
Proof.
  intros HF [H | [Hs H]]; [left | right; split; [done |]]; by eapply Forall_subset.
Qed.

Lemma removable_mono F G e : F ⊆ G -> removable G e -> removable F e.
Proof.
  intros HF [H | H]; [left; by eapply Forall_subset | right; by eapply releasable_mono].
Qed.

Definition monotone (rule : list E -> E -> Prop) : Prop :=
  forall F G e, F ⊆ G -> rule G e -> rule F e.

(** A stuck part of the graph survives every step. *)
Lemma stuck_survives_step rule F G G' :
  monotone rule -> F ⊆ G -> stuck rule F -> rule_step rule G G' -> F ⊆ G'.
Proof.
  intros Hm HF Hs (e & He & Hr & ->) e' He'. apply elem_of_without. split; [by apply HF |].
  intros ->. apply (Hs e He'). by eapply Hm.
Qed.

Lemma stuck_survives rule F G G' :
  monotone rule -> F ⊆ G -> stuck rule F -> rtc (rule_step rule) G G' -> F ⊆ G'.
Proof.
  intros Hm HF Hs H. induction H as [| G1 G2 G3 H12 _ IH]; [done |].
  apply IH. by eapply stuck_survives_step.
Qed.

Lemma rule_step_subset rule G G' : rule_step rule G G' -> G' ⊆ G.
Proof. intros (e & _ & _ & ->) e' He'. by apply elem_of_without in He' as [? _]. Qed.

Lemma rtc_rule_subset rule G G' : rtc (rule_step rule) G G' -> G' ⊆ G.
Proof.
  induction 1 as [| G1 G2 G3 H _ IH]; [done |].
  intros e He. by eapply rule_step_subset, IH.
Qed.

(** Every graph can be taken to a stuck one. *)
Lemma stuck_exists rule `{!forall G e, Decision (rule G e)} G :
  exists G', rtc (rule_step rule) G G' /\ stuck rule G'.
Proof.
  remember (length G) as n eqn:En. revert G En.
  induction (lt_wf n) as [n _ IH]. intros G ->.
  destruct (decide (Exists (rule G) G)) as [Hex | Hno].
  - apply Exists_exists in Hex as (e & He & Hr).
    destruct (IH (length (without e G)) (without_length e G He) (without e G) eq_refl)
      as (G' & H1 & H2).
    exists G'. split; [| done]. eapply rtc_l; [| exact H1]. by exists e.
  - exists G. split; [done |]. intros e He Hr. apply Hno, Exists_exists. eauto.
Qed.

Lemma no_in_elem F v e : no_in F v -> e ∈ F -> to e <> v.
Proof. unfold no_in. rewrite Forall_forall. auto. Qed.

(** A graph whose waits cannot be resolved stays so without the edges of a
    transaction nobody waits for. *)
Lemma drop_sources_stuck F v :
  stuck releasable F -> no_in F v -> stuck releasable (filter (fun e => from e <> v) F).
Proof.
  intros Hs Hin e He Hr. apply list_elem_of_filter in He as [Hv He]. apply (Hs e He).
  assert (Hto : to e <> v) by (by eapply no_in_elem).
  destruct Hr as [H | [Hsol H]]; [left | right; split; [done |]]; apply Forall_forall;
    intros e' He'; destruct (decide (from e' = v)) as [Ev | Ev]; try congruence;
    unfold no_out, no_local_out in H; rewrite Forall_forall in H; apply H;
    by apply list_elem_of_filter.
Qed.

Lemma drop_sources_nonempty F v :
  stuck releasable F -> no_in F v -> F <> [] -> filter (fun e => from e <> v) F <> [].
Proof.
  intros Hs Hin Hne. assert (exists e, e ∈ F) as [e He]
    by (destruct F as [| e F0]; [done | exists e; left]).
  destruct (decide (no_out F (to e))) as [H | H]; [by destruct (Hs e He); left |].
  apply not_Forall_Exists in H; [| apply _]. apply Exists_exists in H as (e' & He' & Hf).
  assert (Hto : to e <> v) by (by eapply no_in_elem).
  assert (Hin' : e' ∈ filter (fun e => from e <> v) F).
  { apply list_elem_of_filter. split; [| done]. intros Hv. apply Hf. congruence. }
  intros E0. rewrite E0 in Hin'. by apply not_elem_of_nil in Hin'.
Qed.

(** A graph with unresolvable waits has a part that the detector cannot remove. *)
Lemma stuck_core F :
  stuck releasable F -> F <> [] -> exists C, C ⊆ F /\ C <> [] /\ stuck removable C.
Proof.
  remember (length F) as n eqn:En. revert F En.
  induction (lt_wf n) as [n _ IH]. intros F -> Hs Hne.
  destruct (decide (Exists (fun e => no_in F (from e)) F)) as [Hex | Hno].
  - apply Exists_exists in Hex as (e & He & Hin). set (F' := filter (fun e' => from e' <> from e) F).
    assert (Hlt : (length F' < length F)%nat).
    { apply length_filter_lt with e; [done |]. by intros []. }
    destruct (IH _ Hlt F' eq_refl) as (C & HC & HCne & HCs).
    + by apply drop_sources_stuck.
    + by apply drop_sources_nonempty.
    + exists C. split_and!; [| done | done]. intros x Hx. apply HC in Hx.
      by apply list_elem_of_filter in Hx as [_ ?].
  - exists F. split_and!; [done | done |]. intros e He [H | H]; [| by apply (Hs e)].
    apply Hno, Exists_exists. eauto.
Qed.

(** The result of the detector: the largest part it cannot remove. *)
Theorem reduces_largest G G' F :
  reduces G G' -> F ⊆ G -> stuck removable F -> F ⊆ G'.
Proof. intros H HF Hs. eapply stuck_survives; eauto. exact removable_mono. Qed.

(** Nothing is left exactly when there is no deadlock. *)
Theorem reduces_empty_iff G G' :
  reduces G G' -> stuck removable G' -> (G' = [] <-> deadlock_free G).
Proof.
  intros Hr Hs. split.
  - intros ->. destruct (stuck_exists releasable G) as (F & HF & HFs).
    destruct (decide (F = [])) as [-> | Hne]; [done |]. exfalso.
    destruct (stuck_core F HFs Hne) as (C & HC & HCne & HCs).
    assert (HCG : C ⊆ G) by (intros e He; eapply rtc_rule_subset; [exact HF | by apply HC]).
    pose proof (reduces_largest G [] C Hr HCG HCs) as H0.
    destruct C as [| e C]; [done |]. by apply (not_elem_of_nil e), H0; left.
  - intros Hd. assert (HG' : G' ⊆ []).
    { eapply (stuck_survives releasable); [exact releasable_mono | | | exact Hd].
      - by eapply rtc_rule_subset.
      - intros e He Hrel. apply (Hs e He). by right. }
    destruct G' as [| e G']; [done |]. exfalso. by apply (not_elem_of_nil e), HG'; left.
Qed.

(** Cancelling transactions: their edges disappear. *)
Definition cancel (vs : list Z) G : list E := filter (fun e => (from e ∉ vs) /\ (to e ∉ vs)) G.

(** If reducing after cancelling one transaction after the other ends with no
    edge, cancelling all of them resolves the deadlocks. *)
Inductive breaks : list E -> list Z -> list E -> Prop :=
| breaks_done G : breaks G [] G
| breaks_cancel G v G1 vs G2 :
    reduces (cancel [v] G) G1 -> breaks G1 vs G2 -> breaks G (v :: vs) G2.

Lemma breaks_survives G vs G' F :
  breaks G vs G' -> F ⊆ cancel vs G -> stuck removable F -> F ⊆ G'.
Proof.
  induction 1 as [G | G v G1 vs G2 Hr _ IH]; intros HF Hs.
  - intros e He. specialize (HF e He). by apply list_elem_of_filter in HF as [_ ?].
  - apply IH; [| done]. intros e He. pose proof (HF e He) as He1.
    apply list_elem_of_filter in He1 as [[Hf Ht] He1].
    apply list_elem_of_filter. rewrite not_elem_of_cons in Hf, Ht. split; [tauto |].
    eapply reduces_largest; [exact Hr | | exact Hs | exact He].
    intros e' He'. specialize (HF e' He'). apply list_elem_of_filter in HF as [[Hf' Ht'] HG].
    apply list_elem_of_filter. rewrite not_elem_of_cons in Hf', Ht'.
    rewrite !list_elem_of_singleton. split; [tauto | done].
Qed.

Theorem breaks_deadlock_free G G1 vs :
  reduces G G1 -> breaks G1 vs [] -> deadlock_free (cancel vs G).
Proof.
  intros Hr Hb. destruct (stuck_exists removable (cancel vs G)) as (F & HF & HFs).
  rewrite <- (reduces_empty_iff _ F) by done.
  assert (HFc : F ⊆ cancel vs G) by by eapply rtc_rule_subset.
  assert (HFG : F ⊆ G1).
  { eapply reduces_largest; [exact Hr | | exact HFs]. intros e He. apply HFc in He.
    by apply list_elem_of_filter in He as [_ ?]. }
  assert (H0 : F ⊆ []).
  { eapply breaks_survives; [exact Hb | | exact HFs]. intros e He.
    pose proof (HFc e He) as Hc. apply list_elem_of_filter in Hc as [? _].
    apply list_elem_of_filter. split; [done | by apply HFG]. }
  destruct F as [| e F]; [done |]. exfalso. by apply (not_elem_of_nil e), H0; left.
Qed.
End WaitFor.
