(* ===== verification/GddDetector.v ===== *)
(** * The global deadlock detector

    Models src/backend/utils/gdd/gdddetector.c and gdddetectorpriv.h.  Every
    segment contributes a local wait-for graph; a vertex is a distributed
    transaction, an edge says that one transaction waits for another, solid when
    the wait lasts until the end of the other transaction and dotted when the
    lock may be released earlier.

    Structures that the code shares through pointers are found by their keys: a
    vertex by its segment and transaction id, the statistics of a transaction by
    its id.  Edges are never changed once made; each one carries its address
    [ed_addr], which is what [list_delete_ptr] compares.  An access to a
    structure that does not exist is [Ub].  The [while] loops take fuel. *)

From stdpp Require Import relations sorting.
From S2P Require Import Prelude GddTheory.

(** ** Maps *)

(** [pairs] holds the pairs up to [length]; the capacity is that of the array. *)
Record GddMap (A : Type) := mkGddMap { m_pairs : list (Z * A); m_capacity : Z }.
Arguments mkGddMap {A} _ _.
Arguments m_pairs {A} _.
Arguments m_capacity {A} _.

Definition m_length {A} (m : GddMap A) : Z := zlen (m_pairs m).

Definition gddMapInit {A} : GddMap A := mkGddMap [] 4.

Definition gddMapEnsureCapacity {A} (m : GddMap A) (capacity : Z) : GddMap A :=
  if capacity <=? m_capacity m then m else mkGddMap (m_pairs m) (Z.shiftl capacity 1).

Fixpoint pairs_get {A} (l : list (Z * A)) (key : Z) : option (Z * A) :=
  match l with
  | [] => None
  | p :: l => if fst p =? key then Some p else pairs_get l key
  end.

Definition gddMapGetPair {A} (m : GddMap A) (key : Z) : option (Z * A) :=
  pairs_get (m_pairs m) key.

Definition gddMapGet {A} (m : GddMap A) (key : Z) : option A :=
  match gddMapGetPair m key with Some p => Some (snd p) | None => None end.

Definition gddMapSetUnsafe {A} (m : GddMap A) (key : Z) (ptr : A) : outcome (GddMap A) :=
  let m := gddMapEnsureCapacity m (m_length m + 1) in
  if m_length m <? m_capacity m
  then Ok (mkGddMap (m_pairs m ++ [(key, ptr)]) (m_capacity m)) else Ub.

(** [pairs[pos--] = pairs[--length]]. *)
Definition pairs_iter_delete {A} (l : list (Z * A)) (pos : nat) : list (Z * A) :=
  match last l with
  | Some p => take (length l - 1) (<[pos := p]> l)
  | None => l
  end.

Definition gdd_map_iter_delete {A} (m : GddMap A) (pos : nat) : GddMap A :=
  mkGddMap (pairs_iter_delete (m_pairs m) pos) (m_capacity m).

(** Changing the structure a pair points to. *)
Fixpoint pairs_update {A} (l : list (Z * A)) (key : Z) (f : A -> A) : list (Z * A) :=
  match l with
  | [] => []
  | p :: l => (if fst p =? key then (fst p, f (snd p)) else p) :: pairs_update l key f
  end.

Definition gddMapUpdate {A} (m : GddMap A) (key : Z) (f : A -> A) : outcome (GddMap A) :=
  match gddMapGet m key with
  | Some _ => Ok (mkGddMap (pairs_update (m_pairs m) key f) (m_capacity m))
  | None => Ub
  end.

(** ** Data *)

Record GddEdge := mkGddEdge {
  ed_addr : nat;
  ed_solid : bool;
  ed_from : Z;
  ed_to : Z
}.

#[export] Instance GddEdge_eq_dec : EqDecision GddEdge.
Proof. solve_decision. Defined.

Record GddVert := mkGddVert {
  v_id : Z;
  v_edgesIn : list GddEdge;
  v_edgesOut : list GddEdge
}.

Record GddGraph := mkGddGraph { g_id : Z; g_verts : GddMap GddVert }.

Record GddStat := mkGddStat { st_id : Z; st_indeg : Z; st_outdeg : Z }.

(** [ctx_next] is the next address the allocator gives to an edge. *)
Record GddCtx := mkGddCtx {
  topstat : GddStat;
  globals : GddMap GddStat;
  graphs : GddMap GddGraph;
  ctx_next : nat
}.

Definition gddStatInit (vid : Z) : GddStat := mkGddStat vid 0 0.
Definition gddStatNew (vid : Z) : GddStat := gddStatInit vid.
Definition gddGraphNew (id : Z) : GddGraph := mkGddGraph id gddMapInit.
Definition gddVertNew (id : Z) : GddVert := mkGddVert id [] [].

Definition GddCtxNew (next : nat) : GddCtx :=
  mkGddCtx (gddStatInit 0) gddMapInit gddMapInit next.

Definition stat_indeg (d : Z) (s : GddStat) : GddStat :=
  mkGddStat (st_id s) (st_indeg s + d) (st_outdeg s).
Definition stat_outdeg (d : Z) (s : GddStat) : GddStat :=
  mkGddStat (st_id s) (st_indeg s) (st_outdeg s + d).
Definition vert_edgesIn (f : list GddEdge -> list GddEdge) (v : GddVert) : GddVert :=
  mkGddVert (v_id v) (f (v_edgesIn v)) (v_edgesOut v).
Definition vert_edgesOut (f : list GddEdge -> list GddEdge) (v : GddVert) : GddVert :=
  mkGddVert (v_id v) (v_edgesIn v) (f (v_edgesOut v)).

(** Writes through the pointers of the context. *)
Definition ctx_topstat (f : GddStat -> GddStat) (ctx : GddCtx) : GddCtx :=
  mkGddCtx (f (topstat ctx)) (globals ctx) (graphs ctx) (ctx_next ctx).

Definition ctx_global (vid : Z) (f : GddStat -> GddStat) (ctx : GddCtx) : outcome GddCtx :=
  gs ← gddMapUpdate (globals ctx) vid f;
  Ok (mkGddCtx (topstat ctx) gs (graphs ctx) (ctx_next ctx)).

Definition ctx_graph (segkey : Z) (f : GddGraph -> GddGraph) (ctx : GddCtx) : outcome GddCtx :=
  gs ← gddMapUpdate (graphs ctx) segkey f;
  Ok (mkGddCtx (topstat ctx) (globals ctx) gs (ctx_next ctx)).

Definition ctx_get_vert (segkey vid : Z) (ctx : GddCtx) : outcome GddVert :=
  match gddMapGet (graphs ctx) segkey with
  | Some graph =>
      match gddMapGet (g_verts graph) vid with Some v => Ok v | None => Ub end
  | None => Ub
  end.

Definition graph_verts (f : list (Z * GddVert) -> list (Z * GddVert)) (g : GddGraph) : GddGraph :=
  mkGddGraph (g_id g) (mkGddMap (f (m_pairs (g_verts g))) (m_capacity (g_verts g))).

Definition ctx_vert (segkey vid : Z) (f : GddVert -> GddVert) (ctx : GddCtx) : outcome GddCtx :=
  _ ← ctx_get_vert segkey vid ctx;
  ctx_graph segkey (graph_verts (fun l => pairs_update l vid f)) ctx.

(** ** Building the graphs *)

(** The segment id is converted to the 64-bit key of the map. *)
Definition gddCtxGetGraph (ctx : GddCtx) (segid : Z) : outcome GddCtx :=
  match gddMapGet (graphs ctx) (u64 segid) with
  | Some _ => Ok ctx
  | None =>
      gs ← gddMapSetUnsafe (graphs ctx) (u64 segid) (gddGraphNew segid);
      Ok (mkGddCtx (topstat ctx) (globals ctx) gs (ctx_next ctx))
  end.

Definition gddCtxGetGlobalStat (ctx : GddCtx) (vid : Z) : outcome GddCtx :=
  match gddMapGet (globals ctx) vid with
  | Some _ => Ok ctx
  | None =>
      gs ← gddMapSetUnsafe (globals ctx) vid (gddStatNew vid);
      Ok (mkGddCtx (topstat ctx) gs (graphs ctx) (ctx_next ctx))
  end.

Definition gddGraphGetVert (graph : GddGraph) (vid : Z) : outcome GddGraph :=
  match gddMapGet (g_verts graph) vid with
  | Some _ => Ok graph
  | None =>
      vs ← gddMapSetUnsafe (g_verts graph) vid (gddVertNew vid);
      Ok (mkGddGraph (g_id graph) vs)
  end.

(** The edge is not linked yet. *)
Definition gddGraphMakeEdge (ctx : GddCtx) (segkey from to : Z) (solid : bool)
  : outcome (GddEdge * GddCtx) :=
  match gddMapGet (graphs ctx) segkey with
  | None => Ub
  | Some graph =>
      graph ← gddGraphGetVert graph from;
      graph ← gddGraphGetVert graph to;
      ctx ← ctx_graph segkey (fun _ => graph) ctx;
      let edge := mkGddEdge (ctx_next ctx) solid from to in
      Ok (edge, mkGddCtx (topstat ctx) (globals ctx) (graphs ctx) (S (ctx_next ctx)))
  end.

Definition gddEdgeLink (ctx : GddCtx) (segkey : Z) (edge : GddEdge) : outcome GddCtx :=
  let ctx := ctx_topstat (stat_outdeg 1) ctx in
  let ctx := ctx_topstat (stat_indeg 1) ctx in
  ctx ← ctx_global (ed_from edge) (stat_outdeg 1) ctx;
  ctx ← ctx_global (ed_to edge) (stat_indeg 1) ctx;
  ctx ← ctx_vert segkey (ed_from edge) (vert_edgesOut (fun l => l ++ [edge])) ctx;
  ctx_vert segkey (ed_to edge) (vert_edgesIn (fun l => l ++ [edge])) ctx.

(** [gddVertBindStats] stores the pointers that the model finds by their keys. *)
Definition GddCtxAddEdge (ctx : GddCtx) (segid from to : Z) (solid : bool) : outcome GddCtx :=
  let segkey := u64 segid in
  ctx ← gddCtxGetGraph ctx segid;
  '(edge, ctx) ← gddGraphMakeEdge ctx segkey from to solid;
  ctx ← gddCtxGetGlobalStat ctx from;
  ctx ← gddCtxGetGlobalStat ctx to;
  gddEdgeLink ctx segkey edge.

(** ** Unlinking *)

Fixpoint list_delete_ptr (l : list GddEdge) (edge : GddEdge) : list GddEdge :=
  match l with
  | [] => []
  | e :: l => if Nat.eqb (ed_addr e) (ed_addr edge) then l else e :: list_delete_ptr l edge
  end.

(** [fromiter] is the list after the in-place deletion at the iterator, if one is
    given. *)
Definition gddEdgeUnlinkFrom (ctx : GddCtx) (segkey : Z) (edge : GddEdge)
    (fromiter : option (list GddEdge)) : outcome GddCtx :=
  let ctx := ctx_topstat (stat_outdeg (-1)) ctx in
  ctx ← ctx_global (ed_from edge) (stat_outdeg (-1)) ctx;
  ctx_vert segkey (ed_from edge)
    (vert_edgesOut (fun l => match fromiter with
                             | Some l' => l'
                             | None => list_delete_ptr l edge
                             end)) ctx.

Definition gddEdgeUnlinkTo (ctx : GddCtx) (segkey : Z) (edge : GddEdge)
    (toiter : option (list GddEdge)) : outcome GddCtx :=
  let ctx := ctx_topstat (stat_indeg (-1)) ctx in
  ctx ← ctx_global (ed_to edge) (stat_indeg (-1)) ctx;
  ctx_vert segkey (ed_to edge)
    (vert_edgesIn (fun l => match toiter with
                            | Some l' => l'
                            | None => list_delete_ptr l edge
                            end)) ctx.

Definition gddEdgeUnlink (ctx : GddCtx) (segkey : Z) (edge : GddEdge)
    (fromiter toiter : option (list GddEdge)) : outcome GddCtx :=
  ctx ← gddEdgeUnlinkFrom ctx segkey edge fromiter;
  gddEdgeUnlinkTo ctx segkey edge toiter.

(** The loops over the edges of a vertex.  [kept] are the cells before the
    current one, [rest] the cells from it on: deleting the current cell leaves
    [kept] followed by the rest. *)
Fixpoint unlink_in_edges (skip_solid : bool) (segkey : Z) (kept rest : list GddEdge)
    (ctx : GddCtx) (dirty : bool) : outcome (bool * GddCtx) :=
  match rest with
  | [] => Ok (dirty, ctx)
  | edge :: rest =>
      if skip_solid && ed_solid edge
      then unlink_in_edges skip_solid segkey (kept ++ [edge]) rest ctx dirty
      else
        ctx ← gddEdgeUnlink ctx segkey edge None (Some (kept ++ rest));
        unlink_in_edges skip_solid segkey kept rest ctx true
  end.

Fixpoint unlink_out_edges (segkey : Z) (kept rest : list GddEdge) (ctx : GddCtx) (dirty : bool)
  : outcome (bool * GddCtx) :=
  match rest with
  | [] => Ok (dirty, ctx)
  | edge :: rest =>
      ctx ← gddEdgeUnlink ctx segkey edge (Some (kept ++ rest)) None;
      unlink_out_edges segkey kept rest ctx true
  end.

Definition gddVertUnlinkAll (ctx : GddCtx) (segkey vid : Z) : outcome (bool * GddCtx) :=
  vert ← ctx_get_vert segkey vid ctx;
  '(dirty, ctx) ← unlink_in_edges false segkey [] (v_edgesIn vert) ctx false;
  vert ← ctx_get_vert segkey vid ctx;
  unlink_out_edges segkey [] (v_edgesOut vert) ctx dirty.

Definition gddVertGetInDegree (v : GddVert) : Z := zlen (v_edgesIn v).
Definition gddVertGetOutDegree (v : GddVert) : Z := zlen (v_edgesOut v).

Definition gddVertReduce (ctx : GddCtx) (segkey vid : Z) : outcome (bool * GddCtx) :=
  match gddMapGet (globals ctx) vid with
  | None => Ub
  | Some global =>
      if (st_indeg global =? 0) || (st_outdeg global =? 0) then gddVertUnlinkAll ctx segkey vid
      else
        vert ← ctx_get_vert segkey vid ctx;
        if gddVertGetOutDegree vert =? 0
        then unlink_in_edges true segkey [] (v_edgesIn vert) ctx false
        else Ok (false, ctx)
  end.

(** ** Walking through all vertices *)

(** The key of the pair at position [pos] of a graph's vertices. *)
Definition ctx_verts (segkey : Z) (ctx : GddCtx) : outcome (list (Z * GddVert)) :=
  match gddMapGet (graphs ctx) segkey with
  | Some graph => Ok (m_pairs (g_verts graph))
  | None => Ub
  end.

(** The body of the loop over the vertices of one graph, from [pos] on.  An
    iteration advances or deletes, so the number of vertices is enough fuel. *)
Fixpoint reduce_verts (fuel : nat) (segkey : Z) (pos : nat) (ctx : GddCtx) (dirty : bool)
  : outcome (bool * GddCtx) :=
  verts ← ctx_verts segkey ctx;
  match verts !! pos, fuel with
  | None, _ => Ok (dirty, ctx)
  | Some _, O => Err "fuel"
  | Some (_, vert), S fuel =>
      '(d, ctx) ← gddVertReduce ctx segkey (v_id vert);
      let dirty := dirty || d in
      vert ← ctx_get_vert segkey (v_id vert) ctx;
      if (gddVertGetInDegree vert =? 0) && (gddVertGetOutDegree vert =? 0)
      then
        ctx ← ctx_graph segkey (graph_verts (fun l => pairs_iter_delete l pos)) ctx;
        reduce_verts fuel segkey pos ctx dirty
      else reduce_verts fuel segkey (S pos) ctx dirty
  end.

Definition graph_size (segkey : Z) (ctx : GddCtx) : nat :=
  match ctx_verts segkey ctx with Ok l => length l | _ => O end.

Fixpoint reduce_graphs (segkeys : list Z) (ctx : GddCtx) (dirty : bool) : outcome (bool * GddCtx) :=
  match segkeys with
  | [] => Ok (dirty, ctx)
  | segkey :: segkeys =>
      '(dirty, ctx) ← reduce_verts (graph_size segkey ctx) segkey 0 ctx dirty;
      reduce_graphs segkeys ctx dirty
  end.

(** No graph is added or removed while reducing: their keys are read once. *)
Definition ctx_segkeys (ctx : GddCtx) : list Z := map fst (m_pairs (graphs ctx)).

(** [while (dirty)]. *)
Fixpoint GddCtxReduce_loop (fuel : nat) (ctx : GddCtx) : outcome GddCtx :=
  match fuel with
  | O => Err "fuel"
  | S fuel =>
      '(dirty, ctx) ← reduce_graphs (ctx_segkeys ctx) ctx false;
      if dirty : bool then GddCtxReduce_loop fuel ctx else Ok ctx
  end.

(** Every round but the last removes an edge. *)
Definition GddCtxReduce (ctx : GddCtx) : outcome GddCtx :=
  GddCtxReduce_loop (S (Z.to_nat (st_indeg (topstat ctx)))) ctx.

Definition GddCtxEmpty (ctx : GddCtx) : bool := st_indeg (topstat ctx) =? 0.

(** ** Breaking deadlocks *)

Definition verts_max (l : list (Z * GddVert)) (maxvid : Z) : Z :=
  fold_left (fun m p => if negb (gddVertGetInDegree (snd p) =? 0) || negb (gddVertGetOutDegree (snd p) =? 0)
                        then Z.max m (v_id (snd p)) else m) l maxvid.

Definition gddCtxGetMaxVid (ctx : GddCtx) : Z :=
  fold_left (fun m p => verts_max (m_pairs (g_verts (snd p))) m) (m_pairs (graphs ctx)) 0.

(** The position of the vertex to remove, if the graph has one. *)
Fixpoint vert_pos (l : list (Z * GddVert)) (vid : Z) : option nat :=
  match l with
  | [] => None
  | p :: l => if v_id (snd p) =? vid then Some O else S <$> vert_pos l vid
  end.

Definition gddGraphRemoveVid (ctx : GddCtx) (segkey vid : Z) : outcome GddCtx :=
  verts ← ctx_verts segkey ctx;
  match vert_pos verts vid with
  | None => Ok ctx
  | Some pos =>
      '(_, ctx) ← gddVertUnlinkAll ctx segkey vid;
      ctx_graph segkey (graph_verts (fun l => pairs_iter_delete l pos)) ctx
  end.

Fixpoint remove_vid_graphs (segkeys : list Z) (vid : Z) (ctx : GddCtx) : outcome GddCtx :=
  match segkeys with
  | [] => Ok ctx
  | segkey :: segkeys =>
      ctx ← gddGraphRemoveVid ctx segkey vid;
      remove_vid_graphs segkeys vid ctx
  end.

Definition gddCtxRemoveVid (ctx : GddCtx) (vid : Z) : outcome GddCtx :=
  remove_vid_graphs (ctx_segkeys ctx) vid ctx.

Fixpoint GddCtxBreakDeadLock_loop (fuel : nat) (ctx : GddCtx) (vids : list Z)
  : outcome (list Z * GddCtx) :=
  if GddCtxEmpty ctx then Ok (vids, ctx)
  else
    match fuel with
    | O => Err "fuel"
    | S fuel =>
        let maxvid := gddCtxGetMaxVid ctx in
        ctx ← gddCtxRemoveVid ctx maxvid;
        ctx ← GddCtxReduce ctx;
        GddCtxBreakDeadLock_loop fuel ctx (vids ++ [maxvid])
    end.

(** Every round removes a vertex that has edges. *)
Definition GddCtxBreakDeadLock (ctx : GddCtx) : outcome (list Z * GddCtx) :=
  GddCtxBreakDeadLock_loop (Z.to_nat (st_indeg (topstat ctx))) ctx [].

(** ** Maps *)

Lemma gddMapGet_update {A} (m m' : GddMap A) k f :
  gddMapUpdate m k f = Ok m' ->
  m_pairs m' = pairs_update (m_pairs m) k f /\
  forall k', gddMapGet m' k' = if k' =? k then f <$> gddMapGet m k else gddMapGet m k'.
Proof.
  unfold gddMapUpdate. destruct (gddMapGet m k) as [v |] eqn:E; [| done]. intros [= <-].
  split; [done |]. intros k'. revert E. unfold gddMapGet, gddMapGetPair. cbn [m_pairs].
  intros E. assert (H : forall l, match pairs_get (pairs_update l k f) k' with
                              | Some p => Some (snd p) | None => None end =
    if k' =? k then match pairs_get l k with Some p => Some (f (snd p)) | None => None end
    else match pairs_get l k' with Some p => Some (snd p) | None => None end).
  { intros l. induction l as [| [k1 v1] l IH]; [by destruct (k' =? k) |].
    cbn [pairs_update pairs_get fst snd].
    destruct (Z.eqb_spec k1 k) as [-> |]; cbn [pairs_get fst snd].
    - destruct (Z.eqb_spec k k') as [-> |]; [by rewrite Z.eqb_refl |].
      rewrite IH. by replace (k' =? k) with false by lia.
    - destruct (Z.eqb_spec k1 k') as [-> |]; [by replace (k' =? k) with false by lia | apply IH]. }
  rewrite H. destruct (k' =? k); [| done]. destruct (pairs_get (m_pairs m) k); [| done].
  injection E as <-. done.
Qed.

Lemma gddMapGet_set {A} (m : GddMap A) k v :
  gddMapGet m k = None ->
  exists m', gddMapSetUnsafe m k v = Ok m' /\ m_pairs m' = m_pairs m ++ [(k, v)] /\
    forall k', gddMapGet m' k' = if k' =? k then Some v else gddMapGet m k'.
Proof.
  intros Hk. unfold gddMapSetUnsafe. set (m1 := gddMapEnsureCapacity m (m_length m + 1)).
  assert (m_pairs m1 = m_pairs m /\ m_length m < m_capacity m1) as [Hp Hc].
  { unfold m1, gddMapEnsureCapacity. pose proof (zlen_nonneg (m_pairs m)). unfold m_length in *.
    destruct (Z.leb_spec (zlen (m_pairs m) + 1) (m_capacity m)); [split; [done | lia] |].
    split; [done |]. cbn. rewrite Z.shiftl_mul_pow2 by lia. lia. }
  unfold m_length in *. rewrite Hp, (proj2 (Z.ltb_lt _ _) Hc).
  eexists. split_and!; [done | done |]. intros k'. revert Hk. unfold gddMapGet, gddMapGetPair. cbn.
  clear. induction (m_pairs m) as [| [k1 v1] l IH]; cbn; intros Hk.
  - rewrite Z.eqb_sym. by destruct (k' =? k).
  - destruct (Z.eqb_spec k1 k) as [-> |]; [done |].
    destruct (Z.eqb_spec k1 k') as [-> |]; [by replace (k' =? k) with false by lia | auto].
Qed.

(** Pairs by position and by key. *)
Lemma pairs_get_lookup {A} (l : list (Z * A)) i k v :
  NoDup (map fst l) -> l !! i = Some (k, v) -> pairs_get l k = Some (k, v).
Proof.
  revert i. induction l as [| [k1 v1] l IH]; intros i Hnd Hi; [done |].
  cbn in Hnd. apply NoDup_cons in Hnd as [Hn Hnd]. cbn [pairs_get fst].
  destruct i as [| i]; cbn in Hi.
  - injection Hi as -> ->. by rewrite Z.eqb_refl.
  - destruct (Z.eqb_spec k1 k) as [-> |]; [| by eapply IH].
    exfalso. apply Hn. apply list_elem_of_fmap. exists (k, v).
    split; [done | by eapply list_elem_of_lookup_2].
Qed.

Lemma pairs_get_elem {A} (l : list (Z * A)) k p :
  pairs_get l k = Some p -> p ∈ l /\ fst p = k.
Proof.
  induction l as [| p1 l IH]; [done |]. cbn [pairs_get].
  destruct (Z.eqb_spec (fst p1) k) as [E |].
  - intros [= <-]. split; [left | done].
  - intros H. destruct (IH H). split; [by right | done].
Qed.

Lemma pairs_get_None {A} (l : list (Z * A)) k : k ∉ map fst l -> pairs_get l k = None.
Proof.
  induction l as [| p1 l IH]; [done |]. cbn [pairs_get map]. rewrite not_elem_of_cons.
  intros [H1 H2]. destruct (Z.eqb_spec (fst p1) k); [by destruct H1 | auto].
Qed.

Lemma pairs_get_perm {A} (l l' : list (Z * A)) k :
  NoDup (map fst l) -> l ≡ₚ l' -> pairs_get l k = pairs_get l' k.
Proof.
  intros Hnd Hp. assert (Hnd' : NoDup (map fst l')) by (by rewrite <- Hp).
  destruct (pairs_get l k) as [[k1 v] |] eqn:E.
  - apply pairs_get_elem in E as [He Hk]. cbn in Hk. subst k1. rewrite Hp in He.
    apply list_elem_of_lookup in He as [i Hi]. symmetry. by eapply pairs_get_lookup.
  - destruct (pairs_get l' k) as [[k1 v] |] eqn:E'; [| done].
    apply pairs_get_elem in E' as [He Hk]. cbn in Hk. subst k1. rewrite <- Hp in He.
    apply list_elem_of_lookup in He as [i Hi]. rewrite (pairs_get_lookup l i k v) in E by done. done.
Qed.

(** Deleting at an iterator moves the last pair into the hole. *)
Lemma pairs_iter_delete_spec {A} (l : list (Z * A)) pos p :
  l !! pos = Some p ->
  pairs_iter_delete l pos ≡ₚ delete pos l /\
  (forall i, (i < pos)%nat -> pairs_iter_delete l pos !! i = l !! i) /\
  length (pairs_iter_delete l pos) = (length l - 1)%nat.
Proof.
  intros Hp. pose proof (lookup_lt_Some _ _ _ Hp) as Hlt. unfold pairs_iter_delete.
  destruct (last l) as [q |] eqn:Eq; [| by apply last_None in Eq; subst].
  apply last_Some in Eq as [l0 ->]. rewrite length_app in *. cbn [length] in *.
  replace (length l0 + 1 - 1)%nat with (length l0) by lia.
  destruct (decide (pos = length l0)) as [-> | Hne].
  - rewrite insert_app_r_alt, Nat.sub_diag by lia. rewrite take_app_length.
    split_and!; [| intros i Hi; by rewrite lookup_app_l | done].
    rewrite delete_take_drop. rewrite take_app_length, drop_ge, app_nil_r; [done |].
    rewrite length_app. cbn. lia.
  - rewrite insert_app_l by lia. rewrite take_app_length' by (by rewrite length_insert).
    split_and!; [| intros i Hi; rewrite list_lookup_insert_ne, lookup_app_l by lia; done
                 | by rewrite length_insert].
    rewrite (insert_take_drop l0 pos q) by lia. rewrite delete_take_drop.
    rewrite take_app_le, drop_app_le by lia.
    apply Permutation_app_head, Permutation_cons_append.
Qed.

(** ** Reading the context *)

Definition vert_of (ctx : GddCtx) (segkey vid : Z) : option GddVert :=
  match gddMapGet (graphs ctx) segkey with
  | Some g => gddMapGet (g_verts g) vid
  | None => None
  end.

Lemma ctx_get_vert_of ctx sk vid v : vert_of ctx sk vid = Some v -> ctx_get_vert sk vid ctx = Ok v.
Proof.
  unfold vert_of, ctx_get_vert. destruct (gddMapGet (graphs ctx) sk); [| done]. by intros ->.
Qed.

(** The keys of the maps and the ids of the vertices: what the loops walk through. *)
Definition graph_shape (g : GddGraph) : list (Z * Z) :=
  map (fun q => (fst q, v_id (snd q))) (m_pairs (g_verts g)).
Definition ctx_shape (ctx : GddCtx) : list (Z * list (Z * Z)) :=
  map (fun p => (fst p, graph_shape (snd p))) (m_pairs (graphs ctx)).

Definition vids_ok (l : list (Z * Z)) : Prop :=
  NoDup (map fst l) /\ Forall (fun q => fst q = snd q /\ 0 <= fst q) l.
Definition shape_ok (s : list (Z * list (Z * Z))) : Prop :=
  NoDup (map fst s) /\ Forall (fun p => vids_ok (snd p)) s.

Lemma pairs_update_shape {A B} (l : list (Z * A)) k f (h : A -> B) :
  (forall a, h (f a) = h a) ->
  map (fun q => (fst q, h (snd q))) (pairs_update l k f) = map (fun q => (fst q, h (snd q))) l.
Proof.
  intros Hf. induction l as [| [k1 v1] l IH]; [done |]. cbn [pairs_update map fst snd].
  rewrite IH. f_equal. destruct (k1 =? k); cbn; by rewrite ?Hf.
Qed.

Lemma shape_get ctx sk g :
  shape_ok (ctx_shape ctx) -> gddMapGet (graphs ctx) sk = Some g ->
  vids_ok (graph_shape g) /\ sk ∈ ctx_segkeys ctx.
Proof.
  intros [_ H] Hg. unfold gddMapGet, gddMapGetPair in Hg.
  destruct (pairs_get (m_pairs (graphs ctx)) sk) as [[k g'] |] eqn:E; [| done].
  cbn in Hg. injection Hg as ->. apply pairs_get_elem in E as [He Hk]. cbn in Hk. subst k.
  split.
  - rewrite Forall_forall in H. apply (H (sk, graph_shape g)). unfold ctx_shape.
    apply list_elem_of_fmap. by exists (sk, g).
  - unfold ctx_segkeys. apply list_elem_of_fmap. by exists (sk, g).
Qed.

Lemma graph_shape_nodup g : vids_ok (graph_shape g) -> NoDup (map fst (m_pairs (g_verts g))).
Proof.
  intros [H _]. unfold graph_shape in H. rewrite map_map in H. exact H.
Qed.

Lemma graph_shape_id g i k v :
  vids_ok (graph_shape g) -> m_pairs (g_verts g) !! i = Some (k, v) -> v_id v = k /\ 0 <= k.
Proof.
  intros [_ H] Hi. rewrite Forall_lookup in H.
  destruct (H i (k, v_id v)) as [H1 H2]; [| cbn in *; split; [done | lia]].
  unfold graph_shape. by rewrite list_lookup_fmap, Hi.
Qed.

(** ** Writing through pointers *)

Lemma ctx_vert_ok ctx sk vid v f :
  (forall a, v_id (f a) = v_id a) -> vert_of ctx sk vid = Some v ->
  exists ctx', ctx_vert sk vid f ctx = Ok ctx' /\ ctx_shape ctx' = ctx_shape ctx /\
    topstat ctx' = topstat ctx /\ globals ctx' = globals ctx /\ ctx_next ctx' = ctx_next ctx /\
    forall sk' vid', vert_of ctx' sk' vid' =
      if (sk' =? sk) && (vid' =? vid) then Some (f v) else vert_of ctx sk' vid'.
Proof.
  intros Hf Hv. unfold ctx_vert. rewrite (ctx_get_vert_of _ _ _ _ Hv). cbn [mbind outcome_bind].
  unfold ctx_graph. unfold vert_of in Hv.
  destruct (gddMapGet (graphs ctx) sk) as [g |] eqn:Eg; [| done].
  destruct (gddMapUpdate (graphs ctx) sk _) as [gs | |] eqn:Eu;
    [| unfold gddMapUpdate in Eu; by rewrite Eg in Eu ..].
  cbn [mbind outcome_bind]. eexists. split; [done |].
  destruct (gddMapGet_update _ _ _ _ Eu) as [Hp Hget].
  split_and!; [| done | done | done |].
  - unfold ctx_shape. cbn [graphs]. rewrite Hp.
    apply (pairs_update_shape _ _ _ graph_shape). intros a. unfold graph_shape, graph_verts. cbn.
    by apply pairs_update_shape.
  - intros sk' vid'. unfold vert_of. cbn [graphs]. rewrite Hget, Eg.
    destruct (Z.eqb_spec sk' sk) as [-> |]; [| done]. cbn [andb]. rewrite Eg. cbn.
    assert (Eu' : gddMapUpdate (g_verts g) vid f =
      Ok (mkGddMap (pairs_update (m_pairs (g_verts g)) vid f) (m_capacity (g_verts g))))
      by (unfold gddMapUpdate; by rewrite Hv).
    apply gddMapGet_update in Eu' as [_ ->]. rewrite Hv. done.
Qed.

Lemma ctx_global_ok ctx vid s f :
  gddMapGet (globals ctx) vid = Some s ->
  exists ctx', ctx_global vid f ctx = Ok ctx' /\ graphs ctx' = graphs ctx /\
    topstat ctx' = topstat ctx /\ ctx_next ctx' = ctx_next ctx /\
    forall vid', gddMapGet (globals ctx') vid' =
      if vid' =? vid then Some (f s) else gddMapGet (globals ctx) vid'.
Proof.
  intros Hs. unfold ctx_global. destruct (gddMapUpdate (globals ctx) vid f) as [gs | |] eqn:Eu;
    [| unfold gddMapUpdate in Eu; by rewrite Hs in Eu ..].
  cbn [mbind outcome_bind]. eexists. split_and!; [done .. |].
  destruct (gddMapGet_update _ _ _ _ Eu) as [_ Hget]. intros vid'. cbn. rewrite Hget, Hs. done.
Qed.

(** ** The wait-for graph a context stands for *)

Notation wait := (Z * GddEdge)%type.
Definition w_seg (x : wait) : Z := fst x.
Definition w_from (x : wait) : Z := ed_from (snd x).
Definition w_to (x : wait) : Z := ed_to (snd x).
Definition w_solid (x : wait) : bool := ed_solid (snd x).
Definition w_addr (x : wait) : nat := ed_addr (snd x).

Definition count (P : wait -> bool) (G : list wait) : Z := zlen (List.filter P G).

Definition w_removable := removable w_seg w_from w_to w_solid.
Definition w_reduces := reduces w_seg w_from w_to w_solid.
Definition w_deadlock_free := deadlock_free w_seg w_from w_to w_solid.
Definition w_breaks := breaks w_seg w_from w_to w_solid.
Definition w_cancel := cancel w_from w_to.

Record ctx_rep (ctx : GddCtx) (G : list wait) : Prop := {
  rep_addr : NoDup (map w_addr G);
  rep_fresh : Forall (fun x => (w_addr x < ctx_next ctx)%nat) G;
  rep_shape : shape_ok (ctx_shape ctx);
  rep_in : forall sk vid v, vert_of ctx sk vid = Some v ->
    NoDup (map ed_addr (v_edgesIn v)) /\
    forall e, e ∈ v_edgesIn v <-> (sk, e) ∈ G /\ ed_to e = vid;
  rep_out : forall sk vid v, vert_of ctx sk vid = Some v ->
    NoDup (map ed_addr (v_edgesOut v)) /\
    forall e, e ∈ v_edgesOut v <-> (sk, e) ∈ G /\ ed_from e = vid;
  rep_ends : forall sk e, (sk, e) ∈ G ->
    is_Some (vert_of ctx sk (ed_from e)) /\ is_Some (vert_of ctx sk (ed_to e));
  rep_bound : forall sk vid v, vert_of ctx sk vid = Some v -> is_Some (gddMapGet (globals ctx) vid);
  rep_stat : forall vid s, gddMapGet (globals ctx) vid = Some s ->
    st_indeg s = count (fun x => w_to x =? vid) G /\
    st_outdeg s = count (fun x => w_from x =? vid) G;
  rep_top : st_indeg (topstat ctx) = zlen G /\ st_outdeg (topstat ctx) = zlen G
}.

Lemma NoDup_map_inj {A B} (f : A -> B) l x y :
  NoDup (map f l) -> x ∈ l -> y ∈ l -> f x = f y -> x = y.
Proof.
  induction l as [| a l IH]; [by intros _ ?%not_elem_of_nil |]. cbn. rewrite NoDup_cons, !elem_of_cons.
  intros [Hn Hnd] [-> | Hx] [-> | Hy] E; [done | | | auto].
  - exfalso. apply Hn. rewrite E. by apply list_elem_of_fmap_2.
  - exfalso. apply Hn. rewrite <- E. by apply list_elem_of_fmap_2.
Qed.

Lemma NoDup_map_1 {A B} (f : A -> B) l : NoDup (map f l) -> NoDup l.
Proof. apply NoDup_fmap_1. Qed.

Lemma NoDup_map_filter {A B} (f : A -> B) (P : A -> Prop) `{!forall x, Decision (P x)} l :
  NoDup (map f l) -> NoDup (map f (filter P l)).
Proof.
  intros Hnd. eapply sublist_NoDup; [exact Hnd |]. apply (fmap_sublist f), sublist_filter.
Qed.

Lemma filter_keeps_all {A} (P : A -> Prop) `{!forall x, Decision (P x)} (l : list A) :
  (forall x, x ∈ l -> P x) -> filter P l = l.
Proof.
  induction l as [| a l IH]; intros HP; [done |].
  rewrite filter_cons_True by (apply HP; left). f_equal. apply IH. intros x Hx. apply HP. by right.
Qed.

Lemma list_delete_ptr_elem l e :
  NoDup (map ed_addr l) -> e ∈ l ->
  NoDup (map ed_addr (list_delete_ptr l e)) /\
  forall e', e' ∈ list_delete_ptr l e <-> e' ∈ l /\ e' <> e.
Proof.
  intros Hnd He. assert (Hd : list_delete_ptr l e = filter (fun e' => e' <> e) l).
  { induction l as [| a l IH]; [done |]. cbn [list_delete_ptr].
    assert (Ha : ed_addr a = ed_addr e -> a = e)
      by (intros; eapply NoDup_map_inj; [exact Hnd | left | exact He | done]).
    cbn in Hnd. apply NoDup_cons in Hnd as [Hn Hnd].
    destruct (Nat.eqb_spec (ed_addr a) (ed_addr e)) as [E | E].
    - rewrite (Ha E). rewrite filter_cons_False by auto. symmetry.
      apply filter_keeps_all. intros x Hx ->. apply Hn. rewrite E. by apply list_elem_of_fmap_2.
    - rewrite filter_cons_True by congruence. f_equal. apply IH; [done |].
      apply elem_of_cons in He as [-> | He]; [done | done]. }
  rewrite Hd. split; [by apply NoDup_map_filter |]. intros e'. rewrite list_elem_of_filter. tauto.
Qed.

Lemma count_without P x G :
  NoDup G -> x ∈ G -> count P (without x G) = count P G - (if P x then 1 else 0).
Proof.
  intros Hnd Hx. unfold count, without, zlen.
  induction G as [| y G IH]; [by apply not_elem_of_nil in Hx |].
  apply NoDup_cons in Hnd as [Hn Hnd]. apply elem_of_cons in Hx as [-> | Hx].
  - rewrite filter_cons_False by auto. rewrite filter_keeps_all by (intros z Hz ->; done).
    cbn. destruct (P y); cbn [length]; lia.
  - rewrite filter_cons_True by (intros ->; done). cbn.
    specialize (IH Hnd Hx). destruct (P y); cbn [length]; lia.
Qed.

Lemma count_all G : count (fun _ => true) G = zlen G.
Proof. unfold count. induction G as [| x G IH]; [done |]. cbn. unfold zlen in *. cbn. lia. Qed.

Lemma zlen_without (x : wait) G : NoDup G -> x ∈ G -> zlen (without x G) = zlen G - 1.
Proof. intros. rewrite <- !count_all. by apply (count_without (fun _ => true)). Qed.

Lemma rep_nodup ctx G : ctx_rep ctx G -> NoDup G.
Proof. intros H. eapply NoDup_map_1. apply (rep_addr _ _ H). Qed.

(** ** Unlinking an edge *)

(** The list an iterator leaves after deleting an edge. *)
Definition iter_ok (it : option (list GddEdge)) (l : list GddEdge) (e : GddEdge) : Prop :=
  forall l', it = Some l' ->
    NoDup (map ed_addr l') /\ forall e', e' ∈ l' <-> e' ∈ l /\ e' <> e.

Lemma iter_result it l e :
  iter_ok it l e -> NoDup (map ed_addr l) -> e ∈ l ->
  let l' := match it with Some l' => l' | None => list_delete_ptr l e end in
  NoDup (map ed_addr l') /\ forall e', e' ∈ l' <-> e' ∈ l /\ e' <> e.
Proof.
  intros Hit Hnd He. destruct it as [l' |]; [by apply Hit |]. by apply list_delete_ptr_elem.
Qed.

Lemma gddEdgeUnlinkFrom_ok ctx sk e fi v s :
  vert_of ctx sk (ed_from e) = Some v -> gddMapGet (globals ctx) (ed_from e) = Some s ->
  exists ctx', gddEdgeUnlinkFrom ctx sk e fi = Ok ctx' /\ ctx_shape ctx' = ctx_shape ctx /\
    topstat ctx' = stat_outdeg (-1) (topstat ctx) /\ ctx_next ctx' = ctx_next ctx /\
    (forall vid, gddMapGet (globals ctx') vid =
       if vid =? ed_from e then Some (stat_outdeg (-1) s) else gddMapGet (globals ctx) vid) /\
    (forall sk' vid, vert_of ctx' sk' vid =
       if (sk' =? sk) && (vid =? ed_from e)
       then Some (mkGddVert (v_id v) (v_edgesIn v)
                    match fi with Some l' => l' | None => list_delete_ptr (v_edgesOut v) e end)
       else vert_of ctx sk' vid).
Proof.
  intros Hv Hs. unfold gddEdgeUnlinkFrom. set (c0 := ctx_topstat _ ctx).
  destruct (ctx_global_ok c0 (ed_from e) s (stat_outdeg (-1)) Hs) as (c1 & -> & G1 & T1 & N1 & S1).
  cbn [mbind outcome_bind].
  assert (Hv1 : vert_of c1 sk (ed_from e) = Some v) by (unfold vert_of; by rewrite G1).
  destruct (ctx_vert_ok c1 sk (ed_from e) v (vert_edgesOut (fun l => match fi with
    | Some l' => l' | None => list_delete_ptr l e end)) ltac:(done) Hv1)
    as (c2 & -> & Sh2 & T2 & G2 & N2 & V2).
  exists c2. split_and!; [done | | | | | ].
  - rewrite Sh2. unfold ctx_shape. by rewrite G1.
  - by rewrite T2, T1.
  - by rewrite N2, N1.
  - intros vid. rewrite G2. apply S1.
  - intros sk' vid. rewrite V2. destruct (_ && _); [done |]. unfold vert_of. by rewrite G1.
Qed.

Lemma gddEdgeUnlinkTo_ok ctx sk e ti v s :
  vert_of ctx sk (ed_to e) = Some v -> gddMapGet (globals ctx) (ed_to e) = Some s ->
  exists ctx', gddEdgeUnlinkTo ctx sk e ti = Ok ctx' /\ ctx_shape ctx' = ctx_shape ctx /\
    topstat ctx' = stat_indeg (-1) (topstat ctx) /\ ctx_next ctx' = ctx_next ctx /\
    (forall vid, gddMapGet (globals ctx') vid =
       if vid =? ed_to e then Some (stat_indeg (-1) s) else gddMapGet (globals ctx) vid) /\
    (forall sk' vid, vert_of ctx' sk' vid =
       if (sk' =? sk) && (vid =? ed_to e)
       then Some (mkGddVert (v_id v)
                    match ti with Some l' => l' | None => list_delete_ptr (v_edgesIn v) e end
                    (v_edgesOut v))
       else vert_of ctx sk' vid).
Proof.
  intros Hv Hs. unfold gddEdgeUnlinkTo. set (c0 := ctx_topstat _ ctx).
  destruct (ctx_global_ok c0 (ed_to e) s (stat_indeg (-1)) Hs) as (c1 & -> & G1 & T1 & N1 & S1).
  cbn [mbind outcome_bind].
  assert (Hv1 : vert_of c1 sk (ed_to e) = Some v) by (unfold vert_of; by rewrite G1).
  destruct (ctx_vert_ok c1 sk (ed_to e) v (vert_edgesIn (fun l => match ti with
    | Some l' => l' | None => list_delete_ptr l e end)) ltac:(done) Hv1)
    as (c2 & -> & Sh2 & T2 & G2 & N2 & V2).
  exists c2. split_and!; [done | | | | | ].
  - rewrite Sh2. unfold ctx_shape. by rewrite G1.
  - by rewrite T2, T1.
  - by rewrite N2, N1.
  - intros vid. rewrite G2. apply S1.
  - intros sk' vid. rewrite V2. destruct (_ && _); [done |]. unfold vert_of. by rewrite G1.
Qed.

(** The effect of unlinking on every vertex and every statistic. *)
Record unlinked (ctx ctx' : GddCtx) (sk : Z) (e : GddEdge) (outl inl : list GddEdge) : Prop := {
  ul_shape : ctx_shape ctx' = ctx_shape ctx;
  ul_next : ctx_next ctx' = ctx_next ctx;
  ul_top : st_indeg (topstat ctx') = st_indeg (topstat ctx) - 1 /\
           st_outdeg (topstat ctx') = st_outdeg (topstat ctx) - 1;
  ul_stat : forall vid,
    match gddMapGet (globals ctx) vid with
    | None => gddMapGet (globals ctx') vid = None
    | Some s => exists s', gddMapGet (globals ctx') vid = Some s' /\
        st_indeg s' = st_indeg s - (if vid =? ed_to e then 1 else 0) /\
        st_outdeg s' = st_outdeg s - (if vid =? ed_from e then 1 else 0)
    end;
  ul_vert : forall sk' vid,
    match vert_of ctx sk' vid with
    | None => vert_of ctx' sk' vid = None
    | Some v => exists v', vert_of ctx' sk' vid = Some v' /\
        v_edgesIn v' = (if (sk' =? sk) && (vid =? ed_to e) then inl else v_edgesIn v) /\
        v_edgesOut v' = (if (sk' =? sk) && (vid =? ed_from e) then outl else v_edgesOut v)
    end
}.

Definition iter_list (it : option (list GddEdge)) (l : list GddEdge) (e : GddEdge) : list GddEdge :=
  match it with Some l' => l' | None => list_delete_ptr l e end.

Lemma gddEdgeUnlink_unlinked ctx sk e fi ti vf vt sf st :
  vert_of ctx sk (ed_from e) = Some vf -> vert_of ctx sk (ed_to e) = Some vt ->
  gddMapGet (globals ctx) (ed_from e) = Some sf -> gddMapGet (globals ctx) (ed_to e) = Some st ->
  exists ctx', gddEdgeUnlink ctx sk e fi ti = Ok ctx' /\
    unlinked ctx ctx' sk e (iter_list fi (v_edgesOut vf) e) (iter_list ti (v_edgesIn vt) e).
Proof.
  intros Hf Ht Hsf Hst. unfold gddEdgeUnlink.
  destruct (gddEdgeUnlinkFrom_ok ctx sk e fi vf sf Hf Hsf) as (c1 & -> & Sh1 & T1 & N1 & S1 & V1).
  cbn [mbind outcome_bind].
  assert (exists st1, gddMapGet (globals c1) (ed_to e) = Some st1 /\ st_indeg st1 = st_indeg st /\
            st_outdeg st1 = st_outdeg st - (if ed_to e =? ed_from e then 1 else 0)) as (st1 & Hst1 & Ei1 & Eo1).
  { rewrite S1. destruct (Z.eqb_spec (ed_to e) (ed_from e)) as [E |]; [| exists st; split_and!; (done || lia)].
    rewrite E in Hst. assert (sf = st) as -> by congruence. eexists. split; [done |]. cbn. lia. }
  assert (exists vt1, vert_of c1 sk (ed_to e) = Some vt1 /\ v_edgesIn vt1 = v_edgesIn vt /\
            v_edgesOut vt1 = if ed_to e =? ed_from e then iter_list fi (v_edgesOut vf) e
                             else v_edgesOut vt) as (vt1 & Hvt1 & Evi & Evo).
  { rewrite V1, Z.eqb_refl. cbn [andb]. destruct (Z.eqb_spec (ed_to e) (ed_from e)) as [E |].
    - rewrite E in Ht. assert (vf = vt) as -> by congruence. by eexists.
    - by exists vt. }
  destruct (gddEdgeUnlinkTo_ok c1 sk e ti vt1 st1 Hvt1 Hst1) as (c2 & -> & Sh2 & T2 & N2 & S2 & V2).
  exists c2. split; [done |]. constructor.
  - congruence.
  - congruence.
  - rewrite T2, T1. cbn. lia.
  - intros vid. rewrite S2. destruct (gddMapGet (globals ctx) vid) as [s |] eqn:Es.
    + destruct (Z.eqb_spec vid (ed_to e)) as [-> |].
      * eexists. split; [done |]. assert (s = st) as -> by congruence. cbn. lia.
      * rewrite S1, Es. destruct (Z.eqb_spec vid (ed_from e)) as [-> |].
        -- eexists. split; [done |]. assert (s = sf) as -> by congruence. cbn. lia.
        -- exists s. split; [done |]. lia.
    + destruct (Z.eqb_spec vid (ed_to e)) as [-> |]; [congruence |].
      rewrite S1, Es. destruct (Z.eqb_spec vid (ed_from e)) as [-> |]; [congruence | done].
  - intros sk' vid. rewrite V2. destruct (Z.eqb_spec sk' sk) as [-> |]; cbn [andb].
    2: { rewrite V1. replace (sk' =? sk) with false by lia. cbn [andb].
         destruct (vert_of ctx sk' vid) as [v |]; [| done]. by exists v. }
    destruct (Z.eqb_spec vid (ed_to e)) as [-> |].
    + rewrite Ht. eexists. split; [done |]. cbn. rewrite Evi, Evo. done.
    + rewrite V1, Z.eqb_refl. cbn [andb]. destruct (Z.eqb_spec vid (ed_from e)) as [-> |].
      * rewrite Hf. by eexists.
      * destruct (vert_of ctx sk vid) as [v |]; [| done]. by exists v.
Qed.

Lemma is_Some_vert_unlinked ctx ctx' sk e o i sk' vid :
  unlinked ctx ctx' sk e o i -> is_Some (vert_of ctx' sk' vid) <-> is_Some (vert_of ctx sk' vid).
Proof.
  intros H. pose proof (ul_vert _ _ _ _ _ _ H sk' vid) as Hv.
  destruct (vert_of ctx sk' vid); [destruct Hv as (v' & -> & _); split; eauto | by rewrite Hv].
Qed.

(** Unlinking an edge of the graph removes it from the graph, and only it. *)
Lemma unlinked_rep ctx ctx' sk e G o i vf vt :
  ctx_rep ctx G -> (sk, e) ∈ G -> unlinked ctx ctx' sk e o i ->
  vert_of ctx sk (ed_from e) = Some vf -> vert_of ctx sk (ed_to e) = Some vt ->
  (NoDup (map ed_addr o) /\ forall e', e' ∈ o <-> e' ∈ v_edgesOut vf /\ e' <> e) ->
  (NoDup (map ed_addr i) /\ forall e', e' ∈ i <-> e' ∈ v_edgesIn vt /\ e' <> e) ->
  ctx_rep ctx' (without (sk, e) G).
Proof.
  intros R He U Hf Ht [Ho1 Ho2] [Hi1 Hi2]. pose proof (rep_nodup _ _ R) as Hnd. split.
  - apply NoDup_map_filter, (rep_addr _ _ R).
  - rewrite (ul_next _ _ _ _ _ _ U). eapply Forall_subset; [| exact (rep_fresh _ _ R)].
    intros x Hx. by apply elem_of_without in Hx as [? _].
  - rewrite (ul_shape _ _ _ _ _ _ U). exact (rep_shape _ _ R).
  - intros sk' vid v' Hv'. pose proof (ul_vert _ _ _ _ _ _ U sk' vid) as Hv.
    destruct (vert_of ctx sk' vid) as [v |] eqn:Ev; [| congruence].
    destruct Hv as (v1 & Hv1 & Ein & _). assert (v1 = v') as -> by congruence. rewrite Ein.
    destruct (rep_in _ _ R _ _ _ Ev) as [Hnd1 Hin1].
    destruct (Z.eqb_spec sk' sk) as [-> | Hsk]; [destruct (Z.eqb_spec vid (ed_to e)) as [-> | Hv] |];
      cbn [andb]; (split; [done |]); intros e'; rewrite elem_of_without.
    + rewrite Hi2. assert (vt = v) as -> by congruence. rewrite Hin1.
      split; [intros [[? ?] ?]; split_and!; [done | congruence | done] |
              intros [[? Hne] ?]; split_and!; [done | done | congruence]].
    + rewrite Hin1. split; [intros [? ?]; split_and!; [done | congruence | done] | tauto].
    + rewrite Hin1. split; [intros [? ?]; split_and!; [done | congruence | done] | tauto].
  - intros sk' vid v' Hv'. pose proof (ul_vert _ _ _ _ _ _ U sk' vid) as Hv.
    destruct (vert_of ctx sk' vid) as [v |] eqn:Ev; [| congruence].
    destruct Hv as (v1 & Hv1 & _ & Eout). assert (v1 = v') as -> by congruence. rewrite Eout.
    destruct (rep_out _ _ R _ _ _ Ev) as [Hnd1 Hin1].
    destruct (Z.eqb_spec sk' sk) as [-> | Hsk]; [destruct (Z.eqb_spec vid (ed_from e)) as [-> | Hv] |];
      cbn [andb]; (split; [done |]); intros e'; rewrite elem_of_without.
    + rewrite Ho2. assert (vf = v) as -> by congruence. rewrite Hin1.
      split; [intros [[? ?] ?]; split_and!; [done | congruence | done] |
              intros [[? Hne] ?]; split_and!; [done | done | congruence]].
    + rewrite Hin1. split; [intros [? ?]; split_and!; [done | congruence | done] | tauto].
    + rewrite Hin1. split; [intros [? ?]; split_and!; [done | congruence | done] | tauto].
  - intros sk' e' He'. apply elem_of_without in He' as [He' _].
    rewrite !(is_Some_vert_unlinked _ _ _ _ _ _ _ _ U). by apply (rep_ends _ _ R).
  - intros sk' vid v' Hv'. assert (Hs : is_Some (vert_of ctx sk' vid))
      by (rewrite <- (is_Some_vert_unlinked _ _ _ _ _ _ _ _ U); eauto).
    destruct Hs as [v Hv]. destruct (rep_bound _ _ R _ _ _ Hv) as [s Hs].
    pose proof (ul_stat _ _ _ _ _ _ U vid) as Hst. rewrite Hs in Hst.
    destruct Hst as (s' & -> & _). eauto.
  - intros vid s' Hs'. pose proof (ul_stat _ _ _ _ _ _ U vid) as Hst.
    destruct (gddMapGet (globals ctx) vid) as [s |] eqn:Es; [| congruence].
    destruct Hst as (s1 & Hs1 & E1 & E2). assert (s1 = s') as -> by congruence.
    destruct (rep_stat _ _ R _ _ Es) as [C1 C2].
    rewrite !(count_without _ (sk, e) G) by done. unfold w_to, w_from. cbn [snd].
    rewrite (Z.eqb_sym (ed_to e)), (Z.eqb_sym (ed_from e)), E1, E2, C1, C2. done.
  - destruct (ul_top _ _ _ _ _ _ U). destruct (rep_top _ _ R).
    rewrite (zlen_without (sk, e) G) by done. lia.
Qed.

Lemma gddEdgeUnlink_ok ctx G sk e fi ti vf vt :
  ctx_rep ctx G -> (sk, e) ∈ G ->
  vert_of ctx sk (ed_from e) = Some vf -> vert_of ctx sk (ed_to e) = Some vt ->
  iter_ok fi (v_edgesOut vf) e -> iter_ok ti (v_edgesIn vt) e ->
  exists ctx', gddEdgeUnlink ctx sk e fi ti = Ok ctx' /\ ctx_rep ctx' (without (sk, e) G) /\
    unlinked ctx ctx' sk e (iter_list fi (v_edgesOut vf) e) (iter_list ti (v_edgesIn vt) e).
Proof.
  intros R He Hf Ht Hfi Hti.
  destruct (rep_bound _ _ R _ _ _ Hf) as [sf Hsf]. destruct (rep_bound _ _ R _ _ _ Ht) as [st Hst].
  destruct (gddEdgeUnlink_unlinked ctx sk e fi ti vf vt sf st Hf Ht Hsf Hst) as (ctx' & E & U).
  exists ctx'. split_and!; [done | | done].
  destruct (rep_out _ _ R _ _ _ Hf) as [Hno Ho]. destruct (rep_in _ _ R _ _ _ Ht) as [Hni Hi].
  eapply unlinked_rep; [exact R | exact He | exact U | exact Hf | exact Ht | |].
  - apply iter_result; [done | done | by apply Ho].
  - apply iter_result; [done | done | by apply Hi].
Qed.

Lemma iter_ok_middle (l kept rest : list GddEdge) e :
  NoDup (map ed_addr l) -> l = kept ++ e :: rest -> iter_ok (Some (kept ++ rest)) l e.
Proof.
  intros Hnd -> l' [= <-]. rewrite map_app in Hnd. cbn in Hnd.
  apply NoDup_app in Hnd as (H1 & H2 & H3). apply NoDup_cons in H3 as [H3 H4].
  assert (Hk : e ∉ kept) by (intros He; apply (H2 (ed_addr e)); [by apply list_elem_of_fmap_2 | left]).
  assert (Hr : e ∉ rest) by (intros He; apply H3; by apply list_elem_of_fmap_2).
  split.
  - rewrite map_app. apply NoDup_app. split_and!; [done | | done].
    intros x Hx Hx'. apply (H2 x Hx). by right.
  - intros e'. rewrite !elem_of_app, elem_of_cons. split.
    + intros [H | H]; (split; [tauto |]); intros ->; done.
    + intros [[H | [-> | H]] Hne]; tauto.
Qed.

(** The loop over the in edges of a vertex removes those it does not skip. *)
Lemma unlink_in_edges_ok skip sk vid rest : forall kept ctx G dirty v,
  ctx_rep ctx G -> vert_of ctx sk vid = Some v -> v_edgesIn v = kept ++ rest ->
  exists ctx' G',
    unlink_in_edges skip sk kept rest ctx dirty =
      Ok (dirty || existsb (fun e => negb (skip && ed_solid e)) rest, ctx') /\
    ctx_rep ctx' G' /\ ctx_shape ctx' = ctx_shape ctx /\
    (forall x, x ∈ G' <-> x ∈ G /\ ~ (fst x = sk /\ snd x ∈ rest /\ skip && ed_solid (snd x) = false)) /\
    ((forall e, e ∈ rest -> skip && ed_solid e = false -> w_removable G (sk, e)) -> w_reduces G G').
Proof.
  induction rest as [| e rest IH]; intros kept ctx G dirty v R Hv Hin; cbn [unlink_in_edges existsb].
  { exists ctx, G. rewrite orb_false_r. split_and!; [done | done | done | |].
    - intros x. split; [intros Hx; split; [done | by intros (_ & ?%not_elem_of_nil & _)] | tauto].
    - intros _. apply rtc_refl. }
  destruct (skip && ed_solid e) eqn:Esk; cbn [negb].
  - destruct (IH (kept ++ [e]) ctx G dirty v R Hv) as (ctx' & G' & E & R' & Sh & Hm & Hred);
      [by rewrite <- app_assoc |].
    exists ctx', G'. rewrite E. split_and!; [done | done | done | |].
    + intros x. rewrite Hm, elem_of_cons. split; intros [Hx Hn]; (split; [done |]); intros (H1 & H2 & H3);
        apply Hn; split_and!; try done; [| by right]. destruct H2 as [H2 | H2]; [rewrite H2 in H3; congruence | done].
    + intros Hr. apply Hred. intros e' He'. apply Hr. by right.
  - destruct (rep_in _ _ R _ _ _ Hv) as [Hnd Hmem].
    assert (He : (sk, e) ∈ G /\ ed_to e = vid) by (apply Hmem; rewrite Hin, elem_of_app, elem_of_cons; tauto).
    destruct He as [He Hto]. destruct (rep_ends _ _ R _ _ He) as [[vf Hf] [vt Ht]].
    rewrite Hto in Ht. assert (vt = v) as -> by congruence. rewrite <- Hto in Ht.
    destruct (gddEdgeUnlink_ok ctx G sk e None (Some (kept ++ rest)) vf v R He Hf Ht)
      as (c1 & E1 & R1 & U1); [done | by apply iter_ok_middle |].
    rewrite E1. cbn [mbind outcome_bind].
    pose proof (ul_vert _ _ _ _ _ _ U1 sk vid) as Hv1. rewrite Hv in Hv1.
    destruct Hv1 as (v1 & Hv1 & Hin1 & _). rewrite Z.eqb_refl, Hto, Z.eqb_refl in Hin1.
    destruct (IH kept c1 (without (sk, e) G) true v1 R1 Hv1 Hin1) as (ctx' & G' & E & R' & Sh & Hm & Hred).
    exists ctx', G'. rewrite E. cbn [orb]. rewrite orb_true_r.
    split_and!; [done | done | by rewrite Sh, (ul_shape _ _ _ _ _ _ U1) | |].
    + intros [sx ex]. rewrite Hm, elem_of_without, elem_of_cons. cbn [fst snd].
      split; intros H; [destruct H as [[H1 H2] H3]; split; [done |] | destruct H as [H1 H2]; split; [split; [done |] |]].
      * intros (-> & [-> | H4] & H5); [by apply H2 | by apply H3].
      * intros [= -> ->]. apply H2. split_and!; [done | by left | done].
      * intros (-> & H4 & H5). apply H2. split_and!; [done | by right | done].
    + intros Hr. eapply rtc_l; [exists (sk, e); split_and!; [done | apply Hr; [left | done] | done] |].
      apply Hred. intros e' He' Hs'. eapply removable_mono; [| apply Hr; [by right | done]].
      intros x Hx. by apply elem_of_without in Hx as [? _].
Qed.

Lemma unlink_out_edges_ok sk vid rest : forall kept ctx G dirty v,
  ctx_rep ctx G -> vert_of ctx sk vid = Some v -> v_edgesOut v = kept ++ rest ->
  exists ctx' G',
    unlink_out_edges sk kept rest ctx dirty = Ok (dirty || negb (bool_decide (rest = [])), ctx') /\
    ctx_rep ctx' G' /\ ctx_shape ctx' = ctx_shape ctx /\
    (forall x, x ∈ G' <-> x ∈ G /\ ~ (fst x = sk /\ snd x ∈ rest)) /\
    ((forall e, e ∈ rest -> w_removable G (sk, e)) -> w_reduces G G').
Proof.
  induction rest as [| e rest IH]; intros kept ctx G dirty v R Hv Hin; cbn [unlink_out_edges].
  { exists ctx, G. rewrite bool_decide_true by done. cbn [negb]. rewrite orb_false_r.
    split_and!; [done | done | done | |].
    - intros x. split; [intros Hx; split; [done | by intros (_ & ?%not_elem_of_nil)] | tauto].
    - intros _. apply rtc_refl. }
  destruct (rep_out _ _ R _ _ _ Hv) as [Hnd Hmem].
  assert (He : (sk, e) ∈ G /\ ed_from e = vid) by (apply Hmem; rewrite Hin, elem_of_app, elem_of_cons; tauto).
  destruct He as [He Hfrom]. destruct (rep_ends _ _ R _ _ He) as [[vf Hf] [vt Ht]].
  rewrite Hfrom in Hf. assert (vf = v) as -> by congruence. rewrite <- Hfrom in Hf.
  destruct (gddEdgeUnlink_ok ctx G sk e (Some (kept ++ rest)) None v vt R He Hf Ht)
    as (c1 & E1 & R1 & U1); [by apply iter_ok_middle | done |].
  rewrite E1. cbn [mbind outcome_bind].
  pose proof (ul_vert _ _ _ _ _ _ U1 sk vid) as Hv1. rewrite Hv in Hv1.
  destruct Hv1 as (v1 & Hv1 & _ & Hout1). rewrite Z.eqb_refl, Hfrom, Z.eqb_refl in Hout1.
  destruct (IH kept c1 (without (sk, e) G) true v1 R1 Hv1 Hout1) as (ctx' & G' & E & R' & Sh & Hm & Hred).
  exists ctx', G'. rewrite E. cbn [orb]. rewrite bool_decide_false, orb_true_r by done.
  split_and!; [done | done | by rewrite Sh, (ul_shape _ _ _ _ _ _ U1) | |].
  - intros [sx ex]. rewrite Hm, elem_of_without, elem_of_cons. cbn [fst snd].
    split; intros H; [destruct H as [[H1 H2] H3]; split; [done |] | destruct H as [H1 H2]; split; [split; [done |] |]].
    + intros (-> & [-> | H4]); [by apply H2 | by apply H3].
    + intros [= -> ->]. apply H2. split; [done | by left].
    + intros (-> & H4). apply H2. split; [done | by right].
  - intros Hr. eapply rtc_l; [exists (sk, e); split_and!; [done | apply Hr; left | done] |].
    apply Hred. intros e' He'. eapply removable_mono; [| apply Hr; by right].
    intros x Hx. by apply elem_of_without in Hx as [? _].
Qed.

(** An edge of the graph that touches a vertex. *)
Definition touches (sk vid : Z) (x : wait) : Prop :=
  w_seg x = sk /\ (w_from x = vid \/ w_to x = vid).

Lemma vert_of_shape ctx ctx' sk vid :
  shape_ok (ctx_shape ctx) -> ctx_shape ctx' = ctx_shape ctx ->
  is_Some (vert_of ctx sk vid) -> is_Some (vert_of ctx' sk vid).
Proof.
  intros Hok Hsh [v Hv].
  assert (Hlook : forall c, match pairs_get (ctx_shape c) sk with
                       | Some p => is_Some (pairs_get (snd p) vid) | None => False end
                       <-> is_Some (vert_of c sk vid)).
  { intros c. unfold vert_of, gddMapGet, gddMapGetPair, ctx_shape.
    induction (m_pairs (graphs c)) as [| [k g] l IH]; cbn; [split; [done | by intros [? ?]] |].
    destruct (k =? sk); [| apply IH]. cbn. clear IH. unfold graph_shape.
    induction (m_pairs (g_verts g)) as [| [k1 v1] l1 IH]; cbn; [split; by intros [? ?] |].
    destruct (k1 =? vid); [split; eauto | apply IH]. }
  apply Hlook. rewrite Hsh. apply Hlook. eauto.
Qed.

Lemma gddVertUnlinkAll_ok ctx G sk vid v :
  ctx_rep ctx G -> vert_of ctx sk vid = Some v ->
  exists d ctx' G', gddVertUnlinkAll ctx sk vid = Ok (d, ctx') /\
    ctx_rep ctx' G' /\ ctx_shape ctx' = ctx_shape ctx /\
    (forall x, x ∈ G' <-> x ∈ G /\ ~ touches sk vid x) /\
    ((forall x, x ∈ G -> touches sk vid x -> w_removable G x) -> w_reduces G G') /\
    (d = false -> forall x, x ∈ G -> ~ touches sk vid x) /\
    (d = true -> exists x, x ∈ G /\ touches sk vid x).
Proof.
  intros R Hv. unfold gddVertUnlinkAll. rewrite (ctx_get_vert_of _ _ _ _ Hv). cbn [mbind outcome_bind].
  destruct (rep_in _ _ R _ _ _ Hv) as [_ Hin].
  destruct (unlink_in_edges_ok false sk vid (v_edgesIn v) [] ctx G false v R Hv eq_refl)
    as (c1 & G1 & E1 & R1 & Sh1 & Hm1 & Hr1). rewrite E1. cbn [mbind outcome_bind andb orb negb] in *.
  destruct (vert_of_shape ctx c1 sk vid (rep_shape _ _ R) Sh1) as [v1 Hv1]; [eauto |].
  rewrite (ctx_get_vert_of _ _ _ _ Hv1). cbn [mbind outcome_bind].
  destruct (rep_out _ _ R1 _ _ _ Hv1) as [_ Hout].
  set (d1 := existsb _ _) in *.
  destruct (unlink_out_edges_ok sk vid (v_edgesOut v1) [] c1 G1 d1 v1 R1 Hv1 eq_refl)
    as (c2 & G2 & E2 & R2 & Sh2 & Hm2 & Hr2). rewrite E2.
  assert (Hmem : forall x, x ∈ G2 <-> x ∈ G /\ ~ touches sk vid x).
  { intros [sx ex]. rewrite Hm2, Hm1. cbn [fst snd]. unfold touches, w_seg, w_from, w_to. cbn [fst snd].
    rewrite Hin, Hout, Hm1. cbn [fst snd]. rewrite Hin. naive_solver. }
  do 3 eexists. split_and!; [done | done | congruence | done | | |].
  - intros Hr. unfold w_reduces, reduces in *. etrans; [apply Hr1 | apply Hr2].
    + intros e He _. apply Hin in He as [He Hto]. apply Hr; [done |]. split; [done | by right].
    + intros e He. apply Hout in He as [He Hfrom]. eapply removable_mono;
        [| apply Hr; [by apply Hm1 in He as [? _] | split; [done | by left]]].
      intros x Hx. by apply Hm1 in Hx as [? _].
  - intros [Hd1 Hd2]%orb_false_iff x Hx Ht. apply negb_false_iff, bool_decide_eq_true in Hd2.
    assert (v_edgesIn v = []) as E0.
    { unfold d1 in Hd1. destruct (v_edgesIn v); [done | done]. }
    destruct x as [sx ex]. destruct Ht as [Hs Ht]. unfold w_seg, w_from, w_to in *. cbn in *. subst sx.
    destruct Ht as [Ht | Ht].
    + assert (He : ex ∈ v_edgesOut v1); [| rewrite Hd2 in He; by apply not_elem_of_nil in He].
      apply Hout. split; [| done]. apply Hm1. split; [done |]. rewrite E0. by intros (_ & ?%not_elem_of_nil & _).
    + assert (He : ex ∈ v_edgesIn v) by (by apply Hin). rewrite E0 in He. by apply not_elem_of_nil in He.
  - intros [Hd1 | Hd2]%orb_true_iff.
    + unfold d1 in Hd1. destruct (v_edgesIn v) as [| e l] eqn:El; [done |].
      destruct (proj1 (Hin e) ltac:(left)) as [He Ht]. exists (sk, e). split; [done |]. split; [done | by right].
    + apply negb_true_iff, bool_decide_eq_false in Hd2. destruct (v_edgesOut v1) as [| e l]; [done |].
      destruct (proj1 (Hout e) ltac:(left)) as [He Ht]. exists (sk, e).
      split; [by apply Hm1 in He as [? _] |]. split; [done | by left].
Qed.

(** ** Reducing a vertex *)

(** Nothing more can be removed at a vertex. *)
Definition vert_reduced (G : list wait) (sk vid : Z) : Prop :=
  (no_in w_to G vid \/ no_out w_from G vid -> forall x, x ∈ G -> ~ touches sk vid x) /\
  (no_local_out w_seg w_from G sk vid ->
   forall x, x ∈ G -> w_seg x = sk -> w_to x = vid -> w_solid x = true).

Lemma count_zero P G : count P G = 0 <-> Forall (fun x => P x = false) G.
Proof.
  unfold count, zlen. induction G as [| x G IH]; cbn; [split; constructor |].
  rewrite Forall_cons, <- IH. destruct (P x); cbn [length]; split; intros; try lia; naive_solver lia.
Qed.

Lemma count_no_in G vid : count (fun x => w_to x =? vid) G = 0 <-> no_in w_to G vid.
Proof. rewrite count_zero. unfold no_in. apply Forall_proper; [| done]. intros x. lia. Qed.

Lemma count_no_out G vid : count (fun x => w_from x =? vid) G = 0 <-> no_out w_from G vid.
Proof. rewrite count_zero. unfold no_out. apply Forall_proper; [| done]. intros x. lia. Qed.

(** All edges at a transaction without in edges or without out edges may go. *)
Lemma touches_removable G sk vid x :
  no_in w_to G vid \/ no_out w_from G vid -> x ∈ G -> touches sk vid x -> w_removable G x.
Proof.
  unfold w_removable, removable, releasable, no_in, no_out. rewrite !Forall_forall.
  intros Hno Hx [_ [Hf | Ht]].
  - destruct Hno as [H | H]; [left; by rewrite Hf | by destruct (H x Hx)].
  - destruct Hno as [H | H]; [by destruct (H x Hx) | right; left; by rewrite Ht].
Qed.

Lemma smaller_graph (G G' : list wait) x :
  NoDup G' -> (forall y, y ∈ G' -> y ∈ G) -> x ∈ G -> x ∉ G' -> (length G' < length G)%nat.
Proof.
  intros Hnd Hsub Hx Hn. apply NoDup_cons_2 with (x := x) in Hnd; [| done].
  assert (Hs : x :: G' ⊆+ G).
  { apply NoDup_submseteq; [done |]. intros y [-> | Hy]%elem_of_cons; auto. }
  apply submseteq_length in Hs. cbn in Hs. lia.
Qed.

Definition reduce_outcome (ctx : GddCtx) (G : list wait) (d : bool) (ctx' : GddCtx) (G' : list wait)
  : Prop :=
  ctx_rep ctx' G' /\ w_reduces G G' /\
  (d = true -> (length G' < length G)%nat) /\ (d = false -> G' = G).

Lemma count_perm P G G' : G ≡ₚ G' -> count P G = count P G'.
Proof.
  unfold count, zlen. induction 1 as [| x G G' _ IH | x y G | G1 G2 G3 _ IH1 _ IH2]; cbn;
    [done | destruct (P x); cbn [length]; lia | destruct (P x), (P y); done | lia].
Qed.

Lemma rep_perm ctx G G' : G ≡ₚ G' -> ctx_rep ctx G -> ctx_rep ctx G'.
Proof.
  intros Hp R. destruct R as [R1 R2 R3 R4 R5 R6 R7 R8 R9]. constructor; try done.
  - by rewrite <- Hp.
  - by rewrite <- Hp.
  - intros sk vid v Hv. destruct (R4 sk vid v Hv) as [? H]. split; [done |]. intros e. by rewrite H, Hp.
  - intros sk vid v Hv. destruct (R5 sk vid v Hv) as [? H]. split; [done |]. intros e. by rewrite H, Hp.
  - intros sk e He. apply R6. by rewrite Hp.
  - intros vid s Hs. rewrite <- !(count_perm _ _ _ Hp). auto.
  - unfold zlen in *. by rewrite <- Hp.
Qed.

(** The same edges in another order. *)
Lemma rep_same ctx G G' :
  ctx_rep ctx G -> NoDup G' -> (forall x, x ∈ G <-> x ∈ G') -> ctx_rep ctx G'.
Proof.
  intros R Hnd Hm. eapply rep_perm; [| exact R]. apply NoDup_Permutation; [| done | done].
  by eapply rep_nodup.
Qed.

Lemma gddVertReduce_ok ctx G sk vid v :
  ctx_rep ctx G -> vert_of ctx sk vid = Some v ->
  exists d ctx' G', gddVertReduce ctx sk vid = Ok (d, ctx') /\ ctx_shape ctx' = ctx_shape ctx /\
    reduce_outcome ctx G d ctx' G' /\ (d = false -> vert_reduced G sk vid).
Proof.
  intros R Hv. unfold gddVertReduce. destruct (rep_bound _ _ R _ _ _ Hv) as [s Hs]. rewrite Hs.
  destruct (rep_stat _ _ R _ _ Hs) as [Hi Ho]. pose proof (rep_nodup _ _ R) as Hnd.
  destruct ((st_indeg s =? 0) || (st_outdeg s =? 0)) eqn:E0.
  - assert (Hno : no_in w_to G vid \/ no_out w_from G vid).
    { rewrite <- count_no_in, <- count_no_out. lia. }
    destruct (gddVertUnlinkAll_ok ctx G sk vid v R Hv)
      as (d & ctx' & G' & E & R' & Sh & Hm & Hred & Hf & Ht). rewrite E.
    specialize (Hred (fun x Hx => touches_removable G sk vid x Hno Hx)).
    destruct d.
    + exists true, ctx', G'. split_and!; [done | done | | done]. split_and!; [done | done | | done].
      intros _. destruct (Ht eq_refl) as (x & Hx & Hxt). apply (smaller_graph G G' x); [by eapply rep_nodup | | done |].
      * intros y Hy. by apply Hm in Hy as [? _].
      * rewrite Hm. tauto.
    + specialize (Hf eq_refl). exists false, ctx', G. split_and!; [done | done | |].
      * split_and!; [| apply rtc_refl | done | done]. eapply rep_same; [exact R' | done |].
        intros x. rewrite Hm. split; [tauto | auto].
      * intros _. split; [done |]. intros _ x Hx H1 H2. destruct (Hf x Hx). split; [done | by right].
  - assert (Hno : ~ (no_in w_to G vid \/ no_out w_from G vid)).
    { rewrite <- count_no_in, <- count_no_out. lia. }
    rewrite (ctx_get_vert_of _ _ _ _ Hv). cbn [mbind outcome_bind]. unfold gddVertGetOutDegree, zlen.
    destruct (rep_out _ _ R _ _ _ Hv) as [_ Hout]. destruct (rep_in _ _ R _ _ _ Hv) as [_ Hin].
    destruct (v_edgesOut v) as [| e0 l0] eqn:Eo; cbn [length Z.eqb].
    + assert (Hloc : no_local_out w_seg w_from G sk vid).
      { apply Forall_forall. intros [sx ex] Hx Hfx Hsx. unfold w_seg, w_from in *. cbn in *. subst sx.
        by apply (not_elem_of_nil ex), Hout. }
      change (Z.of_nat 0 =? 0) with true. cbv iota.
      destruct (unlink_in_edges_ok true sk vid (v_edgesIn v) [] ctx G false v R Hv eq_refl)
        as (ctx' & G' & E & R' & Sh & Hm & Hred). rewrite E. cbn [orb andb] in *.
      set (d := existsb _ _) in *. exists d, ctx'. destruct d eqn:Ed.
      * exists G'. split_and!; [done | done | | done]. split_and!; [done | | | done].
        -- apply Hred. intros e He Hse. apply Hin in He as [He Hto]. right. right.
           split; [done |]. unfold w_seg, w_to. cbn. by rewrite Hto.
        -- intros _. apply existsb_exists in Ed as (e & He & Hse). apply list_elem_of_In in He.
           apply negb_true_iff in Hse. pose proof (proj1 (Hin e) He) as [HeG _].
           apply (smaller_graph G G' (sk, e)); [by eapply rep_nodup | | done |].
           ++ intros y Hy. by apply Hm in Hy as [? _].
           ++ rewrite Hm. cbn [fst snd]. tauto.
      * assert (Hsolid : forall e, e ∈ v_edgesIn v -> ed_solid e = true).
        { intros e He. destruct (ed_solid e) eqn:Es; [done |]. exfalso.
          assert (Hd : d = true); [| congruence]. apply existsb_exists. exists e.
          split; [by apply list_elem_of_In | by rewrite Es]. }
        exists G. split_and!; [done | done | |].
        -- split_and!; [| apply rtc_refl | done | done]. eapply rep_same; [exact R' | done |].
           intros x. rewrite Hm. split; [tauto |]. intros Hx. split; [done |].
           intros (_ & Hx2 & Hx3). by rewrite (Hsolid _ Hx2) in Hx3.
        -- intros _. split; [intros ?; by destruct Hno |]. intros _ [sx ex] Hx Hs1 Ht1.
           unfold w_seg, w_to, w_solid in *. cbn in *. subst sx. apply Hsolid, Hin. done.
    + exists false, ctx, G. rewrite (proj2 (Z.eqb_neq _ 0)) by lia.
      split_and!; [done | done | split_and!; [done | apply rtc_refl | done | done] |].
      intros _. split; [intros ?; by destruct Hno |]. intros Hl x Hx H1 H2. exfalso.
      destruct (proj1 (Hout e0) ltac:(left)) as [He0 Hf0]. unfold no_local_out in Hl.
      rewrite Forall_forall in Hl. apply (Hl (sk, e0) He0); done.
Qed.

(** ** Walking through the vertices of a graph *)

Lemma ctx_verts_inv ctx sk l :
  ctx_verts sk ctx = Ok l -> exists g, gddMapGet (graphs ctx) sk = Some g /\ m_pairs (g_verts g) = l.
Proof.
  unfold ctx_verts. destruct (gddMapGet (graphs ctx) sk) as [g |]; [| done]. intros [= <-]. eauto.
Qed.

Lemma pairs_get_map {A B} (h : A -> B) (l : list (Z * A)) k :
  pairs_get (map (fun p => (fst p, h (snd p))) l) k =
  (fun p => (fst p, h (snd p))) <$> pairs_get l k.
Proof.
  induction l as [| p l IH]; [done |]. cbn [map pairs_get fst]. destruct (fst p =? k); [done | apply IH].
Qed.

(** The same shape gives the same keys at the same positions. *)
Lemma ctx_verts_shape ctx ctx' sk l :
  ctx_shape ctx' = ctx_shape ctx -> ctx_verts sk ctx = Ok l ->
  exists l', ctx_verts sk ctx' = Ok l' /\
    map (fun q => (fst q, v_id (snd q))) l' = map (fun q => (fst q, v_id (snd q))) l.
Proof.
  intros Hsh (g & Hg & <-)%ctx_verts_inv. unfold ctx_verts, gddMapGet, gddMapGetPair in *.
  apply (f_equal (fun s => pairs_get s sk)) in Hsh. unfold ctx_shape in Hsh.
  rewrite !pairs_get_map in Hsh. destruct (pairs_get (m_pairs (graphs ctx)) sk) as [p |]; [| done].
  injection Hg as <-. destruct (pairs_get (m_pairs (graphs ctx')) sk) as [p' |]; [| done].
  cbn in Hsh. injection Hsh as _ Hsh. eexists. split; [done |]. exact Hsh.
Qed.

Lemma vert_at_pos ctx sk l pos k v :
  shape_ok (ctx_shape ctx) -> ctx_verts sk ctx = Ok l -> l !! pos = Some (k, v) ->
  v_id v = k /\ 0 <= k /\ vert_of ctx sk k = Some v.
Proof.
  intros Hok (g & Hg & <-)%ctx_verts_inv Hl. destruct (shape_get ctx sk g Hok Hg) as [Hv _].
  destruct (graph_shape_id g pos k v Hv Hl) as [Hid Hk]. split_and!; [done | done |].
  unfold vert_of. rewrite Hg. unfold gddMapGet, gddMapGetPair.
  by rewrite (pairs_get_lookup _ pos k v (graph_shape_nodup g Hv) Hl).
Qed.

Lemma vert_in_list ctx sk l vid v :
  ctx_verts sk ctx = Ok l -> vert_of ctx sk vid = Some v -> exists i, l !! i = Some (vid, v).
Proof.
  intros (g & Hg & <-)%ctx_verts_inv Hv. unfold vert_of in Hv. rewrite Hg in Hv.
  unfold gddMapGet, gddMapGetPair in Hv.
  destruct (pairs_get (m_pairs (g_verts g)) vid) as [[k v'] |] eqn:E; [| done].
  cbn in Hv. injection Hv as ->. apply pairs_get_elem in E as [He Hk]. cbn in Hk. subst k.
  by apply list_elem_of_lookup in He.
Qed.

Lemma pairs_update_fst {A} (l : list (Z * A)) k f : map fst (pairs_update l k f) = map fst l.
Proof.
  induction l as [| p l IH]; [done |]. cbn. rewrite IH. by destruct (fst p =? k).
Qed.

Lemma vids_ok_delete l l' pos : l' ≡ₚ delete pos l -> vids_ok l -> vids_ok l'.
Proof.
  intros Hp [H1 H2]. split.
  - rewrite Hp. rewrite (list_fmap_delete fst). eapply sublist_NoDup; [exact H1 | apply sublist_delete].
  - rewrite Hp. by apply Forall_delete.
Qed.

Lemma pairs_update_elem {A} (l : list (Z * A)) k f p :
  p ∈ pairs_update l k f -> (p ∈ l /\ fst p <> k) \/ exists v, (k, v) ∈ l /\ p = (k, f v).
Proof.
  induction l as [| [k1 v1] l IH]; cbn [pairs_update fst snd]; [by intros ?%not_elem_of_nil |].
  rewrite elem_of_cons. intros [-> | H].
  - destruct (Z.eqb_spec k1 k) as [-> |]; [right; exists v1; split; [left | done] | left; split; [left | done]].
  - destruct (IH H) as [[? ?] | (v & ? & ?)]; [left; split; [by right | done] | right; exists v; split; [by right | done]].
Qed.

Lemma pairs_get_delete {A} (l : list (Z * A)) pos k v k' :
  NoDup (map fst l) -> l !! pos = Some (k, v) ->
  pairs_get (delete pos l) k' = if k' =? k then None else pairs_get l k'.
Proof.
  revert pos. induction l as [| [k1 v1] l IH]; intros pos Hnd Hpos; [done |]. cbn in Hnd.
  apply NoDup_cons in Hnd as [Hn Hnd]. destruct pos as [| pos]; cbn in Hpos |- *.
  - injection Hpos as -> ->. rewrite (Z.eqb_sym k k'). destruct (Z.eqb_spec k' k) as [E |]; [| done].
    rewrite E. by apply pairs_get_None.
  - destruct (Z.eqb_spec k1 k') as [E |]; [| by apply IH].
    assert (Hk : k1 <> k); [| subst k'; by rewrite (proj2 (Z.eqb_neq k1 k))].
    intros ->. apply Hn. apply list_elem_of_fmap. exists (k, v).
    split; [done | by eapply list_elem_of_lookup_2].
Qed.

Lemma update_graph_shape ctx sk f gs next :
  shape_ok (ctx_shape ctx) -> gddMapUpdate (graphs ctx) sk f = Ok gs ->
  (forall g, gddMapGet (graphs ctx) sk = Some g -> vids_ok (graph_shape (f g))) ->
  shape_ok (ctx_shape (mkGddCtx (topstat ctx) (globals ctx) gs next)).
Proof.
  intros Hok Eu Hf. destruct (gddMapGet_update _ _ _ _ Eu) as [Hgp _]. destruct Hok as [Hn Hall].
  unfold shape_ok, ctx_shape in *. cbn [graphs]. rewrite Hgp.
  rewrite !map_map in *. cbn [fst] in *. split.
  - rewrite (map_ext _ fst) by done. rewrite (map_ext _ fst) in Hn by done. by rewrite pairs_update_fst.
  - rewrite Forall_fmap in *. rewrite Forall_forall in Hall |- *. intros p Hp.
    apply pairs_update_elem in Hp as [[Hp _] | (g0 & Hp & ->)]; [by apply Hall |]. apply Hf.
    rewrite (map_ext _ fst) in Hn by done. apply list_elem_of_lookup in Hp as [i Hi].
    unfold gddMapGet, gddMapGetPair. by rewrite (pairs_get_lookup _ i sk g0 Hn Hi).
Qed.

(** Deleting a vertex without edges leaves the graph as it is. *)
Lemma delete_vert_ok ctx G sk l pos vid v :
  ctx_rep ctx G -> ctx_verts sk ctx = Ok l -> l !! pos = Some (vid, v) ->
  v_edgesIn v = [] -> v_edgesOut v = [] ->
  exists ctx', ctx_graph sk (graph_verts (fun l => pairs_iter_delete l pos)) ctx = Ok ctx' /\
    ctx_rep ctx' G /\ ctx_verts sk ctx' = Ok (pairs_iter_delete l pos) /\
    ctx_segkeys ctx' = ctx_segkeys ctx /\
    forall sk' vid', vert_of ctx' sk' vid' =
      if (sk' =? sk) && (vid' =? vid) then None else vert_of ctx sk' vid'.
Proof.
  intros R Hl Hpos Ein Eout. pose proof (rep_shape _ _ R) as Hok.
  destruct (vert_at_pos ctx sk l pos vid v Hok Hl Hpos) as (_ & _ & Hv).
  destruct (ctx_verts_inv ctx sk l Hl) as (g & Hg & Hgl).
  destruct (shape_get ctx sk g Hok Hg) as [Hvg _]. pose proof (graph_shape_nodup g Hvg) as Hndl.
  rewrite Hgl in Hndl. destruct (pairs_iter_delete_spec l pos _ Hpos) as (Hperm & _ & _).
  unfold ctx_graph. destruct (gddMapUpdate (graphs ctx) sk _) as [gs | |] eqn:Eu;
    [| unfold gddMapUpdate in Eu; by rewrite Hg in Eu ..].
  cbn [mbind outcome_bind]. destruct (gddMapGet_update _ _ _ _ Eu) as [Hgp Hget].
  set (ctx' := mkGddCtx _ _ _ _). exists ctx'. split; [done |].
  assert (Hvert : forall sk' vid', vert_of ctx' sk' vid' =
      if (sk' =? sk) && (vid' =? vid) then None else vert_of ctx sk' vid').
  { intros sk' vid'. unfold vert_of, ctx'. cbn [graphs]. rewrite Hget, Hg.
    destruct (Z.eqb_spec sk' sk) as [-> |]; [| done]. rewrite Hg. cbn. unfold gddMapGet, gddMapGetPair. cbn.
    rewrite Hgl. assert (Hnd' : NoDup (map fst (pairs_iter_delete l pos))).
    { rewrite Hperm, (list_fmap_delete fst). eapply sublist_NoDup; [exact Hndl | apply sublist_delete]. }
    rewrite (pairs_get_perm _ _ vid' Hnd' Hperm), (pairs_get_delete l pos vid v) by done.
    by destruct (vid' =? vid). }
  split_and!; [| unfold ctx_verts, ctx'; cbn [graphs]; rewrite Hget, Z.eqb_refl, Hg; cbn; by rewrite Hgl
               | unfold ctx_segkeys, ctx'; cbn [graphs]; by rewrite Hgp, pairs_update_fst | done].
  assert (Hback : forall sk' vid' v', vert_of ctx' sk' vid' = Some v' -> vert_of ctx sk' vid' = Some v').
  { intros sk' vid' v'. rewrite Hvert. by destruct (_ && _). }
  destruct (rep_in _ _ R _ _ _ Hv) as [_ Hin]. destruct (rep_out _ _ R _ _ _ Hv) as [_ Hout].
  rewrite Ein in Hin. rewrite Eout in Hout. destruct R as [R1 R2 R3 R4 R5 R6 R7 R8 R9].
  constructor; try done; [| by eauto.. | |  by eauto].
  - eapply update_graph_shape; [done | exact Eu |]. intros g0 Hg0. assert (g0 = g) as -> by congruence.
    apply (vids_ok_delete (graph_shape g) _ pos); [| done].
    unfold graph_shape, graph_verts. cbn. by rewrite <- list_fmap_delete, Hgl, Hperm.
  - intros sk' e He. destruct (R6 sk' e He) as [Hf Ht]. rewrite !Hvert.
    assert (sk' = sk -> ed_from e <> vid) by (intros -> E; by apply (not_elem_of_nil e), Hout).
    assert (sk' = sk -> ed_to e <> vid) by (intros -> E; by apply (not_elem_of_nil e), Hin).
    destruct (Z.eqb_spec sk' sk) as [-> |]; cbn [andb]; [| done].
    rewrite (proj2 (Z.eqb_neq (ed_from e) vid)), (proj2 (Z.eqb_neq (ed_to e) vid)) by auto. done.
Qed.

(** What a pass over some vertices achieves: it removes edges according to the
    rules, never adds a vertex, and reports whether an edge was removed. *)
Record passed (ctx : GddCtx) (G : list wait) (dirty d : bool) (ctx' : GddCtx) (G' : list wait)
  : Prop := {
  pa_rep : ctx_rep ctx' G';
  pa_reduces : w_reduces G G';
  pa_segkeys : ctx_segkeys ctx' = ctx_segkeys ctx;
  pa_verts : forall sk vid, is_Some (vert_of ctx' sk vid) -> is_Some (vert_of ctx sk vid);
  pa_clean : d = false -> dirty = false /\ G' = G;
  pa_dirty : d = true -> dirty = true \/ (length G' < length G)%nat
}.

Lemma reduces_length G G' : w_reduces G G' -> (length G' <= length G)%nat.
Proof.
  induction 1 as [| G1 G2 G3 (e & He & _ & ->) _ IH]; [done |].
  pose proof (without_length e G1 He). lia.
Qed.

Lemma passed_trans ctx G dirty d1 ctx1 G1 d2 ctx2 G2 :
  passed ctx G dirty d1 ctx1 G1 -> passed ctx1 G1 d1 d2 ctx2 G2 -> passed ctx G dirty d2 ctx2 G2.
Proof.
  intros P1 P2. pose proof (reduces_length _ _ (pa_reduces _ _ _ _ _ _ P1)) as L1.
  pose proof (reduces_length _ _ (pa_reduces _ _ _ _ _ _ P2)) as L2. constructor.
  - apply P2.
  - etrans; [apply P1 | apply P2].
  - rewrite (pa_segkeys _ _ _ _ _ _ P2). apply P1.
  - intros sk vid H. apply (pa_verts _ _ _ _ _ _ P1), (pa_verts _ _ _ _ _ _ P2), H.
  - intros ->. destruct (pa_clean _ _ _ _ _ _ P2 eq_refl) as [-> ->]. by apply P1.
  - intros Hd. destruct (pa_dirty _ _ _ _ _ _ P2 Hd) as [-> | H].
    + destruct (pa_dirty _ _ _ _ _ _ P1 eq_refl); [by left | right; lia].
    + right. lia.
Qed.

Lemma segkeys_shape ctx ctx' : ctx_shape ctx' = ctx_shape ctx -> ctx_segkeys ctx' = ctx_segkeys ctx.
Proof.
  intros H. apply (f_equal (map fst)) in H. unfold ctx_shape in H. rewrite !map_map in H.
  unfold ctx_segkeys. exact H.
Qed.

(** One vertex. *)
Lemma gddVertReduce_passed ctx G sk vid v dirty :
  ctx_rep ctx G -> vert_of ctx sk vid = Some v ->
  exists d ctx' G', gddVertReduce ctx sk vid = Ok (d, ctx') /\ ctx_shape ctx' = ctx_shape ctx /\
    passed ctx G dirty (dirty || d) ctx' G' /\ (dirty || d = false -> vert_reduced G sk vid).
Proof.
  intros R Hv. destruct (gddVertReduce_ok ctx G sk vid v R Hv)
    as (d & ctx' & G' & E & Sh & (R' & Hred & Ht & Hf) & Hvr).
  exists d, ctx', G'. split_and!; [done | done | | by intros [_ ?]%orb_false_iff; auto].
  constructor; [done | done | by apply segkeys_shape | | |].
  - intros sk' vid' H. eapply vert_of_shape; [exact (rep_shape _ _ R') | by symmetry | done].
  - intros [-> ->]%orb_false_iff. auto.
  - intros [-> | ->]%orb_true_iff; auto.
Qed.

(** The vertices of one graph: when no edge is removed, every vertex that is
    left has been examined. *)
Lemma reduce_verts_ok fuel sk : forall pos ctx G dirty l,
  ctx_rep ctx G -> ctx_verts sk ctx = Ok l -> (length l - pos <= fuel)%nat ->
  (dirty = false -> forall i k v, (i < pos)%nat -> l !! i = Some (k, v) -> vert_reduced G sk k) ->
  exists d ctx' G', reduce_verts fuel sk pos ctx dirty = Ok (d, ctx') /\
    passed ctx G dirty d ctx' G' /\
    (d = false -> forall vid, is_Some (vert_of ctx' sk vid) -> vert_reduced G sk vid).
Proof.
  induction fuel as [| fuel IH]; intros pos ctx G dirty l R Hl Hfuel Hdone;
    cbn [reduce_verts]; rewrite Hl; cbn [mbind outcome_bind];
    (destruct (l !! pos) as [[k v] |] eqn:Epos;
      [| exists dirty, ctx, G; split_and!; [done | constructor; (done || auto using rtc_refl) |]]).
  2,4: intros Hd vid [v Hv]; destruct (vert_in_list ctx sk l vid v Hl Hv) as [i Hi];
    apply (Hdone Hd i vid v); [| done]; apply lookup_lt_Some in Hi; apply lookup_ge_None in Epos; lia.
  { apply lookup_lt_Some in Epos. lia. }
  destruct (vert_at_pos ctx sk l pos k v (rep_shape _ _ R) Hl Epos) as (Hid & _ & Hv). rewrite Hid.
  destruct (gddVertReduce_passed ctx G sk k v dirty R Hv) as (d & c1 & G1 & E1 & Sh1 & P1 & Hvr).
  rewrite E1. cbn [mbind outcome_bind]. pose proof (pa_rep _ _ _ _ _ _ P1) as R1.
  destruct (ctx_verts_shape ctx c1 sk l Sh1 Hl) as (l1 & Hl1 & Hsame).
  assert (Hkeys : forall i k' v', l1 !! i = Some (k', v') -> exists v'', l !! i = Some (k', v'')).
  { intros i k' v' Hi. apply (f_equal (fun s => s !! i)) in Hsame.
    rewrite !list_lookup_fmap, Hi in Hsame. destruct (l !! i) as [[k'' v''] |]; [| done].
    cbn in Hsame. injection Hsame as -> _. eauto. }
  assert (Hlen : length l1 = length l) by (apply (f_equal length) in Hsame; by rewrite !length_map in Hsame).
  assert (exists v1, l1 !! pos = Some (k, v1)) as [v1 Epos1].
  { destruct (lookup_lt_is_Some_2 l1 pos) as [[k1 v1] H1]; [apply lookup_lt_Some in Epos; lia |].
    destruct (Hkeys _ _ _ H1) as [v'' H2]. exists v1. congruence. }
  destruct (vert_at_pos c1 sk l1 pos k v1 (rep_shape _ _ R1) Hl1 Epos1) as (_ & _ & Hv1).
  rewrite (ctx_get_vert_of _ _ _ _ Hv1). cbn [mbind outcome_bind].
  unfold gddVertGetInDegree, gddVertGetOutDegree, zlen.
  destruct ((Z.of_nat (length (v_edgesIn v1)) =? 0) && (Z.of_nat (length (v_edgesOut v1)) =? 0)) eqn:Edeg.
  - destruct (delete_vert_ok c1 G1 sk l1 pos k v1 R1 Hl1 Epos1) as (c2 & E2 & R2 & Hl2 & Hsk2 & Hvert2);
      [apply length_zero_iff_nil; lia | apply length_zero_iff_nil; lia |].
    rewrite E2. cbn [mbind outcome_bind].
    destruct (pairs_iter_delete_spec l1 pos _ Epos1) as (_ & Hpre & Hlen2).
    assert (P2 : passed c1 G1 (dirty || d) (dirty || d) c2 G1).
    { constructor; [done | apply rtc_refl | done | | done | by left].
      intros sk' vid'. rewrite Hvert2.
      destruct ((sk' =? sk) && (vid' =? k)); [by intros [? [=]] | done]. }
    destruct (IH pos c2 G1 (dirty || d) _ R2 Hl2) as (d3 & c3 & G3 & E3 & P3 & H3); [lia | |].
    { intros Hd i k' v' Hi. rewrite Hpre by done. intros Hi'. destruct (Hkeys _ _ _ Hi') as [v'' Hi''].
      destruct (pa_clean _ _ _ _ _ _ P1 Hd) as [-> ->]. by apply (Hdone eq_refl i k' v''). }
    exists d3, c3, G3. pose proof (passed_trans _ _ _ _ _ _ _ _ _ (passed_trans _ _ _ _ _ _ _ _ _ P1 P2) P3) as P.
    split_and!; [done | done |]. intros Hd.
    destruct (pa_clean _ _ _ _ _ _ P3 Hd) as [Hd' _]. destruct (pa_clean _ _ _ _ _ _ P1 Hd') as [_ ->]. auto.
  - destruct (IH (S pos) c1 G1 (dirty || d) l1 R1 Hl1) as (d3 & c3 & G3 & E3 & P3 & H3); [lia | |].
    { intros Hd i k' v' Hi Hi'. destruct (Hkeys _ _ _ Hi') as [v'' Hi''].
      destruct (pa_clean _ _ _ _ _ _ P1 Hd) as [-> ->].
      destruct (decide (i = pos)) as [-> |]; [| apply (Hdone eq_refl i k' v''); [lia | done]].
      assert (k' = k) as -> by congruence. auto. }
    exists d3, c3, G3. split_and!; [done | by eapply passed_trans |]. intros Hd.
    destruct (pa_clean _ _ _ _ _ _ P3 Hd) as [Hd' _]. destruct (pa_clean _ _ _ _ _ _ P1 Hd') as [_ ->]. auto.
Qed.

Lemma segkey_verts ctx sk : sk ∈ ctx_segkeys ctx -> exists l, ctx_verts sk ctx = Ok l.
Proof.
  unfold ctx_segkeys, ctx_verts, gddMapGet, gddMapGetPair. intros H.
  induction (m_pairs (graphs ctx)) as [| p l IH]; [by apply not_elem_of_nil in H |].
  cbn in H |- *. destruct (Z.eqb_spec (fst p) sk); [eauto |].
  apply elem_of_cons in H as [H | H]; [by destruct n | auto].
Qed.

Lemma vert_segkey ctx sk vid : is_Some (vert_of ctx sk vid) -> sk ∈ ctx_segkeys ctx.
Proof.
  intros [v Hv]. unfold vert_of, gddMapGet, gddMapGetPair in Hv.
  destruct (pairs_get (m_pairs (graphs ctx)) sk) as [p |] eqn:E; [| done].
  apply pairs_get_elem in E as [He Hk]. unfold ctx_segkeys. apply list_elem_of_fmap. by exists p.
Qed.

Definition seg_reduced (ctx : GddCtx) (G : list wait) (sk : Z) : Prop :=
  forall vid, is_Some (vert_of ctx sk vid) -> vert_reduced G sk vid.

Lemma reduce_graphs_ok keys : forall ctx G dirty (examined : list Z),
  ctx_rep ctx G -> keys ⊆ ctx_segkeys ctx ->
  (dirty = false -> Forall (seg_reduced ctx G) examined) ->
  exists d ctx' G', reduce_graphs keys ctx dirty = Ok (d, ctx') /\
    passed ctx G dirty d ctx' G' /\
    (d = false -> Forall (seg_reduced ctx' G) (examined ++ keys)).
Proof.
  induction keys as [| sk keys IH]; intros ctx G dirty examined R Hk Hex; cbn [reduce_graphs].
  { exists dirty, ctx, G. rewrite app_nil_r.
    split_and!; [done | constructor; (done || auto using rtc_refl) | done]. }
  destruct (segkey_verts ctx sk (Hk sk ltac:(left))) as [l Hl].
  assert (Hsize : graph_size sk ctx = length l) by (unfold graph_size; by rewrite Hl). rewrite Hsize.
  destruct (reduce_verts_ok (length l) sk 0 ctx G dirty l R Hl) as (d1 & c1 & G1 & E1 & P1 & H1); [lia | lia |].
  rewrite E1. cbn [mbind outcome_bind].
  destruct (IH c1 G1 d1 (examined ++ [sk]) (pa_rep _ _ _ _ _ _ P1)) as (d2 & c2 & G2 & E2 & P2 & H2).
  - rewrite (pa_segkeys _ _ _ _ _ _ P1). intros k' Hk'. apply Hk. by right.
  - intros Hd. destruct (pa_clean _ _ _ _ _ _ P1 Hd) as [Hd0 ->]. apply Forall_app. split.
    + eapply Forall_impl; [exact (Hex Hd0) |]. intros sk' Hsk' vid Hvid.
      apply Hsk', (pa_verts _ _ _ _ _ _ P1), Hvid.
    + constructor; [exact (H1 Hd) | constructor].
  - exists d2, c2, G2. split_and!; [done | by eapply passed_trans |]. intros Hd. specialize (H2 Hd).
    destruct (pa_clean _ _ _ _ _ _ P2 Hd) as [Hd1 _]. destruct (pa_clean _ _ _ _ _ _ P1 Hd1) as [_ ->].
    by rewrite <- app_assoc in H2.
Qed.

(** When every vertex is reduced, no edge is removable. *)
Lemma all_reduced_stuck ctx G :
  ctx_rep ctx G -> Forall (seg_reduced ctx G) (ctx_segkeys ctx) -> stuck w_removable G.
Proof.
  intros R Hall [sk e] He Hr. rewrite Forall_forall in Hall.
  destruct (rep_ends _ _ R _ _ He) as [Hf Ht].
  pose proof (Hall sk (vert_segkey _ _ _ Hf)) as Hseg.
  destruct (Hseg _ Hf) as [Hf1 _]. destruct (Hseg _ Ht) as [Ht1 Ht2].
  destruct Hr as [H | [H | [Hs H]]].
  - apply (Hf1 (or_introl H) _ He). split; [done | by left].
  - apply (Ht1 (or_intror H) _ He). split; [done | by right].
  - specialize (Ht2 H _ He eq_refl eq_refl). congruence.
Qed.

Lemma GddCtxReduce_loop_ok fuel : forall ctx G,
  ctx_rep ctx G -> (length G < fuel)%nat ->
  exists ctx' G', GddCtxReduce_loop fuel ctx = Ok ctx' /\ ctx_rep ctx' G' /\
    w_reduces G G' /\ stuck w_removable G'.
Proof.
  induction fuel as [| fuel IH]; intros ctx G R Hfuel; [lia |]. cbn [GddCtxReduce_loop].
  destruct (reduce_graphs_ok (ctx_segkeys ctx) ctx G false [] R) as (d & c1 & G1 & E & P & H); [done | done |].
  rewrite E. cbn [mbind outcome_bind]. pose proof (pa_rep _ _ _ _ _ _ P) as R1. destruct d.
  - destruct (pa_dirty _ _ _ _ _ _ P eq_refl) as [? | Hlt]; [done |].
    destruct (IH c1 G1 R1) as (c2 & G2 & E2 & R2 & Hr2 & Hs2); [lia |].
    exists c2, G2. split_and!; [done | done | | done]. etrans; [apply P | done].
  - destruct (pa_clean _ _ _ _ _ _ P eq_refl) as [_ ->]. exists c1, G.
    split_and!; [done | done | apply rtc_refl |]. apply (all_reduced_stuck c1); [done |].
    rewrite (pa_segkeys _ _ _ _ _ _ P). by apply H.
Qed.

Lemma GddCtxReduce_ok ctx G :
  ctx_rep ctx G ->
  exists ctx' G', GddCtxReduce ctx = Ok ctx' /\ ctx_rep ctx' G' /\
    w_reduces G G' /\ stuck w_removable G'.
Proof.
  intros R. apply GddCtxReduce_loop_ok; [done |]. destruct (rep_top _ _ R) as [-> _]. unfold zlen. lia.
Qed.

(** ** Building *)

Lemma gddCtxGetGraph_ok ctx segid :
  shape_ok (ctx_shape ctx) ->
  exists ctx', gddCtxGetGraph ctx segid = Ok ctx' /\ shape_ok (ctx_shape ctx') /\
    topstat ctx' = topstat ctx /\ globals ctx' = globals ctx /\ ctx_next ctx' = ctx_next ctx /\
    is_Some (gddMapGet (graphs ctx') (u64 segid)) /\
    forall sk vid, vert_of ctx' sk vid = vert_of ctx sk vid.
Proof.
  intros Hok. unfold gddCtxGetGraph. destruct (gddMapGet (graphs ctx) (u64 segid)) as [g |] eqn:Eg.
  { exists ctx. split_and!; [done.. | eauto | done]. }
  destruct (gddMapGet_set (graphs ctx) (u64 segid) (gddGraphNew segid) Eg) as (gs & -> & Hp & Hget).
  cbn [mbind outcome_bind]. eexists. split_and!; [done | | done.. | |].
  - destruct Hok as [Hn Hall]. unfold shape_ok, ctx_shape in *. cbn [graphs]. rewrite Hp, map_app. cbn.
    rewrite map_app, NoDup_app, Forall_app. cbn. split_and!; [done | | apply NoDup_singleton | done |].
    + intros k Hk ->%list_elem_of_singleton. rewrite map_map in Hk. cbn in Hk.
      apply list_elem_of_fmap in Hk as (p & Hk & Hpe). apply list_elem_of_lookup in Hpe as [i Hi].
      rewrite map_map in Hn. destruct p as [k g]. cbn in Hk. subst k.
      unfold gddMapGet, gddMapGetPair in Eg.
      rewrite (pairs_get_lookup _ i (u64 segid) g) in Eg; [done | exact Hn | done].
    + constructor; [| constructor]. split; [apply NoDup_nil_2 | constructor].
  - cbn [graphs]. rewrite Hget, Z.eqb_refl. eauto.
  - intros sk vid. unfold vert_of. cbn [graphs]. rewrite Hget.
    destruct (Z.eqb_spec sk (u64 segid)) as [-> |]; [by rewrite Eg | done].
Qed.

Lemma gddGraphGetVert_ok g vid :
  vids_ok (graph_shape g) -> 0 <= vid ->
  exists g', gddGraphGetVert g vid = Ok g' /\ vids_ok (graph_shape g') /\
    forall k, gddMapGet (g_verts g') k =
      match gddMapGet (g_verts g) k with
      | Some v => Some v
      | None => if k =? vid then Some (gddVertNew vid) else None
      end.
Proof.
  intros Hok Hvid. unfold gddGraphGetVert. destruct (gddMapGet (g_verts g) vid) as [v |] eqn:Ev.
  { exists g. split_and!; [done | done |]. intros k. destruct (gddMapGet (g_verts g) k) eqn:Ek; [done |].
    destruct (Z.eqb_spec k vid) as [-> |]; [congruence | done]. }
  destruct (gddMapGet_set (g_verts g) vid (gddVertNew vid) Ev) as (vs & -> & Hp & Hget).
  cbn [mbind outcome_bind]. eexists. split_and!; [done | |].
  - pose proof (graph_shape_nodup g Hok) as Hnd. destruct Hok as [_ Hall].
    unfold vids_ok, graph_shape in *. cbn [g_verts]. rewrite Hp, map_app. cbn.
    rewrite map_app, NoDup_app, Forall_app. rewrite map_map. cbn.
    split_and!; [done | | apply NoDup_singleton | done | by repeat constructor].
    intros k Hk ->%list_elem_of_singleton. apply list_elem_of_fmap in Hk as ([k v] & Hk & Hpe).
    cbn in Hk. subst k. apply list_elem_of_lookup in Hpe as [i Hi].
    unfold gddMapGet, gddMapGetPair in Ev. by rewrite (pairs_get_lookup _ i vid v) in Ev.
  - intros k. cbn [g_verts]. rewrite Hget. destruct (Z.eqb_spec k vid) as [-> |]; [by rewrite Ev |].
    by destruct (gddMapGet (g_verts g) k).
Qed.

Lemma gddGraphMakeEdge_ok ctx sk from to solid :
  shape_ok (ctx_shape ctx) -> is_Some (gddMapGet (graphs ctx) sk) -> 0 <= from -> 0 <= to ->
  exists ctx', gddGraphMakeEdge ctx sk from to solid =
                 Ok (mkGddEdge (ctx_next ctx) solid from to, ctx') /\
    shape_ok (ctx_shape ctx') /\ topstat ctx' = topstat ctx /\ globals ctx' = globals ctx /\
    ctx_next ctx' = S (ctx_next ctx) /\
    forall sk' vid, vert_of ctx' sk' vid =
      match vert_of ctx sk' vid with
      | Some v => Some v
      | None => if (sk' =? sk) && ((vid =? from) || (vid =? to)) then Some (gddVertNew vid) else None
      end.
Proof.
  intros Hok [g Hg] Hf Ht. unfold gddGraphMakeEdge. rewrite Hg.
  destruct (shape_get ctx sk g Hok Hg) as [Hvg _].
  destruct (gddGraphGetVert_ok g from Hvg Hf) as (g1 & -> & Hv1 & Hget1). cbn [mbind outcome_bind].
  destruct (gddGraphGetVert_ok g1 to Hv1 Ht) as (g2 & -> & Hv2 & Hget2). cbn [mbind outcome_bind].
  unfold ctx_graph. destruct (gddMapUpdate (graphs ctx) sk _) as [gs | |] eqn:Eu;
    [| unfold gddMapUpdate in Eu; by rewrite Hg in Eu ..].
  cbn [mbind outcome_bind ctx_next topstat globals graphs].
  destruct (gddMapGet_update _ _ _ _ Eu) as [_ Hget].
  eexists. split_and!; [done | | done | done | done |].
  - by eapply update_graph_shape.
  - intros sk' vid. unfold vert_of. cbn [graphs]. rewrite Hget, Hg.
    destruct (Z.eqb_spec sk' sk) as [-> |]; cbn [andb].
    + rewrite Hg. cbn. rewrite Hget2, Hget1. destruct (gddMapGet (g_verts g) vid); [done |].
      destruct (Z.eqb_spec vid from) as [-> |]; [done |]. cbn [orb].
      destruct (Z.eqb_spec vid to) as [-> |]; done.
    + by destruct (gddMapGet (graphs ctx) sk') as [g' |]; [destruct (gddMapGet (g_verts g') vid) |].
Qed.

Lemma gddCtxGetGlobalStat_ok ctx vid :
  exists ctx', gddCtxGetGlobalStat ctx vid = Ok ctx' /\ topstat ctx' = topstat ctx /\
    graphs ctx' = graphs ctx /\ ctx_next ctx' = ctx_next ctx /\
    forall k, gddMapGet (globals ctx') k =
      match gddMapGet (globals ctx) k with
      | Some s => Some s
      | None => if k =? vid then Some (gddStatInit vid) else None
      end.
Proof.
  unfold gddCtxGetGlobalStat. destruct (gddMapGet (globals ctx) vid) as [s |] eqn:Es.
  { exists ctx. split_and!; [done.. |]. intros k. destruct (gddMapGet (globals ctx) k) eqn:Ek; [done |].
    destruct (Z.eqb_spec k vid) as [-> |]; [congruence | done]. }
  destruct (gddMapGet_set (globals ctx) vid (gddStatNew vid) Es) as (gs & -> & _ & Hget).
  cbn [mbind outcome_bind]. eexists. split_and!; [done.. |]. intros k. cbn [globals]. rewrite Hget.
  destruct (Z.eqb_spec k vid) as [-> |]; [by rewrite Es |]. by destruct (gddMapGet (globals ctx) k).
Qed.

Lemma gddEdgeLink_ok ctx sk e vf vt sf st :
  vert_of ctx sk (ed_from e) = Some vf -> vert_of ctx sk (ed_to e) = Some vt ->
  gddMapGet (globals ctx) (ed_from e) = Some sf -> gddMapGet (globals ctx) (ed_to e) = Some st ->
  exists ctx', gddEdgeLink ctx sk e = Ok ctx' /\ ctx_shape ctx' = ctx_shape ctx /\
    ctx_next ctx' = ctx_next ctx /\
    st_indeg (topstat ctx') = st_indeg (topstat ctx) + 1 /\
    st_outdeg (topstat ctx') = st_outdeg (topstat ctx) + 1 /\
    (forall vid, match gddMapGet (globals ctx) vid with
       | None => gddMapGet (globals ctx') vid = None
       | Some s => exists s', gddMapGet (globals ctx') vid = Some s' /\
           st_indeg s' = st_indeg s + (if vid =? ed_to e then 1 else 0) /\
           st_outdeg s' = st_outdeg s + (if vid =? ed_from e then 1 else 0)
       end) /\
    (forall sk' vid, match vert_of ctx sk' vid with
       | None => vert_of ctx' sk' vid = None
       | Some v => exists v', vert_of ctx' sk' vid = Some v' /\
           v_edgesIn v' = v_edgesIn v ++ (if (sk' =? sk) && (vid =? ed_to e) then [e] else []) /\
           v_edgesOut v' = v_edgesOut v ++ (if (sk' =? sk) && (vid =? ed_from e) then [e] else [])
       end).
Proof.
  intros Hf Ht Hsf Hst. unfold gddEdgeLink. set (c0 := ctx_topstat _ _).
  destruct (ctx_global_ok c0 (ed_from e) sf (stat_outdeg 1) Hsf) as (c1 & -> & G1 & T1 & N1 & S1).
  cbn [mbind outcome_bind].
  assert (exists st1, gddMapGet (globals c1) (ed_to e) = Some st1 /\ st_indeg st1 = st_indeg st /\
    st_outdeg st1 = st_outdeg st + (if ed_to e =? ed_from e then 1 else 0)) as (st1 & Hst1 & Ei & Eo).
  { rewrite S1. destruct (Z.eqb_spec (ed_to e) (ed_from e)) as [E |].
    - assert (sf = st) as -> by congruence. by eexists.
    - exists st. split_and!; [done | done | lia]. }
  destruct (ctx_global_ok c1 (ed_to e) st1 (stat_indeg 1) Hst1) as (c2 & -> & G2 & T2 & N2 & S2).
  cbn [mbind outcome_bind].
  assert (Hg2 : graphs c2 = graphs ctx) by (by rewrite G2, G1).
  assert (Hf2 : vert_of c2 sk (ed_from e) = Some vf) by (unfold vert_of; by rewrite Hg2).
  destruct (ctx_vert_ok c2 sk (ed_from e) vf (vert_edgesOut (fun l => l ++ [e])) ltac:(done) Hf2)
    as (c3 & -> & Sh3 & T3 & G3 & N3 & V3). cbn [mbind outcome_bind].
  assert (exists vt1, vert_of c3 sk (ed_to e) = Some vt1 /\ v_edgesIn vt1 = v_edgesIn vt /\
    v_edgesOut vt1 = v_edgesOut vt ++ (if ed_to e =? ed_from e then [e] else [])) as (vt1 & Hvt1 & Evi & Evo).
  { rewrite V3, Z.eqb_refl. cbn [andb]. destruct (Z.eqb_spec (ed_to e) (ed_from e)) as [E |].
    - assert (vf = vt) as -> by congruence. by eexists.
    - exists vt. rewrite app_nil_r. unfold vert_of. by rewrite Hg2. }
  destruct (ctx_vert_ok c3 sk (ed_to e) vt1 (vert_edgesIn (fun l => l ++ [e])) ltac:(done) Hvt1)
    as (c4 & -> & Sh4 & T4 & G4 & N4 & V4).
  exists c4. split_and!; [done | | by rewrite N4, N3, N2, N1 | | | |].
  - rewrite Sh4, Sh3. unfold ctx_shape. by rewrite Hg2.
  - by rewrite T4, T3, T2, T1.
  - by rewrite T4, T3, T2, T1.
  - intros vid. rewrite G4, G3, S2. destruct (gddMapGet (globals ctx) vid) as [s |] eqn:Es.
    + destruct (Z.eqb_spec vid (ed_to e)) as [-> |].
      * eexists. split; [done |]. assert (s = st) as -> by congruence. cbn. lia.
      * rewrite S1. destruct (Z.eqb_spec vid (ed_from e)) as [-> |].
        -- eexists. split; [done |]. assert (s = sf) as -> by congruence. cbn. lia.
        -- exists s. split; [done |]. lia.
    + rewrite (proj2 (Z.eqb_neq vid (ed_to e))) by congruence. rewrite S1.
      by rewrite (proj2 (Z.eqb_neq vid (ed_from e))) by congruence.
  - assert (Hg : forall sk' vid, vert_of c2 sk' vid = vert_of ctx sk' vid)
      by (intros; unfold vert_of; by rewrite Hg2).
    intros sk' vid. rewrite V4. destruct (Z.eqb_spec sk' sk) as [-> |]; cbn [andb].
    2: { rewrite V3, (proj2 (Z.eqb_neq sk' sk)), Hg by done. cbn [andb].
         destruct (vert_of ctx sk' vid) as [v |]; [| done]. exists v. by rewrite !app_nil_r. }
    destruct (Z.eqb_spec vid (ed_to e)) as [-> |].
    + rewrite Ht. eexists. split; [done |]. cbn. by rewrite Evi, Evo.
    + rewrite V3, Z.eqb_refl, Hg. cbn [andb]. destruct (Z.eqb_spec vid (ed_from e)) as [-> |].
      * rewrite Hf. eexists. cbn. by rewrite app_nil_r.
      * destruct (vert_of ctx sk vid) as [v |]; [| done]. exists v. by rewrite !app_nil_r.
Qed.

Lemma count_snoc P (G : list wait) x : count P (G ++ [x]) = count P G + (if P x then 1 else 0).
Proof.
  unfold count, zlen. rewrite List.filter_app, length_app. cbn. destruct (P x); cbn [length]; lia.
Qed.

(** A context that represents [G] except that vertices and statistics without
    edges may have been added, as while an edge is being made. *)
Record ctx_prepared (ctx : GddCtx) (G : list wait) : Prop := {
  pre_addr : NoDup (map w_addr G);
  pre_in : forall sk vid v, vert_of ctx sk vid = Some v ->
    NoDup (map ed_addr (v_edgesIn v)) /\
    forall e, e ∈ v_edgesIn v <-> (sk, e) ∈ G /\ ed_to e = vid;
  pre_out : forall sk vid v, vert_of ctx sk vid = Some v ->
    NoDup (map ed_addr (v_edgesOut v)) /\
    forall e, e ∈ v_edgesOut v <-> (sk, e) ∈ G /\ ed_from e = vid;
  pre_ends : forall sk e, (sk, e) ∈ G ->
    is_Some (vert_of ctx sk (ed_from e)) /\ is_Some (vert_of ctx sk (ed_to e));
  pre_bound : forall sk vid v, vert_of ctx sk vid = Some v -> is_Some (gddMapGet (globals ctx) vid);
  pre_stat : forall vid s, gddMapGet (globals ctx) vid = Some s ->
    st_indeg s = count (fun x => w_to x =? vid) G /\
    st_outdeg s = count (fun x => w_from x =? vid) G;
  pre_top : st_indeg (topstat ctx) = zlen G /\ st_outdeg (topstat ctx) = zlen G
}.

Lemma prepare_edge ctx G segid from to solid :
  ctx_rep ctx G -> 0 <= from -> 0 <= to ->
  exists c1 c2 c3 c4, let sk := u64 segid in let e := mkGddEdge (ctx_next ctx) solid from to in
    gddCtxGetGraph ctx segid = Ok c1 /\
    gddGraphMakeEdge c1 sk from to solid = Ok (e, c2) /\
    gddCtxGetGlobalStat c2 from = Ok c3 /\ gddCtxGetGlobalStat c3 to = Ok c4 /\
    shape_ok (ctx_shape c4) /\ ctx_next c4 = S (ctx_next ctx) /\ ctx_prepared c4 G /\
    is_Some (vert_of c4 sk from) /\ is_Some (vert_of c4 sk to).
Proof.
  intros R Hf Ht. destruct (gddCtxGetGraph_ok ctx segid (rep_shape _ _ R))
    as (c1 & E1 & Hok1 & T1 & S1 & N1 & Hg1 & V1).
  destruct (gddGraphMakeEdge_ok c1 (u64 segid) from to solid Hok1 Hg1 Hf Ht)
    as (c2 & E2 & Hok2 & T2 & S2 & N2 & V2).
  destruct (gddCtxGetGlobalStat_ok c2 from) as (c3 & E3 & T3 & G3 & N3 & S3).
  destruct (gddCtxGetGlobalStat_ok c3 to) as (c4 & E4 & T4 & G4 & N4 & S4).
  rewrite N1 in E2. exists c1, c2, c3, c4. cbv zeta.
  assert (Hsh : ctx_shape c4 = ctx_shape c2) by (unfold ctx_shape; by rewrite G4, G3).
  assert (HV : forall sk' vid, vert_of c4 sk' vid = match vert_of ctx sk' vid with
    | Some v => Some v
    | None => if (sk' =? u64 segid) && ((vid =? from) || (vid =? to)) then Some (gddVertNew vid) else None end).
  { intros. rewrite <- V1, <- V2. unfold vert_of. by rewrite G4, G3. }
  assert (HS : forall vid, gddMapGet (globals c4) vid = match gddMapGet (globals ctx) vid with
    | Some s => Some s
    | None => if (vid =? from) || (vid =? to) then Some (gddStatInit vid) else None end).
  { intros vid. rewrite S4, S3, S2, S1. destruct (gddMapGet (globals ctx) vid); [done |].
    destruct (Z.eqb_spec vid from) as [-> |]; [done |]. destruct (Z.eqb_spec vid to) as [-> |]; done. }
  split_and!; [done | done | done | done | by rewrite Hsh | congruence | | |].
  2, 3: rewrite HV, !Z.eqb_refl, ?orb_true_r; cbn [andb orb]; destruct (vert_of ctx _ _); eauto.
  assert (Hnone : forall vid, gddMapGet (globals ctx) vid = None ->
    forall x, x ∈ G -> w_from x <> vid /\ w_to x <> vid).
  { intros vid Hn [sk e] Hx. destruct (rep_ends _ _ R _ _ Hx) as [[v1 H1] [v2 H2]].
    destruct (rep_bound _ _ R _ _ _ H1), (rep_bound _ _ R _ _ _ H2).
    unfold w_from, w_to. cbn. split; intros <-; congruence. }
  constructor.
  - exact (rep_addr _ _ R).
  - intros sk vid v. rewrite HV. destruct (vert_of ctx sk vid) as [v0 |] eqn:Ev.
    + intros [= <-]. by apply (rep_in _ _ R).
    + destruct (_ && _); [| done]. intros [= <-]. split; [apply NoDup_nil_2 |]. intros e. cbn.
      split; [by intros ?%not_elem_of_nil |]. intros [He <-].
      destruct (rep_ends _ _ R _ _ He) as [_ [? ?]]. congruence.
  - intros sk vid v. rewrite HV. destruct (vert_of ctx sk vid) as [v0 |] eqn:Ev.
    + intros [= <-]. by apply (rep_out _ _ R).
    + destruct (_ && _); [| done]. intros [= <-]. split; [apply NoDup_nil_2 |]. intros e. cbn.
      split; [by intros ?%not_elem_of_nil |]. intros [He <-].
      destruct (rep_ends _ _ R _ _ He) as [[? ?] _]. congruence.
  - intros sk e He. destruct (rep_ends _ _ R _ _ He) as [[v1 H1] [v2 H2]].
    rewrite !HV, H1, H2. eauto.
  - intros sk vid v. rewrite HV, HS. destruct (vert_of ctx sk vid) as [v0 |] eqn:Ev.
    + intros _. destruct (rep_bound _ _ R _ _ _ Ev) as [s ->]. eauto.
    + destruct (gddMapGet (globals ctx) vid); [eauto |]. rewrite andb_comm.
      destruct ((vid =? from) || (vid =? to)); [eauto | done].
  - intros vid s. rewrite HS. destruct (gddMapGet (globals ctx) vid) as [s0 |] eqn:Es.
    + intros [= <-]. by apply (rep_stat _ _ R).
    + destruct (_ || _); [| done]. intros [= <-]. cbn.
      split; symmetry; apply count_zero, Forall_forall; intros x Hx;
        apply Z.eqb_neq; by apply (Hnone vid Es).
  - rewrite T4, T3, T2, T1. exact (rep_top _ _ R).
Qed.

Lemma fresh_addr ctx G sk e l :
  ctx_rep ctx G -> NoDup (map ed_addr l) -> (forall e', e' ∈ l -> (sk, e') ∈ G) ->
  ed_addr e = ctx_next ctx -> NoDup (map ed_addr (l ++ [e])).
Proof.
  intros R Hnd Hl He. rewrite map_app. apply NoDup_app. split_and!; [done | | apply NoDup_singleton].
  intros a Ha ->%list_elem_of_singleton. apply list_elem_of_fmap in Ha as (e' & Ha & He').
  pose proof (rep_fresh _ _ R) as Hfr. rewrite Forall_forall in Hfr.
  specialize (Hfr _ (Hl e' He')). unfold w_addr in Hfr. cbn in Hfr. lia.
Qed.

(** Appending the edge to the list of its vertex, and to no other list. *)
Lemma appended_edges ctx G sk e sk' vid (endpoint : GddEdge -> Z) l :
  ctx_rep ctx G -> ed_addr e = ctx_next ctx -> NoDup (map ed_addr l) ->
  (forall e', e' ∈ l <-> (sk', e') ∈ G /\ endpoint e' = vid) ->
  let l' := l ++ (if (sk' =? sk) && (vid =? endpoint e) then [e] else []) in
  NoDup (map ed_addr l') /\
  forall e', e' ∈ l' <-> (sk', e') ∈ G ++ [(sk, e)] /\ endpoint e' = vid.
Proof.
  intros R Ha Hnd Hmem l'. unfold l'.
  destruct (Z.eqb_spec sk' sk) as [-> | Hsk]; cbn [andb];
    [destruct (Z.eqb_spec vid (endpoint e)) as [-> | Hv] |].
  - split; [eapply (fresh_addr ctx G sk); [done | done | | done]; intros e' He'; by apply Hmem |].
    intros e'. rewrite !elem_of_app, !list_elem_of_singleton, Hmem. naive_solver.
  - rewrite app_nil_r. split; [done |]. intros e'.
    rewrite elem_of_app, list_elem_of_singleton, Hmem. naive_solver.
  - rewrite app_nil_r. split; [done |]. intros e'.
    rewrite elem_of_app, list_elem_of_singleton, Hmem. naive_solver.
Qed.

(** A new edge extends the graph by exactly that edge. *)
(** Linking the new edge gives a context that represents the larger graph. *)
Lemma link_prepared ctx c4 G sk e vf vt :
  ctx_rep ctx G -> ctx_prepared c4 G -> shape_ok (ctx_shape c4) ->
  ctx_next c4 = S (ctx_next ctx) -> ed_addr e = ctx_next ctx ->
  vert_of c4 sk (ed_from e) = Some vf -> vert_of c4 sk (ed_to e) = Some vt ->
  exists c5, gddEdgeLink c4 sk e = Ok c5 /\ ctx_next c5 = S (ctx_next ctx) /\
    ctx_rep c5 (G ++ [(sk, e)]).
Proof.
  intros R P Hok Hnext Haddr Hvf Hvt.
  destruct (pre_bound _ _ P _ _ _ Hvf) as [sf Hsf]. destruct (pre_bound _ _ P _ _ _ Hvt) as [st Hst].
  destruct (gddEdgeLink_ok c4 sk e vf vt sf st Hvf Hvt Hsf Hst)
    as (c5 & E5 & Sh5 & N5 & T5i & T5o & S5 & V5).
  exists c5. split; [done |]. split; [by rewrite N5 |].
  assert (Hsome : forall sk' vid, is_Some (vert_of c4 sk' vid) -> is_Some (vert_of c5 sk' vid)).
  { intros sk' vid [v Hv]. specialize (V5 sk' vid). rewrite Hv in V5. destruct V5 as (v' & -> & _). eauto. }
  constructor.
  - rewrite map_app. apply NoDup_app. split_and!; [exact (rep_addr _ _ R) | | apply NoDup_singleton].
    intros a Ha ->%list_elem_of_singleton. apply list_elem_of_fmap in Ha as (x & Ha & Hx).
    pose proof (rep_fresh _ _ R) as Hfr. rewrite Forall_forall in Hfr. specialize (Hfr x Hx).
    unfold w_addr in *. cbn in *. lia.
  - rewrite N5, Hnext. apply Forall_app. split; [| constructor; [unfold w_addr; cbn; lia | constructor]].
    eapply Forall_impl; [exact (rep_fresh _ _ R) |]. cbn. intros. lia.
  - by rewrite Sh5.
  - intros sk' vid v' Hv'. specialize (V5 sk' vid).
    destruct (vert_of c4 sk' vid) as [v |] eqn:Ev; [| congruence].
    destruct V5 as (v1 & Hv1 & Ei & _). assert (v1 = v') as -> by congruence. rewrite Ei.
    destruct (pre_in _ _ P _ _ _ Ev) as [Hnd Hmem].
    apply (appended_edges ctx G sk e sk' vid ed_to); try done.
  - intros sk' vid v' Hv'. specialize (V5 sk' vid).
    destruct (vert_of c4 sk' vid) as [v |] eqn:Ev; [| congruence].
    destruct V5 as (v1 & Hv1 & _ & Eo). assert (v1 = v') as -> by congruence. rewrite Eo.
    destruct (pre_out _ _ P _ _ _ Ev) as [Hnd Hmem].
    apply (appended_edges ctx G sk e sk' vid ed_from); try done.
  - intros sk' e' [He' | He']%elem_of_app.
    + destruct (pre_ends _ _ P _ _ He'). auto.
    + apply list_elem_of_singleton in He'. injection He' as -> ->. cbn. split; apply Hsome; eauto.
  - intros sk' vid v' Hv'. specialize (V5 sk' vid).
    destruct (vert_of c4 sk' vid) as [v |] eqn:Ev; [| congruence].
    destruct (pre_bound _ _ P _ _ _ Ev) as [s Hs]. specialize (S5 vid). rewrite Hs in S5.
    destruct S5 as (s' & -> & _). eauto.
  - intros vid s' Hs'. specialize (S5 vid). destruct (gddMapGet (globals c4) vid) as [s |] eqn:Es; [| congruence].
    destruct S5 as (s1 & Hs1 & Ei & Eo). assert (s1 = s') as -> by congruence.
    destruct (pre_stat _ _ P _ _ Es) as [C1 C2]. rewrite !count_snoc, Ei, Eo, C1, C2.
    unfold w_to, w_from. cbn [snd]. by rewrite (Z.eqb_sym (ed_to e)), (Z.eqb_sym (ed_from e)).
  - destruct (pre_top _ _ P). rewrite zlen_app. unfold zlen at 2 4. cbn [length]. lia.
Qed.

Lemma GddCtxAddEdge_next ctx G segid from to solid :
  ctx_rep ctx G -> 0 <= from -> 0 <= to ->
  exists ctx', GddCtxAddEdge ctx segid from to solid = Ok ctx' /\
    ctx_next ctx' = S (ctx_next ctx) /\
    ctx_rep ctx' (G ++ [(u64 segid, mkGddEdge (ctx_next ctx) solid from to)]).
Proof.
  intros R Hf Ht. unfold GddCtxAddEdge.
  destruct (prepare_edge ctx G segid from to solid R Hf Ht)
    as (c1 & c2 & c3 & c4 & E1 & E2 & E3 & E4 & Hok & Hnext & P & [vf Hvf] & [vt Hvt]).
  rewrite E1. cbn [mbind outcome_bind]. rewrite E2. cbn [mbind outcome_bind]. rewrite E3.
  cbn [mbind outcome_bind]. rewrite E4. cbn [mbind outcome_bind].
  by eapply link_prepared.
Qed.

Lemma GddCtxAddEdge_ok ctx G segid from to solid :
  ctx_rep ctx G -> 0 <= from -> 0 <= to ->
  exists ctx', GddCtxAddEdge ctx segid from to solid = Ok ctx' /\
    ctx_rep ctx' (G ++ [(u64 segid, mkGddEdge (ctx_next ctx) solid from to)]).
Proof.
  intros R Hf Ht. destruct (GddCtxAddEdge_next ctx G segid from to solid R Hf Ht) as (c & E & _ & R').
  by exists c.
Qed.

(** ** Choosing and removing a transaction *)

Lemma fold_max_spec {A} (f : A -> option Z) (l : list A) m :
  let r := fold_left (fun m a => match f a with Some z => Z.max m z | None => m end) l m in
  m <= r /\ (r = m \/ exists a, a ∈ l /\ f a = Some r) /\
  forall a z, a ∈ l -> f a = Some z -> z <= r.
Proof.
  revert m. induction l as [| a l IH]; intros m; cbn [fold_left].
  { split_and!; [lia | by left |]. by intros a z ?%not_elem_of_nil. }
  destruct (IH (match f a with Some z => Z.max m z | None => m end)) as (H1 & H2 & H3).
  set (r := fold_left _ l _) in *. split_and!.
  - destruct (f a); lia.
  - destruct H2 as [H2 | (b & Hb & H2)]; [| right; exists b; split; [by right | done]].
    destruct (f a) as [z |] eqn:Ea; [| by left].
    destruct (Z.max_spec m z) as [[_ Hm] | [_ Hm]]; rewrite Hm in H2; [| by left].
    right. exists a. split; [left | by rewrite H2].
  - intros b z [-> | Hb]%elem_of_cons Hz; [| by eapply H3]. rewrite Hz in H1. lia.
Qed.

(** The id of a vertex that has edges. *)
Definition live_vid (v : GddVert) : option Z :=
  if negb (gddVertGetInDegree v =? 0) || negb (gddVertGetOutDegree v =? 0)
  then Some (v_id v) else None.

Definition all_verts (ctx : GddCtx) : list GddVert :=
  flat_map (fun p => map snd (m_pairs (g_verts (snd p)))) (m_pairs (graphs ctx)).

Lemma gddCtxGetMaxVid_fold ctx :
  gddCtxGetMaxVid ctx =
  fold_left (fun m v => match live_vid v with Some z => Z.max m z | None => m end) (all_verts ctx) 0.
Proof.
  unfold gddCtxGetMaxVid, all_verts. generalize 0. induction (m_pairs (graphs ctx)) as [| p l IH];
    intros m; [done |]. cbn [fold_left flat_map]. rewrite fold_left_app, IH. f_equal.
  unfold verts_max. generalize m. induction (m_pairs (g_verts (snd p))) as [| q l' IH']; intros m'; [done |].
  cbn [fold_left map]. rewrite IH'. f_equal. unfold live_vid. by destruct (_ || _).
Qed.

Lemma elem_of_all_verts ctx v :
  shape_ok (ctx_shape ctx) -> v ∈ all_verts ctx <-> exists sk, vert_of ctx sk (v_id v) = Some v.
Proof.
  intros Hok. unfold all_verts. rewrite list_elem_of_In, in_flat_map. split.
  - intros ([sk g] & Hp & Hv). cbn in Hv. exists sk. apply in_map_iff in Hv as ([k v'] & <- & Hv). cbn.
    apply list_elem_of_In, list_elem_of_lookup in Hp as [i Hi].
    apply list_elem_of_In, list_elem_of_lookup in Hv as [j Hj].
    assert (Hl : ctx_verts sk ctx = Ok (m_pairs (g_verts g))).
    { unfold ctx_verts, gddMapGet, gddMapGetPair. rewrite (pairs_get_lookup _ i sk g); [done | | done].
      destruct Hok as [Hn _]. unfold ctx_shape in Hn. by rewrite map_map in Hn. }
    destruct (vert_at_pos ctx sk _ j k v' Hok Hl Hj) as (<- & _ & Hv). done.
  - intros [sk Hv]. unfold vert_of, gddMapGet, gddMapGetPair in Hv.
    destruct (pairs_get (m_pairs (graphs ctx)) sk) as [p |] eqn:Ep; [| done].
    destruct (pairs_get _ (v_id v)) as [q |] eqn:Eq; [| done]. injection Hv as <-.
    apply pairs_get_elem in Ep as [Hp _]. apply pairs_get_elem in Eq as [Hq _].
    exists p. split; [by apply list_elem_of_In |]. apply in_map_iff. exists q.
    split; [done | by apply list_elem_of_In].
Qed.

Lemma vert_of_id ctx sk vid v :
  shape_ok (ctx_shape ctx) -> vert_of ctx sk vid = Some v -> v_id v = vid /\ 0 <= vid.
Proof.
  intros Hok Hv. destruct (segkey_verts ctx sk) as [l Hl]; [eapply vert_segkey; eauto |].
  destruct (vert_in_list ctx sk l vid v Hl Hv) as [i Hi].
  by destruct (vert_at_pos ctx sk l i vid v Hok Hl Hi) as (? & ? & _).
Qed.

(** The vertex chosen has edges, and no vertex with edges has a greater id. *)
Lemma gddCtxGetMaxVid_ok ctx G :
  ctx_rep ctx G -> G <> [] ->
  let m := gddCtxGetMaxVid ctx in
  (exists x, x ∈ G /\ (w_from x = m \/ w_to x = m)) /\
  forall x, x ∈ G -> w_from x <= m /\ w_to x <= m.
Proof.
  intros R Hne m. pose proof (rep_shape _ _ R) as Hok. unfold m. rewrite gddCtxGetMaxVid_fold.
  destruct (fold_max_spec live_vid (all_verts ctx) 0) as (H0 & Hin & Hmax).
  set (r := fold_left _ _ _) in *.
  assert (Hlive : forall sk vid v e, vert_of ctx sk vid = Some v ->
            e ∈ v_edgesIn v \/ e ∈ v_edgesOut v -> vid <= r).
  { intros sk vid v e Hv He. destruct (vert_of_id ctx sk vid v Hok Hv) as [Hid _].
    apply (Hmax v); [apply elem_of_all_verts; [done |]; exists sk; by rewrite Hid |].
    unfold live_vid, gddVertGetInDegree, gddVertGetOutDegree, zlen. rewrite Hid.
    destruct (v_edgesIn v), (v_edgesOut v); try done. destruct He as [?%not_elem_of_nil | ?%not_elem_of_nil]; done. }
  assert (Hbound : forall x, x ∈ G -> w_from x <= r /\ w_to x <= r).
  { intros [sk e] Hx. destruct (rep_ends _ _ R _ _ Hx) as [[vf Hf] [vt Ht]]. unfold w_from, w_to. cbn. split.
    - eapply (Hlive _ _ _ e); [exact Hf |]. right. by apply (rep_out _ _ R _ _ _ Hf).
    - eapply (Hlive _ _ _ e); [exact Ht |]. left. by apply (rep_in _ _ R _ _ _ Ht). }
  split; [| done]. destruct Hin as [Hr | (v & Hv & Hlv)].
  - destruct G as [| [sk e] G']; [done |]. exists (sk, e). split; [left |]. left.
    destruct (Hbound (sk, e) ltac:(left)) as [Hb _].
    destruct (rep_ends _ _ R sk e ltac:(left)) as [[vf Hf] _].
    destruct (vert_of_id _ _ _ _ Hok Hf) as [_ ?]. unfold w_from in *. cbn in *. lia.
  - apply elem_of_all_verts in Hv as [sk Hv]; [| done]. unfold live_vid in Hlv.
    destruct (_ || _) eqn:Ed; [| done]. injection Hlv as Hid.
    destruct (rep_in _ _ R _ _ _ Hv) as [_ Hi]. destruct (rep_out _ _ R _ _ _ Hv) as [_ Ho].
    unfold gddVertGetInDegree, gddVertGetOutDegree, zlen in Ed.
    destruct (v_edgesIn v) as [| e l].
    + destruct (v_edgesOut v) as [| e l]; [done |]. destruct (proj1 (Ho e) ltac:(left)) as [He Hf].
      exists (sk, e). split; [done |]. left. unfold w_from. cbn. congruence.
    + destruct (proj1 (Hi e) ltac:(left)) as [He Hf]. exists (sk, e). split; [done |].
      right. unfold w_to. cbn. congruence.
Qed.

Lemma vert_pos_spec l vid :
  match vert_pos l vid with
  | Some pos => exists k v, l !! pos = Some (k, v) /\ v_id v = vid
  | None => forall i k v, l !! i = Some (k, v) -> v_id v <> vid
  end.
Proof.
  induction l as [| [k v] l IH]; cbn [vert_pos snd]; [done |].
  destruct (Z.eqb_spec (v_id v) vid) as [E |]; [by exists k, v |].
  destruct (vert_pos l vid) as [pos |]; cbn; [exact IH |].
  intros [| i] k' v' Hi; cbn in Hi; [by injection Hi as <- <- | by eapply IH].
Qed.

(** A segment without the vertex has no edge that touches it. *)
Lemma no_vert_untouched ctx G sk vid x :
  ctx_rep ctx G -> vert_of ctx sk vid = None -> x ∈ G -> ~ touches sk vid x.
Proof.
  intros R Hn Hx [Hs Ht]. destruct x as [sk' e]. unfold w_seg, w_from, w_to in *. cbn in *. subst sk'.
  destruct (rep_ends _ _ R _ _ Hx) as [[vf Hf] [vt Ht']]. destruct Ht as [<- | <-]; congruence.
Qed.

(** A vertex that no edge touches has no edges of its own. *)
Lemma untouched_vert ctx G sk vid v :
  ctx_rep ctx G -> vert_of ctx sk vid = Some v -> (forall x, x ∈ G -> ~ touches sk vid x) ->
  v_edgesIn v = [] /\ v_edgesOut v = [].
Proof.
  intros R Hv Hno. destruct (rep_in _ _ R _ _ _ Hv) as [_ Hi]. destruct (rep_out _ _ R _ _ _ Hv) as [_ Ho].
  split.
  - destruct (v_edgesIn v) as [| e l]; [done |]. destruct (proj1 (Hi e) ltac:(left)) as [He Ht].
    exfalso. apply (Hno _ He). split; [done | by right].
  - destruct (v_edgesOut v) as [| e l]; [done |]. destruct (proj1 (Ho e) ltac:(left)) as [He Ht].
    exfalso. apply (Hno _ He). split; [done | by left].
Qed.

Lemma gddGraphRemoveVid_ok ctx G sk vid :
  ctx_rep ctx G -> sk ∈ ctx_segkeys ctx ->
  exists ctx' G', gddGraphRemoveVid ctx sk vid = Ok ctx' /\ ctx_rep ctx' G' /\
    ctx_segkeys ctx' = ctx_segkeys ctx /\ vert_of ctx' sk vid = None /\
    forall x, x ∈ G' <-> x ∈ G /\ ~ touches sk vid x.
Proof.
  intros R Hsk. pose proof (rep_shape _ _ R) as Hok. destruct (segkey_verts ctx sk Hsk) as [l Hl].
  unfold gddGraphRemoveVid. rewrite Hl. cbn [mbind outcome_bind].
  pose proof (vert_pos_spec l vid) as Hp. destruct (vert_pos l vid) as [pos |].
  - destruct Hp as (k & v & Hpos & Hid).
    destruct (vert_at_pos ctx sk l pos k v Hok Hl Hpos) as (Hk & _ & Hv).
    assert (k = vid) as -> by congruence.
    destruct (gddVertUnlinkAll_ok ctx G sk vid v R Hv) as (d & c1 & G1 & E1 & R1 & Hsh & Hm & _).
    rewrite E1. cbn [mbind outcome_bind].
    destruct (ctx_verts_shape ctx c1 sk l Hsh Hl) as (l1 & Hl1 & Hmap).
    assert (exists v1, l1 !! pos = Some (vid, v1)) as [v1 Hpos1].
    { apply (f_equal (fun l => l !! pos)) in Hmap. rewrite !list_lookup_fmap, Hpos in Hmap.
      destruct (l1 !! pos) as [[k1 v1] |]; [| done]. cbn in Hmap. exists v1. congruence. }
    pose proof (rep_shape _ _ R1) as Hok1.
    destruct (vert_at_pos c1 sk l1 pos vid v1 Hok1 Hl1 Hpos1) as (_ & _ & Hv1).
    destruct (untouched_vert c1 G1 sk vid v1 R1 Hv1) as [Hi Ho]; [by intros x [_ ?]%Hm |].
    destruct (delete_vert_ok c1 G1 sk l1 pos vid v1 R1 Hl1 Hpos1 Hi Ho) as (c2 & E2 & R2 & _ & Hseg & Hvert).
    exists c2, G1. split_and!; [done | done | | | done].
    + rewrite Hseg. by apply segkeys_shape.
    + by rewrite Hvert, !Z.eqb_refl.
  - assert (Hn : vert_of ctx sk vid = None).
    { destruct (vert_of ctx sk vid) as [v |] eqn:Hv; [| done].
      destruct (vert_in_list ctx sk l vid v Hl Hv) as [i Hi].
      destruct (vert_at_pos ctx sk l i vid v Hok Hl Hi) as (Hid & _). by destruct (Hp _ _ _ Hi). }
    exists ctx, G. split_and!; [done .. |]. intros x. split; [| by intros [? _]].
    intros Hx. split; [done | by eapply no_vert_untouched].
Qed.

Lemma remove_vid_graphs_ok keys vid : forall ctx G,
  ctx_rep ctx G -> keys ⊆ ctx_segkeys ctx ->
  exists ctx' G', remove_vid_graphs keys vid ctx = Ok ctx' /\ ctx_rep ctx' G' /\
    forall x, x ∈ G' <-> x ∈ G /\ Forall (fun sk => ~ touches sk vid x) keys.
Proof.
  induction keys as [| sk keys IH]; intros ctx G R Hk; cbn [remove_vid_graphs].
  { exists ctx, G. split_and!; [done .. |]. intros x. split; [by intros | by intros [? _]]. }
  destruct (gddGraphRemoveVid_ok ctx G sk vid R (Hk sk ltac:(left))) as (c1 & G1 & E1 & R1 & Hs1 & _ & Hm1).
  rewrite E1. cbn [mbind outcome_bind]. destruct (IH c1 G1 R1) as (c2 & G2 & E2 & R2 & Hm2).
  { rewrite Hs1. intros k Hk'. apply Hk. by right. }
  exists c2, G2. split_and!; [done .. |]. intros x. rewrite Hm2, Hm1, Forall_cons. tauto.
Qed.

Lemma elem_of_cancel1 vid (x : wait) G :
  x ∈ w_cancel [vid] G <-> x ∈ G /\ w_from x <> vid /\ w_to x <> vid.
Proof. unfold w_cancel, cancel. rewrite list_elem_of_filter, !list_elem_of_singleton. tauto. Qed.

(** Removing a transaction everywhere leaves the edges that do not touch it. *)
Lemma gddCtxRemoveVid_ok ctx G vid :
  ctx_rep ctx G ->
  exists ctx', gddCtxRemoveVid ctx vid = Ok ctx' /\ ctx_rep ctx' (w_cancel [vid] G).
Proof.
  intros R. destruct (remove_vid_graphs_ok (ctx_segkeys ctx) vid ctx G R) as (c & G' & E & R' & Hm); [done |].
  exists c. split; [done |]. eapply rep_same; [exact R' | |].
  { apply NoDup_filter. by eapply rep_nodup. }
  intros [sk e]. rewrite Hm, elem_of_cancel1, Forall_forall. split; intros [He H]; (split; [done |]).
  - assert (Hsk : sk ∈ ctx_segkeys ctx) by (eapply vert_segkey, (rep_ends _ _ R _ _ He)).
    split; intros Hx; apply (H sk Hsk); (split; [done |]); [by left | by right].
  - intros sk' _ [_ [Hx | Hx]]; destruct H; done.
Qed.

(** ** Breaking the deadlocks *)

Lemma GddCtxEmpty_iff ctx G : ctx_rep ctx G -> GddCtxEmpty ctx = true <-> G = [].
Proof.
  intros R. unfold GddCtxEmpty. destruct (rep_top _ _ R) as [-> _].
  rewrite Z.eqb_eq. unfold zlen. split; [| by intros ->]. destruct G; [done | cbn; lia].
Qed.

Lemma cancel_shrinks vid (x : wait) G :
  x ∈ G -> w_from x = vid \/ w_to x = vid -> (length (w_cancel [vid] G) < length G)%nat.
Proof.
  intros Hx Ht. unfold w_cancel, cancel. apply length_filter_lt with x; [done |].
  rewrite !list_elem_of_singleton. tauto.
Qed.

(** The outcome of the loop: transactions in decreasing order, each one waiting
    or waited for in [G]; no edge is left. *)
Record broken (G : list wait) (vs : list Z) (ctx' : GddCtx) : Prop := {
  br_rep : ctx_rep ctx' [];
  br_breaks : w_breaks G vs [];
  br_sorted : Sorted.StronglySorted (fun a b => b < a) vs;
  br_inside : Forall (fun v => exists x, x ∈ G /\ (w_from x = v \/ w_to x = v)) vs
}.

Lemma GddCtxBreakDeadLock_loop_ok fuel : forall ctx G vids,
  ctx_rep ctx G -> (length G <= fuel)%nat ->
  exists vs ctx', GddCtxBreakDeadLock_loop fuel ctx vids = Ok (vids ++ vs, ctx') /\ broken G vs ctx'.
Proof.
  induction fuel as [fuel IH] using lt_wf_ind; intros ctx G vids R Hfuel.
  pose proof (GddCtxEmpty_iff ctx G R) as Hempty. destruct fuel as [| fuel]; cbn [GddCtxBreakDeadLock_loop].
  { destruct G; [| cbn in Hfuel; lia]. rewrite (proj2 Hempty eq_refl). exists [], ctx.
    rewrite app_nil_r. split; [done |]. constructor; [done | constructor ..]. }
  destruct (GddCtxEmpty ctx) eqn:Ee.
  { rewrite (proj1 Hempty eq_refl) in *. exists [], ctx.
    rewrite app_nil_r. split; [done |]. constructor; [done | constructor ..]. }
  assert (Hne : G <> []) by (intros Hg; apply Hempty in Hg; done).
  destruct (gddCtxGetMaxVid_ok ctx G R Hne) as [(x & Hx & Ht) Hmax].
  set (m := gddCtxGetMaxVid ctx) in *. pose proof (cancel_shrinks m x G Hx Ht) as Hlen.
  destruct (gddCtxRemoveVid_ok ctx G m R) as (c1 & E1 & R1). rewrite E1. cbn [mbind outcome_bind].
  destruct (GddCtxReduce_ok c1 _ R1) as (c2 & G2 & E2 & R2 & Hred & _). rewrite E2. cbn [mbind outcome_bind].
  pose proof (reduces_length _ _ Hred). pose proof (rtc_rule_subset _ _ _ Hred) as Hsub.
  destruct (IH fuel ltac:(lia) c2 G2 (vids ++ [m]) R2) as (vs & c3 & E3 & B); [lia |].
  exists (m :: vs), c3. rewrite E3, <- app_assoc. split; [done |]. destruct B as [B1 B2 B3 B4]. constructor.
  - done.
  - by eapply breaks_cancel.
  - constructor; [done |]. eapply Forall_impl; [exact B4 |]. cbn. intros v (y & Hy & Hv).
    apply Hsub, elem_of_cancel1 in Hy as (Hy & Hf & Ht'). specialize (Hmax y Hy). lia.
  - constructor; [by exists x |]. eapply Forall_impl; [exact B4 |]. cbn. intros v (y & Hy & Hv).
    apply Hsub, elem_of_cancel1 in Hy as (Hy & _). by exists y.
Qed.

Lemma GddCtxBreakDeadLock_ok ctx G :
  ctx_rep ctx G ->
  exists vs ctx', GddCtxBreakDeadLock ctx = Ok (vs, ctx') /\ broken G vs ctx'.
Proof.
  intros R. apply (GddCtxBreakDeadLock_loop_ok _ ctx G []); [done |].
  destruct (rep_top _ _ R) as [-> _]. unfold zlen. lia.
Qed.

Lemma ctx_rep_new n : ctx_rep (GddCtxNew n) [].
Proof.
  constructor; cbn; try (by intros).
  - apply NoDup_nil_2.
  - split; [apply NoDup_nil_2 | constructor].
  - by intros sk e ?%not_elem_of_nil.
Qed.

(** ** The detector *)

(** Adding a wait to a context that represents a wait-for graph succeeds and
    gives a context that represents the graph with that wait: the vertices at
    both ends list the edge, the statistics of both transactions and of the
    whole graph count it, and its address is new. *)
Theorem gdd_add_edge ctx G segid from to solid :
  ctx_rep ctx G -> 0 <= from -> 0 <= to ->
  exists ctx', GddCtxAddEdge ctx segid from to solid = Ok ctx' /\
    ctx_rep ctx' (G ++ [(u64 segid, mkGddEdge (ctx_next ctx) solid from to)]).
Proof. apply GddCtxAddEdge_ok. Qed.

(** C14: Reducing a context terminates.  What is left is the largest part of the
    graph in which the detector can remove nothing, and it is empty exactly
    when all waits of the graph can be resolved by transactions that release
    locks: the detector reports neither false deadlocks nor misses one. *)
Theorem gdd_reduce ctx G :
  ctx_rep ctx G ->
  exists ctx' G', GddCtxReduce ctx = Ok ctx' /\ ctx_rep ctx' G' /\
    G' ⊆ G /\ stuck w_removable G' /\
    (forall F, F ⊆ G -> stuck w_removable F -> F ⊆ G') /\
    (GddCtxEmpty ctx' = true <-> w_deadlock_free G).
Proof.
  intros R. destruct (GddCtxReduce_ok ctx G R) as (ctx' & G' & E & R' & Hr & Hs).
  exists ctx', G'. split_and!; [done | done | by eapply rtc_rule_subset | done | |].
  - intros F HF HFs. by eapply reduces_largest.
  - rewrite (GddCtxEmpty_iff _ _ R'). by apply reduces_empty_iff.
Qed.


(** Transactions 10 and 11 wait for each other on two segments; 12 waits for 10. *)
Definition gdd_example_ctx : outcome GddCtx :=
  c ← GddCtxAddEdge (GddCtxNew 0) 0 10 11 true;
  c ← GddCtxAddEdge c 1 11 10 true;
  GddCtxAddEdge c 1 12 10 false.

Definition gdd_example_waits : list wait :=
  [(0, mkGddEdge 0 true 10 11); (1, mkGddEdge 1 true 11 10); (1, mkGddEdge 2 false 12 10)].

Definition gdd_example : GddCtx :=
  match gdd_example_ctx with Ok c => c | _ => GddCtxNew 0 end.

Lemma gdd_example_rep : ctx_rep gdd_example gdd_example_waits.
Proof.
  destruct (GddCtxAddEdge_ok _ _ 0 10 11 true (ctx_rep_new 0)) as (c1 & E1 & R1); [done .. |].
  destruct (GddCtxAddEdge_ok _ _ 1 11 10 true R1) as (c2 & E2 & R2); [done .. |].
  destruct (GddCtxAddEdge_ok _ _ 1 12 10 false R2) as (c3 & E3 & R3); [done .. |].
  vm_compute in E1. injection E1 as <-. vm_compute in R1.
  vm_compute in E2. injection E2 as <-. vm_compute in R2.
  vm_compute in E3. injection E3 as <-. vm_compute in R3. vm_compute. exact R3.
Qed.

Lemma gdd_add_edge_witness :
  exists ctx', GddCtxAddEdge gdd_example 2 13 12 true = Ok ctx' /\
    ctx_rep ctx' (gdd_example_waits ++ [(2, mkGddEdge 3 true 13 12)]).
Proof.
  destruct (gdd_add_edge gdd_example gdd_example_waits 2 13 12 true gdd_example_rep) as (c & E & R);
    [done .. |].
  exists c. split; [exact E |]. vm_compute in R |- *. exact R.
Defined.

Lemma gdd_reduce_witness :
  exists ctx' G', GddCtxReduce gdd_example = Ok ctx' /\ ctx_rep ctx' G' /\
    G' ⊆ gdd_example_waits /\ GddCtxEmpty ctx' = false.
Proof.
  destruct (gdd_reduce gdd_example gdd_example_waits gdd_example_rep) as (c & G' & E & R & H & _).
  exists c, G'. split_and!; [done .. |]. vm_compute in E. by injection E as <-.
Defined.

