(* ===== verification/GddBackend.v ===== *)
(** * One round of the global deadlock detector

    Models src/backend/utils/gdd/gddbackend.c ([doDeadLockCheck] and what it
    calls, apart from the text of the log messages) and the two functions of
    src/backend/storage/ipc/procarray.c it asks for the running distributed
    transactions.

    The rows of [gp_dist_wait_status()] come from a query over all segments, so
    the result of the query is an argument: an error, no result set, or the
    rows.  The process array is a list of entries in the order of [pgprocnos];
    the round reads it twice, when it builds the graph and when it cancels, and
    it may have changed in between.  Errors caught by [PG_CATCH] are [Err]. *)

From stdpp Require Import relations sorting.
From S2P Require Import Prelude TransactionId GddTheory GddDetector.

(** ** The process array *)

(** The [gxid] of the [TMGXACT] of a process and the [pid] of its [PGPROC]. *)
Record GxactProc := mkGxactProc { gxid : Z; proc_pid : Z }.

Fixpoint ListAllGxid (procs : list GxactProc) : list Z :=
  match procs with
  | [] => []
  | p :: procs =>
      if gxid p =? InvalidDistributedTransactionId then ListAllGxid procs
      else gxid p :: ListAllGxid procs
  end.

Fixpoint IsDtxInProgress (procs : list GxactProc) (x : Z) : bool :=
  match procs with
  | [] => false
  | p :: procs => if gxid p =? x then true else IsDtxInProgress procs x
  end.

Fixpoint GetPidByGxid (procs : list GxactProc) (x : Z) : Z :=
  match procs with
  | [] => 0
  | p :: procs => if gxid p =? x then proc_pid p else GetPidByGxid procs x
  end.

(** ** Building the graph *)

(** The attributes of a row that become part of the graph; the others are only
    printed. *)
Record WaitRow := mkWaitRow {
  row_segid : Z;
  row_waiter : Z;
  row_holder : Z;
  row_solid : bool
}.

Fixpoint IsValidGxid (gxids : list Z) (check_gxid : Z) : bool :=
  match gxids with
  | [] => false
  | g :: gxids => if g =? check_gxid then true else IsValidGxid gxids check_gxid
  end.

(** [DatumGetInt64] gives a signed value, which is stored in a [uint64]. *)
Fixpoint buildWaitGraph_rows (gxids : list Z) (ctx : GddCtx) (rows : list WaitRow) : outcome GddCtx :=
  match rows with
  | [] => Ok ctx
  | r :: rows =>
      let waiter_xid := u64 (row_waiter r) in
      let holder_xid := u64 (row_holder r) in
      if negb (IsValidGxid gxids waiter_xid) || negb (IsValidGxid gxids holder_xid)
      then buildWaitGraph_rows gxids ctx rows
      else
        ctx ← GddCtxAddEdge ctx (row_segid r) waiter_xid holder_xid (row_solid r);
        buildWaitGraph_rows gxids ctx rows
  end.

Definition buildWaitGraph (spi : outcome (option (list WaitRow))) (procs : list GxactProc) (ctx : GddCtx)
  : outcome GddCtx :=
  res ← spi;
  match res with
  | None => Ok ctx
  | Some rows => buildWaitGraph_rows (ListAllGxid procs) ctx rows
  end.

(** ** One round *)

(** The transactions cancelled, each with the process that gets the signal. *)
Definition breakDeadLock (procs : list GxactProc) (ctx : GddCtx) : outcome (list (Z * Z)) :=
  '(xids, _) ← GddCtxBreakDeadLock ctx;
  Ok (map (fun xid => (xid, GetPidByGxid procs xid)) xids).

Definition RET_STATUS_OK : Z := 0.
Definition RET_STATUS_ERROR : Z := 1.

Definition doDeadLockCheck (spi : outcome (option (list WaitRow))) (procs procs' : list GxactProc)
  : outcome (Z * list (Z * Z)) :=
  match
    ctx ← buildWaitGraph spi procs (GddCtxNew 0);
    ctx ← GddCtxReduce ctx;
    if GddCtxEmpty ctx then Ok [] else breakDeadLock procs' ctx
  with
  | Ok cancelled => Ok (RET_STATUS_OK, cancelled)
  | Err _ => Ok (RET_STATUS_ERROR, [])
  | Ub => Ub
  end.

(** ** The waits that count *)

(** The waits between running transactions, numbered from [next] on. *)
Fixpoint valid_waits (gxids : list Z) (next : nat) (rows : list WaitRow) : list (Z * GddEdge) :=
  match rows with
  | [] => []
  | r :: rows =>
      if decide (u64 (row_waiter r) ∈ gxids /\ u64 (row_holder r) ∈ gxids)
      then (u64 (row_segid r),
            mkGddEdge next (row_solid r) (u64 (row_waiter r)) (u64 (row_holder r)))
           :: valid_waits gxids (S next) rows
      else valid_waits gxids next rows
  end.

Lemma IsValidGxid_spec gxids x : IsValidGxid gxids x = bool_decide (x ∈ gxids).
Proof.
  induction gxids as [| g gxids IH]; cbn [IsValidGxid]; [done |].
  rewrite IH. destruct (Z.eqb_spec g x) as [-> | Hne].
  - symmetry. apply bool_decide_eq_true. left.
  - apply bool_decide_ext. rewrite elem_of_cons. naive_solver.
Qed.

Lemma elem_of_ListAllGxid procs x :
  x ∈ ListAllGxid procs <-> x <> 0 /\ exists p, p ∈ procs /\ gxid p = x.
Proof.
  induction procs as [| p procs IH]; cbn [ListAllGxid].
  { split; [by intros ?%not_elem_of_nil |]. by intros (_ & p & ?%not_elem_of_nil & _). }
  unfold InvalidDistributedTransactionId. destruct (Z.eqb_spec (gxid p) 0) as [E | E].
  - rewrite IH. split; intros (Hx & q & Hq & Hg); (split; [done |]).
    + exists q. split; [by right | done].
    + apply elem_of_cons in Hq as [-> | Hq]; [congruence | by exists q].
  - rewrite elem_of_cons, IH. split.
    + intros [-> | (Hx & q & Hq & Hg)]; (split; [done |]); [by exists p; split; [left |] |].
      exists q. split; [by right | done].
    + intros (Hx & q & Hq & Hg). apply elem_of_cons in Hq as [-> | Hq]; [by left | right].
      split; [done | by exists q].
Qed.

Lemma buildWaitGraph_rows_ok gxids rows : forall ctx G,
  ctx_rep ctx G ->
  exists ctx', buildWaitGraph_rows gxids ctx rows = Ok ctx' /\
    ctx_rep ctx' (G ++ valid_waits gxids (ctx_next ctx) rows).
Proof.
  induction rows as [| r rows IH]; intros ctx G R; cbn [buildWaitGraph_rows valid_waits].
  { exists ctx. by rewrite app_nil_r. }
  rewrite !IsValidGxid_spec.
  destruct (decide (u64 (row_waiter r) ∈ gxids /\ u64 (row_holder r) ∈ gxids)) as [[Hw Hh] | Hno].
  - rewrite !bool_decide_true by done. cbn [negb orb].
    destruct (GddCtxAddEdge_next ctx G (row_segid r) (u64 (row_waiter r)) (u64 (row_holder r)) (row_solid r) R)
      as (c1 & E1 & N1 & R1); [unfold u64; zlia .. |].
    rewrite E1. cbn [mbind outcome_bind]. destruct (IH c1 _ R1) as (c2 & E2 & R2).
    exists c2. split; [done |]. by rewrite <- app_assoc, N1 in R2.
  - replace (_ || _) with true; [by apply IH |].
    destruct (decide (u64 (row_waiter r) ∈ gxids)) as [Hw |]; [| by rewrite bool_decide_false].
    rewrite bool_decide_true, bool_decide_false by tauto. done.
Qed.

Lemma valid_waits_running gxids rows : forall next x,
  x ∈ valid_waits gxids next rows -> w_from x ∈ gxids /\ w_to x ∈ gxids.
Proof.
  induction rows as [| r rows IH]; intros next x; cbn [valid_waits]; [by intros ?%not_elem_of_nil |].
  destruct (decide _) as [[Hw Hh] |]; [| apply IH].
  intros [-> | Hx]%elem_of_cons; [done | by eapply IH].
Qed.

(** The steps of a round whose query succeeded. *)
Lemma round_steps rows procs procs' :
  let W := valid_waits (ListAllGxid procs) 0 rows in
  exists c1 c2 G2 vs c3,
    buildWaitGraph (Ok (Some rows)) procs (GddCtxNew 0) = Ok c1 /\
    GddCtxReduce c1 = Ok c2 /\ ctx_rep c2 G2 /\ w_reduces W G2 /\ stuck w_removable G2 /\
    GddCtxBreakDeadLock c2 = Ok (vs, c3) /\ broken G2 vs c3 /\ (GddCtxEmpty c2 = true -> vs = []) /\
    doDeadLockCheck (Ok (Some rows)) procs procs'
      = Ok (RET_STATUS_OK, map (fun xid => (xid, GetPidByGxid procs' xid)) vs).
Proof.
  intros W. destruct (buildWaitGraph_rows_ok (ListAllGxid procs) rows (GddCtxNew 0) [] (ctx_rep_new 0))
    as (c1 & E1 & R1). cbn [app GddCtxNew ctx_next] in R1. fold W in R1.
  destruct (GddCtxReduce_ok c1 W R1) as (c2 & G2 & E2 & R2 & Hr & Hs).
  destruct (GddCtxBreakDeadLock_ok c2 G2 R2) as (vs & c3 & E3 & B).
  assert (Hvs : GddCtxEmpty c2 = true -> vs = []).
  { rewrite (GddCtxEmpty_iff _ _ R2). intros ->. destruct vs as [| v vs]; [done |].
    pose proof (br_inside _ _ _ B) as Hin. apply Forall_cons in Hin as [(x & Hx & _) _].
    by apply not_elem_of_nil in Hx. }
  exists c1, c2, G2, vs, c3. split_and!; [done .. |].
  unfold doDeadLockCheck, buildWaitGraph. cbn [mbind outcome_bind]. rewrite E1. cbn [mbind outcome_bind].
  rewrite E2. cbn [mbind outcome_bind]. destruct (GddCtxEmpty c2); [by rewrite Hvs |].
  unfold breakDeadLock. rewrite E3. done.
Qed.


(** A round whose query fails reports an error and cancels nothing, and a query
    without result set cancels nothing. *)
Lemma gdd_round_no_rows procs procs' msg :
  doDeadLockCheck (Err msg) procs procs' = Ok (RET_STATUS_ERROR, []) /\
  doDeadLockCheck (Ok None) procs procs' = Ok (RET_STATUS_OK, []).
Proof. split; reflexivity. Qed.

(** Two transactions wait for each other on two segments, a third one that is
    gone waits as well, and 12 waits for both: 11 is cancelled. *)
Lemma gdd_round_example :
  let rows := [mkWaitRow 0 10 11 true; mkWaitRow 1 11 10 true; mkWaitRow 1 99 10 true;
               mkWaitRow 0 12 10 true; mkWaitRow 2 12 11 false] in
  let procs := [mkGxactProc 0 500; mkGxactProc 10 501; mkGxactProc 11 502; mkGxactProc 12 503] in
  doDeadLockCheck (Ok (Some rows)) procs procs = Ok (RET_STATUS_OK, [(11, 502)]).
Proof. vm_compute. reflexivity. Qed.
