(* ===== verification/VarBlock.v ===== *)
(** * Blocks of variable-length items

    Models src/backend/cdb/cdbvarblock.c and src/include/cdb/cdbvarblock.h: the
    maker that packs the items of an append-only block into a buffer and keeps
    their offsets in a scratch area, the validity check and the readers.

    The header, the maker's and the reader's pointers into the buffer are offsets
    from its beginning; memory is a list of bytes, little-endian, and an access
    outside it is [Ub].  The text of the check errors is left out. *)

From S2P Require Import Prelude.

(** ** The header *)

Record VarBlockHeader := mkVarBlockHeader { bytes_0_3 : Z; bytes_4_7 : Z }.

Definition VARBLOCK_HEADER_LEN : Z := 8.
Definition VARBLOCK_BYTE_OFFSET_24_LEN : Z := 3.
Definition InitialVersion : Z := 1.

Definition VarBlockGet_offsetsAreSmall (h : VarBlockHeader) : bool :=
  negb (Z.shiftr (bytes_0_3 h) 31 =? 0).
Definition VarBlockGet_reserved (h : VarBlockHeader) : Z := Z.shiftr (Z.land (bytes_0_3 h) 0x7C000000) 26.
Definition VarBlockGet_version (h : VarBlockHeader) : Z := Z.shiftr (Z.land (bytes_0_3 h) 0x03000000) 24.
Definition VarBlockGet_itemLenSum (h : VarBlockHeader) : Z := Z.land (bytes_0_3 h) 0x00FFFFFF.
Definition VarBlockGet_moreReserved (h : VarBlockHeader) : Z := Z.shiftr (Z.land (bytes_4_7 h) 0xFF000000) 24.
Definition VarBlockGet_itemCount (h : VarBlockHeader) : Z := Z.land (bytes_4_7 h) 0x00FFFFFF.

Definition VarBlockSet_offsetsAreSmall (h : VarBlockHeader) (e : bool) : VarBlockHeader :=
  mkVarBlockHeader
    (if e then Z.lor (bytes_0_3 h) 0x80000000 else Z.land (bytes_0_3 h) 0x7FFFFFFF) (bytes_4_7 h).
Definition VarBlockSet_version (h : VarBlockHeader) (e : Z) : VarBlockHeader :=
  mkVarBlockHeader
    (Z.lor (Z.land (bytes_0_3 h) 0xFCFFFFFF) (Z.land 0x03000000 (Z.shiftl e 24))) (bytes_4_7 h).
Definition VarBlockSet_itemLenSum (h : VarBlockHeader) (e : Z) : VarBlockHeader :=
  mkVarBlockHeader (Z.lor (Z.land (bytes_0_3 h) 0xFF000000) (Z.land 0x00FFFFFF e)) (bytes_4_7 h).
Definition VarBlockSet_itemCount (h : VarBlockHeader) (e : Z) : VarBlockHeader :=
  mkVarBlockHeader (bytes_0_3 h) (Z.lor (Z.land (bytes_4_7 h) 0xFF000000) (Z.land 0x00FFFFFF e)).

(** The two words at the beginning of a buffer. *)
Definition header_read (buffer : list Z) : outcome VarBlockHeader :=
  w0 ← mem_read buffer 0 4;
  w1 ← mem_read buffer 4 4;
  Ok (mkVarBlockHeader (le_join w0) (le_join w1)).

Definition header_bytes (h : VarBlockHeader) : list Z :=
  le_split 4 (bytes_0_3 h) ++ le_split 4 (bytes_4_7 h).

(** A macro that changes the header through the pointer. *)
Definition header_update (f : VarBlockHeader -> VarBlockHeader) (buffer : list Z) : outcome (list Z) :=
  h ← header_read buffer;
  mem_write buffer 0 (header_bytes (f h)).

(** ** The maker *)

Record VarBlockMaker := mkVarBlockMaker {
  mk_buffer : list Z;
  mk_maxBufferLen : Z;
  mk_currentItemLenSum : Z;
  mk_tempScratchSpace : list Z;
  mk_tempScratchSpaceLen : Z;
  mk_nextItemPtr : Z;
  mk_last2ByteOffsetPtr : Z;
  mk_currentItemCount : Z;
  mk_maxItemCount : Z
}.

Definition VarBlockMakerInit (buffer : list Z) (maxBufferLen : Z) (tempScratchSpace : list Z)
    (tempScratchSpaceLen : Z) : outcome VarBlockMaker :=
  buffer ← mem_write buffer 0 (replicate (Z.to_nat VARBLOCK_HEADER_LEN) 0);
  buffer ← header_update (fun h => VarBlockSet_version h InitialVersion) buffer;
  buffer ← header_update (fun h => VarBlockSet_offsetsAreSmall h true) buffer;
  Ok (mkVarBlockMaker buffer maxBufferLen 0 tempScratchSpace tempScratchSpaceLen
        VARBLOCK_HEADER_LEN (63 * 1024) 0 (Z.quot tempScratchSpaceLen 2)).

(** An addition of [int]s: signed overflow is undefined. *)
Definition int_add (a b : Z) : outcome Z :=
  if (- 2 ^ 31 <=? a + b) && (a + b <? 2 ^ 31) then Ok (a + b) else Ub.

Definition round_even (n : Z) : Z := Z.quot (n + 1) 2 * 2.

(** The move from 2-byte to 3-byte offsets inside the scratch area, from [r] down. *)
Fixpoint widen_offsets (r : nat) (scratch : list Z) : outcome (list Z) :=
  o ← mem_read scratch (Z.of_nat r * 2) 2;
  scratch ← mem_write scratch (Z.of_nat r * VARBLOCK_BYTE_OFFSET_24_LEN) (le_split 3 (le_join o));
  match r with
  | O => Ok scratch
  | S r => widen_offsets r scratch
  end.

(** The total length with 3-byte offsets, stored in an [int32]. *)
Definition total_len24 (newItemLenSum currentItemCount : Z) : Z :=
  s32 (VARBLOCK_HEADER_LEN + round_even newItemLenSum +
       round_even ((currentItemCount + 1) * VARBLOCK_BYTE_OFFSET_24_LEN)).

Definition maker_advance (m : VarBlockMaker) (buffer scratch : list Z) (maxItemCount itemLen newItemLenSum : Z)
  : VarBlockMaker :=
  mkVarBlockMaker buffer (mk_maxBufferLen m) newItemLenSum scratch (mk_tempScratchSpaceLen m)
    (mk_nextItemPtr m + itemLen) (mk_last2ByteOffsetPtr m) (mk_currentItemCount m + 1) maxItemCount.

(** [None] is the NULL pointer: no room. *)
Definition VarBlockMakerGetNextItemPtr (m : VarBlockMaker) (itemLen : Z)
  : outcome (option Z * VarBlockMaker) :=
  let count := mk_currentItemCount m in
  if mk_maxItemCount m <=? count then Ok (None, m)
  else
    let nextItemOffset := mk_nextItemPtr m in
    newItemLenSum ← int_add (mk_currentItemLenSum m) itemLen;
    header ← header_read (mk_buffer m);
    if VarBlockGet_offsetsAreSmall header then
      if mk_last2ByteOffsetPtr m <? mk_nextItemPtr m then
        if mk_maxBufferLen m <? total_len24 newItemLenSum count then Ok (None, m)
        else
          let newMaxItemCount := Z.quot (mk_tempScratchSpaceLen m) VARBLOCK_BYTE_OFFSET_24_LEN in
          if newMaxItemCount <=? count then Ok (None, m)
          else
            buffer ← header_update (fun h => VarBlockSet_offsetsAreSmall h false) (mk_buffer m);
            scratch ← widen_offsets (Z.to_nat count) (mk_tempScratchSpace m);
            scratch ← mem_write scratch (count * VARBLOCK_BYTE_OFFSET_24_LEN) (le_split 3 nextItemOffset);
            Ok (Some (mk_nextItemPtr m), maker_advance m buffer scratch newMaxItemCount itemLen newItemLenSum)
      else
        let newTotalLen := s32 (VARBLOCK_HEADER_LEN + round_even newItemLenSum + count * 2 + 2) in
        if mk_maxBufferLen m <? newTotalLen then Ok (None, m)
        else
          scratch ← mem_write (mk_tempScratchSpace m) (count * 2) (le_split 2 (u16 nextItemOffset));
          Ok (Some (mk_nextItemPtr m),
              maker_advance m (mk_buffer m) scratch (mk_maxItemCount m) itemLen newItemLenSum)
    else
      if mk_maxBufferLen m <? total_len24 newItemLenSum count then Ok (None, m)
      else
        scratch ← mem_write (mk_tempScratchSpace m) (count * VARBLOCK_BYTE_OFFSET_24_LEN)
                    (le_split 3 nextItemOffset);
        Ok (Some (mk_nextItemPtr m),
            maker_advance m (mk_buffer m) scratch (mk_maxItemCount m) itemLen newItemLenSum).

Definition VarBlockMakerItemCount (m : VarBlockMaker) : Z := mk_currentItemCount m.

(** [buffer[z] = 0] for [z] from [from] up to [to]. *)
Definition zero_pad (buffer : list Z) (from to : Z) : outcome (list Z) :=
  if from <? to then mem_write buffer from (replicate (Z.to_nat (to - from)) 0) else Ok buffer.

(** The length of the block and the buffer that holds it. *)
Definition VarBlockMakerFinish (m : VarBlockMaker) : outcome (Z * list Z) :=
  let itemCount := mk_currentItemCount m in
  let itemLenSum := mk_currentItemLenSum m in
  let offsetToOffsetArray := VARBLOCK_HEADER_LEN + round_even itemLenSum in
  header ← header_read (mk_buffer m);
  let multiplier := if VarBlockGet_offsetsAreSmall header then 2 else VARBLOCK_BYTE_OFFSET_24_LEN in
  offsets ← mem_read (mk_tempScratchSpace m) 0 (itemCount * multiplier);
  buffer ← mem_write (mk_buffer m) offsetToOffsetArray offsets;
  buffer ← zero_pad buffer (VARBLOCK_HEADER_LEN + itemLenSum) offsetToOffsetArray;
  buffer ← header_update (fun h => VarBlockSet_itemLenSum h itemLenSum) buffer;
  buffer ← header_update (fun h => VarBlockSet_itemCount h itemCount) buffer;
  let offsetArrayLen := itemCount * multiplier in
  let offsetArrayLenRounded := round_even offsetArrayLen in
  buffer ← zero_pad buffer (offsetToOffsetArray + offsetArrayLen)
             (offsetToOffsetArray + offsetArrayLenRounded);
  Ok (offsetToOffsetArray + offsetArrayLenRounded, buffer).

(** ** The validity check *)

Inductive VarBlockCheckError :=
| VarBlockCheckOk
| VarBlockCheckBadVersion
| VarBlockCheckReservedNot0
| VarBlockCheckMoreReservedNot0
| VarBlockCheckItemSumLenBad1
| VarBlockCheckItemSumLenBad2
| VarBlockCheckZeroPadBad1
| VarBlockCheckZeroPadBad2
| VarBlockCheckItemCountBad1
| VarBlockCheckItemCountBad2
| VarBlockCheckOffsetBad1
| VarBlockCheckOffsetBad2
| VarBlockCheckOffsetBad3.

Definition VarBlockGetOffset (buffer : list Z) (offsetToOffsetArray itemIndex : Z) : outcome Z :=
  header ← header_read buffer;
  if VarBlockGet_offsetsAreSmall header
  then o ← mem_read buffer (offsetToOffsetArray + itemIndex * 2) 2; Ok (le_join o)
  else o ← mem_read buffer (offsetToOffsetArray + itemIndex * VARBLOCK_BYTE_OFFSET_24_LEN) 3;
       Ok (le_join o).

Definition VarBlockHeaderIsValid (buffer : list Z) : outcome VarBlockCheckError :=
  header ← header_read buffer;
  Ok (if negb (VarBlockGet_version header =? InitialVersion) then VarBlockCheckBadVersion
      else if negb (VarBlockGet_reserved header =? 0) then VarBlockCheckReservedNot0
      else if negb (VarBlockGet_moreReserved header =? 0) then VarBlockCheckMoreReservedNot0
      else VarBlockCheckOk).

(** Whether the [n] bytes from [z] on are zero. *)
Fixpoint zero_from (n : nat) (buffer : list Z) (z : Z) : outcome bool :=
  match n with
  | O => Ok true
  | S n => b ← zget buffer z; if negb (b =? 0) then Ok false else zero_from n buffer (z + 1)
  end.

(** The loop over the offsets from index [i] on. *)
Fixpoint check_offsets (n : nat) (buffer : list Z) (offsetToOffsetArray itemLenSum i prevOffset : Z)
  : outcome VarBlockCheckError :=
  match n with
  | O => Ok VarBlockCheckOk
  | S n =>
      offset ← VarBlockGetOffset buffer offsetToOffsetArray i;
      if offset <? prevOffset then Ok VarBlockCheckOffsetBad2
      else if itemLenSum + VARBLOCK_HEADER_LEN <? offset then Ok VarBlockCheckOffsetBad3
      else check_offsets n buffer offsetToOffsetArray itemLenSum (i + 1) offset
  end.

(** The checks of a block that has items. *)
Definition check_items (buffer : list Z) (small : bool)
    (bufferLen offsetToOffsetArray itemLenSum itemCount : Z) : outcome VarBlockCheckError :=
  let multiplier := if small then 2 else VARBLOCK_BYTE_OFFSET_24_LEN in
  let actualOffsetArrayLenRounded := bufferLen - offsetToOffsetArray in
  let calculatedOffsetArrayLen := itemCount * multiplier in
  let calculatedOffsetArrayLenRounded := round_even calculatedOffsetArrayLen in
  if negb (actualOffsetArrayLenRounded =? calculatedOffsetArrayLenRounded)
  then Ok VarBlockCheckItemCountBad2
  else
    offset ← VarBlockGetOffset buffer offsetToOffsetArray 0;
    if negb (offset =? VARBLOCK_HEADER_LEN) then Ok VarBlockCheckOffsetBad1
    else
      r ← check_offsets (Z.to_nat (itemCount - 1)) buffer offsetToOffsetArray itemLenSum 1 offset;
      match r with
      | VarBlockCheckOk =>
          zero ← zero_from (Z.to_nat (calculatedOffsetArrayLenRounded - calculatedOffsetArrayLen))
                   buffer (offsetToOffsetArray + calculatedOffsetArrayLen);
          Ok (if zero : bool then VarBlockCheckOk else VarBlockCheckZeroPadBad2)
      | r => Ok r
      end.

Definition VarBlockIsValid (buffer : list Z) (bufferLen : Z) : outcome VarBlockCheckError :=
  r ← VarBlockHeaderIsValid buffer;
  match r with
  | VarBlockCheckOk =>
      header ← header_read buffer;
      let itemLenSum := VarBlockGet_itemLenSum header in
      if bufferLen <=? itemLenSum then Ok VarBlockCheckItemSumLenBad1
      else
        let offsetToOffsetArray := VARBLOCK_HEADER_LEN + round_even itemLenSum in
        if bufferLen <? offsetToOffsetArray then Ok VarBlockCheckItemSumLenBad2
        else
          zero ← zero_from (Z.to_nat (offsetToOffsetArray - (VARBLOCK_HEADER_LEN + itemLenSum)))
                   buffer (VARBLOCK_HEADER_LEN + itemLenSum);
          if negb zero then Ok VarBlockCheckZeroPadBad1
          else
            let itemCount := VarBlockGet_itemCount header in
            if itemCount =? 0 then
              Ok (if negb (offsetToOffsetArray =? bufferLen) then VarBlockCheckItemCountBad1
                  else VarBlockCheckOk)
            else check_items buffer (VarBlockGet_offsetsAreSmall header) bufferLen
                   offsetToOffsetArray itemLenSum itemCount
  | r => Ok r
  end.

(** ** The reader *)

Record VarBlockReader := mkVarBlockReader {
  rd_buffer : list Z;
  rd_bufferLen : Z;
  rd_nextIndex : Z;
  rd_nextItemPtr : Z;
  rd_offsetToOffsetArray : Z
}.

(** [calculatedItemCount] is used in an assertion only. *)
Definition VarBlockReaderInit (buffer : list Z) (bufferLen : Z) : outcome VarBlockReader :=
  header ← header_read buffer;
  Ok (mkVarBlockReader buffer bufferLen 0 VARBLOCK_HEADER_LEN
        (VARBLOCK_HEADER_LEN + round_even (VarBlockGet_itemLenSum header))).

Definition VarBlockGetItemPtrAndLen (r : VarBlockReader) (itemIndex : Z) : outcome (Z * Z) :=
  header ← header_read (rd_buffer r);
  offset ← VarBlockGetOffset (rd_buffer r) (rd_offsetToOffsetArray r) itemIndex;
  if itemIndex <? VarBlockGet_itemCount header - 1
  then
    nextOffset ← VarBlockGetOffset (rd_buffer r) (rd_offsetToOffsetArray r) (itemIndex + 1);
    Ok (offset, nextOffset - offset)
  else Ok (offset, VARBLOCK_HEADER_LEN + VarBlockGet_itemLenSum header - offset).

(** The same computation without the pointer. *)
Definition VarBlockGetItemLen (r : VarBlockReader) (itemIndex : Z) : outcome Z :=
  header ← header_read (rd_buffer r);
  offset ← VarBlockGetOffset (rd_buffer r) (rd_offsetToOffsetArray r) itemIndex;
  if itemIndex <? VarBlockGet_itemCount header - 1
  then
    nextOffset ← VarBlockGetOffset (rd_buffer r) (rd_offsetToOffsetArray r) (itemIndex + 1);
    Ok (nextOffset - offset)
  else Ok (VARBLOCK_HEADER_LEN + VarBlockGet_itemLenSum header - offset).

(** The pointer and length of the next item; [None] when there are no more. *)
Definition VarBlockReaderGetNextItemPtr (r : VarBlockReader) : outcome (option (Z * Z) * VarBlockReader) :=
  header ← header_read (rd_buffer r);
  if VarBlockGet_itemCount header <=? rd_nextIndex r then Ok (None, r)
  else
    itemLen ← VarBlockGetItemLen r (rd_nextIndex r);
    Ok (Some (rd_nextItemPtr r, itemLen),
        mkVarBlockReader (rd_buffer r) (rd_bufferLen r) (rd_nextIndex r + 1)
          (rd_nextItemPtr r + itemLen) (rd_offsetToOffsetArray r)).

Definition VarBlockReaderItemCount (r : VarBlockReader) : outcome Z :=
  header ← header_read (rd_buffer r);
  Ok (VarBlockGet_itemCount header).

Definition VarBlockReaderGetItemPtr (r : VarBlockReader) (itemIndex : Z) : outcome (Z * Z) :=
  VarBlockGetItemPtrAndLen r itemIndex.

(** [memmove] of the only item of [source] to [target]. *)
Definition VarBlockCollapseToSingleItem (target source : list Z) (sourceLen : Z) : outcome (Z * list Z) :=
  r ← VarBlockReaderInit source sourceLen;
  '(itemPtr, itemLen) ← VarBlockReaderGetItemPtr r 0;
  item ← mem_read source itemPtr itemLen;
  target ← mem_write target 0 item;
  Ok (itemLen, target).

(** ** The format *)

Fixpoint offsets_from (o : Z) (items : list (list Z)) : list Z :=
  match items with
  | [] => []
  | item :: items => o :: offsets_from (o + zlen item) items
  end.

Definition item_offsets (items : list (list Z)) : list Z := offsets_from VARBLOCK_HEADER_LEN items.

Definition off_width (small : bool) : nat := if small then 2%nat else 3%nat.

Definition pad (n : Z) : list Z := replicate (Z.to_nat (round_even n - n)) 0.

Definition block_header (small : bool) (sum count : Z) : VarBlockHeader :=
  mkVarBlockHeader (sum + 2 ^ 24 * (if small then 129 else 1)) count.

(** A complete block: the header, the items, their offsets, each padded to an
    even length. *)
Definition varblock_bytes (small : bool) (items : list (list Z)) : list Z :=
  let sum := zlen (concat items) in
  let offsets := flat (off_width small) (item_offsets items) in
  header_bytes (block_header small sum (zlen items)) ++ concat items ++ pad sum ++
  offsets ++ pad (zlen offsets).

Definition block_ok (small : bool) (items : list (list Z)) : Prop :=
  zlen (concat items) + VARBLOCK_HEADER_LEN <= 2 ^ 24 - 1 /\ zlen items < 2 ^ 24 /\
  Forall (fun o => 0 <= o < 2 ^ (8 * Z.of_nat (off_width small))) (item_offsets items).

(** ** Lengths *)

Lemma round_even_spec n : 0 <= n -> n <= round_even n <= n + 1 /\ Z.Even (round_even n).
Proof.
  intros. unfold round_even. rewrite Z.quot_div_nonneg by lia. split; [zlia |].
  exists ((n + 1) / 2). lia.
Qed.

Lemma round_even_mono a b : 0 <= a <= b -> round_even a <= round_even b.
Proof. intros. unfold round_even. rewrite !Z.quot_div_nonneg by lia. zlia. Qed.

Lemma zlen_pad n : 0 <= n -> zlen (pad n) = round_even n - n.
Proof.
  intros. unfold pad. rewrite zlen_replicate. destruct (round_even_spec n); lia.
Qed.

(** ** Offsets *)

Lemma length_offsets_from o items : length (offsets_from o items) = length items.
Proof. revert o. induction items; intros; cbn; auto. Qed.

Lemma zlen_item_offsets items : zlen (item_offsets items) = zlen items.
Proof. unfold zlen, item_offsets. by rewrite length_offsets_from. Qed.

Lemma offsets_from_app o items item :
  offsets_from o (items ++ [item]) = offsets_from o items ++ [o + zlen (concat items)].
Proof.
  revert o. induction items as [| it items IH]; intros o; cbn [offsets_from app concat].
  - by rewrite zlen_nil, Z.add_0_r.
  - rewrite IH, zlen_app. f_equal. f_equal. f_equal. lia.
Qed.

Lemma offsets_from_lookup o items i :
  (i < length items)%nat -> offsets_from o items !! i = Some (o + zlen (concat (take i items))).
Proof.
  revert o i. induction items as [| it items IH]; intros o i Hi; cbn in Hi; [lia |].
  destruct i as [| i]; cbn [offsets_from lookup list_lookup take concat].
  - by rewrite zlen_nil, Z.add_0_r.
  - rewrite IH by lia. rewrite zlen_app. f_equal. lia.
Qed.

(** The bytes of one offset. *)
Lemma flat_read w l i v (a c : list Z) :
  l !! i = Some v ->
  mem_read (a ++ flat w l ++ c) (zlen a + Z.of_nat i * Z.of_nat w) (Z.of_nat w) = Ok (le_split w v).
Proof.
  intros Hi. rewrite <- (take_drop_middle l i v Hi), flat_app. cbn [flat flat_map].
  fold (flat w (drop (S i) l)). rewrite <- !app_assoc.
  rewrite app_assoc. apply mem_read_mid.
  - rewrite zlen_app, zlen_flat. unfold zlen at 3. rewrite length_take.
    apply lookup_lt_Some in Hi. lia.
  - by rewrite zlen_le_split.
Qed.

(** ** Header fields *)

Lemma header_read_bytes h rest :
  ubits 32 (bytes_0_3 h) -> ubits 32 (bytes_4_7 h) -> header_read (header_bytes h ++ rest) = Ok h.
Proof.
  intros H0 H1. unfold header_read, header_bytes. rewrite <- app_assoc.
  rewrite mem_read_front by done. cbn [mbind outcome_bind].
  rewrite (mem_read_mid (le_split 4 (bytes_0_3 h)) (le_split 4 (bytes_4_7 h))) by done.
  cbn [mbind outcome_bind]. rewrite !le_join_split.
  destruct h as [a b]. cbn in *. change (256 ^ Z.of_nat 4) with (2 ^ 32).
  unfold ubits in *. by rewrite !Z.mod_small.
Qed.

Lemma header_update_bytes f h (rest : list Z) :
  ubits 32 (bytes_0_3 h) -> ubits 32 (bytes_4_7 h) ->
  header_update f (header_bytes h ++ rest) = Ok (header_bytes (f h) ++ rest).
Proof.
  intros H0 H1. unfold header_update. rewrite header_read_bytes by done. cbn [mbind outcome_bind].
  apply (mem_write_mid [] (header_bytes h)); [done |].
  unfold header_bytes. by rewrite !length_app, !le_split_length.
Qed.

Section Fields.
  Context (small : bool) (sum count : Z).
  Context (Hsum : ubits 24 sum) (Hcount : ubits 24 count).

  Local Notation h := (block_header small sum count).

Lemma block_header_wf : ubits 32 (bytes_0_3 h) /\ ubits 32 (bytes_4_7 h).
Proof. unfold ubits in *. cbn. destruct small; lia. Qed.

Lemma block_header_small : VarBlockGet_offsetsAreSmall h = small.
Proof.
  unfold VarBlockGet_offsetsAreSmall. cbn [bytes_0_3 block_header]. unfold ubits in *.
  rewrite Z.shiftr_div_pow2 by lia. destruct small.
  - rewrite <- (Z.div_unique _ (2 ^ 31) 1 (sum + 2 ^ 24)) by lia. done.
  - by rewrite Z.div_small by lia.
Qed.

Lemma block_header_sum : VarBlockGet_itemLenSum h = sum.
Proof.
  unfold VarBlockGet_itemLenSum. cbn [bytes_0_3 block_header]. unfold ubits in *.
  change 0x00FFFFFF with (Z.ones 24). rewrite Z.land_ones by lia.
  by rewrite (Z.mul_comm (2 ^ 24)), Z.mod_add, Z.mod_small by lia.
Qed.

Lemma block_header_count : VarBlockGet_itemCount h = count.
Proof.
  unfold VarBlockGet_itemCount. cbn [bytes_4_7 block_header]. unfold ubits in *.
  change 0x00FFFFFF with (Z.ones 24). rewrite Z.land_ones by lia. by rewrite Z.mod_small.
Qed.

Lemma block_header_version : VarBlockGet_version h = InitialVersion.
Proof.
  unfold VarBlockGet_version. cbn [bytes_0_3 block_header]. rewrite Z.shiftr_land.
  rewrite Z.shiftr_div_pow2, (Z.mul_comm (2 ^ 24)), Z.div_add by lia. unfold ubits in *.
  rewrite Z.div_small by lia. by destruct small.
Qed.

Lemma block_header_reserved : VarBlockGet_reserved h = 0 /\ VarBlockGet_moreReserved h = 0.
Proof.
  unfold VarBlockGet_reserved, VarBlockGet_moreReserved. cbn [bytes_0_3 bytes_4_7 block_header].
  rewrite !Z.shiftr_land. unfold ubits in *. rewrite !Z.shiftr_div_pow2 by lia. split.
  - destruct small; cycle 1.
    { rewrite Z.div_small by lia. done. }
    rewrite <- (Z.div_unique _ (2 ^ 26) 32 (sum + 2 ^ 24)) by lia. done.
  - by rewrite Z.div_small.
Qed.
End Fields.

Lemma header_bytes_length h : zlen (header_bytes h) = 8.
Proof. unfold header_bytes. by rewrite zlen_app, !zlen_le_split. Qed.

Lemma zero_from_replicate n (a c : list Z) z :
  z = zlen a -> zero_from n (a ++ replicate n 0 ++ c) z = Ok true.
Proof.
  revert a z. induction n as [| n IH]; intros a z ->; [done |]. cbn [zero_from replicate app].
  rewrite (zget_lookup _ _ 0) by
    (try apply zlen_nonneg; unfold zlen; by rewrite Nat2Z.id, lookup_app_r, Nat.sub_diag by lia).
  cbn [mbind outcome_bind]. rewrite Z.eqb_refl. cbn [negb].
  replace (a ++ 0 :: replicate n 0 ++ c) with ((a ++ [0]) ++ replicate n 0 ++ c) by (by rewrite <- app_assoc).
  apply IH. by rewrite zlen_app.
Qed.

Lemma take_concat_next (items : list (list Z)) i it :
  items !! i = Some it -> zlen (concat (take (S i) items)) = zlen (concat (take i items)) + zlen it.
Proof.
  intros Hi. rewrite (take_S_r _ _ _ Hi), concat_app, zlen_app. cbn [concat]. by rewrite app_nil_r.
Qed.

(** ** Reading a block *)

Section Read.
  Context (small : bool) (items : list (list Z)) (rest : list Z).
  Context (Hok : block_ok small items).

  Local Notation sum := (zlen (concat items)).
  Local Notation buffer := (varblock_bytes small items ++ rest).
  Local Notation arr := (VARBLOCK_HEADER_LEN + round_even sum).

Lemma block_header_ubits : ubits 24 sum /\ ubits 24 (zlen items).
Proof.
  destruct Hok as (H1 & H2 & _). unfold VARBLOCK_HEADER_LEN in *.
  pose proof (zlen_nonneg (concat items)). pose proof (zlen_nonneg items). unfold ubits. lia.
Qed.

Lemma block_header_read : header_read buffer = Ok (block_header small sum (zlen items)).
Proof.
  destruct block_header_ubits. unfold varblock_bytes. rewrite <- app_assoc.
  by apply header_read_bytes; apply block_header_wf.
Qed.

(** The part of the block before the offsets. *)
Lemma block_prefix_length :
  zlen (header_bytes (block_header small sum (zlen items)) ++ concat items ++ pad sum) = arr.
Proof.
  rewrite !zlen_app, header_bytes_length, zlen_pad by apply zlen_nonneg. unfold VARBLOCK_HEADER_LEN. lia.
Qed.

Lemma block_offset (i : nat) :
  (i < length items)%nat ->
  VarBlockGetOffset buffer arr (Z.of_nat i) = Ok (8 + zlen (concat (take i items))).
Proof.
  intros Hi. destruct block_header_ubits. unfold VarBlockGetOffset. rewrite block_header_read.
  cbn [mbind outcome_bind]. rewrite block_header_small by done.
  pose proof (offsets_from_lookup VARBLOCK_HEADER_LEN items i Hi) as Hl.
  assert (Hread : mem_read buffer (arr + Z.of_nat i * Z.of_nat (off_width small)) (Z.of_nat (off_width small))
                  = Ok (le_split (off_width small) (8 + zlen (concat (take i items))))).
  { unfold varblock_bytes. rewrite <- block_prefix_length.
    replace (_ ++ rest) with ((header_bytes (block_header small sum (zlen items)) ++ concat items ++ pad sum)
      ++ flat (off_width small) (item_offsets items)
      ++ (pad (zlen (flat (off_width small) (item_offsets items))) ++ rest)) by (by rewrite <- !app_assoc).
    by apply flat_read. }
  destruct Hok as (_ & _ & Hb). rewrite Forall_lookup in Hb. specialize (Hb _ _ Hl).
  unfold VARBLOCK_HEADER_LEN in Hb. destruct small; cbn [off_width] in *;
    change (Z.of_nat 2) with 2 in *; change (Z.of_nat 3) with 3 in *; unfold VARBLOCK_BYTE_OFFSET_24_LEN;
    rewrite Hread; cbn [mbind outcome_bind]; rewrite le_join_split, Z.mod_small; done.
Qed.
Lemma block_length :
  zlen (varblock_bytes small items)
  = arr + round_even (zlen items * Z.of_nat (off_width small)).
Proof.
  pose proof block_prefix_length as Hp. unfold varblock_bytes. rewrite !zlen_app in *.
  rewrite (zlen_pad (zlen (flat _ _))), zlen_flat, zlen_item_offsets by apply zlen_nonneg.
  rewrite (Z.mul_comm (zlen items)). lia.
Qed.

Lemma block_item_ptr r (i : nat) it :
  rd_buffer r = buffer -> rd_offsetToOffsetArray r = arr -> items !! i = Some it ->
  VarBlockGetItemPtrAndLen r (Z.of_nat i) = Ok (8 + zlen (concat (take i items)), zlen it).
Proof.
  intros Hb Ha Hi. destruct block_header_ubits. pose proof (lookup_lt_Some _ _ _ Hi) as Hlt.
  unfold VarBlockGetItemPtrAndLen. rewrite Hb, Ha, block_header_read. cbn [mbind outcome_bind].
  rewrite block_offset by done. cbn [mbind outcome_bind].
  rewrite block_header_count, block_header_sum by done. unfold VARBLOCK_HEADER_LEN.
  pose proof (take_concat_next _ _ _ Hi) as Hn.
  destruct (Z.ltb_spec (Z.of_nat i) (zlen items - 1)) as [Hlast | Hlast]; unfold zlen at 1 in Hlast.
  - replace (Z.of_nat i + 1) with (Z.of_nat (S i)) by lia.
    rewrite block_offset by lia. cbn [mbind outcome_bind]. do 2 f_equal. lia.
  - rewrite (take_ge items (S i)) in Hn by lia. do 2 f_equal. lia.
Qed.

Lemma VarBlockGetItemLen_eq r i :
  VarBlockGetItemLen r i = ('(_, len) ← VarBlockGetItemPtrAndLen r i; Ok len).
Proof.
  unfold VarBlockGetItemLen, VarBlockGetItemPtrAndLen.
  destruct (header_read (rd_buffer r)) as [h | |]; [| done ..]. cbn [mbind outcome_bind].
  destruct (VarBlockGetOffset (rd_buffer r) (rd_offsetToOffsetArray r) i) as [o | |]; [| done ..].
  cbn [mbind outcome_bind]. destruct (i <? VarBlockGet_itemCount h - 1); [| done].
  by destruct (VarBlockGetOffset _ _ (i + 1)).
Qed.

Lemma block_item_read (i : nat) it :
  items !! i = Some it -> mem_read buffer (8 + zlen (concat (take i items))) (zlen it) = Ok it.
Proof.
  intros Hi. unfold varblock_bytes. set (hb := header_bytes _). set (pd := pad (zlen (concat items))).
  assert (Hc : concat items = concat (take i items) ++ it ++ concat (drop (S i) items)).
  { rewrite <- (take_drop_middle items i it Hi) at 1. by rewrite concat_app. }
  rewrite Hc, <- !app_assoc, app_assoc.
  apply mem_read_mid; [| done]. unfold hb. by rewrite zlen_app, header_bytes_length.
Qed.
End Read.

(** The scan of a client: read the next item until there is none. *)
Fixpoint varblock_scan (n : nat) (r : VarBlockReader) : outcome (list (list Z)) :=
  match n with
  | O => Err "fuel"
  | S n =>
      '(p, r) ← VarBlockReaderGetNextItemPtr r;
      match p with
      | None => Ok []
      | Some (ptr, len) =>
          item ← mem_read (rd_buffer r) ptr len;
          items ← varblock_scan n r;
          Ok (item :: items)
      end
  end.

Lemma varblock_scan_S n r :
  varblock_scan (S n) r =
  ('(p, r) ← VarBlockReaderGetNextItemPtr r;
   match p with
   | None => Ok []
   | Some (ptr, len) =>
       item ← mem_read (rd_buffer r) ptr len;
       items ← varblock_scan n r;
       Ok (item :: items)
   end).
Proof. done. Qed.

Lemma varblock_scan_from small items rest r :
  block_ok small items -> rd_buffer r = varblock_bytes small items ++ rest ->
  rd_offsetToOffsetArray r = VARBLOCK_HEADER_LEN + round_even (zlen (concat items)) ->
  forall n i, rd_nextIndex r = Z.of_nat i -> rd_nextItemPtr r = 8 + zlen (concat (take i items)) ->
  (i + n = length items)%nat -> varblock_scan (S n) r = Ok (drop i items).
Proof.
  intros Hok Hb Ha n. revert r Hb Ha. induction n as [| n IH]; intros r Hb Ha i Hidx Hptr Hn.
  all: destruct (block_header_ubits small items Hok); rewrite varblock_scan_S;
    unfold VarBlockReaderGetNextItemPtr; rewrite Hb, block_header_read by done;
    cbn [mbind outcome_bind]; rewrite block_header_count, Hidx by done.
  - replace (zlen items <=? Z.of_nat i) with true by (unfold zlen; lia). cbn [mbind outcome_bind].
    by rewrite drop_ge by lia.
  - replace (zlen items <=? Z.of_nat i) with false by (unfold zlen; lia).
    destruct (lookup_lt_is_Some_2 items i) as [it Hi]; [lia |].
    rewrite VarBlockGetItemLen_eq, (block_item_ptr small items rest Hok r i it Hb Ha Hi).
    cbn [mbind outcome_bind]. cbn [rd_buffer]. rewrite Hptr, (block_item_read small items rest i it Hi).
    cbn [mbind outcome_bind]. set (r' := mkVarBlockReader _ _ _ _ _).
    rewrite (IH r' eq_refl Ha (S i)); cbn [r' rd_nextIndex rd_nextItemPtr].
    + cbn [mbind outcome_bind]. by rewrite (drop_S _ _ _ Hi).
    + lia.
    + rewrite (take_concat_next _ _ _ Hi). lia.
    + lia.
Qed.

(** ** Validity of a block *)

Lemma check_offsets_block small items rest n : forall i,
  block_ok small items -> (i + n = length items)%nat -> (1 <= i)%nat ->
  check_offsets n (varblock_bytes small items ++ rest)
    (VARBLOCK_HEADER_LEN + round_even (zlen (concat items))) (zlen (concat items)) (Z.of_nat i)
    (8 + zlen (concat (take (i - 1) items))) = Ok VarBlockCheckOk.
Proof.
  induction n as [| n IH]; intros i Hok Hn Hi; cbn [check_offsets]; [done |].
  rewrite block_offset by (done || lia). cbn [mbind outcome_bind].
  destruct (lookup_lt_is_Some_2 items (i - 1)) as [it Hit]; [lia |].
  pose proof (take_concat_next _ _ _ Hit) as Hnext. replace (S (i - 1)) with i in Hnext by lia.
  pose proof (zlen_nonneg it).
  assert (Hle : zlen (concat (take i items)) <= zlen (concat items)).
  { rewrite <- (take_drop i items) at 2. rewrite concat_app, zlen_app.
    pose proof (zlen_nonneg (concat (drop i items))). lia. }
  unfold VARBLOCK_HEADER_LEN in *.
  replace (8 + zlen (concat (take i items)) <? 8 + zlen (concat (take (i - 1) items))) with false by lia.
  replace (zlen (concat items) + 8 <? 8 + zlen (concat (take i items))) with false by lia.
  specialize (IH (S i) Hok). rewrite Nat2Z.inj_succ, <- Z.add_1_r in IH.
  replace (S i - 1)%nat with i in IH by lia. apply IH; lia.
Qed.

(** The two pads of a block are zero. *)
Lemma block_pads small items rest :
  let sum := zlen (concat items) in
  let len := zlen items * Z.of_nat (off_width small) in
  let arr := VARBLOCK_HEADER_LEN + round_even sum in
  zero_from (Z.to_nat (arr - (VARBLOCK_HEADER_LEN + sum))) (varblock_bytes small items ++ rest)
    (VARBLOCK_HEADER_LEN + sum) = Ok true /\
  zero_from (Z.to_nat (round_even len - len)) (varblock_bytes small items ++ rest) (arr + len) = Ok true.
Proof.
  intros sum len arr. split.
  - unfold varblock_bytes. fold sum. rewrite <- !app_assoc, (app_assoc (header_bytes _)).
    replace (arr - (VARBLOCK_HEADER_LEN + sum)) with (round_even sum - sum) by (unfold arr; lia).
    apply zero_from_replicate. by rewrite zlen_app, header_bytes_length.
  - unfold varblock_bytes. rewrite zlen_flat, zlen_item_offsets, (Z.mul_comm (Z.of_nat _)).
    fold sum len. rewrite !app_assoc, <- (app_assoc _ (pad len) rest).
    apply zero_from_replicate.
    rewrite !zlen_app, header_bytes_length, zlen_pad, zlen_flat, zlen_item_offsets by apply zlen_nonneg.
    unfold arr, len, VARBLOCK_HEADER_LEN. fold sum. lia.
Qed.

Lemma check_items_block small items rest :
  block_ok small items -> items <> [] ->
  check_items (varblock_bytes small items ++ rest) small (zlen (varblock_bytes small items))
    (VARBLOCK_HEADER_LEN + round_even (zlen (concat items))) (zlen (concat items)) (zlen items)
  = Ok VarBlockCheckOk.
Proof.
  intros Hok Hne. assert (Hn : (0 < length items)%nat) by (destruct items; [done | cbn; lia]).
  unfold check_items. rewrite (block_length small items).
  replace (if small then 2 else VARBLOCK_BYTE_OFFSET_24_LEN) with (Z.of_nat (off_width small))
    by (by destruct small).
  replace (_ =? _) with true by lia. cbn [negb].
  rewrite (block_offset small items rest Hok 0 Hn : VarBlockGetOffset _ _ 0 = _). cbn [mbind outcome_bind].
  change (negb (8 + zlen (concat (take 0 items)) =? VARBLOCK_HEADER_LEN)) with false. cbv iota.
  replace (Z.to_nat (zlen items - 1)) with (length items - 1)%nat by (unfold zlen; lia).
  assert (Hco : (1 + (length items - 1) = length items)%nat) by lia.
  pose proof (check_offsets_block small items rest (length items - 1) 1 Hok Hco ltac:(lia)) as Hc.
  change (Z.of_nat 1) with 1 in Hc. cbn [Nat.sub] in Hc. rewrite Hc.
  cbn [mbind outcome_bind]. destruct (block_pads small items rest) as [_ ->]. done.
Qed.

Lemma block_valid small items rest :
  block_ok small items ->
  VarBlockIsValid (varblock_bytes small items ++ rest) (zlen (varblock_bytes small items))
  = Ok VarBlockCheckOk.
Proof.
  intros Hok. destruct (block_header_ubits small items Hok) as [Hs Hc].
  pose proof (block_length small items) as Hlen.
  pose proof (zlen_nonneg (concat items)) as Hsum. pose proof (zlen_nonneg items) as Hcnt.
  destruct (round_even_spec _ Hsum) as [Hre _].
  destruct (round_even_spec (zlen items * Z.of_nat (off_width small))) as [Hrw _]; [nia |].
  unfold VarBlockIsValid, VarBlockHeaderIsValid. rewrite (block_header_read small items rest Hok).
  cbn [mbind outcome_bind].
  destruct (block_header_reserved small (zlen (concat items)) (zlen items) Hs Hc) as [-> ->].
  rewrite block_header_version by done. cbn [negb Z.eqb InitialVersion Pos.eqb].
  rewrite block_header_sum, block_header_count, block_header_small by done.
  replace (zlen (varblock_bytes small items) <=? zlen (concat items)) with false
    by (unfold VARBLOCK_HEADER_LEN in *; lia).
  replace (_ <? _) with false by (unfold VARBLOCK_HEADER_LEN in *; lia).
  destruct (block_pads small items rest) as [-> _]. cbn [mbind outcome_bind negb].
  destruct (Z.eqb_spec (zlen items) 0) as [E0 | E0].
  - rewrite E0, Z.mul_0_l in Hlen. change (round_even 0) with 0 in Hlen.
    rewrite Hlen, Z.add_0_r, Z.eqb_refl. done.
  - apply check_items_block; [done |]. by intros ->.
Qed.

(** ** Arbitrary buffers *)

Lemma header_read_ok buffer : 8 <= zlen buffer -> exists h, header_read buffer = Ok h.
Proof. intros. unfold header_read. rewrite !mem_read_ok by lia. cbn [mbind outcome_bind]. eauto. Qed.

Lemma zero_from_ok n (buffer : list Z) : forall z,
  0 <= z -> z + Z.of_nat n <= zlen buffer -> exists b, zero_from n buffer z = Ok b.
Proof.
  induction n as [| n IH]; intros z Hz Hn; cbn [zero_from]; [eauto |].
  destruct (zget_ok buffer z) as [b ->]; [lia |]. cbn [mbind outcome_bind].
  destruct (negb (b =? 0)); [eauto |]. apply IH; lia.
Qed.

Lemma field24 x : ubits 24 (Z.land x 0x00FFFFFF).
Proof.
  change 0x00FFFFFF with (Z.ones 24). rewrite Z.land_ones by lia. apply Z.mod_pos_bound. lia.
Qed.

Section Buffer.
  Context (buffer : list Z) (header : VarBlockHeader) (bufferLen : Z).
  Context (Hheader : header_read buffer = Ok header) (Hlen : bufferLen <= zlen buffer).

  Local Notation sum := (VarBlockGet_itemLenSum header).
  Local Notation count := (VarBlockGet_itemCount header).
  Local Notation width := (if VarBlockGet_offsetsAreSmall header then 2 else VARBLOCK_BYTE_OFFSET_24_LEN).
  Local Notation arr := (VARBLOCK_HEADER_LEN + round_even sum).

Lemma get_offset_ok j :
  0 <= j < count -> arr + count * width <= bufferLen -> exists o, VarBlockGetOffset buffer arr j = Ok o.
Proof.
  intros Hj Ha. pose proof (field24 (bytes_0_3 header) : ubits 24 sum) as [Hs _].
  destruct (round_even_spec _ Hs) as [Hre _]. unfold VarBlockGetOffset. rewrite Hheader.
  cbn [mbind outcome_bind]. unfold VARBLOCK_HEADER_LEN, VARBLOCK_BYTE_OFFSET_24_LEN in *.
  destruct (VarBlockGet_offsetsAreSmall header); rewrite mem_read_ok by nia; cbn [mbind outcome_bind]; eauto.
Qed.

(** Offsets [i - 1] up to [i + n - 1] lie within the items and do not decrease. *)
Definition offsets_increase (i n : Z) : Prop :=
  forall j, i - 1 <= j < i + n ->
  exists o, VarBlockGetOffset buffer arr j = Ok o /\
    VARBLOCK_HEADER_LEN <= o <= VARBLOCK_HEADER_LEN + sum /\
    (j + 1 < i + n -> exists o', VarBlockGetOffset buffer arr (j + 1) = Ok o' /\ o <= o').

Lemma check_offsets_ok n : forall i prev,
  0 < i -> i + Z.of_nat n = count -> arr + count * width <= bufferLen ->
  VarBlockGetOffset buffer arr (i - 1) = Ok prev ->
  VARBLOCK_HEADER_LEN <= prev <= VARBLOCK_HEADER_LEN + sum ->
  exists r, check_offsets n buffer arr sum i prev = Ok r /\
    (r = VarBlockCheckOk -> offsets_increase i (Z.of_nat n)).
Proof.
  induction n as [| n IH]; intros i prev Hi Hn Ha Hp Hb; cbn [check_offsets].
  { eexists. split; [done |]. intros _ j Hj. assert (j = i - 1) as -> by lia. exists prev.
    split_and!; [done | lia .. |]. intros. lia. }
  destruct (get_offset_ok i) as [o Ho]; [lia | done |]. rewrite Ho. cbn [mbind outcome_bind].
  destruct (Z.ltb_spec o prev); [by eexists |].
  destruct (Z.ltb_spec (sum + VARBLOCK_HEADER_LEN) o); [by eexists |].
  destruct (IH (i + 1) o) as (r & E & Hr); [lia | lia | done | by replace (i + 1 - 1) with i by lia | lia |].
  exists r. split; [done |]. intros Hok j Hj. specialize (Hr Hok).
  destruct (decide (j = i - 1)) as [-> |].
  - exists prev. split_and!; [done | lia .. |]. intros _. exists o.
    split; [by replace (i - 1 + 1) with i by lia | lia].
  - destruct (Hr j) as (o' & E' & Hb' & Hn'); [lia |]. exists o'. split_and!; [done | lia .. |].
    intros. apply Hn'. lia.
Qed.

Lemma check_items_ok :
  0 < count -> arr <= bufferLen ->
  exists r, check_items buffer (VarBlockGet_offsetsAreSmall header) bufferLen arr sum count = Ok r /\
    (r = VarBlockCheckOk -> offsets_increase 1 (count - 1)).
Proof.
  intros Hc Ha. pose proof (field24 (bytes_0_3 header) : ubits 24 sum) as [Hs _].
  destruct (round_even_spec _ Hs) as [Hre _].
  assert (Hw : 0 <= count * width) by (unfold VARBLOCK_BYTE_OFFSET_24_LEN; destruct (VarBlockGet_offsetsAreSmall header); lia).
  destruct (round_even_spec _ Hw) as [Hrw _]. unfold check_items.
  destruct (Z.eqb_spec (bufferLen - arr) (round_even (count * width))) as [El | El]; cbn [negb]; [| by eexists].
  destruct (get_offset_ok 0) as [o Ho]; [lia | lia |]. rewrite Ho. cbn [mbind outcome_bind].
  destruct (Z.eqb_spec o VARBLOCK_HEADER_LEN) as [-> |]; cbn [negb]; [| by eexists].
  destruct (check_offsets_ok (Z.to_nat (count - 1)) 1 VARBLOCK_HEADER_LEN) as (r & E & Hr);
    [lia | lia | lia | done | lia |].
  rewrite E. cbn [mbind outcome_bind]. rewrite Z2Nat.id in Hr by lia.
  destruct r; try (eexists; split; [done |]; by intros).
  destruct (zero_from_ok (Z.to_nat (round_even (count * width) - count * width)) buffer (arr + count * width))
    as [b Hz]; [unfold VARBLOCK_HEADER_LEN; lia | lia |].
  rewrite Hz. cbn [mbind outcome_bind]. eexists. split; [done |]. intros _. by apply Hr.
Qed.
End Buffer.

(** A block that passes the check, whatever its bytes. *)
Lemma VarBlockIsValid_ok buffer bufferLen :
  8 <= bufferLen <= zlen buffer ->
  exists header r, header_read buffer = Ok header /\ VarBlockIsValid buffer bufferLen = Ok r /\
    (r = VarBlockCheckOk ->
     VARBLOCK_HEADER_LEN + VarBlockGet_itemLenSum header <= bufferLen /\
     (0 < VarBlockGet_itemCount header -> offsets_increase buffer header 1 (VarBlockGet_itemCount header - 1))).
Proof.
  intros Hlen. destruct (header_read_ok buffer) as [h Hh]; [lia |]. exists h.
  pose proof (field24 (bytes_0_3 h) : ubits 24 (VarBlockGet_itemLenSum h)) as [Hs _].
  pose proof (field24 (bytes_4_7 h) : ubits 24 (VarBlockGet_itemCount h)) as [Hc _].
  destruct (round_even_spec _ Hs) as [Hre _].
  unfold VarBlockIsValid, VarBlockHeaderIsValid. rewrite Hh. cbn [mbind outcome_bind].
  destruct (negb (VarBlockGet_version h =? InitialVersion)); [by eexists |].
  destruct (negb (VarBlockGet_reserved h =? 0)); [by eexists |].
  destruct (negb (VarBlockGet_moreReserved h =? 0)); [by eexists |].
  destruct (Z.leb_spec bufferLen (VarBlockGet_itemLenSum h)); [by eexists |].
  destruct (Z.ltb_spec bufferLen (VARBLOCK_HEADER_LEN + round_even (VarBlockGet_itemLenSum h))); [by eexists |].
  destruct (zero_from_ok (Z.to_nat (VARBLOCK_HEADER_LEN + round_even (VarBlockGet_itemLenSum h) -
     (VARBLOCK_HEADER_LEN + VarBlockGet_itemLenSum h))) buffer (VARBLOCK_HEADER_LEN + VarBlockGet_itemLenSum h))
    as [b Hz]; [unfold VARBLOCK_HEADER_LEN; lia | lia |].
  rewrite Hz. cbn [mbind outcome_bind]. destruct b; cbn [negb]; [| by eexists].
  destruct (Z.eqb_spec (VarBlockGet_itemCount h) 0) as [E0 | E0].
  - eexists. split_and!; [done .. |]. intros _. split; [lia |]. lia.
  - destruct (check_items_ok buffer h bufferLen Hh) as (r & E & Hr); [lia | lia | lia |].
    exists r. split_and!; [done .. |]. intros Hok. split; [lia |]. auto.
Qed.

(** ** The maker *)

Definition maker_buffer (m : VarBlockMaker) (buffer : list Z) : VarBlockMaker :=
  mkVarBlockMaker buffer (mk_maxBufferLen m) (mk_currentItemLenSum m) (mk_tempScratchSpace m)
    (mk_tempScratchSpaceLen m) (mk_nextItemPtr m) (mk_last2ByteOffsetPtr m) (mk_currentItemCount m)
    (mk_maxItemCount m).

(** A client asks for room and, if there is, copies its item there. *)
Definition varblock_put (m : VarBlockMaker) (item : list Z) : outcome (bool * VarBlockMaker) :=
  '(p, m) ← VarBlockMakerGetNextItemPtr m (zlen item);
  match p with
  | None => Ok (false, m)
  | Some ptr => buffer ← mem_write (mk_buffer m) ptr item; Ok (true, maker_buffer m buffer)
  end.

(** The length of the block the items make. *)
Definition varblock_len (small : bool) (items : list (list Z)) : Z :=
  VARBLOCK_HEADER_LEN + round_even (zlen (concat items)) +
  round_even (zlen items * Z.of_nat (off_width small)).

Record maker_inv (m : VarBlockMaker) (small : bool) (items : list (list Z)) : Prop := {
  mi_buffer : exists free,
    mk_buffer m = header_bytes (block_header small 0 0) ++ concat items ++ free;
  mi_room : mk_maxBufferLen m <= zlen (mk_buffer m);
  mi_max : mk_maxBufferLen m < 2 ^ 24;
  mi_sum : mk_currentItemLenSum m = zlen (concat items);
  mi_next : mk_nextItemPtr m = VARBLOCK_HEADER_LEN + zlen (concat items);
  mi_last : mk_last2ByteOffsetPtr m = 63 * 1024;
  mi_count : mk_currentItemCount m = zlen items;
  mi_scratch : exists sfree,
    mk_tempScratchSpace m = flat (off_width small) (item_offsets items) ++ sfree;
  mi_slen : zlen (mk_tempScratchSpace m) = mk_tempScratchSpaceLen m;
  mi_maxcount : mk_maxItemCount m = Z.quot (mk_tempScratchSpaceLen m) (Z.of_nat (off_width small));
  mi_total : varblock_len small items <= mk_maxBufferLen m;
  mi_offs : Forall (fun o => 0 <= o < 2 ^ (8 * Z.of_nat (off_width small))) (item_offsets items)
}.

Ltac maker_cbn :=
  cbn [mk_buffer mk_maxBufferLen mk_currentItemLenSum mk_nextItemPtr mk_last2ByteOffsetPtr
       mk_currentItemCount mk_tempScratchSpace mk_tempScratchSpaceLen mk_maxItemCount
       maker_buffer maker_advance].

Lemma concat_snoc (items : list (list Z)) item : concat (items ++ [item]) = concat items ++ item.
Proof. rewrite concat_app. cbn. by rewrite app_nil_r. Qed.

Lemma item_offsets_snoc items item :
  item_offsets (items ++ [item]) = item_offsets items ++ [VARBLOCK_HEADER_LEN + zlen (concat items)].
Proof. apply offsets_from_app. Qed.

Lemma maker_init buffer maxBufferLen scratch scratchLen :
  8 <= maxBufferLen < 2 ^ 24 -> maxBufferLen <= zlen buffer -> zlen scratch = scratchLen ->
  exists m, VarBlockMakerInit buffer maxBufferLen scratch scratchLen = Ok m /\ maker_inv m true [] /\
    mk_maxBufferLen m = maxBufferLen /\ mk_tempScratchSpaceLen m = scratchLen.
Proof.
  intros Hmax Hb Hs. destruct (split_at buffer 8) as (hd & free & -> & Hhd & Hfree); [lia |].
  unfold VarBlockMakerInit.
  rewrite (mem_write_mid [] hd (replicate _ 0) free) by (done || (change (Z.to_nat VARBLOCK_HEADER_LEN) with 8%nat; cbn; unfold zlen in Hhd; lia)).
  cbn [mbind outcome_bind app]. change (replicate (Z.to_nat VARBLOCK_HEADER_LEN) 0) with (header_bytes (mkVarBlockHeader 0 0)).
  rewrite header_update_bytes by (unfold ubits; cbn; lia). cbn [mbind outcome_bind].
  rewrite header_update_bytes by (unfold ubits; vm_compute; done). cbn [mbind outcome_bind].
  eexists. split; [done |]. split; [| done].
  change (VarBlockSet_offsetsAreSmall _ true) with (block_header true 0 0).
  constructor; maker_cbn; try done.
  - by exists free.
  - rewrite zlen_app in *. rewrite header_bytes_length. lia.
  - lia.
  - by exists scratch.
  - unfold varblock_len. change (_ + _ + _) with 8. lia.
Qed.

(** Accepting an item: the new offset is in the scratch area and the item is
    copied. *)
Lemma maker_accept m small small' items item buffer scratch maxc :
  maker_inv m small items ->
  (exists free, buffer = header_bytes (block_header small' 0 0) ++ concat items ++ free) ->
  zlen buffer = zlen (mk_buffer m) ->
  (exists sfree, scratch = flat (off_width small') (item_offsets (items ++ [item])) ++ sfree) ->
  zlen scratch = mk_tempScratchSpaceLen m ->
  maxc = Z.quot (mk_tempScratchSpaceLen m) (Z.of_nat (off_width small')) ->
  varblock_len small' (items ++ [item]) <= mk_maxBufferLen m ->
  Forall (fun o => 0 <= o < 2 ^ (8 * Z.of_nat (off_width small'))) (item_offsets (items ++ [item])) ->
  exists buffer', mem_write buffer (mk_nextItemPtr m) item = Ok buffer' /\
    maker_inv (maker_buffer (maker_advance m buffer scratch maxc (zlen item)
                 (mk_currentItemLenSum m + zlen item)) buffer') small' (items ++ [item]).
Proof.
  intros I [free ->] Hlen Hscr Hsl -> Htot Hoff. pose proof (mi_room _ _ _ I) as Hroom.
  assert (Hfree : zlen item <= zlen free).
  { unfold varblock_len in Htot. rewrite concat_snoc, zlen_app in Htot.
    pose proof (zlen_nonneg (concat items)). pose proof (zlen_nonneg item).
    pose proof (zlen_nonneg (items ++ [item])).
    destruct (round_even_spec (zlen (concat items) + zlen item)); [lia |].
    destruct (round_even_spec (zlen (items ++ [item]) * Z.of_nat (off_width small'))); [lia |].
    rewrite <- Hlen, !zlen_app, header_bytes_length in Hroom. unfold VARBLOCK_HEADER_LEN in *. lia. }
  destruct (split_at free (zlen item)) as (hole & free' & -> & Hhole & Hf'); [pose proof (zlen_nonneg item); lia |].
  assert (Hw : mem_write (header_bytes (block_header small' 0 0) ++ concat items ++ hole ++ free')
                 (mk_nextItemPtr m) item
               = Ok ((header_bytes (block_header small' 0 0) ++ concat items) ++ item ++ free')).
  { rewrite (mi_next _ _ _ I). rewrite app_assoc. apply mem_write_mid; [| unfold zlen in Hhole; lia].
    by rewrite zlen_app, header_bytes_length. }
  rewrite Hw. eexists. split; [done |]. constructor; maker_cbn; try done.
  - exists free'. by rewrite concat_snoc, <- !app_assoc.
  - rewrite <- Hlen in Hroom. rewrite !zlen_app in *. lia.
  - exact (mi_max _ _ _ I).
  - by rewrite (mi_sum _ _ _ I), concat_snoc, zlen_app.
  - rewrite (mi_next _ _ _ I), concat_snoc, zlen_app. lia.
  - exact (mi_last _ _ _ I).
  - rewrite (mi_count _ _ _ I), zlen_app. done.
Qed.

(** The move to 3-byte offsets never overwrites a 2-byte offset it still has to
    read. *)
Lemma widen_offsets_ok r : forall offs o g rest,
  length offs = r -> length o = 2%nat -> length g = S r ->
  Forall (ubits 16) offs ->
  widen_offsets r (flat 2 offs ++ o ++ g ++ rest)
  = Ok (flat 3 offs ++ le_split 3 (le_join o) ++ rest).
Proof.
  induction r as [| r IH]; intros offs o g rest Hr Ho Hg Hb; cbn [widen_offsets].
  - destruct offs; [| done]. cbn [flat flat_map app]. change (Z.of_nat 0) with 0. rewrite !Z.mul_0_l.
    rewrite mem_read_front by (unfold zlen; lia). cbn [mbind outcome_bind].
    rewrite app_assoc, (mem_write_mid [] (o ++ g) _ rest); [done | done |].
    rewrite length_app, le_split_length. lia.
  - rewrite mem_read_mid; [| rewrite zlen_flat; unfold zlen; lia | unfold zlen; lia]. cbn [mbind outcome_bind].
    destruct (split_at (o ++ g) (Z.of_nat (S r))) as (g' & x & Hgx & Hg' & Hx).
    { rewrite zlen_app. unfold zlen. lia. }
    rewrite (app_assoc o g rest), Hgx, <- app_assoc, (app_assoc (flat 2 offs) g').
    rewrite mem_write_mid; cycle 1.
    { rewrite zlen_app, zlen_flat, Hg'. unfold zlen, VARBLOCK_BYTE_OFFSET_24_LEN. lia. }
    { rewrite le_split_length. rewrite zlen_app in Hx. unfold zlen in *. lia. }
    cbn [mbind outcome_bind].
    destruct offs as [| o1 offs _] using rev_ind; [done |]. rewrite length_app in Hr. cbn in Hr.
    apply Forall_app in Hb as [Hb Hb1]. apply Forall_cons in Hb1 as [Hb1 _].
    rewrite !flat_app, <- !app_assoc. cbn [flat flat_map]. rewrite !app_nil_r.
    fold (flat 2 offs) (flat 3 offs). rewrite (IH offs (le_split 2 o1) g').
    + rewrite le_join_split. change (256 ^ Z.of_nat 2) with (2 ^ 16). by rewrite Z.mod_small.
    + lia.
    + by rewrite le_split_length.
    + unfold zlen in Hg'. lia.
    + done.
Qed.

(** Whether the next offset still fits in two bytes, and whether there is room
    for the next item in the buffer and in the scratch area. *)
Definition stays_small (small : bool) (items : list (list Z)) : bool :=
  small && (VARBLOCK_HEADER_LEN + zlen (concat items) <=? 63 * 1024).

Definition item_fits (maxBufferLen scratchLen : Z) (small : bool) (items : list (list Z)) (item : list Z)
  : bool :=
  let small := stays_small small items in
  (zlen items <? Z.quot scratchLen (Z.of_nat (off_width small))) &&
  (varblock_len small (items ++ [item]) <=? maxBufferLen).

Lemma maker_bounds m small items :
  maker_inv m small items -> zlen (concat items) < 2 ^ 24 - 8 /\ zlen items < 2 ^ 23.
Proof.
  intros I. pose proof (mi_total _ _ _ I) as H. pose proof (mi_max _ _ _ I). unfold varblock_len, VARBLOCK_HEADER_LEN in H.
  pose proof (zlen_nonneg (concat items)). pose proof (zlen_nonneg items).
  destruct (round_even_spec (zlen (concat items))) as [? _]; [lia |].
  destruct (round_even_spec (zlen items * Z.of_nat (off_width small))) as [? _]; [lia |].
  destruct small; cbn [off_width] in *; lia.
Qed.

Lemma new_total_len small items item :
  zlen (concat items) < 2 ^ 24 -> zlen items < 2 ^ 23 -> zlen item < 2 ^ 30 ->
  s32 (VARBLOCK_HEADER_LEN + round_even (zlen (concat items) + zlen item) +
       round_even ((zlen items + 1) * Z.of_nat (off_width small)))
  = varblock_len small (items ++ [item]).
Proof.
  intros H1 H2 H3. unfold varblock_len. rewrite concat_snoc, !zlen_app. change (zlen [item]) with 1.
  pose proof (zlen_nonneg (concat items)). pose proof (zlen_nonneg items). pose proof (zlen_nonneg item).
  destruct (round_even_spec (zlen (concat items) + zlen item)) as [? _]; [lia |].
  destruct (round_even_spec ((zlen items + 1) * Z.of_nat (off_width small))) as [? _]; [lia |].
  apply s32_small. unfold VARBLOCK_HEADER_LEN. destruct small; cbn [off_width] in *; lia.
Qed.

(** Storing the next offset behind the others. *)
Lemma scratch_store m small items item :
  maker_inv m small items -> zlen items < Z.quot (mk_tempScratchSpaceLen m) (Z.of_nat (off_width small)) ->
  exists scratch,
    mem_write (mk_tempScratchSpace m) (zlen items * Z.of_nat (off_width small))
      (le_split (off_width small) (VARBLOCK_HEADER_LEN + zlen (concat items))) = Ok scratch /\
    (exists sfree, scratch = flat (off_width small) (item_offsets (items ++ [item])) ++ sfree) /\
    zlen scratch = mk_tempScratchSpaceLen m.
Proof.
  intros I Hc. destruct (mi_scratch _ _ _ I) as [sfree Hs]. pose proof (mi_slen _ _ _ I) as Hl.
  rewrite Hs, zlen_app, zlen_flat, zlen_item_offsets in Hl. rewrite Hs.
  set (w := off_width small) in *. assert (0 < Z.of_nat w <= 3) by (unfold w; destruct small; cbn; lia).
  pose proof (zlen_nonneg items). rewrite Z.quot_div_nonneg in Hc by (pose proof (zlen_nonneg sfree); nia).
  assert (Hfree : Z.of_nat w <= zlen sfree) by (pose proof (Z.mul_div_le (mk_tempScratchSpaceLen m) (Z.of_nat w)); nia).
  destruct (split_at sfree (Z.of_nat w)) as (a & b & -> & Ha & Hb); [lia |].
  rewrite mem_write_mid by (first [rewrite zlen_flat, zlen_item_offsets; lia | rewrite le_split_length; unfold zlen in Ha; lia]).
  eexists. split; [done |]. split.
  - exists b. rewrite item_offsets_snoc, flat_app, <- app_assoc. cbn [flat flat_map]. by rewrite app_nil_r.
  - rewrite !zlen_app in *. rewrite zlen_flat, zlen_item_offsets, zlen_le_split. lia.
Qed.

Lemma new_offset_bound (small : bool) items item :
  Forall (fun o => 0 <= o < 2 ^ (8 * Z.of_nat (off_width small))) (item_offsets items) ->
  VARBLOCK_HEADER_LEN + zlen (concat items) < 2 ^ (8 * Z.of_nat (off_width small)) ->
  Forall (fun o => 0 <= o < 2 ^ (8 * Z.of_nat (off_width small))) (item_offsets (items ++ [item])).
Proof.
  intros H1 H2. rewrite item_offsets_snoc. apply Forall_app. split; [done |]. constructor; [| constructor].
  pose proof (zlen_nonneg (concat items)). unfold VARBLOCK_HEADER_LEN in *. lia.
Qed.

(** The switch to 3-byte offsets, with the offset of the next item. *)
Lemma scratch_widen m items item :
  maker_inv m true items -> zlen items < Z.quot (mk_tempScratchSpaceLen m) 3 ->
  exists scratch0 scratch,
    widen_offsets (Z.to_nat (zlen items)) (mk_tempScratchSpace m) = Ok scratch0 /\
    mem_write scratch0 (zlen items * 3) (le_split 3 (VARBLOCK_HEADER_LEN + zlen (concat items))) = Ok scratch /\
    (exists sfree, scratch = flat 3 (item_offsets (items ++ [item])) ++ sfree) /\
    zlen scratch = mk_tempScratchSpaceLen m.
Proof.
  intros I Hc. destruct (mi_scratch _ _ _ I) as [sfree Hs]. pose proof (mi_slen _ _ _ I) as Hl.
  rewrite Hs, zlen_app, zlen_flat, zlen_item_offsets in Hl. cbn [off_width] in *.
  pose proof (zlen_nonneg items). rewrite Z.quot_div_nonneg in Hc by (pose proof (zlen_nonneg sfree); nia).
  assert (Hfree : zlen items + 3 <= zlen sfree) by (pose proof (Z.mul_div_le (mk_tempScratchSpaceLen m) 3); nia).
  destruct (split_at sfree 2) as (o & f1 & -> & Ho & Hf1); [lia |].
  destruct (split_at f1 (zlen items + 1)) as (g & f2 & -> & Hg & Hf2); [lia |].
  rewrite Hs. unfold zlen at 1. rewrite Nat2Z.id. rewrite widen_offsets_ok; cycle 1.
  { unfold item_offsets. apply length_offsets_from. }
  { unfold zlen in Ho. lia. }
  { unfold zlen in Hg. lia. }
  { eapply Forall_impl; [exact (mi_offs _ _ _ I) |]. by intros. }
  do 2 eexists. split; [done |].
  rewrite mem_write_mid by (first [rewrite zlen_flat, zlen_item_offsets; lia | by rewrite !le_split_length]).
  split; [done |]. split.
  - exists f2. rewrite item_offsets_snoc, flat_app, <- app_assoc. cbn [flat flat_map]. by rewrite app_nil_r.
  - rewrite !zlen_app in *. rewrite zlen_flat, zlen_item_offsets, zlen_le_split. lia.
Qed.

Lemma off_width_bound m small items :
  maker_inv m small items -> 0 <= Z.quot (mk_tempScratchSpaceLen m) (Z.of_nat (off_width small)) /\
  Z.quot (mk_tempScratchSpaceLen m) 3 <= Z.quot (mk_tempScratchSpaceLen m) (Z.of_nat (off_width small)).
Proof.
  intros I. pose proof (mi_slen _ _ _ I) as Hl. pose proof (zlen_nonneg (mk_tempScratchSpace m)).
  destruct small; cbn [off_width]; rewrite !Z.quot_div_nonneg by lia; zlia.
Qed.

Lemma header_of_maker m small items :
  maker_inv m small items ->
  header_read (mk_buffer m) = Ok (block_header small 0 0) /\
  VarBlockGet_offsetsAreSmall (block_header small 0 0) = small.
Proof.
  intros I. destruct (mi_buffer _ _ _ I) as [free ->]. assert (ubits 24 0) by (unfold ubits; lia).
  split; [| by apply block_header_small]. apply header_read_bytes; by apply block_header_wf.
Qed.

(** Storing an item when its offset has the width of the others. *)
Lemma put_same_width m small items item :
  maker_inv m small items ->
  VARBLOCK_HEADER_LEN + zlen (concat items) < 2 ^ (8 * Z.of_nat (off_width small)) ->
  zlen items < Z.quot (mk_tempScratchSpaceLen m) (Z.of_nat (off_width small)) ->
  varblock_len small (items ++ [item]) <= mk_maxBufferLen m ->
  exists scratch buffer,
    mem_write (mk_tempScratchSpace m) (zlen items * Z.of_nat (off_width small))
      (le_split (off_width small) (VARBLOCK_HEADER_LEN + zlen (concat items))) = Ok scratch /\
    mem_write (mk_buffer m) (mk_nextItemPtr m) item = Ok buffer /\
    maker_inv (maker_buffer (maker_advance m (mk_buffer m) scratch (mk_maxItemCount m) (zlen item)
                (mk_currentItemLenSum m + zlen item)) buffer) small (items ++ [item]).
Proof.
  intros I Ho Hc Ht. destruct (scratch_store m small items item I Hc) as (scratch & Hw & Hs & Hl).
  destruct (maker_accept m small small items item (mk_buffer m) scratch (mk_maxItemCount m) I
              (mi_buffer _ _ _ I) eq_refl Hs Hl (mi_maxcount _ _ _ I) Ht) as (buffer & Hb & I').
  { apply new_offset_bound; [exact (mi_offs _ _ _ I) | done]. }
  exists scratch, buffer. done.
Qed.

(** The switch to 3-byte offsets. *)
Lemma put_widen m items item :
  maker_inv m true items ->
  zlen items < Z.quot (mk_tempScratchSpaceLen m) 3 ->
  varblock_len false (items ++ [item]) <= mk_maxBufferLen m ->
  exists header scratch0 scratch buffer,
    header_update (fun h => VarBlockSet_offsetsAreSmall h false) (mk_buffer m) = Ok header /\
    widen_offsets (Z.to_nat (zlen items)) (mk_tempScratchSpace m) = Ok scratch0 /\
    mem_write scratch0 (zlen items * 3) (le_split 3 (VARBLOCK_HEADER_LEN + zlen (concat items))) = Ok scratch /\
    mem_write header (mk_nextItemPtr m) item = Ok buffer /\
    maker_inv (maker_buffer (maker_advance m header scratch (Z.quot (mk_tempScratchSpaceLen m) 3) (zlen item)
                (mk_currentItemLenSum m + zlen item)) buffer) false (items ++ [item]).
Proof.
  intros I Hc Ht. destruct (scratch_widen m items item I Hc) as (scratch0 & scratch & Hw0 & Hw & Hs & Hl).
  destruct (mi_buffer _ _ _ I) as [free Hfree]. assert (ubits 24 0) by (unfold ubits; lia).
  assert (Hu : header_update (fun h => VarBlockSet_offsetsAreSmall h false) (mk_buffer m)
               = Ok (header_bytes (block_header false 0 0) ++ concat items ++ free)).
  { rewrite Hfree, header_update_bytes by (by apply block_header_wf). done. }
  destruct (maker_accept m true false items item (header_bytes (block_header false 0 0) ++ concat items ++ free)
              scratch (Z.quot (mk_tempScratchSpaceLen m) 3) I) as (buffer & Hb & I'); try done.
  - by exists free.
  - rewrite Hfree, !zlen_app, !header_bytes_length. done.
  - destruct (maker_bounds _ _ _ I). apply new_offset_bound.
    + eapply Forall_impl; [exact (mi_offs _ _ _ I) |]. cbn [off_width]. intros o ?.
      change (8 * Z.of_nat 2) with 16 in *. change (8 * Z.of_nat 3) with 24. lia.
    + cbn [off_width]. change (8 * Z.of_nat 3) with 24. unfold VARBLOCK_HEADER_LEN. lia.
  - do 4 eexists. split_and!; done.
Qed.

(** [varblock_put] with the fields of the maker read off the invariant. *)
Lemma put_unfold m small items item :
  maker_inv m small items -> zlen item < 2 ^ 30 ->
  let ptr := VARBLOCK_HEADER_LEN + zlen (concat items) in
  let sum := zlen (concat items) + zlen item in
  let full w := Z.quot (mk_tempScratchSpaceLen m) w <=? zlen items in
  varblock_put m item =
  if full (Z.of_nat (off_width small)) then Ok (false, m)
  else if small && (63 * 1024 <? ptr) then
    if mk_maxBufferLen m <? varblock_len false (items ++ [item]) then Ok (false, m)
    else if full 3 then Ok (false, m)
    else
      header ← header_update (fun h => VarBlockSet_offsetsAreSmall h false) (mk_buffer m);
      scratch ← widen_offsets (Z.to_nat (zlen items)) (mk_tempScratchSpace m);
      scratch ← mem_write scratch (zlen items * 3) (le_split 3 ptr);
      buffer ← mem_write header ptr item;
      Ok (true, maker_buffer (maker_advance m header scratch (Z.quot (mk_tempScratchSpaceLen m) 3)
                                (zlen item) sum) buffer)
  else if mk_maxBufferLen m <? varblock_len small (items ++ [item]) then Ok (false, m)
  else
    scratch ← mem_write (mk_tempScratchSpace m) (zlen items * Z.of_nat (off_width small))
                (le_split (off_width small) ptr);
    buffer ← mem_write (mk_buffer m) ptr item;
    Ok (true, maker_buffer (maker_advance m (mk_buffer m) scratch (mk_maxItemCount m) (zlen item) sum) buffer).
Proof.
  intros I Hitem ptr sum full. destruct (maker_bounds _ _ _ I) as [Hsum Hcnt].
  destruct (header_of_maker _ _ _ I) as [Hh Hsmall].
  pose proof (zlen_nonneg item). pose proof (zlen_nonneg items). pose proof (zlen_nonneg (concat items)).
  pose proof (new_total_len false items item ltac:(lia) Hcnt Hitem : s32 (_ + _ + round_even (_ * 3)) = _) as T3.
  pose proof (new_total_len true items item ltac:(lia) Hcnt Hitem : s32 (_ + _ + round_even (_ * 2)) = _) as T2.
  assert (E2 : round_even ((zlen items + 1) * 2) = zlen items * 2 + 2)
    by (unfold round_even; rewrite Z.quot_div_nonneg by lia; zlia).
  rewrite E2, Z.add_assoc in T2. fold sum in T2, T3.
  unfold varblock_put, VarBlockMakerGetNextItemPtr, int_add, total_len24, VARBLOCK_BYTE_OFFSET_24_LEN.
  rewrite (mi_count _ _ _ I), (mi_maxcount _ _ _ I), Hh, (mi_last _ _ _ I), (mi_next _ _ _ I), (mi_sum _ _ _ I).
  fold ptr sum. fold (full (Z.of_nat (off_width small))) (full 3).
  destruct (full (Z.of_nat (off_width small))); [done |].
  replace ((- 2 ^ 31 <=? sum) && (sum <? 2 ^ 31)) with true by (unfold sum; lia).
  cbn [mbind outcome_bind]. rewrite Hsmall, T2, T3. destruct small; cbn [andb off_width].
  - destruct (Z.ltb_spec (63 * 1024) ptr) as [Hp | Hp].
    + destruct (mk_maxBufferLen m <? _); [done |]. destruct (full 3); [done |].
      destruct (header_update _ _); [| done ..]. cbn [mbind outcome_bind].
      destruct (widen_offsets _ _); [| done ..]. cbn [mbind outcome_bind]. by destruct (mem_write _ (zlen items * 3) _).
    + destruct (mk_maxBufferLen m <? _); [done |].
      rewrite u16_small by (unfold ptr, VARBLOCK_HEADER_LEN in *; lia).
      change (Z.of_nat 2) with 2. by destruct (mem_write _ (zlen items * 2) _).
  - destruct (mk_maxBufferLen m <? _); [done |]. change (Z.of_nat 3) with 3.
    by destruct (mem_write _ (zlen items * 3) _).
Qed.

(** An item is stored exactly when it fits. *)
Lemma varblock_put_ok m small items item :
  maker_inv m small items -> zlen item < 2 ^ 30 ->
  exists m', varblock_put m item
             = Ok (item_fits (mk_maxBufferLen m) (mk_tempScratchSpaceLen m) small items item, m') /\
    (if item_fits (mk_maxBufferLen m) (mk_tempScratchSpaceLen m) small items item
     then maker_inv m' (stays_small small items) (items ++ [item]) /\
          mk_maxBufferLen m' = mk_maxBufferLen m /\ mk_tempScratchSpaceLen m' = mk_tempScratchSpaceLen m
     else m' = m).
Proof.
  intros I Hitem. rewrite (put_unfold m small items item I Hitem). cbv zeta.
  destruct (maker_bounds _ _ _ I) as [Hsum Hcnt]. destruct (off_width_bound _ _ _ I) as [Hq0 Hq].
  pose proof (zlen_nonneg items). unfold item_fits, stays_small.
  destruct (small && (63 * 1024 <? VARBLOCK_HEADER_LEN + zlen (concat items))) eqn:Ew.
  - destruct small; [cbn [andb off_width] in * | done].
    replace (VARBLOCK_HEADER_LEN + zlen (concat items) <=? 63 * 1024) with false by lia. cbn [off_width].
    change (Z.of_nat 3) with 3. destruct (_ <=? zlen items) eqn:E1.
    { replace (zlen items <? _) with false by lia. by exists m. }
    destruct (mk_maxBufferLen m <? _) eqn:E2.
    { replace (_ <=? mk_maxBufferLen m) with false by lia. rewrite andb_false_r. by exists m. }
    replace (_ <=? mk_maxBufferLen m) with true by lia. rewrite andb_true_r.
    destruct (Z.quot (mk_tempScratchSpaceLen m) 3 <=? zlen items) eqn:E3.
    { replace (zlen items <? _) with false by lia. by exists m. }
    replace (zlen items <? _) with true by lia.
    destruct (put_widen m items item I) as (hb & s0 & s1 & b & -> & W2 & W3 & W4 & I'); [lia .. |].
    cbn [mbind outcome_bind]. rewrite W2. cbn [mbind outcome_bind]. rewrite W3. cbn [mbind outcome_bind].
    rewrite (mi_next _ _ _ I) in W4. rewrite W4, (mi_sum _ _ _ I) in *. eexists. split; done.
  - assert (Hw : small && (VARBLOCK_HEADER_LEN + zlen (concat items) <=? 63 * 1024) = small)
      by (destruct small; cbn [andb] in *; lia). rewrite Hw.
    destruct (_ <=? zlen items) eqn:E1.
    { replace (zlen items <? _) with false by lia. by exists m. }
    replace (zlen items <? _) with true by lia. cbn [andb].
    destruct (mk_maxBufferLen m <? _) eqn:E2.
    { replace (_ <=? mk_maxBufferLen m) with false by lia. by exists m. }
    replace (_ <=? mk_maxBufferLen m) with true by lia.
    destruct (put_same_width m small items item I) as (s1 & b & W1 & W2 & I').
    { unfold VARBLOCK_HEADER_LEN in *. destruct small; cbn [off_width andb] in *.
      - change (8 * Z.of_nat 2) with 16. lia.
      - change (8 * Z.of_nat 3) with 24. lia. }
    { lia. }
    { lia. }
    rewrite W1. cbn [mbind outcome_bind].
    rewrite (mi_next _ _ _ I) in W2. rewrite W2, (mi_sum _ _ _ I) in *. eexists. split; done.
Qed.

(** ** Finishing a block *)

Lemma land_low24 v : ubits 24 v -> Z.land 0x00FFFFFF v = v.
Proof.
  intros Hv. rewrite Z.land_comm. change 0x00FFFFFF with (Z.ones 24).
  rewrite Z.land_ones by lia. by apply Z.mod_small.
Qed.

Lemma set_itemLenSum small sum c :
  ubits 24 sum -> VarBlockSet_itemLenSum (block_header small 0 c) sum = block_header small sum c.
Proof.
  intros Hs. unfold VarBlockSet_itemLenSum, block_header. cbn [bytes_0_3 bytes_4_7]. f_equal.
  rewrite land_low24 by done.
  destruct small; [change (Z.land _ _) with (Z.shiftl 129 24) | change (Z.land _ _) with (Z.shiftl 1 24)];
    by apply lor_shiftl_join.
Qed.

Lemma set_itemCount small sum c :
  ubits 24 c -> VarBlockSet_itemCount (block_header small sum 0) c = block_header small sum c.
Proof.
  intros Hc. unfold VarBlockSet_itemCount, block_header. cbn [bytes_0_3 bytes_4_7].
  by rewrite land_low24, Z.land_0_l, Z.lor_0_l.
Qed.

Lemma zero_pad_mid (a b c : list Z) from to :
  from = zlen a -> to = zlen a + zlen b -> zero_pad (a ++ b ++ c) from to = Ok (a ++ replicate (length b) 0 ++ c).
Proof.
  intros -> ->. unfold zero_pad. destruct (Z.ltb_spec (zlen a) (zlen a + zlen b)) as [H | H].
  - replace (zlen a + zlen b - zlen a) with (zlen b) by lia. unfold zlen at 2. rewrite Nat2Z.id.
    apply mem_write_mid; [done | by rewrite length_replicate].
  - destruct b; [done | unfold zlen in H; cbn in H; lia].
Qed.

Lemma pad_of_length (l : list Z) n : zlen l = round_even n - n -> replicate (length l) 0 = pad n.
Proof. intros H. unfold pad. f_equal. unfold zlen in H. lia. Qed.

(** The four parts of the free space that finishing fills or skips. *)
Lemma free_parts m small items free :
  maker_inv m small items -> mk_buffer m = header_bytes (block_header small 0 0) ++ concat items ++ free ->
  let w := Z.of_nat (off_width small) in
  exists p1 o p2 rest, free = p1 ++ o ++ p2 ++ rest /\
    zlen p1 = round_even (zlen (concat items)) - zlen (concat items) /\ zlen o = w * zlen items /\
    zlen p2 = round_even (zlen items * w) - zlen items * w.
Proof.
  intros I Hb w. pose proof (mi_total _ _ _ I) as Ht. pose proof (mi_room _ _ _ I) as Hr.
  rewrite Hb, !zlen_app, header_bytes_length in Hr. unfold varblock_len, VARBLOCK_HEADER_LEN in Ht. fold w in Ht.
  pose proof (zlen_nonneg (concat items)) as Hs. pose proof (zlen_nonneg items).
  destruct (round_even_spec _ Hs) as [H1 _]. assert (Hw : 0 <= zlen items * w) by lia.
  destruct (round_even_spec _ Hw) as [H2 _].
  destruct (split_at free (round_even (zlen (concat items)) - zlen (concat items))) as (p1 & f1 & -> & Hp1 & Hf1); [lia |].
  destruct (split_at f1 (w * zlen items)) as (o & f2 & -> & Ho & Hf2); [lia |].
  destruct (split_at f2 (round_even (zlen items * w) - zlen items * w)) as (p2 & rest & -> & Hp2 & Hrest); [lia |].
  by exists p1, o, p2, rest.
Qed.

Lemma VarBlockMakerFinish_ok m small items :
  maker_inv m small items ->
  exists rest, VarBlockMakerFinish m = Ok (varblock_len small items, varblock_bytes small items ++ rest) /\
    zlen (varblock_bytes small items) = varblock_len small items.
Proof.
  intros I. destruct (maker_bounds _ _ _ I) as [Hsum Hcnt].
  pose proof (zlen_nonneg (concat items)). pose proof (zlen_nonneg items).
  assert (Hs24 : ubits 24 (zlen (concat items))) by (unfold ubits; lia).
  assert (Hc24 : ubits 24 (zlen items)) by (unfold ubits; lia). assert (H024 : ubits 24 0) by (unfold ubits; lia).
  destruct (header_of_maker _ _ _ I) as [Hh Hsmall]. destruct (mi_buffer _ _ _ I) as [free Hb].
  destruct (free_parts m small items free I Hb) as (p1 & o & p2 & rest & -> & Hp1 & Ho & Hp2).
  destruct (mi_scratch _ _ _ I) as [sfree Hsc]. exists rest. split; [| apply block_length].
  unfold VarBlockMakerFinish. rewrite (mi_count _ _ _ I), (mi_sum _ _ _ I), Hh. cbn [mbind outcome_bind].
  rewrite Hsmall. replace (if small then 2 else VARBLOCK_BYTE_OFFSET_24_LEN) with (Z.of_nat (off_width small))
    by (by destruct small).
  set (w := Z.of_nat (off_width small)) in *.
  rewrite Hsc, mem_read_front by (rewrite zlen_flat, zlen_item_offsets; unfold w; lia).
  cbn [mbind outcome_bind]. rewrite Hb.
  rewrite (app_assoc (header_bytes _)), (app_assoc _ p1).
  rewrite mem_write_mid; cycle 1.
  { rewrite !zlen_app, header_bytes_length, Hp1. unfold VARBLOCK_HEADER_LEN. lia. }
  { pose proof (zlen_flat (off_width small) (item_offsets items)) as Hf. rewrite zlen_item_offsets in Hf.
    unfold zlen, w in *. lia. }
  cbn [mbind outcome_bind]. rewrite <- (app_assoc _ p1).
  rewrite zero_pad_mid by (rewrite zlen_app, header_bytes_length; unfold VARBLOCK_HEADER_LEN; lia).
  cbn [mbind outcome_bind]. rewrite <- app_assoc.
  rewrite header_update_bytes by (by apply block_header_wf). cbn [mbind outcome_bind].
  rewrite set_itemLenSum by done. rewrite header_update_bytes by (by apply block_header_wf).
  cbn [mbind outcome_bind]. rewrite set_itemCount by done.
  rewrite (pad_of_length p1 (zlen (concat items))) by done.
  rewrite !app_assoc, <- (app_assoc _ p2). rewrite zero_pad_mid; cycle 1.
  { rewrite !zlen_app, header_bytes_length, zlen_pad, zlen_flat, zlen_item_offsets by done.
    unfold VARBLOCK_HEADER_LEN, w. lia. }
  { rewrite !zlen_app, header_bytes_length, zlen_pad, zlen_flat, zlen_item_offsets, Hp2 by done.
    unfold VARBLOCK_HEADER_LEN, w. lia. }
  cbn [mbind outcome_bind]. unfold varblock_len. fold w. do 2 f_equal.
  unfold varblock_bytes. rewrite zlen_flat, zlen_item_offsets, (Z.mul_comm (Z.of_nat _)). fold w.
  rewrite (pad_of_length p2 (zlen items * w)) by done. by rewrite <- !app_assoc.
Qed.

(** Storing items until one does not fit: how many were stored. *)
Fixpoint varblock_put_all (m : VarBlockMaker) (items : list (list Z)) : outcome (nat * VarBlockMaker) :=
  match items with
  | [] => Ok (O, m)
  | item :: items =>
      '(stored, m) ← varblock_put m item;
      if stored : bool
      then '(n, m) ← varblock_put_all m items; Ok (S n, m)
      else Ok (O, m)
  end.

Lemma varblock_put_all_ok items : forall m small done,
  maker_inv m small done -> Forall (fun item => zlen item < 2 ^ 30) items ->
  exists n m' small', varblock_put_all m items = Ok (n, m') /\ (n <= length items)%nat /\
    maker_inv m' small' (done ++ take n items) /\
    mk_maxBufferLen m' = mk_maxBufferLen m /\ mk_tempScratchSpaceLen m' = mk_tempScratchSpaceLen m /\
    (forall item, items !! n = Some item ->
       item_fits (mk_maxBufferLen m) (mk_tempScratchSpaceLen m) small' (done ++ take n items) item = false).
Proof.
  induction items as [| item items IH]; intros m small done I Hl; cbn [varblock_put_all].
  { exists O, m, small. rewrite app_nil_r. split_and!; [done | cbn; lia | done .. |]. by intros. }
  apply Forall_cons in Hl as [Hl Hls]. destruct (varblock_put_ok m small done item I Hl) as (m1 & E1 & H1).
  rewrite E1. cbn [mbind outcome_bind]. destruct (item_fits _ _ small done item) eqn:Ef.
  - destruct H1 as (I1 & Hm1 & Hs1). destruct (IH m1 _ _ I1 Hls) as (n & m2 & small2 & E2 & Hn & I2 & Hm2 & Hs2 & Hf).
    rewrite E2. cbn [mbind outcome_bind]. exists (S n), m2, small2. cbn [take lookup list_lookup length].
    rewrite <- app_assoc in I2, Hf. cbn [app] in I2, Hf. rewrite Hm1, Hs1 in *.
    split_and!; [done | lia | done ..].
  - subst m1. exists O, m, small. cbn [take length]. rewrite app_nil_r. split_and!; [done | lia | done .. |].
    by intros ? [= <-].
Qed.

Lemma maker_block_ok m small items : maker_inv m small items -> block_ok small items.
Proof.
  intros I. destruct (maker_bounds _ _ _ I). unfold block_ok, VARBLOCK_HEADER_LEN.
  split_and!; [lia | lia | exact (mi_offs _ _ _ I)].
Qed.

(** The reader of a block. *)
Definition block_reader (small : bool) (items : list (list Z)) (rest : list Z) (len : Z) : VarBlockReader :=
  mkVarBlockReader (varblock_bytes small items ++ rest) len 0 VARBLOCK_HEADER_LEN
    (VARBLOCK_HEADER_LEN + round_even (zlen (concat items))).

Lemma block_reader_ok small items rest len :
  block_ok small items ->
  VarBlockReaderInit (varblock_bytes small items ++ rest) len = Ok (block_reader small items rest len) /\
  varblock_scan (S (length items)) (block_reader small items rest len) = Ok items.
Proof.
  intros Hok. destruct (block_header_ubits small _ Hok). split.
  - unfold VarBlockReaderInit. rewrite block_header_read by done. cbn [mbind outcome_bind].
    by rewrite block_header_sum.
  - by apply (varblock_scan_from small items rest (block_reader small items rest len) Hok eq_refl eq_refl _ 0).
Qed.

(** C17: A block made of items by a client that stores them one after the other
    until one does not fit, and read back by a scan, gives exactly the items that
    were stored.  An item is refused only when it does not fit in the buffer or
    in the scratch area; the block stays within [maxBufferLen] and passes the
    validity check.  This covers the switch from 2-byte to 3-byte offsets in the
    middle of a block. *)
Theorem varblock_roundtrip buffer maxBufferLen scratch items :
  8 <= maxBufferLen < 2 ^ 24 -> maxBufferLen <= zlen buffer ->
  Forall (fun item => zlen item < 2 ^ 30) items ->
  exists m n m' len block reader small,
    VarBlockMakerInit buffer maxBufferLen scratch (zlen scratch) = Ok m /\
    varblock_put_all m items = Ok (n, m') /\ (n <= length items)%nat /\
    VarBlockMakerItemCount m' = Z.of_nat n /\
    (forall item, items !! n = Some item ->
       item_fits maxBufferLen (zlen scratch) small (take n items) item = false) /\
    VarBlockMakerFinish m' = Ok (len, block) /\ len <= maxBufferLen /\
    VarBlockIsValid block len = Ok VarBlockCheckOk /\
    VarBlockReaderInit block len = Ok reader /\
    varblock_scan (S n) reader = Ok (take n items).
Proof.
  intros Hmax Hb Hl. destruct (maker_init buffer maxBufferLen scratch (zlen scratch) Hmax Hb eq_refl)
    as (m & E0 & I0 & Hm0 & Hs0).
  destruct (varblock_put_all_ok items m true [] I0 Hl) as (n & m' & small & E1 & Hn & I1 & Hm1 & Hs1 & Hf).
  cbn [app] in *. destruct (VarBlockMakerFinish_ok m' small _ I1) as (rest & E2 & Hlen).
  pose proof (maker_block_ok _ _ _ I1) as Hok.
  exists m, n, m', (varblock_len small (take n items)), (varblock_bytes small (take n items) ++ rest).
  destruct (block_reader_ok small (take n items) rest (varblock_len small (take n items)) Hok) as [Er Hscan].
  rewrite length_take, Nat.min_l in Hscan by done.
  exists (block_reader small (take n items) rest (varblock_len small (take n items))), small.
  split_and!; try done.
  - unfold VarBlockMakerItemCount. rewrite (mi_count _ _ _ I1). unfold zlen. rewrite length_take. lia.
  - intros item Hi. rewrite <- Hm0, <- Hs0. by apply Hf.
  - rewrite <- Hm0, <- Hm1. exact (mi_total _ _ _ I1).
  - rewrite <- Hlen. by apply block_valid.
Qed.

(** Every item of a block can also be read by its index: the pointer and the
    length that the reader gives select exactly the bytes of the item. *)
Theorem varblock_random_access small items rest len i item :
  block_ok small items -> items !! i = Some item ->
  exists reader ptr,
    VarBlockReaderInit (varblock_bytes small items ++ rest) len = Ok reader /\
    VarBlockReaderItemCount reader = Ok (zlen items) /\
    VarBlockReaderGetItemPtr reader (Z.of_nat i) = Ok (ptr, zlen item) /\
    mem_read (varblock_bytes small items ++ rest) ptr (zlen item) = Ok item.
Proof.
  intros Hok Hi. destruct (block_header_ubits small _ Hok).
  destruct (block_reader_ok small items rest len Hok) as [Er _].
  exists (block_reader small items rest len), (8 + zlen (concat (take i items))). split_and!; [done | | |].
  - unfold VarBlockReaderItemCount. cbn [rd_buffer block_reader]. rewrite block_header_read by done.
    cbn [mbind outcome_bind]. by rewrite block_header_count.
  - by apply (block_item_ptr small items rest Hok (block_reader small items rest len) i item).
  - by apply block_item_read.
Qed.

(** The validity check never reads outside the buffer, whatever the bytes
    are, and when it accepts a block the reader is safe on it: every item it
    returns starts after the header, has a length that is not negative, ends
    within the block, and the next item starts where it ends. *)
Theorem varblock_check_safe buffer bufferLen :
  8 <= bufferLen <= zlen buffer ->
  exists r, VarBlockIsValid buffer bufferLen = Ok r /\
    (r = VarBlockCheckOk ->
     exists reader n, VarBlockReaderInit buffer bufferLen = Ok reader /\
       VarBlockReaderItemCount reader = Ok n /\
       forall i, 0 <= i < n ->
       exists ptr len, VarBlockReaderGetItemPtr reader i = Ok (ptr, len) /\
         8 <= ptr /\ 0 <= len /\ ptr + len <= bufferLen /\
         (i + 1 < n -> exists len', VarBlockReaderGetItemPtr reader (i + 1) = Ok (ptr + len, len'))).
Proof.
  intros Hlen. destruct (VarBlockIsValid_ok buffer bufferLen Hlen) as (h & r & Hh & E & Hr).
  exists r. split; [done |]. intros Hok. destruct (Hr Hok) as [Hsum Hoff].
  unfold VarBlockReaderInit. rewrite Hh. cbn [mbind outcome_bind]. do 2 eexists. split; [done |].
  unfold VarBlockReaderItemCount, VarBlockReaderGetItemPtr, VarBlockGetItemPtrAndLen.
  cbn [rd_buffer rd_offsetToOffsetArray]. rewrite Hh. cbn [mbind outcome_bind]. split; [done |].
  intros i Hi. specialize (Hoff ltac:(lia)). unfold VARBLOCK_HEADER_LEN in *.
  destruct (Hoff i) as (o & Ho & Hb & Hn); [lia |]. unfold VARBLOCK_HEADER_LEN in *. rewrite Ho. cbn [mbind outcome_bind].
  destruct (Z.ltb_spec i (VarBlockGet_itemCount h - 1)) as [Hlt | Hge].
  - destruct Hn as (o' & Ho' & Hle); [lia |]. rewrite Ho'. cbn [mbind outcome_bind].
    destruct (Hoff (i + 1)) as (o2 & Ho2 & Hb2 & Hn2); [lia |]. unfold VARBLOCK_HEADER_LEN in *.
    assert (o2 = o') as -> by congruence.
    do 2 eexists. split; [done |]. split_and!; [lia | lia | lia |]. intros _.
    replace (o + (o' - o)) with o' by lia.
    destruct (Z.ltb_spec (i + 1) (VarBlockGet_itemCount h - 1)).
    + destruct Hn2 as (o3 & Ho3 & _); [lia |]. rewrite Ho3. cbn [mbind outcome_bind]. eauto.
    + eauto.
  - do 2 eexists. split; [done |]. split_and!; [lia | lia | lia |]. lia.
Qed.

(** Collapsing a block that holds one item, in place, leaves the item at the
    beginning of the buffer. *)
Theorem varblock_collapse small item rest len :
  block_ok small [item] ->
  exists after,
    VarBlockCollapseToSingleItem (varblock_bytes small [item] ++ rest) (varblock_bytes small [item] ++ rest) len
    = Ok (zlen item, item ++ after).
Proof.
  intros Hok. destruct (block_reader_ok small [item] rest len Hok) as [Er _].
  unfold VarBlockCollapseToSingleItem. rewrite Er. cbn [mbind outcome_bind]. unfold VarBlockReaderGetItemPtr.
  rewrite (block_item_ptr small [item] rest Hok (block_reader small [item] rest len) 0 item
             eq_refl eq_refl eq_refl : VarBlockGetItemPtrAndLen _ 0 = _). cbn [mbind outcome_bind].
  rewrite (block_item_read small [item] rest 0 item eq_refl). cbn [mbind outcome_bind].
  rewrite mem_write_ok; [| lia |].
  - eexists. cbn [mbind outcome_bind take]. change (Z.to_nat 0) with O. by rewrite take_0.
  - unfold varblock_bytes. rewrite !zlen_app. cbn [concat]. rewrite app_nil_r.
    rewrite header_bytes_length. pose proof (zlen_nonneg rest). pose proof (zlen_nonneg (pad (zlen item))).
    set (f := flat _ _). pose proof (zlen_nonneg f). pose proof (zlen_nonneg (pad (zlen f))). lia.
Qed.

(** ** Examples *)

Definition example_items : list (list Z) := [[1; 2; 3]; []; [4; 5]].

Lemma varblock_roundtrip_witness :
  exists m n m' len block reader small,
    VarBlockMakerInit (replicate 64 7) 64 (replicate 6 0) (zlen (replicate 6 0)) = Ok m /\
    varblock_put_all m example_items = Ok (n, m') /\ (n <= length example_items)%nat /\
    VarBlockMakerItemCount m' = Z.of_nat n /\
    (forall item, example_items !! n = Some item ->
       item_fits 64 (zlen (replicate 6 0)) small (take n example_items) item = false) /\
    VarBlockMakerFinish m' = Ok (len, block) /\ len <= 64 /\
    VarBlockIsValid block len = Ok VarBlockCheckOk /\
    VarBlockReaderInit block len = Ok reader /\
    varblock_scan (S n) reader = Ok (take n example_items).
Proof.
  apply (varblock_roundtrip (replicate 64 7) 64 (replicate 6 0) example_items); [lia | vm_compute; done |].
  repeat constructor.
Defined.

Lemma example_block_ok : block_ok true example_items.
Proof.
  split_and!; [vm_compute; done | done |]. repeat constructor; vm_compute; done.
Qed.

Lemma varblock_random_access_witness :
  exists reader ptr,
    VarBlockReaderInit (varblock_bytes true example_items ++ [9]) 20 = Ok reader /\
    VarBlockReaderItemCount reader = Ok (zlen example_items) /\
    VarBlockReaderGetItemPtr reader (Z.of_nat 2) = Ok (ptr, zlen [4; 5]) /\
    mem_read (varblock_bytes true example_items ++ [9]) ptr (zlen [4; 5]) = Ok [4; 5].
Proof. exact (varblock_random_access true example_items [9] 20 2 [4; 5] example_block_ok eq_refl). Defined.

Lemma varblock_check_safe_witness :
  exists r, VarBlockIsValid (varblock_bytes true example_items) 20 = Ok r /\ r = VarBlockCheckOk.
Proof.
  destruct (varblock_check_safe (varblock_bytes true example_items) 20) as (r & E & _); [vm_compute; done |].
  exists r. split; [exact E |]. vm_compute in E. by injection E as <-.
Defined.

Lemma varblock_collapse_witness :
  exists after,
    VarBlockCollapseToSingleItem (varblock_bytes true [[4; 5; 6]] ++ [9]) (varblock_bytes true [[4; 5; 6]] ++ [9]) 14
    = Ok (zlen [4; 5; 6], [4; 5; 6] ++ after).
Proof.
  apply (varblock_collapse true [4; 5; 6] [9] 14).
  split_and!; [vm_compute; done | done |]. repeat constructor; vm_compute; done.
Defined.

(** A block of more than 63 KiB switches to 3-byte offsets. *)
Lemma varblock_widening_example :
  let items := [replicate 40000 1; replicate 25000 2; [3]; [4; 5]] in
  match
    m ← VarBlockMakerInit (replicate 70000 0) 70000 (replicate 100 0) 100;
    '(n, m) ← varblock_put_all m items;
    '(len, block) ← VarBlockMakerFinish m;
    r ← VarBlockReaderInit block len;
    read ← varblock_scan (S n) r;
    Ok (n, bool_decide (read = items))
  with
  | Ok (4%nat, true) => true
  | _ => false
  end = true.
Proof. vm_compute. reflexivity. Qed.
