(* ===== verification/Crc32c.v ===== *)
(** * CRC-32C

    Models src/port/pg_crc32c_sb8.c, the slicing-by-8 computation of the checksum
    of append-only blocks (and of WAL records), and the macros of
    src/include/port/pg_crc32c.h, on a little-endian machine.  The reference is
    the definition of the checksum by polynomial division, one bit at a time. *)

From S2P Require Import Prelude Crc32cTable.

(** ** The code *)

(** [pg_crc32c_table[k][i]]; the indexes of the code are below 8 and 256. *)
Definition crc_table (k : nat) (i : Z) : Z := nth (Z.to_nat i) (nth k pg_crc32c_table []) 0.

Definition CRC8 (crc x : Z) : Z :=
  Z.lxor (crc_table 0 (Z.land (Z.lxor crc x) 0xFF)) (Z.shiftr crc 8).

(** The bytes up to an address that is a multiple of four. *)
Fixpoint crc_align (p crc : Z) (data : list Z) : Z * list Z :=
  match data with
  | [] => (crc, [])
  | x :: rest => if Z.land p 3 =? 0 then (crc, data) else crc_align (p + 1) (CRC8 crc x) rest
  end.

(** Eight bytes at a time: [a] and [b] are the two words. *)
Definition crc_slice (crc : Z) (w0 w1 : list Z) : Z :=
  let a := Z.lxor (le_join w0) crc in
  let b := le_join w1 in
  let c0 := u8 (Z.shiftr b 24) in
  let c1 := u8 (Z.shiftr b 16) in
  let c2 := u8 (Z.shiftr b 8) in
  let c3 := u8 b in
  let c4 := u8 (Z.shiftr a 24) in
  let c5 := u8 (Z.shiftr a 16) in
  let c6 := u8 (Z.shiftr a 8) in
  let c7 := u8 a in
  Z.lxor (Z.lxor (Z.lxor (Z.lxor (Z.lxor (Z.lxor (Z.lxor
    (crc_table 0 c0) (crc_table 1 c1)) (crc_table 2 c2)) (crc_table 3 c3))
    (crc_table 4 c4)) (crc_table 5 c5)) (crc_table 6 c6)) (crc_table 7 c7).

Fixpoint crc_slices (crc : Z) (data : list Z) : Z * list Z :=
  match data with
  | b0 :: b1 :: b2 :: b3 :: b4 :: b5 :: b6 :: b7 :: rest =>
      crc_slices (crc_slice crc [b0; b1; b2; b3] [b4; b5; b6; b7]) rest
  | _ => (crc, data)
  end.

Fixpoint crc_bytes (crc : Z) (data : list Z) : Z :=
  match data with
  | [] => crc
  | x :: rest => crc_bytes (CRC8 crc x) rest
  end.

(** [p] is the address of the data. *)
Definition pg_comp_crc32c_sb8 (p crc : Z) (data : list Z) : Z :=
  let '(crc, data) := crc_align p crc data in
  let '(crc, data) := crc_slices crc data in
  crc_bytes crc data.

Definition INIT_CRC32C : Z := 0xFFFFFFFF.
Definition FIN_CRC32C (crc : Z) : Z := Z.lxor crc 0xFFFFFFFF.

(** ** The reference *)

(** The coefficients of a polynomial of degree below [n] in reverse order. *)
Fixpoint reflect (n : nat) (v : Z) : Z :=
  match n with
  | O => 0
  | S n => (if Z.testbit v 0 then 2 ^ Z.of_nat n else 0) + reflect n (v / 2)
  end.

(** The Castagnoli polynomial, reflected. *)
Definition crc_poly : Z := reflect 32 0x1EDC6F41.

(** One step of the division of a reflected polynomial. *)
Definition crc_step (c : Z) : Z :=
  if Z.testbit c 0 then Z.lxor (Z.shiftr c 1) crc_poly else Z.shiftr c 1.

Definition crc_steps (n : nat) (c : Z) : Z := Nat.iter n crc_step c.

Fixpoint crc32c (crc : Z) (data : list Z) : Z :=
  match data with
  | [] => crc
  | x :: rest => crc32c (crc_steps 8 (Z.lxor crc x)) rest
  end.

(** ** Linearity *)

Lemma lxor4 a b c d : Z.lxor (Z.lxor a b) (Z.lxor c d) = Z.lxor (Z.lxor a c) (Z.lxor b d).
Proof.
  apply Z.bits_inj'. intros i Hi. rewrite !Z.lxor_spec.
  destruct (Z.testbit a i), (Z.testbit b i), (Z.testbit c i), (Z.testbit d i); done.
Qed.

Lemma crc_step_lxor a b : crc_step (Z.lxor a b) = Z.lxor (crc_step a) (crc_step b).
Proof.
  unfold crc_step. rewrite Z.lxor_spec, Z.shiftr_lxor.
  destruct (Z.testbit a 0), (Z.testbit b 0); cbn [xorb].
  - by rewrite lxor4, Z.lxor_nilpotent, Z.lxor_0_r.
  - by rewrite !Z.lxor_assoc, (Z.lxor_comm (Z.shiftr b 1)).
  - by rewrite Z.lxor_assoc.
  - done.
Qed.

Lemma crc_steps_lxor n a b : crc_steps n (Z.lxor a b) = Z.lxor (crc_steps n a) (crc_steps n b).
Proof. unfold crc_steps. induction n as [| n IH]; [done |]. by rewrite !Nat.iter_succ, IH, crc_step_lxor. Qed.

Lemma crc_steps_add n m c : crc_steps (n + m) c = crc_steps n (crc_steps m c).
Proof. unfold crc_steps. apply Nat.iter_add. Qed.

(** Steps over zero bits only shift. *)
Lemma crc_steps_shiftl n v : crc_steps n (Z.shiftl v (Z.of_nat n)) = v.
Proof.
  revert v. induction n as [| n IH]; intros v; [by rewrite Z.shiftl_0_r |].
  replace (S n) with (n + 1)%nat by lia. rewrite crc_steps_add.
  assert (E : crc_steps 1 (Z.shiftl v (Z.of_nat (n + 1))) = Z.shiftl v (Z.of_nat n)).
  { cbn. unfold crc_step. rewrite Z.shiftl_spec_low by lia.
    rewrite Z.shiftr_shiftl_l by lia. by replace (Z.of_nat (n + 1) - 1) with (Z.of_nat n) by lia. }
  rewrite E. apply IH.
Qed.

(** The next byte may be added before the steps of the previous ones. *)
Lemma crc_steps_next n c b : Z.lxor (crc_steps n c) b = crc_steps n (Z.lxor c (Z.shiftl b (Z.of_nat n))).
Proof. by rewrite crc_steps_lxor, crc_steps_shiftl. Qed.

(** ** The tables *)

Definition table_row_ok (k : nat) : bool :=
  forallb (fun i => crc_table k (Z.of_nat i) =? crc_steps (8 * S k) (Z.of_nat i)) (seq 0 256).

Lemma crc_tables_ok : forallb table_row_ok (seq 0 8) = true.
Proof. vm_compute. reflexivity. Qed.

Lemma crc_table_steps k i : (k < 8)%nat -> ubits 8 i -> crc_table k i = crc_steps (8 * S k) i.
Proof.
  intros Hk Hi. pose proof crc_tables_ok as H. rewrite forallb_forall in H.
  specialize (H k). rewrite in_seq in H. specialize (H ltac:(lia)). unfold table_row_ok in H.
  rewrite forallb_forall in H. specialize (H (Z.to_nat i)). rewrite in_seq in H. unfold ubits in Hi.
  rewrite Z2Nat.id, Z.eqb_eq in H by lia. apply H. lia.
Qed.

Lemma land_ff v : Z.land v 0xFF = v mod 2 ^ 8.
Proof. change 0xFF with (Z.ones 8). by apply Z.land_ones. Qed.

(** A value is its low byte and the rest shifted. *)
Lemma low_byte v : v = Z.lxor (v mod 2 ^ 8) (Z.shiftl (Z.shiftr v 8) 8).
Proof.
  apply Z.bits_inj'. intros i Hi. rewrite Z.lxor_spec, mod_pow2_testbit by lia.
  destruct (Z.ltb_spec i 8); cbn [andb].
  - rewrite Z.shiftl_spec_low by lia. by rewrite xorb_false_r.
  - rewrite Z.shiftl_spec_high, Z.shiftr_spec by lia. replace (i - 8 + 8) with i by lia. by rewrite xorb_false_l.
Qed.

Lemma ubits_mod v n : 0 <= n -> ubits n (v mod 2 ^ n).
Proof. intros. apply Z.mod_pos_bound. apply Z.pow_pos_nonneg; lia. Qed.

Lemma CRC8_ok crc x : ubits 8 x -> CRC8 crc x = crc_steps 8 (Z.lxor crc x).
Proof.
  intros Hx. unfold CRC8. rewrite land_ff. set (v := Z.lxor crc x).
  rewrite crc_table_steps by (try apply ubits_mod; lia).
  rewrite (low_byte v) at 2. rewrite crc_steps_lxor. f_equal.
  rewrite (crc_steps_shiftl 8 (Z.shiftr v 8) : crc_steps 8 (Z.shiftl _ 8) = _). unfold v. rewrite Z.shiftr_lxor.
  rewrite (Z.shiftr_div_pow2 x) by lia. unfold ubits in Hx. by rewrite (Z.div_small x), Z.lxor_0_r.
Qed.

Lemma crc_bytes_ok data : forall crc, Forall (ubits 8) data -> crc_bytes crc data = crc32c crc data.
Proof.
  induction data as [| x data IH]; intros crc Hd; cbn; [done |].
  apply Forall_cons in Hd as [Hx Hd]. by rewrite CRC8_ok, IH.
Qed.

Lemma crc32c_app a b crc : crc32c crc (a ++ b) = crc32c (crc32c crc a) b.
Proof. revert crc. induction a as [| x a IH]; intros crc; cbn; [done | apply IH]. Qed.

Lemma crc_align_ok data : forall p crc crc' rest,
  Forall (ubits 8) data -> crc_align p crc data = (crc', rest) ->
  crc32c crc data = crc32c crc' rest /\ Forall (ubits 8) rest.
Proof.
  induction data as [| x data IH]; intros p crc crc' rest Hd E; cbn in E.
  { injection E as <- <-. done. }
  apply Forall_cons in Hd as [Hx Hd]. destruct (Z.land p 3 =? 0).
  - injection E as <- <-. split; [done | by constructor].
  - cbn [crc32c]. rewrite <- CRC8_ok by done. by eapply IH.
Qed.

(** The checksum of bytes taken as one little-endian word. *)
Lemma crc32c_word data : forall crc,
  Forall (ubits 8) data ->
  crc32c crc data = crc_steps (8 * length data) (Z.lxor crc (le_join data)).
Proof.
  induction data as [| x data IH]; intros crc Hd; cbn [crc32c le_join length].
  { by rewrite Z.lxor_0_r. }
  apply Forall_cons in Hd as [Hx Hd]. rewrite IH by done.
  replace (8 * S (length data))%nat with (8 * length data + 8)%nat by lia. rewrite crc_steps_add. f_equal.
  rewrite crc_steps_next. f_equal. change (Z.of_nat 8) with 8. rewrite Z.lxor_assoc. f_equal.
  replace (x + 256 * le_join data) with (Z.lor (Z.shiftl (le_join data) 8) x) by (by apply lor_shiftl_join).
  apply Z.bits_inj'. intros i Hi. rewrite Z.lxor_spec, Z.lor_spec. destruct (Z_lt_le_dec i 8).
  - by rewrite Z.shiftl_spec_low, xorb_false_r by lia.
  - by rewrite (ubits_testbit 8 x i), xorb_false_l, orb_false_r.
Qed.

(** ** Slicing by eight *)

Lemma crc_steps_low_byte n v :
  crc_steps (n + 8) v = Z.lxor (crc_steps (n + 8) (u8 v)) (crc_steps n (Z.shiftr v 8)).
Proof.
  rewrite (low_byte v) at 1. rewrite crc_steps_lxor. f_equal. rewrite crc_steps_add. f_equal.
  apply (crc_steps_shiftl 8).
Qed.

(** The steps over the four bytes of a word. *)
Lemma crc_steps_word n w :
  ubits 32 w ->
  crc_steps (n + 32) w =
  Z.lxor (crc_steps (n + 32) (u8 w))
    (Z.lxor (crc_steps (n + 24) (u8 (Z.shiftr w 8)))
      (Z.lxor (crc_steps (n + 16) (u8 (Z.shiftr w 16))) (crc_steps (n + 8) (u8 (Z.shiftr w 24))))).
Proof.
  intros Hw. replace (n + 32)%nat with ((n + 24) + 8)%nat by lia. rewrite crc_steps_low_byte. f_equal.
  replace (n + 24)%nat with ((n + 16) + 8)%nat by lia. rewrite crc_steps_low_byte, Z.shiftr_shiftr by lia. f_equal.
  replace (n + 16)%nat with ((n + 8) + 8)%nat by lia. rewrite crc_steps_low_byte, Z.shiftr_shiftr by lia.
  f_equal. f_equal. change (8 + 8 + 8) with 24. rewrite u8_small; [done |].
  rewrite Z.shiftr_div_pow2 by lia. unfold ubits in Hw.
  split; [apply Z.div_pos; lia | apply Z.div_lt_upper_bound; lia].
Qed.

Lemma ubits_lxor n a b : 0 <= n -> ubits n a -> ubits n b -> ubits n (Z.lxor a b).
Proof.
  intros Hn Ha Hb. apply testbit_ubits; [done | |].
  - apply Z.lxor_nonneg. split; intros; [apply Hb | apply Ha].
  - intros i Hi. by rewrite Z.lxor_spec, (ubits_testbit n a i), (ubits_testbit n b i).
Qed.

Lemma le_join_ubits bs : Forall (ubits 8) bs -> ubits (8 * Z.of_nat (length bs)) (le_join bs).
Proof.
  induction 1 as [| b bs Hb _ IH]; cbn [le_join length]; [unfold ubits; done |].
  unfold ubits in *. rewrite Nat2Z.inj_succ, Z.mul_succ_r, Z.pow_add_r by lia. change (2 ^ 8) with 256 in *. nia.
Qed.

Lemma le_join_app a b : le_join (a ++ b) = le_join a + 2 ^ (8 * Z.of_nat (length a)) * le_join b.
Proof.
  induction a as [| x a IH]; cbn [app le_join length]; [by rewrite Z.mul_1_l |].
  rewrite IH, Nat2Z.inj_succ, Z.mul_succ_r, Z.pow_add_r by lia. change (2 ^ 8) with 256. lia.
Qed.

Lemma crc_slice_ok crc w0 w1 :
  ubits 32 crc -> Forall (ubits 8) w0 -> Forall (ubits 8) w1 -> length w0 = 4%nat -> length w1 = 4%nat ->
  crc_slice crc w0 w1 = crc32c crc (w0 ++ w1).
Proof.
  intros Hc H0 H1 L0 L1. rewrite crc32c_word by (by apply Forall_app). rewrite length_app, L0, L1.
  rewrite le_join_app, L0. pose proof (le_join_ubits w0 H0) as B0. pose proof (le_join_ubits w1 H1) as B1.
  rewrite L0 in B0. rewrite L1 in B1. change (8 * Z.of_nat 4) with 32 in *.
  set (b := le_join w1) in *.
  assert (E : Z.lxor crc (le_join w0 + 2 ^ 32 * b) = Z.lxor (Z.lxor (le_join w0) crc) (Z.shiftl b 32)).
  { rewrite <- (lor_shiftl_join 32 b (le_join w0)) by done. apply Z.bits_inj'. intros i Hi.
    rewrite !Z.lxor_spec, Z.lor_spec. destruct (Z_lt_le_dec i 32).
    - rewrite Z.shiftl_spec_low by lia. cbn [orb]. by rewrite xorb_false_r, xorb_comm.
    - rewrite (ubits_testbit 32 (le_join w0) i), (ubits_testbit 32 crc i) by done.
      by rewrite orb_false_r. }
  rewrite E. unfold crc_slice. set (a := Z.lxor (le_join w0) crc).
  assert (Ba : ubits 32 a) by (by apply ubits_lxor).
  rewrite crc_steps_lxor. change (8 * (4 + 4))%nat with (32 + 32)%nat.
  rewrite (crc_steps_add 32 32 (Z.shiftl b 32)), (crc_steps_shiftl 32 b : crc_steps 32 (Z.shiftl b 32) = b).
  rewrite (crc_steps_word 32 a Ba), (crc_steps_word 0 b B1 : crc_steps 32 b = _).
  fold b. rewrite !crc_table_steps by (try apply u8_bound; lia).
  change (8 * 8)%nat with (32 + 32)%nat. change (8 * 7)%nat with (32 + 24)%nat.
  change (8 * 6)%nat with (32 + 16)%nat. change (8 * 5)%nat with (32 + 8)%nat.
  change (8 * 4)%nat with (0 + 32)%nat. change (8 * 3)%nat with (0 + 24)%nat.
  change (8 * 2)%nat with (0 + 16)%nat. change (8 * 1)%nat with (0 + 8)%nat.
  apply Z.bits_inj'. intros i Hi. rewrite !Z.lxor_spec.
  repeat match goal with |- context [Z.testbit ?x i] => generalize (Z.testbit x i); intros [] end; done.
Qed.

(** ** Bounds and injectivity *)

Lemma crc_step_ubits c : ubits 32 c -> ubits 32 (crc_step c).
Proof.
  intros Hc. assert (Hs : ubits 32 (Z.shiftr c 1)).
  { rewrite Z.shiftr_div_pow2 by lia. unfold ubits in *.
    split; [apply Z.div_pos; lia | apply Z.div_lt_upper_bound; lia]. }
  unfold crc_step. destruct (Z.testbit c 0); [| done]. apply ubits_lxor; [lia | done |].
  unfold ubits. vm_compute. done.
Qed.

Lemma crc_steps_ubits n c : ubits 32 c -> ubits 32 (crc_steps n c).
Proof.
  intros Hc. unfold crc_steps. induction n as [| n IH]; [done |].
  rewrite Nat.iter_succ. by apply crc_step_ubits.
Qed.

Lemma crc32c_ubits data : forall crc, ubits 32 crc -> Forall (ubits 8) data -> ubits 32 (crc32c crc data).
Proof.
  induction data as [| x data IH]; intros crc Hc Hd; cbn [crc32c]; [done |].
  apply Forall_cons in Hd as [Hx Hd]. apply IH; [| done]. apply crc_steps_ubits, ubits_lxor; [lia | done |].
  by apply (ubits_mono 8).
Qed.

Lemma crc_step_zero c : ubits 32 c -> crc_step c = 0 -> c = 0.
Proof.
  unfold crc_step, ubits. intros Hc H. assert (E : c = 2 * Z.shiftr c 1 + Z.b2z (Z.testbit c 0)).
  { rewrite Z.shiftr_div_pow2, Z.bit0_odd by lia. change (2 ^ 1) with 2. rewrite (Z.div_mod c 2) at 1 by lia.
    by rewrite Zmod_odd. }
  destruct (Z.testbit c 0); cbn [Z.b2z] in E.
  - exfalso. apply Z.lxor_eq in H. assert (2 ^ 31 <= crc_poly) by (vm_compute; done). lia.
  - lia.
Qed.

Lemma crc_steps_inj n a b : ubits 32 a -> ubits 32 b -> crc_steps n a = crc_steps n b -> a = b.
Proof.
  intros Ha Hb E. apply Z.lxor_eq. assert (Hx : ubits 32 (Z.lxor a b)) by (by apply ubits_lxor).
  assert (E0 : crc_steps n (Z.lxor a b) = 0) by (by rewrite crc_steps_lxor, E, Z.lxor_nilpotent).
  clear E. revert E0. induction n as [| n IH]; [done |]. unfold crc_steps in *. rewrite Nat.iter_succ.
  intros H. apply crc_step_zero in H; [auto |]. by apply (crc_steps_ubits n).
Qed.

Lemma lxor_cancel a b c : Z.lxor a c = Z.lxor b c -> a = b.
Proof.
  intros H. apply (f_equal (fun z => Z.lxor z c)) in H.
  by rewrite !Z.lxor_assoc, Z.lxor_nilpotent, !Z.lxor_0_r in H.
Qed.

Lemma crc32c_inj data : forall a b,
  ubits 32 a -> ubits 32 b -> Forall (ubits 8) data -> crc32c a data = crc32c b data -> a = b.
Proof.
  induction data as [| x data IH]; intros a b Ha Hb Hd E; cbn [crc32c] in E; [done |].
  apply Forall_cons in Hd as [Hx Hd]. assert (ubits 32 x) by (by apply (ubits_mono 8)).
  apply IH in E; [| apply crc_steps_ubits, ubits_lxor; (done || lia) .. | done].
  apply crc_steps_inj in E; [| apply ubits_lxor; (done || lia) ..]. by eapply lxor_cancel.
Qed.

(** ** The slicing loop *)

Lemma crc_slices_ok n : forall data crc crc' rest,
  (length data <= n)%nat -> ubits 32 crc -> Forall (ubits 8) data -> crc_slices crc data = (crc', rest) ->
  crc32c crc data = crc32c crc' rest /\ Forall (ubits 8) rest.
Proof.
  induction n as [| n IH]; intros data crc crc' rest Hn Hc Hd E.
  { destruct data; [| cbn in Hn; lia]. injection E as <- <-. done. }
  do 8 (destruct data as [| ?b data]; [cbn in E; injection E as <- <-; by split |]).
  change (crc_slices (crc_slice crc [b; b0; b1; b2] [b3; b4; b5; b6]) data = (crc', rest)) in E.
  assert (Hp : Forall (ubits 8) ([b; b0; b1; b2] ++ [b3; b4; b5; b6])).
  { do 8 (apply Forall_cons in Hd as [? Hd]). cbn [app]. do 8 (constructor; [done |]). constructor. }
  assert (Hrest : Forall (ubits 8) data) by (by do 8 (apply Forall_cons in Hd as [_ Hd])).
  pose proof Hp as Hp'. apply Forall_app in Hp' as [H0 H1].
  rewrite crc_slice_ok in E by done.
  assert (Hlen : (length data <= n)%nat) by (cbn in Hn; lia).
  destruct (IH _ _ _ _ Hlen (crc32c_ubits _ crc Hc Hp) Hrest E) as [E1 E2].
  split; [| done]. rewrite <- E1. by rewrite <- crc32c_app.
Qed.

Lemma pg_comp_crc32c_sb8_ok p crc data :
  ubits 32 crc -> Forall (ubits 8) data -> pg_comp_crc32c_sb8 p crc data = crc32c crc data.
Proof.
  intros Hc Hd. unfold pg_comp_crc32c_sb8.
  destruct (crc_align p crc data) as [c1 d1] eqn:E1. destruct (crc_align_ok _ _ _ _ _ Hd E1) as [-> H1].
  assert (Hc1 : ubits 32 c1).
  { clear -E1 Hc Hd. revert p crc Hc E1. induction data as [| x data IH]; intros p crc Hc E; cbn in E.
    - by injection E as <- <-.
    - apply Forall_cons in Hd as [Hx Hd]. destruct (Z.land p 3 =? 0); [by injection E as <- <- |].
      eapply IH; [done | | exact E]. rewrite CRC8_ok by done.
      apply crc_steps_ubits, ubits_lxor; [lia | done |]. by apply (ubits_mono 8). }
  destruct (crc_slices c1 d1) as [c2 d2] eqn:E2.
  destruct (crc_slices_ok _ d1 c1 c2 d2 (Nat.le_refl _) Hc1 H1 E2) as [-> H2]. by apply crc_bytes_ok.
Qed.

Lemma crc_burst p crc pre w w' post :
  ubits 32 crc -> Forall (ubits 8) (pre ++ w ++ post) -> Forall (ubits 8) w' ->
  length w = length w' -> (length w <= 4)%nat -> w <> w' ->
  pg_comp_crc32c_sb8 p crc (pre ++ w ++ post) <> pg_comp_crc32c_sb8 p crc (pre ++ w' ++ post).
Proof.
  intros Hc Hd Hw' Hl H4 Hne E. apply Hne. pose proof Hd as Hd'. apply Forall_app in Hd' as [Hp Hd'].
  apply Forall_app in Hd' as [Hw Hpost].
  assert (Hd2 : Forall (ubits 8) (pre ++ w' ++ post)) by (apply Forall_app; split; [done | by apply Forall_app]).
  rewrite !pg_comp_crc32c_sb8_ok, !crc32c_app in E by done.
  set (c := crc32c crc pre) in *. assert (Hc' : ubits 32 c) by (by apply crc32c_ubits).
  apply crc32c_inj in E; [| by apply crc32c_ubits .. | done].
  rewrite !crc32c_word in E by done. rewrite <- Hl in E.
  assert (B : forall v, Forall (ubits 8) v -> length v = length w -> ubits 32 (le_join v)).
  { intros v Hv Lv. pose proof (le_join_ubits v Hv) as Hj. eapply ubits_mono; [| exact Hj]. lia. }
  apply crc_steps_inj in E; [| apply ubits_lxor; [lia | done | by apply B] ..].
  rewrite !(Z.lxor_comm c) in E. apply lxor_cancel in E.
  rewrite <- (le_split_join w), <- (le_split_join w') by done. by rewrite Hl, E.
Qed.

(** ** Checksums *)

(** C34: The slicing-by-8 routine with its precomputed tables computes the CRC-32C
    remainder, defined by dividing one bit at a time by the Castagnoli
    polynomial, whatever the alignment of the data. *)
Theorem crc32c_sb8_reference p crc data :
  ubits 32 crc -> Forall (ubits 8) data -> pg_comp_crc32c_sb8 p crc data = crc32c crc data.
Proof. apply pg_comp_crc32c_sb8_ok. Qed.

(** Two buffers that differ only within four consecutive bytes have different
    checksums. *)
Theorem crc32c_detects_burst p crc pre w w' post :
  ubits 32 crc -> Forall (ubits 8) (pre ++ w ++ post) -> Forall (ubits 8) w' ->
  length w = length w' -> (length w <= 4)%nat -> w <> w' ->
  pg_comp_crc32c_sb8 p crc (pre ++ w ++ post) <> pg_comp_crc32c_sb8 p crc (pre ++ w' ++ post).
Proof. apply crc_burst. Qed.

Lemma crc32c_sb8_reference_witness :
  pg_comp_crc32c_sb8 1 INIT_CRC32C [49; 50; 51; 52; 53; 54; 55; 56; 57; 58; 59; 60]
  = crc32c INIT_CRC32C [49; 50; 51; 52; 53; 54; 55; 56; 57; 58; 59; 60].
Proof. apply crc32c_sb8_reference; [unfold ubits; vm_compute; done |]. repeat constructor; done. Defined.

Lemma crc32c_detects_burst_witness :
  pg_comp_crc32c_sb8 0 INIT_CRC32C ([1; 2] ++ [3; 4] ++ [5]) <>
  pg_comp_crc32c_sb8 0 INIT_CRC32C ([1; 2] ++ [3; 6] ++ [5]).
Proof.
  apply (crc32c_detects_burst 0 INIT_CRC32C [1; 2] [3; 4] [3; 6] [5]);
    [unfold ubits; vm_compute; done | repeat constructor; done | repeat constructor; done
     | done | cbn; lia | discriminate].
Defined.

(** The published check value of CRC-32C. *)
Lemma crc32c_check_value :
  FIN_CRC32C (pg_comp_crc32c_sb8 0 INIT_CRC32C [49; 50; 51; 52; 53; 54; 55; 56; 57]) = 0xE3069283.
Proof. vm_compute. reflexivity. Qed.
