(* ===== verification/AoHeader.v ===== *)
(** * Headers of append-only storage blocks

    Models src/backend/cdb/cdbappendonlystorageformat.c, its companion
    src/include/cdb/cdbappendonlystorageformat_impl.h and the bit layouts of
    src/include/cdb/cdbappendonlystorage_int.h: the four kinds of headers, making
    them, reading and checking them, and the two checksums.

    The four header structures are two 32-bit words each and the code casts
    between them; here they are one record.  A shifted field is masked before it
    is stored, so that the width of the shift does not matter.  The block is a
    list of bytes that starts with the header; [addr] is its address, on which
    the checksum routine branches.  The functions that print headers are left
    out; a failed assertion check of a debug build is not modelled. *)

From S2P Require Import Prelude Crc32cTable Crc32c.

(** ** Kinds, versions, sizes *)

Definition AoHeaderKind_None : Z := 0.
Definition AoHeaderKind_SmallContent : Z := 1.
Definition AoHeaderKind_LargeContent : Z := 2.
Definition AoHeaderKind_NonBulkDenseContent : Z := 3.
Definition AoHeaderKind_BulkDenseContent : Z := 4.
Definition MaxAoHeaderKind : Z := 5.

Definition AoHeader_RegularSize : Z := 8.
Definition AoHeader_LongSize : Z := 16.
Definition sizeof_crc : Z := 4.

Definition AoHeader_IsLong (kind : Z) : outcome bool :=
  if kind =? AoHeaderKind_SmallContent then Ok false
  else if kind =? AoHeaderKind_LargeContent then Ok false
  else if kind =? AoHeaderKind_NonBulkDenseContent then Ok false
  else if kind =? AoHeaderKind_BulkDenseContent then Ok true
  else Err "Unexpected Append-Only header kind".

Definition AoHeader_Size (isLong hasChecksums hasFirstRowNum : bool) : Z :=
  let headerLen := if isLong then AoHeader_LongSize else AoHeader_RegularSize in
  let headerLen := if hasChecksums then headerLen + 2 * sizeof_crc else headerLen in
  if hasFirstRowNum then headerLen + 8 else headerLen.

Definition AppendOnlyStorageFormat_RegularHeaderLenNeeded (usingChecksum : bool) : Z :=
  AoHeader_RegularSize + (if usingChecksum then 2 * sizeof_crc else 0).

Definition AOSegfileFormatVersion_IsValid (version : Z) : bool := (0 <? version) && (version <? 4).

Definition AOStorage_RoundUp4 (l : Z) : Z := Z.quot (l + 3) 4 * 4.
Definition AOStorage_RoundUp8 (l : Z) : Z := Z.quot (l + 7) 8 * 8.

(** [AOSegfileFormatVersion_CheckValid] raises an error for an unknown version. *)
Definition AOStorage_RoundUp (l version : Z) : outcome Z :=
  if negb (AOSegfileFormatVersion_IsValid version) then Err "append-only table version is invalid"
  else Ok (if 1 <? version then AOStorage_RoundUp8 l else AOStorage_RoundUp4 l).

(** ** Memory *)

Definition read_u32 (buf : list Z) (off : Z) : outcome Z := b ← mem_read buf off 4; Ok (le_join b).
Definition write_u32 (buf : list Z) (off v : Z) : outcome (list Z) := mem_write buf off (le_split 4 v).
Definition read_s64 (buf : list Z) (off : Z) : outcome Z := b ← mem_read buf off 8; Ok (s64 (le_join b)).
Definition write_s64 (buf : list Z) (off v : Z) : outcome (list Z) := mem_write buf off (le_split 8 (u64 v)).

Record AOHeader := mkAOHeader { header_bytes_0_3 : Z; header_bytes_4_7 : Z }.

Definition read_header (buf : list Z) (off : Z) : outcome AOHeader :=
  a ← read_u32 buf off; b ← read_u32 buf (off + 4); Ok (mkAOHeader a b).
Definition write_header (buf : list Z) (off : Z) (h : AOHeader) : outcome (list Z) :=
  buf ← write_u32 buf off (header_bytes_0_3 h); write_u32 buf (off + 4) (header_bytes_4_7 h).

(** ** Fields *)

Definition AOHeaderGet_reserved0 (h : AOHeader) : Z := Z.shiftr (header_bytes_0_3 h) 31.
Definition AOHeaderGet_headerKind (h : AOHeader) : Z := Z.shiftr (Z.land (header_bytes_0_3 h) 0x70000000) 28.

(** [bytes_0_3 |= v] and [bytes_4_7 |= v]. *)
Definition or_0_3 (h : AOHeader) (v : Z) : AOHeader := mkAOHeader (Z.lor (header_bytes_0_3 h) v) (header_bytes_4_7 h).
Definition or_4_7 (h : AOHeader) (v : Z) : AOHeader := mkAOHeader (header_bytes_0_3 h) (Z.lor (header_bytes_4_7 h) v).

(** Small content: kind 3 bits, first row flag 1, executor kind 3, row count 14,
    data length 21, compressed length 21. *)
Definition AOSmallContentHeaderGet_headerKind (h : AOHeader) : Z := Z.shiftr (Z.land (header_bytes_0_3 h) 0x70000000) 28.
Definition AOSmallContentHeaderGet_hasFirstRowNum (h : AOHeader) : bool :=
  negb (Z.shiftr (Z.land (header_bytes_0_3 h) 0x08000000) 27 =? 0).
Definition AOSmallContentHeaderGet_executorBlockKind (h : AOHeader) : Z := Z.shiftr (Z.land (header_bytes_0_3 h) 0x07000000) 24.
Definition AOSmallContentHeaderGet_rowCount (h : AOHeader) : Z := Z.shiftr (Z.land (header_bytes_0_3 h) 0x00FFFC00) 10.
Definition AOSmallContentHeaderGet_dataLength (h : AOHeader) : Z :=
  Z.lor (Z.shiftl (Z.land (header_bytes_0_3 h) 0x000003FF) 11) (Z.shiftr (Z.land (header_bytes_4_7 h) 0xFFE00000) 21).
Definition AOSmallContentHeaderGet_compressedLength (h : AOHeader) : Z := Z.land (header_bytes_4_7 h) 0x001FFFFF.

Definition AOSmallContentHeaderInit_Init : AOHeader := mkAOHeader 0 0.
Definition AOSmallContentHeaderInit_headerKind (h : AOHeader) (e : Z) : AOHeader := or_0_3 h (Z.land 0x70000000 (Z.shiftl e 28)).
Definition AOSmallContentHeaderInit_hasFirstRowNum (h : AOHeader) (e : bool) : AOHeader :=
  if e then or_0_3 h 0x08000000 else h.
Definition AOSmallContentHeaderInit_executorBlockKind (h : AOHeader) (e : Z) : AOHeader := or_0_3 h (Z.land 0x07000000 (Z.shiftl e 24)).
Definition AOSmallContentHeaderInit_rowCount (h : AOHeader) (e : Z) : AOHeader := or_0_3 h (Z.land 0x00FFFC00 (Z.shiftl e 10)).
Definition AOSmallContentHeaderInit_dataLength (h : AOHeader) (e : Z) : AOHeader :=
  or_4_7 (or_0_3 h (Z.land 0x000003FF (Z.shiftr e 11))) (Z.land 0xFFE00000 (Z.shiftl e 21)).
Definition AOSmallContentHeaderInit_compressedLength (h : AOHeader) (e : Z) : AOHeader := or_4_7 h (Z.land 0x001FFFFF e).

(** Large content: kind, first row flag and executor kind as above, a reserved
    bit, row count 25 bits, content length 30 bits. *)
Definition AOLargeContentHeaderGet_hasFirstRowNum (h : AOHeader) : bool :=
  negb (Z.shiftr (Z.land (header_bytes_0_3 h) 0x08000000) 27 =? 0).
Definition AOLargeContentHeaderGet_executorBlockKind (h : AOHeader) : Z := Z.shiftr (Z.land (header_bytes_0_3 h) 0x07000000) 24.
Definition AOLargeContentHeaderGet_largeRowCount (h : AOHeader) : Z :=
  Z.lor (Z.shiftl (Z.land (header_bytes_0_3 h) 0x007FFFFF) 2) (Z.shiftr (Z.land (header_bytes_4_7 h) 0xC0000000) 30).
Definition AOLargeContentHeaderGet_largeContentLength (h : AOHeader) : Z := Z.land (header_bytes_4_7 h) 0x3FFFFFFF.

Definition AOLargeContentHeaderInit_Init : AOHeader := mkAOHeader 0 0.
Definition AOLargeContentHeaderInit_headerKind (h : AOHeader) (e : Z) : AOHeader := or_0_3 h (Z.land 0x70000000 (Z.shiftl e 28)).
Definition AOLargeContentHeaderInit_hasFirstRowNum (h : AOHeader) (e : bool) : AOHeader :=
  if e then or_0_3 h 0x08000000 else h.
Definition AOLargeContentHeaderInit_executorBlockKind (h : AOHeader) (e : Z) : AOHeader := or_0_3 h (Z.land 0x07000000 (Z.shiftl e 24)).
Definition AOLargeContentHeaderInit_largeRowCount (h : AOHeader) (e : Z) : AOHeader :=
  or_4_7 (or_0_3 h (Z.land 0x007FFFFF (Z.shiftr e 2))) (Z.land 0xC0000000 (Z.shiftl e 30)).
Definition AOLargeContentHeaderInit_largeContentLength (h : AOHeader) (e : Z) : AOHeader := or_4_7 h (Z.land 0x3FFFFFFF e).

(** Non-bulk dense content: data length 21 bits in the first word, row count 30
    bits in the second. *)
Definition AONonBulkDenseContentHeaderGet_hasFirstRowNum (h : AOHeader) : bool :=
  negb (Z.shiftr (Z.land (header_bytes_0_3 h) 0x08000000) 27 =? 0).
Definition AONonBulkDenseContentHeaderGet_executorBlockKind (h : AOHeader) : Z := Z.shiftr (Z.land (header_bytes_0_3 h) 0x07000000) 24.
Definition AONonBulkDenseContentHeaderGet_dataLength (h : AOHeader) : Z := Z.land (header_bytes_0_3 h) 0x001FFFFF.
Definition AONonBulkDenseContentHeaderGet_largeRowCount (h : AOHeader) : Z := Z.land (header_bytes_4_7 h) 0x3FFFFFFF.

Definition AONonBulkDenseContentHeaderInit_Init : AOHeader := mkAOHeader 0 0.
Definition AONonBulkDenseContentHeaderInit_headerKind (h : AOHeader) (e : Z) : AOHeader := or_0_3 h (Z.land 0x70000000 (Z.shiftl e 28)).
Definition AONonBulkDenseContentHeaderInit_hasFirstRowNum (h : AOHeader) (e : bool) : AOHeader :=
  if e then or_0_3 h 0x08000000 else h.
Definition AONonBulkDenseContentHeaderInit_executorBlockKind (h : AOHeader) (e : Z) : AOHeader := or_0_3 h (Z.land 0x07000000 (Z.shiftl e 24)).
Definition AONonBulkDenseContentHeaderInit_dataLength (h : AOHeader) (e : Z) : AOHeader := or_0_3 h (Z.land 0x001FFFFF e).
Definition AONonBulkDenseContentHeaderInit_largeRowCount (h : AOHeader) (e : Z) : AOHeader := or_4_7 h (Z.land 0x3FFFFFFF e).

(** Bulk dense content: like small content without row count; the row count, 30
    bits, is in an extension header behind the checksums. *)
Definition AOBulkDenseContentHeaderGet_hasFirstRowNum (h : AOHeader) : bool :=
  negb (Z.shiftr (Z.land (header_bytes_0_3 h) 0x08000000) 27 =? 0).
Definition AOBulkDenseContentHeaderGet_executorBlockKind (h : AOHeader) : Z := Z.shiftr (Z.land (header_bytes_0_3 h) 0x07000000) 24.
Definition AOBulkDenseContentHeaderGet_dataLength (h : AOHeader) : Z :=
  Z.lor (Z.shiftl (Z.land (header_bytes_0_3 h) 0x000003FF) 11) (Z.shiftr (Z.land (header_bytes_4_7 h) 0xFFE00000) 21).
Definition AOBulkDenseContentHeaderGet_compressedLength (h : AOHeader) : Z := Z.land (header_bytes_4_7 h) 0x001FFFFF.
Definition AOBulkDenseContentHeaderExtGet_largeRowCount (h : AOHeader) : Z := Z.land (header_bytes_4_7 h) 0x3FFFFFFF.

Definition AOBulkDenseContentHeaderInit_Init : AOHeader := mkAOHeader 0 0.
Definition AOBulkDenseContentHeaderInit_headerKind (h : AOHeader) (e : Z) : AOHeader := or_0_3 h (Z.land 0x70000000 (Z.shiftl e 28)).
Definition AOBulkDenseContentHeaderInit_hasFirstRowNum (h : AOHeader) (e : bool) : AOHeader :=
  if e then or_0_3 h 0x08000000 else h.
Definition AOBulkDenseContentHeaderInit_executorBlockKind (h : AOHeader) (e : Z) : AOHeader := or_0_3 h (Z.land 0x07000000 (Z.shiftl e 24)).
Definition AOBulkDenseContentHeaderInit_dataLength (h : AOHeader) (e : Z) : AOHeader :=
  or_4_7 (or_0_3 h (Z.land 0x000003FF (Z.shiftr e 11))) (Z.land 0xFFE00000 (Z.shiftl e 21)).
Definition AOBulkDenseContentHeaderInit_compressedLength (h : AOHeader) (e : Z) : AOHeader := or_4_7 h (Z.land 0x001FFFFF e).
Definition AOBulkDenseContentHeaderExtInit_Init : AOHeader := mkAOHeader 0 0.
Definition AOBulkDenseContentHeaderExtInit_largeRowCount (h : AOHeader) (e : Z) : AOHeader := or_4_7 h (Z.land 0x3FFFFFFF e).

(** ** Checksums *)

Definition AppendOnlyStorageFormat_ComputeHeaderChecksum (addr : Z) (buf : list Z) (headerLen : Z) : outcome Z :=
  data ← mem_read buf 0 headerLen;
  Ok (pg_comp_crc32c_sb8 addr INIT_CRC32C data).

Definition AppendOnlyStorageFormat_ComputeBlockChecksum (addr : Z) (buf : list Z) (headerLen overallBlockLen : Z)
  : outcome Z :=
  let dataOffset := headerLen + sizeof_crc in
  data ← mem_read buf dataOffset (overallBlockLen - dataOffset);
  Ok (pg_comp_crc32c_sb8 (addr + dataOffset) INIT_CRC32C data).

(** The result, the stored and the computed checksum. *)
Definition AppendOnlyStorageFormat_VerifyHeaderChecksum (addr : Z) (buf : list Z) : outcome (bool * Z * Z) :=
  let firstHeaderAndBlockChecksumLen := AoHeader_RegularSize + sizeof_crc in
  storedChecksum ← read_u32 buf firstHeaderAndBlockChecksumLen;
  computedChecksum ← AppendOnlyStorageFormat_ComputeHeaderChecksum addr buf firstHeaderAndBlockChecksumLen;
  Ok (storedChecksum =? computedChecksum, storedChecksum, computedChecksum).

Definition AppendOnlyStorageFormat_VerifyBlockChecksum (addr : Z) (buf : list Z) (overallBlockLen : Z)
  : outcome (bool * Z * Z) :=
  let firstHeaderLen := AoHeader_RegularSize in
  storedChecksum ← read_u32 buf firstHeaderLen;
  computedChecksum ← AppendOnlyStorageFormat_ComputeBlockChecksum addr buf (firstHeaderLen + sizeof_crc) overallBlockLen;
  Ok (storedChecksum =? computedChecksum, storedChecksum, computedChecksum).

(** ** Making headers *)

Definition AppendOnlyStorageFormat_AddFirstRowNum (buf : list Z) (usingChecksums : bool) (firstRowNum : Z)
  : outcome (list Z) :=
  h ← read_header buf 0;
  isLong ← AoHeader_IsLong (AOSmallContentHeaderGet_headerKind h);
  let offset := if isLong : bool then AoHeader_LongSize else AoHeader_RegularSize in
  let offset := if usingChecksums then offset + 2 * sizeof_crc else offset in
  write_s64 buf offset firstRowNum.

Definition AppendOnlyStorageFormat_AddBlockHeaderChecksums (addr : Z) (buf : list Z)
    (isCompressed hasFirstRowNum : bool) (version dataLength compressedLength : Z) : outcome (list Z) :=
  h ← read_header buf 0;
  let firstHeaderLen := AoHeader_RegularSize in
  let firstHeaderAndBlockChecksumLen := firstHeaderLen + sizeof_crc in
  let offset := firstHeaderAndBlockChecksumLen + sizeof_crc in
  isLong ← AoHeader_IsLong (AOSmallContentHeaderGet_headerKind h);
  let offset := if isLong : bool then offset + AoHeader_RegularSize else offset in
  let offset := if hasFirstRowNum then offset + 8 else offset in
  rounded ← AOStorage_RoundUp (if isCompressed then compressedLength else dataLength) version;
  let overallBlockLen := offset + rounded in
  blockChecksum ← AppendOnlyStorageFormat_ComputeBlockChecksum addr buf firstHeaderAndBlockChecksumLen overallBlockLen;
  buf ← write_u32 buf firstHeaderLen blockChecksum;
  headerChecksum ← AppendOnlyStorageFormat_ComputeHeaderChecksum addr buf firstHeaderAndBlockChecksumLen;
  write_u32 buf firstHeaderAndBlockChecksumLen headerChecksum.

Definition AppendOnlyStorageFormat_MakeSmallContentHeader (addr : Z) (buf : list Z)
    (usingChecksums hasFirstRowNum : bool)
    (version firstRowNum executorKind rowCount dataLength compressedLength : Z) : outcome (list Z) :=
  let h := AOSmallContentHeaderInit_Init in
  let h := AOSmallContentHeaderInit_headerKind h AoHeaderKind_SmallContent in
  let h := AOSmallContentHeaderInit_executorBlockKind h executorKind in
  let h := AOSmallContentHeaderInit_rowCount h rowCount in
  let h := AOSmallContentHeaderInit_dataLength h dataLength in
  let h := AOSmallContentHeaderInit_hasFirstRowNum h hasFirstRowNum in
  let isCompressed := 0 <? compressedLength in
  let h := if isCompressed then AOSmallContentHeaderInit_compressedLength h compressedLength else h in
  buf ← write_header buf 0 h;
  buf ← (if hasFirstRowNum then AppendOnlyStorageFormat_AddFirstRowNum buf usingChecksums firstRowNum else Ok buf);
  if usingChecksums
  then AppendOnlyStorageFormat_AddBlockHeaderChecksums addr buf isCompressed hasFirstRowNum version
         dataLength compressedLength
  else Ok buf.

Definition AppendOnlyStorageFormat_MakeLargeContentHeader (addr : Z) (buf : list Z)
    (usingChecksums hasFirstRowNum : bool)
    (version firstRowNum executorKind largeRowCount largeContentLength : Z) : outcome (list Z) :=
  let h := AOLargeContentHeaderInit_Init in
  let h := AOLargeContentHeaderInit_headerKind h AoHeaderKind_LargeContent in
  let h := AOLargeContentHeaderInit_executorBlockKind h executorKind in
  let h := AOLargeContentHeaderInit_largeRowCount h largeRowCount in
  let h := AOLargeContentHeaderInit_largeContentLength h largeContentLength in
  let h := AOLargeContentHeaderInit_hasFirstRowNum h hasFirstRowNum in
  buf ← write_header buf 0 h;
  buf ← (if hasFirstRowNum then AppendOnlyStorageFormat_AddFirstRowNum buf usingChecksums firstRowNum else Ok buf);
  if usingChecksums
  then AppendOnlyStorageFormat_AddBlockHeaderChecksums addr buf false false version 0 0
  else Ok buf.

Definition AppendOnlyStorageFormat_MakeNonBulkDenseContentHeader (addr : Z) (buf : list Z)
    (usingChecksums hasFirstRowNum : bool)
    (version firstRowNum executorKind rowCount dataLength : Z) : outcome (list Z) :=
  let h := AONonBulkDenseContentHeaderInit_Init in
  let h := AONonBulkDenseContentHeaderInit_headerKind h AoHeaderKind_NonBulkDenseContent in
  let h := AONonBulkDenseContentHeaderInit_executorBlockKind h executorKind in
  let h := AONonBulkDenseContentHeaderInit_largeRowCount h rowCount in
  let h := AONonBulkDenseContentHeaderInit_dataLength h dataLength in
  let h := AONonBulkDenseContentHeaderInit_hasFirstRowNum h hasFirstRowNum in
  buf ← write_header buf 0 h;
  buf ← (if hasFirstRowNum then AppendOnlyStorageFormat_AddFirstRowNum buf usingChecksums firstRowNum else Ok buf);
  if usingChecksums
  then AppendOnlyStorageFormat_AddBlockHeaderChecksums addr buf false hasFirstRowNum version dataLength 0
  else Ok buf.

Definition AppendOnlyStorageFormat_MakeBulkDenseContentHeader (addr : Z) (buf : list Z)
    (usingChecksums hasFirstRowNum : bool)
    (version firstRowNum executorKind rowCount dataLength compressedLength : Z) : outcome (list Z) :=
  let firstHeaderAndChecksumsLen := AoHeader_RegularSize + (if usingChecksums then 2 * sizeof_crc else 0) in
  let h := AOBulkDenseContentHeaderInit_Init in
  let h := AOBulkDenseContentHeaderInit_headerKind h AoHeaderKind_BulkDenseContent in
  let h := AOBulkDenseContentHeaderInit_executorBlockKind h executorKind in
  let h := AOBulkDenseContentHeaderInit_dataLength h dataLength in
  let h := AOBulkDenseContentHeaderInit_hasFirstRowNum h hasFirstRowNum in
  let isCompressed := 0 <? compressedLength in
  let h := if isCompressed then AOBulkDenseContentHeaderInit_compressedLength h compressedLength else h in
  buf ← write_header buf 0 h;
  let ext := AOBulkDenseContentHeaderExtInit_largeRowCount AOBulkDenseContentHeaderExtInit_Init rowCount in
  buf ← write_header buf firstHeaderAndChecksumsLen ext;
  buf ← (if hasFirstRowNum then AppendOnlyStorageFormat_AddFirstRowNum buf usingChecksums firstRowNum else Ok buf);
  if usingChecksums
  then AppendOnlyStorageFormat_AddBlockHeaderChecksums addr buf isCompressed hasFirstRowNum version
         dataLength compressedLength
  else Ok buf.

Definition AppendOnlyStorageFormat_GetCompressedLen (buf : list Z) : outcome Z :=
  h ← read_header buf 0;
  Ok (AOSmallContentHeaderGet_compressedLength h).

(** ** Reading headers *)

Inductive AOHeaderCheckError :=
| AOHeaderCheckFirst32BitsAllZeroes
| AOHeaderCheckReservedBit0Not0
| AOHeaderCheckInvalidHeaderKindNone
| AOHeaderCheckInvalidHeaderKind
| AOHeaderCheckInvalidCompressedLen
| AOHeaderCheckInvalidOverallBlockLen
| AOHeaderCheckLargeContentLenIsZero.

(** The output parameters; the check error is the left side, [AOHeaderCheckOk]
    with the outputs the right side. *)
Record AOBlockInfo := mkAOBlockInfo {
  bi_overallBlockLen : Z;
  bi_offset : Z;
  bi_uncompressedLen : Z;
  bi_executorBlockKind : Z;
  bi_hasFirstRowNum : bool;
  bi_firstRowNum : Z;
  bi_rowCount : Z;
  bi_isCompressed : bool;
  bi_compressedLen : Z
}.

Definition AppendOnlyStorageFormat_GetHeaderInfo (buf : list Z) (usingChecksums : bool)
  : outcome (AOHeaderCheckError + Z * Z) :=
  h ← read_header buf 0;
  if header_bytes_0_3 h =? 0 then Ok (inl AOHeaderCheckFirst32BitsAllZeroes)
  else if negb (AOHeaderGet_reserved0 h =? 0) then Ok (inl AOHeaderCheckReservedBit0Not0)
  else
    let kind := AOHeaderGet_headerKind h in
    if kind =? AoHeaderKind_None then Ok (inl AOHeaderCheckInvalidHeaderKindNone)
    else if MaxAoHeaderKind <=? kind then Ok (inl AOHeaderCheckInvalidHeaderKind)
    else
      let regular := AoHeader_RegularSize + (if usingChecksums then 2 * sizeof_crc else 0) in
      let long := AoHeader_LongSize + (if usingChecksums then 2 * sizeof_crc else 0) in
      let plus := fun (len : Z) (b : bool) => if b then len + 8 else len in
      if kind =? AoHeaderKind_SmallContent then
        Ok (inr (kind, plus regular (AOSmallContentHeaderGet_hasFirstRowNum h)))
      else if kind =? AoHeaderKind_LargeContent then
        Ok (inr (kind, plus regular (AOLargeContentHeaderGet_hasFirstRowNum h)))
      else if kind =? AoHeaderKind_NonBulkDenseContent then
        Ok (inr (kind, plus regular (AONonBulkDenseContentHeaderGet_hasFirstRowNum h)))
      else if kind =? AoHeaderKind_BulkDenseContent then
        Ok (inr (kind, plus long (AOBulkDenseContentHeaderGet_hasFirstRowNum h)))
      else Err "Unexpected Append-Only header kind".

(** The optional first row number at [offset]: its value and the new offset. *)
Definition get_firstRowNum (buf : list Z) (hasFirstRowNum : bool) (offset : Z) : outcome (Z * Z) :=
  if hasFirstRowNum then v ← read_s64 buf offset; Ok (v, offset + 8) else Ok (-1, offset).

(** The checks of the lengths that small and bulk dense content share. *)
Definition check_lengths (version blockLimitLen offset uncompressedLen compressedLen : Z)
    (info : Z -> bool -> AOBlockInfo) : outcome (AOHeaderCheckError + AOBlockInfo) :=
  let isCompressed := negb (compressedLen =? 0) in
  if isCompressed && (uncompressedLen <? compressedLen) then Ok (inl AOHeaderCheckInvalidCompressedLen)
  else
    rounded ← AOStorage_RoundUp (if isCompressed then compressedLen else uncompressedLen) version;
    let overallBlockLen := offset + rounded in
    if blockLimitLen <? overallBlockLen then Ok (inl AOHeaderCheckInvalidOverallBlockLen)
    else Ok (inr (info overallBlockLen isCompressed)).

Definition AppendOnlyStorageFormat_GetSmallContentHeaderInfo (buf : list Z) (headerLen : Z)
    (usingChecksums : bool) (blockLimitLen version : Z) : outcome (AOHeaderCheckError + AOBlockInfo) :=
  h ← read_header buf 0;
  let executorBlockKind := AOSmallContentHeaderGet_executorBlockKind h in
  let hasFirstRowNum := AOSmallContentHeaderGet_hasFirstRowNum h in
  let rowCount := AOSmallContentHeaderGet_rowCount h in
  '(firstRowNum, offset) ← get_firstRowNum buf hasFirstRowNum
                             (AoHeader_RegularSize + (if usingChecksums then 2 * sizeof_crc else 0));
  if negb (offset =? headerLen) then Err "Content offset doesn't equal header length parameter"
  else
    let uncompressedLen := AOSmallContentHeaderGet_dataLength h in
    let compressedLen := AOSmallContentHeaderGet_compressedLength h in
    check_lengths version blockLimitLen offset uncompressedLen compressedLen
      (fun overallBlockLen isCompressed =>
         mkAOBlockInfo overallBlockLen offset uncompressedLen executorBlockKind hasFirstRowNum firstRowNum
           rowCount isCompressed compressedLen).

(** The length of the large content, the executor kind, the first row number flag
    and value and the row count. *)
Definition AppendOnlyStorageFormat_GetLargeContentHeaderInfo (buf : list Z) (headerLen : Z)
    (usingChecksums : bool) : outcome (AOHeaderCheckError + Z * Z * bool * Z * Z) :=
  h ← read_header buf 0;
  let executorBlockKind := AOLargeContentHeaderGet_executorBlockKind h in
  let hasFirstRowNum := AOLargeContentHeaderGet_hasFirstRowNum h in
  let largeRowCount := AOLargeContentHeaderGet_largeRowCount h in
  let largeContentLen := AOLargeContentHeaderGet_largeContentLength h in
  if largeContentLen =? 0 then Ok (inl AOHeaderCheckLargeContentLenIsZero)
  else
    '(firstRowNum, offset) ← get_firstRowNum buf hasFirstRowNum
                               (AoHeader_RegularSize + (if usingChecksums then 2 * sizeof_crc else 0));
    if negb (offset =? headerLen) then Err "Content offset doesn't equal header length parameter"
    else Ok (inr (largeContentLen, executorBlockKind, hasFirstRowNum, firstRowNum, largeRowCount)).

Definition AppendOnlyStorageFormat_GetNonBulkDenseContentHeaderInfo (buf : list Z) (headerLen : Z)
    (usingChecksums : bool) (blockLimitLen version : Z) : outcome (AOHeaderCheckError + AOBlockInfo) :=
  h ← read_header buf 0;
  let executorBlockKind := AONonBulkDenseContentHeaderGet_executorBlockKind h in
  let hasFirstRowNum := AONonBulkDenseContentHeaderGet_hasFirstRowNum h in
  let rowCount := AONonBulkDenseContentHeaderGet_largeRowCount h in
  '(firstRowNum, offset) ← get_firstRowNum buf hasFirstRowNum
                             (AoHeader_RegularSize + (if usingChecksums then 2 * sizeof_crc else 0));
  if negb (offset =? headerLen) then Err "Content offset doesn't equal header length parameter"
  else
    let uncompressedLen := AONonBulkDenseContentHeaderGet_dataLength h in
    rounded ← AOStorage_RoundUp uncompressedLen version;
    let overallBlockLen := offset + rounded in
    if blockLimitLen <? overallBlockLen then Ok (inl AOHeaderCheckInvalidOverallBlockLen)
    else Ok (inr (mkAOBlockInfo overallBlockLen offset uncompressedLen executorBlockKind hasFirstRowNum
                    firstRowNum rowCount false 0)).

Definition AppendOnlyStorageFormat_GetBulkDenseContentHeaderInfo (buf : list Z) (headerLen : Z)
    (usingChecksums : bool) (blockLimitLen version : Z) : outcome (AOHeaderCheckError + AOBlockInfo) :=
  h ← read_header buf 0;
  let firstHeaderAndChecksumsLen := AoHeader_RegularSize + (if usingChecksums then 2 * sizeof_crc else 0) in
  ext ← read_header buf firstHeaderAndChecksumsLen;
  let offset := firstHeaderAndChecksumsLen + AoHeader_RegularSize in
  let executorBlockKind := AOBulkDenseContentHeaderGet_executorBlockKind h in
  let hasFirstRowNum := AOBulkDenseContentHeaderGet_hasFirstRowNum h in
  let rowCount := AOBulkDenseContentHeaderExtGet_largeRowCount ext in
  '(firstRowNum, offset) ← get_firstRowNum buf hasFirstRowNum offset;
  if negb (offset =? headerLen) then Err "Content offset doesn't equal header length parameter"
  else
    let uncompressedLen := AOBulkDenseContentHeaderGet_dataLength h in
    let compressedLen := AOBulkDenseContentHeaderGet_compressedLength h in
    check_lengths version blockLimitLen offset uncompressedLen compressedLen
      (fun overallBlockLen isCompressed =>
         mkAOBlockInfo overallBlockLen offset uncompressedLen executorBlockKind hasFirstRowNum firstRowNum
           rowCount isCompressed compressedLen).

(** ** Bit fields *)

Lemma lor_add a b : Z.land a b = 0 -> Z.lor a b = a + b.
Proof. intros H. rewrite <- Z.lxor_lor by done. symmetry. by apply Z.add_nocarry_lxor. Qed.

Lemma field_get v mask k w :
  0 <= k -> 0 <= w -> mask = Z.shiftl (Z.ones w) k -> Z.shiftr (Z.land v mask) k = (v / 2 ^ k) mod 2 ^ w.
Proof.
  intros Hk Hw ->. rewrite Z.shiftr_land, Z.shiftr_shiftl_l, Z.sub_diag, Z.shiftl_0_r by lia.
  by rewrite Z.land_ones, Z.shiftr_div_pow2.
Qed.

(** Or-ing a masked field into bits that are zero adds it. *)
Lemma field_or v mask x k w :
  0 <= k -> 0 <= w -> mask = Z.shiftl (Z.ones w) k -> (v / 2 ^ k) mod 2 ^ w = 0 ->
  Z.lor v (Z.land mask (Z.shiftl x k)) = v + 2 ^ k * (x mod 2 ^ w).
Proof.
  intros Hk Hw -> Hv. rewrite <- Z.shiftl_land, (Z.land_comm _ x), Z.land_ones by done.
  rewrite Z.mul_comm, <- Z.shiftl_mul_pow2 by done. apply lor_add.
  apply Z.bits_inj'. intros i Hi. rewrite Z.land_spec, Z.testbit_0_l. destruct (Z_lt_le_dec i k).
  { rewrite Z.shiftl_spec_low by lia. apply andb_false_r. }
  rewrite Z.shiftl_spec_high, mod_pow2_testbit by lia. destruct (Z.ltb_spec (i - k) w); [| apply andb_false_r].
  apply (f_equal (fun z => Z.testbit z (i - k))) in Hv.
  rewrite mod_pow2_testbit, Z.testbit_0_l, Z.div_pow2_bits in Hv by lia.
  replace (i - k <? w) with true in Hv by lia. cbn [andb] in Hv. replace (i - k + k) with i in Hv by lia.
  by rewrite Hv.
Qed.

Lemma field_or0 v mask x w :
  0 <= w -> mask = Z.ones w -> v mod 2 ^ w = 0 -> Z.lor v (Z.land mask x) = v + x mod 2 ^ w.
Proof.
  intros Hw -> Hv. pose proof (field_or v (Z.ones w) x 0 w (Z.le_refl 0) Hw) as H.
  rewrite !Z.shiftl_0_r, Z.div_1_r, Z.mul_1_l in H. auto.
Qed.

(** Computing a header field: the masks are constants, the values are bounded. *)
Ltac set_field k w := rewrite (field_or _ _ _ k w) by first [done | reflexivity | zlia].
Ltac get_field k w := rewrite (field_get _ _ k w) by first [done | reflexivity].

Lemma low_field v mask w : 0 <= w -> mask = Z.ones w -> Z.land v mask = v mod 2 ^ w.
Proof. intros Hw ->. by apply Z.land_ones. Qed.

Definition b2z (b : bool) : Z := if b then 1 else 0.

(** The first word: kind, first row flag, executor kind and 24 bits of the kind's own. *)
Definition first_word (kind : Z) (first : bool) (exec low : Z) : Z :=
  low + 2 ^ 24 * (exec + 2 ^ 3 * (b2z first + 2 * kind)).

Section FirstWord.
  Context (kind : Z) (first : bool) (exec low w47 : Z).
  Context (Hkind : 0 <= kind < 5) (Hexec : 0 <= exec < 8) (Hlow : 0 <= low < 2 ^ 24).

  Local Notation h := (mkAOHeader (first_word kind first exec low) w47).

Lemma first_word_bounds : ubits 32 (first_word kind first exec low).
Proof. unfold ubits, first_word, b2z. destruct first; lia. Qed.

Lemma first_word_kind : AOHeaderGet_headerKind h = kind /\ AOHeaderGet_reserved0 h = 0.
Proof.
  unfold AOHeaderGet_headerKind, AOHeaderGet_reserved0. cbn [header_bytes_0_3]. get_field 28 3.
  rewrite Z.shiftr_div_pow2 by lia. unfold first_word, b2z. destruct first; zlia.
Qed.

Lemma first_word_exec : Z.shiftr (Z.land (header_bytes_0_3 h) 0x07000000) 24 = exec.
Proof. cbn [header_bytes_0_3]. get_field 24 3. unfold first_word, b2z. destruct first; zlia. Qed.

Lemma first_word_first : negb (Z.shiftr (Z.land (header_bytes_0_3 h) 0x08000000) 27 =? 0) = first.
Proof.
  cbn [header_bytes_0_3]. get_field 27 1. unfold first_word, b2z.
  destruct first; [replace (_ mod _) with 1 by zlia | replace (_ mod _) with 0 by zlia]; done.
Qed.

Lemma first_word_low : first_word kind first exec low mod 2 ^ 24 = low.
Proof. unfold first_word. by rewrite Z.mul_comm, Z.mod_add, Z.mod_small by lia. Qed.
End FirstWord.

(** ** The words of each header *)

Definition small_words (first : bool) (exec rowCount dataLength compressedLength : Z) : AOHeader :=
  mkAOHeader (first_word AoHeaderKind_SmallContent first exec (dataLength / 2 ^ 11 + 2 ^ 10 * rowCount))
    (compressedLength + 2 ^ 21 * (dataLength mod 2 ^ 11)).

Definition large_words (first : bool) (exec rowCount contentLength : Z) : AOHeader :=
  mkAOHeader (first_word AoHeaderKind_LargeContent first exec (rowCount / 2 ^ 2))
    (contentLength + 2 ^ 30 * (rowCount mod 2 ^ 2)).

Definition nonbulk_words (first : bool) (exec rowCount dataLength : Z) : AOHeader :=
  mkAOHeader (first_word AoHeaderKind_NonBulkDenseContent first exec dataLength) rowCount.

Definition bulk_words (first : bool) (exec dataLength compressedLength : Z) : AOHeader :=
  mkAOHeader (first_word AoHeaderKind_BulkDenseContent first exec (dataLength / 2 ^ 11))
    (compressedLength + 2 ^ 21 * (dataLength mod 2 ^ 11)).

(** The flag of the first row number. *)
Lemma first_flag v (e : bool) :
  (v / 2 ^ 27) mod 2 = 0 -> (if e then Z.lor v 0x08000000 else v) = v + 2 ^ 27 * b2z e.
Proof.
  intros Hv. destruct e; [| cbn; lia].
  change 0x08000000 with (Z.land 0x08000000 (Z.shiftl 1 27)). rewrite (field_or v _ 1 27 1) by done. done.
Qed.

Lemma header_eq a b a' b' : a = a' -> b = b' -> mkAOHeader a b = mkAOHeader a' b'.
Proof. by intros -> ->. Qed.

(** The first word while the fields are or-ed in: kind and executor kind. *)
Lemma word_kind_exec kind exec :
  0 <= kind < 5 -> 0 <= exec < 8 ->
  Z.lor (Z.lor 0 (Z.land 0x70000000 (Z.shiftl kind 28))) (Z.land 0x07000000 (Z.shiftl exec 24))
  = 2 ^ 28 * kind + 2 ^ 24 * exec.
Proof.
  intros Hk He. rewrite (field_or 0 _ kind 28 3) by done. rewrite (Z.mod_small kind) by lia.
  set_field 24 3. rewrite Z.mod_small by lia. lia.
Qed.

Section Words.
  Context (first : bool) (exec rowCount dataLength compressedLength : Z).
  Context (Hexec : 0 <= exec < 8) (Hdata : 0 <= dataLength < 2 ^ 21) (Hcomp : 0 <= compressedLength < 2 ^ 21).

Lemma lengths_word :
  Z.lor (Z.lor 0 (Z.land 0xFFE00000 (Z.shiftl dataLength 21))) (Z.land 0x001FFFFF compressedLength)
  = compressedLength + 2 ^ 21 * (dataLength mod 2 ^ 11).
Proof.
  rewrite (field_or 0 _ dataLength 21 11) by done.
  rewrite (field_or0 _ _ _ 21) by first [done | reflexivity | zlia]. rewrite (Z.mod_small compressedLength) by lia. lia.
Qed.

Lemma lengths_word0 :
  Z.lor 0 (Z.land 0xFFE00000 (Z.shiftl dataLength 21)) = 0 + 2 ^ 21 * (dataLength mod 2 ^ 11).
Proof. by rewrite (field_or 0 _ dataLength 21 11) by done. Qed.

Lemma small_header_eq :
  0 <= rowCount < 2 ^ 14 ->
  let h := AOSmallContentHeaderInit_hasFirstRowNum (AOSmallContentHeaderInit_dataLength
             (AOSmallContentHeaderInit_rowCount (AOSmallContentHeaderInit_executorBlockKind
               (AOSmallContentHeaderInit_headerKind AOSmallContentHeaderInit_Init AoHeaderKind_SmallContent)
               exec) rowCount) dataLength) first in
  (if 0 <? compressedLength then AOSmallContentHeaderInit_compressedLength h compressedLength else h)
  = small_words first exec rowCount dataLength compressedLength.
Proof.
  intros Hrow h. assert (Hh : h = mkAOHeader
    (first_word AoHeaderKind_SmallContent first exec (dataLength / 2 ^ 11 + 2 ^ 10 * rowCount))
    (0 + 2 ^ 21 * (dataLength mod 2 ^ 11))).
  { unfold h, AOSmallContentHeaderInit_hasFirstRowNum, AOSmallContentHeaderInit_dataLength,
      AOSmallContentHeaderInit_rowCount, AOSmallContentHeaderInit_executorBlockKind,
      AOSmallContentHeaderInit_headerKind, AOSmallContentHeaderInit_Init, or_0_3, or_4_7.
    cbn [header_bytes_0_3 header_bytes_4_7].
    rewrite word_kind_exec by (unfold AoHeaderKind_SmallContent; lia). rewrite lengths_word0.
    rewrite Z.shiftr_div_pow2 by lia. set_field 10 14. rewrite (field_or0 _ _ _ 10) by first [done | reflexivity | zlia].
    rewrite (Z.mod_small rowCount), (Z.mod_small (dataLength / 2 ^ 11)) by zlia.
    unfold first_word, AoHeaderKind_SmallContent, b2z.
    destruct first; apply header_eq; try lia.
    change 0x08000000 with (Z.land 0x08000000 (Z.shiftl 1 27)). set_field 27 1. change (1 mod 2 ^ 1) with 1. lia. }
  rewrite Hh. unfold small_words. destruct (Z.ltb_spec 0 compressedLength).
  - unfold AOSmallContentHeaderInit_compressedLength, or_4_7. cbn [header_bytes_0_3 header_bytes_4_7].
    rewrite <- lengths_word0, lengths_word. done.
  - replace compressedLength with 0 by lia. done.
Qed.

Lemma bulk_header_eq :
  let h := AOBulkDenseContentHeaderInit_hasFirstRowNum (AOBulkDenseContentHeaderInit_dataLength
             (AOBulkDenseContentHeaderInit_executorBlockKind
               (AOBulkDenseContentHeaderInit_headerKind AOBulkDenseContentHeaderInit_Init
                  AoHeaderKind_BulkDenseContent) exec) dataLength) first in
  (if 0 <? compressedLength then AOBulkDenseContentHeaderInit_compressedLength h compressedLength else h)
  = bulk_words first exec dataLength compressedLength.
Proof.
  intros h. assert (Hh : h = mkAOHeader
    (first_word AoHeaderKind_BulkDenseContent first exec (dataLength / 2 ^ 11))
    (0 + 2 ^ 21 * (dataLength mod 2 ^ 11))).
  { unfold h, AOBulkDenseContentHeaderInit_hasFirstRowNum, AOBulkDenseContentHeaderInit_dataLength,
      AOBulkDenseContentHeaderInit_executorBlockKind, AOBulkDenseContentHeaderInit_headerKind,
      AOBulkDenseContentHeaderInit_Init, or_0_3, or_4_7.
    cbn [header_bytes_0_3 header_bytes_4_7].
    rewrite word_kind_exec by (unfold AoHeaderKind_BulkDenseContent; lia). rewrite lengths_word0.
    rewrite Z.shiftr_div_pow2 by lia. rewrite (field_or0 _ _ _ 10) by first [done | reflexivity | zlia].
    rewrite (Z.mod_small (dataLength / 2 ^ 11)) by zlia.
    unfold first_word, AoHeaderKind_BulkDenseContent, b2z.
    destruct first; apply header_eq; try lia.
    change 0x08000000 with (Z.land 0x08000000 (Z.shiftl 1 27)). set_field 27 1. change (1 mod 2 ^ 1) with 1. lia. }
  rewrite Hh. unfold bulk_words. destruct (Z.ltb_spec 0 compressedLength).
  - unfold AOBulkDenseContentHeaderInit_compressedLength, or_4_7. cbn [header_bytes_0_3 header_bytes_4_7].
    rewrite <- lengths_word0, lengths_word. done.
  - replace compressedLength with 0 by lia. done.
Qed.
End Words.

Lemma large_header_eq first exec rowCount contentLength :
  0 <= exec < 8 -> 0 <= rowCount < 2 ^ 25 -> 0 <= contentLength < 2 ^ 30 ->
  AOLargeContentHeaderInit_hasFirstRowNum (AOLargeContentHeaderInit_largeContentLength
    (AOLargeContentHeaderInit_largeRowCount (AOLargeContentHeaderInit_executorBlockKind
      (AOLargeContentHeaderInit_headerKind AOLargeContentHeaderInit_Init AoHeaderKind_LargeContent)
      exec) rowCount) contentLength) first
  = large_words first exec rowCount contentLength.
Proof.
  intros Hexec Hrow Hlen.
  unfold AOLargeContentHeaderInit_hasFirstRowNum, AOLargeContentHeaderInit_largeContentLength,
    AOLargeContentHeaderInit_largeRowCount, AOLargeContentHeaderInit_executorBlockKind,
    AOLargeContentHeaderInit_headerKind, AOLargeContentHeaderInit_Init, or_0_3, or_4_7.
  cbn [header_bytes_0_3 header_bytes_4_7].
  rewrite word_kind_exec by (unfold AoHeaderKind_LargeContent; lia).
  rewrite Z.shiftr_div_pow2 by lia. rewrite (field_or0 _ _ _ 23) by first [done | reflexivity | zlia].
  rewrite (field_or 0 _ rowCount 30 2) by done.
  rewrite (field_or0 _ _ _ 30) by first [done | reflexivity | zlia].
  rewrite (Z.mod_small contentLength), (Z.mod_small (rowCount / 2 ^ 2)) by zlia.
  unfold large_words, first_word, AoHeaderKind_LargeContent, b2z. destruct first; apply header_eq; try lia.
  change 0x08000000 with (Z.land 0x08000000 (Z.shiftl 1 27)). set_field 27 1. change (1 mod 2 ^ 1) with 1. lia.
Qed.

Lemma nonbulk_header_eq first exec rowCount dataLength :
  0 <= exec < 8 -> 0 <= rowCount < 2 ^ 30 -> 0 <= dataLength < 2 ^ 21 ->
  AONonBulkDenseContentHeaderInit_hasFirstRowNum (AONonBulkDenseContentHeaderInit_dataLength
    (AONonBulkDenseContentHeaderInit_largeRowCount (AONonBulkDenseContentHeaderInit_executorBlockKind
      (AONonBulkDenseContentHeaderInit_headerKind AONonBulkDenseContentHeaderInit_Init
         AoHeaderKind_NonBulkDenseContent) exec) rowCount) dataLength) first
  = nonbulk_words first exec rowCount dataLength.
Proof.
  intros Hexec Hrow Hlen.
  unfold AONonBulkDenseContentHeaderInit_hasFirstRowNum, AONonBulkDenseContentHeaderInit_dataLength,
    AONonBulkDenseContentHeaderInit_largeRowCount, AONonBulkDenseContentHeaderInit_executorBlockKind,
    AONonBulkDenseContentHeaderInit_headerKind, AONonBulkDenseContentHeaderInit_Init, or_0_3, or_4_7.
  cbn [header_bytes_0_3 header_bytes_4_7].
  rewrite word_kind_exec by (unfold AoHeaderKind_NonBulkDenseContent; lia).
  rewrite (field_or0 _ _ dataLength 21) by first [done | reflexivity | zlia].
  rewrite (field_or0 0 _ rowCount 30) by done. rewrite (Z.mod_small dataLength), (Z.mod_small rowCount) by lia.
  unfold nonbulk_words, first_word, AoHeaderKind_NonBulkDenseContent, b2z. destruct first; apply header_eq; try lia.
  change 0x08000000 with (Z.land 0x08000000 (Z.shiftl 1 27)). set_field 27 1. change (1 mod 2 ^ 1) with 1. lia.
Qed.

Lemma split_field_get v w hi lo :
  0 <= lo < 2 ^ 11 -> v mod 2 ^ 10 = hi -> (w / 2 ^ 21) mod 2 ^ 11 = lo ->
  Z.lor (Z.shiftl (Z.land v 0x000003FF) 11) (Z.shiftr (Z.land w 0xFFE00000) 21) = lo + 2 ^ 11 * hi.
Proof.
  intros Hlo <- Hw. get_field 21 11. rewrite Hw, (low_field v _ 10) by done. by apply lor_shiftl_join.
Qed.

Lemma small_fields first exec rowCount dataLength compressedLength :
  0 <= exec < 8 -> 0 <= rowCount < 2 ^ 14 -> 0 <= dataLength < 2 ^ 21 -> 0 <= compressedLength < 2 ^ 21 ->
  let h := small_words first exec rowCount dataLength compressedLength in
  AOSmallContentHeaderGet_rowCount h = rowCount /\ AOSmallContentHeaderGet_dataLength h = dataLength /\
  AOSmallContentHeaderGet_compressedLength h = compressedLength.
Proof.
  intros He Hr Hd Hc h. unfold AOSmallContentHeaderGet_rowCount, AOSmallContentHeaderGet_dataLength,
    AOSmallContentHeaderGet_compressedLength, h, small_words. cbn [header_bytes_0_3 header_bytes_4_7].
  split_and!.
  - get_field 10 14. unfold first_word, AoHeaderKind_SmallContent, b2z. destruct first; zlia.
  - rewrite (split_field_get _ _ (dataLength / 2 ^ 11) (dataLength mod 2 ^ 11)); [zlia | zlia | | zlia].
    unfold first_word, AoHeaderKind_SmallContent, b2z. destruct first; zlia.
  - rewrite (low_field _ _ 21) by done. zlia.
Qed.

Lemma bulk_fields first exec dataLength compressedLength :
  0 <= exec < 8 -> 0 <= dataLength < 2 ^ 21 -> 0 <= compressedLength < 2 ^ 21 ->
  let h := bulk_words first exec dataLength compressedLength in
  AOBulkDenseContentHeaderGet_dataLength h = dataLength /\
  AOBulkDenseContentHeaderGet_compressedLength h = compressedLength.
Proof.
  intros He Hd Hc h. unfold AOBulkDenseContentHeaderGet_dataLength,
    AOBulkDenseContentHeaderGet_compressedLength, h, bulk_words. cbn [header_bytes_0_3 header_bytes_4_7].
  split_and!.
  - rewrite (split_field_get _ _ (dataLength / 2 ^ 11) (dataLength mod 2 ^ 11)); [zlia | zlia | | zlia].
    unfold first_word, AoHeaderKind_BulkDenseContent, b2z. destruct first; zlia.
  - rewrite (low_field _ _ 21) by done. zlia.
Qed.

Lemma large_fields first exec rowCount contentLength :
  0 <= exec < 8 -> 0 <= rowCount < 2 ^ 25 -> 0 <= contentLength < 2 ^ 30 ->
  let h := large_words first exec rowCount contentLength in
  AOLargeContentHeaderGet_largeRowCount h = rowCount /\
  AOLargeContentHeaderGet_largeContentLength h = contentLength.
Proof.
  intros He Hr Hl h. unfold AOLargeContentHeaderGet_largeRowCount,
    AOLargeContentHeaderGet_largeContentLength, h, large_words. cbn [header_bytes_0_3 header_bytes_4_7].
  split_and!.
  - get_field 30 2. rewrite (low_field _ _ 23), lor_shiftl_join by (done || (unfold ubits; zlia)).
    unfold first_word, AoHeaderKind_LargeContent, b2z. destruct first; zlia.
  - rewrite (low_field _ _ 30) by done. zlia.
Qed.

Lemma nonbulk_fields first exec rowCount dataLength :
  0 <= exec < 8 -> 0 <= rowCount < 2 ^ 30 -> 0 <= dataLength < 2 ^ 21 ->
  let h := nonbulk_words first exec rowCount dataLength in
  AONonBulkDenseContentHeaderGet_largeRowCount h = rowCount /\
  AONonBulkDenseContentHeaderGet_dataLength h = dataLength.
Proof.
  intros He Hr Hl h. unfold AONonBulkDenseContentHeaderGet_largeRowCount,
    AONonBulkDenseContentHeaderGet_dataLength, h, nonbulk_words. cbn [header_bytes_0_3 header_bytes_4_7].
  rewrite (low_field _ _ 30), (low_field _ _ 21) by done.
  unfold first_word, AoHeaderKind_NonBulkDenseContent, b2z. destruct first; zlia.
Qed.

(** ** The layout of a block *)

Definition hb (h : AOHeader) : list Z := le_split 4 (header_bytes_0_3 h) ++ le_split 4 (header_bytes_4_7 h).

Definition words_ok (h : AOHeader) : Prop := ubits 32 (header_bytes_0_3 h) /\ ubits 32 (header_bytes_4_7 h).

Lemma zlen_hb h : zlen (hb h) = 8.
Proof. unfold hb. by rewrite zlen_app, !zlen_le_split. Qed.

Lemma hb_bytes h : Forall (ubits 8) (hb h).
Proof. apply Forall_app. split; apply le_split_bytes. Qed.

Lemma read_u32_mid (a c : list Z) v off :
  off = zlen a -> ubits 32 v -> read_u32 (a ++ le_split 4 v ++ c) off = Ok v.
Proof.
  intros -> Hv. unfold read_u32. rewrite mem_read_mid by (by rewrite ?zlen_le_split). cbn [mbind outcome_bind].
  rewrite le_join_split. change (256 ^ Z.of_nat 4) with (2 ^ 32). by rewrite Z.mod_small.
Qed.

Lemma read_header_mid (a c : list Z) h off :
  off = zlen a -> words_ok h -> read_header (a ++ hb h ++ c) off = Ok h.
Proof.
  intros -> [H0 H1]. destruct h as [w0 w1]. cbn in H0, H1. unfold read_header, hb. cbn [header_bytes_0_3 header_bytes_4_7].
  rewrite <- app_assoc. rewrite (read_u32_mid a (le_split 4 w1 ++ c) w0 _ eq_refl H0). cbn [mbind outcome_bind].
  rewrite app_assoc, (read_u32_mid (a ++ le_split 4 w0) c w1); [done | | done].
  by rewrite zlen_app, zlen_le_split.
Qed.

Lemma read_header_front (c : list Z) h : words_ok h -> read_header (hb h ++ c) 0 = Ok h.
Proof. by apply (read_header_mid []). Qed.

Lemma write_header_mid (a x c : list Z) h off :
  off = zlen a -> zlen x = 8 -> write_header (a ++ x ++ c) off h = Ok (a ++ hb h ++ c).
Proof.
  intros -> Hx. destruct (split_at x 4) as (x0 & x1 & -> & H0 & H1); [lia |].
  unfold write_header, write_u32. rewrite <- app_assoc.
  rewrite mem_write_mid by (done || (rewrite le_split_length; unfold zlen in H0; lia)). cbn [mbind outcome_bind].
  rewrite app_assoc, mem_write_mid; [| by rewrite zlen_app, zlen_le_split | rewrite le_split_length; unfold zlen in *; lia].
  unfold hb. by rewrite <- !app_assoc.
Qed.

Lemma read_s64_mid (a c : list Z) v off :
  off = zlen a -> - 2 ^ 63 <= v < 2 ^ 63 -> read_s64 (a ++ le_split 8 (u64 v) ++ c) off = Ok v.
Proof.
  intros -> Hv. unfold read_s64. rewrite mem_read_mid by (by rewrite ?zlen_le_split). cbn [mbind outcome_bind].
  rewrite le_join_split. change (256 ^ Z.of_nat 8) with (2 ^ 64). unfold u64, s64. f_equal.
  rewrite Z.mod_mod by lia. zlia.
Qed.

(** The optional parts of a header. *)
Definition first_part (first : bool) (v : Z) : list Z := if first then le_split 8 (u64 v) else [].

Definition opt_len (b : bool) : Z := if b then 8 else 0.

Lemma zlen_first_part first v : zlen (first_part first v) = opt_len first.
Proof. by destruct first. Qed.

Definition block_crc (addr : Z) (data : list Z) : Z := pg_comp_crc32c_sb8 (addr + 16) INIT_CRC32C data.
Definition header_crc (addr : Z) (h : AOHeader) (bcrc : Z) : Z :=
  pg_comp_crc32c_sb8 addr INIT_CRC32C (hb h ++ le_split 4 bcrc).

Lemma crc_ubits p data : Forall (ubits 8) data -> ubits 32 (pg_comp_crc32c_sb8 p INIT_CRC32C data).
Proof.
  intros Hd. assert (ubits 32 INIT_CRC32C) by (unfold ubits; vm_compute; done).
  rewrite pg_comp_crc32c_sb8_ok by done. by apply crc32c_ubits.
Qed.

Lemma Forall_take_bytes n (l : list Z) : Forall (ubits 8) l -> Forall (ubits 8) (take n l).
Proof. apply Forall_take. Qed.

Section Make.
  Context (addr : Z) (h : AOHeader) (long : bool).
  Context (Hwords : words_ok h) (Hlong : AoHeader_IsLong (AOSmallContentHeaderGet_headerKind h) = Ok long).

Lemma add_first_ok (c x f content : list Z) usingChecksums v :
  zlen c = opt_len usingChecksums -> zlen x = opt_len long -> zlen f = 8 ->
  AppendOnlyStorageFormat_AddFirstRowNum (hb h ++ c ++ x ++ f ++ content) usingChecksums v
  = Ok (hb h ++ c ++ x ++ le_split 8 (u64 v) ++ content).
Proof.
  intros Hc Hx Hf. unfold AppendOnlyStorageFormat_AddFirstRowNum. rewrite read_header_front by done.
  cbn [mbind outcome_bind]. rewrite Hlong. cbn [mbind outcome_bind]. unfold write_s64.
  rewrite (app_assoc c), (app_assoc (hb h)), mem_write_mid.
  - by rewrite <- !app_assoc.
  - rewrite !zlen_app, zlen_hb, Hc, Hx. unfold opt_len, AoHeader_RegularSize, AoHeader_LongSize, sizeof_crc.
    destruct long, usingChecksums; lia.
  - rewrite le_split_length. unfold zlen in Hf. lia.
Qed.

Lemma add_checksums_ok (c x f content : list Z) isCompressed cf version dataLength compressedLength rounded :
  zlen c = 8 -> zlen x = opt_len long -> Forall (ubits 8) (x ++ f ++ content) ->
  AOStorage_RoundUp (if isCompressed : bool then compressedLength else dataLength) version = Ok rounded ->
  0 <= rounded -> opt_len long + opt_len cf + rounded <= zlen (x ++ f ++ content) ->
  let data := take (Z.to_nat (opt_len long + opt_len cf + rounded)) (x ++ f ++ content) in
  AppendOnlyStorageFormat_AddBlockHeaderChecksums addr (hb h ++ c ++ x ++ f ++ content) isCompressed cf version
    dataLength compressedLength
  = Ok (hb h ++ le_split 4 (block_crc addr data) ++ le_split 4 (header_crc addr h (block_crc addr data))
        ++ x ++ f ++ content).
Proof.
  intros Hc Hx Hbytes Hround Hr Hlen data. unfold AppendOnlyStorageFormat_AddBlockHeaderChecksums.
  rewrite read_header_front by done. cbn [mbind outcome_bind]. rewrite Hlong. cbn [mbind outcome_bind].
  rewrite Hround. cbn [mbind outcome_bind]. unfold AppendOnlyStorageFormat_ComputeBlockChecksum.
  destruct (split_at c 4) as (c0 & c1 & -> & H0 & H1); [lia |].
  set (body := x ++ f ++ content) in *. rewrite <- app_assoc.
  assert (Hdata : forall n off, off = 16 -> n = opt_len long + opt_len cf + rounded ->
            mem_read (hb h ++ c0 ++ c1 ++ body) off n = Ok data).
  { intros n off -> ->. unfold data.
    destruct (split_at body (opt_len long + opt_len cf + rounded)) as (d & r & Hd & Hdl & _);
      [unfold opt_len in *; destruct long, cf; lia |]. rewrite Hd.
    rewrite take_app_length' by (unfold zlen in Hdl; lia).
    rewrite (app_assoc c0), (app_assoc (hb h)), (mem_read_mid _ d); [done | | done].
    rewrite !zlen_app, zlen_hb. lia. }
  unfold AoHeader_RegularSize, sizeof_crc in *. rewrite Hdata; [| lia | unfold opt_len; destruct long, cf; lia].
  cbn [mbind outcome_bind]. unfold write_u32. change (addr + (8 + 4 + 4)) with (addr + 16).
  fold (block_crc addr data).
  rewrite (mem_write_mid (hb h) c0) by (try rewrite zlen_hb; try rewrite le_split_length; unfold zlen in *; lia).
  cbn [mbind outcome_bind]. unfold AppendOnlyStorageFormat_ComputeHeaderChecksum.
  rewrite (app_assoc (hb h)), mem_read_front by (by rewrite zlen_app, zlen_hb, zlen_le_split).
  cbn [mbind outcome_bind]. fold (header_crc addr h (block_crc addr data)).
  rewrite mem_write_mid; [by rewrite <- !app_assoc | by rewrite zlen_app, zlen_hb, zlen_le_split |].
  rewrite le_split_length. unfold zlen in *. lia.
Qed.
End Make.

(** A block as the making functions leave it: [ext] is the extension header, [n]
    the number of bytes behind the checksums that the block checksum covers. *)
Definition made_block (addr : Z) (h : AOHeader) (usingChecksums : bool) (ext : list Z) (first : bool) (v : Z)
    (content : list Z) (n : Z) : list Z :=
  let body := ext ++ first_part first v ++ content in
  let bcrc := block_crc addr (take (Z.to_nat n) body) in
  hb h ++ (if usingChecksums then le_split 4 bcrc ++ le_split 4 (header_crc addr h bcrc) else []) ++ body.

Section Tail.
  Context (addr : Z) (h : AOHeader) (long : bool).
  Context (Hwords : words_ok h) (Hlong : AoHeader_IsLong (AOSmallContentHeaderGet_headerKind h) = Ok long).

(** The end of every making function. *)
Definition make_tail (buf : list Z) (usingChecksums hasFirst isCompressed cf : bool)
    (version v dataLength compressedLength : Z) : outcome (list Z) :=
  buf ← (if hasFirst then AppendOnlyStorageFormat_AddFirstRowNum buf usingChecksums v else Ok buf);
  if usingChecksums
  then AppendOnlyStorageFormat_AddBlockHeaderChecksums addr buf isCompressed cf version dataLength compressedLength
  else Ok buf.

Lemma first_part_bytes first v : Forall (ubits 8) (first_part first v).
Proof. destruct first; [apply le_split_bytes | constructor]. Qed.

Lemma make_tail_ok (c x f content : list Z) usingChecksums hasFirst isCompressed cf version v
    dataLength compressedLength rounded :
  zlen c = opt_len usingChecksums -> zlen x = opt_len long -> zlen f = opt_len hasFirst ->
  Forall (ubits 8) x -> Forall (ubits 8) content ->
  AOStorage_RoundUp (if isCompressed : bool then compressedLength else dataLength) version = Ok rounded ->
  0 <= rounded -> (cf = true -> hasFirst = true) -> rounded <= zlen content ->
  make_tail (hb h ++ c ++ x ++ f ++ content) usingChecksums hasFirst isCompressed cf version v
    dataLength compressedLength
  = Ok (made_block addr h usingChecksums x hasFirst v content (opt_len long + opt_len cf + rounded)).
Proof.
  intros Hc Hx Hf Bx Bc Hround Hr Hcf Hlen. unfold make_tail.
  assert (E : (if hasFirst then AppendOnlyStorageFormat_AddFirstRowNum (hb h ++ c ++ x ++ f ++ content) usingChecksums v
               else Ok (hb h ++ c ++ x ++ f ++ content))
              = Ok (hb h ++ c ++ x ++ first_part hasFirst v ++ content)).
  { destruct hasFirst; [by apply (add_first_ok h long) |].
    destruct f; [done | unfold zlen in Hf; cbn in Hf; lia]. }
  rewrite E. cbn [mbind outcome_bind]. unfold made_block. destruct usingChecksums.
  - rewrite (add_checksums_ok addr h long Hwords Hlong _ _ _ _ _ _ _ _ _ rounded); try done.
    + apply Forall_app. split; [done |]. apply Forall_app. split; [apply first_part_bytes | done].
    + rewrite !zlen_app, zlen_first_part, Hx. destruct cf; [rewrite Hcf by done |]; unfold opt_len; [lia |].
      destruct hasFirst; lia.
  - by destruct c; [| unfold zlen in Hc; cbn in Hc; lia].
Qed.
End Tail.

(** The checksums of a made block verify. *)
Lemma made_block_verifies addr h ext first v content n :
  Forall (ubits 8) ext -> Forall (ubits 8) content ->
  0 <= n <= zlen (ext ++ first_part first v ++ content) ->
  let buf := made_block addr h true ext first v content n in
  (exists s c, AppendOnlyStorageFormat_VerifyHeaderChecksum addr buf = Ok (true, s, c)) /\
  (exists s c, AppendOnlyStorageFormat_VerifyBlockChecksum addr buf (16 + n) = Ok (true, s, c)).
Proof.
  intros Be Bc Hn buf. unfold buf, made_block. set (body := ext ++ first_part first v ++ content) in *.
  set (data := take (Z.to_nat n) body). set (bcrc := block_crc addr data).
  assert (Hbody : Forall (ubits 8) body).
  { apply Forall_app. split; [done |]. apply Forall_app. split; [apply first_part_bytes | done]. }
  assert (Hb : ubits 32 bcrc) by (apply crc_ubits, Forall_take_bytes, Hbody).
  assert (Hh : ubits 32 (header_crc addr h bcrc)).
  { apply crc_ubits, Forall_app. split; [apply hb_bytes | apply le_split_bytes]. }
  rewrite <- app_assoc. split.
  - unfold AppendOnlyStorageFormat_VerifyHeaderChecksum. rewrite (app_assoc (hb h)).
    rewrite (read_u32_mid (hb h ++ le_split 4 bcrc)) by (try rewrite zlen_app, zlen_hb, zlen_le_split; done).
    cbn [mbind outcome_bind]. unfold AppendOnlyStorageFormat_ComputeHeaderChecksum.
    rewrite mem_read_front by (by rewrite zlen_app, zlen_hb, zlen_le_split). cbn [mbind outcome_bind].
    fold (header_crc addr h bcrc). rewrite Z.eqb_refl. eauto.
  - unfold AppendOnlyStorageFormat_VerifyBlockChecksum.
    rewrite (read_u32_mid (hb h)) by (try rewrite zlen_hb; done). cbn [mbind outcome_bind].
    unfold AppendOnlyStorageFormat_ComputeBlockChecksum, AoHeader_RegularSize, sizeof_crc.
    destruct (split_at body n Hn) as (d & r & Hd & Hdl & _).
    assert (Hdd : data = d) by (unfold data; rewrite Hd, take_app_length' by (unfold zlen in Hdl; lia); done).
    rewrite Hd, (app_assoc (le_split 4 bcrc)), (app_assoc (hb h)), (mem_read_mid _ d); [| | lia].
    + cbn [mbind outcome_bind]. change (addr + (8 + 4 + 4)) with (addr + 16). fold (block_crc addr d).
      rewrite <- Hdd. fold bcrc. rewrite Z.eqb_refl. eauto.
    + by rewrite !zlen_app, zlen_hb, !zlen_le_split.
Qed.

(** ** Writers and readers of blocks *)

(** The header made at the end of [AppendOnlyStorageWrite_CompressAppend], for
    content that went through the compressor ([compressedLength] is 0 when
    compression did not pay). *)
Definition CompressAppend_header (kind addr : Z) (buf : list Z) (usingChecksums hasFirstRowNum : bool)
    (version firstRowNum executorKind rowCount dataLength compressedLength : Z) : outcome (list Z) :=
  if kind =? AoHeaderKind_SmallContent then
    AppendOnlyStorageFormat_MakeSmallContentHeader addr buf usingChecksums hasFirstRowNum version firstRowNum
      executorKind rowCount dataLength compressedLength
  else if kind =? AoHeaderKind_BulkDenseContent then
    AppendOnlyStorageFormat_MakeBulkDenseContentHeader addr buf usingChecksums hasFirstRowNum version firstRowNum
      executorKind rowCount dataLength compressedLength
  else Err "unexpected Append-Only header kind".

(** The header made by [AppendOnlyStorageWrite_FinishBuffer], without compression. *)
Definition FinishBuffer_header (kind addr : Z) (buf : list Z) (usingChecksums hasFirstRowNum : bool)
    (version firstRowNum executorKind rowCount dataLength : Z) : outcome (list Z) :=
  if kind =? AoHeaderKind_SmallContent then
    AppendOnlyStorageFormat_MakeSmallContentHeader addr buf usingChecksums hasFirstRowNum version firstRowNum
      executorKind rowCount dataLength 0
  else if kind =? AoHeaderKind_NonBulkDenseContent then
    AppendOnlyStorageFormat_MakeNonBulkDenseContentHeader addr buf usingChecksums hasFirstRowNum version firstRowNum
      executorKind rowCount dataLength
  else Err "Unexpected Append-Only header kind".

(** The two ways a block is written. *)
Definition write_header_of (compress : bool) (kind addr : Z) (buf : list Z) (usingChecksums hasFirstRowNum : bool)
    (version firstRowNum executorKind rowCount dataLength compressedLength : Z) : outcome (list Z) :=
  if compress
  then CompressAppend_header kind addr buf usingChecksums hasFirstRowNum version firstRowNum executorKind rowCount
         dataLength compressedLength
  else FinishBuffer_header kind addr buf usingChecksums hasFirstRowNum version firstRowNum executorKind rowCount
         dataLength.

Definition write_kind (compress : bool) (kind compressedLength : Z) : Prop :=
  if compress then kind = AoHeaderKind_SmallContent \/ kind = AoHeaderKind_BulkDenseContent
  else (kind = AoHeaderKind_SmallContent \/ kind = AoHeaderKind_NonBulkDenseContent) /\ compressedLength = 0.

(** The making functions by kind, whichever way the block is written. *)
Definition make_data_header (kind addr : Z) (buf : list Z) (usingChecksums hasFirstRowNum : bool)
    (version firstRowNum executorKind rowCount dataLength compressedLength : Z) : outcome (list Z) :=
  if kind =? AoHeaderKind_SmallContent then
    AppendOnlyStorageFormat_MakeSmallContentHeader addr buf usingChecksums hasFirstRowNum version firstRowNum
      executorKind rowCount dataLength compressedLength
  else if kind =? AoHeaderKind_NonBulkDenseContent then
    AppendOnlyStorageFormat_MakeNonBulkDenseContentHeader addr buf usingChecksums hasFirstRowNum version firstRowNum
      executorKind rowCount dataLength
  else if kind =? AoHeaderKind_BulkDenseContent then
    AppendOnlyStorageFormat_MakeBulkDenseContentHeader addr buf usingChecksums hasFirstRowNum version firstRowNum
      executorKind rowCount dataLength compressedLength
  else Err "unexpected Append-Only header kind".

(** The part of [AppendOnlyStorageRead_ReadNextBlock] that examines the header of
    the block the file is positioned at: the kind, the length of the header, the
    outputs and whether it announces large content. *)
Definition ReadNextBlock_header (addr : Z) (buf : list Z) (checksum verify_block_checksums : bool)
    (version blockLimitLen : Z) : outcome (Z * Z * AOBlockInfo * bool) :=
  valid ← (if checksum && verify_block_checksums
           then '(ok, _, _) ← AppendOnlyStorageFormat_VerifyHeaderChecksum addr buf; Ok ok
           else Ok true);
  if negb valid then Err "header checksum does not match"
  else
    r ← AppendOnlyStorageFormat_GetHeaderInfo buf checksum;
    match r with
    | inl _ => Err "bad append-only storage header"
    | inr (kind, headerLen) =>
        if kind =? AoHeaderKind_SmallContent then
          r ← AppendOnlyStorageFormat_GetSmallContentHeaderInfo buf headerLen checksum blockLimitLen version;
          match r with
          | inl _ => Err "bad append-only storage header of type small content"
          | inr info => Ok (kind, headerLen, info, false)
          end
        else if kind =? AoHeaderKind_LargeContent then
          r ← AppendOnlyStorageFormat_GetLargeContentHeaderInfo buf headerLen checksum;
          match r with
          | inl _ => Err "bad append-only storage header of type large content"
          | inr (len, exec, has, first, rows) =>
              Ok (kind, headerLen, mkAOBlockInfo 0 0 len exec has first rows false 0, true)
          end
        else if kind =? AoHeaderKind_NonBulkDenseContent then
          r ← AppendOnlyStorageFormat_GetNonBulkDenseContentHeaderInfo buf headerLen checksum blockLimitLen version;
          match r with
          | inl _ => Err "bad append-only storage header of type non-bulk dense content"
          | inr info => Ok (kind, headerLen, info, false)
          end
        else if kind =? AoHeaderKind_BulkDenseContent then
          r ← AppendOnlyStorageFormat_GetBulkDenseContentHeaderInfo buf headerLen checksum blockLimitLen version;
          match r with
          | inl _ => Err "bad append-only storage header of type bulk dense content"
          | inr info => Ok (kind, headerLen, info, false)
          end
        else Err "unexpected append-only header kind"
    end.

(** The part of [AppendOnlyStorageRead_InternalGetBuffer] that checks the block
    checksum before the content is used. *)
Definition InternalGetBuffer_verify (addr : Z) (buf : list Z) (checksum verify_block_checksums : bool)
    (overallBlockLen : Z) : outcome unit :=
  if checksum && verify_block_checksums then
    '(ok, _, _) ← AppendOnlyStorageFormat_VerifyBlockChecksum addr buf overallBlockLen;
    if ok : bool then Ok tt else Err "block checksum does not match"
  else Ok tt.

Lemma round_up_ok l version :
  0 <= l -> AOSegfileFormatVersion_IsValid version = true ->
  exists r, AOStorage_RoundUp l version = Ok r /\ l <= r <= l + 7.
Proof.
  intros Hl Hv. unfold AOStorage_RoundUp, AOStorage_RoundUp4, AOStorage_RoundUp8. rewrite Hv. cbn [negb].
  eexists. split; [done |]. rewrite !Z.quot_div_nonneg by lia. destruct (1 <? version); zlia.
Qed.

(** The parts of a buffer that the header, checksums, extension and first row
    number of a block will occupy. *)
Lemma block_parts (buf : list Z) (usingChecksums long first : bool) rounded :
  0 <= rounded -> AoHeader_Size long usingChecksums first + rounded <= zlen buf ->
  exists h0 c x f content, buf = h0 ++ c ++ x ++ f ++ content /\
    zlen h0 = 8 /\ zlen c = opt_len usingChecksums /\ zlen x = opt_len long /\ zlen f = opt_len first /\
    rounded <= zlen content /\ content = drop (Z.to_nat (AoHeader_Size long usingChecksums first)) buf.
Proof.
  unfold AoHeader_Size, AoHeader_LongSize, AoHeader_RegularSize, sizeof_crc. intros Hr Hlen.
  assert (Hn : 0 <= opt_len usingChecksums /\ 0 <= opt_len long /\ 0 <= opt_len first)
    by (unfold opt_len; destruct usingChecksums, long, first; lia).
  assert (Hsize : 8 + opt_len usingChecksums + opt_len long + opt_len first + rounded <= zlen buf)
    by (unfold opt_len; destruct usingChecksums, long, first; lia).
  destruct (split_at buf 8) as (h0 & b1 & E1 & L1 & R1); [lia |].
  destruct (split_at b1 (opt_len usingChecksums)) as (c & b2 & E2 & L2 & R2); [lia |].
  destruct (split_at b2 (opt_len long)) as (x & b3 & E3 & L3 & R3); [lia |].
  destruct (split_at b3 (opt_len first)) as (f & content & E4 & L4 & R4); [lia |].
  subst. exists h0, c, x, f, content. split_and!; try done; [lia |].
  rewrite !app_assoc, drop_app_length'; [done |]. rewrite !length_app. unfold zlen in *.
  unfold opt_len in *. destruct usingChecksums, long, first; lia.
Qed.

(** ** Reading a made block *)

Section Made.
  Context (addr : Z) (h : AOHeader) (chk first : bool) (ext : list Z) (v : Z) (content : list Z) (n : Z).
  Context (Hwords : words_ok h).

  Local Notation buf := (made_block addr h chk ext first v content n).

Lemma made_header : read_header buf 0 = Ok h.
Proof. unfold made_block. by apply read_header_front. Qed.

Lemma made_sums_length :
  zlen (if chk then le_split 4 (block_crc addr (take (Z.to_nat n) (ext ++ first_part first v ++ content))) ++
          le_split 4 (header_crc addr h (block_crc addr (take (Z.to_nat n) (ext ++ first_part first v ++ content))))
        else []) = opt_len chk.
Proof. destruct chk; [by rewrite zlen_app, !zlen_le_split | done]. Qed.

Lemma made_ext e off :
  ext = hb e -> words_ok e -> off = 8 + opt_len chk -> read_header buf off = Ok e.
Proof.
  intros He We ->. pose proof made_sums_length as Hs. unfold made_block. cbv zeta in *.
  set (sums := if chk then _ else _) in *. rewrite He, (app_assoc (hb h)).
  rewrite read_header_mid; [done | | done]. rewrite zlen_app, zlen_hb. lia.
Qed.

Lemma made_first off :
  - 2 ^ 63 <= v < 2 ^ 63 -> off = 8 + opt_len chk + zlen ext ->
  get_firstRowNum buf first off = Ok (if first then v else -1, off + opt_len first).
Proof.
  intros Hv ->. unfold get_firstRowNum. destruct first eqn:Ef; [| by rewrite Z.add_0_r].
  pose proof made_sums_length as Hs. unfold made_block. cbv zeta in *. rewrite Ef in *. cbn [first_part] in *.
  set (sums := if chk then _ else _) in *.
  rewrite (app_assoc sums), (app_assoc (hb h)), read_s64_mid; [done | | done].
  rewrite !zlen_app, zlen_hb. lia.
Qed.
End Made.

(** ** The three kinds of data blocks *)

(** The parameters of a header are in the ranges of its fields. *)
Record params_ok (kind exec rows dl cl v version : Z) : Prop := {
  po_exec : 0 <= exec < 8;
  po_rows : 0 <= rows < (if kind =? AoHeaderKind_SmallContent then 2 ^ 14 else 2 ^ 30);
  po_dl : 0 <= dl < 2 ^ 21;
  po_cl : 0 <= cl <= dl;
  po_nonbulk : kind = AoHeaderKind_NonBulkDenseContent -> cl = 0;
  po_first : - 2 ^ 63 <= v < 2 ^ 63;
  po_version : AOSegfileFormatVersion_IsValid version = true
}.

Definition data_words (kind : Z) (first : bool) (exec rows dl cl : Z) : AOHeader :=
  if kind =? AoHeaderKind_SmallContent then small_words first exec rows dl cl
  else if kind =? AoHeaderKind_NonBulkDenseContent then nonbulk_words first exec rows dl
  else bulk_words first exec dl cl.

Definition data_ext (kind rows : Z) : list Z :=
  if kind =? AoHeaderKind_BulkDenseContent then hb (mkAOHeader 0 rows) else [].

Definition is_data_kind (kind : Z) : Prop :=
  kind = AoHeaderKind_SmallContent \/ kind = AoHeaderKind_NonBulkDenseContent \/ kind = AoHeaderKind_BulkDenseContent.

Definition is_long (kind : Z) : bool := kind =? AoHeaderKind_BulkDenseContent.

Section Data.
  Context (kind exec rows dl cl v version : Z) (first : bool).
  Context (Hk : is_data_kind kind) (P : params_ok kind exec rows dl cl v version).

  Local Notation h := (data_words kind first exec rows dl cl).

Lemma data_words_first_word : exists low, header_bytes_0_3 h = first_word kind first exec low /\ 0 <= low < 2 ^ 24.
Proof.
  destruct P as [He Hr Hd Hc _ _ _]. destruct Hk as [-> | [-> | ->]]; eexists; (split; [reflexivity |]); cbn in Hr; zlia.
Qed.

Lemma data_kind_range : 0 <= kind < 5.
Proof. destruct Hk as [-> | [-> | ->]]; cbv; split; congruence. Qed.

Lemma data_words_ok : words_ok h.
Proof.
  destruct data_words_first_word as (low & E & Hlow). pose proof data_kind_range. split.
  - rewrite E. apply first_word_bounds; [done | apply P | done].
  - destruct P as [He Hr Hd Hc _ _ _]. unfold ubits. destruct Hk as [-> | [-> | ->]]; cbn in Hr |- *; zlia.
Qed.

Lemma data_header_kind : AOSmallContentHeaderGet_headerKind h = kind.
Proof.
  destruct data_words_first_word as (low & E & Hlow). pose proof data_kind_range.
  destruct (first_word_kind kind first exec low 0) as [Ek _]; [done | apply P | done |].
  unfold AOSmallContentHeaderGet_headerKind, AOHeaderGet_headerKind in *. cbn in Ek. by rewrite E.
Qed.

Lemma data_is_long : AoHeader_IsLong (AOSmallContentHeaderGet_headerKind h) = Ok (is_long kind).
Proof. rewrite data_header_kind. by destruct Hk as [-> | [-> | ->]]. Qed.

Lemma data_exec : Z.shiftr (Z.land (header_bytes_0_3 h) 0x07000000) 24 = exec.
Proof.
  destruct data_words_first_word as (low & E & Hlow). pose proof data_kind_range.
  rewrite E. apply (first_word_exec kind first exec low 0); [done | apply P | done].
Qed.

Lemma data_first : negb (Z.shiftr (Z.land (header_bytes_0_3 h) 0x08000000) 27 =? 0) = first.
Proof.
  destruct data_words_first_word as (low & E & Hlow). pose proof data_kind_range.
  rewrite E. apply (first_word_first kind first exec low 0); [done | apply P | done].
Qed.

Lemma zlen_data_ext : zlen (data_ext kind rows) = opt_len (is_long kind).
Proof. by destruct Hk as [-> | [-> | ->]]. Qed.

Lemma data_ext_bytes : Forall (ubits 8) (data_ext kind rows).
Proof. unfold data_ext. destruct (kind =? _); [apply hb_bytes | constructor]. Qed.

Lemma data_size (chk : bool) :
  AoHeader_Size (is_long kind) chk first = 8 + opt_len chk + opt_len (is_long kind) + opt_len first.
Proof.
  unfold AoHeader_Size, AoHeader_LongSize, AoHeader_RegularSize, sizeof_crc, opt_len.
  destruct (is_long kind), chk, first; lia.
Qed.

(** The basic header check of a made block. *)
Lemma data_header_info addr chk content n :
  AppendOnlyStorageFormat_GetHeaderInfo (made_block addr h chk (data_ext kind rows) first v content n) chk
  = Ok (inr (kind, AoHeader_Size (is_long kind) chk first)).
Proof.
  unfold AppendOnlyStorageFormat_GetHeaderInfo. rewrite made_header by apply data_words_ok.
  cbn [mbind outcome_bind]. destruct data_words_first_word as (low & E & Hlow). pose proof data_kind_range as Hr.
  pose proof (po_exec _ _ _ _ _ _ _ P) as He.
  destruct (first_word_kind kind first exec low 0 Hr He Hlow) as [Ek Er].
  unfold AOHeaderGet_headerKind, AOHeaderGet_reserved0 in *. cbn [header_bytes_0_3] in *. rewrite E, Er, Ek.
  assert (Hz : first_word kind first exec low <> 0).
  { unfold first_word, b2z. assert (kind <> 0) by (by destruct Hk as [-> | [-> | ->]]). destruct first; lia. }
  replace (first_word kind first exec low =? 0) with false by lia. cbn [negb Z.eqb].
  unfold AOSmallContentHeaderGet_hasFirstRowNum, AOLargeContentHeaderGet_hasFirstRowNum,
    AONonBulkDenseContentHeaderGet_hasFirstRowNum, AOBulkDenseContentHeaderGet_hasFirstRowNum.
  rewrite data_first. rewrite data_size.
  destruct Hk as [-> | [-> | ->]]; cbn; unfold opt_len, is_long, AoHeader_RegularSize, AoHeader_LongSize, sizeof_crc;
    cbn; destruct chk, first; done.
Qed.
End Data.

Section MakeData.
  Context (kind exec rows dl cl v version rounded : Z) (first chk : bool) (addr : Z) (buf : list Z).
  Context (Hk : is_data_kind kind) (P : params_ok kind exec rows dl cl v version).
  Context (Hround : AOStorage_RoundUp (if 0 <? cl then cl else dl) version = Ok rounded) (Hr0 : 0 <= rounded).
  Context (Hlen : AoHeader_Size (is_long kind) chk first + rounded <= zlen buf) (Hbytes : Forall (ubits 8) buf).

  Local Notation h := (data_words kind first exec rows dl cl).
  Local Notation content := (drop (Z.to_nat (AoHeader_Size (is_long kind) chk first)) buf).
  Local Notation covered := (opt_len (is_long kind) + opt_len first + rounded).

(** After the header, and the extension if any, are written. *)
Lemma data_tail (c x f cont : list Z) :
  zlen c = opt_len chk -> zlen f = opt_len first -> x = data_ext kind rows -> cont = content ->
  rounded <= zlen cont ->
  make_tail addr (hb h ++ c ++ x ++ f ++ cont) chk first (0 <? cl) first version v dl cl
  = Ok (made_block addr h chk (data_ext kind rows) first v content covered).
Proof.
  intros Hc Hf -> -> Hrc.
  rewrite (make_tail_ok addr h (is_long kind) (data_words_ok kind exec rows dl cl v version first Hk P)
             (data_is_long kind exec rows dl cl v version first Hk P) _ _ _ _ _ _ _ _ _ _ _ _ rounded); try done.
  - by eapply zlen_data_ext.
  - by eapply data_ext_bytes.
  - by apply Forall_drop.
Qed.

Lemma data_make :
  make_data_header kind addr buf chk first version v exec rows dl cl
  = Ok (made_block addr h chk (data_ext kind rows) first v content covered).
Proof.
  destruct (block_parts buf chk (is_long kind) first rounded Hr0 Hlen)
    as (h0 & c & x & f & cont & Hbuf & L0 & Lc & Lx & Lf & Hrc & Hcont).
  pose proof data_tail as T. destruct P as [He Hr Hd Hc Hnb Hv Hver].
  assert (Hcl : 0 <= cl < 2 ^ 21) by lia.
  assert (W : write_header buf 0 h = Ok (hb h ++ c ++ x ++ f ++ cont)).
  { rewrite Hbuf. by apply (write_header_mid []). }
  unfold make_data_header. destruct Hk as [-> | [-> | ->]]; cbn [Z.eqb AoHeaderKind_SmallContent
    AoHeaderKind_NonBulkDenseContent AoHeaderKind_BulkDenseContent Pos.eqb] in *.
  - unfold AppendOnlyStorageFormat_MakeSmallContentHeader. cbv zeta. rewrite small_header_eq by done.
    rewrite (W : write_header buf 0 (small_words first exec rows dl cl) = _). cbn [mbind outcome_bind].
    apply (T c x f cont); try done. destruct x; [done | unfold zlen in Lx; cbn in Lx; lia].
  - unfold AppendOnlyStorageFormat_MakeNonBulkDenseContentHeader. cbv zeta. rewrite nonbulk_header_eq by done.
    rewrite (W : write_header buf 0 (nonbulk_words first exec rows dl) = _). cbn [mbind outcome_bind].
    rewrite Hnb in T by done. apply (T c x f cont); try done. destruct x; [done | unfold zlen in Lx; cbn in Lx; lia].
  - unfold AppendOnlyStorageFormat_MakeBulkDenseContentHeader. cbv zeta. rewrite bulk_header_eq by done.
    rewrite (W : write_header buf 0 (bulk_words first exec dl cl) = _). cbn [mbind outcome_bind].
    assert (Hext : AOBulkDenseContentHeaderExtInit_largeRowCount AOBulkDenseContentHeaderExtInit_Init rows
                   = mkAOHeader 0 rows).
    { unfold AOBulkDenseContentHeaderExtInit_largeRowCount, AOBulkDenseContentHeaderExtInit_Init, or_4_7.
      cbn [header_bytes_0_3 header_bytes_4_7]. rewrite (field_or0 0 _ rows 30) by done.
      rewrite Z.mod_small by lia. done. }
    rewrite Hext, (app_assoc (hb _) c), write_header_mid; [| | done].
    + cbn [mbind outcome_bind]. rewrite <- app_assoc. by apply (T c (hb _) f cont).
    + rewrite zlen_app, zlen_hb, Lc. by destruct chk.
Qed.
End MakeData.

(** The outputs of a reader. *)
Definition data_info (kind exec rows dl cl v rounded : Z) (first chk : bool) : AOBlockInfo :=
  let size := AoHeader_Size (is_long kind) chk first in
  mkAOBlockInfo (size + rounded) size dl exec first (if first then v else -1) rows (negb (cl =? 0)) cl.

Section ReadData.
  Context (kind exec rows dl cl v version rounded limit : Z) (first chk : bool) (addr : Z) (content : list Z) (n : Z).
  Context (Hk : is_data_kind kind) (P : params_ok kind exec rows dl cl v version).
  Context (Hround : AOStorage_RoundUp (if 0 <? cl then cl else dl) version = Ok rounded).
  Context (Hlimit : AoHeader_Size (is_long kind) chk first + rounded <= limit).

  Local Notation h := (data_words kind first exec rows dl cl).
  Local Notation buf := (made_block addr h chk (data_ext kind rows) first v content n).
  Local Notation size := (AoHeader_Size (is_long kind) chk first).

Lemma check_lengths_ok (info : Z -> bool -> AOBlockInfo) :
  check_lengths version limit size dl cl info = Ok (inr (info (size + rounded) (negb (cl =? 0)))).
Proof.
  destruct P as [_ _ Hd Hc _ _ _]. unfold check_lengths. replace (dl <? cl) with false by lia. rewrite andb_false_r.
  replace (negb (cl =? 0)) with (0 <? cl) by lia. rewrite Hround. cbn [mbind outcome_bind].
  by replace (limit <? size + rounded) with false by lia.
Qed.

Lemma data_get_first off :
  off = 8 + opt_len chk + opt_len (is_long kind) ->
  get_firstRowNum buf first off = Ok (if first then v else -1, size).
Proof.
  intros ->. rewrite data_size. apply (made_first addr h chk first (data_ext kind rows) v content n).
  - apply P.
  - by erewrite zlen_data_ext.
Qed.

Lemma data_read_info :
  (if kind =? AoHeaderKind_SmallContent then
     AppendOnlyStorageFormat_GetSmallContentHeaderInfo buf size chk limit version
   else if kind =? AoHeaderKind_NonBulkDenseContent then
     AppendOnlyStorageFormat_GetNonBulkDenseContentHeaderInfo buf size chk limit version
   else AppendOnlyStorageFormat_GetBulkDenseContentHeaderInfo buf size chk limit version)
  = Ok (inr (data_info kind exec rows dl cl v rounded first chk)).
Proof.
  pose proof data_get_first as F. pose proof check_lengths_ok as L.
  pose proof (made_header addr h chk first (data_ext kind rows) v content n
                (data_words_ok kind exec rows dl cl v version first Hk P)) as Hh.
  pose proof (data_exec kind exec rows dl cl v version first Hk P) as Ee.
  pose proof (data_first kind exec rows dl cl v version first Hk P) as Ef.
  pose proof P as P'. destruct P' as [He Hr Hd Hc Hnb Hv Hver]. assert (Hcl : 0 <= cl < 2 ^ 21) by lia.
  destruct Hk as [E | [E | E]]; subst kind; cbn [Z.eqb AoHeaderKind_SmallContent
    AoHeaderKind_NonBulkDenseContent AoHeaderKind_BulkDenseContent Pos.eqb] in *.
  - unfold AppendOnlyStorageFormat_GetSmallContentHeaderInfo. rewrite Hh. cbn [mbind outcome_bind].
    unfold AOSmallContentHeaderGet_executorBlockKind, AOSmallContentHeaderGet_hasFirstRowNum. rewrite Ee, Ef.
    rewrite F by (by destruct chk). cbn [mbind outcome_bind]. rewrite Z.eqb_refl. cbn [negb].
    destruct (small_fields first exec rows dl cl He Hr Hd Hcl) as (Er & Ed & Ec).
    change (data_words AoHeaderKind_SmallContent first exec rows dl cl) with (small_words first exec rows dl cl).
    rewrite Er, Ed, Ec. apply L.
  - unfold AppendOnlyStorageFormat_GetNonBulkDenseContentHeaderInfo. rewrite Hh. cbn [mbind outcome_bind].
    unfold AONonBulkDenseContentHeaderGet_executorBlockKind, AONonBulkDenseContentHeaderGet_hasFirstRowNum.
    rewrite Ee, Ef. rewrite F by (by destruct chk). cbn [mbind outcome_bind]. rewrite Z.eqb_refl. cbn [negb].
    destruct (nonbulk_fields first exec rows dl He Hr Hd) as (Er & Ed).
    change (data_words AoHeaderKind_NonBulkDenseContent first exec rows dl cl) with (nonbulk_words first exec rows dl).
    rewrite Er, Ed. unfold data_info. rewrite Hnb in * by done. rewrite (Hround : AOStorage_RoundUp dl version = _). cbn [mbind outcome_bind].
    by replace (limit <? _) with false by lia.
  - unfold AppendOnlyStorageFormat_GetBulkDenseContentHeaderInfo. rewrite Hh. cbn [mbind outcome_bind].
    rewrite (made_ext addr _ chk first _ v content n (mkAOHeader 0 rows));
      [| done | unfold words_ok, ubits; cbn; lia | by destruct chk].
    cbn [mbind outcome_bind]. unfold AOBulkDenseContentHeaderGet_executorBlockKind, AOBulkDenseContentHeaderGet_hasFirstRowNum.
    rewrite Ee, Ef. rewrite F by (by destruct chk). cbn [mbind outcome_bind]. rewrite Z.eqb_refl. cbn [negb].
    destruct (bulk_fields first exec dl cl He Hd Hcl) as (Ed & Ec).
    change (data_words AoHeaderKind_BulkDenseContent first exec rows dl cl) with (bulk_words first exec dl cl).
    rewrite Ed, Ec. unfold AOBulkDenseContentHeaderExtGet_largeRowCount. cbn [header_bytes_4_7].
    rewrite (low_field rows _ 30), (Z.mod_small rows) by (done || lia). apply L.
Qed.
End ReadData.

(** ** Large content headers *)

Record large_ok (exec rows len v version : Z) : Prop := {
  lo_exec : 0 <= exec < 8;
  lo_rows : 0 <= rows < 2 ^ 25;
  lo_len : 0 < len < 2 ^ 30;
  lo_first : - 2 ^ 63 <= v < 2 ^ 63;
  lo_version : AOSegfileFormatVersion_IsValid version = true
}.

Section Large.
  Context (exec rows len v version : Z) (first chk : bool) (P : large_ok exec rows len v version).

  Local Notation h := (large_words first exec rows len).

Lemma large_low : 0 <= rows / 2 ^ 2 < 2 ^ 24.
Proof. destruct P. zlia. Qed.

Lemma large_words_ok : words_ok h.
Proof.
  split; [apply first_word_bounds; [done | apply P | apply large_low] |].
  destruct P. unfold ubits. cbn. zlia.
Qed.

Lemma large_kind : AOSmallContentHeaderGet_headerKind h = AoHeaderKind_LargeContent.
Proof. by destruct (first_word_kind AoHeaderKind_LargeContent first exec (rows / 2 ^ 2) 0) as [Ek _];
  [| apply P | apply large_low |]. Qed.

Lemma large_first : AOLargeContentHeaderGet_hasFirstRowNum h = first.
Proof. apply (first_word_first AoHeaderKind_LargeContent first exec (rows / 2 ^ 2) 0); [done | apply P | apply large_low]. Qed.

Lemma large_exec : AOLargeContentHeaderGet_executorBlockKind h = exec.
Proof. apply (first_word_exec AoHeaderKind_LargeContent first exec (rows / 2 ^ 2) 0); [done | apply P | apply large_low]. Qed.

Lemma large_make addr buf :
  AoHeader_Size false chk first <= zlen buf -> Forall (ubits 8) buf ->
  AppendOnlyStorageFormat_MakeLargeContentHeader addr buf chk first version v exec rows len
  = Ok (made_block addr h chk [] first v (drop (Z.to_nat (AoHeader_Size false chk first)) buf) 0).
Proof.
  intros Hlen Hb. destruct (block_parts buf chk false first 0) as (h0 & c & x & f & cont & Hbuf & L0 & Lc & Lx & Lf & _ & Hcont);
    [done | lia |].
  assert (W : write_header buf 0 h = Ok (hb h ++ c ++ x ++ f ++ cont)).
  { rewrite Hbuf. by apply (write_header_mid []). }
  pose proof large_words_ok as Hw. pose proof large_kind as Hkind. destruct P as [He Hr Hl Hv Hver].
  destruct x; [| unfold zlen in Lx; cbn in Lx; lia].
  unfold AppendOnlyStorageFormat_MakeLargeContentHeader. cbv zeta.
  rewrite large_header_eq by (done || lia). rewrite W, <- Hcont. cbn [mbind outcome_bind].
  destruct (round_up_ok 0 version) as (r & Er & _); [done | done |].
  assert (r = 0) as ->.
  { unfold AOStorage_RoundUp in Er. rewrite Hver in Er. destruct (1 <? version); vm_compute in Er; congruence. }
  apply (make_tail_ok addr h false Hw ltac:(by rewrite Hkind) c [] f cont chk first false false version v 0 0 0);
    try done.
  - rewrite Hcont. by apply Forall_drop.
  - unfold zlen. lia.
Qed.

Lemma large_read addr content verify limit :
  Forall (ubits 8) content ->
  ReadNextBlock_header addr (made_block addr h chk [] first v content 0) chk verify version limit
  = Ok (AoHeaderKind_LargeContent, AoHeader_Size false chk first,
        mkAOBlockInfo 0 0 len exec first (if first then v else -1) rows false 0, true).
Proof.
  intros Hc. pose proof large_words_ok as Hw. pose proof large_first as Hf. pose proof large_exec as Hx.
  pose proof large_low as Hlow. destruct P as [He Hr Hl Hv Hver].
  destruct (large_fields first exec rows len) as [Frows Flen]; [done | done | lia |].
  unfold ReadNextBlock_header.
  assert (E : (if chk && verify
               then '(ok, _, _) ← AppendOnlyStorageFormat_VerifyHeaderChecksum addr
                                    (made_block addr h chk [] first v content 0); Ok ok else Ok true) = Ok true).
  { destruct chk, verify; cbn [andb]; try done.
    destruct (made_block_verifies addr h [] first v content 0) as [(s & c & ->) _]; try done.
    split; [done | unfold zlen; lia]. }
  rewrite E. cbn [mbind outcome_bind negb].
  unfold AppendOnlyStorageFormat_GetHeaderInfo. rewrite made_header by done. cbn [mbind outcome_bind].
  destruct (first_word_kind AoHeaderKind_LargeContent first exec (rows / 2 ^ 2) 0) as [Ek Er]; [done | done | done |].
  assert (Hz : header_bytes_0_3 h <> 0).
  { unfold large_words, first_word, AoHeaderKind_LargeContent, b2z. cbn [header_bytes_0_3]. destruct first; lia. }
  replace (header_bytes_0_3 h =? 0) with false by lia.
  change (AOHeaderGet_reserved0 h) with (AOHeaderGet_reserved0 (mkAOHeader (first_word AoHeaderKind_LargeContent first exec (rows / 2 ^ 2)) 0)).
  change (AOHeaderGet_headerKind h) with (AOHeaderGet_headerKind (mkAOHeader (first_word AoHeaderKind_LargeContent first exec (rows / 2 ^ 2)) 0)).
  rewrite Ek, Er. cbn [negb Z.eqb AoHeaderKind_SmallContent AoHeaderKind_LargeContent Pos.eqb].
  rewrite Hf. cbn [mbind outcome_bind Z.eqb Pos.eqb].
  unfold AppendOnlyStorageFormat_GetLargeContentHeaderInfo. rewrite made_header by done. cbn [mbind outcome_bind].
  rewrite Hf, Hx, Frows, Flen. replace (len =? 0) with false by lia.
  rewrite made_first; [| done | by destruct chk]. cbn [mbind outcome_bind].
  destruct chk, first; done.
Qed.
End Large.

(** ** Corrupted blocks *)

Lemma split3 (l : list Z) a b :
  0 <= a -> 0 <= b -> a + b <= zlen l -> exists x y z, l = x ++ y ++ z /\ zlen x = a /\ zlen y = b.
Proof.
  intros Ha Hb Hl. destruct (split_at l a) as (x & l' & -> & Hx & Hl'); [lia |].
  destruct (split_at l' b) as (y & z & -> & Hy & _); [lia |]. by exists x, y, z.
Qed.

Lemma le_join_inj (a b : list Z) :
  Forall (ubits 8) a -> Forall (ubits 8) b -> length a = length b -> le_join a = le_join b -> a = b.
Proof. intros Ha Hb Hl E. rewrite <- (le_split_join a), <- (le_split_join b) by done. by rewrite Hl, E. Qed.

Lemma verify_header_layout addr h s rest :
  zlen h = 12 -> zlen s = 4 ->
  AppendOnlyStorageFormat_VerifyHeaderChecksum addr (h ++ s ++ rest)
  = let c := pg_comp_crc32c_sb8 addr INIT_CRC32C h in Ok (le_join s =? c, le_join s, c).
Proof.
  intros Hh Hs. unfold AppendOnlyStorageFormat_VerifyHeaderChecksum, read_u32,
    AppendOnlyStorageFormat_ComputeHeaderChecksum, AoHeader_RegularSize, sizeof_crc.
  rewrite (mem_read_mid h s rest (8 + 4) 4) by lia. cbn [mbind outcome_bind]. by rewrite (mem_read_front h) by lia.
Qed.

Lemma verify_block_layout addr h b s d rest overall :
  zlen h = 8 -> zlen b = 4 -> zlen s = 4 -> overall = 16 + zlen d ->
  AppendOnlyStorageFormat_VerifyBlockChecksum addr (h ++ b ++ s ++ d ++ rest) overall
  = let c := pg_comp_crc32c_sb8 (addr + 16) INIT_CRC32C d in Ok (le_join b =? c, le_join b, c).
Proof.
  intros Hh Hb Hs ->. unfold AppendOnlyStorageFormat_VerifyBlockChecksum, read_u32,
    AppendOnlyStorageFormat_ComputeBlockChecksum, AoHeader_RegularSize, sizeof_crc.
  rewrite (mem_read_mid h b _ 8 4) by lia. cbn [mbind outcome_bind].
  rewrite (app_assoc b), (app_assoc h), (mem_read_mid _ d) by (rewrite ?zlen_app; lia). done.
Qed.

Lemma init_ubits : ubits 32 INIT_CRC32C.
Proof. unfold ubits. vm_compute. done. Qed.

Lemma mismatch (x y x' y' : Z) :
  (x =? y) = true -> x <> x' /\ y = y' \/ x = x' /\ y <> y' ->
  exists s c, Ok (x' =? y', x', y') = Ok (false, s, c).
Proof. intros E H. exists x', y'. replace (x' =? y') with false by lia. done. Qed.

Section Corrupt.
  Context (addr : Z) (w w' : list Z) (Hw : Forall (ubits 8) w) (Hw' : Forall (ubits 8) w').
  Context (Hl : length w = length w') (H4 : (length w <= 4)%nat) (Hne : w <> w').

Lemma corrupt_crc p a b :
  Forall (ubits 8) a -> Forall (ubits 8) b ->
  pg_comp_crc32c_sb8 p INIT_CRC32C (a ++ w ++ b) <> pg_comp_crc32c_sb8 p INIT_CRC32C (a ++ w' ++ b).
Proof.
  intros Ha Hb. apply crc_burst; [apply init_ubits | | done ..].
  by repeat (apply Forall_app; split).
Qed.

(** A change in the bytes that the header checksum covers, or in the checksum. *)
Lemma corrupt_header pre post :
  Forall (ubits 8) pre -> Forall (ubits 8) post ->
  zlen (pre ++ w) <= 12 \/ 12 <= zlen pre /\ zlen (pre ++ w) <= 16 -> 16 <= zlen (pre ++ w ++ post) ->
  forall s c, AppendOnlyStorageFormat_VerifyHeaderChecksum addr (pre ++ w ++ post) = Ok (true, s, c) ->
  exists s' c', AppendOnlyStorageFormat_VerifyHeaderChecksum addr (pre ++ w' ++ post) = Ok (false, s', c').
Proof.
  intros Bpre Bpost Hpos Hlen s c E. assert (Hlw : zlen w = zlen w') by (unfold zlen; lia).
  rewrite !zlen_app in *. pose proof (zlen_nonneg pre). pose proof (zlen_nonneg w).
  destruct Hpos as [Hpos | [Hp Hpos]].
  - destruct (split3 post (12 - zlen (pre ++ w)) 4) as (p1 & k & p2 & -> & L1 & Lk); rewrite ?zlen_app in *; [lia .. |].
    apply Forall_app in Bpost as [B1 _].
    revert E. rewrite !(app_assoc w), !(app_assoc w'), !(app_assoc pre), !verify_header_layout by (rewrite ?zlen_app; lia).
    cbv zeta. intros [= Ek _ _]. apply (mismatch _ _ _ _ Ek). right. split; [done |].
    rewrite <- ?app_assoc. by apply corrupt_crc.
  - destruct (split_at pre 12) as (h & p1 & -> & Lh & L1); [lia |].
    destruct (split_at post (4 - zlen (p1 ++ w))) as (p2 & p3 & -> & L2 & _); rewrite ?zlen_app in *; [lia |].
    apply Forall_app in Bpre as [_ B1]. apply Forall_app in Bpost as [B2 _].
    revert E. rewrite <- !(app_assoc h), !(app_assoc w), !(app_assoc w'), !(app_assoc p1), !verify_header_layout
      by (rewrite ?zlen_app; lia).
    cbv zeta. intros [= Ek _ _]. apply (mismatch _ _ _ _ Ek). left. split; [| done]. intros Ej.
    apply le_join_inj in Ej; [| by repeat (apply Forall_app; split) .. | rewrite !length_app; lia].
    apply Hne. apply app_inv_tail in Ej. by apply app_inv_head in Ej.
Qed.

(** A change in the bytes that the block checksum covers. *)
Lemma corrupt_block pre post overall :
  Forall (ubits 8) pre -> Forall (ubits 8) post ->
  16 <= zlen pre -> zlen (pre ++ w) <= overall -> overall <= zlen (pre ++ w ++ post) ->
  forall s c, AppendOnlyStorageFormat_VerifyBlockChecksum addr (pre ++ w ++ post) overall = Ok (true, s, c) ->
  exists s' c', AppendOnlyStorageFormat_VerifyBlockChecksum addr (pre ++ w' ++ post) overall = Ok (false, s', c').
Proof.
  intros Bpre Bpost Hp Hpos Hlen s c E. assert (Hlw : zlen w = zlen w') by (unfold zlen; lia).
  rewrite !zlen_app in *.
  destruct (split3 pre 8 4) as (h & b & r & -> & Lh & Lb); [lia .. |]. rewrite !zlen_app in *.
  destruct (split_at r 4) as (k & p1 & -> & Lk & L1); [lia |]. rewrite !zlen_app in *.
  destruct (split_at post (overall - (16 + zlen (p1 ++ w)))) as (p2 & p3 & -> & L2 & _); rewrite ?zlen_app in *; [lia |].
  apply Forall_app in Bpost as [B2 _]. apply Forall_app in Bpre as [_ Bpre]. apply Forall_app in Bpre as [_ Bpre].
  apply Forall_app in Bpre as [_ B1].
  revert E. rewrite <- !(app_assoc h), <- !(app_assoc b), <- !(app_assoc k), !(app_assoc w), !(app_assoc w'),
    !(app_assoc p1), !verify_block_layout by (rewrite ?zlen_app; lia).
  cbv zeta. intros [= Ek _ _]. apply (mismatch _ _ _ _ Ek). right. split; [done |].
    rewrite <- ?app_assoc. by apply corrupt_crc.
Qed.
End Corrupt.

(** ** Results *)

Lemma made_block_content addr h (chk : bool) ext first v content n :
  drop (Z.to_nat (8 + opt_len chk + zlen ext + opt_len first)) (made_block addr h chk ext first v content n) = content.
Proof.
  pose proof (made_sums_length addr h chk first ext v content n) as Hs.
  pose proof (zlen_first_part first v) as Hf. pose proof (zlen_hb h) as Hh. unfold made_block. cbv zeta in *.
  set (sums := if chk then _ else _) in *.
  rewrite !app_assoc. apply drop_app_length'. rewrite !length_app. unfold zlen in *. lia.
Qed.

Lemma zlen_drop_ge (l : list Z) a b : 0 <= a -> a + b <= zlen l -> b <= zlen (drop (Z.to_nat a) l).
Proof. unfold zlen. rewrite length_drop. lia. Qed.

(** The header checks of a reader on a block whose header is valid. *)
Lemma read_next_block_data addr buf chk verify version limit kind size info :
  is_data_kind kind ->
  (chk = true -> exists s c, AppendOnlyStorageFormat_VerifyHeaderChecksum addr buf = Ok (true, s, c)) ->
  AppendOnlyStorageFormat_GetHeaderInfo buf chk = Ok (inr (kind, size)) ->
  (if kind =? AoHeaderKind_SmallContent then
     AppendOnlyStorageFormat_GetSmallContentHeaderInfo buf size chk limit version
   else if kind =? AoHeaderKind_NonBulkDenseContent then
     AppendOnlyStorageFormat_GetNonBulkDenseContentHeaderInfo buf size chk limit version
   else AppendOnlyStorageFormat_GetBulkDenseContentHeaderInfo buf size chk limit version) = Ok (inr info) ->
  ReadNextBlock_header addr buf chk verify version limit = Ok (kind, size, info, false).
Proof.
  intros Hk Hv Hi Hg. unfold ReadNextBlock_header.
  assert (E : (if chk && verify
               then '(ok, _, _) ← AppendOnlyStorageFormat_VerifyHeaderChecksum addr buf; Ok ok else Ok true) = Ok true).
  { destruct chk, verify; cbn [andb]; try done. destruct Hv as (s & c & ->); done. }
  rewrite E. cbn [mbind outcome_bind negb]. rewrite Hi. cbn [mbind outcome_bind].
  destruct Hk as [-> | [-> | ->]]; cbn [Z.eqb AoHeaderKind_SmallContent AoHeaderKind_LargeContent
    AoHeaderKind_NonBulkDenseContent AoHeaderKind_BulkDenseContent Pos.eqb] in *; by rewrite Hg.
Qed.

Lemma write_header_of_kind compress kind addr buf chk first version v exec rows dl cl :
  write_kind compress kind cl ->
  write_header_of compress kind addr buf chk first version v exec rows dl cl
  = make_data_header kind addr buf chk first version v exec rows dl cl /\ is_data_kind kind.
Proof.
  unfold is_data_kind. destruct compress; cbn [write_kind write_header_of].
  - intros [-> | ->]; split; (done || auto).
  - intros [[-> | ->] ->]; split; (done || auto).
Qed.

(** C19: For each kind of data block and both ways of writing it, with and without
    checksums and first row number: the header a writer makes is read back with every
    field as it was given, the lengths computed from it cover the block, both
    checksums verify, and the content behind the header is untouched. *)
Theorem ao_block_roundtrip compress kind addr buf chk verify first version v exec rows dl cl rounded limit :
  write_kind compress kind cl -> params_ok kind exec rows dl cl v version ->
  AOStorage_RoundUp (if 0 <? cl then cl else dl) version = Ok rounded ->
  AoHeader_Size (is_long kind) chk first + rounded <= zlen buf ->
  AoHeader_Size (is_long kind) chk first + rounded <= limit -> Forall (ubits 8) buf ->
  let size := AoHeader_Size (is_long kind) chk first in
  exists buf',
    write_header_of compress kind addr buf chk first version v exec rows dl cl = Ok buf' /\
    drop (Z.to_nat size) buf' = drop (Z.to_nat size) buf /\
    ReadNextBlock_header addr buf' chk verify version limit
      = Ok (kind, size, data_info kind exec rows dl cl v rounded first chk, false) /\
    InternalGetBuffer_verify addr buf' chk verify (size + rounded) = Ok tt.
Proof.
  intros Hwk P Hround Hlen Hlimit Hb size.
  destruct (write_header_of_kind compress kind addr buf chk first version v exec rows dl cl Hwk) as [-> Hk].
  assert (Hr0 : 0 <= rounded).
  { destruct P as [_ _ Hd Hc _ _ Hver].
    destruct (round_up_ok (if 0 <? cl then cl else dl) version) as (r & E & Hr); [destruct (0 <? cl); lia | done |].
    rewrite Hround in E. injection E as ->. destruct (0 <? cl); lia. }
  rewrite (data_make kind exec rows dl cl v version rounded first chk addr buf Hk P Hround Hr0 Hlen Hb).
  fold size. eexists. split; [done |].
  pose proof (zlen_data_ext kind exec rows dl cl v version Hk P) as Hext.
  pose proof (data_size kind first chk) as Hsize. fold size in Hsize.
  assert (Hs0 : 0 <= size) by (rewrite Hsize; unfold opt_len; destruct chk, (is_long kind), first; lia).
  assert (Hcov : opt_len (is_long kind) + opt_len first + rounded
                 <= zlen (data_ext kind rows ++ first_part first v ++ drop (Z.to_nat size) buf)).
  { rewrite !zlen_app, Hext, zlen_first_part. pose proof (zlen_drop_ge buf size rounded) as Hdrop. fold size in Hlen. lia. }
  assert (Hn0 : 0 <= opt_len (is_long kind) + opt_len first) by (unfold opt_len; destruct (is_long kind), first; lia).
  assert (Hverify : chk = true -> let b := made_block addr (data_words kind first exec rows dl cl) chk (data_ext kind rows)
             first v (drop (Z.to_nat size) buf) (opt_len (is_long kind) + opt_len first + rounded) in
          (exists s c, AppendOnlyStorageFormat_VerifyHeaderChecksum addr b = Ok (true, s, c)) /\
          (exists s c, AppendOnlyStorageFormat_VerifyBlockChecksum addr b
             (16 + (opt_len (is_long kind) + opt_len first + rounded)) = Ok (true, s, c))).
  { intros ->. apply made_block_verifies; [by eapply data_ext_bytes | by apply Forall_drop | lia]. }
  split_and!.
  - rewrite Hsize at 1. rewrite <- Hext at 1.
    apply made_block_content.
  - apply read_next_block_data; [done | intros Hc; by apply Hverify | by eapply data_header_info |].
    by apply data_read_info.
  - unfold InternalGetBuffer_verify. destruct chk; [| done]. destruct verify; cbn [andb]; [| done].
    destruct (Hverify eq_refl) as [_ (s & c & E)]. cbv zeta in E.
    replace (size + rounded) with (16 + (opt_len (is_long kind) + opt_len first + rounded))
      by (rewrite Hsize; cbn [opt_len]; lia).
    rewrite E. done.
Qed.

(** The header of a large content block is read back with its length, kind
    and row count as they were given, and leaves the rest of the buffer alone. *)
Theorem ao_large_roundtrip addr buf chk verify first version v exec rows len limit :
  large_ok exec rows len v version -> AoHeader_Size false chk first <= zlen buf -> Forall (ubits 8) buf ->
  let size := AoHeader_Size false chk first in
  exists buf',
    AppendOnlyStorageFormat_MakeLargeContentHeader addr buf chk first version v exec rows len = Ok buf' /\
    drop (Z.to_nat size) buf' = drop (Z.to_nat size) buf /\
    ReadNextBlock_header addr buf' chk verify version limit
      = Ok (AoHeaderKind_LargeContent, size,
            mkAOBlockInfo 0 0 len exec first (if first then v else -1) rows false 0, true).
Proof.
  intros P Hlen Hb size. rewrite (large_make exec rows len v version first chk P addr buf Hlen Hb). fold size.
  eexists. split; [done |]. split.
  - replace (Z.to_nat size) with (Z.to_nat (8 + opt_len chk + zlen (@nil Z) + opt_len first)) at 1
      by (unfold size; by destruct chk, first).
    apply made_block_content.
  - apply large_read; [done |]. by apply Forall_drop.
Qed.

(** No checksum covers the first row number of a large content header: when a
    made header, checksums on, has it overwritten by any other number, a reader
    that verifies checksums accepts the block and returns the other number. *)
Theorem ao_large_first_row_unprotected addr buf version v v' exec rows len limit buf' :
  large_ok exec rows len v version -> - 2 ^ 63 <= v' < 2 ^ 63 ->
  AoHeader_Size false true true <= zlen buf -> Forall (ubits 8) buf ->
  AppendOnlyStorageFormat_MakeLargeContentHeader addr buf true true version v exec rows len = Ok buf' ->
  exists buf'', write_s64 buf' 16 v' = Ok buf'' /\
    ReadNextBlock_header addr buf'' true true version limit
      = Ok (AoHeaderKind_LargeContent, AoHeader_Size false true true,
            mkAOBlockInfo 0 0 len exec true v' rows false 0, true).
Proof.
  intros P Hv' Hlen Hb E. rewrite (large_make exec rows len v version true true P addr buf Hlen Hb) in E.
  injection E as <-. set (content := drop _ buf). assert (Hc : Forall (ubits 8) content) by (by apply Forall_drop).
  exists (made_block addr (large_words true exec rows len) true [] true v' content 0). split.
  - unfold made_block. cbv zeta. cbn [app first_part take Z.to_nat]. unfold write_s64.
    rewrite (app_assoc (hb _)), mem_write_mid; [by rewrite <- app_assoc | | by rewrite !le_split_length].
    by rewrite !zlen_app, zlen_hb, !zlen_le_split.
  - apply (large_read exec rows len v' version true true); [destruct P; by constructor | done].
Qed.

(** C32: A corrupted header is reported: when the header checksum of a block
    verifies and at most four consecutive bytes of the header word, the stored
    block checksum or the stored header checksum are then changed, the reader
    stops at the header with an error. *)
Theorem ao_header_corruption addr pre w w' post s c version limit :
  Forall (ubits 8) (pre ++ w ++ post) -> Forall (ubits 8) w' ->
  length w = length w' -> (length w <= 4)%nat -> w <> w' ->
  zlen (pre ++ w) <= 12 \/ 12 <= zlen pre /\ zlen (pre ++ w) <= 16 -> 16 <= zlen (pre ++ w ++ post) ->
  AppendOnlyStorageFormat_VerifyHeaderChecksum addr (pre ++ w ++ post) = Ok (true, s, c) ->
  ReadNextBlock_header addr (pre ++ w' ++ post) true true version limit
  = Err "header checksum does not match".
Proof.
  intros Hb Hw' Hl H4 Hne Hpos Hlen E. apply Forall_app in Hb as [Hpre [Hw Hpost]%Forall_app].
  destruct (corrupt_header addr w w' Hw Hw' Hl H4 Hne pre post Hpre Hpost Hpos Hlen s c E) as (s' & c' & E').
  unfold ReadNextBlock_header. cbn [andb]. by rewrite E'.
Qed.

(** A corrupted content is reported: when the content of a block verifies and
    at most four consecutive bytes behind the checksums are then changed, the
    check of the content fails. *)
Theorem ao_content_corruption addr pre w w' post overall :
  Forall (ubits 8) (pre ++ w ++ post) -> Forall (ubits 8) w' ->
  length w = length w' -> (length w <= 4)%nat -> w <> w' ->
  16 <= zlen pre -> zlen (pre ++ w) <= overall -> overall <= zlen (pre ++ w ++ post) ->
  InternalGetBuffer_verify addr (pre ++ w ++ post) true true overall = Ok tt ->
  InternalGetBuffer_verify addr (pre ++ w' ++ post) true true overall
  = Err "block checksum does not match".
Proof.
  intros Hb Hw' Hl H4 Hne Hp Hpos Hlen. unfold InternalGetBuffer_verify. cbn [andb]. intros E.
  assert (exists s c, AppendOnlyStorageFormat_VerifyBlockChecksum addr (pre ++ w ++ post) overall = Ok (true, s, c))
    as (s & c & Es).
  { destruct (AppendOnlyStorageFormat_VerifyBlockChecksum addr (pre ++ w ++ post) overall) as [[[[] s] c] | |];
      cbn in E; try discriminate. eauto. }
  apply Forall_app in Hb as [Hpre [Hw Hpost]%Forall_app].
  destruct (corrupt_block addr w w' Hw Hw' Hl H4 Hne pre post overall Hpre Hpost Hp Hpos Hlen s c Es) as (s' & c' & E').
  by rewrite E'.
Qed.

(** A buffer of 64 bytes. *)
Definition sample_block : list Z := replicate 64 7.

Lemma sample_bytes : Forall (ubits 8) sample_block.
Proof. apply Forall_replicate. done. Qed.

Lemma ao_block_roundtrip_witness :
  let kind := AoHeaderKind_BulkDenseContent in
  let size := AoHeader_Size (is_long kind) true true in
  exists buf',
    write_header_of true kind 0 sample_block true true 2 41 1 100 20 10 = Ok buf' /\
    drop (Z.to_nat size) buf' = drop (Z.to_nat size) sample_block /\
    ReadNextBlock_header 0 buf' true true 2 64
      = Ok (kind, size, data_info kind 1 100 20 10 41 16 true true, false) /\
    InternalGetBuffer_verify 0 buf' true true (size + 16) = Ok tt.
Proof.
  apply (ao_block_roundtrip true AoHeaderKind_BulkDenseContent 0 sample_block true true true 2 41 1 100 20 10 16 64);
    [by right | constructor; (done || lia) | done | done | done | apply sample_bytes].
Defined.

Lemma ao_large_roundtrip_witness :
  let size := AoHeader_Size false true true in
  exists buf',
    AppendOnlyStorageFormat_MakeLargeContentHeader 0 sample_block true true 2 41 1 100 1000000 = Ok buf' /\
    drop (Z.to_nat size) buf' = drop (Z.to_nat size) sample_block /\
    ReadNextBlock_header 0 buf' true true 2 64
      = Ok (AoHeaderKind_LargeContent, size, mkAOBlockInfo 0 0 1000000 1 true 41 100 false 0, true).
Proof.
  apply (ao_large_roundtrip 0 sample_block true true true 2 41 1 100 1000000 64);
    [constructor; (done || lia) | done | apply sample_bytes].
Defined.

Definition sample_large : list Z :=
  match AppendOnlyStorageFormat_MakeLargeContentHeader 0 sample_block true true 2 41 1 100 1000000 with
  | Ok b => b | _ => [] end.

Lemma ao_large_first_row_unprotected_witness :
  exists buf'', write_s64 sample_large 16 99 = Ok buf'' /\
    ReadNextBlock_header 0 buf'' true true 2 64
      = Ok (AoHeaderKind_LargeContent, AoHeader_Size false true true,
            mkAOBlockInfo 0 0 1000000 1 true 99 100 false 0, true).
Proof.
  apply (ao_large_first_row_unprotected 0 sample_block 2 41 99 1 100 1000000 64 sample_large);
    [constructor; (done || lia) | done | done | apply sample_bytes | vm_compute; reflexivity].
Defined.

(** A block of 36 bytes of content with its checksums. *)
Definition sample_small : list Z :=
  match FinishBuffer_header AoHeaderKind_SmallContent 0 sample_block true false 2 0 1 100 36 with
  | Ok b => b | _ => [] end.

Lemma ao_header_corruption_witness :
  let pre := take 3 sample_small in let post := drop 5 sample_small in
  ReadNextBlock_header 0 (pre ++ [1; 255] ++ post) true true 2 64
  = Err "header checksum does not match".
Proof.
  intros pre post.
  assert (exists s c, AppendOnlyStorageFormat_VerifyHeaderChecksum 0 (pre ++ [17; 0] ++ post) = Ok (true, s, c))
    as (s & c & E) by (do 2 eexists; vm_compute; reflexivity).
  apply (ao_header_corruption 0 pre [17; 0] [1; 255] post s c 2 64);
    [vm_compute; repeat constructor; discriminate | repeat constructor; done | done | cbn; lia | discriminate
     | left; vm_compute; discriminate | vm_compute; discriminate | exact E].
Defined.

Lemma ao_content_corruption_witness :
  let pre := take 20 sample_small in let post := drop 21 sample_small in
  InternalGetBuffer_verify 0 (pre ++ [8] ++ post) true true 56 = Err "block checksum does not match".
Proof.
  intros pre post.
  apply (ao_content_corruption 0 pre [7] [8] post 56);
    [vm_compute; repeat constructor; discriminate | repeat constructor; done | done | cbn; lia | discriminate
     | vm_compute; discriminate | vm_compute; discriminate | vm_compute; discriminate | vm_compute; reflexivity].
Defined.
