(* ===== verification/Slru.v ===== *)
(** * Simple LRU buffering for logs of transaction status

    Models src/backend/access/transam/slru.c and src/include/access/slru.h: a
    fixed number of buffer slots in shared memory over files of 32 pages each.

    The parallel arrays of [SlruSharedData] are the list [slots] of one record per
    slot.  The directory of a log is the map [files] from segment numbers to the
    pages of the file; a write beyond the end of a file leaves a hole that reads
    as zeroes.  The code never looks into a page, so pages are of any type with a
    page of zeroes; the callback [PagePrecedes] comes with it in the class
    [SlruCtl].  One process is followed at a time, so there is no I/O of others to
    wait for, and calls of the operating system other than opening or reading a
    missing file succeed.  Locks, LSN groups and statistics counters are left
    out. *)

From stdpp Require Import base list gmap.
From S2P Require Import Prelude.

Definition SLRU_PAGES_PER_SEGMENT : Z := 32.

Inductive SlruPageStatus :=
| SLRU_PAGE_EMPTY
| SLRU_PAGE_READ_IN_PROGRESS
| SLRU_PAGE_VALID
| SLRU_PAGE_WRITE_IN_PROGRESS.

#[export] Instance SlruPageStatus_eq_dec : EqDecision SlruPageStatus.
Proof. solve_decision. Defined.

(** What a log tells its buffer manager. *)
Class SlruCtl (P : Type) := {
  zero_page : P;
  PagePrecedes : Z -> Z -> bool
}.

(** One buffer slot: its entries in the arrays of the shared state. *)
Record Slot (P : Type) := mkSlot {
  page_buffer : P;
  page_status : SlruPageStatus;
  page_dirty : bool;
  page_number : Z;
  page_lru_count : Z
}.
Arguments mkSlot {P}.
Arguments page_buffer {P}.
Arguments page_status {P}.
Arguments page_dirty {P}.
Arguments page_number {P}.
Arguments page_lru_count {P}.

Record Slru (P : Type) := mkSlru {
  slots : list (Slot P);
  cur_lru_count : Z;
  latest_page_number : Z;
  files : gmap Z (list P)
}.
Arguments mkSlru {P}.
Arguments slots {P}.
Arguments cur_lru_count {P}.
Arguments latest_page_number {P}.
Arguments files {P}.

(** A candidate for replacement: slot, age and page number. *)
Record Best := mkBest { best_slot : Z; best_delta : Z; best_page_number : Z }.

Definition is_empty {P} (s : Slot P) : bool := bool_decide (page_status s = SLRU_PAGE_EMPTY).

Definition holds {P} (pageno : Z) (s : Slot P) : bool := (page_number s =? pageno) && negb (is_empty s).

Section Operations.
  Context {P : Type} `{!SlruCtl P} (InRecovery : bool).

  Implicit Types (st : Slru P) (s : Slot P).

(** ** State updates *)

Definition set_slot st (slotno : Z) s : outcome (Slru P) :=
  l ← zset (slots st) slotno s;
  Ok (mkSlru l (cur_lru_count st) (latest_page_number st) (files st)).

Definition set_files st (fs : gmap Z (list P)) : Slru P :=
  mkSlru (slots st) (cur_lru_count st) (latest_page_number st) fs.

Definition with_status s (status : SlruPageStatus) (dirty : bool) : Slot P :=
  mkSlot (page_buffer s) status dirty (page_number s) (page_lru_count s).

(** The caller's change of a page through the slot it was given. *)
Definition slot_update st (slotno : Z) (page : P) : outcome (Slru P) :=
  s ← zget (slots st) slotno;
  set_slot st slotno (mkSlot page (page_status s) true (page_number s) (page_lru_count s)).

Definition SlruRecentlyUsed st (slotno : Z) : outcome (Slru P) :=
  s ← zget (slots st) slotno;
  if negb (cur_lru_count st =? page_lru_count s) then
    let new_lru_count := s32 (cur_lru_count st + 1) in
    set_slot (mkSlru (slots st) new_lru_count (latest_page_number st) (files st)) slotno
      (mkSlot (page_buffer s) (page_status s) (page_dirty s) (page_number s) new_lru_count)
  else Ok st.

(** ** Files *)

(** Writing a page of a file, the bytes before it reading as zeroes. *)
Definition file_write (f : list P) (rpageno : nat) (page : P) : list P :=
  if decide (rpageno < length f)%nat then <[rpageno := page]> f
  else f ++ replicate (rpageno - length f) zero_page ++ [page].

Definition SimpleLruDoesPhysicalPageExist st (pageno : Z) : bool :=
  let segno := pageno / SLRU_PAGES_PER_SEGMENT in
  let rpageno := pageno mod SLRU_PAGES_PER_SEGMENT in
  match files st !! segno with
  | None => false
  | Some f => rpageno + 1 <=? zlen f
  end.

Definition SlruPhysicalReadPage (fs : gmap Z (list P)) (pageno : Z) : option P :=
  let segno := pageno / SLRU_PAGES_PER_SEGMENT in
  let rpageno := pageno mod SLRU_PAGES_PER_SEGMENT in
  match fs !! segno with
  | None => if InRecovery then Some zero_page else None
  | Some f => f !! Z.to_nat rpageno
  end.

Definition SlruPhysicalWritePage (fs : gmap Z (list P)) (pageno : Z) (page : P) : gmap Z (list P) :=
  let segno := pageno / SLRU_PAGES_PER_SEGMENT in
  let rpageno := pageno mod SLRU_PAGES_PER_SEGMENT in
  <[segno := file_write (default [] (fs !! segno)) (Z.to_nat rpageno) page]> fs.

(** Nobody else is there to finish the I/O. *)
Definition SimpleLruWaitIO {A} : outcome A := Err "waiting for I/O of another process".

Definition SlruInternalWritePage st (slotno : Z) : outcome (Slru P) :=
  s ← zget (slots st) slotno;
  if bool_decide (page_status s = SLRU_PAGE_WRITE_IN_PROGRESS) then SimpleLruWaitIO
  else if negb (page_dirty s) || negb (bool_decide (page_status s = SLRU_PAGE_VALID)) then Ok st
  else
    st ← set_slot st slotno (with_status s SLRU_PAGE_WRITE_IN_PROGRESS false);
    let st := set_files st (SlruPhysicalWritePage (files st) (page_number s) (page_buffer s)) in
    set_slot st slotno (with_status s SLRU_PAGE_VALID false).

Definition SimpleLruWritePage st (slotno : Z) : outcome (Slru P) := SlruInternalWritePage st slotno.

(** ** Choosing a slot *)

(** The slot that holds a page. *)
Fixpoint find_slot (l : list (Slot P)) (i pageno : Z) : option Z :=
  match l with
  | [] => None
  | s :: l => if holds pageno s then Some i else find_slot l (i + 1) pageno
  end.

Definition better (this_delta this_page_number : Z) (b : Best) : bool :=
  (best_delta b <? this_delta) || ((this_delta =? best_delta b) && PagePrecedes this_page_number (best_page_number b)).

(** The scan for an empty slot or the best victims, valid and I/O busy. *)
Fixpoint select_scan (cur_count latest i : Z) (l : list (Slot P)) (valid invalid : Best)
  : list (Slot P) * (Z + Best * Best) :=
  match l with
  | [] => ([], inr (valid, invalid))
  | s :: l =>
      if is_empty s then (s :: l, inl i)
      else
        let delta := s32 (cur_count - page_lru_count s) in
        let '(s, delta) :=
          if delta <? 0
          then (mkSlot (page_buffer s) (page_status s) (page_dirty s) (page_number s) cur_count, 0)
          else (s, delta) in
        let '(valid, invalid) :=
          if page_number s =? latest then (valid, invalid)
          else if bool_decide (page_status s = SLRU_PAGE_VALID) then
            (if better delta (page_number s) valid then mkBest i delta (page_number s) else valid, invalid)
          else (valid, if better delta (page_number s) invalid then mkBest i delta (page_number s) else invalid) in
        let '(l, r) := select_scan cur_count latest (i + 1) l valid invalid in
        (s :: l, r)
  end.

Fixpoint select_loop (fuel : nat) st (pageno : Z) : outcome (Z * Slru P) :=
  match fuel with
  | O => Err "fuel"
  | S fuel =>
      match find_slot (slots st) 0 pageno with
      | Some slotno => Ok (slotno, st)
      | None =>
          let cur_count := cur_lru_count st in
          let '(l, r) := select_scan cur_count (latest_page_number st) 0 (slots st) (mkBest 0 (-1) 0) (mkBest 0 (-1) 0) in
          let st := mkSlru l (s32 (cur_count + 1)) (latest_page_number st) (files st) in
          match r with
          | inl slotno => Ok (slotno, st)
          | inr (valid, _) =>
              if best_delta valid <? 0 then SimpleLruWaitIO
              else
                s ← zget (slots st) (best_slot valid);
                if negb (page_dirty s) then Ok (best_slot valid, st)
                else
                  st ← SlruInternalWritePage st (best_slot valid);
                  select_loop fuel st pageno
          end
      end
  end.

(** A round that does not end cleans a dirty slot. *)
Definition SlruSelectLRUPage st (pageno : Z) : outcome (Z * Slru P) :=
  select_loop (S (length (slots st))) st pageno.

(** ** Pages *)

Definition SimpleLruInit (nslots : nat) (fs : gmap Z (list P)) : Slru P :=
  mkSlru (replicate nslots (mkSlot zero_page SLRU_PAGE_EMPTY false 0 0)) 0 0 fs.

Definition SimpleLruZeroPage st (pageno : Z) : outcome (Z * Slru P) :=
  '(slotno, st) ← SlruSelectLRUPage st pageno;
  s ← zget (slots st) slotno;
  st ← set_slot st slotno (mkSlot (page_buffer s) SLRU_PAGE_VALID true pageno (page_lru_count s));
  st ← SlruRecentlyUsed st slotno;
  s ← zget (slots st) slotno;
  st ← set_slot st slotno (mkSlot zero_page (page_status s) (page_dirty s) (page_number s) (page_lru_count s));
  Ok (slotno, mkSlru (slots st) (cur_lru_count st) pageno (files st)).

(** A failed read raises an error that names the transaction. *)
Definition SimpleLruReadPage st (pageno : Z) (write_ok : bool) : outcome (Z * Slru P) :=
  '(slotno, st) ← SlruSelectLRUPage st pageno;
  s ← zget (slots st) slotno;
  if holds pageno s then
    if bool_decide (page_status s = SLRU_PAGE_READ_IN_PROGRESS)
       || (bool_decide (page_status s = SLRU_PAGE_WRITE_IN_PROGRESS) && negb write_ok)
    then SimpleLruWaitIO
    else
      st ← SlruRecentlyUsed st slotno;
      Ok (slotno, st)
  else
    st ← set_slot st slotno (mkSlot (page_buffer s) SLRU_PAGE_READ_IN_PROGRESS false pageno (page_lru_count s));
    match SlruPhysicalReadPage (files st) pageno with
    | None => Err "could not access status of transaction"
    | Some page =>
        st ← set_slot st slotno (mkSlot page SLRU_PAGE_VALID false pageno (page_lru_count s));
        st ← SlruRecentlyUsed st slotno;
        Ok (slotno, st)
    end.

Fixpoint find_readable (l : list (Slot P)) (i pageno : Z) : option Z :=
  match l with
  | [] => None
  | s :: l =>
      if holds pageno s && negb (bool_decide (page_status s = SLRU_PAGE_READ_IN_PROGRESS)) then Some i
      else find_readable l (i + 1) pageno
  end.

Definition SimpleLruReadPage_ReadOnly st (pageno : Z) : outcome (Z * Slru P) :=
  match find_readable (slots st) 0 pageno with
  | Some slotno =>
      st ← SlruRecentlyUsed st slotno;
      Ok (slotno, st)
  | None => SimpleLruReadPage st pageno true
  end.

Fixpoint flush_slots (n : nat) (slotno : Z) st : outcome (Slru P) :=
  match n with
  | O => Ok st
  | S n =>
      st ← SlruInternalWritePage st slotno;
      flush_slots n (slotno + 1) st
  end.

Definition SimpleLruFlush st : outcome (Slru P) := flush_slots (length (slots st)) 0 st.

(** ** Removing old segments *)

Definition SlruMayDeleteSegment (segpage cutoffPage : Z) : bool :=
  let seg_last_page := segpage + SLRU_PAGES_PER_SEGMENT - 1 in
  PagePrecedes segpage cutoffPage && PagePrecedes seg_last_page cutoffPage.

(** [SlruScanDirectory] with the callback [SlruScanDirCbReportPresence]. *)
Definition SlruScanDirCbReportPresence st (cutoffPage : Z) : bool :=
  existsb (fun p => SlruMayDeleteSegment (fst p * SLRU_PAGES_PER_SEGMENT) cutoffPage) (map_to_list (files st)).

(** [SlruScanDirectory] with the callback [SlruScanDirCbDeleteCutoff]. *)
Definition SlruScanDirCbDeleteCutoff st (cutoffPage : Z) : Slru P :=
  set_files st (filter (fun p => SlruMayDeleteSegment (fst p * SLRU_PAGES_PER_SEGMENT) cutoffPage = false) (files st)).

(** Empties the clean slots of pages selected by [old] until one has to be
    written, whose number is returned. *)
Fixpoint evict_scan (old : Z -> bool) (i : Z) (l : list (Slot P)) : list (Slot P) * option Z :=
  match l with
  | [] => ([], None)
  | s :: l =>
      if is_empty s || negb (old (page_number s)) then
        let '(l, r) := evict_scan old (i + 1) l in (s :: l, r)
      else if bool_decide (page_status s = SLRU_PAGE_VALID) && negb (page_dirty s) then
        let '(l, r) := evict_scan old (i + 1) l in (with_status s SLRU_PAGE_EMPTY (page_dirty s) :: l, r)
      else (s :: l, Some i)
  end.

Fixpoint truncate_loop (fuel : nat) st (cutoffPage : Z) : outcome (Slru P) :=
  match fuel with
  | O => Err "fuel"
  | S fuel =>
      if PagePrecedes (latest_page_number st) cutoffPage then Ok st
      else
        let '(l, r) := evict_scan (fun p => PagePrecedes p cutoffPage) 0 (slots st) in
        let st := mkSlru l (cur_lru_count st) (latest_page_number st) (files st) in
        match r with
        | Some slotno =>
            s ← zget (slots st) slotno;
            if bool_decide (page_status s = SLRU_PAGE_VALID) then
              st ← SlruInternalWritePage st slotno;
              truncate_loop fuel st cutoffPage
            else SimpleLruWaitIO
        | None => Ok (SlruScanDirCbDeleteCutoff st cutoffPage)
        end
  end.

(** Every restart follows the cleaning of a dirty slot. *)
Definition SimpleLruTruncate st (cutoffPage : Z) : outcome (Slru P) :=
  truncate_loop (S (length (slots st))) st cutoffPage.
End Operations.

Arguments SimpleLruDoesPhysicalPageExist {P}.
Arguments SimpleLruWaitIO {A}.

(** ** What the log holds *)

Section Contents.
  Context {P : Type} `{!SlruCtl P}.

  Implicit Types (st : Slru P) (s : Slot P).

(** The page as a reader outside recovery gets it: from its slot, or from disk. *)
Definition slru_content st (pageno : Z) : option P :=
  match list_find (fun s => holds pageno s = true) (slots st) with
  | Some (_, s) => Some (page_buffer s)
  | None => SlruPhysicalReadPage false (files st) pageno
  end.

Record slru_ok st : Prop := {
  ok_size : (2 <= length (slots st))%nat;
  ok_idle : forall i s, slots st !! i = Some s -> page_status s = SLRU_PAGE_EMPTY \/ page_status s = SLRU_PAGE_VALID;
  ok_pages : forall i s, slots st !! i = Some s -> is_empty s = false -> 0 <= page_number s;
  ok_unique : forall i j s s', slots st !! i = Some s -> slots st !! j = Some s' ->
                is_empty s = false -> is_empty s' = false -> page_number s = page_number s' -> i = j;
  ok_clean : forall i s, slots st !! i = Some s -> is_empty s = false -> page_dirty s = false ->
               SlruPhysicalReadPage false (files st) (page_number s) = Some (page_buffer s)
}.

(** No page is lost or changed; a page that was missing may appear as zeroes,
    when a later page of its file is written. *)
Definition extends st st' : Prop :=
  forall p, 0 <= p ->
    slru_content st' p = slru_content st p \/
    slru_content st p = None /\ slru_content st' p = Some zero_page.

#[export] Instance extends_preorder : PreOrder extends.
Proof.
  split; [by left |]. intros a b c Hab Hbc p Hp.
  destruct (Hab p Hp) as [E1 | [E1 E2]], (Hbc p Hp) as [E3 | [E3 E4]]; rewrite ?E1, ?E2, ?E3, ?E4 in *; auto; congruence.
Qed.

(** ** Files *)

Lemma file_write_same (f : list P) n x : file_write f n x !! n = Some x.
Proof.
  unfold file_write. destruct (decide _); [by apply list_lookup_insert_eq |].
  rewrite lookup_app_r, lookup_app_r, length_replicate by (rewrite ?length_replicate; lia).
  by replace (n - length f - (n - length f))%nat with O by lia.
Qed.

Lemma file_write_other (f : list P) n m x :
  n <> m -> file_write f n x !! m = f !! m \/ f !! m = None /\ file_write f n x !! m = Some zero_page.
Proof.
  intros Hne. unfold file_write. destruct (decide _); [left; by apply list_lookup_insert_ne |].
  destruct (decide (m < length f)%nat); [left; by apply lookup_app_l |].
  rewrite lookup_app_r by lia. rewrite (lookup_ge_None_2 f) by lia.
  destruct (decide (m < n)%nat) as [Hlt | Hge].
  - right. split; [done |]. rewrite lookup_app_l by (rewrite length_replicate; lia).
    apply lookup_replicate_2. lia.
  - left. apply lookup_ge_None_2. rewrite length_app, length_replicate. cbn. lia.
Qed.

Local Notation read := (SlruPhysicalReadPage false).

Lemma read_write_same (fs : gmap Z (list P)) p x : read (SlruPhysicalWritePage fs p x) p = Some x.
Proof. unfold SlruPhysicalReadPage, SlruPhysicalWritePage. rewrite lookup_insert_eq. apply file_write_same. Qed.

Lemma read_write_other (fs : gmap Z (list P)) p q x :
  0 <= p -> 0 <= q -> p <> q ->
  read (SlruPhysicalWritePage fs p x) q = read fs q \/
  read fs q = None /\ read (SlruPhysicalWritePage fs p x) q = Some zero_page.
Proof.
  intros Hp Hq Hne. unfold SlruPhysicalReadPage, SlruPhysicalWritePage, SLRU_PAGES_PER_SEGMENT.
  destruct (decide (p / 32 = q / 32)) as [E | E]; [| left; by rewrite lookup_insert_ne].
  rewrite E, lookup_insert_eq.
  destruct (file_write_other (default [] (fs !! (q / 32))) (Z.to_nat (p mod 32)) (Z.to_nat (q mod 32)) x) as [H | [H1 H2]].
  - zlia.
  - rewrite H. destruct (fs !! (q / 32)); [by left | left; done].
  - right. split; [| done]. by destruct (fs !! (q / 32)).
Qed.

(** ** Slots *)

Lemma content_cases st p :
  slru_ok st ->
  (exists i s, slots st !! i = Some s /\ holds p s = true /\ slru_content st p = Some (page_buffer s)) \/
  ((forall i s, slots st !! i = Some s -> holds p s = false) /\ slru_content st p = read (files st) p).
Proof.
  intros _. unfold slru_content. destruct (list_find _ (slots st)) as [[i s] |] eqn:E.
  - left. apply list_find_Some in E as (E & H & _). eauto.
  - right. split; [| done]. intros i s Hi. apply list_find_None in E.
    rewrite Forall_lookup in E. specialize (E i s Hi). by destruct (holds p s).
Qed.

Lemma holds_spec p s : holds p s = true <-> page_number s = p /\ is_empty s = false.
Proof. unfold holds. destruct (is_empty s); cbn; rewrite ?andb_true_r, ?andb_false_r; split; [done | by intros [] | lia | lia]. Qed.

Lemma content_slot st i s :
  slru_ok st -> slots st !! i = Some s -> is_empty s = false -> slru_content st (page_number s) = Some (page_buffer s).
Proof.
  intros Hok Hi He. destruct (content_cases st (page_number s) Hok) as [(j & s' & Hj & Hs & ->) | [Hn _]].
  - apply holds_spec in Hs as [Hp He']. rewrite (ok_unique st Hok i j s s') in Hi by done. congruence.
  - specialize (Hn i s Hi). assert (holds (page_number s) s = true) by (by apply holds_spec). congruence.
Qed.

Lemma content_disk st p :
  slru_ok st -> (forall i s, slots st !! i = Some s -> holds p s = false) -> slru_content st p = read (files st) p.
Proof.
  intros Hok Hn. destruct (content_cases st p Hok) as [(i & s & Hi & Hs & _) | [_ E]]; [| done].
  rewrite (Hn i s Hi) in Hs. done.
Qed.

(** Replacing the contents of a slot that is free, clean or holds the same page. *)
Lemma replace_slot st i s s' cur latest :
  slru_ok st -> slots st !! i = Some s ->
  is_empty s = true \/ page_dirty s = false \/ (is_empty s' = false /\ page_number s' = page_number s) ->
  page_status s' = SLRU_PAGE_EMPTY \/ page_status s' = SLRU_PAGE_VALID ->
  (is_empty s' = false ->
     0 <= page_number s' /\ (forall j r, j <> i -> slots st !! j = Some r -> holds (page_number s') r = false) /\
     (page_dirty s' = false -> read (files st) (page_number s') = Some (page_buffer s'))) ->
  let st' := mkSlru (<[i := s']> (slots st)) cur latest (files st) in
  slru_ok st' /\
  forall q, slru_content st' q = if holds q s' then Some (page_buffer s') else slru_content st q.
Proof.
  intros Hok Hi Hold Hidle Hnew st'. pose proof (lookup_lt_Some _ _ _ Hi) as Hlt.
  assert (Hii : slots st' !! i = Some s') by (by apply list_lookup_insert_eq).
  assert (Hij : forall j, j <> i -> slots st' !! j = slots st !! j) by (intros; by apply list_lookup_insert_ne).
  assert (Hok' : slru_ok st').
  { destruct Hok as [Hsz Hid Hpg Hun Hcl]. constructor.
    - cbn. by rewrite length_insert.
    - intros j r Hj. destruct (decide (j = i)) as [-> | Hne]; [rewrite Hii in Hj; by injection Hj as <- |].
      rewrite Hij in Hj by done. by eapply Hid.
    - intros j r Hj He. destruct (decide (j = i)) as [-> | Hne].
      + rewrite Hii in Hj. injection Hj as <-. by apply Hnew.
      + rewrite Hij in Hj by done. by eapply Hpg.
    - intros j k r r' Hj Hk He He' Epg.
      destruct (decide (j = i)) as [-> | Hnj], (decide (k = i)) as [-> | Hnk]; [done | | |].
      + rewrite Hii in Hj. injection Hj as <-. rewrite Hij in Hk by done.
        destruct (Hnew He) as (_ & Hno & _). specialize (Hno k r' Hnk Hk).
        assert (holds (page_number s') r' = true) by (by apply holds_spec). congruence.
      + rewrite Hii in Hk. injection Hk as <-. rewrite Hij in Hj by done.
        destruct (Hnew He') as (_ & Hno & _). specialize (Hno j r Hnj Hj).
        assert (holds (page_number s') r = true) by (by apply holds_spec). congruence.
      + rewrite Hij in Hj, Hk by done. by eapply Hun.
    - intros j r Hj He Hd. destruct (decide (j = i)) as [-> | Hne].
      + rewrite Hii in Hj. injection Hj as <-. by apply Hnew.
      + rewrite Hij in Hj by done. by eapply Hcl. }
  split; [done |]. intros q. destruct (holds q s') eqn:Hs'.
  { apply holds_spec in Hs' as [<- He]. by eapply content_slot. }
  destruct (content_cases st q Hok) as [(j & r & Hj & Hr & ->) | [Hn ->]].
  - apply holds_spec in Hr as [<- He]. destruct (decide (j = i)) as [-> | Hne].
    + rewrite Hi in Hj. injection Hj as <-. destruct Hold as [Ho | [Ho | [Ho1 Ho2]]]; [congruence | |].
      * rewrite content_disk; [by eapply (ok_clean st Hok) | done |]. intros k r Hk.
        destruct (decide (k = i)) as [-> | Hnk]; [rewrite Hii in Hk; by injection Hk as <- |].
        rewrite Hij in Hk by done. destruct (holds (page_number s) r) eqn:Hr; [| done].
        apply holds_spec in Hr as [Ep Er]. destruct Hnk. symmetry. by eapply (ok_unique st Hok i k s r).
      * assert (holds (page_number s) s' = true) by (by apply holds_spec). congruence.
    + eapply content_slot; [done | by rewrite Hij | done].
  - apply (content_disk st'); [done |]. intros k r Hk.
    destruct (decide (k = i)) as [-> | Hnk]; [rewrite Hii in Hk; by injection Hk as <- |].
    rewrite Hij in Hk by done. by eapply Hn.
Qed.

(** Slots that differ in their age only. *)
Definition same_slot s s' : Prop :=
  page_buffer s = page_buffer s' /\ page_status s = page_status s' /\ page_dirty s = page_dirty s' /\
  page_number s = page_number s'.

Lemma same_slot_holds p s s' : same_slot s s' -> holds p s = holds p s' /\ is_empty s = is_empty s'.
Proof. intros (_ & E & _ & En). unfold holds, is_empty. by rewrite E, En. Qed.

Lemma same_slots_ok st l cur latest :
  slru_ok st -> Forall2 same_slot (slots st) l ->
  let st' := mkSlru l cur latest (files st) in
  slru_ok st' /\ forall q, slru_content st' q = slru_content st q.
Proof.
  intros Hok Hl st'.
  assert (Hback : forall i s', l !! i = Some s' -> exists s, slots st !! i = Some s /\ same_slot s s').
  { intros i s' Hi. by eapply Forall2_lookup_r. }
  assert (Hok' : slru_ok st').
  { destruct Hok as [Hsz Hid Hpg Hun Hcl]. constructor; cbn [slots files st'].
    - by rewrite <- (Forall2_length _ _ _ Hl).
    - intros i s' Hi. destruct (Hback i s' Hi) as (s & Hs & _ & <- & _). by eapply Hid.
    - intros i s' Hi He. destruct (Hback i s' Hi) as (s & Hs & Hss).
      destruct (same_slot_holds 0 s s' Hss) as [_ Ee]. destruct Hss as (_ & _ & _ & <-). eapply Hpg; [done | congruence].
    - intros i j s' r' Hi Hj He He' Ep. destruct (Hback i s' Hi) as (s & Hs & Hss). destruct (Hback j r' Hj) as (r & Hr & Hrr).
      destruct (same_slot_holds 0 s s' Hss) as [_ Ee]. destruct (same_slot_holds 0 r r' Hrr) as [_ Er].
      destruct Hss as (_ & _ & _ & Es), Hrr as (_ & _ & _ & Err). eapply Hun; [done | done | congruence ..].
    - intros i s' Hi He Hd. destruct (Hback i s' Hi) as (s & Hs & Hss).
      destruct (same_slot_holds 0 s s' Hss) as [_ Ee]. destruct Hss as (<- & _ & Edd & <-).
      eapply Hcl; [done | congruence ..]. }
  split; [done |]. intros q. destruct (content_cases st' q Hok') as [(i & s' & Hi & Hs & ->) | [Hn ->]].
  - destruct (Hback i s' Hi) as (s & Hs' & Hss). destruct (same_slot_holds q s s' Hss) as [Eh _].
    rewrite <- Eh in Hs. apply holds_spec in Hs as [<- He]. rewrite (content_slot st i s) by done.
    by destruct Hss as (-> & _).
  - symmetry. apply (content_disk st); [done |]. intros i s Hi.
    destruct (Forall2_lookup_l _ _ _ _ _ Hl Hi) as (s' & Hi' & Hss). destruct (same_slot_holds q s s' Hss) as [-> _].
    by eapply Hn.
Qed.

Lemma idle_empty s : page_status s = SLRU_PAGE_EMPTY \/ page_status s = SLRU_PAGE_VALID ->
  if is_empty s then page_status s = SLRU_PAGE_EMPTY else page_status s = SLRU_PAGE_VALID.
Proof. unfold is_empty. intros [E | E]; rewrite E; done. Qed.

Lemma valid_not_empty s : page_status s = SLRU_PAGE_VALID -> is_empty s = false.
Proof. unfold is_empty. by intros ->. Qed.

Lemma set_slot_nat st i s : (i < length (slots st))%nat ->
  set_slot st (Z.of_nat i) s = Ok (mkSlru (<[i := s]> (slots st)) (cur_lru_count st) (latest_page_number st) (files st)).
Proof.
  intros Hi. unfold set_slot. rewrite zset_ok by (unfold zlen; lia). cbn [mbind outcome_bind]. by rewrite Nat2Z.id.
Qed.

(** Writing a dirty page: the slot is clean, the file has the page. *)
Definition written st i s : Slru P :=
  mkSlru (<[i := with_status s SLRU_PAGE_VALID false]> (slots st)) (cur_lru_count st) (latest_page_number st)
    (SlruPhysicalWritePage (files st) (page_number s) (page_buffer s)).

Lemma write_page_dirty st i s :
  slots st !! i = Some s -> page_status s = SLRU_PAGE_VALID -> page_dirty s = true ->
  SlruInternalWritePage st (Z.of_nat i) = Ok (written st i s).
Proof.
  intros Hi Hv Hd. pose proof (lookup_lt_Some _ _ _ Hi) as Hlt. unfold SlruInternalWritePage.
  rewrite (zget_nat _ _ _ Hi). cbn [mbind outcome_bind]. rewrite Hv, Hd. cbn [negb orb].
  rewrite bool_decide_eq_false_2, bool_decide_eq_true_2 by done. cbn [negb].
  rewrite set_slot_nat by done. cbn [mbind outcome_bind]. unfold set_files. cbn [slots cur_lru_count latest_page_number files].
  rewrite set_slot_nat by (cbn; by rewrite length_insert). cbn [slots cur_lru_count latest_page_number files].
  by rewrite list_insert_insert_eq.
Qed.

Lemma write_page_clean st i s :
  slru_ok st -> slots st !! i = Some s -> is_empty s = true \/ page_dirty s = false ->
  SlruInternalWritePage st (Z.of_nat i) = Ok st.
Proof.
  intros Hok Hi Hc. unfold SlruInternalWritePage. rewrite (zget_nat _ _ _ Hi). cbn [mbind outcome_bind].
  pose proof (idle_empty s (ok_idle st Hok i s Hi)) as Hs.
  destruct (is_empty s); rewrite Hs; rewrite bool_decide_eq_false_2 by done.
  - rewrite bool_decide_eq_false_2 by done. cbn. by rewrite orb_true_r.
  - destruct Hc as [Hc | ->]; [done |]. done.
Qed.

Lemma written_ok st i s :
  slru_ok st -> slots st !! i = Some s -> is_empty s = false -> slru_ok (written st i s) /\ extends st (written st i s).
Proof.
  intros Hok Hi He. pose proof (lookup_lt_Some _ _ _ Hi) as Hlt. set (s' := with_status s SLRU_PAGE_VALID false).
  assert (Hii : slots (written st i s) !! i = Some s') by (by apply list_lookup_insert_eq).
  assert (Hij : forall j, j <> i -> slots (written st i s) !! j = slots st !! j) by (intros; by apply list_lookup_insert_ne).
  assert (Hother : forall j r, j <> i -> slots st !! j = Some r -> is_empty r = false -> page_number r <> page_number s).
  { intros j r Hne Hj Her Ep. apply Hne. by eapply (ok_unique st Hok j i r s). }
  assert (Hp : 0 <= page_number s) by (by eapply ok_pages).
  assert (Hok' : slru_ok (written st i s)).
  { destruct Hok as [Hsz Hid Hpg Hun Hcl]. constructor.
    - cbn. by rewrite length_insert.
    - intros j r Hj. destruct (decide (j = i)) as [-> | Hne].
      + rewrite Hii in Hj. injection Hj as <-. by right.
      + rewrite Hij in Hj by done. by eapply Hid.
    - intros j r Hj Her. destruct (decide (j = i)) as [-> | Hne].
      + rewrite Hii in Hj. by injection Hj as <-.
      + rewrite Hij in Hj by done. by eapply Hpg.
    - intros j k r r' Hj Hk Her Her' Ep.
      destruct (decide (j = i)) as [-> | Hnj], (decide (k = i)) as [-> | Hnk]; [done | | |].
      + rewrite Hii in Hj. injection Hj as <-. rewrite Hij in Hk by done. cbn in Ep. by destruct (Hother k r').
      + rewrite Hii in Hk. injection Hk as <-. rewrite Hij in Hj by done. cbn in Ep. by destruct (Hother j r).
      + rewrite Hij in Hj, Hk by done. by eapply Hun.
    - intros j r Hj Her Hd. destruct (decide (j = i)) as [-> | Hne].
      + rewrite Hii in Hj. injection Hj as <-. apply read_write_same.
      + rewrite Hij in Hj by done. cbn [files written].
        destruct (read_write_other (files st) (page_number s) (page_number r) (page_buffer s)) as [-> | [E _]]; try done.
        * by eapply Hpg.
        * intros Ep. by destruct (Hother j r).
        * by eapply Hcl.
        * rewrite (Hcl j r) in E by done. done. }
  split; [done |]. intros q Hq. destruct (content_cases st q Hok) as [(j & r & Hj & Hr & ->) | [Hn ->]].
  - left. apply holds_spec in Hr as [<- Her]. destruct (decide (j = i)) as [-> | Hne].
    + rewrite Hi in Hj. injection Hj as <-. by apply (content_slot (written st i s) i s').
    + apply (content_slot (written st i s) j r); [done | by rewrite Hij | done].
  - rewrite content_disk; [| done |].
    + cbn [files written]. apply read_write_other; [done | done |]. intros Eq.
      assert (Hh : holds q s = true) by (by apply holds_spec). by rewrite (Hn i s Hi) in Hh.
    + intros k r Hk. destruct (decide (k = i)) as [-> | Hne].
      * rewrite Hii in Hk. injection Hk as <-. specialize (Hn i s Hi). unfold holds in *. cbn. 
        rewrite He in Hn. by rewrite andb_true_r in *.
      * rewrite Hij in Hk by done. by eapply Hn.
Qed.

(** ** Choosing a slot *)

#[local] Instance same_slot_refl : Reflexive same_slot.
Proof. done. Qed.

Lemma find_slot_spec l : forall i p,
  match find_slot l i p with
  | Some j => exists k s, j = i + Z.of_nat k /\ l !! k = Some s /\ holds p s = true
  | None => forall k s, l !! k = Some s -> holds p s = false
  end.
Proof.
  induction l as [| s l IH]; intros i p; cbn [find_slot]; [intros k s Hk; by rewrite lookup_nil in Hk |].
  destruct (holds p s) eqn:Hs; [exists O, s; split; [lia | done] |].
  specialize (IH (i + 1) p). destruct (find_slot l (i + 1) p).
  - destruct IH as (k & r & -> & Hk & Hr). exists (S k), r. split; [lia | done].
  - intros [| k] r Hk; cbn in Hk; [by injection Hk as <- | by eapply IH].
Qed.

(** The age of a slot, never negative. *)
Definition aged (cur_count : Z) s : Slot P * Z :=
  let delta := s32 (cur_count - page_lru_count s) in
  if delta <? 0
  then (mkSlot (page_buffer s) (page_status s) (page_dirty s) (page_number s) cur_count, 0)
  else (s, delta).

Lemma aged_ok cur s : same_slot s (fst (aged cur s)) /\ 0 <= snd (aged cur s).
Proof. unfold aged. destruct (Z.ltb_spec (s32 (cur - page_lru_count s)) 0); cbn; split; done || lia. Qed.

Definition scan_result (latest i : Z) (l : list (Slot P)) (valid : Best) (r : Z + Best * Best) : Prop :=
  match r with
  | inl j => exists k s, j = i + Z.of_nat k /\ l !! k = Some s /\ is_empty s = true
  | inr (v, _) =>
      (forall k s, l !! k = Some s -> is_empty s = false) /\
      ((v = valid /\ (0 <= best_delta valid \/ forall k s, l !! k = Some s -> page_number s = latest)) \/
       (0 <= best_delta v /\ exists k s, best_slot v = i + Z.of_nat k /\ l !! k = Some s /\ page_number s <> latest))
  end.

Lemma scan_result_cons latest i s l valid valid' r :
  is_empty s = false ->
  (valid' = valid /\ (0 <= best_delta valid \/ page_number s = latest)) \/
    (best_slot valid' = i /\ 0 <= best_delta valid' /\ page_number s <> latest) ->
  scan_result latest (i + 1) l valid' r -> scan_result latest i (s :: l) valid r.
Proof.
  intros He Hv. destruct r as [j | [v w]]; cbn.
  - intros (k & r & -> & Hk & Hr). exists (S k), r. split; [lia | done].
  - intros [Hne Hcase]. split; [intros [| k] r Hk; cbn in Hk; [by injection Hk as <- | by eapply Hne] |].
    destruct Hcase as [[-> Hd] | (Hd & k & r & -> & Hk & Hr)].
    + destruct Hv as [[-> Hs] | (Hb & Hd' & Hp)].
      * left. split; [done |]. destruct Hs as [Hs | Hs]; [by left |]. destruct Hd as [Hd | Hd]; [by left |].
        right. intros [| k] r Hk; cbn in Hk; [by injection Hk as <- | by eapply Hd].
      * right. split; [done |]. exists O, s. split; [lia | done].
    + right. split; [done |]. exists (S k), r. split; [lia | done].
Qed.

Lemma select_scan_ok cur latest l : forall i valid invalid l' r,
  (forall k s, l !! k = Some s -> page_status s = SLRU_PAGE_EMPTY \/ page_status s = SLRU_PAGE_VALID) ->
  select_scan cur latest i l valid invalid = (l', r) ->
  Forall2 same_slot l l' /\ scan_result latest i l valid r.
Proof.
  induction l as [| s l IH]; intros i valid invalid l' r Hidle E; cbn [select_scan] in E.
  - injection E as <- <-. split; [constructor |]. split; [intros k s Hk; by rewrite lookup_nil in Hk |].
    left. split; [done |]. right. intros k s Hk. by rewrite lookup_nil in Hk.
  - pose proof (idle_empty s (Hidle O s eq_refl)) as Hs. destruct (is_empty s) eqn:He.
    + injection E as <- <-. split; [reflexivity |]. exists O, s. split; [lia | done].
    + change (if s32 (cur - page_lru_count s) <? 0 then _ else _) with (aged cur s) in E.
      destruct (aged_ok cur s) as [Hsame Hdelta]. destruct (aged cur s) as [s1 d]. cbn [fst snd] in *.
      destruct Hsame as (Eb & Est & Edy & Epg). rewrite <- Est, Hs, bool_decide_eq_true_2 in E by done. rewrite <- Epg in E.
      set (valid' := if page_number s =? latest then valid
                     else if better d (page_number s) valid then mkBest i d (page_number s) else valid).
      assert (Ep : (if page_number s =? latest then (valid, invalid)
                    else (if better d (page_number s) valid then mkBest i d (page_number s) else valid, invalid))
                   = (valid', invalid)) by (unfold valid'; by destruct (page_number s =? latest)).
      rewrite Ep in E. destruct (select_scan cur latest (i + 1) l valid' invalid) as [l1 r1] eqn:E1. injection E as <- <-.
      destruct (IH (i + 1) valid' invalid l1 r1) as [Hl Hr]; [intros k r0; apply (Hidle (S k)) | done |].
      split; [constructor; [split_and!; done | done] |].
      apply (scan_result_cons latest i s l valid valid'); [done | | done].
      unfold valid'. destruct (Z.eqb_spec (page_number s) latest) as [El | Nl]; [left; auto |].
      destruct (better d (page_number s) valid) eqn:Eb'; [right; cbn; split_and!; (done || lia) |].
      left. split; [done |]. left. unfold better in Eb'. apply orb_false_iff in Eb' as [Eb' _]. lia.
Qed.

Definition dirty_slots (l : list (Slot P)) : nat := length (filter (fun s => page_dirty s = true) l).

Lemma dirty_slots_same l l' : Forall2 same_slot l l' -> dirty_slots l = dirty_slots l'.
Proof.
  unfold dirty_slots. induction 1 as [| s s' l l' (_ & _ & E & _) _ IH]; [done |].
  rewrite !filter_cons, E. destruct (decide _); cbn; by rewrite IH.
Qed.

Lemma dirty_slots_clean (l : list (Slot P)) : forall i s s',
  l !! i = Some s -> page_dirty s = true -> page_dirty s' = false ->
  dirty_slots l = S (dirty_slots (<[i := s']> l)).
Proof.
  unfold dirty_slots. induction l as [| r l IH]; intros i s s' Hi Hd Hd'; [done |].
  destruct i as [| i]; cbn in Hi.
  - injection Hi as ->. change (<[O := s']> (s :: l)) with (s' :: l). by rewrite !filter_cons, decide_True, decide_False by (rewrite ?Hd, ?Hd'; done).
  - change (<[S i := s']> (r :: l)) with (r :: <[i := s']> l). rewrite !filter_cons.
    destruct (decide _); cbn; by rewrite (IH i s s').
Qed.

Lemma dirty_slots_le (l : list (Slot P)) : (dirty_slots l <= length l)%nat.
Proof. apply length_filter. Qed.

(** The slot returned holds the page, or no slot does and it may be reused. *)
Definition selected st (p : Z) (i : nat) s : Prop :=
  slots st !! i = Some s /\
  (holds p s = true \/
   (forall j r, slots st !! j = Some r -> holds p r = false) /\ (is_empty s = true \/ page_dirty s = false)).

Lemma not_all_latest st latest :
  slru_ok st -> (forall k s, slots st !! k = Some s -> is_empty s = false) ->
  ~ (forall k s, slots st !! k = Some s -> page_number s = latest).
Proof.
  intros Hok Hne Hall. pose proof (ok_size st Hok) as Hsz.
  destruct (lookup_lt_is_Some_2 (slots st) 0) as [a Ha]; [lia |].
  destruct (lookup_lt_is_Some_2 (slots st) 1) as [b Hb]; [lia |].
  assert (0%nat = 1%nat); [| done]. eapply (ok_unique st Hok 0 1 a b); eauto. by rewrite (Hall 0%nat a), (Hall 1%nat b).
Qed.

Lemma select_loop_ok fuel : forall st p,
  slru_ok st -> 0 <= p -> (dirty_slots (slots st) < fuel)%nat ->
  exists i s st', select_loop fuel st p = Ok (Z.of_nat i, st') /\ slru_ok st' /\ extends st st' /\
    latest_page_number st' = latest_page_number st /\ length (slots st') = length (slots st) /\ selected st' p i s.
Proof.
  induction fuel as [| fuel IH]; intros st p Hok Hp Hfuel; [lia |]. cbn [select_loop].
  pose proof (find_slot_spec (slots st) 0 p) as Hfind. destruct (find_slot (slots st) 0 p) as [j |].
  { destruct Hfind as (k & s & -> & Hk & Hs). exists k, s, st. split_and!; try done. split; auto. }
  destruct (select_scan _ _ _ _ _ _) as [l r] eqn:Escan.
  destruct (select_scan_ok _ _ _ _ _ _ _ _ (ok_idle st Hok) Escan) as [Hsame Hres].
  set (st1 := mkSlru l (s32 (cur_lru_count st + 1)) (latest_page_number st) (files st)).
  destruct (same_slots_ok st l (s32 (cur_lru_count st + 1)) (latest_page_number st) Hok Hsame) as [Hok1 Hc1].
  fold st1 in Hok1, Hc1. assert (He1 : extends st st1) by (intros q _; left; apply Hc1).
  assert (Hlen1 : length (slots st1) = length (slots st)) by (symmetry; by eapply Forall2_length).
  assert (Hno : forall j s, slots st1 !! j = Some s -> holds p s = false).
  { intros j s Hj. destruct (Forall2_lookup_r _ _ _ _ _ Hsame Hj) as (s0 & H0 & Hss).
    destruct (same_slot_holds p s0 s Hss) as [<- _]. by eapply Hfind. }
  destruct r as [j | [v w]]; cbn [scan_result] in Hres.
  - destruct Hres as (k & s0 & -> & Hk & Hs). destruct (Forall2_lookup_l _ _ _ _ _ Hsame Hk) as (s & Hk' & Hss).
    destruct (same_slot_holds p s0 s Hss) as [_ Ee]. exists k, s, st1. split_and!; try done.
    split; [done |]. right. split; [done |]. left. congruence.
  - destruct Hres as [Hne [[-> [Hd | Hall]] | (Hd & k & s0 & Eslot & Hk & Hpg)]]; [cbn in Hd; lia | |].
    { by destruct (not_all_latest st (latest_page_number st)). }
    replace (best_delta v <? 0) with false by lia.
    destruct (Forall2_lookup_l _ _ _ _ _ Hsame Hk) as (s & Hk' & Hss). destruct (same_slot_holds p s0 s Hss) as [_ Ee].
    rewrite Eslot. change (0 + Z.of_nat k) with (Z.of_nat k). rewrite (zget_nat (slots st1) k s Hk').
    cbn [mbind outcome_bind]. destruct (page_dirty s) eqn:Hdirty; cbn [negb].
    + assert (Hes : is_empty s = false) by (rewrite <- Ee; by eapply Hne).
      pose proof (idle_empty s (ok_idle st1 Hok1 k s Hk')) as Hv. rewrite Hes in Hv.
      rewrite (write_page_dirty st1 k s) by done. cbn [mbind outcome_bind].
      destruct (written_ok st1 k s Hok1 Hk' Hes) as [Hok2 He2].
      destruct (IH (written st1 k s) p Hok2 Hp) as (i & s' & st' & -> & Hok' & He' & Hlat & Hlen & Hsel).
      { pose proof (dirty_slots_clean (slots st1) k s (with_status s SLRU_PAGE_VALID false) Hk' Hdirty eq_refl) as Hdc.
        rewrite (dirty_slots_same (slots st) (slots st1)) in Hfuel by done. cbn [slots written]. lia. }
      exists i, s', st'. split_and!; try done.
      * by rewrite He1, He2.
      * rewrite Hlen. cbn [slots written]. by rewrite length_insert.
    + exists k, s, st1. split_and!; try done. split; [done |]. right. auto.
Qed.

Lemma select_page_ok st p :
  slru_ok st -> 0 <= p ->
  exists i s st', SlruSelectLRUPage st p = Ok (Z.of_nat i, st') /\ slru_ok st' /\ extends st st' /\
    latest_page_number st' = latest_page_number st /\ length (slots st') = length (slots st) /\ selected st' p i s.
Proof. intros Hok Hp. apply select_loop_ok; [done | done |]. pose proof (dirty_slots_le (slots st)). lia. Qed.

(** ** Pages *)

Lemma recently_used_ok st i s :
  slru_ok st -> slots st !! i = Some s ->
  exists s' st', SlruRecentlyUsed st (Z.of_nat i) = Ok st' /\ slru_ok st' /\ extends st st' /\
    (forall q, slru_content st' q = slru_content st q) /\ latest_page_number st' = latest_page_number st /\
    length (slots st') = length (slots st) /\ files st' = files st /\ slots st' !! i = Some s' /\ same_slot s s'.
Proof.
  intros Hok Hi. pose proof (lookup_lt_Some _ _ _ Hi) as Hlt. unfold SlruRecentlyUsed.
  rewrite (zget_nat _ _ _ Hi). cbn [mbind outcome_bind].
  destruct (negb _); [| exists s, st; split_and!; try done; by intros q; left].
  set (c := s32 (cur_lru_count st + 1)).
  set (s' := mkSlot (page_buffer s) (page_status s) (page_dirty s) (page_number s) c).
  rewrite set_slot_nat by done. cbn [slots cur_lru_count latest_page_number files].
  assert (Hsame : Forall2 same_slot (slots st) (<[i := s']> (slots st))).
  { apply Forall2_same_length_lookup. split; [by rewrite length_insert |]. intros j a b Ha Hb.
    destruct (decide (j = i)) as [-> | Hne].
    - rewrite list_lookup_insert_eq in Hb by done. injection Hb as <-. rewrite Hi in Ha. by injection Ha as <-.
    - rewrite list_lookup_insert_ne in Hb by done. rewrite Ha in Hb. by injection Hb as <-. }
  destruct (same_slots_ok st _ c (latest_page_number st) Hok Hsame) as [Hok' Hc'].
  eexists s', _. split; [done |]. cbn [slots latest_page_number files].
  split_and!; try done; [intros q _; left; apply Hc' | by rewrite length_insert | by apply list_lookup_insert_eq].
Qed.

(** A page is at hand in a slot. *)
Definition loaded st (p : Z) (i : nat) s : Prop :=
  slots st !! i = Some s /\ page_status s = SLRU_PAGE_VALID /\ page_number s = p.

Lemma loaded_content st p i s : slru_ok st -> loaded st p i s -> slru_content st p = Some (page_buffer s).
Proof. intros Hok (Hi & Hv & <-). apply (content_slot st i); [done | done | by apply valid_not_empty]. Qed.

Definition fetched st (p : Z) (r : outcome (Z * Slru P)) : Prop :=
  (exists i s st', r = Ok (Z.of_nat i, st') /\ slru_ok st' /\ extends st st' /\
     latest_page_number st' = latest_page_number st /\ length (slots st') = length (slots st) /\ loaded st' p i s) \/
  (exists msg, r = Err msg /\ slru_content st p = None).

Lemma holds_loaded st p i s :
  slru_ok st -> slots st !! i = Some s -> holds p s = true -> loaded st p i s.
Proof.
  intros Hok Hi Hs. apply holds_spec in Hs as [Hp He]. pose proof (idle_empty s (ok_idle st Hok i s Hi)) as Hv.
  rewrite He in Hv. split; [done | split; done].
Qed.

Lemma use_loaded st st0 p i s :
  slru_ok st -> extends st0 st -> latest_page_number st = latest_page_number st0 ->
  length (slots st) = length (slots st0) -> loaded st p i s ->
  fetched st0 p (st' ← SlruRecentlyUsed st (Z.of_nat i); Ok (Z.of_nat i, st')).
Proof.
  intros Hok He Hlat Hlen (Hi & Hv & Hp).
  destruct (recently_used_ok st i s Hok Hi) as (s' & st' & -> & Hok' & He' & _ & Hlat' & Hlen' & _ & Hi' & (_ & Ev & _ & Ep)).
  left. exists i, s', st'. cbn [mbind outcome_bind]. split_and!; try done; [by rewrite He | congruence .. |].
  split; [done | split; congruence].
Qed.

Lemma read_page_ok st p write_ok :
  slru_ok st -> 0 <= p -> fetched st p (SimpleLruReadPage false st p write_ok).
Proof.
  intros Hok Hp. unfold SimpleLruReadPage.
  destruct (select_page_ok st p Hok Hp) as (i & s & st1 & -> & Hok1 & He1 & Hlat & Hlen & Hi & Hsel).
  cbn [mbind outcome_bind]. rewrite (zget_nat _ _ _ Hi). cbn [mbind outcome_bind].
  destruct (holds p s) eqn:Hh.
  { pose proof (holds_loaded st1 p i s Hok1 Hi Hh) as Hload. destruct Hload as (_ & Hv & _).
    rewrite Hv, !bool_decide_eq_false_2 by done. cbn [andb orb].
    by apply (use_loaded st1 st p i s); [| | | | apply holds_loaded]. }
  destruct Hsel as [? | [Hno Hfree]]; [done |]. pose proof (lookup_lt_Some _ _ _ Hi) as Hlt.
  rewrite set_slot_nat by done. cbn [mbind outcome_bind files].
  destruct (SlruPhysicalReadPage false (files st1) p) as [page |] eqn:Hread.
  - rewrite set_slot_nat by (cbn; by rewrite length_insert). cbn [slots cur_lru_count latest_page_number files].
    rewrite list_insert_insert_eq. cbn [mbind outcome_bind].
    set (s' := mkSlot page SLRU_PAGE_VALID false p (page_lru_count s)).
    destruct (replace_slot st1 i s s' (cur_lru_count st1) (latest_page_number st1) Hok1 Hi) as [Hok2 Hc2].
    + destruct Hfree; auto.
    + by right.
    + intros _. split_and!; [done | intros j r _; apply Hno | done].
    + set (st2 := mkSlru _ _ _ _) in *. eapply use_loaded; [done | | done | | ].
      * rewrite He1. intros q _. left. rewrite Hc2. destruct (holds q s') eqn:Hq; [| done].
        apply holds_spec in Hq as [<- _]. rewrite content_disk; [done | done | done].
      * cbn. by rewrite length_insert.
      * split; [by apply list_lookup_insert_eq | done].
  - right. eexists. split; [done |]. pose proof (content_disk st1 p Hok1 Hno) as E. rewrite Hread in E.
    destruct (He1 p Hp) as [E' | [E' _]]; congruence.
Qed.

Lemma find_readable_spec l : forall i p,
  match find_readable l i p with
  | Some j => exists k s, j = i + Z.of_nat k /\ l !! k = Some s /\ holds p s = true
  | None => True
  end.
Proof.
  induction l as [| s l IH]; intros i p; cbn [find_readable]; [done |].
  destruct (holds p s && _) eqn:Hs; [apply andb_true_iff in Hs as [Hs _]; exists O, s; split; [lia | done] |].
  specialize (IH (i + 1) p). destruct (find_readable l (i + 1) p); [| done].
  destruct IH as (k & r & -> & Hk & Hr). exists (S k), r. split; [lia | done].
Qed.

Lemma read_only_ok st p : slru_ok st -> 0 <= p -> fetched st p (SimpleLruReadPage_ReadOnly false st p).
Proof.
  intros Hok Hp. unfold SimpleLruReadPage_ReadOnly. pose proof (find_readable_spec (slots st) 0 p) as Hf.
  destruct (find_readable (slots st) 0 p) as [j |]; [| by apply read_page_ok].
  destruct Hf as (k & s & -> & Hk & Hs). change (0 + Z.of_nat k) with (Z.of_nat k).
  by apply (use_loaded st st p k s); [| | | | apply holds_loaded].
Qed.

(** Page [p] becomes [c]; the others stay, up to holes that appear. *)
Definition updates st (p : Z) (c : P) st' : Prop :=
  slru_ok st' /\ slru_content st' p = Some c /\
  (forall q, 0 <= q -> q <> p ->
     slru_content st' q = slru_content st q \/ slru_content st q = None /\ slru_content st' q = Some zero_page) /\
  length (slots st') = length (slots st).

Lemma slot_update_ok st p i s page :
  slru_ok st -> loaded st p i s ->
  exists s' st', slot_update st (Z.of_nat i) page = Ok st' /\ slru_ok st' /\ loaded st' p i s' /\ page_buffer s' = page /\
    (forall q, slru_content st' q = if q =? p then Some page else slru_content st q) /\
    latest_page_number st' = latest_page_number st /\ length (slots st') = length (slots st).
Proof.
  intros Hok (Hi & Hv & Hp). pose proof (lookup_lt_Some _ _ _ Hi) as Hlt. unfold slot_update.
  rewrite (zget_nat _ _ _ Hi). cbn [mbind outcome_bind]. rewrite set_slot_nat by done.
  set (s' := mkSlot page (page_status s) true (page_number s) (page_lru_count s)).
  assert (Hes : is_empty s = false) by (by apply valid_not_empty).
  destruct (replace_slot st i s s' (cur_lru_count st) (latest_page_number st) Hok Hi) as [Hok' Hc'].
  - right. right. done.
  - by right.
  - intros _. split_and!; [exact (ok_pages st Hok i s Hi Hes) | | done]. intros j r Hne Hj. destruct (holds _ r) eqn:Hr; [| done].
    apply holds_spec in Hr as [Ep Er]. destruct Hne. by eapply (ok_unique st Hok j i r s).
  - exists s'. eexists. split; [done |]. split_and!; try done.
    + split; [by apply list_lookup_insert_eq | done].
    + intros q. rewrite Hc'. unfold holds. rewrite (valid_not_empty s' Hv). cbn. rewrite Hp.
      by rewrite andb_true_r, (Z.eqb_sym p q).
    + cbn. by rewrite length_insert.
Qed.

Lemma zero_page_ok st p :
  slru_ok st -> 0 <= p ->
  exists i s st', SimpleLruZeroPage st p = Ok (Z.of_nat i, st') /\ updates st p zero_page st' /\
    loaded st' p i s /\ latest_page_number st' = p.
Proof.
  intros Hok Hp. unfold SimpleLruZeroPage.
  destruct (select_page_ok st p Hok Hp) as (i & s & st1 & -> & Hok1 & He1 & _ & Hlen & Hi & Hsel).
  cbn [mbind outcome_bind]. rewrite (zget_nat _ _ _ Hi). cbn [mbind outcome_bind].
  pose proof (lookup_lt_Some _ _ _ Hi) as Hlt. rewrite set_slot_nat by done. cbn [mbind outcome_bind].
  set (s2 := mkSlot (page_buffer s) SLRU_PAGE_VALID true p (page_lru_count s)).
  destruct (replace_slot st1 i s s2 (cur_lru_count st1) (latest_page_number st1) Hok1 Hi) as [Hok2 Hc2].
  { destruct Hsel as [Hh | [_ [Hf | Hf]]]; [| auto | auto]. apply holds_spec in Hh as [Ep _]. auto. }
  { by right. }
  { intros _. split_and!; [done | | done]. intros j r Hne Hj. destruct Hsel as [Hh | [Hno _]]; [| by eapply Hno].
    destruct (holds _ r) eqn:Hr; [| done]. apply holds_spec in Hh as [Eh He]. apply holds_spec in Hr as [Er He'].
    destruct Hne. eapply (ok_unique st1 Hok1 j i r s); [done .. |]. cbn in Er. congruence. }
  set (st2 := mkSlru _ _ _ _) in *.
  assert (Hi2 : slots st2 !! i = Some s2) by (by apply list_lookup_insert_eq).
  destruct (recently_used_ok st2 i s2 Hok2 Hi2) as (s3 & st3 & -> & Hok3 & _ & Hc3 & _ & Hlen3 & _ & Hi3 & (_ & Ev & Ed & Ep)).
  cbn [mbind outcome_bind]. rewrite (zget_nat _ _ _ Hi3). cbn [mbind outcome_bind].
  pose proof (lookup_lt_Some _ _ _ Hi3) as Hlt3. rewrite set_slot_nat by done. cbn [mbind outcome_bind slots cur_lru_count files].
  set (s4 := mkSlot zero_page (page_status s3) (page_dirty s3) (page_number s3) (page_lru_count s3)).
  cbn in Ev, Ep. assert (He4 : is_empty s4 = false) by (by apply valid_not_empty).
  destruct (replace_slot st3 i s3 s4 (cur_lru_count st3) p Hok3 Hi3) as [Hok4 Hc4].
  { right. right. done. }
  { by right. }
  { intros _. split_and!; [cbn [page_number s4]; lia | | ].
    - intros j r Hne Hj. destruct (holds _ r) eqn:Hr; [| done]. apply holds_spec in Hr as [Er He'].
      destruct Hne. eapply (ok_unique st3 Hok3 j i r s3); [done | done | done | | by cbn in Er].
      by apply valid_not_empty.
    - cbn in Ed |- *. rewrite <- Ed. done. }
  exists i, s4. eexists. split; [done |]. unfold updates, loaded. split_and!.
  - exact Hok4.
  - rewrite Hc4. unfold holds. rewrite He4. cbn. by rewrite <- Ep, Z.eqb_refl.
  - intros q Hq Hne. rewrite Hc4. unfold holds. rewrite He4. cbn. replace (page_number s3 =? q) with false by lia. cbn.
    rewrite Hc3, Hc2. unfold holds, s2 at 1 2. cbn. replace (p =? q) with false by lia. cbn. by apply He1.
  - cbn. rewrite length_insert, Hlen3. cbn. by rewrite length_insert, Hlen.
  - by apply list_lookup_insert_eq.
  - by rewrite Ev.
  - by rewrite Ep.
  - done.
Qed.

(** ** Flushing and truncating *)

Lemma write_page_ok st i s :
  slru_ok st -> slots st !! i = Some s ->
  exists st', SlruInternalWritePage st (Z.of_nat i) = Ok st' /\ slru_ok st' /\ extends st st' /\
    latest_page_number st' = latest_page_number st /\ length (slots st') = length (slots st).
Proof.
  intros Hok Hi. destruct (is_empty s) eqn:He; [exists st; rewrite (write_page_clean st i s) by auto; done |].
  destruct (page_dirty s) eqn:Hd; [| exists st; rewrite (write_page_clean st i s) by auto; done].
  pose proof (idle_empty s (ok_idle st Hok i s Hi)) as Hv. rewrite He in Hv.
  exists (written st i s). rewrite (write_page_dirty st i s) by done.
  destruct (written_ok st i s Hok Hi He) as [Hok' He']. split_and!; try done. cbn. by rewrite length_insert.
Qed.

Lemma flush_ok st :
  slru_ok st ->
  exists st', SimpleLruFlush st = Ok st' /\ slru_ok st' /\ extends st st' /\ latest_page_number st' = latest_page_number st.
Proof.
  intros Hok. unfold SimpleLruFlush.
  assert (H : forall n k st0, slru_ok st0 -> (k + n <= length (slots st0))%nat ->
    exists st', flush_slots n (Z.of_nat k) st0 = Ok st' /\ slru_ok st' /\ extends st0 st' /\
      latest_page_number st' = latest_page_number st0).
  { induction n as [| n IH]; intros k st0 Hok0 Hk; [by exists st0 |]. cbn [flush_slots].
    destruct (lookup_lt_is_Some_2 (slots st0) k) as [s Hs]; [lia |].
    destruct (write_page_ok st0 k s Hok0 Hs) as (st1 & -> & Hok1 & He1 & Hlat1 & Hlen1). cbn [mbind outcome_bind].
    replace (Z.of_nat k + 1) with (Z.of_nat (S k)) by lia.
    destruct (IH (S k) st1 Hok1) as (st' & -> & Hok' & He' & Hlat'); [lia |].
    exists st'. split_and!; [done | done | by rewrite He1 | congruence]. }
  apply (H (length (slots st)) O st Hok). lia.
Qed.

(** A clean slot of an old page may have been emptied. *)
Definition evicted (old : Z -> bool) s s' : Prop :=
  s = s' \/
  (is_empty s = false /\ page_dirty s = false /\ old (page_number s) = true /\ s' = with_status s SLRU_PAGE_EMPTY false).

Lemma evict_scan_ok old l : forall i l' r,
  (forall k s, l !! k = Some s -> page_status s = SLRU_PAGE_EMPTY \/ page_status s = SLRU_PAGE_VALID) ->
  evict_scan old i l = (l', r) ->
  Forall2 (evicted old) l l' /\ dirty_slots l' = dirty_slots l /\
  match r with
  | Some j => exists k s, j = i + Z.of_nat k /\ l' !! k = Some s /\ is_empty s = false /\ page_dirty s = true
  | None => forall k s, l' !! k = Some s -> is_empty s = false -> old (page_number s) = false
  end.
Proof.
  induction l as [| s l IH]; intros i l' r Hidle E; cbn [evict_scan] in E.
  - injection E as <- <-. split_and!; [constructor | done | intros k s Hk; by rewrite lookup_nil in Hk].
  - pose proof (idle_empty s (Hidle O s eq_refl)) as Hs. destruct (evict_scan old (i + 1) l) as [l1 r1] eqn:E1.
    destruct (IH (i + 1) l1 r1 (fun k => Hidle (S k)) E1) as (Hl & Hd & Hr).
    assert (Hcons : forall s', evicted old s s' -> page_dirty s' = page_dirty s ->
                (is_empty s' = false -> old (page_number s') = false) ->
                Forall2 (evicted old) (s :: l) (s' :: l1) /\ dirty_slots (s' :: l1) = dirty_slots (s :: l) /\
                match r1 with
                | Some j => exists k s, j = i + Z.of_nat k /\ (s' :: l1) !! k = Some s /\ is_empty s = false /\ page_dirty s = true
                | None => forall k s, (s' :: l1) !! k = Some s -> is_empty s = false -> old (page_number s) = false
                end).
    { intros s' Hss Hdd Hold. split_and!; [by constructor | |].
      - unfold dirty_slots in *. rewrite !filter_cons, Hdd. destruct (decide _); cbn; by rewrite Hd.
      - destruct r1 as [j |].
        + destruct Hr as (k & s0 & -> & Hk & Hrest). exists (S k), s0. split; [lia | done].
        + intros [| k] s0 Hk; cbn in Hk; [by injection Hk as <- | by eapply Hr]. }
    destruct (is_empty s || negb (old (page_number s))) eqn:Ekeep.
    + injection E as <- <-. apply Hcons; [by left | done |]. intros He. rewrite He in Ekeep. cbn in Ekeep.
      by destruct (old (page_number s)).
    + apply orb_false_iff in Ekeep as [He Hold]. rewrite He in Hs.
      rewrite Hs, bool_decide_eq_true_2 in E by done. cbn [andb] in E. destruct (page_dirty s) eqn:Hdirty; cbn [negb] in E.
      * injection E as <- <-. split_and!; [apply Forall2_cons; split; [by left |]; apply Forall_Forall2_diag, Forall_true; by left | done |].
        exists O, s. split; [lia | done].
      * injection E as <- <-. apply Hcons; [| done | done]. right. split_and!; try done. by destruct (old (page_number s)).
Qed.

Lemma evicted_ok old st l cur latest :
  slru_ok st -> Forall2 (evicted old) (slots st) l ->
  let st' := mkSlru l cur latest (files st) in
  slru_ok st' /\ forall q, slru_content st' q = slru_content st q.
Proof.
  intros Hok Hl st'.
  assert (Hback : forall i s', l !! i = Some s' -> exists s, slots st !! i = Some s /\ evicted old s s').
  { intros i s' Hi. by eapply Forall2_lookup_r. }
  assert (Hkeep : forall i s', l !! i = Some s' -> is_empty s' = false -> slots st !! i = Some s').
  { intros i s' Hi He. destruct (Hback i s' Hi) as (s & Hs & [-> | (_ & _ & _ & ->)]); done. }
  assert (Hok' : slru_ok st').
  { destruct Hok as [Hsz Hid Hpg Hun Hcl]. constructor; cbn [slots files st'].
    - by rewrite <- (Forall2_length _ _ _ Hl).
    - intros i s' Hi. destruct (Hback i s' Hi) as (s & Hs & [<- | (_ & _ & _ & ->)]); [by eapply Hid | by left].
    - intros i s' Hi He. eapply Hpg; eauto.
    - intros i j s' r' Hi Hj He He' Ep. eapply (Hun i j s' r'); eauto.
    - intros i s' Hi He Hd. eapply Hcl; eauto. }
  split; [done |]. intros q. destruct (content_cases st q Hok) as [(i & s & Hi & Hs & ->) | [Hn ->]].
  - apply holds_spec in Hs as [<- He]. destruct (Forall2_lookup_l _ _ _ _ _ Hl Hi) as (s' & Hi' & [<- | (_ & Hd & _ & ->)]).
    + by apply (content_slot st' i s).
    + rewrite (content_disk st'); [by eapply (ok_clean st Hok) | done |]. intros k r Hk.
      destruct (holds (page_number s) r) eqn:Hr; [| done]. apply holds_spec in Hr as [Ep Er].
      pose proof (Hkeep k r Hk Er) as Hk0. assert (k = i) as -> by (by eapply (ok_unique st Hok k i r s)).
      cbn in Hk. rewrite Hi' in Hk. injection Hk as <-. done.
  - apply (content_disk st'); [done |]. intros k r Hk. destruct (holds q r) eqn:Hr; [| done].
    pose proof Hr as Hr'. apply holds_spec in Hr' as [_ Er]. rewrite (Hn k r (Hkeep k r Hk Er)) in Hr. done.
Qed.

(** A segment that may be deleted has old pages only. *)
Definition segments_convex (cutoffPage : Z) : Prop :=
  forall p, 0 <= p -> SlruMayDeleteSegment (p / SLRU_PAGES_PER_SEGMENT * SLRU_PAGES_PER_SEGMENT) cutoffPage = true ->
  PagePrecedes p cutoffPage = true.

(** Pages that are not older than the cutoff are kept. *)
Definition kept (cutoffPage : Z) st st' : Prop :=
  forall p, 0 <= p -> PagePrecedes p cutoffPage = false ->
    slru_content st' p = slru_content st p \/
    slru_content st p = None /\ slru_content st' p = Some zero_page.

(** Pages may go, but no contents are made up. *)
Definition shrunk st st' : Prop :=
  forall p, 0 <= p -> slru_content st' p = slru_content st p \/ slru_content st' p = None \/
    slru_content st' p = Some zero_page.

Lemma delete_cutoff_shrunk st cutoff :
  slru_ok st -> slru_ok (SlruScanDirCbDeleteCutoff st cutoff) -> shrunk st (SlruScanDirCbDeleteCutoff st cutoff).
Proof.
  intros Hok Hok' p Hp. set (st' := SlruScanDirCbDeleteCutoff st cutoff) in *.
  destruct (content_cases st p Hok) as [(i & s & Hi & Hs & ->) | [Hn ->]].
  - left. apply holds_spec in Hs as [<- He]. by apply (content_slot st' i s).
  - rewrite (content_disk st') by done. unfold SlruPhysicalReadPage. cbn [files st' SlruScanDirCbDeleteCutoff set_files].
    destruct (filter _ (files st) !! _) as [f |] eqn:Ef; [| by right; left].
    apply map_lookup_filter_Some in Ef as [-> _]. by left.
Qed.

Lemma delete_cutoff_ok st cutoff :
  slru_ok st -> segments_convex cutoff ->
  (forall k s, slots st !! k = Some s -> is_empty s = false -> PagePrecedes (page_number s) cutoff = false) ->
  slru_ok (SlruScanDirCbDeleteCutoff st cutoff) /\ kept cutoff st (SlruScanDirCbDeleteCutoff st cutoff).
Proof.
  intros Hok Hconv Hslots. set (st' := SlruScanDirCbDeleteCutoff st cutoff).
  assert (Hread : forall p, 0 <= p -> PagePrecedes p cutoff = false -> read (files st') p = read (files st) p).
  { intros p Hp Hpre. unfold SlruPhysicalReadPage. cbn [files st' SlruScanDirCbDeleteCutoff set_files].
    assert (Hm : SlruMayDeleteSegment (p / SLRU_PAGES_PER_SEGMENT * SLRU_PAGES_PER_SEGMENT) cutoff = false).
    { destruct (SlruMayDeleteSegment _ _) eqn:E; [| done]. rewrite (Hconv p Hp E) in Hpre. done. }
    destruct (files st !! (p / SLRU_PAGES_PER_SEGMENT)) as [f |] eqn:Ef.
    - by rewrite (map_lookup_filter_Some_2 _ (files st) _ f).
    - by rewrite map_lookup_filter_None_2 by (by left). }
  assert (Hok' : slru_ok st').
  { destruct Hok as [Hsz Hid Hpg Hun Hcl]. constructor; cbn [slots st' SlruScanDirCbDeleteCutoff set_files]; try done.
    intros i s Hi He Hd. rewrite Hread; [by eapply Hcl | by eapply Hpg | by eapply Hslots]. }
  split; [done |]. intros p Hp Hpre. left. destruct (content_cases st p Hok) as [(i & s & Hi & Hs & ->) | [Hn ->]].
  - apply holds_spec in Hs as [<- He]. by apply (content_slot st' i s).
  - rewrite (content_disk st') by done. by apply Hread.
Qed.

Lemma truncate_loop_ok fuel : forall st cutoff,
  slru_ok st -> segments_convex cutoff -> (dirty_slots (slots st) < fuel)%nat ->
  exists st', truncate_loop fuel st cutoff = Ok st' /\ slru_ok st' /\ kept cutoff st st' /\ shrunk st st' /\
    latest_page_number st' = latest_page_number st.
Proof.
  induction fuel as [| fuel IH]; intros st cutoff Hok Hconv Hfuel; [lia |]. cbn [truncate_loop].
  destruct (PagePrecedes (latest_page_number st) cutoff); [exists st; split_and!; try done; by intros p *; left |].
  destruct (evict_scan _ 0 (slots st)) as [l r] eqn:Escan.
  destruct (evict_scan_ok _ _ _ _ _ (ok_idle st Hok) Escan) as (Hev & Hdirty & Hr).
  destruct (evicted_ok _ st l (cur_lru_count st) (latest_page_number st) Hok Hev) as [Hok1 Hc1].
  set (st1 := mkSlru _ _ _ _) in *. destruct r as [j |].
  - destruct Hr as (k & s & -> & Hk & He & Hd). change (0 + Z.of_nat k) with (Z.of_nat k).
    rewrite (zget_nat (slots st1) k s Hk). cbn [mbind outcome_bind].
    pose proof (idle_empty s (ok_idle st1 Hok1 k s Hk)) as Hv. rewrite He in Hv. rewrite Hv, bool_decide_eq_true_2 by done.
    rewrite (write_page_dirty st1 k s) by done. cbn [mbind outcome_bind].
    destruct (written_ok st1 k s Hok1 Hk He) as [Hok2 He2].
    destruct (IH (written st1 k s) cutoff Hok2 Hconv) as (st' & -> & Hok' & Hkept & Hsh & Hlat).
    { pose proof (dirty_slots_clean (slots st1) k s (with_status s SLRU_PAGE_VALID false) Hk Hd eq_refl) as Hdc.
      cbn [slots written st1] in *. lia. }
    exists st'. split_and!; try done; intros p Hp; [intros Hpre |]; destruct (He2 p Hp) as [E1 | [E1 E2]].
    + rewrite <- (Hc1 p), <- E1. by apply Hkept.
    + rewrite <- (Hc1 p), E1. right. split; [done |]. destruct (Hkept p Hp Hpre) as [-> | [E _]]; congruence.
    + rewrite <- (Hc1 p), <- E1. by apply Hsh.
    + destruct (Hsh p Hp) as [-> | [-> | ->]]; rewrite ?E2; auto.
  - destruct (delete_cutoff_ok st1 cutoff Hok1 Hconv Hr) as [Hok' Hkept]. eexists. split; [done |].
    split_and!; try done; intros p Hp; [intros Hpre |]; rewrite <- (Hc1 p); [by apply Hkept | by apply delete_cutoff_shrunk].
Qed.

Lemma truncate_ok st cutoff :
  slru_ok st -> segments_convex cutoff ->
  exists st', SimpleLruTruncate st cutoff = Ok st' /\ slru_ok st' /\ kept cutoff st st' /\ shrunk st st' /\
    latest_page_number st' = latest_page_number st.
Proof. intros Hok Hc. apply truncate_loop_ok; [done | done |]. pose proof (dirty_slots_le (slots st)). lia. Qed.
End Contents.

(** ** The log as a map of pages *)

(** What clients do with a log: read a page, change a page in place, start a new
    page, flush, truncate. *)
Inductive SlruOp (P : Type) :=
| ReadOp (pageno : Z)
| WriteOp (pageno : Z) (change : P -> P)
| ZeroOp (pageno : Z)
| FlushOp
| TruncateOp (cutoffPage : Z).
Arguments ReadOp {P}.
Arguments WriteOp {P}.
Arguments ZeroOp {P}.
Arguments FlushOp {P}.
Arguments TruncateOp {P}.

Section Transparent.
  Context {P : Type} `{!SlruCtl P}.

  Implicit Types (st : Slru P) (m : Z -> option P).

Definition slru_step (op : SlruOp P) st : outcome (option P * Slru P) :=
  match op with
  | ReadOp p =>
      '(slotno, st) ← SimpleLruReadPage_ReadOnly false st p;
      s ← zget (slots st) slotno;
      Ok (Some (page_buffer s), st)
  | WriteOp p change =>
      '(slotno, st) ← SimpleLruReadPage false st p true;
      s ← zget (slots st) slotno;
      st ← slot_update st slotno (change (page_buffer s));
      Ok (None, st)
  | ZeroOp p => '(_, st) ← SimpleLruZeroPage st p; Ok (None, st)
  | FlushOp => st ← SimpleLruFlush st; Ok (None, st)
  | TruncateOp c => st ← SimpleLruTruncate st c; Ok (None, st)
  end.

Fixpoint slru_run (ops : list (SlruOp P)) st : outcome (list (option P) * Slru P) :=
  match ops with
  | [] => Ok ([], st)
  | op :: ops =>
      '(r, st) ← slru_step op st;
      '(rs, st) ← slru_run ops st;
      Ok (r :: rs, st)
  end.

(** The same on a map from page numbers to pages.  Reading or changing a page
    that is not in the map is not defined, and truncation forgets old pages. *)
Definition map_step (op : SlruOp P) m : option (option P * (Z -> option P)) :=
  match op with
  | ReadOp p => if 0 <=? p then c ← m p; Some (Some c, m) else None
  | WriteOp p change =>
      if 0 <=? p then c ← m p; Some (None, fun q => if q =? p then Some (change c) else m q) else None
  | ZeroOp p => if 0 <=? p then Some (None, fun q => if q =? p then Some zero_page else m q) else None
  | FlushOp => Some (None, m)
  | TruncateOp c => Some (None, fun q => if PagePrecedes q c then None else m q)
  end.

Fixpoint map_run (ops : list (SlruOp P)) m : option (list (option P) * (Z -> option P)) :=
  match ops with
  | [] => Some ([], m)
  | op :: ops => '(r, m) ← map_step op m; '(rs, m) ← map_run ops m; Some (r :: rs, m)
  end.

Definition truncates_convex (op : SlruOp P) : Prop :=
  match op with TruncateOp c => segments_convex c | _ => True end.

(** The log holds at least the pages of the map. *)
Definition represents st m : Prop :=
  slru_ok st /\ forall p c, 0 <= p -> m p = Some c -> slru_content st p = Some c.

Lemma represents_extends st st' m : slru_ok st' -> extends st st' -> represents st m -> represents st' m.
Proof.
  intros Hok He [_ H]. split; [done |]. intros p c Hp Hm. specialize (H p c Hp Hm).
  destruct (He p Hp) as [-> | [E _]]; [done | congruence].
Qed.

Lemma map_step_ok op st m r m' :
  represents st m -> truncates_convex op -> map_step op m = Some (r, m') ->
  exists st', slru_step op st = Ok (r, st') /\ represents st' m'.
Proof.
  intros Hrep Hconv E. pose proof Hrep as [Hok Hm]. destruct op as [p | p change | p | | c]; cbn [map_step slru_step] in *.
  - destruct (Z.leb_spec 0 p); [| done]. destruct (m p) as [c |] eqn:Ec; [| done]. injection E as <- <-.
    destruct (read_only_ok st p Hok) as [(i & s & st' & -> & Hok' & He & _ & _ & Hl) | (msg & _ & Ecn)]; [done | |].
    + cbn [mbind outcome_bind]. pose proof Hl as (Hi & _). rewrite (zget_nat _ _ _ Hi). cbn [mbind outcome_bind].
      exists st'. pose proof (represents_extends st st' m Hok' He Hrep) as Hrep'. split; [| done].
      pose proof (loaded_content st' p i s Hok' Hl) as Ec'. rewrite (proj2 Hrep' p c) in Ec' by done. congruence.
    + rewrite (Hm p c) in Ecn by done. done.
  - destruct (Z.leb_spec 0 p); [| done]. destruct (m p) as [c |] eqn:Ec; [| done]. injection E as <- <-.
    destruct (read_page_ok st p true Hok) as [(i & s & st1 & -> & Hok1 & He & _ & _ & Hl) | (msg & _ & Ecn)]; [done | |].
    + cbn [mbind outcome_bind]. pose proof Hl as (Hi & _). rewrite (zget_nat _ _ _ Hi). cbn [mbind outcome_bind].
      destruct (slot_update_ok st1 p i s (change (page_buffer s)) Hok1 Hl) as (s' & st' & -> & Hok' & _ & _ & Hc & _).
      cbn [mbind outcome_bind]. exists st'. split; [done |]. pose proof (represents_extends st st1 m Hok1 He Hrep) as [_ Hm1].
      split; [done |]. intros q c' Hq. rewrite Hc. destruct (q =? p); [| by apply Hm1].
      pose proof (loaded_content st1 p i s Hok1 Hl) as Ec'. rewrite (Hm1 p c) in Ec' by done. congruence.
    + rewrite (Hm p c) in Ecn by done. done.
  - destruct (Z.leb_spec 0 p); [| done]. injection E as <- <-.
    destruct (zero_page_ok st p Hok) as (i & s & st' & -> & (Hok' & Hz & Ho & _) & _); [done |].
    exists st'. split; [done |]. split; [done |]. intros q c Hq. destruct (Z.eqb_spec q p) as [-> | Hne]; [congruence |].
    intros Eq. destruct (Ho q Hq Hne) as [-> | [En _]]; [by apply Hm | rewrite (Hm q c) in En by done; done].
  - injection E as <- <-. destruct (flush_ok st Hok) as (st' & -> & Hok' & He & _).
    exists st'. split; [done | by eapply represents_extends].
  - injection E as <- <-. destruct (truncate_ok st c Hok Hconv) as (st' & -> & Hok' & Hk & _).
    exists st'. split; [done |]. split; [done |]. intros q d Hq. destruct (PagePrecedes q c) eqn:Ep; [done |].
    intros Eq. destruct (Hk q Hq Ep) as [-> | [En _]]; [by apply Hm | rewrite (Hm q d) in En by done; done].
Qed.

Lemma slru_init_ok nslots fs : (2 <= nslots)%nat -> slru_ok (SimpleLruInit nslots fs).
Proof.
  intros Hn. assert (H : forall i s, slots (SimpleLruInit nslots fs) !! i = Some s -> page_status s = SLRU_PAGE_EMPTY).
  { intros i s Hi. apply lookup_replicate in Hi as [-> _]. done. }
  assert (He : forall i s, slots (SimpleLruInit nslots fs) !! i = Some s -> is_empty s = true).
  { intros i s Hi. unfold is_empty. by rewrite (H i s Hi). }
  constructor.
  - cbn. by rewrite length_replicate.
  - intros i s Hi. left. by eapply H.
  - intros i s Hi E. by rewrite (He i s Hi) in E.
  - intros i j s s' Hi Hj E. by rewrite (He i s Hi) in E.
  - intros i s Hi E. by rewrite (He i s Hi) in E.
Qed.

(** C20: Buffering is transparent: whatever the number of slots (at least two), the
    choice of victims and the flushes, a sequence of reads, in-place changes, new
    pages, flushes and truncations that makes sense on a map from page numbers
    to pages runs without errors or waits and reads exactly the pages of the
    map. *)
Theorem slru_transparent ops : forall st m rs m',
  represents st m -> Forall truncates_convex ops -> map_run ops m = Some (rs, m') ->
  exists st', slru_run ops st = Ok (rs, st') /\ represents st' m'.
Proof.
  induction ops as [| op ops IH]; intros st m rs m' Hrep Hconv E; cbn [map_run slru_run] in *.
  - injection E as <- <-. by exists st.
  - apply Forall_cons in Hconv as [Hc Hcs]. apply bind_Some in E as ([r m1] & E1 & E).
    apply bind_Some in E as ([rs1 m2] & E2 & E). injection E as <- <-.
    destruct (map_step_ok op st m r m1 Hrep Hc E1) as (st1 & -> & Hrep1). cbn [mbind outcome_bind].
    destruct (IH st1 m1 rs1 m2 Hrep1 Hcs E2) as (st' & -> & Hrep'). by exists st'.
Qed.
End Transparent.

(** A log whose pages are numbers, ordered by their page numbers. *)
#[local] Instance number_log : SlruCtl Z := {| zero_page := 0; PagePrecedes := Z.ltb |}.

Lemma slru_transparent_witness :
  exists st', slru_run [ZeroOp 0; WriteOp 0 (Z.add 7); ZeroOp 1; ZeroOp 40; ReadOp 0; FlushOp; WriteOp 1 (Z.add 5);
                        TruncateOp 33; ReadOp 40; ZeroOp 41; ZeroOp 42; ReadOp 40]
                (SimpleLruInit 2 ∅)
              = Ok ([None; None; None; None; Some 7; None; None; None; Some 0; None; None; Some 0], st') /\
    represents st' (fun q => if q =? 42 then Some 0 else if q =? 41 then Some 0 else if q <? 33 then None
                             else if q =? 1 then Some 5 else if q =? 40 then Some 0 else if q =? 1 then Some 0
                             else if q =? 0 then Some 7 else if q =? 0 then Some 0 else None).
Proof.
  apply (slru_transparent _ (SimpleLruInit 2 ∅) (fun _ => None)).
  - split; [by apply slru_init_ok | done].
  - repeat constructor; try exact I. intros p Hp. unfold SlruMayDeleteSegment, SLRU_PAGES_PER_SEGMENT. cbn. zlia.
  - reflexivity.
Defined.

(** ** Logs of fixed-size entries

    A log whose pages are arrays of [per_page] entries, indexed by transaction id. *)

Section Entries.
  Context {E : Type} `{!SlruCtl (list E)} (per_page : Z) (Hper : 0 < per_page).

  Implicit Types (st : Slru (list E)).

Definition entry_at st (x : Z) : option E :=
  page ← slru_content st (x / per_page);
  page !! Z.to_nat (x mod per_page).

(** Nothing known is lost. *)
Definition entries_kept st st' : Prop :=
  forall y e, 0 <= y -> entry_at st y = Some e -> entry_at st' y = Some e.

Lemma entry_page_nonneg x : 0 <= x -> 0 <= x / per_page /\ 0 <= x mod per_page.
Proof. intros Hx. split; [apply Z.div_pos; lia | apply Z.mod_pos_bound; lia]. Qed.

Lemma entries_kept_extends st st' : extends st st' -> entries_kept st st'.
Proof.
  intros He y e Hy. unfold entry_at. destruct (He _ (proj1 (entry_page_nonneg y Hy))) as [-> | [-> _]]; done.
Qed.

(** Reading the page of a known entry, by either of the read functions. *)
Lemma fetch_entry st x e r :
  slru_ok st -> 0 <= x -> fetched st (x / per_page) r -> entry_at st x = Some e ->
  exists k s st', r = Ok (Z.of_nat k, st') /\ zget (slots st') (Z.of_nat k) = Ok s /\
    zget (page_buffer s) (x mod per_page) = Ok e /\ loaded st' (x / per_page) k s /\ slru_ok st' /\ entries_kept st st'.
Proof.
  intros Hok Hx Hf He. destruct (entry_page_nonneg x Hx) as [Hp Hm].
  destruct Hf as [(k & s & st' & -> & Hok' & Hext & _ & _ & Hl) | (msg & _ & En)].
  2: { unfold entry_at in He. rewrite En in He. done. }
  exists k, s, st'. pose proof (entries_kept_extends _ _ Hext) as Hk. pose proof Hl as (Hs & _).
  split_and!; try done; [by apply zget_nat |]. apply zget_lookup; [lia |].
  apply (Hk x e Hx) in He. unfold entry_at in He. rewrite (loaded_content st' _ k s Hok' Hl) in He. done.
Qed.

Lemma update_entry st x k s e :
  slru_ok st -> 0 <= x -> loaded st (x / per_page) k s -> (Z.to_nat (x mod per_page) < length (page_buffer s))%nat ->
  exists st', slot_update st (Z.of_nat k) (<[Z.to_nat (x mod per_page) := e]> (page_buffer s)) = Ok st' /\ slru_ok st' /\
    forall y, 0 <= y -> entry_at st' y = if decide (y = x) then Some e else entry_at st y.
Proof.
  intros Hok Hx Hl Hlt. set (page := <[_ := e]> (page_buffer s)).
  destruct (slot_update_ok st _ k s page Hok Hl) as (s' & st' & E1 & Hok' & _ & _ & Hc & _).
  exists st'. split_and!; try done. intros y Hy. unfold entry_at. rewrite Hc.
  pose proof (loaded_content st _ k s Hok Hl) as Hcont.
  destruct (Z.eqb_spec (y / per_page) (x / per_page)) as [Ep | Np].
  - cbn [mbind option_bind]. rewrite Ep, Hcont. cbn [mbind option_bind]. destruct (decide (y = x)) as [-> | Hne].
    + by apply list_lookup_insert_eq.
    + apply list_lookup_insert_ne. intros Em. apply Hne. destruct (entry_page_nonneg y Hy), (entry_page_nonneg x Hx).
      rewrite (Z.div_mod y per_page), (Z.div_mod x per_page) by lia. rewrite Ep. lia.
  - rewrite decide_False by (intros ->; done). done.
Qed.
End Entries.
