(* ===== verification/DistributedLog.v ===== *)
(** * The distributed log

    Models src/backend/access/transam/distributedlog.c and
    src/include/access/distributedlog.h: the log of a segment that records, for
    each committed local transaction, the distributed transaction it belonged
    to, and the horizon [oldestXmin] below which no distributed snapshot needs
    it.  Pages are lists of entries on the buffer manager of [Slru].  A page
    has 32 kB and an entry is the 64-bit distributed transaction id, zero when
    the local transaction is not known to have committed in a distributed one.

    Operations run one after the other: a value of the shared horizon that is
    read twice without an own change in between is the same.  Write-ahead log
    records are left out, except that replaying them is [DistributedLog_redo].
    [IS_QUERY_DISPATCHER], true on the coordinator, is an argument of the
    operations that test it. *)

From stdpp Require Import base list gmap.
From S2P Require Import Prelude TransactionId Slru.

Definition BLCKSZ : Z := 32768.
Definition sizeof_DistributedLogEntry : Z := 8.
Definition ENTRIES_PER_PAGE : Z := BLCKSZ / sizeof_DistributedLogEntry.

Definition TransactionIdToPage (localXid : Z) : Z := localXid / ENTRIES_PER_PAGE.
Definition TransactionIdToEntry (localXid : Z) : Z := localXid mod ENTRIES_PER_PAGE.
Definition TransactionIdToSegment (localXid : Z) : Z := localXid / (ENTRIES_PER_PAGE * SLRU_PAGES_PER_SEGMENT).

Definition AdvanceTransactionIdToNextPage (xid : Z) : Z :=
  let xid := u32 (xid + ENTRIES_PER_PAGE) in
  let xid := xid - xid mod ENTRIES_PER_PAGE in
  Z.max xid FirstNormalTransactionId.

Definition DistributedLog_PagePrecedes (page1 page2 : Z) : bool :=
  let xid1 := u32 (u32 page1 * ENTRIES_PER_PAGE) in
  let xid1 := u32 (xid1 + FirstNormalTransactionId) in
  let xid2 := u32 (u32 page2 * ENTRIES_PER_PAGE) in
  let xid2 := u32 (xid2 + FirstNormalTransactionId) in
  TransactionIdPrecedes xid1 xid2.

Definition zero_entries : list Z := replicate (Z.to_nat ENTRIES_PER_PAGE) InvalidDistributedTransactionId.

#[export] Instance DistributedLogCtl : SlruCtl (list Z) := {|
  zero_page := zero_entries;
  PagePrecedes := DistributedLog_PagePrecedes
|}.

Record DistributedLog := mkDistributedLog {
  dl_slru : Slru (list Z);
  dl_oldestXmin : Z
}.

Section Operations.
  Context (InRecovery : bool).

  Implicit Types (d : DistributedLog).

Definition set_slru d (st : Slru (list Z)) : DistributedLog := mkDistributedLog st (dl_oldestXmin d).

(** ** Recording commits *)

Definition DistributedLog_ZeroPage d (page : Z) : outcome (Z * DistributedLog) :=
  '(slotno, st) ← SimpleLruZeroPage (dl_slru d) page;
  Ok (slotno, set_slru d st).

(** The loop over the ids of one page, [n] of them from [localXid[i]] on. *)
Fixpoint set_entries (n : nat) (localXid : list Z) (i distribXid slotno : Z) (st : Slru (list Z))
  : outcome (Slru (list Z)) :=
  match n with
  | O => Ok st
  | S n =>
      xid ← zget localXid i;
      let entryno := TransactionIdToEntry xid in
      s ← zget (slots st) slotno;
      e ← zget (page_buffer s) entryno;
      st ← (if negb (e =? 0) then
              if negb (e =? distribXid) then Err "Current distributed xid does not match input distributed xid"
              else Ok st
            else
              ptr ← zset (page_buffer s) entryno distribXid;
              slot_update st slotno ptr);
      set_entries n localXid (i + 1) distribXid slotno st
  end.

(** The ids are [localXid[off]] to [localXid[off + numLocIds - 1]]. *)
Definition DistributedLog_SetCommittedWithinAPage (numLocIds : Z) (localXid : list Z) (off distribXid : Z)
    (isRedo : bool) d : outcome DistributedLog :=
  x0 ← zget localXid off;
  let page := TransactionIdToPage x0 in
  d ← (if isRedo && negb (SimpleLruDoesPhysicalPageExist (dl_slru d) page)
       then '(_, d) ← DistributedLog_ZeroPage d page; Ok d
       else Ok d);
  '(slotno, st) ← SimpleLruReadPage InRecovery (dl_slru d) page true;
  st ← set_entries (Z.to_nat numLocIds) localXid off distribXid slotno st;
  Ok (set_slru d st).

(** The inner loop: [subxids[i]] is read before [i] is compared with [nsubxids]. *)
Fixpoint on_page (fuel : nat) (subxids : list Z) (i nsubxids pageno : Z) : outcome Z :=
  match fuel with
  | O => Err "fuel"
  | S fuel =>
      xid ← zget subxids i;
      if (TransactionIdToPage xid =? pageno) && (i <? nsubxids)
      then on_page fuel subxids (i + 1) nsubxids pageno
      else Ok i
  end.

Fixpoint by_pages (fuel : nat) (nsubxids : Z) (subxids : list Z) (i distribXid : Z) (isRedo : bool) d
  : outcome DistributedLog :=
  if i <? nsubxids then
    match fuel with
    | O => Err "fuel"
    | S fuel =>
        let start_of_range := i in
        xid ← zget subxids start_of_range;
        let pageno := TransactionIdToPage xid in
        i ← on_page (S (Z.to_nat (nsubxids - i))) subxids i nsubxids pageno;
        let num_on_page := i - start_of_range in
        d ← DistributedLog_SetCommittedWithinAPage num_on_page subxids start_of_range distribXid isRedo d;
        by_pages fuel nsubxids subxids i distribXid isRedo d
    end
  else Ok d.

Definition DistributedLog_SetCommittedByPages (nsubxids : Z) (subxids : list Z) (distribXid : Z) (isRedo : bool) d
  : outcome DistributedLog :=
  by_pages (Z.to_nat nsubxids) nsubxids subxids 0 distribXid isRedo d.

Definition DistributedLog_SetCommittedTree (qd : bool) (xid nxids : Z) (xids : list Z) (distribXid : Z) (isRedo : bool) d
  : outcome DistributedLog :=
  if negb qd then
    d ← DistributedLog_SetCommittedWithinAPage 1 [xid] 0 distribXid isRedo d;
    DistributedLog_SetCommittedByPages nxids xids distribXid isRedo d
  else Ok d.

(** ** Looking up *)

(** The entry of a page brought into memory by one of the two read functions. *)
Definition read_entry (r : outcome (Z * Slru (list Z))) (entryno : Z) d : outcome (Z * DistributedLog) :=
  '(slotno, st) ← r;
  s ← zget (slots st) slotno;
  e ← zget (page_buffer s) entryno;
  Ok (e, set_slru d st).

Definition DistributedLog_GetDistributedXid (localXid : Z) d : outcome (Z * DistributedLog) :=
  read_entry (SimpleLruReadPage_ReadOnly InRecovery (dl_slru d) (TransactionIdToPage localXid))
    (TransactionIdToEntry localXid) d.

(** Whether the transaction is found, and its distributed id. *)
Definition DistributedLog_CommittedCheck (localXid : Z) d : outcome (bool * Z * DistributedLog) :=
  let page := TransactionIdToPage localXid in
  let entryno := TransactionIdToEntry localXid in
  if dl_oldestXmin d =? InvalidTransactionId then Err "DistributedLog's OldestXmin not initialized yet"
  else if TransactionIdPrecedes localXid (dl_oldestXmin d) then Ok (false, 0, d)
  else
    '(distribXid, d) ← read_entry (SimpleLruReadPage_ReadOnly InRecovery (dl_slru d) page) entryno d;
    if negb (distribXid =? 0) then Ok (true, distribXid, d) else Ok (false, distribXid, d).

(** The scan of one page downwards, [n] entries from [xid] on. *)
Fixpoint scan_page (n : nat) (page : list Z) (xid : Z) : outcome (option (Z * Z)) :=
  match n with
  | O => Ok None
  | S n =>
      e ← zget page (TransactionIdToEntry xid);
      if negb (e =? 0) then Ok (Some (xid, e)) else scan_page n page (xid - 1)
  end.

Fixpoint scan_pages (fuel : nat) (highXid : Z) d : outcome (bool * Z * Z * DistributedLog) :=
  match fuel with
  | O => Err "fuel"
  | S fuel =>
      let pageno := TransactionIdToPage highXid in
      let lowXid := u32 (pageno * ENTRIES_PER_PAGE) in
      let lowXid := if lowXid =? InvalidTransactionId then FirstNormalTransactionId else lowXid in
      if negb (SimpleLruDoesPhysicalPageExist (dl_slru d) pageno) then Ok (false, InvalidTransactionId, 0, d)
      else
        '(slotno, st) ← SimpleLruReadPage InRecovery (dl_slru d) pageno true;
        let d := set_slru d st in
        s ← zget (slots st) slotno;
        found ← scan_page (Z.to_nat (highXid - lowXid + 1)) (page_buffer s) highXid;
        match found with
        | Some (xid, e) => Ok (true, xid, e, d)
        | None =>
            if lowXid =? FirstNormalTransactionId then Ok (false, InvalidTransactionId, 0, d)
            else scan_pages fuel (lowXid - 1) d
        end
  end.

(** The result, the new [indexXid] and [distribXid]. *)
Definition DistributedLog_ScanForPrevCommitted (indexXid : Z) d : outcome (bool * Z * Z * DistributedLog) :=
  if indexXid =? InvalidTransactionId then Ok (false, indexXid, 0, d)
  else
    let highXid := indexXid - 1 in
    if highXid <? FirstNormalTransactionId then Ok (false, indexXid, 0, d)
    else scan_pages (S (Z.to_nat (TransactionIdToPage highXid))) highXid d.

(** ** The horizon *)

Definition DistributedLog_Truncate (oldestXmin : Z) d : outcome DistributedLog :=
  let cutoffPage := TransactionIdToPage oldestXmin in
  if negb (SlruScanDirCbReportPresence (dl_slru d) cutoffPage) then Ok d
  else
    st ← SimpleLruTruncate (dl_slru d) cutoffPage;
    Ok (set_slru d st).

(** The loop of [DistributedLog_AdvanceOldestXmin].  [currPage] and [entries] are
    the page at hand, [currPage = -1] for none. *)
Fixpoint advance_loop (fuel : nat) (oldestXmin oldestLocalXmin xminAll currPage : Z) (entries : list Z) d
  : outcome (Z * DistributedLog) :=
  if negb (TransactionIdPrecedes oldestXmin oldestLocalXmin) then Ok (oldestXmin, d)
  else
    match fuel with
    | O => Err "fuel"
    | S fuel =>
        let page := TransactionIdToPage oldestXmin in
        let entryno := TransactionIdToEntry oldestXmin in
        let sharedXmin := dl_oldestXmin d in
        if negb (page =? currPage) && negb (currPage =? -1) && TransactionIdPrecedes oldestXmin sharedXmin
        then advance_loop fuel sharedXmin oldestLocalXmin xminAll (-1) entries d
        else
          '(entries, d) ←
            (if negb (page =? currPage) then
               '(slotno, st) ← SimpleLruReadPage_ReadOnly InRecovery (dl_slru d) page;
               s ← zget (slots st) slotno;
               Ok (page_buffer s, set_slru d st)
             else Ok (entries, d));
          e ← zget entries entryno;
          if xminAll <=? e then Ok (oldestXmin, d)
          else advance_loop fuel (TransactionIdAdvance oldestXmin) oldestLocalXmin xminAll page entries d
    end.

(** The distance to [oldestLocalXmin] bounds the number of rounds. *)
Definition DistributedLog_AdvanceOldestXmin (oldestLocalXmin xminAllDistributedSnapshots : Z) d
  : outcome (Z * DistributedLog) :=
  let oldOldestXmin := dl_oldestXmin d in
  '(oldestXmin, d) ← advance_loop (Z.to_nat (xid_dist oldOldestXmin oldestLocalXmin)) oldOldestXmin oldestLocalXmin
                       xminAllDistributedSnapshots (-1) [] d;
  let d := if negb (TransactionIdEquals oldOldestXmin oldestXmin) then mkDistributedLog (dl_slru d) oldestXmin else d in
  d ← (if TransactionIdToSegment oldOldestXmin <? TransactionIdToSegment oldestXmin
       then DistributedLog_Truncate oldestXmin d else Ok d);
  Ok (oldestXmin, d).

Definition DistributedLog_GetOldestXmin (oldestLocalXmin : Z) d : Z :=
  let result := dl_oldestXmin d in
  if negb (TransactionIdIsValid result) || TransactionIdFollows result oldestLocalXmin then oldestLocalXmin else result.

Fixpoint init_loop (fuel : nat) (oldestXmin nextXid : Z) (st : Slru (list Z)) : outcome Z :=
  match fuel with
  | O => Err "fuel"
  | S fuel =>
      let page := TransactionIdToPage oldestXmin in
      if SimpleLruDoesPhysicalPageExist st page then Ok oldestXmin
      else
        let xid := AdvanceTransactionIdToNextPage oldestXmin in
        if TransactionIdFollowsOrEquals xid nextXid then Ok nextXid
        else init_loop fuel xid nextXid st
  end.

(** [oldestXid] is [ShmemVariableCache->oldestXid]; a round crosses a page. *)
Definition DistributedLog_InitOldestXmin (oldestXid nextXid : Z) d : outcome DistributedLog :=
  x ← init_loop (S (Z.to_nat (xid_dist oldestXid nextXid / ENTRIES_PER_PAGE + 1))) oldestXid nextXid (dl_slru d);
  Ok (mkDistributedLog (dl_slru d) x).

(** ** Start-up, growth and replay *)

Definition DistributedLog_Extend (qd : bool) (newestXact : Z) d : outcome DistributedLog :=
  if qd then Ok d
  else if negb (TransactionIdToEntry newestXact =? 0) && negb (TransactionIdEquals newestXact FirstNormalTransactionId)
  then Ok d
  else
    '(_, d) ← DistributedLog_ZeroPage d (TransactionIdToPage newestXact);
    Ok d.

Definition DistributedLog_BootStrap (qd : bool) d : outcome DistributedLog :=
  if qd then Ok d
  else
    '(slotno, d) ← DistributedLog_ZeroPage d 0;
    st ← SimpleLruWritePage (dl_slru d) slotno;
    Ok (set_slru d st).

Definition DistributedLog_Shutdown (qd : bool) d : outcome DistributedLog :=
  if qd then Ok d
  else
    st ← SimpleLruFlush (dl_slru d);
    Ok (set_slru d st).

Definition DistributedLog_CheckPoint (qd : bool) d : outcome DistributedLog :=
  if qd then Ok d
  else
    st ← SimpleLruFlush (dl_slru d);
    Ok (set_slru d st).

(** The [do ... while] loop that zeroes the pages of the active range. *)
Fixpoint zero_range (fuel : nat) (currentPage endPage : Z) d : outcome DistributedLog :=
  match fuel with
  | O => Err "fuel"
  | S fuel =>
      let currentPage := if TransactionIdToPage MaxTransactionId <? currentPage then 0 else currentPage in
      '(_, d) ← DistributedLog_ZeroPage d currentPage;
      if negb (currentPage =? endPage) then zero_range fuel (currentPage + 1) endPage d else Ok d
  end.

Definition with_latest (st : Slru (list Z)) (page : Z) : Slru (list Z) :=
  mkSlru (slots st) (cur_lru_count st) page (files st).

(** Zeroing the rest of the page of [nextXid]. *)
Definition zero_rest (nextXid : Z) d : outcome DistributedLog :=
  let entryno := TransactionIdToEntry nextXid in
  '(slotno, st) ← SimpleLruReadPage InRecovery (dl_slru d) (TransactionIdToPage nextXid) true;
  s ← zget (slots st) slotno;
  ptr ← mem_write (page_buffer s) entryno (replicate (Z.to_nat (ENTRIES_PER_PAGE - entryno)) 0);
  st ← slot_update st slotno ptr;
  Ok (set_slru d st).

(** [convert] is [IsBinaryUpgrade || ConvertCoordinatorDataDirToSegment]. *)
Definition DistributedLog_Startup (qd convert : bool) (oldestActiveXid nextXid oldestXid : Z) d : outcome DistributedLog :=
  if qd then Ok d
  else
    let startPage := TransactionIdToPage oldestActiveXid in
    let endPage := TransactionIdToPage nextXid in
    let d := set_slru d (with_latest (dl_slru d) endPage) in
    d ← (if convert then
           st ← SimpleLruTruncate (dl_slru d) startPage;
           zero_range (S (Z.to_nat ((endPage - startPage) mod (TransactionIdToPage MaxTransactionId + 1))))
             startPage endPage (set_slru d st)
         else Ok d);
    d ← (if negb (TransactionIdToEntry nextXid =? 0) then zero_rest nextXid d else Ok d);
    DistributedLog_InitOldestXmin oldestXid nextXid d.

Inductive DistributedLogRecord :=
| DISTRIBUTEDLOG_ZEROPAGE (page : Z)
| DISTRIBUTEDLOG_TRUNCATE (page : Z).

Definition DistributedLog_redo (record : DistributedLogRecord) d : outcome DistributedLog :=
  match record with
  | DISTRIBUTEDLOG_ZEROPAGE page =>
      '(slotno, d) ← DistributedLog_ZeroPage d page;
      st ← SimpleLruWritePage (dl_slru d) slotno;
      Ok (set_slru d st)
  | DISTRIBUTEDLOG_TRUNCATE page =>
      let cutoffPage :=
        if TransactionIdIsValid (dl_oldestXmin d) then
          let horizonPage := TransactionIdToPage (dl_oldestXmin d) in
          if DistributedLog_PagePrecedes horizonPage page then horizonPage else page
        else page in
      let st := if DistributedLog_PagePrecedes (latest_page_number (dl_slru d)) page
                then with_latest (dl_slru d) page else dl_slru d in
      st ← SimpleLruTruncate st cutoffPage;
      Ok (set_slru d st)
  end.
End Operations.

(** ** The log as a map *)

Lemma entries_per_page : ENTRIES_PER_PAGE = 4096.
Proof. reflexivity. Qed.

Lemma zero_entries_length : length zero_entries = Z.to_nat ENTRIES_PER_PAGE.
Proof. apply length_replicate. Qed.

Lemma zero_entries_lookup i : 0 <= i < ENTRIES_PER_PAGE -> zero_entries !! Z.to_nat i = Some 0.
Proof. intros Hi. apply lookup_replicate_2. lia. Qed.

#[global] Opaque ENTRIES_PER_PAGE zero_entries.

(** The entry of a local transaction, if its page is there. *)
Definition dlog_entry (d : DistributedLog) (xid : Z) : option Z :=
  page ← slru_content (dl_slru d) (TransactionIdToPage xid);
  page !! Z.to_nat (TransactionIdToEntry xid).

Definition full_pages (st : Slru (list Z)) : Prop :=
  forall p page, 0 <= p -> slru_content st p = Some page -> length page = Z.to_nat ENTRIES_PER_PAGE.

Definition dlog_ok (d : DistributedLog) : Prop := slru_ok (dl_slru d) /\ full_pages (dl_slru d).

Lemma page_entry_bounds xid :
  0 <= xid -> 0 <= TransactionIdToPage xid /\ 0 <= TransactionIdToEntry xid < ENTRIES_PER_PAGE.
Proof. unfold TransactionIdToPage, TransactionIdToEntry. rewrite entries_per_page. intros H. zlia. Qed.

Lemma page_entry_inj x y :
  TransactionIdToPage x = TransactionIdToPage y -> TransactionIdToEntry x = TransactionIdToEntry y -> x = y.
Proof. unfold TransactionIdToPage, TransactionIdToEntry. rewrite entries_per_page. intros. zlia. Qed.

Lemma full_pages_extends st st' : extends st st' -> full_pages st -> full_pages st'.
Proof.
  intros He Hf p page Hp Hc. destruct (He p Hp) as [E | [_ E]]; rewrite E in Hc; [by eapply Hf |].
  injection Hc as <-. apply zero_entries_length.
Qed.

(** Nothing known is lost. *)
Definition keeps (d d' : DistributedLog) : Prop :=
  dlog_ok d' /\ dl_oldestXmin d' = dl_oldestXmin d /\
  forall y e, 0 <= y -> dlog_entry d y = Some e -> dlog_entry d' y = Some e.

Lemma keeps_extends d st :
  dlog_ok d -> slru_ok st -> extends (dl_slru d) st -> keeps d (set_slru d st).
Proof.
  intros [Hok Hf] Hok' He. split; [split; [done | by eapply full_pages_extends] |]. split; [done |].
  intros y e Hy. unfold dlog_entry. destruct (page_entry_bounds y Hy) as [Hp _]. cbn [dl_slru set_slru].
  destruct (He _ Hp) as [-> | [-> _]]; [done |]. done.
Qed.

Lemma keeps_trans d d1 d2 : keeps d d1 -> keeps d1 d2 -> keeps d d2.
Proof. intros (_ & E1 & H1) (Hok & E2 & H2). split; [done |]. split; [congruence | auto]. Qed.

Lemma keeps_refl d : dlog_ok d -> keeps d d.
Proof. by split. Qed.

(** Nothing known is lost, apart from the entries of [xs]. *)
Definition keeps_but (d : DistributedLog) (xs : list Z) (d' : DistributedLog) : Prop :=
  dlog_ok d' /\ dl_oldestXmin d' = dl_oldestXmin d /\
  forall y e, 0 <= y -> y ∉ xs -> dlog_entry d y = Some e -> dlog_entry d' y = Some e.

(** ** Recording commits *)

Section Commit.
  Context (g : Z) (Hg : g <> 0).

Definition set_all (xs : list Z) (page : list Z) : list Z :=
  fold_left (fun page x => <[Z.to_nat (TransactionIdToEntry x) := g]> page) xs page.

Lemma set_all_length xs : forall page, length (set_all xs page) = length page.
Proof. induction xs as [| x xs IH]; intros page; [done |]. cbn [set_all fold_left]. unfold set_all in IH. by rewrite IH, length_insert. Qed.

Lemma set_all_lookup xs p y : forall page,
  Forall (fun x => TransactionIdToPage x = p) xs -> TransactionIdToPage y = p ->
  (Z.to_nat (TransactionIdToEntry y) < length page)%nat -> 0 <= y -> Forall (Z.le 0) xs ->
  set_all xs page !! Z.to_nat (TransactionIdToEntry y)
  = if decide (y ∈ xs) then Some g else page !! Z.to_nat (TransactionIdToEntry y).
Proof.
  induction xs as [| x xs IH]; intros page Hxs Hy Hlt Hy0 Hpos; [by rewrite decide_False by (intros H; by apply elem_of_nil in H) |].
  apply Forall_cons in Hxs as [Hx Hxs]. apply Forall_cons in Hpos as [Hx0 Hpos].
  cbn [set_all fold_left]. fold (set_all xs (<[Z.to_nat (TransactionIdToEntry x) := g]> page)).
  rewrite IH by (rewrite ?length_insert; done).
  destruct (decide (y ∈ xs)) as [Hin | Hout]; [by rewrite decide_True by (by apply elem_of_cons; right) |].
  destruct (decide (y = x)) as [-> | Hne].
  - rewrite decide_True by (apply elem_of_cons; by left). by apply list_lookup_insert_eq.
  - rewrite decide_False by (rewrite elem_of_cons; tauto). apply list_lookup_insert_ne.
    destruct (page_entry_bounds x Hx0) as [_ Hb]. destruct (page_entry_bounds y Hy0) as [_ Hb'].
    intros E. apply Hne, page_entry_inj; [congruence | lia].
Qed.

(** The entries may be set: free, or already those of this transaction. *)
Definition settable (page : list Z) (xs : list Z) : Prop :=
  forall x, x ∈ xs -> 0 <= x /\
    (page !! Z.to_nat (TransactionIdToEntry x) = Some 0 \/ page !! Z.to_nat (TransactionIdToEntry x) = Some g).

Lemma settable_next x xs page :
  settable page (x :: xs) -> settable (<[Z.to_nat (TransactionIdToEntry x) := g]> page) xs.
Proof.
  intros H y Hy. destruct (H y) as [Hy0 Hv]; [by apply elem_of_cons; right |]. split; [done |].
  destruct (H x) as [_ Hx]; [by apply elem_of_cons; left |].
  assert (Hlt : (Z.to_nat (TransactionIdToEntry x) < length page)%nat) by (destruct Hx; by eapply lookup_lt_Some).
  destruct (decide (Z.to_nat (TransactionIdToEntry x) = Z.to_nat (TransactionIdToEntry y))) as [-> | Hne].
  - right. apply list_lookup_insert_eq. destruct Hv; by eapply lookup_lt_Some.
  - by rewrite list_lookup_insert_ne.
Qed.

Lemma set_entries_ok p k xs : forall pre post st s,
  slru_ok st -> loaded st p k s -> settable (page_buffer s) xs ->
  exists s' st',
    set_entries (length xs) (pre ++ xs ++ post) (zlen pre) g (Z.of_nat k) st = Ok st' /\
    slru_ok st' /\ loaded st' p k s' /\ page_buffer s' = set_all xs (page_buffer s) /\
    (forall q, q <> p -> slru_content st' q = slru_content st q).
Proof.
  induction xs as [| x xs IH]; intros pre post st s Hok Hl Hset; cbn [length set_entries].
  - exists s, st. done.
  - pose proof Hl as (Hk & _). destruct (Hset x) as [Hx0 Hx]; [by apply elem_of_cons; left |].
    destruct (page_entry_bounds x Hx0) as [_ Hb].
    cbn [app]. rewrite zget_mid.
    cbn [mbind outcome_bind]. rewrite (zget_nat _ _ _ Hk). cbn [mbind outcome_bind].
    assert (Hnext : pre ++ x :: xs ++ post = (pre ++ [x]) ++ xs ++ post) by (by rewrite <- app_assoc).
    assert (Hoff : zlen pre + 1 = zlen (pre ++ [x])) by (by rewrite zlen_app).
    pose proof (settable_next x xs (page_buffer s) Hset) as Hset'.
    destruct Hx as [Hx | Hx].
    + rewrite (zget_lookup _ _ 0) by (lia || done). cbn [mbind outcome_bind]. cbn [negb Z.eqb].
      pose proof (lookup_lt_Some _ _ _ Hx) as Hlt. rewrite zset_ok by (unfold zlen; lia). cbn [mbind outcome_bind].
      destruct (slot_update_ok st p k s (<[Z.to_nat (TransactionIdToEntry x) := g]> (page_buffer s)) Hok Hl)
        as (s1 & st1 & -> & Hok1 & Hl1 & Hb1 & Hc1 & _).
      cbn [mbind outcome_bind]. rewrite Hnext, Hoff.
      destruct (IH (pre ++ [x]) post st1 s1 Hok1 Hl1) as (s' & st' & -> & Hok' & Hl' & Hb' & Hc'); [by rewrite Hb1 |].
      exists s', st'. split_and!; try done; [by rewrite Hb', Hb1 |].
      intros q Hq. rewrite Hc', Hc1 by done. by replace (q =? p) with false by lia.
    + rewrite (zget_lookup _ _ g) by (lia || done). cbn [mbind outcome_bind].
      replace (g =? 0) with false by lia. rewrite Z.eqb_refl. cbn [negb mbind outcome_bind]. rewrite Hnext, Hoff.
      rewrite (list_insert_id _ _ _ Hx) in Hset'.
      destruct (IH (pre ++ [x]) post st s Hok Hl Hset') as (s' & st' & -> & Hok' & Hl' & Hb' & Hc').
      exists s', st'. split_and!; try done. rewrite Hb'. cbn [set_all fold_left]. by rewrite (list_insert_id _ _ _ Hx).
Qed.

(** The transactions may be recorded: their pages are there. *)
Definition committable (d : DistributedLog) (xs : list Z) : Prop :=
  forall x, x ∈ xs -> 0 <= x /\ (dlog_entry d x = Some 0 \/ dlog_entry d x = Some g).

Definition committed (d : DistributedLog) (xs : list Z) (d' : DistributedLog) : Prop :=
  keeps_but d xs d' /\ forall x, x ∈ xs -> dlog_entry d' x = Some g.

Lemma within_page_ok d pre x xs post :
  dlog_ok d -> committable d (x :: xs) -> Forall (fun y => TransactionIdToPage y = TransactionIdToPage x) xs ->
  exists d', DistributedLog_SetCommittedWithinAPage false (zlen (x :: xs)) (pre ++ (x :: xs) ++ post) (zlen pre) g false d = Ok d'
    /\ committed d (x :: xs) d'.
Proof.
  intros Hd Hc Hpage. unfold DistributedLog_SetCommittedWithinAPage.
  cbn [app]. rewrite zget_mid.
  cbn [mbind outcome_bind andb]. set (p := TransactionIdToPage x) in *.
  destruct (Hc x) as [Hx0 Hx]; [by apply elem_of_cons; left |]. destruct (page_entry_bounds x Hx0) as [Hp _]. fold p in Hp.
  destruct Hd as [Hok Hfull].
  destruct (read_page_ok (dl_slru d) p true Hok Hp) as [(k & s & st & -> & Hok1 & He & _ & _ & Hl) | (msg & _ & En)].
  2: { exfalso. unfold dlog_entry in Hx. fold p in Hx. rewrite En in Hx. by destruct Hx. }
  cbn [mbind outcome_bind]. pose proof (keeps_extends d st (conj Hok Hfull) Hok1 He) as (Hd1 & _ & Hk1).
  pose proof (loaded_content st p k s Hok1 Hl) as Hcont.
  assert (Hset : settable (page_buffer s) (x :: xs)).
  { intros y Hy. destruct (Hc y Hy) as [Hy0 Hv]. split; [done |].
    assert (Ey : TransactionIdToPage y = p).
    { apply elem_of_cons in Hy as [-> | Hy]; [done |]. rewrite Forall_forall in Hpage. by apply Hpage. }
    destruct Hv as [Hv | Hv]; apply (Hk1 y _ Hy0) in Hv; unfold dlog_entry in Hv; cbn [dl_slru set_slru] in Hv;
      rewrite Ey, Hcont in Hv; auto. }
  unfold zlen at 1. rewrite Nat2Z.id.
  destruct (set_entries_ok p k (x :: xs) pre post st s Hok1 Hl Hset) as (s' & st' & Es & Hok' & Hl' & Hb & Hcq).
  cbn [app] in Es. rewrite Es. clear Es.
  cbn [mbind outcome_bind]. eexists. split; [done |].
  pose proof (loaded_content st' p k s' Hok' Hl') as Hcont'. rewrite Hb in Hcont'.
  assert (Hfull1 : length (page_buffer s) = Z.to_nat ENTRIES_PER_PAGE) by (by apply (proj2 Hd1 p)).
  assert (Hpages : Forall (fun y => TransactionIdToPage y = p) (x :: xs)) by (by constructor).
  assert (Hpos : Forall (Z.le 0) (x :: xs)) by (apply Forall_forall; intros y Hy; by apply Hc).
  assert (Hentry : forall y, 0 <= y -> dlog_entry (set_slru d st') y =
            if decide (y ∈ x :: xs) then Some g else dlog_entry (set_slru d st) y).
  { intros y Hy. unfold dlog_entry. cbn [dl_slru set_slru]. destruct (decide (TransactionIdToPage y = p)) as [Ey | Ny].
    - rewrite Ey, Hcont', Hcont. cbn [mbind option_bind]. destruct (page_entry_bounds y Hy) as [_ Hb'].
      apply (set_all_lookup (x :: xs) p y); try done. lia.
    - rewrite Hcq by done. rewrite decide_False; [done |]. intros Hin. rewrite Forall_forall in Hpages. by apply Ny, Hpages. }
  split.
  - split; [split; [done |] | split; [done |]].
    + intros q page Hq. destruct (decide (q = p)) as [-> | Nq].
      * cbn [dl_slru set_slru]. rewrite Hcont'. intros E. apply (inj Some) in E as <-. rewrite set_all_length. exact Hfull1.
      * cbn [dl_slru set_slru]. rewrite Hcq by done. apply (proj2 Hd1 q page Hq).
    + intros y e Hy Hin He'. rewrite Hentry, decide_False by done. by apply Hk1.
  - intros y Hy. destruct (Hc y Hy) as [Hy0 _]. by rewrite Hentry, decide_True.
Qed.

Lemma committed_app d a d1 b d2 : committed d a d1 -> committed d1 b d2 -> (forall x, x ∈ a -> 0 <= x) -> committed d (a ++ b) d2.
Proof.
  intros [(_ & E1 & K1) S1] [(Hok & E2 & K2) S2] Hpos. split; [split; [done |]; split; [congruence |] |].
  - intros y e Hy Hn He. rewrite elem_of_app in Hn. apply K2; [done | tauto |]. apply K1; [done | tauto | done].
  - intros x Hx. destruct (decide (x ∈ b)) as [Hb | Hb]; [by apply S2 |].
    apply elem_of_app in Hx as [Hx | Hx]; [| done]. apply K2; [by apply Hpos | done | by apply S1].
Qed.

Lemma committable_after d a d1 b : committable d (a ++ b) -> committed d a d1 -> committable d1 b.
Proof.
  intros Hc [(_ & _ & K) S] x Hx. destruct (Hc x) as [Hx0 Hv]; [apply elem_of_app; by right |]. split; [done |].
  destruct (decide (x ∈ a)) as [Ha | Ha]; [right; by apply S |]. destruct Hv; [left | right]; by apply K.
Qed.

Lemma on_page_ok pg xs : forall fuel pre z post,
  (length xs < fuel)%nat ->
  exists a b, xs = a ++ b /\ Forall (fun y => TransactionIdToPage y = pg) a /\
    (forall y b', b = y :: b' -> TransactionIdToPage y <> pg) /\
    on_page fuel (pre ++ xs ++ z :: post) (zlen pre) (zlen pre + zlen xs) pg = Ok (zlen pre + zlen a).
Proof.
  induction xs as [| x xs IH]; intros fuel pre z post Hf; (destruct fuel as [| fuel]; [cbn in Hf; lia |]); cbn [on_page].
  - exists [], []. split_and!; try done. cbn [app]. rewrite zget_mid.
    cbn [mbind outcome_bind]. rewrite zlen_nil, Z.add_0_r, Z.ltb_irrefl, andb_false_r. done.
  - cbn [app]. rewrite zget_mid.
    cbn [mbind outcome_bind]. rewrite zlen_cons. pose proof (zlen_nonneg xs).
    replace (zlen pre <? zlen pre + (zlen xs + 1)) with true by lia. rewrite andb_true_r.
    destruct (Z.eqb_spec (TransactionIdToPage x) pg) as [Ex | Nx].
    + destruct (IH fuel (pre ++ [x]) z post) as (a & b & -> & Ha & Hb & E); [cbn in Hf; lia |].
      exists (x :: a), b. split_and!; [done | by constructor | done |].
      rewrite <- app_assoc in E. cbn [app] in E |- *. rewrite !zlen_app, zlen_cons, zlen_nil in E. rewrite zlen_cons, zlen_app.
      replace (zlen pre + (zlen a + zlen b + 1)) with (zlen pre + (0 + 1) + (zlen a + zlen b)) by lia.
      replace (zlen pre + 1) with (zlen pre + (0 + 1)) by lia. rewrite E. f_equal. lia.
    + exists [], (x :: xs). split_and!; try done; [by intros y b' [= -> ->] |]. by rewrite zlen_nil, Z.add_0_r.
Qed.

Lemma by_pages_ok fuel : forall d pre xs z post,
  dlog_ok d -> committable d xs -> (length xs <= fuel)%nat ->
  exists d', by_pages false fuel (zlen pre + zlen xs) (pre ++ xs ++ z :: post) (zlen pre) g false d = Ok d' /\ committed d xs d'.
Proof.
  induction fuel as [| fuel IH]; intros d pre xs z post Hd Hc Hf.
  - destruct xs; [| cbn in Hf; lia]. exists d. cbn [by_pages]. rewrite zlen_nil.
    replace (zlen pre <? zlen pre + 0) with false by lia. split; [done |].
    split; [split; [done |]; split; [done | done] |]. intros x Hx. by apply elem_of_nil in Hx.
  - cbn [by_pages]. destruct xs as [| x xs].
    { exists d. rewrite zlen_nil. replace (zlen pre <? zlen pre + 0) with false by lia. split; [done |].
      split; [split; [done |]; split; [done | done] |]. intros x Hx. by apply elem_of_nil in Hx. }
    rewrite zlen_cons. pose proof (zlen_nonneg xs). replace (zlen pre <? zlen pre + (zlen xs + 1)) with true by lia.
    cbn [app]. rewrite zget_mid.
    cbn [mbind outcome_bind].
    destruct (on_page_ok (TransactionIdToPage x) (x :: xs) (S (Z.to_nat (zlen pre + (zlen xs + 1) - zlen pre))) pre z post)
      as (a & b & Eab & Ha & Hb & E); [cbn; unfold zlen; lia |].
    rewrite zlen_cons in E. cbn [app] in E. rewrite E. cbn [mbind outcome_bind].
    destruct a as [| x' a].
    { destruct b as [| y b]; [done |]. injection Eab as -> ->. by destruct (Hb y b). }
    injection Eab as <- ->. apply Forall_cons in Ha as [_ Ha].
    replace (zlen pre + zlen (x :: a) - zlen pre) with (zlen (x :: a)) by lia.
    assert (Hlist : pre ++ x :: (a ++ b) ++ z :: post = pre ++ (x :: a) ++ (b ++ z :: post)) by (cbn; by rewrite <- app_assoc).
    rewrite Hlist. destruct (within_page_ok d pre x a (b ++ z :: post) Hd) as (d1 & -> & Hc1);
      [intros y Hy; apply Hc; rewrite app_comm_cons; apply elem_of_app; by left | done |].
    cbn [mbind outcome_bind]. pose proof Hc1 as [(Hd1 & _) _].
    destruct (IH d1 (pre ++ x :: a) b z post Hd1) as (d2 & E2 & Hc2).
    { by apply (committable_after d (x :: a) d1 b). }
    { cbn in Hf. rewrite length_app in Hf. lia. }
    exists d2. rewrite !zlen_app, !zlen_cons, <- !app_assoc in *. cbn [app] in *.
    replace (zlen pre + (zlen a + zlen b + 1)) with (zlen pre + (zlen a + 1) + zlen b) by lia.
    split; [exact E2 |]. rewrite app_comm_cons. apply (committed_app d (x :: a) d1 b d2 Hc1 Hc2).
    intros y Hy. apply Hc. rewrite app_comm_cons. apply elem_of_app. by left.
Qed.

(** The same run over an array that ends with the last id. *)
Lemma on_page_end pg xs : forall fuel pre,
  (length xs < fuel)%nat ->
  on_page fuel (pre ++ xs) (zlen pre) (zlen pre + zlen xs) pg = Ub \/
  exists a y b, xs = a ++ y :: b /\ Forall (fun y => TransactionIdToPage y = pg) a /\ TransactionIdToPage y <> pg /\
    on_page fuel (pre ++ xs) (zlen pre) (zlen pre + zlen xs) pg = Ok (zlen pre + zlen a).
Proof.
  induction xs as [| x xs IH]; intros fuel pre Hf; (destruct fuel as [| fuel]; [cbn in Hf; lia |]); cbn [on_page].
  - left. rewrite app_nil_r, zget_out by lia. done.
  - rewrite zget_mid. cbn [mbind outcome_bind]. rewrite zlen_cons. pose proof (zlen_nonneg xs).
    replace (zlen pre <? zlen pre + (zlen xs + 1)) with true by lia. rewrite andb_true_r.
    destruct (Z.eqb_spec (TransactionIdToPage x) pg) as [Ex | Nx].
    + replace (zlen pre + (zlen xs + 1)) with (zlen (pre ++ [x]) + zlen xs) by (rewrite zlen_app, zlen_cons, zlen_nil; lia).
      replace (zlen pre + 1) with (zlen (pre ++ [x])) by (by rewrite zlen_app).
      replace (pre ++ x :: xs) with ((pre ++ [x]) ++ xs) by (by rewrite <- app_assoc).
      destruct (IH fuel (pre ++ [x])) as [E | (a & y & b & -> & Ha & Hy & E)]; [cbn in Hf; lia | by left |].
      right. exists (x :: a), y, b. split_and!; [done | by constructor | done |]. rewrite E, !zlen_app, !zlen_cons, zlen_nil. f_equal. lia.
    + right. exists [], x, xs. split_and!; try done. by rewrite zlen_nil, Z.add_0_r.
Qed.

Lemma by_pages_end fuel : forall d pre xs,
  dlog_ok d -> committable d xs -> xs <> [] -> (length xs <= fuel)%nat ->
  by_pages false fuel (zlen pre + zlen xs) (pre ++ xs) (zlen pre) g false d = Ub.
Proof.
  induction fuel as [| fuel IH]; intros d pre xs Hd Hc Hne Hf; (destruct xs as [| x xs]; [done |]); [cbn in Hf; lia |].
  cbn [by_pages]. rewrite zget_mid. pose proof (zlen_nonneg xs).
  replace (zlen pre <? zlen pre + zlen (x :: xs)) with true by (rewrite zlen_cons; lia). cbn [mbind outcome_bind].
  destruct (on_page_end (TransactionIdToPage x) (x :: xs) (S (Z.to_nat (zlen pre + zlen (x :: xs) - zlen pre))) pre)
    as [-> | (a & y & b & Eab & Ha & Hy & ->)]; [unfold zlen; cbn; lia | done |].
  cbn [mbind outcome_bind]. destruct a as [| x' a]; [by injection Eab as -> -> |].
  injection Eab as <- ->. apply Forall_cons in Ha as [_ Ha].
  replace (zlen pre + zlen (x :: a) - zlen pre) with (zlen (x :: a)) by lia.
  destruct (within_page_ok d pre x a (y :: b) Hd) as (d1 & E1 & Hc1);
    [intros z Hz; apply Hc; rewrite app_comm_cons; apply elem_of_app; by left | done |].
  cbn [app] in E1. rewrite E1. cbn [mbind outcome_bind]. pose proof Hc1 as [(Hd1 & _) _].
  rewrite <- (IH d1 (pre ++ x :: a) (y :: b) Hd1); [| by apply (committable_after d (x :: a) d1) | done |].
  - rewrite <- app_assoc. cbn [app]. rewrite !zlen_cons, !zlen_app, !zlen_cons. f_equal; lia.
  - cbn in Hf |- *. rewrite length_app in Hf. cbn in Hf. lia.
Qed.

(** The transaction itself is recorded first. *)
Lemma commit_top_ok d xid xs :
  dlog_ok d -> committable d (xid :: xs) ->
  exists d1, DistributedLog_SetCommittedWithinAPage false 1 [xid] 0 g false d = Ok d1 /\ dlog_ok d1 /\
    committable d1 xs /\ committed d [xid] d1.
Proof.
  intros Hd Hc. destruct (within_page_ok d [] xid [] [] Hd) as (d1 & E1 & Hc1);
    [intros y Hy; apply Hc; apply list_elem_of_singleton in Hy as ->; by apply elem_of_cons; left | constructor |].
  exists d1. split_and!; [exact E1 | apply Hc1 | by apply (committable_after d [xid] d1 xs) | done].
Qed.

Lemma commit_tree_ok d xid xs z post :
  dlog_ok d -> committable d (xid :: xs) ->
  exists d', DistributedLog_SetCommittedTree false false xid (zlen xs) (xs ++ z :: post) g false d = Ok d' /\
    committed d (xid :: xs) d'.
Proof.
  intros Hd Hc. unfold DistributedLog_SetCommittedTree. cbn [negb].
  destruct (commit_top_ok d xid xs Hd Hc) as (d1 & -> & Hd1 & Hcs & Hc1). cbn [mbind outcome_bind].
  destruct (by_pages_ok (Z.to_nat (zlen xs)) d1 [] xs z post Hd1 Hcs) as (d2 & E2 & Hc2); [unfold zlen; lia |].
  exists d2. split; [exact E2 |]. apply (committed_app d [xid] d1 xs d2 Hc1 Hc2).
  intros y Hy. apply list_elem_of_singleton in Hy as ->. apply Hc. by apply elem_of_cons; left.
Qed.
End Commit.

(** ** Looking up *)

Lemma read_entry_ok d r p xid e :
  dlog_ok d -> 0 <= xid -> p = TransactionIdToPage xid -> fetched (dl_slru d) p r -> dlog_entry d xid = Some e ->
  exists d', read_entry r (TransactionIdToEntry xid) d = Ok (e, d') /\ keeps d d'.
Proof.
  intros Hd Hx -> Hf He. destruct (page_entry_bounds xid Hx) as [Hp Hb].
  destruct Hf as [(k & s & st & -> & Hok & Hext & _ & _ & Hl) | (msg & -> & En)].
  2: { unfold dlog_entry in He. rewrite En in He. done. }
  unfold read_entry. cbn [mbind outcome_bind]. pose proof Hl as (Hk & _). rewrite (zget_nat _ _ _ Hk). cbn [mbind outcome_bind].
  pose proof (keeps_extends d st Hd Hok Hext) as Hkeep. pose proof Hkeep as (_ & _ & Hk').
  apply (Hk' xid e Hx) in He. unfold dlog_entry in He. cbn [dl_slru set_slru] in He.
  rewrite (loaded_content st _ k s Hok Hl) in He. cbn [mbind option_bind] in He.
  rewrite (zget_lookup _ _ e) by (lia || done). cbn [mbind outcome_bind]. by exists (set_slru d st).
Qed.

Lemma committed_check_ok d xid e :
  dlog_ok d -> 0 <= xid -> dl_oldestXmin d <> 0 -> TransactionIdPrecedes xid (dl_oldestXmin d) = false ->
  dlog_entry d xid = Some e ->
  exists d', DistributedLog_CommittedCheck false xid d = Ok (negb (e =? 0), e, d') /\ keeps d d'.
Proof.
  intros Hd Hx Hh Hpre He. unfold DistributedLog_CommittedCheck, InvalidTransactionId.
  replace (dl_oldestXmin d =? 0) with false by lia. rewrite Hpre.
  destruct (page_entry_bounds xid Hx) as [Hp _].
  destruct (read_entry_ok d _ _ xid e Hd Hx eq_refl (read_only_ok (dl_slru d) _ (proj1 Hd) Hp) He) as (d' & -> & Hk).
  cbn [mbind outcome_bind]. exists d'. destruct (e =? 0); done.
Qed.

(** ** Advancing the horizon *)

Lemma dist_add a b c : xid_dist a b + xid_dist b c < 2 ^ 32 -> xid_dist a c = xid_dist a b + xid_dist b c.
Proof. unfold xid_dist. intros H. zlia. Qed.

Lemma dist_back a b : 0 < xid_dist a b -> xid_dist b a = 2 ^ 32 - xid_dist a b.
Proof. unfold xid_dist. intros H. zlia. Qed.

Lemma dist_zero a b : normal_xid a -> normal_xid b -> xid_dist a b = 0 -> a = b.
Proof. unfold xid_dist, normal_xid, FirstNormalTransactionId. intros Ha Hb H. zlia. Qed.

(** No normal identifier lies between one and the next. *)
Lemma advance_next h o x :
  normal_xid o -> normal_xid x -> xid_dist h o <= xid_dist h x ->
  xid_dist h x < xid_dist h o + xid_dist o (TransactionIdAdvance o) -> x = o.
Proof.
  unfold xid_dist, normal_xid, TransactionIdAdvance, u32, FirstNormalTransactionId. intros Ho Hx H1 H2.
  destruct (Z.ltb_spec ((o + 1) mod 2 ^ 32) 3); zlia.
Qed.

Section Advance.
  Context (h L xminAll : Z) (Hh : normal_xid h) (HL : normal_xid L) (HhL : xid_dist h L <= 2 ^ 31).

(** Every transaction from [h] up to [o], which is left out, is over for all snapshots. *)
Definition passed (d : DistributedLog) (o : Z) : Prop :=
  forall x, normal_xid x -> xid_dist h x < xid_dist h o -> exists e, dlog_entry d x = Some e /\ e < xminAll.

(** The pages up to [L] are there. *)
Definition present (d : DistributedLog) : Prop :=
  forall x, normal_xid x -> xid_dist h x < xid_dist h L -> exists e, dlog_entry d x = Some e.

Definition stopped (d : DistributedLog) (o : Z) : Prop :=
  o = L \/ exists e, dlog_entry d o = Some e /\ xminAll <= e.

Lemma keeps_entry d d' x : keeps d d' -> normal_xid x -> (exists e, dlog_entry d x = Some e) -> dlog_entry d' x = dlog_entry d x.
Proof. intros (_ & _ & Hk) Hx [e He]. rewrite He. apply Hk; [unfold normal_xid, FirstNormalTransactionId in Hx; lia | done]. Qed.

Lemma passed_keeps d d' o : xid_dist h o <= xid_dist h L -> keeps d d' -> passed d o -> passed d' o.
Proof.
  intros Ho Hk Hp x Hx Hd. destruct (Hp x Hx Hd) as (e & He & Hlt). exists e. split; [| done].
  rewrite (keeps_entry d d' x Hk Hx); eauto.
Qed.

(** The page at hand. *)
Definition at_hand (d : DistributedLog) (currPage : Z) (entries : list Z) : Prop :=
  currPage = -1 \/ slru_content (dl_slru d) currPage = Some entries.

Lemma advance_read d o currPage entries e :
  dlog_ok d -> normal_xid o -> at_hand d currPage entries -> dlog_entry d o = Some e ->
  exists entries' d',
    (if negb (TransactionIdToPage o =? currPage) then
       '(slotno, st) ← SimpleLruReadPage_ReadOnly false (dl_slru d) (TransactionIdToPage o);
       s ← zget (slots st) slotno;
       Ok (page_buffer s, set_slru d st)
     else Ok (entries, d)) = Ok (entries', d') /\
    keeps d d' /\ at_hand d' (TransactionIdToPage o) entries' /\ zget entries' (TransactionIdToEntry o) = Ok e.
Proof.
  intros Hd Ho Hat He. assert (Ho0 : 0 <= o) by (unfold normal_xid, FirstNormalTransactionId in Ho; lia).
  destruct (page_entry_bounds o Ho0) as [Hp Hb]. unfold dlog_entry in He.
  destruct (slru_content (dl_slru d) (TransactionIdToPage o)) as [page |] eqn:Ec; [| done]. cbn [mbind option_bind] in He.
  destruct (Z.eqb_spec (TransactionIdToPage o) currPage) as [Ep | Np]; cbn [negb].
  - exists entries, d. rewrite <- Ep in Hat. destruct Hat as [Hat | Hat]; [lia |]. rewrite Ec in Hat. injection Hat as ->.
    split_and!; [done | by apply keeps_refl | by right | apply zget_lookup; (lia || done)].
  - destruct (read_only_ok (dl_slru d) _ (proj1 Hd) Hp) as [(k & s & st & -> & Hok & Hext & _ & _ & Hl) | (msg & _ & En)]; [| congruence].
    cbn [mbind outcome_bind]. pose proof Hl as (Hk & _). rewrite (zget_nat _ _ _ Hk). cbn [mbind outcome_bind].
    pose proof (loaded_content st _ k s Hok Hl) as Hc. exists (page_buffer s), (set_slru d st).
    split_and!; [done | by apply keeps_extends | by right |].
    destruct (Hext _ Hp) as [E | [E _]]; [| congruence]. rewrite Hc, Ec in E. injection E as ->.
    apply zget_lookup; (lia || done).
Qed.

Lemma advance_loop_ok fuel : forall o currPage entries d,
  dlog_ok d -> dl_oldestXmin d = h -> normal_xid o -> xid_dist h o + xid_dist o L = xid_dist h L ->
  passed d o -> present d -> at_hand d currPage entries -> (Z.to_nat (xid_dist o L) <= fuel)%nat ->
  exists o' d', advance_loop false fuel o L xminAll currPage entries d = Ok (o', d') /\ keeps d d' /\
    normal_xid o' /\ xid_dist h o' <= xid_dist h L /\ passed d o' /\ stopped d o'.
Proof.
  induction fuel as [| fuel IH]; intros o currPage entries d Hd Eh Ho Hsum Hpass Hpres Hat Hf;
    cbn [advance_loop]; rewrite (precedes_dist o L Ho HL); pose proof (xid_dist_bound o L); pose proof (xid_dist_bound h o).
  - assert (E0 : xid_dist o L = 0) by lia. rewrite E0. cbn. pose proof (dist_zero o L Ho HL E0) as ->.
    exists L, d. split_and!; try done. by left.
  - destruct (Z.ltb_spec 0 (xid_dist o L)) as [Hpos | Hz].
    2: { cbn. assert (E0 : xid_dist o L = 0) by lia. pose proof (dist_zero o L Ho HL E0) as ->.
         exists L, d. split_and!; try done. by left. }
    replace (xid_dist o L <=? 2 ^ 31) with true by lia. cbn [andb negb]. rewrite Eh.
    assert (Hpre : TransactionIdPrecedes o h = false).
    { rewrite (precedes_dist o h Ho Hh). destruct (Z.eq_dec (xid_dist h o) 0) as [E0 | N0].
      - pose proof (dist_zero h o Hh Ho E0) as <-. by rewrite xid_dist_refl.
      - rewrite (dist_back h o) by lia. lia. }
    rewrite Hpre, andb_false_r.
    destruct (Hpres o Ho) as [e He]; [lia |].
    destruct (advance_read d o currPage entries e Hd Ho Hat He) as (entries' & d1 & -> & Hk & Hat1 & Hz).
    cbn [mbind outcome_bind]. rewrite Hz. cbn [mbind outcome_bind].
    destruct (Z.leb_spec xminAll e) as [Hge | Hlt].
    { exists o, d1. split_and!; try done; [lia |]. right. by exists e. }
    destruct (advance_dist o L Ho HL Hpos) as [Hstep Esum].
    assert (Eh' : xid_dist h (TransactionIdAdvance o) = xid_dist h o + xid_dist o (TransactionIdAdvance o)).
    { apply dist_add. pose proof (xid_dist_bound (TransactionIdAdvance o) L). lia. }
    assert (Hpass' : passed d (TransactionIdAdvance o)).
    { intros x Hx Hdx. destruct (Z.lt_ge_cases (xid_dist h x) (xid_dist h o)) as [Hl | Hg]; [by apply Hpass |].
      pose proof (advance_next h o x Ho Hx Hg ltac:(lia)) as ->. by exists e. }
    pose proof (xid_dist_bound (TransactionIdAdvance o) L).
    destruct (IH (TransactionIdAdvance o) (TransactionIdToPage o) entries' d1) as (o' & d' & E & Hk' & Ho' & Hle & Hp' & Hs').
    { apply Hk. } { rewrite (proj1 (proj2 Hk)). done. } { by apply advance_normal. } { lia. }
    { eapply passed_keeps; [| done | done]. lia. }
    { intros x Hx Hdx. rewrite (keeps_entry d d1 x Hk Hx); auto. }
    { done. } { lia. }
    exists o', d'. split; [exact E |]. split; [by eapply keeps_trans |]. split; [done |]. split; [done |].
    assert (Hdown : forall x, normal_xid x -> xid_dist h x < xid_dist h L -> dlog_entry d1 x = dlog_entry d x)
      by (intros x Hx Hdx; apply keeps_entry; auto).
    split.
    + intros x Hx Hdx. rewrite <- Hdown by (done || lia). by apply Hp'.
    + destruct Hs' as [-> | (e' & He' & Hge)]; [by left |].
      destruct (Z.eq_dec (xid_dist h o') (xid_dist h L)) as [Eq | Nq].
      * left. unfold xid_dist, normal_xid, FirstNormalTransactionId in *. zlia.
      * right. exists e'. rewrite <- Hdown by (done || lia). done.
Qed.
End Advance.

(** ** Truncation *)

Definition page_dist (p q : Z) : Z := (q - p) mod 2 ^ 20.

Lemma page_precedes_dist p q :
  DistributedLog_PagePrecedes p q = (0 <? page_dist p q) && (page_dist p q <=? 2 ^ 19).
Proof.
  assert (Hx : forall r, u32 (u32 (u32 r * ENTRIES_PER_PAGE) + FirstNormalTransactionId) = r mod 2 ^ 20 * 4096 + 3).
  { intros r. rewrite entries_per_page. unfold u32, FirstNormalTransactionId. zlia. }
  unfold DistributedLog_PagePrecedes. rewrite !Hx.
  assert (Hn : forall r, normal_xid (r mod 2 ^ 20 * 4096 + 3)).
  { intros r. unfold normal_xid, FirstNormalTransactionId. zlia. }
  rewrite precedes_dist by done.
  assert (E : xid_dist (p mod 2 ^ 20 * 4096 + 3) (q mod 2 ^ 20 * 4096 + 3) = page_dist p q * 4096).
  { unfold xid_dist, page_dist. zlia. }
  rewrite E. lia.
Qed.

Lemma distlog_segments_convex cutoff : segments_convex cutoff.
Proof.
  intros p Hp. unfold SlruMayDeleteSegment. cbn [PagePrecedes DistributedLogCtl].
  rewrite !page_precedes_dist. unfold page_dist, SLRU_PAGES_PER_SEGMENT. zlia.
Qed.

(** Less than half the circle ahead of the horizon, a page short of it: the page is not older. *)
Lemma page_not_older h x :
  normal_xid h -> normal_xid x -> xid_dist h x < 2 ^ 31 - ENTRIES_PER_PAGE ->
  DistributedLog_PagePrecedes (TransactionIdToPage x) (TransactionIdToPage h) = false.
Proof.
  intros Hh Hx Hd. rewrite page_precedes_dist.
  assert (E : page_dist (TransactionIdToPage h) (TransactionIdToPage x) < 2 ^ 19).
  { unfold page_dist, TransactionIdToPage, xid_dist, normal_xid, FirstNormalTransactionId in *.
    rewrite entries_per_page in *. zlia. }
  unfold page_dist in *. zlia.
Qed.

Lemma truncate_pages_ok d p :
  dlog_ok d ->
  exists st, SimpleLruTruncate (dl_slru d) p = Ok st /\ dlog_ok (set_slru d st) /\
    forall x, normal_xid x -> DistributedLog_PagePrecedes (TransactionIdToPage x) p = false ->
      forall e, dlog_entry d x = Some e -> dlog_entry (set_slru d st) x = Some e.
Proof.
  intros [Hok Hfull]. destruct (truncate_ok (dl_slru d) p Hok (distlog_segments_convex _)) as (st & -> & Hok' & Hkept & Hsh & _).
  exists st. split; [done |]. split; [split; [done |] |].
  - intros q page Hq Hc. cbn [dl_slru set_slru] in Hc.
    destruct (Hsh q Hq) as [E | [E | E]]; rewrite E in Hc; [by eapply Hfull | done |].
    injection Hc as <-. apply zero_entries_length.
  - intros x Hx Hpre e. unfold dlog_entry. cbn [dl_slru set_slru].
    destruct (page_entry_bounds x) as [Hp _]; [unfold normal_xid, FirstNormalTransactionId in Hx; lia |].
    destruct (Hkept _ Hp Hpre) as [-> | [-> _]]; done.
Qed.

Lemma truncated_ok d h :
  dlog_ok d ->
  exists d', DistributedLog_Truncate h d = Ok d' /\ dlog_ok d' /\ dl_oldestXmin d' = dl_oldestXmin d /\
    forall x, normal_xid x -> DistributedLog_PagePrecedes (TransactionIdToPage x) (TransactionIdToPage h) = false ->
      forall e, dlog_entry d x = Some e -> dlog_entry d' x = Some e.
Proof.
  intros Hd. unfold DistributedLog_Truncate. destruct (SlruScanDirCbReportPresence _ _); cbn [negb]; [| by exists d].
  destruct (truncate_pages_ok d (TransactionIdToPage h) Hd) as (st & -> & Hd' & Hk). by exists (set_slru d st).
Qed.


(** ** A log to start with *)

(** The log with its first page, as [DistributedLog_Extend] leaves it for the
    first normal transaction. *)
Lemma first_page_ok (n : nat) h :
  (2 <= n)%nat ->
  exists d, DistributedLog_Extend false FirstNormalTransactionId (mkDistributedLog (SimpleLruInit n ∅) h) = Ok d /\
    dlog_ok d /\ dl_oldestXmin d = h /\ forall x, 0 <= x < ENTRIES_PER_PAGE -> dlog_entry d x = Some 0.
Proof.
  intros Hn. pose proof (slru_init_ok n ∅ Hn) as Hok.
  assert (Hp : forall x, 0 <= x < ENTRIES_PER_PAGE -> TransactionIdToPage x = 0 /\ TransactionIdToEntry x = x).
  { intros x. unfold TransactionIdToPage, TransactionIdToEntry. rewrite entries_per_page. intros. zlia. }
  destruct (zero_page_ok (SimpleLruInit n ∅) 0 Hok ltac:(done)) as (i & s & st & E & (Hok' & Hc & Ho & _) & _).
  unfold DistributedLog_Extend, TransactionIdEquals. rewrite Z.eqb_refl, andb_false_r.
  unfold DistributedLog_ZeroPage. cbn [dl_slru]. destruct (Hp FirstNormalTransactionId) as [-> _].
  { rewrite entries_per_page. unfold FirstNormalTransactionId. lia. }
  rewrite E. cbn [mbind outcome_bind]. eexists. split; [done |]. split; [split; [done |] | split; [done |]].
  - intros p page Hpos Hpage. cbn [dl_slru set_slru] in Hpage. destruct (Z.eq_dec p 0) as [-> | Hne].
    + rewrite Hc in Hpage. injection Hpage as <-. apply zero_entries_length.
    + destruct (Ho p Hpos Hne) as [E' | [_ E']]; rewrite E' in Hpage.
      * rewrite content_disk in Hpage; [done | done |].
        intros j r Hj. apply lookup_replicate in Hj as [-> _]. unfold holds, is_empty. cbn. by rewrite andb_false_r.
      * injection Hpage as <-. apply zero_entries_length.
  - intros x Hx. destruct (Hp x Hx) as [Ep Ee]. unfold dlog_entry. cbn [dl_slru set_slru]. rewrite Ep, Ee, Hc.
    by apply zero_entries_lookup.
Qed.

(** ** Commit and lookup *)

Lemma check_known d x e :
  dlog_ok d -> 0 <= x -> dl_oldestXmin d <> InvalidTransactionId ->
  TransactionIdPrecedes x (dl_oldestXmin d) = false -> dlog_entry d x = Some e ->
  exists d', DistributedLog_CommittedCheck false x d = Ok (negb (e =? 0), e, d').
Proof. intros Hd Hx Hh Hp He. destruct (committed_check_ok d x e Hd Hx Hh Hp He) as (d' & E & _). eauto. Qed.

Lemma commit_tree_rest_ok g d xid xs rest :
  g <> 0 -> dlog_ok d -> committable g d (xid :: xs) -> xs = [] \/ rest <> [] ->
  exists d', DistributedLog_SetCommittedTree false false xid (zlen xs) (xs ++ rest) g false d = Ok d' /\
    committed g d (xid :: xs) d'.
Proof.
  intros Hg Hd Hc Hrest. destruct rest as [| z post]; [| by apply commit_tree_ok].
  destruct Hrest as [-> | Hn]; [| done].
  destruct (commit_tree_ok g Hg d xid [] 0 [] Hd Hc) as (d' & E & Hd'). exists d'. split; [| done]. rewrite <- E. reflexivity.
Qed.



(** The loop of [DistributedLog_SetCommittedByPages] that looks for the end of
    a page reads [subxids[i]] before it compares [i] with [nsubxids].  When the
    array holds exactly the subtransactions of the commit, every commit with at
    least one of them reads past the end of the array. *)
Theorem distlog_subxids_overread g d xid xs :
  g <> 0 -> dlog_ok d -> committable g d (xid :: xs) -> xs <> [] ->
  DistributedLog_SetCommittedTree false false xid (zlen xs) xs g false d = Ub.
Proof.
  intros Hg Hd Hc Hne. unfold DistributedLog_SetCommittedTree. cbn [negb].
  destruct (commit_top_ok g Hg d xid xs Hd Hc) as (d1 & -> & Hd1 & Hc1 & _). cbn [mbind outcome_bind].
  unfold DistributedLog_SetCommittedByPages.
  apply (by_pages_end g Hg (Z.to_nat (zlen xs)) d1 [] xs Hd1 Hc1 Hne). unfold zlen. lia.
Qed.

Lemma distlog_subxids_overread_witness :
  exists d, dlog_ok d /\ DistributedLog_SetCommittedTree false false 100 1 [101] 77 false d = Ub.
Proof.
  destruct (first_page_ok 8 3 ltac:(lia)) as (d & _ & Hd & Eh & H0). exists d. split; [done |].
  apply (distlog_subxids_overread 77 d 100 [101]); [done | done | | done].
  intros x Hx. rewrite entries_per_page in H0. assert (Hx' : x = 100 \/ x = 101) by set_solver.
  split; [lia | left; apply H0; lia].
Defined.


(** ** Two limits of the code *)

(** Half the circle apart, pages precede each other both ways, and the page of a
    transaction that follows the horizon counts as older than the horizon's. *)
Lemma page_precedes_half_circle :
  DistributedLog_PagePrecedes 524288 0 = true /\ DistributedLog_PagePrecedes 0 524288 = true /\
  TransactionIdFollows (2 ^ 31 + 4094) 4095 = true /\
  TransactionIdToPage (2 ^ 31 + 4094) = 524288 /\ TransactionIdToPage 4095 = 0.
Proof. by vm_compute. Qed.

(** Replaying a commit on a page that has no file: the page is zeroed for the
    transaction and once more for its subtransactions on the same page, and the
    entry of the transaction is lost. *)
Lemma redo_zeroes_twice :
  exists d, DistributedLog_SetCommittedTree true false 100 1 [101; 0] 77 true (mkDistributedLog (SimpleLruInit 4 ∅) 3) = Ok d /\
    dlog_entry d 100 = Some 0 /\ dlog_entry d 101 = Some 77.
Proof. eexists. split; [vm_compute; reflexivity |]. split; vm_compute; reflexivity. Qed.

(** ** The horizon after a restart *)

(** The first identifier of the next page, or the first normal one. *)
Lemma next_page_cases o :
  normal_xid o ->
  let p := TransactionIdToPage o in
  p < 2 ^ 20 - 1 /\ AdvanceTransactionIdToNextPage o = 4096 * (p + 1) \/ p = 2 ^ 20 - 1 /\ AdvanceTransactionIdToNextPage o = 3.
Proof.
  unfold normal_xid, AdvanceTransactionIdToNextPage, TransactionIdToPage, u32, FirstNormalTransactionId.
  rewrite entries_per_page. intros Ho. cbv zeta. destruct (Z.lt_ge_cases (o + 4096) (2 ^ 32)) as [H | H].
  - rewrite (Z.mod_small (o + 4096)) by lia. left. zlia.
  - replace ((o + 4096) mod 2 ^ 32) with (o + 4096 - 2 ^ 32) by zlia. right. zlia.
Qed.

Lemma next_page o :
  normal_xid o ->
  let n := AdvanceTransactionIdToNextPage o in
  normal_xid n /\ TransactionIdToPage n = (TransactionIdToPage o + 1) mod 2 ^ 20 /\ 0 < xid_dist o n <= ENTRIES_PER_PAGE + 3 /\
  forall y, normal_xid y -> xid_dist o y < 2 ^ 31 -> xid_dist o y < xid_dist o n <-> TransactionIdToPage y = TransactionIdToPage o.
Proof.
  intros Ho. cbv zeta. destruct (next_page_cases o Ho) as [[Hp ->] | [Hp ->]]; unfold normal_xid, TransactionIdToPage, xid_dist,
    FirstNormalTransactionId in *; rewrite entries_per_page in *.
  - assert (E : (4096 * (o / 4096 + 1) - o) mod 2 ^ 32 = 4096 * (o / 4096 + 1) - o) by zlia.
    rewrite E. split; [zlia |]. split; [zlia |]. split; [zlia |]. intros y Hy. zlia.
  - assert (E : (3 - o) mod 2 ^ 32 = 3 - o + 2 ^ 32) by zlia.
    rewrite E, Hp. split; [zlia |]. split; [zlia |]. split; [zlia |]. intros y Hy. zlia.
Qed.

Lemma dlog_page_range x : normal_xid x -> 0 <= TransactionIdToPage x < 2 ^ 20.
Proof. unfold TransactionIdToPage, normal_xid, FirstNormalTransactionId. rewrite entries_per_page. intros. zlia. Qed.

Lemma page_dist_step p q : 0 <= p < 2 ^ 20 -> 0 <= q < 2 ^ 20 -> p <> q ->
  0 < page_dist p q /\ page_dist ((p + 1) mod 2 ^ 20) q = page_dist p q - 1.
Proof.
  intros Hp Hq Hne. unfold page_dist. rewrite Zminus_mod_idemp_r.
  replace (q - (p + 1)) with (q - p - 1) by lia. assert (H : (q - p) mod 2 ^ 20 <> 0) by zlia. split; zlia.
Qed.

Section Init.
  Context (st : Slru (list Z)) (next : Z) (Hnext : normal_xid next).

(** The horizon is the first identifier with a page on disk, [next] at most. *)
Definition initial (o x : Z) : Prop :=
  normal_xid x /\ xid_dist o x <= xid_dist o next /\
  (x = next \/ SimpleLruDoesPhysicalPageExist st (TransactionIdToPage x) = true) /\
  forall y, normal_xid y -> xid_dist o y < xid_dist o x -> SimpleLruDoesPhysicalPageExist st (TransactionIdToPage y) = false.

Lemma init_loop_ok fuel : forall o,
  normal_xid o -> xid_dist o next < 2 ^ 31 - 4099 -> (Z.to_nat (page_dist (TransactionIdToPage o) (TransactionIdToPage next)) < fuel)%nat ->
  exists x, init_loop fuel o next st = Ok x /\ initial o x.
Proof.
  induction fuel as [| fuel IH]; intros o Ho Hd Hf; [lia |]. cbn [init_loop]. pose proof (xid_dist_bound o next).
  destruct (SimpleLruDoesPhysicalPageExist st (TransactionIdToPage o)) eqn:Ep.
  { exists o. split; [done |]. split; [done |]. rewrite xid_dist_refl. split; [lia |]. split; [by right |].
    intros y _ Hy. pose proof (xid_dist_bound o y). lia. }
  destruct (next_page o Ho) as (Hn & Epn & Hdn & Hsame). set (n := AdvanceTransactionIdToNextPage o) in *. rewrite entries_per_page in Hdn.
  rewrite (follows_or_equals_dist n next Hn Hnext).
  destruct (Z.lt_ge_cases (xid_dist o n) (xid_dist o next)) as [Hlt | Hge].
  - assert (Esum : xid_dist n next = xid_dist o next - xid_dist o n) by (unfold xid_dist in *; zlia).
    rewrite (dist_back n next) by lia. replace (2 ^ 32 - xid_dist n next <? 2 ^ 31) with false by lia.
    assert (Hpne : TransactionIdToPage next <> TransactionIdToPage o) by (intros Eq; apply Hsame in Eq; [lia | done | lia]).
    destruct (IH n Hn ltac:(lia)) as (x & -> & Hx & Hle & Hstop & Hno).
    { rewrite Epn. destruct (page_dist_step (TransactionIdToPage o) (TransactionIdToPage next)) as [? ->]; try (by apply dlog_page_range); [congruence | lia]. }
    assert (Eox : xid_dist o x = xid_dist o n + xid_dist n x) by (apply dist_add; lia).
    exists x. split; [done |]. split; [done |]. split; [lia |]. split; [done |]. intros y Hy Hdy.
    destruct (Z.lt_ge_cases (xid_dist o y) (xid_dist o n)) as [Hb | Hb].
    + rewrite (proj1 (Hsame y Hy ltac:(lia)) Hb). done.
    + apply Hno; [done |]. unfold xid_dist in *. zlia.
  - assert (E : xid_dist next n = xid_dist o n - xid_dist o next) by (unfold xid_dist in *; zlia).
    rewrite E. replace (xid_dist o n - xid_dist o next <? 2 ^ 31) with true by lia. exists next. split; [done |].
    split; [done |]. split; [lia |]. split; [by left |]. intros y Hy Hdy. by rewrite (proj1 (Hsame y Hy ltac:(lia)) ltac:(lia)).
Qed.
End Init.

Lemma init_oldest_ok d oldest next :
  normal_xid oldest -> normal_xid next -> xid_dist oldest next < 2 ^ 31 - 4099 ->
  exists x, DistributedLog_InitOldestXmin oldest next d = Ok (mkDistributedLog (dl_slru d) x) /\ initial (dl_slru d) next oldest x.
Proof.
  intros Ho Hn Hd. unfold DistributedLog_InitOldestXmin.
  destruct (init_loop_ok (dl_slru d) next Hn (S (Z.to_nat (xid_dist oldest next / ENTRIES_PER_PAGE + 1))) oldest Ho Hd) as (x & -> & Hx).
  - unfold page_dist, TransactionIdToPage, normal_xid, FirstNormalTransactionId, xid_dist in *. rewrite entries_per_page. zlia.
  - cbn [mbind outcome_bind]. by exists x.
Qed.

(** ** Start-up *)

(** The entries whose ids satisfy [P] are zero, the others are kept. *)
Definition zeroes (P : Z -> Prop) (d d' : DistributedLog) : Prop :=
  dlog_ok d' /\ dl_oldestXmin d' = dl_oldestXmin d /\
  (forall y, normal_xid y -> P y -> dlog_entry d' y = Some 0) /\
  (forall y e, normal_xid y -> ~ P y -> dlog_entry d y = Some e -> dlog_entry d' y = Some e).

Lemma zero_log_page d p :
  dlog_ok d -> 0 <= p ->
  exists k d', DistributedLog_ZeroPage d p = Ok (k, d') /\ zeroes (fun y => TransactionIdToPage y = p) d d'.
Proof.
  intros [Hok Hf] Hp. destruct (zero_page_ok (dl_slru d) p Hok Hp) as (i & s & st & E & (Hok' & Hc & Ho & _) & _).
  unfold DistributedLog_ZeroPage. rewrite E. cbn [mbind outcome_bind]. eexists _, _. split; [done |].
  split; [split; [done |] |]; [| split; [done |]; split].
  - intros q page Hq Hpage. cbn [dl_slru set_slru] in Hpage. destruct (Z.eq_dec q p) as [-> | Hne].
    + rewrite Hc in Hpage. injection Hpage as <-. apply zero_entries_length.
    + destruct (Ho q Hq Hne) as [E' | [_ E']]; rewrite E' in Hpage; [by eapply Hf |]. injection Hpage as <-. apply zero_entries_length.
  - intros y Hy <-. unfold dlog_entry. cbn [dl_slru set_slru]. rewrite Hc. cbn [mbind option_bind].
    apply zero_entries_lookup. apply page_entry_bounds. unfold normal_xid, FirstNormalTransactionId in Hy. lia.
  - intros y e Hy Hne. unfold dlog_entry. cbn [dl_slru set_slru].
    destruct (page_entry_bounds y) as [Hq _]; [unfold normal_xid, FirstNormalTransactionId in Hy; lia |].
    destruct (Ho _ Hq Hne) as [-> | [-> _]]; done.
Qed.

Lemma zeroes_ext (P Q : Z -> Prop) d d' : (forall y, normal_xid y -> P y <-> Q y) -> zeroes P d d' -> zeroes Q d d'.
Proof.
  intros H (Hd & Eh & Hz & Hk). split_and!; try done.
  - intros y Hy Hq. apply Hz; [done | by apply H].
  - intros y e Hy Hq. apply Hk; [done |]. by rewrite H.
Qed.

Lemma zeroes_trans (P Q : Z -> Prop) d d1 d2 :
  (forall y, Decision (Q y)) -> zeroes P d d1 -> zeroes Q d1 d2 -> zeroes (fun y => P y \/ Q y) d d2.
Proof.
  intros Hdec (Hd1 & Eh1 & Hz1 & Hk1) (Hd2 & Eh2 & Hz2 & Hk2). split_and!; [done | congruence | |].
  - intros y Hy HPQ. destruct (Hdec y) as [HQ | HQ]; [by apply Hz2 |]. apply Hk2; [done | done |]. apply Hz1; [done |].
    by destruct HPQ.
  - intros y e Hy HPQ He. apply Hk2; [done | tauto |]. apply Hk1; [done | tauto | done].
Qed.

Lemma last_log_page : TransactionIdToPage MaxTransactionId = 2 ^ 20 - 1.
Proof. unfold TransactionIdToPage. by rewrite entries_per_page. Qed.

Lemma zero_range_ok fuel : forall p q d,
  dlog_ok d -> 0 <= p <= 2 ^ 20 -> 0 <= q < 2 ^ 20 -> (Z.to_nat (page_dist (p mod 2 ^ 20) q) < fuel)%nat ->
  exists d', zero_range fuel p q d = Ok d' /\
    zeroes (fun y => page_dist (p mod 2 ^ 20) (TransactionIdToPage y) <= page_dist (p mod 2 ^ 20) q) d d'.
Proof.
  induction fuel as [| fuel IH]; intros p q d Hd Hp Hq Hf; [lia |]. cbn [zero_range]. rewrite last_log_page.
  assert (Ep : (if 2 ^ 20 - 1 <? p then 0 else p) = p mod 2 ^ 20).
  { destruct (Z.ltb_spec (2 ^ 20 - 1) p); [by replace p with (2 ^ 20) by lia | rewrite Z.mod_small by lia; done]. }
  rewrite Ep. set (c := p mod 2 ^ 20) in *. assert (Hc : 0 <= c < 2 ^ 20) by (apply Z.mod_pos_bound; lia). clearbody c. clear Ep Hp p.
  destruct (zero_log_page d c Hd ltac:(lia)) as (k & d1 & -> & Hz1). cbn [mbind outcome_bind].
  assert (Hself : page_dist c c = 0) by (unfold page_dist; by rewrite Z.sub_diag).
  assert (Hnn : forall r, 0 <= page_dist c r) by (intros r; apply Z.mod_pos_bound; lia).
  destruct (Z.eqb_spec c q) as [<- | Hne]; cbn [negb].
  - exists d1. split; [done |]. revert Hz1. apply zeroes_ext. intros y Hy. pose proof (dlog_page_range y Hy). rewrite Hself.
    split; [intros Ey; rewrite Ey, Hself; lia |]. intros Hle. destruct (Z.eq_dec c (TransactionIdToPage y)) as [-> | Nc]; [done |].
    destruct (page_dist_step c (TransactionIdToPage y)) as [? _]; (done || lia).
  - destruct (page_dist_step c q Hc Hq Hne) as [Hpos Estep].
    destruct (IH (c + 1) q d1 (proj1 Hz1) ltac:(lia) Hq) as (d' & E' & Hz'); [rewrite Estep; lia |].
    exists d'. split; [done |]. pose proof (zeroes_trans _ _ d d1 d' _ Hz1 Hz') as Hz. revert Hz. apply zeroes_ext.
    intros y Hy. pose proof (dlog_page_range y Hy) as Hr. rewrite Estep.
    destruct (Z.eq_dec c (TransactionIdToPage y)) as [Eq | Nc].
    + split; [intros _; rewrite <- Eq, Hself; lia | by left].
    + destruct (page_dist_step c (TransactionIdToPage y) Hc Hr Nc) as [_ ->]. split; [intros [? | ?]; [congruence | lia] | intros; right; lia].
Qed.

(** The end of the page of [next], from its entry on. *)
Definition rest_of_page (next y : Z) : Prop := TransactionIdToPage y = TransactionIdToPage next /\ next <= y.

Lemma zero_rest_ok next d e :
  dlog_ok d -> normal_xid next -> dlog_entry d next = Some e ->
  exists d', zero_rest false next d = Ok d' /\ zeroes (rest_of_page next) d d'.
Proof.
  intros Hd Hn He. assert (Hpos : forall y, normal_xid y -> 0 <= y) by (unfold normal_xid, FirstNormalTransactionId; lia).
  destruct (page_entry_bounds next (Hpos _ Hn)) as [Hp Hb]. unfold zero_rest. set (p := TransactionIdToPage next) in *.
  destruct (read_page_ok (dl_slru d) p true (proj1 Hd) Hp) as [(k & s & st & -> & Hok & Hext & _ & _ & Hl) | (msg & _ & En)].
  2: { unfold dlog_entry in He. fold p in He. rewrite En in He. done. }
  cbn [mbind outcome_bind]. pose proof Hl as (Hk & _). rewrite (zget_nat _ _ _ Hk). cbn [mbind outcome_bind].
  pose proof (keeps_extends d st Hd Hok Hext) as (Hd1 & _ & Hk1). pose proof (loaded_content st p k s Hok Hl) as Hc.
  pose proof (proj2 Hd1 p _ Hp Hc) as Hlen. set (i := TransactionIdToEntry next) in *.
  rewrite mem_write_ok by (rewrite ?zlen_replicate; unfold zlen; rewrite ?Hlen; lia). cbn [mbind outcome_bind].
  set (page := take _ _ ++ _). assert (Hlen' : length page = Z.to_nat ENTRIES_PER_PAGE).
  { unfold page. rewrite !length_app, length_take, length_drop, length_replicate. lia. }
  destruct (slot_update_ok st p k s page Hok Hl) as (s' & st' & -> & Hok' & _ & _ & Hc' & _). cbn [mbind outcome_bind].
  exists (set_slru d st'). split; [done |]. split; [split; [done |] |]; [| split; [done |]; split].
  - intros q pg Hq Hpg. cbn [dl_slru set_slru] in Hpg. rewrite Hc' in Hpg. destruct (q =? p); [by simplify_eq |]. by eapply (proj2 Hd1).
  - intros y Hy [Ep Hle]. destruct (page_entry_bounds y (Hpos _ Hy)) as [_ Hby]. unfold dlog_entry. cbn [dl_slru set_slru].
    rewrite Hc', Ep, Z.eqb_refl. cbn [mbind option_bind]. unfold page. fold p in Ep.
    assert (Hie : i <= TransactionIdToEntry y) by (unfold i, p, TransactionIdToEntry, TransactionIdToPage in *; rewrite entries_per_page in *; zlia).
    rewrite lookup_app_r, length_take by (rewrite length_take; lia). rewrite lookup_app_l by (rewrite length_replicate; lia).
    apply lookup_replicate_2. lia.
  - intros y e' Hy Hn' He'. destruct (page_entry_bounds y (Hpos _ Hy)) as [_ Hby]. apply (Hk1 y e' (Hpos _ Hy)) in He'.
    unfold dlog_entry in *. cbn [dl_slru set_slru] in *. rewrite Hc'. destruct (Z.eqb_spec (TransactionIdToPage y) p) as [Ep | Np]; [| done].
    rewrite Ep, Hc in He'. cbn [mbind option_bind] in *. assert (Hlt : y < next) by (unfold rest_of_page in Hn'; lia).
    assert (Hie : TransactionIdToEntry y < i) by (unfold i, p, TransactionIdToEntry, TransactionIdToPage in *; rewrite entries_per_page in *; zlia).
    unfold page. rewrite lookup_app_l by (rewrite length_take; lia). by rewrite lookup_take_lt by lia.
Qed.

Lemma with_latest_ok d page :
  dlog_ok d -> dlog_ok (set_slru d (with_latest (dl_slru d) page)) /\
    forall y, dlog_entry (set_slru d (with_latest (dl_slru d) page)) y = dlog_entry d y.
Proof.
  intros [[? ? ? ? ?] Hf]. split; [split; [by constructor | done] | done].
Qed.

Lemma zeroes_none (P : Z -> Prop) d : dlog_ok d -> (forall y, ~ P y) -> zeroes P d d.
Proof. intros Hd HP. split_and!; try done. intros y _ H. by destruct (HP y). Qed.

(** The pages of the active range, around the circle. *)
Definition active_pages (active next y : Z) : Prop :=
  page_dist (TransactionIdToPage active) (TransactionIdToPage y) <= page_dist (TransactionIdToPage active) (TransactionIdToPage next).

Lemma startup_convert_ok active next d :
  dlog_ok d -> normal_xid active -> normal_xid next ->
  exists d0 d', (st ← SimpleLruTruncate (dl_slru d) (TransactionIdToPage active);
     zero_range (S (Z.to_nat ((TransactionIdToPage next - TransactionIdToPage active) mod (TransactionIdToPage MaxTransactionId + 1))))
       (TransactionIdToPage active) (TransactionIdToPage next) (set_slru d st)) = Ok d' /\ zeroes (active_pages active next) d0 d'.
Proof.
  intros Hd Ha%dlog_page_range Hn%dlog_page_range. set (p := TransactionIdToPage active) in *. set (q := TransactionIdToPage next) in *.
  destruct (truncate_pages_ok d p Hd) as (st & -> & Hd0 & _). cbn [mbind outcome_bind]. exists (set_slru d st). rewrite last_log_page.
  assert (Em : p mod 2 ^ 20 = p) by (apply Z.mod_small; lia). replace (2 ^ 20 - 1 + 1) with (2 ^ 20) by lia. fold (page_dist p q).
  destruct (zero_range_ok (S (Z.to_nat (page_dist p q))) p q (set_slru d st) Hd0) as (d' & -> & Hz); [lia | lia | rewrite Em; lia |].
  rewrite Em in Hz. by exists d'.
Qed.

Lemma startup_rest_ok next d :
  dlog_ok d -> normal_xid next -> (TransactionIdToEntry next <> 0 -> exists e, dlog_entry d next = Some e) ->
  exists d', (if negb (TransactionIdToEntry next =? 0) then zero_rest false next d else Ok d) = Ok d' /\
    zeroes (fun y => TransactionIdToEntry next <> 0 /\ rest_of_page next y) d d'.
Proof.
  intros Hd Hn He. destruct (Z.eqb_spec (TransactionIdToEntry next) 0) as [Ez | Nz]; cbn [negb].
  - exists d. split; [done |]. apply zeroes_none; [done |]. tauto.
  - destruct (He Nz) as [e Ee]. destruct (zero_rest_ok next d e Hd Hn Ee) as (d' & -> & Hz). exists d'. split; [done |].
    revert Hz. apply zeroes_ext. intros y _. tauto.
Qed.

(** Which entries a start-up zeroes. *)
Definition startup_zeroes (convert : bool) (active next y : Z) : Prop :=
  convert = true /\ active_pages active next y \/ TransactionIdToEntry next <> 0 /\ rest_of_page next y.



(** ** Scanning backwards *)

(** No transaction from [lo] to [hi] committed in a distributed one, as far as the log knows. *)
Definition none_committed (d : DistributedLog) (lo hi : Z) : Prop :=
  forall y e, FirstNormalTransactionId <= y -> lo <= y <= hi -> dlog_entry d y = Some e -> e = 0.

Lemma scan_page_ok n : forall page xid,
  length page = Z.to_nat ENTRIES_PER_PAGE -> Z.of_nat n <= TransactionIdToEntry xid + 1 ->
  exists r, scan_page n page xid = Ok r /\
    match r with
    | Some (x, e) =>
        xid - Z.of_nat n < x <= xid /\ e <> 0 /\ page !! Z.to_nat (TransactionIdToEntry x) = Some e /\
        forall y, x < y <= xid -> page !! Z.to_nat (TransactionIdToEntry y) = Some 0
    | None => forall y, xid - Z.of_nat n < y <= xid -> page !! Z.to_nat (TransactionIdToEntry y) = Some 0
    end.
Proof.
  induction n as [| n IH]; intros page xid Hlen Hn; cbn [scan_page]; [exists None; split; [done |]; intros y Hy; lia |].
  assert (Hb : 0 <= TransactionIdToEntry xid < ENTRIES_PER_PAGE) by (apply Z.mod_pos_bound; rewrite entries_per_page; lia).
  destruct (lookup_lt_is_Some_2 page (Z.to_nat (TransactionIdToEntry xid))) as [e He]; [lia |].
  rewrite (zget_lookup _ _ e) by (lia || done). cbn [mbind outcome_bind]. destruct (Z.eqb_spec e 0) as [-> | Ne]; cbn [negb].
  2: { exists (Some (xid, e)). split; [done |]. split; [lia |]. split; [done |]. split; [done |]. intros y Hy. lia. }
  destruct n as [| n']; [exists None; split; [done |]; intros y Hy; by replace y with xid by lia |].
  destruct (IH page (xid - 1) Hlen) as (r & -> & Hr).
  { unfold TransactionIdToEntry in *. rewrite entries_per_page in *. zlia. }
  exists r. split; [done |]. destruct r as [[x e] |].
  - destruct Hr as (Hx & Hne & Hxe & Hz). split; [lia |]. split; [done |]. split; [done |]. intros y Hy.
    destruct (Z.eq_dec y xid) as [-> | Ny]; [done |]. apply Hz. lia.
  - intros y Hy. destruct (Z.eq_dec y xid) as [-> | Ny]; [done |]. apply Hr. lia.
Qed.

Lemma physical_content st p :
  slru_ok st -> SimpleLruDoesPhysicalPageExist st p = true -> exists page, slru_content st p = Some page.
Proof.
  intros Hok He. destruct (content_cases st p Hok) as [(i & s & _ & _ & ->) | [_ ->]]; [eauto |].
  unfold SimpleLruDoesPhysicalPageExist in He. unfold SlruPhysicalReadPage. destruct (files st !! _) as [f |]; [| done].
  apply lookup_lt_is_Some_2. unfold zlen in He. assert (0 <= p mod SLRU_PAGES_PER_SEGMENT) by (by apply Z.mod_pos_bound). lia.
Qed.

(** What the scan from [hi] down says of the log [d]. *)
Definition scanned (d : DistributedLog) (hi : Z) (found : bool) (x e : Z) (d' : DistributedLog) : Prop :=
  dlog_ok d' /\ extends (dl_slru d) (dl_slru d') /\ dl_oldestXmin d' = dl_oldestXmin d /\
  if found then FirstNormalTransactionId <= x <= hi /\ e <> 0 /\ dlog_entry d x = Some e /\ none_committed d (x + 1) hi
  else x = InvalidTransactionId /\ e = 0 /\
    exists lo, none_committed d lo hi /\
      (lo = FirstNormalTransactionId \/
       exists d1, extends (dl_slru d) (dl_slru d1) /\ SimpleLruDoesPhysicalPageExist (dl_slru d1) (TransactionIdToPage (lo - 1)) = false).

Lemma entry_extends d d' y e :
  0 <= y -> extends (dl_slru d) (dl_slru d') -> dlog_entry d y = Some e -> dlog_entry d' y = Some e.
Proof. intros Hy He. unfold dlog_entry. destruct (He _ (proj1 (page_entry_bounds y Hy))) as [-> | [-> _]]; done. Qed.

Lemma entry_extends_back d d' y e :
  0 <= y -> extends (dl_slru d) (dl_slru d') -> dlog_entry d' y = Some e -> e <> 0 -> dlog_entry d y = Some e.
Proof.
  intros Hy He. destruct (page_entry_bounds y Hy) as [Hp Hb]. unfold dlog_entry. destruct (He _ Hp) as [-> | [_ ->]]; [done |].
  cbn [mbind option_bind zero_page DistributedLogCtl]. rewrite zero_entries_lookup by done. intros E Hne. congruence.
Qed.

Lemma none_committed_extends d d' lo hi : extends (dl_slru d) (dl_slru d') -> none_committed d' lo hi -> none_committed d lo hi.
Proof.
  intros He H y e Hy Hr Hd. eapply H; [done | done |]. eapply entry_extends; [| done | done]. unfold FirstNormalTransactionId in Hy. lia.
Qed.

Lemma none_committed_join d lo mid hi : none_committed d lo (mid - 1) -> none_committed d mid hi -> none_committed d lo hi.
Proof.
  intros H1 H2 y e Hy Hr. destruct (Z.lt_ge_cases y mid); [apply H1; lia | apply H2; lia].
Qed.

Lemma scanned_further d hi d1 mid found x e d' :
  extends (dl_slru d) (dl_slru d1) -> dl_oldestXmin d1 = dl_oldestXmin d -> none_committed d mid hi -> mid <= hi ->
  scanned d1 (mid - 1) found x e d' -> scanned d hi found x e d'.
Proof.
  intros He Eh Hn Hm (Hd' & He' & Eh' & Hr). split; [done |]. split; [by etransitivity |]. split; [congruence |]. destruct found.
  - destruct Hr as (Hx & Hne & Hxe & Hz). split; [lia |]. split; [done |]. split.
    + eapply entry_extends_back; [unfold FirstNormalTransactionId in Hx; lia | done | done | done].
    + eapply none_committed_join; [| done]. by eapply none_committed_extends.
  - destruct Hr as (-> & -> & lo & Hz & Hlo). split_and!; try done. exists lo. split.
    + eapply none_committed_join; [| done]. by eapply none_committed_extends.
    + destruct Hlo as [Hlo | (d2 & He2 & Hd2)]; [by left |]. right. exists d2. split; [by etransitivity | done].
Qed.

(** The page of [hi] from [low] on, which is read into memory. *)
Lemma scan_first_page hi low d :
  dlog_ok d -> FirstNormalTransactionId <= low <= hi -> TransactionIdToPage low = TransactionIdToPage hi ->
  SimpleLruDoesPhysicalPageExist (dl_slru d) (TransactionIdToPage hi) = true ->
  exists k st s r, SimpleLruReadPage false (dl_slru d) (TransactionIdToPage hi) true = Ok (k, st) /\ zget (slots st) k = Ok s /\
    scan_page (Z.to_nat (hi - low + 1)) (page_buffer s) hi = Ok r /\ dlog_ok (set_slru d st) /\ extends (dl_slru d) st /\
    match r with
    | Some (x, e) => scanned d hi true x e (set_slru d st)
    | None => none_committed d low hi
    end.
Proof.
  intros Hd Hlow Ep Hphys. unfold FirstNormalTransactionId in Hlow. destruct (page_entry_bounds hi ltac:(lia)) as [Hp Hb].
  destruct (physical_content _ _ (proj1 Hd) Hphys) as [page Hpage].
  destruct (read_page_ok (dl_slru d) _ true (proj1 Hd) Hp) as [(k & s & st & E & Hok & Hext & _ & _ & Hl) | (msg & _ & En)]; [| congruence].
  pose proof (keeps_extends d st Hd Hok Hext) as (Hd1 & _ & _). pose proof (loaded_content st _ k s Hok Hl) as Hc.
  pose proof (proj2 Hd1 _ _ Hp Hc) as Hlen. pose proof Hl as (Hk & _).
  assert (Hent : forall y, low <= y <= hi -> TransactionIdToPage y = TransactionIdToPage hi /\
            dlog_entry (set_slru d st) y = page_buffer s !! Z.to_nat (TransactionIdToEntry y)).
  { intros y Hy. assert (Epy : TransactionIdToPage y = TransactionIdToPage hi)
      by (unfold TransactionIdToPage in *; rewrite entries_per_page in *; zlia).
    split; [done |]. unfold dlog_entry. cbn [dl_slru set_slru]. by rewrite Epy, Hc. }
  assert (Hnone : forall a, low <= a -> (forall y, a <= y <= hi -> page_buffer s !! Z.to_nat (TransactionIdToEntry y) = Some 0) -> none_committed d a hi).
  { intros a Ha H0. apply (none_committed_extends d (set_slru d st)); [done |]. intros y e _ Hy. rewrite (proj2 (Hent y ltac:(lia))), H0 by done. congruence. }
  destruct (scan_page_ok (Z.to_nat (hi - low + 1)) (page_buffer s) hi Hlen) as (r & Er & Hr).
  { unfold TransactionIdToEntry, TransactionIdToPage in *. rewrite entries_per_page in *. zlia. }
  exists (Z.of_nat k), st, s, r. split; [done |]. split; [by apply zget_nat |]. split_and!; try done.
  destruct r as [[x e] |].
  - destruct Hr as (Hx & Hne & Hxe & Hz). split_and!; try done; [unfold FirstNormalTransactionId; lia | lia | |].
    + apply (entry_extends_back d (set_slru d st)); [lia | done | | done]. by rewrite (proj2 (Hent x ltac:(lia))).
    + apply Hnone; [lia |]. intros y Hy. apply Hz. lia.
  - apply Hnone; [lia |]. intros y Hy. apply Hr. lia.
Qed.

Lemma scan_pages_ok fuel : forall hi d,
  dlog_ok d -> normal_xid hi -> (Z.to_nat (TransactionIdToPage hi) < fuel)%nat ->
  exists found x e d', scan_pages false fuel hi d = Ok (found, x, e, d') /\ scanned d hi found x e d'.
Proof.
  induction fuel as [| fuel IH]; intros hi d Hd Hhi Hf; [lia |]. cbn [scan_pages].
  destruct (SimpleLruDoesPhysicalPageExist (dl_slru d) (TransactionIdToPage hi)) eqn:Hphys; cbn [negb].
  2: { eexists _, _, _, _. split; [done |]. split_and!; try done. exists (hi + 1). split; [intros y e _ Hy; lia |].
       right. exists d. by replace (hi + 1 - 1) with hi by lia. }
  set (low := if _ =? InvalidTransactionId then _ else _).
  assert (Hlow : FirstNormalTransactionId <= low <= hi /\ TransactionIdToPage low = TransactionIdToPage hi /\
            (low <> FirstNormalTransactionId -> normal_xid (low - 1) /\ TransactionIdToPage (low - 1) = TransactionIdToPage hi - 1 /\ 0 < TransactionIdToPage hi)).
  { unfold low, normal_xid, TransactionIdToPage, InvalidTransactionId, FirstNormalTransactionId, u32 in *. rewrite entries_per_page in *.
    rewrite Z.mod_small by zlia. destruct (Z.eqb_spec (hi / 4096 * 4096) 0); zlia. }
  clearbody low. destruct Hlow as (Hlow & Ep & Hnext).
  destruct (scan_first_page hi low d Hd Hlow Ep Hphys) as (k & st & s & r & -> & Hs & Er & Hd1 & Hext & Hr).
  cbn [mbind outcome_bind]. rewrite Hs. cbn [mbind outcome_bind]. rewrite Er. cbn [mbind outcome_bind].
  destruct r as [[x e] |]; [by eexists _, _, _, _ |]. destruct (Z.eqb_spec low FirstNormalTransactionId) as [-> | Nf].
  - eexists _, _, _, _. split; [done |]. split_and!; try done. exists FirstNormalTransactionId. split; [done | by left].
  - destruct (Hnext Nf) as (Hnn & Epn & Hpos). destruct (IH (low - 1) (set_slru d st) Hd1 Hnn) as (found & x & e & d' & -> & Hsc); [lia |].
    exists found, x, e, d'. split; [done |]. by apply (scanned_further d hi (set_slru d st) low); [| | | lia |].
Qed.

(** The scan finds the last transaction below [indexXid] that committed in a
    distributed one, unless a page on the way is not on disk. *)
Lemma scan_for_prev_ok d indexXid :
  dlog_ok d -> FirstNormalTransactionId < indexXid <= 2 ^ 32 ->
  exists found x e d', DistributedLog_ScanForPrevCommitted false indexXid d = Ok (found, x, e, d') /\ scanned d (indexXid - 1) found x e d'.
Proof.
  intros Hd Hi. unfold DistributedLog_ScanForPrevCommitted, InvalidTransactionId, FirstNormalTransactionId in *.
  replace (indexXid =? 0) with false by lia. replace (indexXid - 1 <? 3) with false by lia.
  apply scan_pages_ok; [done | unfold normal_xid, FirstNormalTransactionId; lia | lia].
Qed.
