(* ===== verification/LocalDistribXact.v ===== *)
(** * Local state of distributed transactions

    Models src/backend/cdb/cdblocaldistribxact.c and
    src/include/cdb/cdblocaldistribxact.h: the state of the distributed
    transaction of each process, and the cache, private to a backend, that
    remembers which distributed transaction a committed local one belonged to.

    The hash table of the cache is a finite map from local transaction ids; the
    entries are linked in a list, most recently used first, which is kept here
    as the list of their keys.  [gp_max_local_distributed_cache], which an
    administrator may change at any time, is an argument.  Display strings and
    statistics output are left out. *)

From stdpp Require Import base list gmap.
From S2P Require Import Prelude.

(** ** States *)

Inductive LocalDistribXactState :=
| LOCALDISTRIBXACT_STATE_NONE
| LOCALDISTRIBXACT_STATE_ACTIVE
| LOCALDISTRIBXACT_STATE_COMMITTED
| LOCALDISTRIBXACT_STATE_ABORTED
| LOCALDISTRIBXACT_STATE_PREPARED.

#[export] Instance LocalDistribXactState_eq_dec : EqDecision LocalDistribXactState.
Proof. solve_decision. Defined.

Record LocalDistribXactData := mkLocalDistribXactData {
  ldx_state : LocalDistribXactState;
  ldx_distribXid : Z
}.

(** [procs] holds the [localDistribXactData] of each process; a [PANIC] is [Err]. *)
Definition LocalDistribXact_ChangeState (procs : list LocalDistribXactData) (pgprocno : Z) (newState : LocalDistribXactState)
  : outcome (list LocalDistribXactData) :=
  proc ← zget procs pgprocno;
  let oldState := ldx_state proc in
  _ ← match newState with
      | LOCALDISTRIBXACT_STATE_PREPARED =>
          if negb (bool_decide (oldState = LOCALDISTRIBXACT_STATE_ACTIVE))
          then Err "Expected distributed transaction to be in state Active" else Ok tt
      | LOCALDISTRIBXACT_STATE_COMMITTED =>
          if negb (bool_decide (oldState = LOCALDISTRIBXACT_STATE_ACTIVE))
          then Err "Expected distributed transaction to be in state Active or Commit Delivery" else Ok tt
      | LOCALDISTRIBXACT_STATE_ABORTED =>
          if negb (bool_decide (oldState = LOCALDISTRIBXACT_STATE_ACTIVE)) &&
             negb (bool_decide (oldState = LOCALDISTRIBXACT_STATE_ABORTED))
          then Err "Expected distributed transaction to be in state Active or Abort Delivery" else Ok tt
      | LOCALDISTRIBXACT_STATE_ACTIVE => Err "Unexpected distributed to local transaction new state"
      | LOCALDISTRIBXACT_STATE_NONE => Err "Unrecognized distributed to local transaction state"
      end;
  zset procs pgprocno (mkLocalDistribXactData newState (ldx_distribXid proc)).

(** ** The cache of committed transactions *)

Record LocalDistribXactCacheEntry := mkEntry {
  ce_distribXid : Z;
  ce_visits : Z
}.

(** [lru] is [lruDoublyLinkedHead], from its head. *)
Record LocalDistribXactCache := mkCache {
  htab : gmap Z LocalDistribXactCacheEntry;
  lru : list Z;
  count : Z;
  hitCount : Z;
  totalCount : Z;
  addCount : Z;
  removeCount : Z
}.

(** [dlist_delete]: the node of an entry is taken out wherever it is. *)
Definition dlist_delete (x : Z) (l : list Z) : list Z := filter (fun y => y <> x) l.

Definition dlist_push_head (l : list Z) (x : Z) : list Z := x :: l.

(** [dlist_tail_node], which must not be called on an empty list. *)
Definition dlist_tail_node (l : list Z) : outcome Z :=
  match last l with Some x => Ok x | None => Ub end.

Section Cache.
  Context (gp_max_local_distributed_cache : Z).

(** [None] stands for a cache that has not been created. *)
Definition LocalDistribXactCache_CommittedFind (localXid : Z) (cache : option LocalDistribXactCache)
  : option Z * option LocalDistribXactCache :=
  if gp_max_local_distributed_cache =? 0 then (None, cache)
  else
    let c := default (mkCache ∅ [] 0 0 0 0 0) cache in
    match htab c !! localXid with
    | Some entry =>
        (Some (ce_distribXid entry),
         Some (mkCache (<[localXid := mkEntry (ce_distribXid entry) (ce_visits entry + 1)]> (htab c))
                 (dlist_push_head (dlist_delete localXid (lru c)) localXid)
                 (count c) (hitCount c + 1) (totalCount c + 1) (addCount c) (removeCount c)))
    | None =>
        (None, Some (mkCache (htab c) (lru c) (count c) (hitCount c) (totalCount c + 1) (addCount c) (removeCount c)))
    end.

(** Room for one more entry: the least recently used one goes. *)
Definition remove_oldest (c : LocalDistribXactCache) : outcome LocalDistribXactCache :=
  if gp_max_local_distributed_cache <=? count c then
    lastEntry ← dlist_tail_node (lru c);
    Ok (mkCache (delete lastEntry (htab c)) (dlist_delete lastEntry (lru c)) (count c - 1)
          (hitCount c) (totalCount c) (addCount c) (removeCount c + 1))
  else Ok c.

Definition LocalDistribXactCache_AddCommitted (localXid distribXid : Z) (cache : option LocalDistribXactCache)
  : outcome (option LocalDistribXactCache) :=
  if gp_max_local_distributed_cache =? 0 then Ok cache
  else
    match cache with
    | None => Ub
    | Some c =>
        c ← remove_oldest c;
        match htab c !! localXid with
        | Some _ => Err "Add should not have found local xid"
        | None =>
            Ok (Some (mkCache (<[localXid := mkEntry distribXid 1]> (htab c)) (dlist_push_head (lru c) localXid)
                        (count c + 1) (hitCount c) (totalCount c) (addCount c + 1) (removeCount c)))
        end
    end.
End Cache.

(** ** What the cache knows *)

(** The list links exactly the entries of the table, each once. *)
Record cache_ok (c : LocalDistribXactCache) : Prop := {
  ok_nodup : NoDup (lru c);
  ok_linked : forall x, x ∈ lru c <-> is_Some (htab c !! x);
  ok_count : count c = zlen (lru c);
  ok_balance : count c = addCount c - removeCount c;
  ok_hits : hitCount c <= totalCount c
}.

Definition cached (cache : option LocalDistribXactCache) (x : Z) : option Z :=
  c ← cache; ce_distribXid <$> htab c !! x.

Definition cache_inv (cache : option LocalDistribXactCache) : Prop := forall c, cache = Some c -> cache_ok c.

Lemma cache_empty_ok : cache_ok (mkCache ∅ [] 0 0 0 0 0).
Proof. constructor; cbn; try done; [constructor |]. intros x. rewrite lookup_empty. split; [by intros H%elem_of_nil | by intros [? ?]]. Qed.

Lemma elem_of_delete x y l : y ∈ dlist_delete x l <-> y <> x /\ y ∈ l.
Proof. unfold dlist_delete. by rewrite list_elem_of_filter. Qed.

Lemma delete_cons x y l : dlist_delete x (y :: l) = if decide (y = x) then dlist_delete x l else y :: dlist_delete x l.
Proof.
  unfold dlist_delete. rewrite filter_cons.
  destruct (decide (y = x)); [by rewrite decide_False by naive_solver | by rewrite decide_True].
Qed.

Lemma delete_not_in x l : x ∉ l -> dlist_delete x l = l.
Proof.
  induction l as [| y l IH]; intros Hx; [done |]. rewrite delete_cons, decide_False by set_solver.
  f_equal. apply IH. set_solver.
Qed.

(** Taking out one of the first [n] moves the others up. *)
Lemma delete_take x l : forall n,
  NoDup l -> x ∈ take n l -> dlist_delete x (take n l) = take (n - 1) (dlist_delete x l).
Proof.
  induction l as [| y l IH]; intros n Hnd Hx; destruct n as [| n]; [by apply elem_of_nil in Hx .. |].
  cbn [take] in *. apply NoDup_cons in Hnd as [Hy Hnd]. rewrite !delete_cons. cbn [Nat.sub]. rewrite Nat.sub_0_r.
  destruct (decide (y = x)) as [-> | Hne].
  - rewrite !delete_not_in; [done | done |]. intros [i Hi]%list_elem_of_lookup. apply lookup_take_Some in Hi as [Hi _].
    by apply Hy, (list_elem_of_lookup_2 _ i).
  - apply elem_of_cons in Hx as [-> | Hx]; [done |]. destruct n as [| n]; [by apply elem_of_nil in Hx |].
    rewrite IH by done. cbn [take Nat.sub]. by rewrite Nat.sub_0_r.
Qed.

(** Taking out a later one does not move the first [n]. *)
Lemma delete_beyond x l : forall n, x ∉ take n l -> take n (dlist_delete x l) = take n l.
Proof.
  induction l as [| y l IH]; intros n Hx; destruct n as [| n]; [done .. |].
  cbn [take] in Hx. rewrite delete_cons, decide_False by set_solver. cbn [take]. f_equal. apply IH. set_solver.
Qed.

Lemma length_delete x l : NoDup l -> x ∈ l -> S (length (dlist_delete x l)) = length l.
Proof.
  induction l as [| y l IH]; intros Hnd Hx; [by apply elem_of_nil in Hx |].
  apply NoDup_cons in Hnd as [Hy Hnd]. rewrite delete_cons. destruct (decide (y = x)) as [-> | Hne].
  - by rewrite delete_not_in.
  - cbn [length]. f_equal. apply IH; [done | set_solver].
Qed.

Lemma NoDup_delete x l : NoDup l -> NoDup (dlist_delete x l).
Proof. apply NoDup_filter. Qed.

Lemma delete_last l x : NoDup l -> last l = Some x -> dlist_delete x l = take (length l - 1) l /\ x ∈ l.
Proof.
  intros Hnd Hl. apply last_Some in Hl as [k ->]. split; [| set_solver].
  apply NoDup_app in Hnd as (_ & Hk & _). rewrite length_app, Nat.add_sub, take_app_length.
  unfold dlist_delete. rewrite filter_app. fold (dlist_delete x k) (dlist_delete x [x]).
  rewrite delete_cons, decide_True by done. rewrite app_nil_r. apply delete_not_in. intros H. apply (Hk x H). set_solver.
Qed.

(** ** The operations *)

Section Operations.
  Context (max : Z) (Hmax : 0 < max).

Lemma find_ok x cache :
  cache_inv cache ->
  exists c, snd (LocalDistribXactCache_CommittedFind max x cache) = Some c /\ cache_ok c /\
    fst (LocalDistribXactCache_CommittedFind max x cache) = cached cache x /\
    (forall y, cached (Some c) y = cached cache y) /\
    lru c = match cached cache x with
            | Some _ => x :: dlist_delete x (default [] (lru <$> cache))
            | None => default [] (lru <$> cache)
            end.
Proof.
  intros Hinv. unfold LocalDistribXactCache_CommittedFind. replace (max =? 0) with false by lia.
  set (c0 := default (mkCache ∅ [] 0 0 0 0 0) cache).
  assert (Hok : cache_ok c0) by (destruct cache as [c |]; [by apply Hinv | apply cache_empty_ok]).
  assert (Ec : forall y, cached cache y = ce_distribXid <$> htab c0 !! y).
  { intros y. destruct cache; [done |]. cbn. by rewrite lookup_empty. }
  assert (El : default [] (lru <$> cache) = lru c0) by (by destruct cache).
  rewrite El, Ec. destruct Hok as [Hnd Hlink Hcnt Hbal Hhit]. destruct (htab c0 !! x) as [e |] eqn:Ex; cbn [fst snd fmap option_fmap option_map].
  - eexists. split; [done |]. assert (Hx : x ∈ lru c0) by (apply Hlink; by rewrite Ex). split_and!; try done.
    + constructor; cbn [lru htab count hitCount totalCount addCount removeCount]; try lia.
      * constructor; [rewrite elem_of_delete; naive_solver | by apply NoDup_delete].
      * intros y. unfold dlist_push_head. rewrite elem_of_cons, elem_of_delete, Hlink.
        destruct (decide (y = x)) as [-> | Hne]; [rewrite lookup_insert_eq, Ex; naive_solver | rewrite lookup_insert_ne by done; naive_solver].
      * rewrite Hcnt. unfold zlen. cbn. by rewrite length_delete.
    + intros y. rewrite Ec. cbn. destruct (decide (y = x)) as [-> | Hne]; [by rewrite lookup_insert_eq, Ex | by rewrite lookup_insert_ne].
  - eexists. split; [done |]. split_and!; try done. constructor; cbn; done || lia.
Qed.

Lemma remove_oldest_ok c :
  cache_ok c ->
  exists c', remove_oldest max c = Ok c' /\ cache_ok c' /\
    (forall y g, cached (Some c') y = Some g -> cached (Some c) y = Some g) /\
    lru c' = if max <=? count c then take (length (lru c) - 1) (lru c) else lru c.
Proof.
  intros Hok. unfold remove_oldest. destruct (Z.leb_spec max (count c)) as [Hfull | Hroom]; [| by exists c].
  pose proof Hok as [Hnd Hlink Hcnt Hbal Hhit]. unfold dlist_tail_node.
  destruct (last (lru c)) as [x |] eqn:Hl; [| apply last_None in Hl; rewrite Hl, zlen_nil in Hcnt; lia].
  destruct (delete_last _ _ Hnd Hl) as [Ed Hx]. cbn [mbind outcome_bind]. eexists. split; [done |].
  split_and!; [| | by cbn].
  - constructor; cbn; try lia; [by apply NoDup_delete | |].
    + intros y. rewrite elem_of_delete, Hlink.
      destruct (decide (y = x)) as [-> | Hne]; [rewrite lookup_delete_eq; naive_solver | rewrite lookup_delete_ne by done; naive_solver].
    + pose proof (length_delete x (lru c) Hnd Hx). rewrite Hcnt. unfold zlen. lia.
  - intros y g. cbn. destruct (decide (y = x)) as [-> | Hne]; [by rewrite lookup_delete_eq | by rewrite lookup_delete_ne].
Qed.

(** Adding a transaction that was just not found. *)
Lemma add_ok x g c :
  cache_ok c -> cached (Some c) x = None ->
  exists c', LocalDistribXactCache_AddCommitted max x g (Some c) = Ok (Some c') /\ cache_ok c' /\
    (forall y g', cached (Some c') y = Some g' -> y = x /\ g' = g \/ cached (Some c) y = Some g') /\
    lru c' = x :: if max <=? count c then take (length (lru c) - 1) (lru c) else lru c.
Proof.
  intros Hok Hn. unfold LocalDistribXactCache_AddCommitted. replace (max =? 0) with false by lia.
  destruct (remove_oldest_ok c Hok) as (c1 & -> & [Hnd Hlink Hcnt Hbal Hhit] & Hsub & El). cbn [mbind outcome_bind].
  assert (Hx : htab c1 !! x = None).
  { destruct (htab c1 !! x) as [e |] eqn:Ex; [| done]. rewrite (Hsub x (ce_distribXid e)) in Hn; [done |]. cbn. by rewrite Ex. }
  rewrite Hx. eexists. split; [done |]. split_and!.
  - constructor; cbn; try lia.
    + constructor; [| done]. rewrite Hlink, Hx. by intros [? ?].
    + intros y. unfold dlist_push_head. rewrite elem_of_cons, Hlink.
      destruct (decide (y = x)) as [-> | Hne]; [rewrite lookup_insert_eq; naive_solver | rewrite lookup_insert_ne by done; naive_solver].
    + rewrite Hcnt. unfold zlen. cbn. lia.
  - intros y g'. cbn. destruct (decide (y = x)) as [-> | Hne]; [rewrite lookup_insert_eq; intros [= <-]; by left |].
    rewrite lookup_insert_ne by done. intros H. right. by apply Hsub.
  - cbn. by rewrite El.
Qed.
End Operations.

(** ** Least recently used *)

(** A lookup as the visibility test does it: what is not cached is asked for,
    here given by [gxid], and added. *)
Definition cache_access (max : Z) (gxid : Z -> Z) (x : Z) (cache : option LocalDistribXactCache)
  : outcome (Z * option LocalDistribXactCache) :=
  match LocalDistribXactCache_CommittedFind max x cache with
  | (Some g, cache) => Ok (g, cache)
  | (None, cache) => cache ← LocalDistribXactCache_AddCommitted max x (gxid x) cache; Ok (gxid x, cache)
  end.

Fixpoint cache_accesses (max : Z) (gxid : Z -> Z) (xs : list Z) (cache : option LocalDistribXactCache)
  : outcome (list Z * option LocalDistribXactCache) :=
  match xs with
  | [] => Ok ([], cache)
  | x :: xs =>
      '(g, cache) ← cache_access max gxid x cache;
      '(gs, cache) ← cache_accesses max gxid xs cache;
      Ok (g :: gs, cache)
  end.

(** The distinct ids of a history, the last one first. *)
Fixpoint recent (history : list Z) : list Z :=
  match history with
  | [] => []
  | x :: history => x :: dlist_delete x (recent history)
  end.

Lemma recent_nodup h : NoDup (recent h).
Proof. induction h as [| x h IH]; constructor; [rewrite elem_of_delete; naive_solver | by apply NoDup_delete]. Qed.

Section Lru.
  Context (max : Z) (Hmax : 0 < max) (gxid : Z -> Z).

(** The cache holds the transactions asked for last, with their ids. *)
Definition holds_recent (h : list Z) (cache : option LocalDistribXactCache) : Prop :=
  cache_inv cache /\ default [] (lru <$> cache) = take (Z.to_nat max) (recent h) /\
  forall y g, cached cache y = Some g -> g = gxid y.

Lemma access_ok h x cache :
  holds_recent h cache ->
  exists cache', cache_access max gxid x cache = Ok (gxid x, cache') /\ holds_recent (x :: h) cache'.
Proof.
  intros (Hinv & El & Hval). unfold cache_access, holds_recent.
  destruct (find_ok max Hmax x cache Hinv) as (c & Es & Hok & Ef & Hsame & Elru).
  destruct (LocalDistribXactCache_CommittedFind max x cache) as [r cache1]. cbn [fst snd] in Es, Ef. subst r cache1.
  rewrite El in Elru. pose proof (recent_nodup h) as Hnd. remember (Z.to_nat max) as n eqn:Hn in * |- *.
  assert (Hlt : (length (take n (recent h)) <= n)%nat) by (rewrite length_take; lia).
  destruct (cached cache x) as [g |] eqn:Ex.
  - exists (Some c). rewrite (Hval x g Ex). split; [done |].
    assert (Hx : x ∈ take n (recent h)).
    { rewrite <- El. destruct cache as [c0 |]; [| done]. cbn. apply (ok_linked c0 (Hinv c0 eq_refl)). cbn in Ex.
      destruct (htab c0 !! x); done. }
    split_and!; [by intros ? [= <-] | | intros y g'; rewrite Hsame; apply Hval].
    cbn [fmap option_fmap option_map default id recent]. rewrite Elru, delete_take by done.
    destruct n as [| n]; [lia |]. cbn [take Nat.sub]. by rewrite Nat.sub_0_r.
  - assert (Hx : x ∉ take n (recent h)).
    { rewrite <- Elru, (ok_linked c Hok). intros [e He]. specialize (Hsame x). cbn in Hsame. rewrite He, Ex in Hsame. done. }
    assert (Hnone : cached (Some c) x = None) by (by rewrite Hsame).
    destruct (add_ok max Hmax x (gxid x) c Hok Hnone) as (c' & -> & Hok' & Hval' & Elru'). cbn [mbind outcome_bind].
    exists (Some c'). split; [done |]. split_and!; [by intros ? [= <-] | |].
    + cbn [fmap option_fmap option_map default id recent]. rewrite Elru', (ok_count c Hok), Elru. unfold zlen.
      remember (length (take n (recent h))) as len eqn:Elen. destruct n as [| n]; [lia |].
      cbn [take]. f_equal. destruct (Z.leb_spec max (Z.of_nat len)) as [Hf | Hr].
      * rewrite take_take, delete_beyond; [f_equal; lia |]. intros Hin. apply Hx.
        apply list_elem_of_lookup in Hin as [i Hi]. apply lookup_take_Some in Hi as [Hi Hlt'].
        apply (list_elem_of_lookup_2 _ i). rewrite lookup_take_lt by lia. done.
      * assert (Hle : (length (recent h) <= n)%nat) by (rewrite length_take in Elen; lia).
        rewrite (take_ge (recent h) (S n)) in Hx |- * by lia. rewrite delete_not_in by done. by rewrite take_ge.
    + intros y g' [[-> ->] | Hy]%Hval'; [done |]. rewrite Hsame in Hy. by apply Hval.
Qed.

Lemma accesses_ok xs : forall h cache,
  holds_recent h cache ->
  exists cache', cache_accesses max gxid xs cache = Ok (gxid <$> xs, cache') /\ holds_recent (reverse xs ++ h) cache'.
Proof.
  induction xs as [| x xs IH]; intros h cache Hh; cbn [cache_accesses]; [by exists cache |].
  destruct (access_ok h x cache Hh) as (c1 & -> & Hh1). cbn [mbind outcome_bind].
  destruct (IH _ _ Hh1) as (c2 & -> & Hh2). cbn [mbind outcome_bind]. exists c2. split; [done |].
  by rewrite reverse_cons, <- app_assoc.
Qed.
End Lru.

(** The cache in front of the distributed log is transparent and keeps what
    was used last.  After any sequence of lookups, where what is not cached is
    asked for and added, each lookup gave the id of its transaction, no entry is
    added twice, and the cache holds exactly the last distinct transactions
    asked for, as many as [gp_max_local_distributed_cache] allows, in the order
    of use; the table and the list agree, and the counters balance. *)
Theorem local_cache_lru max gxid xs :
  0 < max -> xs <> [] ->
  exists c, cache_accesses max gxid xs None = Ok (gxid <$> xs, Some c) /\ cache_ok c /\
    lru c = take (Z.to_nat max) (recent (reverse xs)) /\
    forall y, cached (Some c) y = if decide (y ∈ lru c) then Some (gxid y) else None.
Proof.
  intros Hmax Hne. destruct (accesses_ok max Hmax gxid xs [] None) as (cache & -> & Hinv & El & Hval).
  { split_and!; try done. cbn [recent]. by rewrite take_nil. }
  rewrite app_nil_r in El. destruct cache as [c |].
  - exists c. specialize (Hinv c eq_refl). split_and!; try done. intros y. pose proof (ok_linked c Hinv y) as Hy.
    specialize (Hval y). destruct (decide (y ∈ lru c)) as [Hin | Hout].
    + apply Hy in Hin as [e He]. cbn in Hval |- *. rewrite He in Hval |- *. cbn in *. f_equal. by apply Hval.
    + cbn. destruct (htab c !! y); [by destruct Hout; apply Hy | done].
  - exfalso. destruct (Z.to_nat max) as [| n] eqn:En; [lia |]. destruct (reverse xs) eqn:Er; [| done].
    apply Hne. by rewrite <- (reverse_involutive xs), Er.
Qed.

Lemma local_cache_lru_witness :
  exists c, cache_accesses 2 (Z.add 1000) [5; 6; 5; 7] None = Ok ([1005; 1006; 1005; 1007], Some c) /\ lru c = [7; 5].
Proof.
  destruct (local_cache_lru 2 (Z.add 1000) [5; 6; 5; 7]) as (c & E & _ & El & _); [done | done |].
  exists c. split; [exact E |]. rewrite El. reflexivity.
Defined.
