(* ===== verification/DistributedSnapshot.v ===== *)
(** * Distributed snapshots

    Models src/backend/cdb/cdbdistributedsnapshot.c,
    src/include/cdb/cdbdistributedsnapshot.h and the parts of
    src/backend/storage/ipc/procarray.c that make distributed snapshots: the
    coordinator takes a snapshot of the distributed transactions in progress,
    sends it in bytes to the segments, and each segment tests its local
    transactions against it, with the distributed log and two caches in between.

    Pointers to arrays are [option]s, [None] is NULL.  [malloc n] gives the
    contents of a new array of [n] elements, or [None] when memory is out.
    [gp_max_local_distributed_cache] is the argument [max_cache].  Assertions
    and debug output are left out. *)

From stdpp Require Import base list gmap sorting.
From S2P Require Import Prelude TransactionId Slru DistributedLog LocalDistribXact.

Record DistributedSnapshot := mkDS {
  xminAllDistributedSnapshots : Z;
  distribSnapshotId : Z;
  ds_xmin : Z;
  ds_xmax : Z;
  ds_count : Z;
  inProgressXidArray : option (list Z)
}.

Record DistributedSnapshotWithLocalMapping := mkDslm {
  dslm_ds : DistributedSnapshot;
  minCachedLocalXid : Z;
  maxCachedLocalXid : Z;
  currentLocalXidsCount : Z;
  inProgressMappedLocalXids : option (list Z)
}.

Inductive DistributedSnapshotCommitted :=
| DISTRIBUTEDSNAPSHOT_COMMITTED_NONE
| DISTRIBUTEDSNAPSHOT_COMMITTED_INPROGRESS
| DISTRIBUTEDSNAPSHOT_COMMITTED_VISIBLE
| DISTRIBUTEDSNAPSHOT_COMMITTED_UNKNOWN
| DISTRIBUTEDSNAPSHOT_COMMITTED_IGNORE.

#[export] Instance DistributedSnapshotCommitted_eq_dec : EqDecision DistributedSnapshotCommitted.
Proof. solve_decision. Defined.

(** Following a pointer to an array. *)
Definition deref (a : option (list Z)) : outcome (list Z) :=
  match a with Some l => Ok l | None => Ub end.

(** [memcpy] of [n] elements from the beginning of an array; of none, from any pointer. *)
Definition array_read (a : option (list Z)) (n : Z) : outcome (list Z) :=
  if n =? 0 then Ok [] else l ← deref a; mem_read l 0 n.

(** ** The log of committed distributed transactions, as the test uses it *)

Class CommitLog (L : Type) := {
  CommittedCheck : Z -> L -> outcome (bool * Z * L)
}.

(** ** The test of a local transaction *)

(** A loop that looks for a local id in an array, [n] ids from [i] on. *)
Fixpoint xid_scan (n : nat) (i localXid : Z) (mapped : option (list Z)) : outcome bool :=
  match n with
  | O => Ok false
  | S n =>
      l ← deref mapped;
      x ← zget l i;
      if TransactionIdEquals localXid x then Ok true else xid_scan n (i + 1) localXid mapped
  end.

(** The loop over [inProgressXidArray]: whether the id is found before a greater one. *)
Fixpoint progress_scan (n : nat) (i distribXid : Z) (a : option (list Z)) : outcome bool :=
  match n with
  | O => Ok false
  | S n =>
      l ← deref a;
      g ← zget l i;
      if distribXid =? g then Ok true
      else if distribXid <? g then Ok false
      else progress_scan n (i + 1) distribXid a
  end.

(** Saving that a local transaction belongs to one in progress. *)
Definition save_mapped (dslm : DistributedSnapshotWithLocalMapping) (localXid : Z)
  : outcome DistributedSnapshotWithLocalMapping :=
  if currentLocalXidsCount dslm <? ds_count (dslm_ds dslm) then
    l ← deref (inProgressMappedLocalXids dslm);
    l ← zset l (currentLocalXidsCount dslm) localXid;
    Ok (mkDslm (dslm_ds dslm)
          (if negb (TransactionIdIsValid (minCachedLocalXid dslm)) || TransactionIdPrecedes localXid (minCachedLocalXid dslm)
           then localXid else minCachedLocalXid dslm)
          (if negb (TransactionIdIsValid (maxCachedLocalXid dslm)) || TransactionIdFollows localXid (maxCachedLocalXid dslm)
           then localXid else maxCachedLocalXid dslm)
          (currentLocalXidsCount dslm + 1) (Some l))
  else Ok dslm.

(** Whether the local ids saved in the snapshot answer the question. *)
Definition mapped_check (dslm : DistributedSnapshotWithLocalMapping) (localXid : Z) : outcome bool :=
  if 0 <? currentLocalXidsCount dslm then
    if TransactionIdEquals localXid (minCachedLocalXid dslm) || TransactionIdEquals localXid (maxCachedLocalXid dslm)
    then Ok true
    else if TransactionIdFollows localXid (minCachedLocalXid dslm) && TransactionIdPrecedes localXid (maxCachedLocalXid dslm)
    then xid_scan (Z.to_nat (currentLocalXidsCount dslm)) 0 localXid (inProgressMappedLocalXids dslm)
    else Ok false
  else Ok false.

(** The part that compares a distributed id with the snapshot. *)
Definition snapshot_check (dslm : DistributedSnapshotWithLocalMapping) (localXid distribXid : Z) (isVacuumCheck : bool)
  : outcome (DistributedSnapshotCommitted * DistributedSnapshotWithLocalMapping) :=
  let ds := dslm_ds dslm in
  if distribXid <? xminAllDistributedSnapshots ds then Ok (DISTRIBUTEDSNAPSHOT_COMMITTED_IGNORE, dslm)
  else if isVacuumCheck then Ok (DISTRIBUTEDSNAPSHOT_COMMITTED_INPROGRESS, dslm)
  else if distribXid <? ds_xmin ds then Ok (DISTRIBUTEDSNAPSHOT_COMMITTED_VISIBLE, dslm)
  else if ds_xmax ds <=? distribXid then Ok (DISTRIBUTEDSNAPSHOT_COMMITTED_INPROGRESS, dslm)
  else
    found ← progress_scan (Z.to_nat (u32 (ds_count ds))) 0 distribXid (inProgressXidArray ds);
    if (found : bool) then
      dslm ← save_mapped dslm localXid;
      Ok (DISTRIBUTEDSNAPSHOT_COMMITTED_INPROGRESS, dslm)
    else Ok (DISTRIBUTEDSNAPSHOT_COMMITTED_VISIBLE, dslm).

Section Test.
  Context {L : Type} `{!CommitLog L} (max_cache : Z).

Definition DistributedSnapshotWithLocalMapping_CommittedTest (dslm : DistributedSnapshotWithLocalMapping) (localXid : Z)
    (isVacuumCheck : bool) (cache : option LocalDistribXactCache) (log : L)
  : outcome (DistributedSnapshotCommitted * DistributedSnapshotWithLocalMapping * option LocalDistribXactCache * L) :=
  if negb (TransactionIdIsNormal localXid) then Ok (DISTRIBUTEDSNAPSHOT_COMMITTED_IGNORE, dslm, cache, log)
  else
    mapped ← mapped_check dslm localXid;
    if (mapped : bool) then Ok (DISTRIBUTEDSNAPSHOT_COMMITTED_INPROGRESS, dslm, cache, log)
    else
      match LocalDistribXactCache_CommittedFind max_cache localXid cache with
      | (Some distribXid, cache) =>
          '(r, dslm) ← snapshot_check dslm localXid distribXid isVacuumCheck;
          Ok (r, dslm, cache, log)
      | (None, cache) =>
          '(found, distribXid, log) ← CommittedCheck localXid log;
          if (found : bool) then
            cache ← LocalDistribXactCache_AddCommitted max_cache localXid distribXid cache;
            '(r, dslm) ← snapshot_check dslm localXid distribXid isVacuumCheck;
            Ok (r, dslm, cache, log)
          else Ok (DISTRIBUTEDSNAPSHOT_COMMITTED_UNKNOWN, dslm, cache, log)
      end.
End Test.

(** ** Resetting and copying *)

Section Memory.
  Context (malloc : Z -> option (list Z)) (maxProcs : Z).

Definition GetMaxSnapshotXidCount : Z := maxProcs.

Definition GetMaxSnapshotDistributedXidCount : Z := GetMaxSnapshotXidCount.

(** An array that is there is kept, another one is allocated. *)
Definition alloc_array (a : option (list Z)) (n : Z) : outcome (list Z) :=
  match a with
  | Some l => Ok l
  | None => match malloc n with Some l => Ok l | None => Err "out of memory" end
  end.

Definition DistributedSnapshot_Reset (ds : DistributedSnapshot) : outcome DistributedSnapshot :=
  l ← alloc_array (inProgressXidArray ds) GetMaxSnapshotDistributedXidCount;
  Ok (mkDS InvalidDistributedTransactionId 0 InvalidDistributedTransactionId InvalidDistributedTransactionId 0 (Some l)).

Definition DistributedSnapshot_Copy (target source : DistributedSnapshot) : outcome DistributedSnapshot :=
  target ← DistributedSnapshot_Reset target;
  let target := mkDS (xminAllDistributedSnapshots source) (distribSnapshotId source) (ds_xmin source) (ds_xmax source)
                  (ds_count source) (inProgressXidArray target) in
  if ds_count source =? 0 then Ok target
  else
    xids ← array_read (inProgressXidArray source) (ds_count source);
    l ← deref (inProgressXidArray target);
    l ← mem_write l 0 xids;
    Ok (mkDS (xminAllDistributedSnapshots target) (distribSnapshotId target) (ds_xmin target) (ds_xmax target)
          (ds_count target) (Some l)).

(** The part of a snapshot that concerns distributed transactions, with
    [haveDistribSnapshot]. *)
Definition SnapshotResetDslm (dslm : DistributedSnapshotWithLocalMapping) : outcome (bool * DistributedSnapshotWithLocalMapping) :=
  mapped ← alloc_array (inProgressMappedLocalXids dslm) GetMaxSnapshotXidCount;
  ds ← DistributedSnapshot_Reset (dslm_ds dslm);
  Ok (false, mkDslm ds InvalidTransactionId InvalidTransactionId 0 (Some mapped)).

(** ** Bytes *)

Definition sizeof_DistributedTransactionId : Z := 8.
Definition sizeof_DistributedSnapshotId : Z := 4.
Definition sizeof_int32 : Z := 4.

Definition DistributedSnapshot_SerializeSize (ds : DistributedSnapshot) : Z :=
  sizeof_DistributedSnapshotId + 3 * sizeof_DistributedTransactionId + sizeof_int32 +
  sizeof_DistributedTransactionId * ds_count ds.

(** The bytes written, the buffer starting at [p], and their number. *)
Definition DistributedSnapshot_Serialize (ds : DistributedSnapshot) (buf : list Z) (p : Z) : outcome (Z * list Z) :=
  let start := p in
  buf ← mem_write buf p (le_split 8 (xminAllDistributedSnapshots ds));
  let p := p + sizeof_DistributedTransactionId in
  buf ← mem_write buf p (le_split 4 (u32 (distribSnapshotId ds)));
  let p := p + sizeof_DistributedSnapshotId in
  buf ← mem_write buf p (le_split 8 (ds_xmin ds));
  let p := p + sizeof_DistributedTransactionId in
  buf ← mem_write buf p (le_split 8 (ds_xmax ds));
  let p := p + sizeof_DistributedTransactionId in
  buf ← mem_write buf p (le_split 4 (u32 (ds_count ds)));
  let p := p + sizeof_int32 in
  xids ← array_read (inProgressXidArray ds) (ds_count ds);
  buf ← mem_write buf p (flat 8 xids);
  let p := p + sizeof_DistributedTransactionId * ds_count ds in
  Ok (p - start, buf).

Definition read_uint (w : Z) (buf : list Z) (p : Z) : outcome Z := b ← mem_read buf p w; Ok (le_join b).

Definition DistributedSnapshot_Deserialize (buf : list Z) (p : Z) (ds : DistributedSnapshot) : outcome (Z * DistributedSnapshot) :=
  let start := p in
  xminAll ← read_uint 8 buf p;
  let p := p + sizeof_DistributedTransactionId in
  id ← read_uint 4 buf p;
  let p := p + sizeof_DistributedSnapshotId in
  xmin ← read_uint 8 buf p;
  let p := p + sizeof_DistributedTransactionId in
  xmax ← read_uint 8 buf p;
  let p := p + sizeof_DistributedTransactionId in
  count ← read_uint 4 buf p;
  let count := s32 count in
  let p := p + sizeof_int32 in
  if 0 <? count then
    let xipsize := sizeof_DistributedTransactionId * count in
    l ← alloc_array (inProgressXidArray ds) GetMaxSnapshotXidCount;
    bytes ← mem_read buf p xipsize;
    l ← mem_write l 0 (unflat 8 (Z.to_nat count) bytes);
    let p := p + xipsize in
    Ok (p - start, mkDS xminAll (s32 id) xmin xmax count (Some l))
  else Ok (p - start, mkDS xminAll (s32 id) xmin xmax count (inProgressXidArray ds)).
End Memory.

(** ** Taking a snapshot on the coordinator *)

Record TMGXACT := mkTMGXACT {
  gxid : Z;
  xminDistributedSnapshot : Z
}.

(** The shared state that [CreateDistributedSnapshot] reads, under [ProcArrayLock]. *)
Record Coordinator := mkCoordinator {
  latestCompletedGxid : Z;
  committedGxids : list Z;
  pgprocnos : list Z;
  allTmGxact : list TMGXACT;
  nextSnapshotId : Z
}.

(** The loop over [shmCommittedGxidArray], on a hot standby. *)
Fixpoint standby_scan (gxids : list Z) (xmin xmax count : Z) (a : list Z) : outcome (Z * Z * list Z) :=
  match gxids with
  | [] => Ok (xmin, count, a)
  | g :: gxids =>
      if (g =? InvalidDistributedTransactionId) || (xmax <=? g) then standby_scan gxids xmin xmax count a
      else
        let xmin := if g <? xmin then g else xmin in
        a ← zset a count g;
        standby_scan gxids xmin xmax (count + 1) a
  end.

(** The loop over the processes. *)
Fixpoint proc_scan (procnos : list Z) (my : Z) (tm : list TMGXACT) (globalXmin xmin xmax count : Z) (a : list Z)
  : outcome (Z * Z * Z * list Z) :=
  match procnos with
  | [] => Ok (globalXmin, xmin, count, a)
  | pgprocno :: procnos =>
      cand ← zget tm pgprocno;
      let dxid := xminDistributedSnapshot cand in
      let globalXmin := if negb (dxid =? InvalidDistributedTransactionId) && (dxid <? globalXmin) then dxid else globalXmin in
      let g := gxid cand in
      if (g =? InvalidDistributedTransactionId) || (xmax <=? g) then proc_scan procnos my tm globalXmin xmin xmax count a
      else
        let xmin := if g <? xmin then g else xmin in
        if pgprocno =? my then proc_scan procnos my tm globalXmin xmin xmax count a
        else
          a ← zset a count g;
          proc_scan procnos my tm globalXmin xmin xmax (count + 1) a
  end.

(** [my] is the process of the backend, whose entry is [MyTmGxact]. *)
Definition CreateDistributedSnapshot (hot_standby : bool) (my : Z) (ds : DistributedSnapshot) (c : Coordinator)
  : outcome (DistributedSnapshot * Coordinator) :=
  if negb hot_standby && negb (zlen (committedGxids c) =? 0) then Err "Create distributed snapshot before DTM recovery finish"
  else
    let xmax := u64 (latestCompletedGxid c + 1) in
    a ← deref (inProgressXidArray ds);
    '(xmin, count, a) ← (if hot_standby then standby_scan (committedGxids c) xmax xmax 0 a else Ok (xmax, 0, a));
    '(globalXmin, xmin, count, a) ← proc_scan (pgprocnos c) my (allTmGxact c) xmax xmin xmax count a;
    let id := u32 (nextSnapshotId c + 1) in
    let globalXmin := if xmin <? globalXmin then xmin else globalXmin in
    mine ← zget (allTmGxact c) my;
    tm ← (if xminDistributedSnapshot mine =? InvalidDistributedTransactionId
          then zset (allTmGxact c) my (mkTMGXACT (gxid mine) xmin) else Ok (allTmGxact c));
    Ok (mkDS globalXmin (s32 id) xmin xmax count (Some a),
        mkCoordinator (latestCompletedGxid c) (committedGxids c) (pgprocnos c) tm id).

Definition DistributedSnapshotMappedEntry_Compare (distribXid1 distribXid2 : Z) : Z :=
  if distribXid1 =? distribXid2 then 0 else if distribXid2 <? distribXid1 then 1 else -1.

Definition entry_le (x y : Z) : Prop := DistributedSnapshotMappedEntry_Compare x y <= 0.

#[export] Instance entry_le_dec x y : Decision (entry_le x y).
Proof. unfold entry_le. apply _. Defined.

(** The part of [GetSnapshotData] that sorts the array, of a snapshot of the
    coordinator: [qsort] with the comparison above. *)
Definition sort_in_progress (ds : DistributedSnapshot) : outcome DistributedSnapshot :=
  if 1 <? ds_count ds then
    l ← deref (inProgressXidArray ds);
    xids ← mem_read l 0 (ds_count ds);
    l ← mem_write l 0 (merge_sort entry_le xids);
    Ok (mkDS (xminAllDistributedSnapshots ds) (distribSnapshotId ds) (ds_xmin ds) (ds_xmax ds) (ds_count ds) (Some l))
  else Ok ds.

(** ** What the test answers *)

(** A snapshot of the transactions [xids] in progress, in order. *)
Record ds_ok (ds : DistributedSnapshot) (xids : list Z) : Prop := {
  dsok_array : xids <> [] -> exists rest, inProgressXidArray ds = Some (xids ++ rest);
  dsok_count : ds_count ds = zlen xids;
  dsok_width : zlen xids < 2 ^ 31;
  dsok_sorted : StronglySorted Z.le xids;
  dsok_xmins : xminAllDistributedSnapshots ds <= ds_xmin ds
}.

(** What a snapshot says of a distributed transaction that committed. *)
Definition verdict (ds : DistributedSnapshot) (xids : list Z) (isVacuumCheck : bool) (g : Z) : DistributedSnapshotCommitted :=
  if g <? xminAllDistributedSnapshots ds then DISTRIBUTEDSNAPSHOT_COMMITTED_IGNORE
  else if isVacuumCheck then DISTRIBUTEDSNAPSHOT_COMMITTED_INPROGRESS
  else if g <? ds_xmin ds then DISTRIBUTEDSNAPSHOT_COMMITTED_VISIBLE
  else if (ds_xmax ds <=? g) || bool_decide (g ∈ xids) then DISTRIBUTEDSNAPSHOT_COMMITTED_INPROGRESS
  else DISTRIBUTEDSNAPSHOT_COMMITTED_VISIBLE.

Lemma progress_scan_ok g xids rest : forall pre,
  StronglySorted Z.le xids ->
  progress_scan (length xids) (zlen pre) g (Some (pre ++ xids ++ rest)) = Ok (bool_decide (g ∈ xids)).
Proof.
  induction xids as [| x xids IH]; intros pre Hs; cbn [length progress_scan deref mbind outcome_bind app].
  - by rewrite bool_decide_eq_false_2 by apply not_elem_of_nil.
  - rewrite zget_mid. cbn [mbind outcome_bind]. apply StronglySorted_inv in Hs as [Hs Hall].
    destruct (Z.eqb_spec g x) as [-> | Hne]; [by rewrite bool_decide_eq_true_2 by set_solver |].
    destruct (Z.ltb_spec g x) as [Hlt | Hge].
    + rewrite bool_decide_eq_false_2; [done |]. rewrite elem_of_cons. intros [-> | Hin]; [done |].
      rewrite Forall_forall in Hall. specialize (Hall g Hin). lia.
    + specialize (IH (pre ++ [x]) Hs). rewrite <- app_assoc, zlen_app, zlen_cons, zlen_nil in IH. cbn [app] in IH.
      change (0 + 1) with 1 in IH. rewrite IH. f_equal. apply bool_decide_ext. set_solver.
Qed.

Lemma xid_scan_list x saved rest : forall pre,
  xid_scan (length saved) (zlen pre) x (Some (pre ++ saved ++ rest)) = Ok (bool_decide (x ∈ saved)).
Proof.
  induction saved as [| y saved IH]; intros pre; cbn [length xid_scan deref mbind outcome_bind app].
  - by rewrite bool_decide_eq_false_2 by apply not_elem_of_nil.
  - rewrite zget_mid. cbn [mbind outcome_bind]. unfold TransactionIdEquals.
    destruct (Z.eqb_spec x y) as [-> | Hne]; [by rewrite bool_decide_eq_true_2 by set_solver |].
    specialize (IH (pre ++ [y])). rewrite <- app_assoc, zlen_app, zlen_cons, zlen_nil in IH. cbn [app] in IH.
    change (0 + 1) with 1 in IH. rewrite IH. f_equal. apply bool_decide_ext. set_solver.
Qed.

Section Answer.
  (** The distributed transaction of each committed local one. *)
  Context (truth : Z -> option Z).

(** The local transactions saved in a snapshot belong to ones in progress. *)
Definition saved_ok (ds : DistributedSnapshot) (xids : list Z) (x : Z) : Prop :=
  exists g, truth x = Some g /\ ds_xmin ds <= g < ds_xmax ds /\ g ∈ xids.

Record dslm_ok (dslm : DistributedSnapshotWithLocalMapping) (xids : list Z) : Prop := {
  dslm_ds_ok : ds_ok (dslm_ds dslm) xids;
  dslm_saved : exists saved rest, (xids <> [] -> inProgressMappedLocalXids dslm = Some (saved ++ rest)) /\
    currentLocalXidsCount dslm = zlen saved /\ zlen saved <= zlen xids <= zlen (saved ++ rest) /\
    Forall (saved_ok (dslm_ds dslm) xids) saved /\
    (saved <> [] -> minCachedLocalXid dslm ∈ saved /\ maxCachedLocalXid dslm ∈ saved) /\
    (saved = [] -> minCachedLocalXid dslm = InvalidTransactionId /\ maxCachedLocalXid dslm = InvalidTransactionId)
}.

Lemma saved_verdict ds xids vac x g :
  ds_ok ds xids -> saved_ok ds xids x -> truth x = Some g -> verdict ds xids vac g = DISTRIBUTEDSNAPSHOT_COMMITTED_INPROGRESS.
Proof.
  intros Hds (g' & E & Hg & Hin) E'. rewrite E in E'. injection E' as <-. pose proof (dsok_xmins ds xids Hds). unfold verdict.
  replace (g' <? xminAllDistributedSnapshots ds) with false by lia. destruct vac; [done |].
  replace (g' <? ds_xmin ds) with false by lia. by rewrite (bool_decide_eq_true_2 _ Hin), orb_true_r.
Qed.

Lemma mapped_check_ok dslm xids x :
  dslm_ok dslm xids -> exists b, mapped_check dslm x = Ok b /\ (b = true -> saved_ok (dslm_ds dslm) xids x).
Proof.
  intros [Hds (saved & rest & Em & Ec & [Hlen _] & Hall & Hmm & _)]. unfold mapped_check. rewrite Ec.
  rewrite Forall_forall in Hall. destruct saved as [| y saved'] eqn:Es; [by exists false |].
  rewrite Em by (intros ->; rewrite zlen_cons, zlen_nil in Hlen; pose proof (zlen_nonneg saved'); lia). rewrite <- Es in *.
  destruct Hmm as [Hmin Hmax]; [by rewrite Es |]. replace (0 <? zlen saved) with true by (rewrite Es, zlen_cons; pose proof (zlen_nonneg saved'); lia).
  unfold TransactionIdEquals. destruct ((x =? _) || (x =? _)) eqn:Ex.
  - exists true. split; [done |]. intros _. apply orb_true_iff in Ex as [->%Z.eqb_eq | ->%Z.eqb_eq]; auto.
  - destruct (_ && _); [| by exists false]. unfold zlen. rewrite Nat2Z.id.
    pose proof (xid_scan_list x saved rest []) as E. cbn [app] in E. change (zlen []) with 0 in E. rewrite E.
    eexists. split; [done |]. intros Hb%bool_decide_eq_true. auto.
Qed.

Lemma save_mapped_ok dslm xids x :
  dslm_ok dslm xids -> saved_ok (dslm_ds dslm) xids x -> TransactionIdIsValid x = true ->
  exists dslm', save_mapped dslm x = Ok dslm' /\ dslm_ok dslm' xids /\ dslm_ds dslm' = dslm_ds dslm.
Proof.
  intros [Hds (saved & rest & Em & Ec & Hlen & Hall & Hmm & H0)] Hx Hv. unfold save_mapped. rewrite Ec, (dsok_count _ _ Hds).
  destruct (Z.ltb_spec (zlen saved) (zlen xids)) as [Hlt | Hge].
  2: { eexists. split; [done |]. split; [| done]. split; [done |]. by exists saved, rest. }
  rewrite Em by (intros ->; rewrite zlen_nil in Hlt; pose proof (zlen_nonneg saved); lia).
  cbn [deref mbind outcome_bind]. rewrite zlen_app in Hlen. destruct rest as [| r rest]; [rewrite zlen_nil in Hlen; lia |].
  rewrite zset_ok by (rewrite zlen_app, zlen_cons in *; pose proof (zlen_nonneg rest); pose proof (zlen_nonneg saved); lia).
  cbn [mbind outcome_bind]. eexists. split; [done |]. split; [| done]. split; [done |]. exists (saved ++ [x]), rest.
  cbn [inProgressMappedLocalXids currentLocalXidsCount dslm_ds minCachedLocalXid maxCachedLocalXid].
  split_and!.
  - intros _. f_equal. unfold zlen. rewrite Nat2Z.id, insert_app_r_alt, Nat.sub_diag by lia. cbn. by rewrite <- app_assoc.
  - by rewrite zlen_app.
  - rewrite zlen_app, zlen_cons, zlen_nil. lia.
  - rewrite !zlen_app, !zlen_cons, zlen_nil in *. lia.
  - apply Forall_app. split; [done | by repeat constructor].
  - intros _. destruct saved as [| y saved']; [destruct (H0 eq_refl) as [-> ->]; cbn; set_solver |].
    destruct Hmm as [Hmin Hmax]; [done |]. split; case_match; set_solver.
  - intros E. by destruct saved.
Qed.

Lemma snapshot_check_ok dslm xids x g vac :
  dslm_ok dslm xids -> truth x = Some g -> TransactionIdIsValid x = true ->
  exists dslm', snapshot_check dslm x g vac = Ok (verdict (dslm_ds dslm) xids vac g, dslm') /\
    dslm_ok dslm' xids /\ dslm_ds dslm' = dslm_ds dslm.
Proof.
  intros Hd Ht Hv. unfold snapshot_check, verdict.
  destruct (Z.ltb_spec g (xminAllDistributedSnapshots (dslm_ds dslm))); [by exists dslm |].
  destruct vac; [by exists dslm |]. destruct (Z.ltb_spec g (ds_xmin (dslm_ds dslm))); [by exists dslm |].
  destruct (Z.leb_spec (ds_xmax (dslm_ds dslm)) g); [by exists dslm |]. cbn [orb].
  pose proof (dslm_ds_ok _ _ Hd) as Hds. rewrite (dsok_count _ _ Hds).
  pose proof (dsok_width _ _ Hds). pose proof (zlen_nonneg xids).
  replace (u32 (zlen xids)) with (zlen xids) by (unfold u32; rewrite Z.mod_small; lia).
  unfold zlen at 1. rewrite Nat2Z.id.
  assert (E : progress_scan (length xids) 0 g (inProgressXidArray (dslm_ds dslm)) = Ok (bool_decide (g ∈ xids))).
  { destruct xids as [| y l]; [done |]. destruct (dsok_array _ _ Hds) as [rest ->]; [done |].
    apply (progress_scan_ok g (y :: l) rest [] (dsok_sorted _ _ Hds)). }
  rewrite E. cbn [mbind outcome_bind]. destruct (bool_decide_reflect (g ∈ xids)) as [Hin | Hout]; [| by exists dslm].
  destruct (save_mapped_ok dslm xids x Hd) as (dslm' & -> & Hd' & Es); [by exists g | done |]. by exists dslm'.
Qed.
End Answer.

(** ** The log behind the test *)

(** What the test relies on: the log has an answer for a transaction, zero when
    it knows none, and asking changes no answer. *)
Class CommitLogSpec (L : Type) `{!CommitLog L} := {
  log_ok : L -> Prop;
  log_entry : L -> Z -> Z -> Prop;
  committed_check_law : forall l x e, log_ok l -> normal_xid x -> log_entry l x e ->
    exists l', CommittedCheck x l = Ok (negb (e =? 0), e, l') /\ log_ok l' /\
      forall y e', normal_xid y -> log_entry l y e' -> log_entry l' y e'
}.

Section TestOk.
  Context {L : Type} `{!CommitLog L} `{!CommitLogSpec L} (max_cache : Z) (Hmax : 0 <= max_cache).
  Context (truth : Z -> option Z) (D : Z -> Prop) (HD : forall x, D x -> 0 <= x < 2 ^ 32).

(** The log knows the transactions of [D]; it may have forgotten those that are
    older than all distributed snapshots. *)
Definition log_agrees (xminAll : Z) (log : L) : Prop :=
  log_ok log /\ forall x, D x -> normal_xid x -> exists e, log_entry log x e /\
    match truth x with
    | None => e = 0
    | Some g => g <> 0 /\ (e = g \/ e = 0 /\ g < xminAll)
    end.

Definition cache_agrees (cache : option LocalDistribXactCache) : Prop :=
  cache_inv cache /\ forall x g, cached cache x = Some g -> truth x = Some g.

(** The answer for a local transaction. *)
Definition answer (ds : DistributedSnapshot) (xids : list Z) (vac : bool) (x : Z) (r : DistributedSnapshotCommitted) : Prop :=
  if negb (TransactionIdIsNormal x) then r = DISTRIBUTEDSNAPSHOT_COMMITTED_IGNORE
  else match truth x with
       | None => r = DISTRIBUTEDSNAPSHOT_COMMITTED_UNKNOWN
       | Some g => r = verdict ds xids vac g \/
                   r = DISTRIBUTEDSNAPSHOT_COMMITTED_UNKNOWN /\ g < xminAllDistributedSnapshots ds
       end.

Lemma find_agrees x cache :
  cache_agrees cache ->
  exists r cache', LocalDistribXactCache_CommittedFind max_cache x cache = (r, cache') /\ cache_agrees cache' /\
    match r with
    | Some g => truth x = Some g
    | None => forall g, truth x = Some g ->
        exists cache'', LocalDistribXactCache_AddCommitted max_cache x g cache' = Ok cache'' /\ cache_agrees cache''
    end.
Proof.
  intros [Hinv Hval]. destruct (decide (max_cache = 0)) as [E0 | N0].
  - exists None, cache. unfold LocalDistribXactCache_CommittedFind, LocalDistribXactCache_AddCommitted. rewrite E0. cbn.
    split_and!; try done. intros g _. by exists cache.
  - destruct (find_ok max_cache ltac:(lia) x cache Hinv) as (c & Es & Hok & Ef & Hsame & _).
    destruct (LocalDistribXactCache_CommittedFind max_cache x cache) as [r cache1]. cbn [fst snd] in Es, Ef. subst r cache1.
    exists (cached cache x), (Some c). split; [done |]. split.
    { split; [by intros ? [= <-] |]. intros y g. rewrite Hsame. apply Hval. }
    destruct (cached cache x) as [g |] eqn:Ex; [by apply Hval |]. intros g Hg.
    destruct (add_ok max_cache ltac:(lia) x g c Hok) as (c' & E & Hok' & Hsub & _); [by rewrite Hsame |].
    exists (Some c'). split; [done |]. split; [by intros ? [= <-] |].
    intros y g' [[-> ->] | Hy]%Hsub; [done |]. rewrite Hsame in Hy. by apply Hval.
Qed.

Lemma committed_test_ok dslm xids x vac cache log :
  dslm_ok truth dslm xids -> cache_agrees cache -> log_agrees (xminAllDistributedSnapshots (dslm_ds dslm)) log -> D x ->
  exists r dslm' cache' log',
    DistributedSnapshotWithLocalMapping_CommittedTest max_cache dslm x vac cache log = Ok (r, dslm', cache', log') /\
    answer (dslm_ds dslm) xids vac x r /\ dslm_ds dslm' = dslm_ds dslm /\
    dslm_ok truth dslm' xids /\ cache_agrees cache' /\ log_agrees (xminAllDistributedSnapshots (dslm_ds dslm)) log'.
Proof.
  intros Hd Hc Hl Hx. unfold DistributedSnapshotWithLocalMapping_CommittedTest, answer.
  destruct (TransactionIdIsNormal x) eqn:Hn; cbn [negb]; [| by eexists _, dslm, cache, log].
  assert (Hx' : normal_xid x) by (specialize (HD x Hx); unfold normal_xid, TransactionIdIsNormal in *; lia).
  destruct (mapped_check_ok truth dslm xids x Hd) as ([] & -> & Hm); cbn [mbind outcome_bind].
  { eexists _, dslm, cache, log. split; [done |]. split; [| done]. destruct (Hm eq_refl) as (g & E & Hg). rewrite E. left.
    symmetry. eapply saved_verdict; [apply Hd | | done]. by exists g. }
  destruct (find_agrees x cache Hc) as (r & cache1 & -> & Hc1 & Hr). destruct r as [g |].
  - destruct (snapshot_check_ok truth dslm xids x g vac Hd Hr) as (dslm' & -> & Hd' & Es); [by apply normal_valid |].
    cbn [mbind outcome_bind]. eexists _, dslm', cache1, log. split; [done |]. rewrite Hr. split_and!; try done. by left.
  - destruct Hl as [Hlok Hl]. destruct (Hl x Hx Hx') as (e & He & Ht).
    destruct (committed_check_law log x e Hlok Hx' He) as (log' & -> & Hlok' & Hkeep). cbn [mbind outcome_bind].
    assert (Hl' : log_agrees (xminAllDistributedSnapshots (dslm_ds dslm)) log').
    { split; [done |]. intros y Hy Hy'. destruct (Hl y Hy Hy') as (e' & He' & Ht'). exists e'. auto. }
    destruct (truth x) as [g |] eqn:Et.
    2: { subst e. eexists _, dslm, cache1, log'. split; [done |]. done. }
    destruct Ht as [Hg [-> | [-> Hold]]].
    2: { eexists _, dslm, cache1, log'. split; [done |]. split_and!; try done. by right. }
    replace (negb (g =? 0)) with true by lia.
    destruct (Hr g eq_refl) as (cache2 & -> & Hc2). cbn [mbind outcome_bind].
    destruct (snapshot_check_ok truth dslm xids x g vac Hd Et) as (dslm' & -> & Hd' & Es); [by apply normal_valid |].
    cbn [mbind outcome_bind]. eexists _, dslm', cache2, log'. split; [done |]. split_and!; try done; by left.
Qed.

(** A sequence of tests, each a local id and the purpose. *)
Fixpoint run_tests (tests : list (Z * bool)) (dslm : DistributedSnapshotWithLocalMapping) (cache : option LocalDistribXactCache)
    (log : L) : outcome (list DistributedSnapshotCommitted * L) :=
  match tests with
  | [] => Ok ([], log)
  | (x, vac) :: tests =>
      '(r, dslm, cache, log) ← DistributedSnapshotWithLocalMapping_CommittedTest max_cache dslm x vac cache log;
      '(rs, log) ← run_tests tests dslm cache log;
      Ok (r :: rs, log)
  end.

Lemma run_tests_ok tests : forall dslm xids cache log,
  dslm_ok truth dslm xids -> cache_agrees cache -> log_agrees (xminAllDistributedSnapshots (dslm_ds dslm)) log ->
  Forall (fun t => D t.1) tests ->
  exists rs log', run_tests tests dslm cache log = Ok (rs, log') /\
    Forall2 (fun t r => answer (dslm_ds dslm) xids t.2 t.1 r) tests rs.
Proof.
  induction tests as [| [x vac] tests IH]; intros dslm xids cache log Hd Hc Hl HT; cbn [run_tests]; [by exists [], log |].
  apply Forall_cons in HT as [Hx HT].
  destruct (committed_test_ok dslm xids x vac cache log Hd Hc Hl Hx) as (r & dslm' & cache' & log' & -> & Ha & Es & Hd' & Hc' & Hl').
  cbn [mbind outcome_bind]. rewrite <- Es in Hl'. destruct (IH dslm' xids cache' log' Hd' Hc' Hl' HT) as (rs & log'' & -> & Hrs).
  cbn [mbind outcome_bind]. exists (r :: rs), log''. split; [done |]. constructor; [done |]. by rewrite <- Es.
Qed.
End TestOk.

(** ** Copying and sending a snapshot *)

(** The values have the widths of the struct. *)
Definition ds_widths (ds : DistributedSnapshot) (xids : list Z) : Prop :=
  ubits 64 (xminAllDistributedSnapshots ds) /\ - 2 ^ 31 <= distribSnapshotId ds < 2 ^ 31 /\ ubits 64 (ds_xmin ds) /\
  ubits 64 (ds_xmax ds) /\ Forall (ubits 64) xids.

(** The same snapshot, in an array of its own. *)
Definition same_snapshot (ds ds' : DistributedSnapshot) : Prop :=
  xminAllDistributedSnapshots ds' = xminAllDistributedSnapshots ds /\ distribSnapshotId ds' = distribSnapshotId ds /\
  ds_xmin ds' = ds_xmin ds /\ ds_xmax ds' = ds_xmax ds /\ ds_count ds' = ds_count ds.

Lemma same_snapshot_ok ds ds' xids :
  same_snapshot ds ds' -> (xids <> [] -> exists rest, inProgressXidArray ds' = Some (xids ++ rest)) -> ds_ok ds xids -> ds_ok ds' xids.
Proof. intros (Ea & _ & Em & Ex & Ec) Earr [_ Hc Hw Hs Hm]. split; [done | congruence | done | done | congruence]. Qed.

Lemma array_read_ok ds xids : ds_ok ds xids -> array_read (inProgressXidArray ds) (ds_count ds) = Ok xids.
Proof.
  intros Hds. rewrite (dsok_count _ _ Hds). unfold array_read.
  destruct xids as [| x xids]; [done |]. destruct (dsok_array _ _ Hds) as [rest ->]; [done |]. rewrite zlen_cons. pose proof (zlen_nonneg xids).
  replace (zlen xids + 1 =? 0) with false by lia. cbn [deref mbind outcome_bind]. apply mem_read_front. by rewrite zlen_cons.
Qed.

(** Writing to the beginning of a large enough array. *)
Lemma mem_write_front {A} (l xs : list A) : zlen xs <= zlen l -> exists rest, mem_write l 0 xs = Ok (xs ++ rest) /\ zlen rest = zlen l - zlen xs.
Proof.
  intros H. pose proof (zlen_nonneg xs). destruct (split_at l (zlen xs)) as (a & b & -> & Ha & Hb); [lia |].
  exists b. rewrite (mem_write_mid [] a xs b) by (done || (unfold zlen in *; lia)). cbn. split; [done | lia].
Qed.

Section Sent.
  Context (malloc : Z -> option (list Z)) (maxProcs : Z).
  Context (Hmalloc : forall n, 0 <= n -> exists l, malloc n = Some l /\ zlen l = n).

(** An array that is there has been allocated with the same size. *)
Definition array_sized (a : option (list Z)) : Prop := forall l, a = Some l -> zlen l = maxProcs.

Lemma alloc_array_ok a : array_sized a -> 0 <= maxProcs -> exists l, alloc_array malloc a maxProcs = Ok l /\ zlen l = maxProcs.
Proof.
  intros Ha Hn. destruct a as [l |]; [exists l; split; [done | by apply Ha] |].
  destruct (Hmalloc maxProcs Hn) as (l & E & Hl). exists l. cbn. by rewrite E.
Qed.

Lemma copy_ok target source xids :
  ds_ok source xids -> array_sized (inProgressXidArray target) -> zlen xids <= maxProcs ->
  exists ds rest, DistributedSnapshot_Copy malloc maxProcs target source = Ok ds /\ same_snapshot source ds /\
    inProgressXidArray ds = Some (xids ++ rest) /\ zlen (xids ++ rest) = maxProcs.
Proof.
  intros Hs Ht Hlen. unfold DistributedSnapshot_Copy, DistributedSnapshot_Reset, GetMaxSnapshotDistributedXidCount, GetMaxSnapshotXidCount.
  pose proof (zlen_nonneg xids). destruct (alloc_array_ok _ Ht) as (l & -> & Hl); [lia |]. cbn [mbind outcome_bind inProgressXidArray].
  rewrite (array_read_ok _ _ Hs), (dsok_count _ _ Hs). destruct (mem_write_front l xids) as (rest & E & Hrest); [lia |].
  destruct (Z.eqb_spec (zlen xids) 0) as [E0 | N0].
  - destruct xids; [| rewrite zlen_cons in E0; pose proof (zlen_nonneg xids); lia]. eexists _, l. split; [done |].
    split_and!; try done. unfold same_snapshot. cbn. by rewrite (dsok_count _ _ Hs).
  - cbn [mbind outcome_bind deref]. rewrite E. cbn [mbind outcome_bind]. eexists _, rest. split; [done |]. split_and!; try done.
    + unfold same_snapshot. cbn. by rewrite (dsok_count _ _ Hs).
    + rewrite zlen_app. lia.
Qed.

(** The bytes of a snapshot. *)
Definition snapshot_bytes (ds : DistributedSnapshot) (xids : list Z) : list Z :=
  le_split 8 (xminAllDistributedSnapshots ds) ++ le_split 4 (u32 (distribSnapshotId ds)) ++ le_split 8 (ds_xmin ds) ++
  le_split 8 (ds_xmax ds) ++ le_split 4 (u32 (ds_count ds)) ++ flat 8 xids.

Lemma zlen_snapshot_bytes ds xids : ds_ok ds xids -> zlen (snapshot_bytes ds xids) = DistributedSnapshot_SerializeSize ds.
Proof.
  intros Hds. unfold snapshot_bytes, DistributedSnapshot_SerializeSize. rewrite !zlen_app, !zlen_le_split, zlen_flat, (dsok_count _ _ Hds).
  unfold sizeof_DistributedSnapshotId, sizeof_DistributedTransactionId, sizeof_int32. lia.
Qed.

(** One [memcpy] after the other. *)
Lemma write_next {A} (done hole rest xs : list A) p :
  p = zlen done -> zlen xs <= zlen hole ->
  exists hole', mem_write (done ++ hole ++ rest) p xs = Ok ((done ++ xs) ++ hole' ++ rest) /\ zlen hole' = zlen hole - zlen xs.
Proof.
  intros -> H. pose proof (zlen_nonneg xs). destruct (split_at hole (zlen xs)) as (a & b & -> & Ha & Hb); [lia |].
  exists b. rewrite <- app_assoc, (mem_write_mid done a xs (b ++ rest)) by (done || (unfold zlen in *; lia)).
  split; [by rewrite <- !app_assoc | lia].
Qed.

Ltac write_field :=
  lazymatch goal with |- context [mem_write (?d ++ ?h ++ ?r) ?p ?xs] =>
    let h' := fresh "hole" in let E := fresh in let H := fresh "Hhole" in
    destruct (write_next d h r xs p) as (h' & E & H);
      [rewrite ?zlen_app, ?zlen_le_split; lia | rewrite ?zlen_le_split, ?zlen_flat; lia |];
    rewrite E; clear E; cbn [mbind outcome_bind]; rewrite ?zlen_le_split, ?zlen_flat in H
  end.

Lemma serialize_ok ds xids pre hole post :
  ds_ok ds xids -> zlen hole = DistributedSnapshot_SerializeSize ds ->
  DistributedSnapshot_Serialize ds (pre ++ hole ++ post) (zlen pre) =
    Ok (DistributedSnapshot_SerializeSize ds, pre ++ snapshot_bytes ds xids ++ post).
Proof.
  intros Hds Hh. rewrite <- (zlen_snapshot_bytes _ _ Hds) in Hh. unfold snapshot_bytes in Hh.
  pose proof (zlen_flat 8 xids) as Hf. rewrite !zlen_app, !zlen_le_split, Hf in Hh. pose proof (zlen_nonneg xids).
  unfold DistributedSnapshot_Serialize. unfold sizeof_DistributedSnapshotId, sizeof_DistributedTransactionId, sizeof_int32.
  rewrite (array_read_ok _ _ Hds).
  do 6 write_field.
  match goal with H : zlen ?h = _ |- context [?h ++ post] => assert (E : h = []);
    [destruct h as [| z h]; [done | rewrite zlen_cons in H; pose proof (zlen_nonneg h); lia] | subst h] end.
  unfold snapshot_bytes. rewrite <- !app_assoc. do 2 f_equal.
  unfold DistributedSnapshot_SerializeSize, sizeof_DistributedSnapshotId, sizeof_DistributedTransactionId, sizeof_int32. lia.
Qed.

(** A field at its place. *)
Lemma read_field (buf before rest : list Z) W v p :
  0 <= W -> buf = before ++ le_split (Z.to_nat W) v ++ rest -> p = zlen before -> 0 <= v < 256 ^ W -> read_uint W buf p = Ok v.
Proof.
  intros HW -> -> Hv. unfold read_uint. rewrite mem_read_mid by (rewrite ?zlen_le_split; lia). cbn [mbind outcome_bind].
  by rewrite le_join_split, Z2Nat.id, Z.mod_small.
Qed.

Lemma deserialize_ok ds xids pre post target :
  ds_ok ds xids -> ds_widths ds xids -> array_sized (inProgressXidArray target) -> zlen xids <= maxProcs ->
  exists ds', DistributedSnapshot_Deserialize malloc maxProcs (pre ++ snapshot_bytes ds xids ++ post) (zlen pre) target
      = Ok (DistributedSnapshot_SerializeSize ds, ds') /\ same_snapshot ds ds' /\
    (xids <> [] -> exists rest, inProgressXidArray ds' = Some (xids ++ rest)) /\ array_sized (inProgressXidArray ds').
Proof.
  intros Hds (Hw1 & Hw2 & Hw3 & Hw4 & Hw5) Ht Hlen. pose proof (zlen_nonneg xids). pose proof (dsok_width _ _ Hds).
  assert (Hid : s32 (u32 (distribSnapshotId ds)) = distribSnapshotId ds) by (unfold s32, u32; zlia).
  assert (Hcnt : s32 (u32 (ds_count ds)) = ds_count ds) by (rewrite (dsok_count _ _ Hds); unfold s32, u32; zlia).
  change (0 <= xminAllDistributedSnapshots ds < 256 ^ 8) in Hw1. change (0 <= ds_xmin ds < 256 ^ 8) in Hw3.
  change (0 <= ds_xmax ds < 256 ^ 8) in Hw4.
  assert (Hu : forall v, 0 <= u32 v < 256 ^ 4) by apply u32_bound.
  unfold DistributedSnapshot_Deserialize, sizeof_DistributedSnapshotId, sizeof_DistributedTransactionId, sizeof_int32.
  unfold snapshot_bytes. set (f1 := le_split 8 (xminAllDistributedSnapshots ds)). set (f2 := le_split 4 (u32 (distribSnapshotId ds))).
  set (f3 := le_split 8 (ds_xmin ds)). set (f4 := le_split 8 (ds_xmax ds)). set (f5 := le_split 4 (u32 (ds_count ds))).
  set (buf := pre ++ _ ++ post).
  assert (Hz : zlen f1 = 8 /\ zlen f2 = 4 /\ zlen f3 = 8 /\ zlen f4 = 8 /\ zlen f5 = 4) by (split_and!; apply zlen_le_split).
  rewrite (read_field buf pre (f2 ++ f3 ++ f4 ++ f5 ++ flat 8 xids ++ post) 8 (xminAllDistributedSnapshots ds) (zlen pre));
    [| done | unfold buf; by rewrite <- !app_assoc | rewrite ?zlen_app; lia | exact Hw1]. cbn [mbind outcome_bind].
  rewrite (read_field buf (pre ++ f1) (f3 ++ f4 ++ f5 ++ flat 8 xids ++ post) 4 (u32 (distribSnapshotId ds)) (zlen pre + 8));
    [| done | unfold buf; by rewrite <- !app_assoc | rewrite ?zlen_app; lia | apply Hu]. cbn [mbind outcome_bind].
  rewrite (read_field buf (pre ++ f1 ++ f2) (f4 ++ f5 ++ flat 8 xids ++ post) 8 (ds_xmin ds) (zlen pre + 8 + 4));
    [| done | unfold buf; by rewrite <- !app_assoc | rewrite ?zlen_app; lia | exact Hw3]. cbn [mbind outcome_bind].
  rewrite (read_field buf (pre ++ f1 ++ f2 ++ f3) (f5 ++ flat 8 xids ++ post) 8 (ds_xmax ds) (zlen pre + 8 + 4 + 8));
    [| done | unfold buf; by rewrite <- !app_assoc | rewrite ?zlen_app; lia | exact Hw4]. cbn [mbind outcome_bind].
  rewrite (read_field buf (pre ++ f1 ++ f2 ++ f3 ++ f4) (flat 8 xids ++ post) 4 (u32 (ds_count ds)) (zlen pre + 8 + 4 + 8 + 8));
    [| done | unfold buf; by rewrite <- !app_assoc | rewrite ?zlen_app; lia | apply Hu]. cbn [mbind outcome_bind].
  rewrite Hcnt, Hid. rewrite (dsok_count _ _ Hds). destruct (Z.ltb_spec 0 (zlen xids)) as [Hpos | Hzero].
  - unfold GetMaxSnapshotXidCount. destruct (alloc_array_ok _ Ht) as (l & -> & Hl); [lia |]. cbn [mbind outcome_bind].
    assert (Hr : mem_read buf (zlen pre + 8 + 4 + 8 + 8 + 4) (8 * zlen xids) = Ok (flat 8 xids)).
    { replace buf with ((pre ++ f1 ++ f2 ++ f3 ++ f4 ++ f5) ++ flat 8 xids ++ post) by (unfold buf; by rewrite <- !app_assoc).
      apply mem_read_mid; [rewrite !zlen_app; lia | rewrite zlen_flat; lia]. }
    rewrite Hr. cbn [mbind outcome_bind]. replace (Z.to_nat (zlen xids)) with (length xids) by (unfold zlen; lia). rewrite unflat_flat by exact Hw5.
    destruct (mem_write_front l xids) as (rest & -> & Hrest); [lia |]. cbn [mbind outcome_bind].
    eexists. split; [f_equal; f_equal; unfold DistributedSnapshot_SerializeSize, sizeof_DistributedSnapshotId,
      sizeof_DistributedTransactionId, sizeof_int32; rewrite (dsok_count _ _ Hds); lia |].
    split; [unfold same_snapshot; cbn; by rewrite (dsok_count _ _ Hds) |]. split; [intros _; by exists rest |].
    intros l' [= <-]. rewrite zlen_app. lia.
  - eexists. split; [f_equal; f_equal; unfold DistributedSnapshot_SerializeSize, sizeof_DistributedSnapshotId,
      sizeof_DistributedTransactionId, sizeof_int32; rewrite (dsok_count _ _ Hds); lia |].
    split; [unfold same_snapshot; cbn; by rewrite (dsok_count _ _ Hds) |]. split; [| done].
    intros Hne. destruct xids as [| y xids]; [done |]. rewrite zlen_cons in Hzero. pose proof (zlen_nonneg xids). lia.
Qed.
End Sent.

(** ** What the coordinator puts into a snapshot *)

Definition counts (xmax g : Z) : bool := negb ((g =? InvalidDistributedTransactionId) || (xmax <=? g)).

(** The distributed transactions of the other processes. *)
Definition others (my xmax : Z) (tm : list TMGXACT) (procnos : list Z) : list Z :=
  omap (fun p => cand ← tm !! Z.to_nat p;
          if counts xmax (gxid cand) && negb (p =? my) then Some (gxid cand) else None) procnos.

Lemma zset_append {A} (pre rest : list A) x :
  0 < zlen rest -> exists rest', zset (pre ++ rest) (zlen pre) x = Ok ((pre ++ [x]) ++ rest') /\ zlen rest' = zlen rest - 1.
Proof.
  intros H. destruct rest as [| r rest]; [unfold zlen in H; cbn in H; lia |]. exists rest. pose proof (zlen_nonneg pre).
  rewrite zset_ok by (rewrite zlen_app; lia). unfold zlen at 1. rewrite Nat2Z.id, insert_app_r_alt, Nat.sub_diag by lia.
  cbn. rewrite <- app_assoc, zlen_cons. split; [done | lia].
Qed.

Lemma standby_scan_ok xmax gxids : forall pre rest xmin,
  zlen gxids <= zlen rest ->
  exists xmin' rest', let found := filter (fun g => counts xmax g = true) gxids in
    standby_scan gxids xmin xmax (zlen pre) (pre ++ rest) = Ok (xmin', zlen (pre ++ found), (pre ++ found) ++ rest') /\
    zlen rest' = zlen rest - zlen found /\ zlen found <= zlen gxids /\ xmin' <= xmin /\ Forall (Z.le xmin') found /\
    (xmin' = xmin \/ xmin' ∈ found).
Proof.
  induction gxids as [| g gxids IH]; intros pre rest xmin Hr; cbn [standby_scan].
  - exists xmin, rest. cbn. rewrite !app_nil_r, !zlen_nil. split_and!; try done; [lia | by left].
  - rewrite zlen_cons in Hr |- *. pose proof (zlen_nonneg gxids). rewrite filter_cons.
    replace ((g =? InvalidDistributedTransactionId) || (xmax <=? g)) with (negb (counts xmax g)) by apply negb_involutive.
    destruct (counts xmax g) eqn:Eg; cbn [negb].
    + rewrite decide_True by done. destruct (zset_append pre rest g) as (r1 & -> & Hr1); [lia |]. cbn [mbind outcome_bind].
      destruct (IH (pre ++ [g]) r1 (if g <? xmin then g else xmin)) as (xm & r & E & Hz & Hle & Hxm & Hall & Hin); [lia |].
      exists xm, r. cbn zeta in *. replace (zlen pre + 1) with (zlen (pre ++ [g])) by (by rewrite zlen_app).
      rewrite E, <- (app_assoc pre [g]), zlen_cons. split_and!; try lia; [done | destruct (Z.ltb_spec g xmin); lia | | ].
      * constructor; [| done]. destruct (Z.ltb_spec g xmin); lia.
      * rewrite elem_of_cons. destruct Hin as [-> | Hin]; [| by right; right]. destruct (g <? xmin); auto.
    + rewrite decide_False by done. destruct (IH pre rest xmin) as (xm & r & E & ? & ? & ?); [lia |].
      exists xm, r. cbn in *. split_and!; [exact E | done | lia | tauto ..].
Qed.

Lemma proc_scan_ok my tm xmax procnos : forall pre rest gx xmin,
  Forall (fun p => 0 <= p < zlen tm) procnos -> zlen procnos <= zlen rest ->
  exists gx' xmin' rest', let found := others my xmax tm procnos in
    proc_scan procnos my tm gx xmin xmax (zlen pre) (pre ++ rest) = Ok (gx', xmin', zlen (pre ++ found), (pre ++ found) ++ rest') /\
    zlen rest' = zlen rest - zlen found /\ zlen found <= zlen procnos /\ xmin' <= xmin /\ Forall (Z.le xmin') found /\
    (xmin' = xmin \/ exists t, t ∈ tm /\ xmin' = gxid t) /\ gx' <= gx /\
    (gx' = gx \/ exists t, t ∈ tm /\ gx' = xminDistributedSnapshot t) /\
    (forall p t, p ∈ procnos -> tm !! Z.to_nat p = Some t -> xminDistributedSnapshot t <> 0 -> gx' <= xminDistributedSnapshot t).
Proof.
  induction procnos as [| p procnos IH]; intros pre rest gx xmin Hp Hr; cbn [proc_scan].
  - exists gx, xmin, rest. cbn. rewrite !app_nil_r, !zlen_nil. split_and!; try done; [lia | by left | by left |]. intros p t Hin. by apply elem_of_nil in Hin.
  - apply Forall_cons in Hp as [Hp Hps]. rewrite zlen_cons in Hr |- *. pose proof (zlen_nonneg procnos).
    destruct (lookup_lt_is_Some_2 tm (Z.to_nat p)) as [t Et]; [unfold zlen in Hp; lia |].
    rewrite (zget_lookup _ _ t) by (lia || done). cbn [mbind outcome_bind].
    pose proof (list_elem_of_lookup_2 _ _ _ Et) as Ht. unfold others. cbn [omap list_omap]. rewrite Et. cbn [mbind option_bind].
    set (gx1 := if negb (xminDistributedSnapshot t =? InvalidDistributedTransactionId) && (xminDistributedSnapshot t <? gx) then _ else _).
    assert (Hgx1 : gx1 <= gx /\ (gx1 = gx \/ gx1 = xminDistributedSnapshot t) /\ (xminDistributedSnapshot t <> 0 -> gx1 <= xminDistributedSnapshot t)).
    { unfold gx1, InvalidDistributedTransactionId. destruct (Z.eqb_spec (xminDistributedSnapshot t) 0); cbn; [split_and!; auto; lia |].
      destruct (Z.ltb_spec (xminDistributedSnapshot t) gx); split_and!; auto; lia. }
    destruct Hgx1 as (Hg1 & Hg2 & Hg3). clearbody gx1.
    replace ((gxid t =? InvalidDistributedTransactionId) || (xmax <=? gxid t)) with (negb (counts xmax (gxid t))) by apply negb_involutive.
    assert (Hnext : forall gx' , gx' <= gx1 -> (gx' = gx1 \/ exists t, t ∈ tm /\ gx' = xminDistributedSnapshot t) ->
      (forall q u, q ∈ procnos -> tm !! Z.to_nat q = Some u -> xminDistributedSnapshot u <> 0 -> gx' <= xminDistributedSnapshot u) ->
      gx' <= gx /\ (gx' = gx \/ exists t, t ∈ tm /\ gx' = xminDistributedSnapshot t) /\
      (forall q u, q ∈ p :: procnos -> tm !! Z.to_nat q = Some u -> xminDistributedSnapshot u <> 0 -> gx' <= xminDistributedSnapshot u)).
    { intros gx' Hle Hor Hall. split_and!; [lia | destruct Hor as [-> |]; [destruct Hg2 as [-> | ->]; eauto | eauto] |].
      intros q u Hq Eu Hu. apply elem_of_cons in Hq as [-> | Hq]; [| by eapply Hall]. rewrite Et in Eu. injection Eu as <-. specialize (Hg3 Hu). lia. }
    destruct (counts xmax (gxid t)) eqn:Eg; cbn [negb andb].
    + set (xm1 := if gxid t <? xmin then gxid t else xmin).
      assert (Hxm1 : xm1 <= xmin /\ xm1 <= gxid t /\ (xm1 = xmin \/ xm1 = gxid t)) by (unfold xm1; destruct (Z.ltb_spec (gxid t) xmin); split_and!; auto; lia).
      destruct Hxm1 as (Hx1 & Hx2 & Hx3). clearbody xm1.
      assert (Hxm : forall xm, (xm = xm1 \/ exists t, t ∈ tm /\ xm = gxid t) -> xm = xmin \/ exists t, t ∈ tm /\ xm = gxid t)
        by (intros xm [-> | ?]; [destruct Hx3 as [-> | ->]; eauto | eauto]).
      destruct (Z.eqb_spec p my) as [-> | Hne]; cbn [negb].
      * destruct (IH pre rest gx1 xm1 Hps) as (gx' & xm & r & E & Hz & Hl & Hm & Hall & Hmin & Hle & Hor & Hbound); [lia |].
        exists gx', xm, r. cbn zeta in *. split_and!; [exact E | done | fold (others my xmax tm procnos); lia | lia | done | by apply Hxm | | |]; by apply Hnext.
      * destruct (zset_append pre rest (gxid t)) as (r1 & -> & Hr1); [lia |]. cbn [mbind outcome_bind].
        destruct (IH (pre ++ [gxid t]) r1 gx1 xm1 Hps) as (gx' & xm & r & E & Hz & Hl & Hm & Hall & Hmin & Hle & Hor & Hbound); [lia |].
        exists gx', xm, r. cbn zeta in *. replace (zlen pre + 1) with (zlen (pre ++ [gxid t])) by (by rewrite zlen_app).
        fold (others my xmax tm procnos). rewrite E, <- (app_assoc pre [gxid t]), zlen_cons.
        split_and!; [done | lia | lia | lia | constructor; [lia | done] | by apply Hxm | | |]; by apply Hnext.
    + destruct (IH pre rest gx1 xmin Hps) as (gx' & xm & r & E & Hz & Hl & Hm & Hall & Hmin & Hle & Hor & Hbound); [lia |].
      exists gx', xm, r. cbn zeta in *. split_and!; [exact E | done | fold (others my xmax tm procnos); lia | done .. | | |]; by apply Hnext.
Qed.

Lemma entry_le_iff x y : entry_le x y <-> x <= y.
Proof. unfold entry_le, DistributedSnapshotMappedEntry_Compare. destruct (Z.eqb_spec x y), (Z.ltb_spec y x); lia. Qed.

#[export] Instance entry_le_total : Total entry_le.
Proof. intros x y. rewrite !entry_le_iff. lia. Qed.

#[export] Instance entry_le_trans : Transitive entry_le.
Proof. intros x y z. rewrite !entry_le_iff. lia. Qed.

Lemma merge_sort_sorted xids : StronglySorted Z.le (merge_sort entry_le xids).
Proof.
  pose proof (StronglySorted_merge_sort entry_le xids) as H. induction H as [| x l Hs IH Hall]; constructor; [done |].
  eapply Forall_impl; [exact Hall |]. intros y Hy. by apply entry_le_iff.
Qed.

Section Coordinator.
  Context (hot_standby : bool) (my : Z) (c : Coordinator).

(** The distributed transactions that a snapshot of process [my] treats as in progress. *)
Definition in_progress (g : Z) : Prop :=
  counts (latestCompletedGxid c + 1) g = true /\
  (hot_standby = true /\ g ∈ committedGxids c \/
   exists p t, p ∈ pgprocnos c /\ p <> my /\ allTmGxact c !! Z.to_nat p = Some t /\ gxid t = g).

Record coordinator_ok (maxProcs : Z) : Prop := {
  cok_latest : 0 <= latestCompletedGxid c < 2 ^ 64 - 1;
  cok_standby : hot_standby = false -> committedGxids c = [];
  cok_procs : Forall (fun p => 0 <= p < zlen (allTmGxact c)) (pgprocnos c);
  cok_my : 0 <= my < zlen (allTmGxact c);
  cok_widths : Forall (fun t => ubits 64 (gxid t) /\ ubits 64 (xminDistributedSnapshot t)) (allTmGxact c);
  cok_committed : Forall (ubits 64) (committedGxids c);
  cok_room : zlen (committedGxids c) + zlen (pgprocnos c) <= maxProcs < 2 ^ 31
}.

(** A snapshot that the coordinator took. *)
Record taken (ds : DistributedSnapshot) (xids : list Z) : Prop := {
  tk_xids : forall g, g ∈ xids <-> in_progress g;
  tk_xmax : ds_xmax ds = latestCompletedGxid c + 1;
  tk_xmin : Forall (Z.le (ds_xmin ds)) xids;
  tk_xmin_xmax : ds_xmin ds <= ds_xmax ds;
  tk_xmins : xminAllDistributedSnapshots ds <= ds_xmin ds;
  tk_all : forall p t, p ∈ pgprocnos c -> allTmGxact c !! Z.to_nat p = Some t -> xminDistributedSnapshot t <> 0 ->
    xminAllDistributedSnapshots ds <= xminDistributedSnapshot t;
  tk_widths : ds_widths ds xids
}.

Lemma elem_of_others xmax g :
  g ∈ others my xmax (allTmGxact c) (pgprocnos c) <->
  counts xmax g = true /\ exists p t, p ∈ pgprocnos c /\ p <> my /\ allTmGxact c !! Z.to_nat p = Some t /\ gxid t = g.
Proof.
  unfold others. rewrite list_elem_of_omap. split.
  - intros (p & Hp & E). destruct (allTmGxact c !! Z.to_nat p) as [t |] eqn:Et; [| done]. cbn [mbind option_bind] in E.
    destruct (counts xmax (gxid t)) eqn:Ec, (Z.eqb_spec p my); try done. injection E as <-. split; [done |]. by exists p, t.
  - intros (Hc & p & t & Hp & Hne & Et & <-). exists p. split; [done |]. rewrite Et. cbn [mbind option_bind]. rewrite Hc.
    by replace (p =? my) with false by lia.
Qed.

(** The two loops, one after the other. *)
Lemma scans_ok maxProcs a :
  coordinator_ok maxProcs -> zlen a = maxProcs ->
  let xmax := latestCompletedGxid c + 1 in
  exists xmin1 found rest1 gx xmin xids rest,
    (if hot_standby then standby_scan (committedGxids c) xmax xmax 0 a else Ok (xmax, 0, a)) = Ok (xmin1, zlen found, found ++ rest1) /\
    proc_scan (pgprocnos c) my (allTmGxact c) xmax xmin1 xmax (zlen found) (found ++ rest1) = Ok (gx, xmin, zlen xids, xids ++ rest) /\
    zlen (xids ++ rest) = maxProcs /\ (forall g, g ∈ xids <-> in_progress g) /\ Forall (Z.le xmin) xids /\ xmin <= xmax /\
    (xmin = xmax \/ xmin ∈ committedGxids c \/ exists t, t ∈ allTmGxact c /\ xmin = gxid t) /\
    (gx = xmax \/ exists t, t ∈ allTmGxact c /\ gx = xminDistributedSnapshot t) /\
    (forall p t, p ∈ pgprocnos c -> allTmGxact c !! Z.to_nat p = Some t -> xminDistributedSnapshot t <> 0 -> gx <= xminDistributedSnapshot t).
Proof.
  intros [_ Hst Hprocs _ _ _ Hroom] Hlen xmax.
  set (found := if hot_standby then filter (fun g => counts xmax g = true) (committedGxids c) else []).
  assert (Hfound : forall g, g ∈ found <-> counts xmax g = true /\ hot_standby = true /\ g ∈ committedGxids c).
  { intros g. unfold found. destruct hot_standby; [rewrite list_elem_of_filter; naive_solver |].
    split; [by intros H%elem_of_nil | naive_solver]. }
  assert (H1 : exists xmin1 rest1,
    (if hot_standby then standby_scan (committedGxids c) xmax xmax 0 a else Ok (xmax, 0, a)) = Ok (xmin1, zlen found, found ++ rest1) /\
    zlen rest1 = zlen a - zlen found /\ zlen found <= zlen (committedGxids c) /\ xmin1 <= xmax /\ Forall (Z.le xmin1) found /\
    (xmin1 = xmax \/ xmin1 ∈ found)).
  { unfold found. destruct hot_standby.
    - apply (standby_scan_ok xmax (committedGxids c) [] a xmax). pose proof (zlen_nonneg (pgprocnos c)). lia.
    - exists xmax, a. pose proof (zlen_nonneg (committedGxids c)). change (zlen (@nil Z)) with 0. split_and!; try done; [lia | by left]. }
  destruct H1 as (xmin1 & rest1 & E1 & Hr1 & Hf1 & Hx1 & Hall1 & Hor1).
  destruct (proc_scan_ok my (allTmGxact c) xmax (pgprocnos c) found rest1 xmax xmin1 Hprocs) as
    (gx & xmin & rest & E2 & Hr2 & Hf2 & Hx2 & Hall2 & Hor2 & Hg & Horg & Hb); [lia |]. cbn zeta in *.
  exists xmin1, found, rest1, gx, xmin, (found ++ others my xmax (allTmGxact c) (pgprocnos c)), rest.
  split; [exact E1 |]. split; [exact E2 |]. split; [rewrite !zlen_app; lia |]. split.
  { intros g. rewrite elem_of_app, Hfound, elem_of_others. unfold in_progress. fold xmax. naive_solver. }
  split_and!; [| lia | | done | done].
  - apply Forall_app. split; [| done]. eapply Forall_impl; [exact Hall1 |]. intros g. cbn. lia.
  - destruct Hor2 as [-> | Ht]; [| by right; right]. destruct Hor1 as [-> | Hin]; [by left |]. right. left. by apply Hfound.
Qed.

Lemma in_progress_width maxProcs g : coordinator_ok maxProcs -> in_progress g -> ubits 64 g.
Proof.
  intros [_ _ _ _ Hw Hcw _] [_ [[_ Hin] | (p & t & _ & _ & Et & <-)]]; [by rewrite Forall_forall in Hcw; apply Hcw |].
  rewrite Forall_forall in Hw. by apply (Hw t), (list_elem_of_lookup_2 _ _ _ Et).
Qed.

Lemma create_ok maxProcs ds a :
  coordinator_ok maxProcs -> inProgressXidArray ds = Some a -> zlen a = maxProcs ->
  exists ds' c' xids rest, CreateDistributedSnapshot hot_standby my ds c = Ok (ds', c') /\ taken ds' xids /\
    inProgressXidArray ds' = Some (xids ++ rest) /\ zlen (xids ++ rest) = maxProcs /\ ds_count ds' = zlen xids.
Proof.
  intros Hc Ea Hlen. destruct (scans_ok maxProcs a Hc Hlen) as
    (xmin1 & found & rest1 & gx & xmin & xids & rest & E1 & E2 & Hz & Hin & Hall & Hle & Hor & Horg & Hb).
  pose proof Hc as [Hlat Hst _ Hmy Hw Hcw _]. unfold CreateDistributedSnapshot. rewrite Ea.
  replace (negb hot_standby && negb (zlen (committedGxids c) =? 0)) with false
    by (destruct hot_standby; [done |]; by rewrite (Hst eq_refl)).
  replace (u64 (latestCompletedGxid c + 1)) with (latestCompletedGxid c + 1) by (unfold u64; rewrite Z.mod_small; lia).
  cbn [deref mbind outcome_bind]. rewrite E1. cbn [mbind outcome_bind]. rewrite E2. cbn [mbind outcome_bind].
  destruct (lookup_lt_is_Some_2 (allTmGxact c) (Z.to_nat my)) as [mine Em]; [unfold zlen in Hmy; lia |].
  rewrite (zget_lookup _ _ mine) by (lia || done). cbn [mbind outcome_bind].
  assert (Htm : exists tm, (if xminDistributedSnapshot mine =? InvalidDistributedTransactionId
      then zset (allTmGxact c) my (mkTMGXACT (gxid mine) xmin) else Ok (allTmGxact c)) = Ok tm).
  { destruct (_ =? _); [rewrite zset_ok by lia |]; by eexists. }
  destruct Htm as [tm ->]. cbn [mbind outcome_bind]. eexists _, _, xids, rest. split; [done |].
  split; [| split_and!; done]. set (xmax := latestCompletedGxid c + 1) in *. rewrite Forall_forall in Hw. rewrite Forall_forall in Hcw.
  assert (Wmax : ubits 64 xmax) by (unfold ubits, xmax; lia).
  assert (Wmin : ubits 64 xmin) by (destruct Hor as [-> | [? | (t & Ht & ->)]]; [done | by apply Hcw | by apply Hw]).
  assert (Wgx : ubits 64 gx) by (destruct Horg as [-> | (t & Ht & ->)]; [done | by apply Hw]).
  constructor; cbn [ds_xmax ds_xmin xminAllDistributedSnapshots]; try done.
  - destruct (Z.ltb_spec xmin gx); lia.
  - intros p t Hp Et Hne. specialize (Hb p t Hp Et Hne). destruct (Z.ltb_spec xmin gx); lia.
  - unfold ds_widths. cbn [ds_xmax ds_xmin xminAllDistributedSnapshots distribSnapshotId]. split_and!; try done.
    + by destruct (xmin <? gx).
    + unfold s32. zlia.
    + unfold s32. zlia.
    + apply Forall_forall. intros g Hg. eapply in_progress_width; [done |]. by apply Hin.
Qed.

(** The array is sorted in place. *)
Lemma sort_ok maxProcs ds xids rest :
  taken ds xids -> inProgressXidArray ds = Some (xids ++ rest) -> zlen (xids ++ rest) = maxProcs -> maxProcs < 2 ^ 31 -> ds_count ds = zlen xids ->
  exists ds' xids', sort_in_progress ds = Ok ds' /\ taken ds' xids' /\ ds_ok ds' xids' /\ zlen xids' <= maxProcs.
Proof.
  intros [Hin Hmax Hmin Hle Hmins Hall (W1 & W2 & W3 & W4 & W5)] Ea Hz Hw Hc. rewrite zlen_app in Hz.
  pose proof (zlen_nonneg rest). unfold sort_in_progress. rewrite Hc.
  pose proof (merge_sort_Permutation entry_le xids) as Hp. set (xids' := merge_sort entry_le xids) in *.
  destruct (Z.ltb_spec 1 (zlen xids)) as [Hlt | Hge].
  - rewrite Ea. cbn [deref mbind outcome_bind]. rewrite mem_read_front by done. cbn [mbind outcome_bind].
    assert (Hlen : length xids' = length xids) by (by rewrite Hp).
    rewrite (mem_write_mid [] xids xids' rest) by done. cbn [mbind outcome_bind app]. eexists _, xids'. split; [done |].
    split; [| split].
    + constructor; cbn [ds_xmax ds_xmin xminAllDistributedSnapshots]; try done; [intros g; by rewrite Hp | by rewrite Hp |].
      unfold ds_widths. cbn. rewrite Hp. done.
    + constructor; cbn; [by exists rest | unfold zlen in *; lia | unfold zlen in *; lia | apply merge_sort_sorted | done].
    + unfold zlen in *. lia.
  - exists ds, xids. split; [done |]. split; [done |]. split; [| lia]. constructor; [by exists rest | done | lia | | done].
    destruct xids as [| x [| y l]]; [constructor | by repeat constructor |]. rewrite !zlen_cons in Hge. pose proof (zlen_nonneg l). lia.
Qed.
End Coordinator.

(** ** From the coordinator to a segment *)

(** The parts of [GetSnapshotData] that make the distributed part of a snapshot,
    on the coordinator and on a segment; there, [ds] is what the coordinator sent. *)
Definition qd_snapshot (malloc : Z -> option (list Z)) (maxProcs : Z) (hot_standby : bool) (my : Z)
    (dslm : DistributedSnapshotWithLocalMapping) (c : Coordinator) : outcome (DistributedSnapshot * Coordinator) :=
  '(_, dslm) ← SnapshotResetDslm malloc maxProcs dslm;
  '(ds, c) ← CreateDistributedSnapshot hot_standby my (dslm_ds dslm) c;
  ds ← sort_in_progress ds;
  Ok (ds, c).

Definition qe_snapshot (malloc : Z -> option (list Z)) (maxProcs : Z) (dslm : DistributedSnapshotWithLocalMapping)
    (ds : DistributedSnapshot) : outcome DistributedSnapshotWithLocalMapping :=
  '(_, dslm) ← SnapshotResetDslm malloc maxProcs dslm;
  ds ← DistributedSnapshot_Copy malloc maxProcs (dslm_ds dslm) ds;
  Ok (mkDslm ds (minCachedLocalXid dslm) (maxCachedLocalXid dslm) (currentLocalXidsCount dslm) (inProgressMappedLocalXids dslm)).

(** The distributed log provides what the test relies on. *)
#[export] Instance DistributedLog_CommitLog : CommitLog DistributedLog := {|
  CommittedCheck := DistributedLog_CommittedCheck false
|}.

#[export] Program Instance DistributedLog_CommitLogSpec : CommitLogSpec DistributedLog := {|
  log_ok d := dlog_ok d /\ dl_oldestXmin d <> InvalidTransactionId;
  log_entry d x e := if TransactionIdPrecedes x (dl_oldestXmin d) then e = 0 else dlog_entry d x = Some e
|}.
Next Obligation.
  intros d x e [Hd Hh] Hx He. cbn. assert (Hx0 : 0 <= x) by (unfold normal_xid, FirstNormalTransactionId in Hx; lia).
  destruct (TransactionIdPrecedes x (dl_oldestXmin d)) eqn:Hp.
  - subst e. unfold DistributedLog_CommittedCheck. replace (dl_oldestXmin d =? InvalidTransactionId) with false by lia.
    rewrite Hp. by exists d.
  - destruct (committed_check_ok d x e Hd Hx0 Hh Hp He) as (d' & E & Hd' & Eh & Hk). exists d'. rewrite Eh. split_and!; try done.
    intros y e' Hy. destruct (TransactionIdPrecedes y (dl_oldestXmin d)); [done |].
    apply Hk. unfold normal_xid, FirstNormalTransactionId in Hy. lia.
Qed.

Section Sending.
  Context (malloc : Z -> option (list Z)) (maxProcs : Z).
  Context (Hmalloc : forall n, 0 <= n -> exists l, malloc n = Some l /\ zlen l = n) (Hprocs : 0 <= maxProcs).

(** The arrays of a static snapshot variable. *)
Definition dslm_sized (dslm : DistributedSnapshotWithLocalMapping) : Prop :=
  array_sized maxProcs (inProgressXidArray (dslm_ds dslm)) /\ array_sized maxProcs (inProgressMappedLocalXids dslm).

Lemma reset_dslm_ok dslm :
  dslm_sized dslm ->
  exists a m, SnapshotResetDslm malloc maxProcs dslm =
      Ok (false, mkDslm (mkDS 0 0 0 0 0 (Some a)) InvalidTransactionId InvalidTransactionId 0 (Some m)) /\
    zlen a = maxProcs /\ zlen m = maxProcs.
Proof.
  intros [H1 H2]. unfold SnapshotResetDslm, DistributedSnapshot_Reset, GetMaxSnapshotDistributedXidCount, GetMaxSnapshotXidCount.
  destruct (alloc_array_ok malloc maxProcs Hmalloc _ H2 Hprocs) as (m & -> & Hm). cbn [mbind outcome_bind].
  destruct (alloc_array_ok malloc maxProcs Hmalloc _ H1 Hprocs) as (a & -> & Ha). cbn [mbind outcome_bind]. by exists a, m.
Qed.

Lemma qd_snapshot_ok hot_standby my dslm c :
  coordinator_ok hot_standby my c maxProcs -> dslm_sized dslm ->
  exists ds c' xids, qd_snapshot malloc maxProcs hot_standby my dslm c = Ok (ds, c') /\ taken hot_standby my c ds xids /\
    ds_ok ds xids /\ zlen xids <= maxProcs.
Proof.
  intros Hc Hs. unfold qd_snapshot. destruct (reset_dslm_ok dslm Hs) as (a & m & -> & Ha & _). cbn [mbind outcome_bind dslm_ds].
  destruct (create_ok hot_standby my c maxProcs (mkDS 0 0 0 0 0 (Some a)) a Hc eq_refl Ha) as (ds & c' & xids & rest & -> & Ht & Er & Hz & Hcnt).
  cbn [mbind outcome_bind]. destruct (sort_ok hot_standby my c maxProcs ds xids rest Ht Er Hz) as (ds' & xids' & -> & H);
    [apply Hc | done |]. cbn [mbind outcome_bind]. by exists ds', c', xids'.
Qed.

Lemma qe_snapshot_ok truth dslm ds xids :
  ds_ok ds xids -> zlen xids <= maxProcs -> dslm_sized dslm ->
  exists dslm', qe_snapshot malloc maxProcs dslm ds = Ok dslm' /\ dslm_ok truth dslm' xids /\ same_snapshot ds (dslm_ds dslm').
Proof.
  intros Hds Hlen Hs. unfold qe_snapshot. destruct (reset_dslm_ok dslm Hs) as (a & m & -> & Ha & Hm). cbn [mbind outcome_bind dslm_ds].
  destruct (copy_ok malloc maxProcs Hmalloc (mkDS 0 0 0 0 0 (Some a)) ds xids Hds) as (ds' & rest & -> & Hsame & Er & _); [by intros l [= <-] | done |].
  cbn [mbind outcome_bind minCachedLocalXid maxCachedLocalXid currentLocalXidsCount inProgressMappedLocalXids].
  eexists. split; [done |]. split; [| done]. constructor; cbn; [eapply same_snapshot_ok; eauto |].
  exists [], m. cbn. change (zlen (@nil Z)) with 0. pose proof (zlen_nonneg xids). split_and!; try done; lia.
Qed.
End Sending.

(** The segments see the distributed transactions as the coordinator did. *)
Definition sees (hot_standby : bool) (my : Z) (c : Coordinator) (ds : DistributedSnapshot) (truth : Z -> option Z)
    (x : Z) (r : DistributedSnapshotCommitted) : Prop :=
  forall g, normal_xid x -> truth x = Some g ->
    (r = DISTRIBUTEDSNAPSHOT_COMMITTED_INPROGRESS <-> latestCompletedGxid c < g \/ in_progress hot_standby my c g) /\
    (r = DISTRIBUTEDSNAPSHOT_COMMITTED_INPROGRESS \/ r = DISTRIBUTEDSNAPSHOT_COMMITTED_VISIBLE \/
     g < xminAllDistributedSnapshots ds /\ (r = DISTRIBUTEDSNAPSHOT_COMMITTED_IGNORE \/ r = DISTRIBUTEDSNAPSHOT_COMMITTED_UNKNOWN)).

Lemma answer_sees hot_standby my c ds ds' xids truth x r :
  taken hot_standby my c ds xids -> same_snapshot ds ds' -> answer truth ds' xids false x r -> sees hot_standby my c ds truth x r.
Proof.
  intros [Hin Hmax Hmin Hle Hmins _ _] (Ea & _ & Em & Ex & _) Ha g Hx Hg. unfold answer in Ha.
  rewrite (proj1 (normal_valid x Hx)), Hg in Ha. cbn [negb] in Ha. unfold verdict in Ha. rewrite Ea, Em, Ex, Hmax in Ha.
  rewrite Forall_forall in Hmin.
  assert (Hip : in_progress hot_standby my c g -> ds_xmin ds <= g) by (intros H; by apply Hmin, Hin).
  destruct Ha as [Ha | [-> Hold]].
  - destruct (Z.ltb_spec g (xminAllDistributedSnapshots ds)).
    { subst r. split; [split; [done | intros [? | H']; [lia | apply Hip in H'; lia]] | auto]. }
    destruct (Z.ltb_spec g (ds_xmin ds)).
    { subst r. split; [split; [done | intros [? | H']; [lia | apply Hip in H'; lia]] | auto]. }
    destruct (Z.leb_spec (latestCompletedGxid c + 1) g); cbn [orb] in Ha; [subst r; split; [split; [left; lia | done] | auto] |].
    destruct (bool_decide_reflect (g ∈ xids)) as [Hi | Hn]; subst r; (split; [| auto]).
    + split; [| done]. intros _. right. by apply Hin.
    + split; [done |]. intros [? | H']; [lia |]. by apply Hin in H'.
  - split; [split; [done | intros [? | H']; [lia | apply Hip in H'; lia]] | auto].
Qed.

(** C2: Distributed transactions are seen on the segments as they were on the
    coordinator when it took the snapshot.  The snapshot is taken, sorted, sent
    in bytes, read on the segment and copied into a snapshot there; then any
    sequence of visibility tests, with the distributed log behind the two
    caches, answers "in progress" exactly for the local transactions whose
    distributed transaction had not completed or was in progress in another
    process.  The others are visible, or, when they are older than all
    distributed snapshots of the coordinator's processes, left to the local
    test.  Nothing on the way fails or reads out of bounds. *)
Theorem distributed_snapshot_isolation malloc maxProcs hot_standby my c qd_dslm qe_ds qe_dslm max_cache :
  (forall n, 0 <= n -> exists l, malloc n = Some l /\ zlen l = n) ->
  coordinator_ok hot_standby my c maxProcs -> dslm_sized maxProcs qd_dslm ->
  array_sized maxProcs (inProgressXidArray qe_ds) -> dslm_sized maxProcs qe_dslm -> 0 <= max_cache ->
  exists ds c', qd_snapshot malloc maxProcs hot_standby my qd_dslm c = Ok (ds, c') /\
    (forall p t, p ∈ pgprocnos c -> allTmGxact c !! Z.to_nat p = Some t -> xminDistributedSnapshot t <> 0 ->
       xminAllDistributedSnapshots ds <= xminDistributedSnapshot t) /\
    forall pre hole post, zlen hole = DistributedSnapshot_SerializeSize ds ->
    exists buf sent dslm,
      DistributedSnapshot_Serialize ds (pre ++ hole ++ post) (zlen pre) = Ok (DistributedSnapshot_SerializeSize ds, buf) /\
      DistributedSnapshot_Deserialize malloc maxProcs buf (zlen pre) qe_ds = Ok (DistributedSnapshot_SerializeSize ds, sent) /\
      qe_snapshot malloc maxProcs qe_dslm sent = Ok dslm /\
      forall truth log xs,
        log_agrees truth (fun x => x ∈ xs) (xminAllDistributedSnapshots ds) (log : DistributedLog) ->
        Forall (fun x => 0 <= x < 2 ^ 32) xs ->
        exists rs log', run_tests max_cache ((fun x => (x, false)) <$> xs) dslm None log = Ok (rs, log') /\
          Forall2 (sees hot_standby my c ds truth) xs rs.
Proof.
  intros Hmalloc Hc Hqd Hqe Hqs Hcache.
  assert (Hp : 0 <= maxProcs) by (pose proof (cok_room _ _ _ _ Hc); pose proof (zlen_nonneg (committedGxids c)); pose proof (zlen_nonneg (pgprocnos c)); lia).
  destruct (qd_snapshot_ok malloc maxProcs Hmalloc Hp hot_standby my qd_dslm c Hc Hqd) as (ds & c' & xids & E & Ht & Hds & Hlen).
  exists ds, c'. split; [done |]. split; [apply Ht |]. intros pre hole post Hh. exists (pre ++ snapshot_bytes ds xids ++ post).
  destruct (deserialize_ok malloc maxProcs Hmalloc ds xids pre post qe_ds Hds (tk_widths _ _ _ _ _ Ht) Hqe Hlen) as (sent & Es & Hsame & Harr & _).
  exists sent.
  pose proof (same_snapshot_ok _ _ _ Hsame Harr Hds) as Hsent.
  assert (Hq : forall truth, exists dslm, qe_snapshot malloc maxProcs qe_dslm sent = Ok dslm /\ dslm_ok truth dslm xids /\ same_snapshot sent (dslm_ds dslm))
    by (intros truth; by apply qe_snapshot_ok).
  destruct (Hq (fun _ => None)) as (dslm & Eq & _). exists dslm. split; [by apply serialize_ok |]. split; [done |]. split; [done |].
  intros truth log xs Hlog Hxs. destruct (Hq truth) as (dslm0 & Eq' & Hd & Hsame'). rewrite Eq in Eq'. injection Eq' as <-.
  assert (Hss : same_snapshot ds (dslm_ds dslm)) by (unfold same_snapshot in *; naive_solver congruence).
  rewrite Forall_forall in Hxs.
  destruct (run_tests_ok max_cache Hcache truth (fun x => x ∈ xs) Hxs ((fun x => (x, false)) <$> xs) dslm xids None log Hd)
    as (rs & log' & Er & HF); [done | by rewrite (proj1 Hss) | by apply Forall_fmap, Forall_forall |].
  exists rs, log'. split; [done |]. apply Forall2_fmap_l in HF. eapply Forall2_impl; [exact HF |].
  intros x r Ha. by eapply answer_sees.
Qed.

(** A log in which the local transactions 100, 101 and 102 committed in the
    distributed transactions 10, 11 and 13, and 103 did not. *)
Lemma three_commits_log :
  exists d : DistributedLog, dlog_ok d /\ dl_oldestXmin d = 3 /\
    dlog_entry d 100 = Some 10 /\ dlog_entry d 101 = Some 11 /\ dlog_entry d 102 = Some 13 /\ dlog_entry d 103 = Some 0.
Proof.
  destruct (first_page_ok 8 3 ltac:(lia)) as (d0 & _ & Hd0 & Eh0 & H0). rewrite entries_per_page in H0.
  assert (Hcommit : forall d g x, g <> 0 -> dlog_ok d -> 0 <= x -> dlog_entry d x = Some 0 ->
    exists d', dlog_ok d' /\ dl_oldestXmin d' = dl_oldestXmin d /\ dlog_entry d' x = Some g /\
      forall y e, 0 <= y -> y <> x -> dlog_entry d y = Some e -> dlog_entry d' y = Some e).
  { intros d g x Hg Hd Hx He. destruct (commit_tree_rest_ok g d x [] [] Hg Hd) as (d' & _ & (Hd' & Eh & Hk) & Hs).
    - intros y Hy. apply list_elem_of_singleton in Hy as ->. auto.
    - by left.
    - exists d'. split_and!; [done | done | apply Hs; set_solver |]. intros y e Hy Hne. apply Hk; [done | set_solver]. }
  destruct (Hcommit d0 10 100 ltac:(done) Hd0 ltac:(done) (H0 100 ltac:(lia))) as (d1 & Hd1 & Eh1 & E1 & K1).
  destruct (Hcommit d1 11 101 ltac:(done) Hd1 ltac:(done)) as (d2 & Hd2 & Eh2 & E2 & K2); [by apply K1; [..| apply H0] |].
  destruct (Hcommit d2 13 102 ltac:(done) Hd2 ltac:(done)) as (d3 & Hd3 & Eh3 & E3 & K3); [by apply K2; [..| apply K1; [..| apply H0]] |].
  exists d3. split_and!; [done | congruence | by apply K3; [..| apply K2] | by apply K3 | done | by apply K3; [..| apply K2; [..| apply K1; [..| apply H0]]]].
Qed.

Lemma distributed_snapshot_isolation_witness :
  exists dslm log log', run_tests 100 [(100, false); (101, false); (102, false)] dslm None (log : DistributedLog) =
    Ok ([DISTRIBUTEDSNAPSHOT_COMMITTED_INPROGRESS; DISTRIBUTEDSNAPSHOT_COMMITTED_VISIBLE; DISTRIBUTEDSNAPSHOT_COMMITTED_INPROGRESS], log').
Proof.
  set (c := mkCoordinator 11 [] [0; 1; 2] [mkTMGXACT 12 0; mkTMGXACT 10 0; mkTMGXACT 0 0] 5).
  set (malloc := fun n => Some (replicate (Z.to_nat n) 0)).
  set (static := mkDslm (mkDS 0 0 0 0 0 None) 0 0 0 None).
  destruct (distributed_snapshot_isolation malloc 4 false 0 c static (mkDS 0 0 0 0 0 None) static 100) as (ds & c' & E & _ & H); try done.
  { intros n Hn. eexists. split; [done |]. rewrite zlen_replicate. lia. }
  { constructor; try done; repeat constructor; done. }
  vm_compute in E. injection E as <- <-.
  destruct (H [] (replicate 40 0) [] eq_refl) as (buf & sent & dslm & _ & _ & _ & Hrun).
  destruct three_commits_log as (log & Hd & Eh & E1 & E2 & E3 & _).
  destruct (Hrun (fun x => if x =? 100 then Some 10 else if x =? 101 then Some 11 else Some 13) log [100; 101; 102])
    as (rs & log' & Er & HF).
  { split; [split; [done | by rewrite Eh] |]. intros x Hx _. cbn [log_entry DistributedLog_CommitLogSpec]. rewrite Eh.
    assert (Hx' : x = 100 \/ x = 101 \/ x = 102) by set_solver.
    destruct Hx' as [-> | [-> | ->]]; [exists 10 | exists 11 | exists 13]; (split; [eassumption |]); split; auto; done. }
  { repeat constructor; done. }
  exists dslm, log, log'. etransitivity; [exact Er |]. do 2 f_equal.
  inversion HF as [| ? r1 ? ? H1 HF1]; subst. inversion HF1 as [| ? r2 ? ? H2 HF2]; subst. inversion HF2 as [| ? r3 ? ? H3 HF3]; subst.
  inversion HF3; subst. assert (Hn : forall x, 100 <= x <= 102 -> normal_xid x) by (unfold normal_xid, FirstNormalTransactionId; lia).
  destruct (H1 10 (Hn 100 ltac:(lia)) eq_refl) as [[_ R1] _]. destruct (H2 11 (Hn 101 ltac:(lia)) eq_refl) as [[R2 _] R2'].
  destruct (H3 13 (Hn 102 ltac:(lia)) eq_refl) as [[_ R3] _].
  rewrite R1, R3.
  - do 2 f_equal. destruct R2' as [-> | [-> | [Hlt _]]]; [| done | cbn in Hlt; lia].
    exfalso. destruct (R2 eq_refl) as [Hlt | (_ & [[? _] | (p & t & Hp & Hne & Et & Eg)])]; [cbn in Hlt; lia | done |].
    assert (Hp' : p = 0 \/ p = 1 \/ p = 2) by (cbn in Hp; set_solver).
    destruct Hp' as [-> | [-> | ->]]; cbn in Et; injection Et as <-; cbn in Eg; lia.
  - left. cbn. lia.
  - right. split; [reflexivity |]. right. exists 1, (mkTMGXACT 10 0). cbn. split_and!; try done. set_solver.
Defined.
