(* ===== verification/SubTrans.v ===== *)
(** * Subtransactions

    Models src/backend/access/transam/subtrans.c and
    src/include/access/subtrans.h: the log that records the parent of each
    subtransaction and, in an addition to PostgreSQL, the topmost transaction
    above it, on the buffers of [Slru].  Reading the topmost transaction takes
    one lookup; [SubTransSetParent] maintains it.  Assertions, locks and probes
    are left out. *)

From stdpp Require Import base list gmap.
From S2P Require Import Prelude TransactionId Slru.

Record SubTransData := mkSubTransData {
  parent : Z;
  topMostParent : Z
}.

Definition sizeof_SubTransData : Z := 8.
Definition SUBTRANS_XACTS_PER_PAGE : Z := 32768 / sizeof_SubTransData.
Definition TransactionIdToPage (xid : Z) : Z := xid / SUBTRANS_XACTS_PER_PAGE.
Definition TransactionIdToEntry (xid : Z) : Z := xid mod SUBTRANS_XACTS_PER_PAGE.

Definition SubTransPagePrecedes (page1 page2 : Z) : bool :=
  let xid1 := u32 (u32 page1 * SUBTRANS_XACTS_PER_PAGE) in
  let xid1 := u32 (xid1 + (FirstNormalTransactionId + 1)) in
  let xid2 := u32 (u32 page2 * SUBTRANS_XACTS_PER_PAGE) in
  let xid2 := u32 (xid2 + (FirstNormalTransactionId + 1)) in
  TransactionIdPrecedes xid1 xid2 && TransactionIdPrecedes xid1 (u32 (xid2 + SUBTRANS_XACTS_PER_PAGE - 1)).

Definition zero_links : list SubTransData :=
  replicate (Z.to_nat SUBTRANS_XACTS_PER_PAGE) (mkSubTransData InvalidTransactionId InvalidTransactionId).

#[export] Instance SubTransCtl : SlruCtl (list SubTransData) := {|
  zero_page := zero_links;
  PagePrecedes := SubTransPagePrecedes
|}.

Section Operations.
  Context (InRecovery : bool).

  Implicit Types (st : Slru (list SubTransData)).

Definition SubTransGetData (xid : Z) st : outcome (SubTransData * Slru (list SubTransData)) :=
  let pageno := TransactionIdToPage xid in
  let entryno := TransactionIdToEntry xid in
  if negb (TransactionIdIsNormal xid) then Ok (mkSubTransData InvalidTransactionId xid, st)
  else
    '(slotno, st) ← SimpleLruReadPage_ReadOnly InRecovery st pageno;
    s ← zget (slots st) slotno;
    ptr ← zget (page_buffer s) entryno;
    let top := topMostParent ptr in
    let top := if top =? InvalidTransactionId then xid else top in
    Ok (mkSubTransData (parent ptr) top, st).

Definition SubTransSetParent (xid newParent : Z) st : outcome (Slru (list SubTransData)) :=
  let pageno := TransactionIdToPage xid in
  let entryno := TransactionIdToEntry xid in
  '(top, st) ← (if negb (newParent =? InvalidTransactionId) then
                  '(subData, st) ← SubTransGetData newParent st; Ok (topMostParent subData, st)
                else Ok (InvalidTransactionId, st));
  '(slotno, st) ← SimpleLruReadPage InRecovery st pageno true;
  s ← zget (slots st) slotno;
  ptr ← zget (page_buffer s) entryno;
  if negb (parent ptr =? newParent) then
    page ← zset (page_buffer s) entryno (mkSubTransData newParent top);
    slot_update st slotno page
  else Ok st.

Definition SubTransGetParent (xid : Z) st : outcome (Z * Slru (list SubTransData)) :=
  '(subData, st) ← SubTransGetData xid st;
  Ok (parent subData, st).

Definition SubTransGetTopmostTransaction (xid : Z) st : outcome (Z * Slru (list SubTransData)) :=
  '(subData, st) ← SubTransGetData xid st;
  Ok (topMostParent subData, st).

Definition ZeroSUBTRANSPage (pageno : Z) st : outcome (Z * Slru (list SubTransData)) := SimpleLruZeroPage st pageno.

Definition BootStrapSUBTRANS st : outcome (Slru (list SubTransData)) :=
  '(slotno, st) ← ZeroSUBTRANSPage 0 st;
  SimpleLruWritePage st slotno.

(** The loop of [StartupSUBTRANS] up to the last page. *)
Fixpoint startup_loop (fuel : nat) (startPage endPage : Z) st : outcome (Slru (list SubTransData)) :=
  if negb (startPage =? endPage) then
    match fuel with
    | O => Err "fuel"
    | S fuel =>
        '(_, st) ← ZeroSUBTRANSPage startPage st;
        let startPage := startPage + 1 in
        let startPage := if TransactionIdToPage MaxTransactionId <? startPage then 0 else startPage in
        startup_loop fuel startPage endPage st
    end
  else
    '(_, st) ← ZeroSUBTRANSPage startPage st;
    Ok st.

(** A round goes to the next page around the circle, the pages are fewer than this. *)
Definition StartupSUBTRANS (oldestActiveXID nextXid : Z) st : outcome (Slru (list SubTransData)) :=
  startup_loop (Z.to_nat (TransactionIdToPage MaxTransactionId + 1))
    (TransactionIdToPage oldestActiveXID) (TransactionIdToPage nextXid) st.

Definition ShutdownSUBTRANS st : outcome (Slru (list SubTransData)) := SimpleLruFlush st.

Definition CheckPointSUBTRANS st : outcome (Slru (list SubTransData)) := SimpleLruFlush st.

Definition ExtendSUBTRANS (newestXact : Z) st : outcome (Slru (list SubTransData)) :=
  if negb (TransactionIdToEntry newestXact =? 0) && negb (TransactionIdEquals newestXact FirstNormalTransactionId) then Ok st
  else
    '(_, st) ← ZeroSUBTRANSPage (TransactionIdToPage newestXact) st;
    Ok st.

Definition TruncateSUBTRANS (oldestXact : Z) st : outcome (Slru (list SubTransData)) :=
  let oldestXact := TransactionIdRetreat oldestXact in
  SimpleLruTruncate st (TransactionIdToPage oldestXact).

Definition SubTransXidRangeSurvivesStartup (xmax oldestActiveXID : Z) : bool :=
  let last := TransactionIdRetreat xmax in
  let lastPage := TransactionIdToPage last in
  let zeroedPage := TransactionIdToPage oldestActiveXID in
  negb (lastPage =? zeroedPage) && SubTransPagePrecedes lastPage zeroedPage.
End Operations.

(** ** Links *)

Lemma xacts_per_page : SUBTRANS_XACTS_PER_PAGE = 4096.
Proof. reflexivity. Qed.

Lemma zero_links_lookup i : 0 <= i < SUBTRANS_XACTS_PER_PAGE -> zero_links !! Z.to_nat i = Some (mkSubTransData 0 0).
Proof. intros Hi. apply lookup_replicate_2. lia. Qed.

#[global] Opaque SUBTRANS_XACTS_PER_PAGE zero_links.

Definition link_at (st : Slru (list SubTransData)) (x : Z) : option SubTransData := entry_at SUBTRANS_XACTS_PER_PAGE st x.

Lemma per_page_pos : 0 < SUBTRANS_XACTS_PER_PAGE.
Proof. by rewrite xacts_per_page. Qed.

Lemma get_data_ok st x e :
  slru_ok st -> normal_xid x -> link_at st x = Some e ->
  exists st', SubTransGetData false x st =
      Ok (mkSubTransData (parent e) (if topMostParent e =? InvalidTransactionId then x else topMostParent e), st') /\
    slru_ok st' /\ entries_kept SUBTRANS_XACTS_PER_PAGE st st'.
Proof.
  intros Hok Hx He. assert (Hx0 : 0 <= x) by (unfold normal_xid, FirstNormalTransactionId in Hx; lia).
  unfold SubTransGetData. rewrite (proj1 (normal_valid x Hx)). cbn [negb].
  pose proof (entry_page_nonneg _ per_page_pos x Hx0) as [Hp _].
  destruct (fetch_entry _ per_page_pos st x e _ Hok Hx0 (read_only_ok st _ Hok Hp) He) as (k & s & st' & E & Es & Ee & _ & Hok' & Hk).
  unfold TransactionIdToPage, TransactionIdToEntry. rewrite E. cbn [mbind outcome_bind]. rewrite Es. cbn [mbind outcome_bind].
  rewrite Ee. cbn [mbind outcome_bind]. by exists st'.
Qed.

(** ** Histories of [SubTransSetParent] *)

(** The calls, the last one first. *)
Fixpoint set_parents (h : list (Z * Z)) (st : Slru (list SubTransData)) : outcome (Slru (list SubTransData)) :=
  match h with
  | [] => Ok st
  | (x, p) :: h => st ← set_parents h st; SubTransSetParent false x p st
  end.

(** The parent that a history gives to a transaction, zero for none. *)
Fixpoint parent_of (h : list (Z * Z)) (x : Z) : Z :=
  match h with
  | [] => InvalidTransactionId
  | (y, p) :: h => if x =? y then p else parent_of h x
  end.

(** Following the parents from [x] ends in [t]. *)
Inductive topmost (par : Z -> Z) : Z -> Z -> Prop :=
| topmost_self x : par x = InvalidTransactionId -> topmost par x x
| topmost_up x t : par x <> InvalidTransactionId -> topmost par (par x) t -> topmost par x t.

Lemma topmost_det par x t t' : topmost par x t -> topmost par x t' -> t = t'.
Proof. intros H. revert t'. induction H; intros t'; inversion 1; subst; auto; congruence. Qed.

(** Transactions get their parents once and before they have children. *)
Fixpoint history_ok (D : Z -> Prop) (h : list (Z * Z)) : Prop :=
  match h with
  | [] => True
  | (x, p) :: h => D x /\ D p /\ x <> p /\ (forall y q, (y, q) ∈ h -> x <> y /\ x <> q) /\ history_ok D h
  end.

Lemma parent_of_spec h x : parent_of h x = InvalidTransactionId \/ (x, parent_of h x) ∈ h.
Proof.
  induction h as [| [y p] h IH]; [by left |]. cbn [parent_of]. destruct (Z.eqb_spec x y) as [-> | Hne]; [right; set_solver |].
  destruct IH as [-> | Hin]; [by left | right; set_solver].
Qed.

Lemma parent_of_fresh h x : (forall y q, (y, q) ∈ h -> x <> y /\ x <> q) -> parent_of h x = InvalidTransactionId.
Proof. intros Hf. destruct (parent_of_spec h x) as [E | Hin]; [done |]. by destruct (Hf _ _ Hin). Qed.

(** A new link of a transaction without children changes no other topmost one. *)
Lemma topmost_extend h x p y t :
  (forall y q, (y, q) ∈ h -> x <> y /\ x <> q) -> y <> x -> topmost (parent_of h) y t -> topmost (parent_of ((x, p) :: h)) y t.
Proof.
  intros Hf Hy Ht. induction Ht as [y E | y t Hne Ht IH].
  - apply topmost_self. cbn. by replace (y =? x) with false by lia.
  - assert (Ep : parent_of ((x, p) :: h) y = parent_of h y) by (cbn; by replace (y =? x) with false by lia).
    apply topmost_up; rewrite Ep; [done |]. apply IH. destruct (parent_of_spec h y) as [E | Hin]; [done |].
    intros E. by destruct (Hf _ _ Hin).
Qed.

Section Histories.
  Context (D : Z -> Prop) (HD : forall x, D x -> normal_xid x).

(** The log holds the links of a history. *)
Definition links_ok (h : list (Z * Z)) (st : Slru (list SubTransData)) : Prop :=
  slru_ok st /\ forall x, D x -> exists top, link_at st x = Some (mkSubTransData (parent_of h x) top) /\
    (parent_of h x = InvalidTransactionId -> top = InvalidTransactionId) /\
    (parent_of h x <> InvalidTransactionId -> D top /\ topmost (parent_of h) x top).

Lemma set_parent_ok h x p st :
  history_ok D ((x, p) :: h) -> links_ok h st ->
  exists st', SubTransSetParent false x p st = Ok st' /\ links_ok ((x, p) :: h) st'.
Proof.
  intros (Hx & Hp & Hne & Hf & Hh) [Hok Hl]. unfold SubTransSetParent.
  assert (Hp0 : p <> InvalidTransactionId) by (pose proof (HD p Hp); unfold normal_xid, FirstNormalTransactionId, InvalidTransactionId in *; lia).
  assert (Hx0 : 0 <= x) by (pose proof (HD x Hx); unfold normal_xid, FirstNormalTransactionId in *; lia).
  replace (p =? InvalidTransactionId) with false by lia. cbn [negb].
  destruct (Hl p Hp) as (top & Ep & Htop0 & Htop1).
  destruct (get_data_ok st p _ Hok (HD p Hp) Ep) as (st1 & -> & Hok1 & Hk1). cbn [mbind outcome_bind topMostParent].
  set (t := if top =? InvalidTransactionId then p else top).
  assert (Ht : D t /\ topmost (parent_of h) p t).
  { unfold t. destruct (Z.eq_dec (parent_of h p) InvalidTransactionId) as [E | N].
    - rewrite (Htop0 E). split; [done |]. by apply topmost_self.
    - destruct (Htop1 N) as [Dt Tt]. pose proof (HD top Dt). unfold normal_xid, FirstNormalTransactionId, InvalidTransactionId in *.
      by replace (top =? 0) with false by lia. }
  destruct (Hl x Hx) as (topx & Ex & Hx0' & _). pose proof (parent_of_fresh h x Hf) as Efx. rewrite Efx in Ex, Hx0'. rewrite (Hx0' eq_refl) in Ex.
  apply (Hk1 x _ Hx0) in Ex. pose proof (entry_page_nonneg _ per_page_pos x Hx0) as [Hpg Hm].
  destruct (fetch_entry _ per_page_pos st1 x _ _ Hok1 Hx0 (read_page_ok st1 _ true Hok1 Hpg) Ex) as (k & s & st2 & E & Es & Ee & Hload & Hok2 & Hk2).
  unfold TransactionIdToPage, TransactionIdToEntry. rewrite E. cbn [mbind outcome_bind]. rewrite Es. cbn [mbind outcome_bind].
  rewrite Ee. cbn [mbind outcome_bind parent]. replace (InvalidTransactionId =? p) with false by lia. cbn [negb].
  apply zget_inv in Ee as [Hlen _]. rewrite zset_ok by lia. cbn [mbind outcome_bind].
  destruct (update_entry _ per_page_pos st2 x k s (mkSubTransData p t) Hok2 Hx0 Hload) as (st3 & -> & Hok3 & He3); [unfold zlen in Hlen; lia |].
  exists st3. split; [done |]. split; [done |]. intros y Hy.
  assert (Hy0 : 0 <= y) by (pose proof (HD y Hy); unfold normal_xid, FirstNormalTransactionId in *; lia).
  unfold link_at. rewrite He3 by done. destruct (decide (y = x)) as [-> | Hyx].
  - assert (Epx : parent_of ((x, p) :: h) x = p) by (cbn; by rewrite Z.eqb_refl).
    exists t. rewrite Epx. split_and!; [done | done |]. intros _. split; [apply Ht |].
    apply topmost_up; rewrite Epx; [done |]. apply topmost_extend; [done | done | apply Ht].
  - destruct (Hl y Hy) as (topy & Ey & H0 & H1). exists topy.
    assert (Epy : parent_of ((x, p) :: h) y = parent_of h y) by (cbn; by replace (y =? x) with false by lia). rewrite Epy.
    split_and!; [by apply Hk2, Hk1 | done |]. intros N. destruct (H1 N) as [Dt Tt]. split; [done |]. by apply topmost_extend.
Qed.

Lemma set_parents_ok h st :
  history_ok D h -> slru_ok st -> (forall x, D x -> link_at st x = Some (mkSubTransData 0 0)) ->
  exists st', set_parents h st = Ok st' /\ links_ok h st'.
Proof.
  intros Hh Hok H0. induction h as [| [x p] h IH]; cbn [set_parents].
  - exists st. split; [done |]. split; [done |]. intros x Hx. exists 0. by rewrite H0.
  - destruct IH as (st1 & -> & Hl); [apply Hh |]. cbn [mbind outcome_bind]. by apply set_parent_ok.
Qed.
End Histories.

(** ** Zeroing pages *)

Lemma zero_subtrans_page p st :
  slru_ok st -> 0 <= p ->
  exists k st', ZeroSUBTRANSPage p st = Ok (k, st') /\ slru_ok st' /\
    (forall y, 0 <= y -> TransactionIdToPage y = p -> link_at st' y = Some (mkSubTransData 0 0)) /\
    (forall y e, 0 <= y -> TransactionIdToPage y <> p -> link_at st y = Some e -> link_at st' y = Some e).
Proof.
  intros Hok Hp. destruct (zero_page_ok st p Hok Hp) as (i & s & st' & E & (Hok' & Hc & Ho & _) & _).
  exists (Z.of_nat i), st'. split; [exact E |]. split; [done |]. unfold link_at, entry_at, TransactionIdToPage. split.
  - intros y Hy Ey. rewrite Ey, Hc. apply zero_links_lookup, Z.mod_pos_bound, per_page_pos.
  - intros y e Hy Ne. destruct (Ho _ (proj1 (entry_page_nonneg _ per_page_pos y Hy)) Ne) as [-> | [-> _]]; done.
Qed.

Lemma first_links (n : nat) :
  (2 <= n)%nat -> exists st, ExtendSUBTRANS FirstNormalTransactionId (SimpleLruInit n ∅) = Ok st /\ slru_ok st /\
    forall x, 0 <= x < SUBTRANS_XACTS_PER_PAGE -> link_at st x = Some (mkSubTransData 0 0).
Proof.
  intros Hn. destruct (zero_subtrans_page 0 _ (slru_init_ok n ∅ Hn) ltac:(done)) as (k & st & E & Hok & Hz & _).
  unfold ExtendSUBTRANS, TransactionIdEquals. rewrite Z.eqb_refl, andb_false_r.
  assert (Hp : forall x, 0 <= x < SUBTRANS_XACTS_PER_PAGE -> TransactionIdToPage x = 0) by (intros x Hx; by apply Z.div_small).
  rewrite Hp by (rewrite xacts_per_page; unfold FirstNormalTransactionId; lia).
  rewrite E. cbn [mbind outcome_bind]. exists st. split_and!; try done. intros x Hx. apply Hz; [lia | by apply Hp].
Qed.

(** C25: The topmost transaction is read in one lookup.  After any history of
    [SubTransSetParent] in which transactions get a parent once and before they
    have children, starting from empty pages, [SubTransGetParent] returns the
    parent of each transaction and [SubTransGetTopmostTransaction] the
    transaction in which following the parents ends, however long the chain is;
    neither fails. *)
Theorem subtrans_topmost D h st :
  (forall x, D x -> normal_xid x) -> history_ok D h -> slru_ok st -> (forall x, D x -> link_at st x = Some (mkSubTransData 0 0)) ->
  exists st', set_parents h st = Ok st' /\ slru_ok st' /\
    forall x, D x ->
      (exists st1, SubTransGetParent false x st' = Ok (parent_of h x, st1)) /\
      (exists t st2, SubTransGetTopmostTransaction false x st' = Ok (t, st2) /\ topmost (parent_of h) x t).
Proof.
  intros HD Hh Hok H0. destruct (set_parents_ok D HD h st Hh Hok H0) as (st' & E & Hok' & Hl).
  exists st'. split_and!; try done. intros x Hx. destruct (Hl x Hx) as (top & Ex & Hroot & Hsub).
  destruct (get_data_ok st' x _ Hok' (HD x Hx) Ex) as (st1 & Eg & _).
  unfold SubTransGetParent, SubTransGetTopmostTransaction. rewrite Eg. cbn [mbind outcome_bind parent topMostParent].
  split; [by exists st1 |]. eexists _, st1. split; [done |].
  destruct (Z.eq_dec (parent_of h x) InvalidTransactionId) as [E0 | N].
  - rewrite (Hroot E0). by apply topmost_self.
  - destruct (Hsub N) as [Dt Tt]. pose proof (HD top Dt). unfold normal_xid, FirstNormalTransactionId, InvalidTransactionId in *.
    by replace (top =? 0) with false by lia.
Qed.

Lemma subtrans_topmost_witness :
  exists st st' st'', set_parents [(103, 102); (102, 100); (101, 100)] st = Ok st' /\
    SubTransGetTopmostTransaction false 103 st' = Ok (100, st'').
Proof.
  destruct (first_links 8 ltac:(lia)) as (st & _ & Hok & H0). rewrite xacts_per_page in H0.
  destruct (subtrans_topmost (fun x => 100 <= x < 200) [(103, 102); (102, 100); (101, 100)] st) as (st' & E & _ & Hx).
  - unfold normal_xid, FirstNormalTransactionId. lia.
  - cbn. split_and!; try lia; intros y q Hin; set_solver by lia.
  - done.
  - intros x Hx. apply H0. lia.
  - destruct (Hx 103) as [_ (t & st'' & Et & Ht)]; [lia |]. exists st, st', st''. split; [done |]. rewrite Et. do 2 f_equal.
    apply (topmost_det _ _ _ _ Ht). apply topmost_up; [done |]. apply topmost_up; [done |]. by apply topmost_self.
Defined.

(** ** Start-up *)

Definition pages : Z := 2 ^ 20.

Definition page_gap (p q : Z) : Z := (q - p) mod pages.

Lemma last_page : TransactionIdToPage MaxTransactionId = pages - 1.
Proof. unfold TransactionIdToPage. by rewrite xacts_per_page. Qed.

Lemma page_range x : 0 <= x < 2 ^ 32 -> 0 <= TransactionIdToPage x < pages.
Proof. unfold TransactionIdToPage, pages. rewrite xacts_per_page. intros. zlia. Qed.

(** The pages from the first to the last are zeroed, around the circle, and no others. *)
Definition zeroed (startPage endPage : Z) (st st' : Slru (list SubTransData)) : Prop :=
  slru_ok st' /\
  (forall y, 0 <= y < 2 ^ 32 -> page_gap startPage (TransactionIdToPage y) <= page_gap startPage endPage ->
     link_at st' y = Some (mkSubTransData 0 0)) /\
  (forall y e, 0 <= y < 2 ^ 32 -> page_gap startPage endPage < page_gap startPage (TransactionIdToPage y) ->
     link_at st y = Some e -> link_at st' y = Some e).

Lemma page_gap_refl p : page_gap p p = 0.
Proof. unfold page_gap. by rewrite Z.sub_diag. Qed.

Lemma zero_one_page p st :
  slru_ok st -> 0 <= p < pages -> exists st', ('(_, st) ← ZeroSUBTRANSPage p st; Ok st) = Ok st' /\ zeroed p p st st'.
Proof.
  intros Hok Hp. destruct (zero_subtrans_page p st Hok ltac:(lia)) as (k & st' & -> & Hok' & Hz & Hk). cbn [mbind outcome_bind].
  exists st'. unfold zeroed. rewrite page_gap_refl. split_and!; try done; intros y.
  - intros Hy Hg. apply Hz; [lia |]. pose proof (page_range y Hy). unfold page_gap, pages in *. zlia.
  - intros e Hy Hg. apply Hk; [lia |]. intros <-. rewrite page_gap_refl in Hg. lia.
Qed.

Lemma startup_loop_ok fuel : forall startPage endPage st,
  slru_ok st -> 0 <= startPage < pages -> 0 <= endPage < pages -> (Z.to_nat (page_gap startPage endPage) <= fuel)%nat ->
  exists st', startup_loop fuel startPage endPage st = Ok st' /\ zeroed startPage endPage st st'.
Proof.
  induction fuel as [| fuel IH]; intros sp ep st Hok Hs He Hf; cbn [startup_loop].
  - assert (sp = ep) as <- by (unfold page_gap, pages in *; zlia). rewrite Z.eqb_refl. by apply zero_one_page.
  - destruct (Z.eqb_spec sp ep) as [<- | Hne]; cbn [negb]; [by apply zero_one_page |].
    destruct (zero_subtrans_page sp st Hok ltac:(lia)) as (k & st1 & -> & Hok1 & Hz & Hk). cbn [mbind outcome_bind].
    rewrite last_page. set (np := if pages - 1 <? sp + 1 then 0 else sp + 1).
    assert (Hnp : np = (sp + 1) mod pages).
    { unfold np. destruct (Z.ltb_spec (pages - 1) (sp + 1)).
      - replace (sp + 1) with pages by lia. done.
      - rewrite Z.mod_small; [done |]. lia. }
    clearbody np. assert (Hgap : forall q, 0 <= q < pages -> q <> sp -> page_gap np q = page_gap sp q - 1).
    { intros q Hq Hqs. rewrite Hnp. unfold page_gap, pages in *. zlia. }
    destruct (IH np ep st1 Hok1) as (st2 & -> & Hok2 & Hz2 & Hk2).
    { rewrite Hnp. apply Z.mod_pos_bound. unfold pages. lia. } { done. }
    { rewrite Hgap by (done || congruence). lia. }
    exists st2. split; [done |]. rewrite (Hgap ep He) in Hz2, Hk2 by congruence. split; [done |]. split; intros y.
    + intros Hy Hg. pose proof (page_range y Hy) as Hpy. destruct (Z.eq_dec (TransactionIdToPage y) sp) as [Ey | Ny].
      -- destruct (Z.lt_ge_cases (page_gap sp ep - 1) (page_gap np (TransactionIdToPage y))) as [Hlt | Hge]; [| by apply Hz2].
         apply Hk2; [done | done |]. apply Hz; [lia | done].
      -- apply Hz2; [done |]. rewrite Hgap by done. lia.
    + intros e Hy Hg Ey. pose proof (page_range y Hy) as Hpy.
      assert (Ny : TransactionIdToPage y <> sp).
      { intros Eq. rewrite Eq in Hg. rewrite page_gap_refl in Hg.
        pose proof (Z.mod_pos_bound (ep - sp) pages). unfold page_gap, pages in *. lia. }
      apply Hk2; [done | rewrite Hgap by done; lia |]. apply Hk; [lia | done | done].
Qed.

(** Going forward less than half the circle. *)
Lemma page_gap_ahead x y :
  0 <= x < 2 ^ 32 -> 0 <= y < 2 ^ 32 -> xid_dist x y < 2 ^ 31 ->
  page_gap (TransactionIdToPage x) (TransactionIdToPage y) = (TransactionIdToEntry x + xid_dist x y) / SUBTRANS_XACTS_PER_PAGE.
Proof.
  unfold page_gap, pages, TransactionIdToPage, TransactionIdToEntry, xid_dist. rewrite xacts_per_page. intros Hx Hy.
  zlia.
Qed.

Lemma subtrans_precedes_gap p q : SubTransPagePrecedes p q = true -> 0 < page_gap p q <= 2 ^ 19.
Proof.
  assert (Hx : forall r, u32 (u32 (u32 r * SUBTRANS_XACTS_PER_PAGE) + (FirstNormalTransactionId + 1)) = r mod 2 ^ 20 * 4096 + 4).
  { intros r. rewrite xacts_per_page. unfold u32, FirstNormalTransactionId. zlia. }
  unfold SubTransPagePrecedes. rewrite !Hx. intros [H _]%andb_true_iff.
  assert (Hn : forall r, normal_xid (r mod 2 ^ 20 * 4096 + 4)) by (intros r; unfold normal_xid, FirstNormalTransactionId; zlia).
  rewrite precedes_dist in H by done.
  assert (E : xid_dist (p mod 2 ^ 20 * 4096 + 4) (q mod 2 ^ 20 * 4096 + 4) = page_gap p q * 4096) by (unfold xid_dist, page_gap, pages; zlia).
  lia.
Qed.

Lemma retreat_dist x xmax :
  normal_xid x -> normal_xid xmax -> 0 < xid_dist x xmax ->
  normal_xid (TransactionIdRetreat xmax) /\ xid_dist x (TransactionIdRetreat xmax) < xid_dist x xmax.
Proof.
  unfold normal_xid, xid_dist, TransactionIdRetreat, MaxTransactionId, u32, FirstNormalTransactionId. intros Hx Hm Hd.
  destruct (Z.ltb_spec ((xmax - 1) mod 2 ^ 32) 3); zlia.
Qed.

(** A range that survives ends before the page from which links are zeroed. *)
Lemma survives_page x xmax oldest :
  normal_xid x -> normal_xid xmax -> 0 < xid_dist x xmax < 2 ^ 31 - 2 * SUBTRANS_XACTS_PER_PAGE ->
  SubTransXidRangeSurvivesStartup xmax oldest = true -> TransactionIdToPage x <> TransactionIdToPage oldest.
Proof.
  intros Hx Hm Hd Hs Ep. unfold SubTransXidRangeSurvivesStartup in Hs. apply andb_true_iff in Hs as [Hne Hpre].
  apply subtrans_precedes_gap in Hpre. destruct (retreat_dist x xmax Hx Hm ltac:(lia)) as [Hl Hlt].
  set (last := TransactionIdRetreat xmax) in *. rewrite <- Ep in Hne, Hpre. rewrite xacts_per_page in Hd.
  assert (Hg : page_gap (TransactionIdToPage x) (TransactionIdToPage last) < 2 ^ 19).
  { unfold normal_xid, FirstNormalTransactionId in *. rewrite page_gap_ahead by lia. unfold TransactionIdToEntry. rewrite xacts_per_page. zlia. }
  unfold page_gap, pages in *. pose proof (page_range x ltac:(unfold normal_xid, FirstNormalTransactionId in *; lia)).
  pose proof (page_range last ltac:(unfold normal_xid, FirstNormalTransactionId in *; lia)). unfold pages in *. zlia.
Qed.

(** C24: Restart keeps the links it should.  [StartupSUBTRANS] always finishes
    and leaves no parent for the transactions from [oldestActiveXID] to the next
    one.  When [SubTransXidRangeSurvivesStartup] says that the transactions below
    [xmax] survive, every link of such a transaction, older than
    [oldestActiveXID], is still there afterwards, also when identifiers wrap
    around in between. *)
Theorem subtrans_startup xmax oldest next st :
  slru_ok st -> normal_xid xmax -> normal_xid oldest -> normal_xid next -> xid_dist oldest next < 2 ^ 31 ->
  exists st', StartupSUBTRANS oldest next st = Ok st' /\ slru_ok st' /\
    (forall y, normal_xid y -> xid_dist oldest y <= xid_dist oldest next -> link_at st' y = Some (mkSubTransData 0 0)) /\
    (SubTransXidRangeSurvivesStartup xmax oldest = true ->
     forall x e, normal_xid x -> 0 < xid_dist x xmax < 2 ^ 31 - 2 * SUBTRANS_XACTS_PER_PAGE ->
       xid_dist x oldest + xid_dist oldest next < 2 ^ 31 -> link_at st x = Some e -> link_at st' x = Some e).
Proof.
  intros Hok Hm Ho Hn Hd. assert (Hr : forall x, normal_xid x -> 0 <= x < 2 ^ 32) by (unfold normal_xid, FirstNormalTransactionId; lia).
  pose proof (page_range oldest (Hr _ Ho)) as Hpo. pose proof (page_range next (Hr _ Hn)) as Hpn. unfold StartupSUBTRANS.
  destruct (startup_loop_ok (Z.to_nat (TransactionIdToPage MaxTransactionId + 1)) _ _ st Hok Hpo Hpn) as (st' & E & Hok' & Hz & Hk).
  { rewrite last_page. pose proof (Z.mod_pos_bound (TransactionIdToPage next - TransactionIdToPage oldest) pages ltac:(done)).
    unfold page_gap. lia. }
  exists st'. split_and!; try done.
  - intros y Hy Hle. pose proof (xid_dist_bound oldest y). apply Hz; [by apply Hr |]. rewrite !page_gap_ahead by (auto || lia).
    apply Z.div_le_mono; [apply per_page_pos | lia].
  - intros Hs x e Hx Hdx Hsum Ex. apply Hk; [by apply Hr | | done]. pose proof (survives_page x xmax oldest Hx Hm Hdx Hs) as Hne.
    pose proof (page_range x (Hr _ Hx)) as Hpx. pose proof (xid_dist_bound oldest next).
    assert (Hgx : 0 < page_gap (TransactionIdToPage x) (TransactionIdToPage oldest)) by (unfold page_gap, pages in *; zlia).
    assert (Hback : page_gap (TransactionIdToPage oldest) (TransactionIdToPage x) = pages - page_gap (TransactionIdToPage x) (TransactionIdToPage oldest))
      by (unfold page_gap, pages in *; zlia).
    rewrite Hback, !page_gap_ahead by (auto || lia). pose proof (xid_dist_bound x oldest).
    unfold TransactionIdToEntry, pages. rewrite xacts_per_page. zlia.
Qed.

Lemma subtrans_startup_witness :
  exists st st', link_at st 101 = Some (mkSubTransData 100 100) /\ StartupSUBTRANS 5000 9000 st = Ok st' /\
    link_at st' 101 = Some (mkSubTransData 100 100) /\ link_at st' 5001 = Some (mkSubTransData 0 0).
Proof.
  destruct (first_links 8 ltac:(lia)) as (st0 & _ & Hok0 & H0). rewrite xacts_per_page in H0.
  destruct (set_parents_ok (fun x => 100 <= x < 200) ltac:(unfold normal_xid, FirstNormalTransactionId; lia) [(101, 100)] st0)
    as (st & _ & Hok & Hl); [cbn; split_and!; try lia; intros y q Hin; set_solver | done | intros x Hx; apply H0; lia |].
  destruct (Hl 101) as (top & E & _ & Htop); [lia |]. destruct Htop as [_ Htop]; [done |].
  assert (top = 100) as ->. { apply (topmost_det _ _ _ _ Htop). apply topmost_up; [done |]. by apply topmost_self. }
  destruct (subtrans_startup 200 5000 9000 st) as (st' & Es & _ & Hz & Hk); try done.
  exists st, st'. split; [done |]. split; [done |]. split.
  - apply Hk; [reflexivity | done | | reflexivity | done]. rewrite xacts_per_page. done.
  - apply Hz; done.
Defined.
