(* ===== verification/Snapshot.v ===== *)
(** * Snapshots

    Models the functions of src/backend/utils/time/snapmgr.c that decide whether
    a transaction is in progress for a snapshot, copy a snapshot, and carry it to
    a parallel worker, with the struct of src/include/utils/snapshot.h.  The
    snapshots are MVCC ones.

    A transaction is first tested against the distributed snapshot
    ([DistributedSnapshot]) and then against the local arrays, with the log of
    [SubTrans] when the array of subtransactions overflowed.  Pointers are
    [option]s.  A serialized snapshot is its header, which the code copies as a
    struct, and the bytes behind it.  The contents of new memory before it is
    written are arguments. *)

From stdpp Require Import base list gmap.
From S2P Require Import Prelude TransactionId Slru LocalDistribXact DistributedSnapshot SubTrans.

Record SnapshotData := mkSnapshot {
  xmin : Z;
  xmax : Z;
  anchorOrdinal : Z;
  xip : option (list Z);
  xcnt : Z;
  subxip : option (list Z);
  subxcnt : Z;
  suboverflowed : bool;
  takenDuringRecovery : bool;
  copied : bool;
  haveDistribSnapshot : bool;
  curcid : Z;
  active_count : Z;
  regd_count : Z;
  whenTaken : Z;
  lsn : Z;
  distribSnapshotWithLocalMapping : DistributedSnapshotWithLocalMapping
}.

Inductive XidInMVCCSnapshotCheckResult :=
| XID_NOT_IN_SNAPSHOT
| XID_IN_SNAPSHOT
| XID_SURELY_COMMITTED.

(** ** The test of a transaction *)

Definition XidInMVCCSnapshot_Local (xid : Z) (sn : SnapshotData) (st : Slru (list SubTransData))
  : outcome (bool * Slru (list SubTransData)) :=
  if TransactionIdPrecedes xid (xmin sn) then Ok (false, st)
  else if TransactionIdFollowsOrEquals xid (xmax sn) then Ok (true, st)
  else if negb (takenDuringRecovery sn) then
    if negb (suboverflowed sn) then
      found ← xid_scan (Z.to_nat (subxcnt sn)) 0 xid (subxip sn);
      if (found : bool) then Ok (true, st)
      else
        found ← xid_scan (Z.to_nat (xcnt sn)) 0 xid (xip sn);
        Ok (found, st)
    else
      '(xid, st) ← SubTransGetTopmostTransaction false xid st;
      if TransactionIdPrecedes xid (xmin sn) then Ok (false, st)
      else
        found ← xid_scan (Z.to_nat (xcnt sn)) 0 xid (xip sn);
        Ok (found, st)
  else
    '(early, xid, st) ←
      (if suboverflowed sn then
         '(xid, st) ← SubTransGetTopmostTransaction false xid st;
         Ok (TransactionIdPrecedes xid (xmin sn), xid, st)
       else Ok (false, xid, st));
    if (early : bool) then Ok (false, st)
    else
      found ← xid_scan (Z.to_nat (subxcnt sn)) 0 xid (subxip sn);
      Ok (found, st).

Section Test.
  Context {L : Type} `{!CommitLog L} (max_cache : Z).

Definition set_dslm (sn : SnapshotData) (dslm : DistributedSnapshotWithLocalMapping) : SnapshotData :=
  mkSnapshot (xmin sn) (xmax sn) (anchorOrdinal sn) (xip sn) (xcnt sn) (subxip sn) (subxcnt sn) (suboverflowed sn)
    (takenDuringRecovery sn) (copied sn) (haveDistribSnapshot sn) (curcid sn) (active_count sn) (regd_count sn)
    (whenTaken sn) (lsn sn) dslm.

(** The local test that ends [XidInMVCCSnapshot]. *)
Definition local_result (xid : Z) (sn : SnapshotData) (setIgnore : bool) (cache : option LocalDistribXactCache) (log : L)
    (st : Slru (list SubTransData)) :=
  '(b, st) ← XidInMVCCSnapshot_Local xid sn st;
  Ok ((if (b : bool) then XID_IN_SNAPSHOT else XID_NOT_IN_SNAPSHOT), setIgnore, sn, cache, log, st).

(** The answer, [*setDistributedSnapshotIgnore], and the changed state. *)
Definition XidInMVCCSnapshot (qd : bool) (xid : Z) (sn : SnapshotData) (distributedSnapshotIgnore : bool)
    (cache : option LocalDistribXactCache) (log : L) (st : Slru (list SubTransData))
  : outcome (XidInMVCCSnapshotCheckResult * bool * SnapshotData * option LocalDistribXactCache * L * Slru (list SubTransData)) :=
  if haveDistribSnapshot sn && negb distributedSnapshotIgnore && negb qd then
    if negb (TransactionIdIsNormal xid) then Ok (XID_NOT_IN_SNAPSHOT, false, sn, cache, log, st)
    else if TransactionIdFollowsOrEquals xid (xmax sn) then Ok (XID_IN_SNAPSHOT, false, sn, cache, log, st)
    else
      '(r, dslm, cache, log) ←
        DistributedSnapshotWithLocalMapping_CommittedTest max_cache (distribSnapshotWithLocalMapping sn) xid false cache log;
      let sn := set_dslm sn dslm in
      match r with
      | DISTRIBUTEDSNAPSHOT_COMMITTED_INPROGRESS => Ok (XID_IN_SNAPSHOT, false, sn, cache, log, st)
      | DISTRIBUTEDSNAPSHOT_COMMITTED_VISIBLE => Ok (XID_SURELY_COMMITTED, false, sn, cache, log, st)
      | DISTRIBUTEDSNAPSHOT_COMMITTED_IGNORE => local_result xid sn true cache log st
      | DISTRIBUTEDSNAPSHOT_COMMITTED_UNKNOWN => local_result xid sn false cache log st
      | DISTRIBUTEDSNAPSHOT_COMMITTED_NONE => Err "Unrecognized distributed committed test result"
      end
  else local_result xid sn false cache log st.
End Test.

(** ** Copying *)

(** Whether the array of subtransactions is used. *)
Definition subxip_used (sn : SnapshotData) : bool := negb (suboverflowed sn) || takenDuringRecovery sn.

(** [junk] is what the new array of local ids holds before it is written. *)
Definition CopySnapshot (junk : list Z) (sn : SnapshotData) : outcome SnapshotData :=
  xip' ← (if 0 <? xcnt sn then l ← array_read (xip sn) (xcnt sn); Ok (Some l) else Ok None);
  subxip' ← (if (0 <? subxcnt sn) && subxip_used sn
             then l ← array_read (subxip sn) (subxcnt sn); Ok (Some l) else Ok None);
  let dslm := distribSnapshotWithLocalMapping sn in
  let ds := dslm_ds dslm in
  '(progress, mapped) ←
    (if haveDistribSnapshot sn && (0 <? ds_count ds) then
       progress ← array_read (inProgressXidArray ds) (ds_count ds);
       mapped ← (if 0 <? currentLocalXidsCount dslm then
                   l ← array_read (inProgressMappedLocalXids dslm) (currentLocalXidsCount dslm);
                   mem_write junk 0 l
                 else Ok junk);
       Ok (Some progress, Some mapped)
     else Ok (None, None));
  Ok (mkSnapshot (xmin sn) (xmax sn) (anchorOrdinal sn) xip' (xcnt sn) subxip' (subxcnt sn) (suboverflowed sn)
        (takenDuringRecovery sn) true (haveDistribSnapshot sn) (curcid sn) 0 0 (whenTaken sn) (lsn sn)
        (mkDslm (mkDS (xminAllDistributedSnapshots ds) (distribSnapshotId ds) (ds_xmin ds) (ds_xmax ds) (ds_count ds) progress)
           (minCachedLocalXid dslm) (maxCachedLocalXid dslm) (currentLocalXidsCount dslm) mapped)).

(** ** Snapshots for parallel workers *)

Record SerializedDistributedSnapshotData := mkSerializedDS {
  sds_xminAll : Z;
  sds_id : Z;
  sds_xmin : Z;
  sds_xmax : Z;
  sds_count : Z
}.

Record SerializedSnapshotData := mkSerialized {
  ss_xmin : Z;
  ss_xmax : Z;
  ss_xcnt : Z;
  ss_subxcnt : Z;
  ss_suboverflowed : bool;
  ss_takenDuringRecovery : bool;
  ss_curcid : Z;
  ss_whenTaken : Z;
  ss_lsn : Z;
  ss_haveDistribSnapshot : bool;
  ss_ds : SerializedDistributedSnapshotData
}.

Definition sizeof_TransactionId : Z := 4.

(** The space behind the header. *)
Definition EstimateSnapshotSpace (sn : SnapshotData) : Z :=
  xcnt sn * sizeof_TransactionId +
  (if (0 <? subxcnt sn) && subxip_used sn then subxcnt sn * sizeof_TransactionId else 0) +
  (if haveDistribSnapshot sn && (0 <? ds_count (dslm_ds (distribSnapshotWithLocalMapping sn)))
   then ds_count (dslm_ds (distribSnapshotWithLocalMapping sn)) * sizeof_DistributedTransactionId else 0).

Definition SerializeSnapshot (sn : SnapshotData) (tail : list Z) : outcome (SerializedSnapshotData * list Z) :=
  let ds := dslm_ds (distribSnapshotWithLocalMapping sn) in
  let sds := if haveDistribSnapshot sn
             then mkSerializedDS (xminAllDistributedSnapshots ds) (distribSnapshotId ds) (ds_xmin ds) (ds_xmax ds) (ds_count ds)
             else mkSerializedDS InvalidDistributedTransactionId 0 InvalidDistributedTransactionId InvalidDistributedTransactionId 0 in
  let subcnt := if suboverflowed sn && negb (takenDuringRecovery sn) then 0 else subxcnt sn in
  let h := mkSerialized (xmin sn) (xmax sn) (xcnt sn) subcnt (suboverflowed sn) (takenDuringRecovery sn) (curcid sn)
             (whenTaken sn) (lsn sn) (haveDistribSnapshot sn) sds in
  tail ← (if 0 <? xcnt sn then l ← array_read (xip sn) (xcnt sn); mem_write tail 0 (flat 4 l) else Ok tail);
  tail ← (if 0 <? ss_subxcnt h then
            let subxipoff := xcnt sn * sizeof_TransactionId in
            l ← array_read (subxip sn) (subxcnt sn);
            mem_write tail subxipoff (flat 4 l)
          else Ok tail);
  tail ← (if haveDistribSnapshot sn && (0 <? sds_count (ss_ds h)) then
            let dxipoff := xcnt sn * sizeof_TransactionId + ss_subxcnt h * sizeof_TransactionId in
            l ← array_read (inProgressXidArray ds) (sds_count (ss_ds h));
            mem_write tail dxipoff (flat 8 l)
          else Ok tail);
  Ok (h, tail).

(** [n] ids of [w] bytes at [off]. *)
Definition read_xids (w : nat) (tail : list Z) (off n : Z) : outcome (list Z) :=
  b ← mem_read tail off (Z.of_nat w * n); Ok (unflat w (Z.to_nat n) b).

(** [fresh] is what the memory of the new snapshot holds, in the part for
    distributed snapshots, before it is written. *)
Definition RestoreSnapshot (fresh : DistributedSnapshotWithLocalMapping) (h : SerializedSnapshotData) (tail : list Z)
  : outcome SnapshotData :=
  xip' ← (if 0 <? ss_xcnt h then l ← read_xids 4 tail 0 (ss_xcnt h); Ok (Some l) else Ok None);
  subxip' ← (if 0 <? ss_subxcnt h then l ← read_xids 4 tail (ss_xcnt h * sizeof_TransactionId) (ss_subxcnt h); Ok (Some l) else Ok None);
  dslm ← (if ss_haveDistribSnapshot h then
            let s := ss_ds h in
            a ← (if 0 <? sds_count s then
                   let dxipoff := ss_xcnt h * sizeof_TransactionId + ss_subxcnt h * sizeof_TransactionId in
                   l ← read_xids 8 tail dxipoff (sds_count s); Ok (Some l)
                 else Ok None);
            Ok (mkDslm (mkDS (sds_xminAll s) (sds_id s) (sds_xmin s) (sds_xmax s) (sds_count s) a)
                  (minCachedLocalXid fresh) (maxCachedLocalXid fresh) (currentLocalXidsCount fresh) (inProgressMappedLocalXids fresh))
          else Ok (mkDslm (mkDS 0 0 0 0 0 None) 0 0 0 None));
  Ok (mkSnapshot (ss_xmin h) (ss_xmax h) 0 xip' (ss_xcnt h) subxip' (ss_subxcnt h) (ss_suboverflowed h)
        (ss_takenDuringRecovery h) true (ss_haveDistribSnapshot h) (ss_curcid h) 0 0 (ss_whenTaken h) (ss_lsn h) dslm).

(** ** The local test *)

(** The arrays of a snapshot: [tops] is in [xip], [subs] in [subxip] when it is used. *)
Record sn_ok (sn : SnapshotData) (tops subs : list Z) : Prop := {
  sno_xcnt : xcnt sn = zlen tops;
  sno_xip : tops <> [] -> exists rest, xip sn = Some (tops ++ rest);
  sno_subxcnt : subxip_used sn = true -> subxcnt sn = zlen subs;
  sno_subxip : subxip_used sn = true -> subs <> [] -> exists rest, subxip sn = Some (subs ++ rest)
}.

Lemma xid_scan_ok x l n a :
  n = zlen l -> (l <> [] -> exists rest, a = Some (l ++ rest)) -> xid_scan (Z.to_nat n) 0 x a = Ok (bool_decide (x ∈ l)).
Proof.
  intros -> Ha. unfold zlen. rewrite Nat2Z.id. destruct l as [| y l]; [done |]. destruct Ha as [rest ->]; [done |].
  apply (xid_scan_list x (y :: l) rest []).
Qed.

(** What the test says, when [root] gives the topmost transaction. *)
Definition local_answer (sn : SnapshotData) (tops subs : list Z) (root : Z -> Z) (x : Z) : bool :=
  if TransactionIdPrecedes x (xmin sn) then false
  else if TransactionIdFollowsOrEquals x (xmax sn) then true
  else
    let y := if suboverflowed sn then root x else x in
    if suboverflowed sn && TransactionIdPrecedes y (xmin sn) then false
    else if takenDuringRecovery sn then bool_decide (y ∈ subs)
    else bool_decide (y ∈ tops) || negb (suboverflowed sn) && bool_decide (y ∈ subs).

(** The log of subtransactions knows the topmost transactions of [D]. *)
Definition roots_ok (D : Z -> Prop) (root : Z -> Z) (st : Slru (list SubTransData)) : Prop :=
  (forall x, D x -> normal_xid x) /\ exists h, links_ok D h st /\ forall x, D x -> topmost (parent_of h) x (root x).

Lemma get_topmost_ok D root st x :
  roots_ok D root st -> D x ->
  exists st', SubTransGetTopmostTransaction false x st = Ok (root x, st') /\ roots_ok D root st'.
Proof.
  intros (HD & h & [Hok Hl] & Hroot) Hx. destruct (Hl x Hx) as (top & Ex & H0 & H1).
  destruct (get_data_ok st x _ Hok (HD x Hx) Ex) as (st' & E & Hok' & Hk). exists st'.
  unfold SubTransGetTopmostTransaction. rewrite E. cbn [mbind outcome_bind topMostParent parent]. split.
  - do 2 f_equal. specialize (Hroot x Hx). destruct (Z.eq_dec (parent_of h x) InvalidTransactionId) as [E0 | N].
    + rewrite (H0 E0). apply (topmost_det (parent_of h) x); [by apply topmost_self | done].
    + destruct (H1 N) as [Dt Tt]. pose proof (HD top Dt). unfold normal_xid, FirstNormalTransactionId, InvalidTransactionId in *.
      replace (top =? 0) with false by lia. by apply (topmost_det (parent_of h) x).
  - split; [done |]. exists h. split; [| done]. split; [done |]. intros y Hy. destruct (Hl y Hy) as (ty & Ey & Hy'). exists ty.
    split; [| done]. apply Hk; [| done]. pose proof (HD y Hy). unfold normal_xid, FirstNormalTransactionId in *. lia.
Qed.

Lemma local_ok D root sn tops subs x st :
  sn_ok sn tops subs -> roots_ok D root st -> D x ->
  exists st', XidInMVCCSnapshot_Local x sn st = Ok (local_answer sn tops subs root x, st') /\ roots_ok D root st'.
Proof.
  intros Hsn Hst Hx. unfold XidInMVCCSnapshot_Local, local_answer.
  destruct (TransactionIdPrecedes x (xmin sn)); [by exists st |].
  destruct (TransactionIdFollowsOrEquals x (xmax sn)); [by exists st |].
  destruct (get_topmost_ok D root st x Hst Hx) as (st' & Et & Hst').
  assert (Htops : forall y, xid_scan (Z.to_nat (xcnt sn)) 0 y (xip sn) = Ok (bool_decide (y ∈ tops)))
    by (intros y; apply xid_scan_ok; apply Hsn).
  assert (Hsubs : forall y, subxip_used sn = true -> xid_scan (Z.to_nat (subxcnt sn)) 0 y (subxip sn) = Ok (bool_decide (y ∈ subs)))
    by (intros y Hu; apply xid_scan_ok; by apply Hsn).
  unfold subxip_used in Hsubs.
  destruct (takenDuringRecovery sn) eqn:Er; cbn [negb].
  - rewrite orb_true_r in Hsubs. destruct (suboverflowed sn) eqn:Es; cbn [andb].
    + rewrite Et. cbn [mbind outcome_bind]. destruct (TransactionIdPrecedes (root x) (xmin sn)); [by exists st' |].
      rewrite Hsubs by done. cbn [mbind outcome_bind]. by exists st'.
    + cbn [mbind outcome_bind]. rewrite Hsubs by done. cbn [mbind outcome_bind]. by exists st.
  - destruct (suboverflowed sn) eqn:Es; cbn [negb andb orb] in *.
    + rewrite Et. cbn [mbind outcome_bind]. destruct (TransactionIdPrecedes (root x) (xmin sn)); [by exists st' |].
      rewrite Htops. cbn [mbind outcome_bind]. rewrite orb_false_r. by exists st'.
    + rewrite Hsubs by done. cbn [mbind outcome_bind]. destruct (bool_decide (x ∈ subs)); [rewrite orb_true_r; by exists st |].
      rewrite Htops. cbn [mbind outcome_bind]. rewrite orb_false_r. by exists st.
Qed.

(** C26: Losing the array of subtransactions does not change what a snapshot
    sees.  A snapshot that lists the transactions in progress and all their
    subtransactions, and one with the same bounds that overflowed and lists only
    the topmost ones, answer alike for every transaction whose links are in the
    log of subtransactions. *)
Theorem snapshot_overflow_equivalent D root full over tops subs x st :
  sn_ok full tops subs -> sn_ok over tops subs -> roots_ok D root st -> D x ->
  xmin over = xmin full -> xmax over = xmax full ->
  takenDuringRecovery full = false -> takenDuringRecovery over = false -> suboverflowed full = false -> suboverflowed over = true ->
  (forall t, t ∈ tops -> root t = t /\ TransactionIdPrecedes t (xmin full) = false) ->
  (forall y, D y -> y ∈ subs <-> root y <> y /\ root y ∈ tops) ->
  exists b st1 st2, XidInMVCCSnapshot_Local x full st = Ok (b, st1) /\ XidInMVCCSnapshot_Local x over st = Ok (b, st2).
Proof.
  intros Hf Ho Hst Hx Emin Emax Rf Ro Of Oo Htops Hsubs.
  destruct (local_ok D root full tops subs x st Hf Hst Hx) as (st1 & E1 & _).
  destruct (local_ok D root over tops subs x st Ho Hst Hx) as (st2 & E2 & _).
  exists (local_answer full tops subs root x), st1, st2. split; [exact E1 |]. rewrite E2. do 2 f_equal.
  unfold local_answer. rewrite Emin, Emax, Rf, Ro, Of, Oo. cbn [negb andb].
  destruct (TransactionIdPrecedes x (xmin full)); [done |]. destruct (TransactionIdFollowsOrEquals x (xmax full)); [done |].
  rewrite orb_false_r. specialize (Hsubs x Hx). symmetry.
  destruct (bool_decide_reflect (root x ∈ tops)) as [Hin | Hout].
  - rewrite (proj2 (Htops _ Hin)). destruct (Z.eq_dec (root x) x) as [E | N].
    + rewrite E in Hin. by rewrite (bool_decide_eq_true_2 _ Hin).
    + rewrite (bool_decide_eq_true_2 (x ∈ subs)) by (by apply Hsubs). apply orb_true_r.
  - rewrite (bool_decide_eq_false_2 (x ∈ subs)) by (intros H; apply Hsubs in H; tauto).
    rewrite (bool_decide_eq_false_2 (x ∈ tops)) by (intros H; apply Hout; by rewrite (proj1 (Htops x H))).
    by destruct (TransactionIdPrecedes _ _).
Qed.

Lemma snapshot_overflow_equivalent_witness :
  exists st st1 st2,
    XidInMVCCSnapshot_Local 101 (mkSnapshot 100 110 0 (Some [100]) 1 (Some [101]) 1 false false false false 0 0 0 0 0 (mkDslm (mkDS 0 0 0 0 0 None) 0 0 0 None)) st = Ok (true, st1) /\
    XidInMVCCSnapshot_Local 101 (mkSnapshot 100 110 0 (Some [100]) 1 None 0 true false false false 0 0 0 0 0 (mkDslm (mkDS 0 0 0 0 0 None) 0 0 0 None)) st = Ok (true, st2).
Proof.
  set (full := mkSnapshot _ _ _ _ _ (Some [101]) _ _ _ _ _ _ _ _ _ _ _). set (over := mkSnapshot _ _ _ _ _ None _ _ _ _ _ _ _ _ _ _ _).
  set (D := fun x => 100 <= x < 200). set (root := fun x => if x =? 101 then 100 else x).
  destruct (first_links 8 ltac:(lia)) as (st0 & _ & Hok & H0). rewrite xacts_per_page in H0.
  assert (HD : forall x, D x -> normal_xid x) by (unfold D, normal_xid, FirstNormalTransactionId; lia).
  destruct (set_parents_ok D HD [(101, 100)] st0) as (st & _ & Hl).
  { cbn. unfold D. split_and!; try lia; intros y q Hin; set_solver by lia. } { done. } { intros x Hx. apply H0. unfold D in Hx. lia. }
  assert (Hroot : forall x, D x -> topmost (parent_of [(101, 100)]) x (root x)).
  { intros x _. unfold root. destruct (Z.eqb_spec x 101) as [-> | N].
    - apply topmost_up; [done |]. by apply topmost_self.
    - apply topmost_self. cbn. by replace (x =? 101) with false by lia. }
  destruct (snapshot_overflow_equivalent D root full over [100] [101] 101 st) as (b & st1 & st2 & E1 & E2); try done.
  - constructor; try done; intros; by exists [].
  - constructor; try done; intros; by exists [].
  - by split; [| exists [(101, 100)]].
  - intros t Ht. apply list_elem_of_singleton in Ht. by subst.
  - intros y Hy. rewrite !list_elem_of_singleton. unfold root. destruct (Z.eqb_spec y 101); lia.
  - exists st, st1, st2. assert (b = true) as ->; [| done].
    assert (E : XidInMVCCSnapshot_Local 101 full st = Ok (true, st)) by reflexivity. rewrite E in E1. congruence.
Defined.

(** ** The whole test *)

Section Visibility.
  Context {L : Type} `{!CommitLog L} `{!CommitLogSpec L} (max_cache : Z) (Hmax : 0 <= max_cache).
  Context (truth : Z -> option Z) (D : Z -> Prop) (root : Z -> Z) (tops subs xids : list Z).

(** The answer for a transaction on a segment: for one that committed in a
    distributed transaction the distributed snapshot decides, unless it is older
    than all distributed snapshots, and for the others the local snapshot. *)
Definition visibility (sn : SnapshotData) (x : Z) : XidInMVCCSnapshotCheckResult :=
  let ds := dslm_ds (distribSnapshotWithLocalMapping sn) in
  let loc := if local_answer sn tops subs root x then XID_IN_SNAPSHOT else XID_NOT_IN_SNAPSHOT in
  if TransactionIdFollowsOrEquals x (xmax sn) then XID_IN_SNAPSHOT
  else match truth x with
       | None => loc
       | Some g =>
           if g <? xminAllDistributedSnapshots ds then loc
           else if (ds_xmax ds <=? g) || bool_decide (g ∈ xids) && (ds_xmin ds <=? g) then XID_IN_SNAPSHOT
           else XID_SURELY_COMMITTED
       end.

(** What the tests of a backend keep. *)
Definition backend_ok (sn : SnapshotData) (cache : option LocalDistribXactCache) (log : L) (st : Slru (list SubTransData)) : Prop :=
  haveDistribSnapshot sn = true /\ sn_ok sn tops subs /\ roots_ok D root st /\
  dslm_ok truth (distribSnapshotWithLocalMapping sn) xids /\
  ds_xmin (dslm_ds (distribSnapshotWithLocalMapping sn)) <= ds_xmax (dslm_ds (distribSnapshotWithLocalMapping sn)) /\ cache_agrees truth cache /\
  log_agrees truth D (xminAllDistributedSnapshots (dslm_ds (distribSnapshotWithLocalMapping sn))) log.

Lemma xid_in_snapshot_ok sn x cache log st :
  backend_ok sn cache log st -> D x ->
  exists ignore sn' cache' log' st',
    XidInMVCCSnapshot max_cache false x sn false cache log st = Ok (visibility sn x, ignore, sn', cache', log', st') /\
    backend_ok sn' cache' log' st' /\ (forall y, visibility sn' y = visibility sn y) /\
    (ignore = true -> exists g, truth x = Some g /\ g < xminAllDistributedSnapshots (dslm_ds (distribSnapshotWithLocalMapping sn))).
Proof.
  intros Hb Hx. pose proof Hb as (Hh & Hsn & Hst & Hd & Hmm & Hc & Hl).
  assert (HD : forall y, D y -> normal_xid y) by apply Hst.
  assert (HDr : forall y, D y -> 0 <= y < 2 ^ 32) by (intros y Hy; pose proof (HD y Hy); unfold normal_xid, FirstNormalTransactionId in *; lia).
  unfold XidInMVCCSnapshot. rewrite Hh, (proj1 (normal_valid x (HD x Hx))). cbn [negb andb].
  unfold visibility at 1. destruct (TransactionIdFollowsOrEquals x (xmax sn)) eqn:Ex; [exists false, sn, cache, log, st; done |].
  destruct (committed_test_ok max_cache Hmax truth D HDr _ xids x false cache log Hd Hc Hl Hx)
    as (r & dslm & cache' & log' & -> & Ha & Es & Hd' & Hc' & Hl'). cbn [mbind outcome_bind].
  assert (Hb' : forall st', roots_ok D root st' -> backend_ok (set_dslm sn dslm) cache' log' st').
  { intros st' Hst'. unfold backend_ok. cbn. rewrite Es. destruct Hsn as [? ? ? ?]. split_and!; try done. }
  assert (Hv : forall y, visibility (set_dslm sn dslm) y = visibility sn y) by (intros y; unfold visibility; cbn; by rewrite Es).
  destruct (local_ok D root (set_dslm sn dslm) tops subs x st) as (st' & Eloc & Hst'); [destruct Hsn; by constructor | done | done |].
  change (local_answer (set_dslm sn dslm) tops subs root x) with (local_answer sn tops subs root x) in Eloc.
  unfold answer in Ha. rewrite (proj1 (normal_valid x (HD x Hx))) in Ha. cbn [negb] in Ha. unfold verdict in Ha.
  destruct (truth x) as [g |] eqn:Et.
  2: { subst r. unfold local_result. rewrite Eloc. cbn [mbind outcome_bind]. eexists _, _, _, _, _. split; [done |].
       split; [by apply Hb' |]. done. }
  destruct (Z.ltb_spec g (xminAllDistributedSnapshots (dslm_ds (distribSnapshotWithLocalMapping sn)))) as [Hold | Hnew].
  { destruct Ha as [-> | [-> _]]; unfold local_result; rewrite Eloc; cbn [mbind outcome_bind]; eexists _, _, _, _, _; (split; [done |]);
      (split; [by apply Hb' |]); (split; [done |]); intros; eauto. }
  destruct Ha as [-> | [_ ?]]; [| lia].
  destruct (Z.ltb_spec g (ds_xmin (dslm_ds (distribSnapshotWithLocalMapping sn)))) as [Hlo | Hhi].
  - replace (ds_xmax (dslm_ds (distribSnapshotWithLocalMapping sn)) <=? g) with false by lia.
    replace (ds_xmin (dslm_ds (distribSnapshotWithLocalMapping sn)) <=? g) with false by lia. rewrite andb_false_r. cbn [orb].
    eexists _, _, _, _, _. split; [done |]. split; [by apply Hb' |]. done.
  - replace (ds_xmin (dslm_ds (distribSnapshotWithLocalMapping sn)) <=? g) with true by lia. rewrite andb_true_r.
    destruct (_ || _); (eexists _, _, _, _, _; split; [done |]; split; [by apply Hb' |]; done).
Qed.

(** One test after the other. *)
Fixpoint run_visibility (xs : list Z) (sn : SnapshotData) (cache : option LocalDistribXactCache) (log : L)
    (st : Slru (list SubTransData)) : outcome (list XidInMVCCSnapshotCheckResult) :=
  match xs with
  | [] => Ok []
  | x :: xs =>
      '(r, _, sn, cache, log, st) ← XidInMVCCSnapshot max_cache false x sn false cache log st;
      rs ← run_visibility xs sn cache log st;
      Ok (r :: rs)
  end.

Lemma run_visibility_ok xs : forall sn cache log st,
  backend_ok sn cache log st -> Forall D xs -> run_visibility xs sn cache log st = Ok (visibility sn <$> xs).
Proof.
  induction xs as [| x xs IH]; intros sn cache log st Hb Hxs; cbn [run_visibility fmap list_fmap]; [done |].
  apply Forall_cons in Hxs as [Hx Hxs].
  destruct (xid_in_snapshot_ok sn x cache log st Hb Hx) as (ign & sn' & cache' & log' & st' & -> & Hb' & Hv & _).
  cbn [mbind outcome_bind]. rewrite (IH sn' cache' log' st' Hb' Hxs). cbn [mbind outcome_bind]. do 2 f_equal.
  apply list_fmap_ext. intros i y _. apply Hv.
Qed.
End Visibility.

(** ** Copies *)

Lemma read_front n l a :
  n = zlen l -> (l <> [] -> exists rest, a = Some (l ++ rest)) -> array_read a n = Ok l.
Proof.
  intros -> Ha. unfold array_read. destruct l as [| y l]; [done |]. destruct Ha as [rest ->]; [done |].
  rewrite zlen_cons. pose proof (zlen_nonneg l). replace (zlen l + 1 =? 0) with false by lia. cbn [deref mbind outcome_bind].
  apply mem_read_front. by rewrite zlen_cons.
Qed.

(** The optional copy of an array. *)
Lemma copy_array l n a :
  n = zlen l -> (l <> [] -> exists rest, a = Some (l ++ rest)) ->
  exists a', (if 0 <? n then l ← array_read a n; Ok (Some l) else Ok None) = Ok a' /\ (l <> [] -> a' = Some l).
Proof.
  intros Hn Ha. destruct (Z.ltb_spec 0 n) as [Hp | Hz].
  - rewrite (read_front n l a Hn Ha). cbn [mbind outcome_bind]. by exists (Some l).
  - exists None. split; [done |]. intros Hne. destruct l; [done |]. rewrite zlen_cons in Hn. pose proof (zlen_nonneg l). lia.
Qed.

Lemma copy_mapping truth dslm xids junk :
  dslm_ok truth dslm xids -> zlen junk = zlen xids -> xids <> [] ->
  exists saved rest,
    (if 0 <? currentLocalXidsCount dslm then
       l ← array_read (inProgressMappedLocalXids dslm) (currentLocalXidsCount dslm); mem_write junk 0 l
     else Ok junk) = Ok (saved ++ rest) /\
    currentLocalXidsCount dslm = zlen saved /\ zlen saved <= zlen xids <= zlen (saved ++ rest) /\
    Forall (saved_ok truth (dslm_ds dslm) xids) saved /\
    (saved <> [] -> minCachedLocalXid dslm ∈ saved /\ maxCachedLocalXid dslm ∈ saved) /\
    (saved = [] -> minCachedLocalXid dslm = InvalidTransactionId /\ maxCachedLocalXid dslm = InvalidTransactionId).
Proof.
  intros [_ (saved & rest & Em & Ec & Hlen & Hrest)] Hj Hne. exists saved. rewrite Ec.
  destruct (mem_write_front junk saved) as (rest' & Ew & Hr); [lia |]. destruct (Z.ltb_spec 0 (zlen saved)) as [Hp | Hz].
  - exists rest'. rewrite (read_front (zlen saved) saved) by (done || (intros _; exists rest; by apply Em)). cbn [mbind outcome_bind].
    rewrite Ew. split; [done |]. split; [done |]. split; [rewrite zlen_app; lia | done].
  - assert (saved = []) as -> by (destruct saved; [done | rewrite zlen_cons in Hz; pose proof (zlen_nonneg saved); lia]).
    exists junk. cbn [app]. split; [done |]. split; [done |]. split; [lia | done].
Qed.

Lemma copy_snapshot_ok truth sn tops subs xids junk :
  haveDistribSnapshot sn = true -> sn_ok sn tops subs -> dslm_ok truth (distribSnapshotWithLocalMapping sn) xids -> zlen junk = zlen xids ->
  exists sn', CopySnapshot junk sn = Ok sn' /\ sn_ok sn' tops subs /\ dslm_ok truth (distribSnapshotWithLocalMapping sn') xids /\
    haveDistribSnapshot sn' = true /\ same_snapshot (dslm_ds (distribSnapshotWithLocalMapping sn)) (dslm_ds (distribSnapshotWithLocalMapping sn')) /\
    (forall root x, local_answer sn' tops subs root x = local_answer sn tops subs root x) /\ xmax sn' = xmax sn /\ copied sn' = true.
Proof.
  intros Hh Hsn Hd Hj. pose proof (dslm_ds_ok _ _ _ Hd) as Hds. unfold CopySnapshot.
  destruct (copy_array tops (xcnt sn) (xip sn)) as (xip' & -> & Hx'); [apply Hsn | apply Hsn |]. cbn [mbind outcome_bind].
  assert (Hs : exists sub', (if (0 <? subxcnt sn) && subxip_used sn then l ← array_read (subxip sn) (subxcnt sn); Ok (Some l) else Ok None) = Ok sub'
    /\ (subxip_used sn = true -> subs <> [] -> sub' = Some subs)).
  { destruct (subxip_used sn) eqn:Eu; [| rewrite andb_false_r; by exists None]. rewrite andb_true_r.
    destruct (copy_array subs (subxcnt sn) (subxip sn)) as (s' & -> & Hs'); [by apply Hsn | by apply Hsn |]. by exists s'. }
  destruct Hs as (sub' & -> & Hs'). cbn [mbind outcome_bind]. rewrite Hh. cbn [andb].
  set (dslm := distribSnapshotWithLocalMapping sn) in *.
  assert (Hm : exists a m, (if 0 <? ds_count (dslm_ds dslm) then
       progress ← array_read (inProgressXidArray (dslm_ds dslm)) (ds_count (dslm_ds dslm));
       mapped ← (if 0 <? currentLocalXidsCount dslm then
                   l ← array_read (inProgressMappedLocalXids dslm) (currentLocalXidsCount dslm); mem_write junk 0 l
                 else Ok junk);
       Ok (Some progress, Some mapped)
     else Ok (None, None)) = Ok (a, m) /\ dslm_ok truth (mkDslm (mkDS (xminAllDistributedSnapshots (dslm_ds dslm)) (distribSnapshotId (dslm_ds dslm))
       (ds_xmin (dslm_ds dslm)) (ds_xmax (dslm_ds dslm)) (ds_count (dslm_ds dslm)) a)
       (minCachedLocalXid dslm) (maxCachedLocalXid dslm) (currentLocalXidsCount dslm) m) xids).
  { destruct xids as [| g xids'] eqn:Exs.
    - rewrite (dsok_count _ _ Hds). exists None, None. split; [done |]. destruct Hds, Hd as [_ (saved & rest & Hd)].
      constructor; cbn; [by constructor |]. exists saved, rest. split; [done |]. apply Hd.
    - rewrite <- Exs in *. assert (Hne : xids <> []) by (by rewrite Exs).
      destruct (copy_mapping truth dslm xids junk Hd Hj Hne) as (saved & rest & Em & Hrest).
      replace (0 <? ds_count (dslm_ds dslm)) with true by (rewrite (dsok_count _ _ Hds), Exs, zlen_cons; pose proof (zlen_nonneg xids'); lia).
      rewrite (array_read_ok _ _ Hds). cbn [mbind outcome_bind]. rewrite Em. cbn [mbind outcome_bind].
      exists (Some xids), (Some (saved ++ rest)). split; [done |]. destruct Hds.
      constructor; cbn; [constructor; cbn; try done; intros _; exists []; by rewrite app_nil_r |]. exists saved, rest. done. }
  destruct Hm as (a & m & -> & Hd'). cbn [mbind outcome_bind]. eexists. split; [done |].
  split; [| split_and!; done]. destruct Hsn as [Hc _ Hsc _]. constructor; cbn; try done.
  - intros Hne. exists []. by rewrite app_nil_r, Hx'.
  - intros Hu Hne. exists []. by rewrite app_nil_r, Hs'.
Qed.

(** ** Serialized snapshots *)

(** The subtransactions that are carried. *)
Definition carried (sn : SnapshotData) (subs : list Z) : list Z := if subxip_used sn then subs else [].

Lemma opt_write w l n a before hole p :
  n = zlen l -> (l <> [] -> exists rest, a = Some (l ++ rest)) -> p = zlen before -> Z.of_nat w * zlen l <= zlen hole ->
  exists hole', (if 0 <? n then l ← array_read a n; mem_write (before ++ hole) p (flat w l) else Ok (before ++ hole))
      = Ok ((before ++ flat w l) ++ hole') /\ zlen hole' = zlen hole - Z.of_nat w * zlen l.
Proof.
  intros Hn Ha Hp Hh. destruct (Z.ltb_spec 0 n) as [Hpos | Hz].
  - rewrite (read_front n l a Hn Ha). cbn [mbind outcome_bind].
    destruct (write_next before hole [] (flat w l) p Hp) as (h' & E & Hl); [rewrite zlen_flat; lia |].
    rewrite !app_nil_r in E. rewrite E. exists h'. rewrite zlen_flat in Hl. done.
  - assert (l = []) as -> by (destruct l; [done | rewrite zlen_cons in Hn; pose proof (zlen_nonneg l); lia]).
    exists hole. cbn. rewrite app_nil_r. split; [done |]. rewrite zlen_nil. lia.
Qed.

Lemma opt_read w l n before rest off :
  n = zlen l -> off = zlen before -> Forall (fun v => 0 <= v < 256 ^ Z.of_nat w) l ->
  exists a, (if 0 <? n then l ← read_xids w (before ++ flat w l ++ rest) off n; Ok (Some l) else Ok None) = Ok a /\ (l <> [] -> a = Some l).
Proof.
  intros -> -> Hw. destruct (Z.ltb_spec 0 (zlen l)) as [Hp | Hz].
  - unfold read_xids. rewrite mem_read_mid by (done || (rewrite zlen_flat; lia)). cbn [mbind outcome_bind].
    replace (Z.to_nat (zlen l)) with (length l) by (unfold zlen; lia). rewrite unflat_flat by done. cbn [mbind outcome_bind]. by exists (Some l).
  - exists None. split; [done |]. intros Hne. destruct l; [done |]. rewrite zlen_cons in Hz. pose proof (zlen_nonneg l). lia.
Qed.

Section Serialized.
  Context (sn : SnapshotData) (tops subs xids : list Z).
  Context (Hh : haveDistribSnapshot sn = true) (Hsn : sn_ok sn tops subs).
  Context (Hds : ds_ok (dslm_ds (distribSnapshotWithLocalMapping sn)) xids).

Definition header : SerializedSnapshotData :=
  let ds := dslm_ds (distribSnapshotWithLocalMapping sn) in
  mkSerialized (xmin sn) (xmax sn) (zlen tops) (zlen (carried sn subs)) (suboverflowed sn) (takenDuringRecovery sn) (curcid sn)
    (whenTaken sn) (lsn sn) true
    (mkSerializedDS (xminAllDistributedSnapshots ds) (distribSnapshotId ds) (ds_xmin ds) (ds_xmax ds) (zlen xids)).

Lemma carried_count : (if suboverflowed sn && negb (takenDuringRecovery sn) then 0 else subxcnt sn) = zlen (carried sn subs).
Proof.
  unfold carried. pose proof (sno_subxcnt _ _ _ Hsn) as H. unfold subxip_used in *.
  destruct (suboverflowed sn), (takenDuringRecovery sn); cbn in *; try (by apply H); done.
Qed.

Lemma serialize_snapshot_ok tail :
  zlen tail = EstimateSnapshotSpace sn ->
  SerializeSnapshot sn tail = Ok (header, flat 4 tops ++ flat 4 (carried sn subs) ++ flat 8 xids).
Proof.
  intros Ht. pose proof (zlen_nonneg tops) as Ht0. pose proof (zlen_nonneg (carried sn subs)) as Hs0. pose proof (zlen_nonneg xids) as Hx0.
  assert (Hsz : zlen tail = 4 * zlen tops + 4 * zlen (carried sn subs) + 8 * zlen xids).
  { rewrite Ht. unfold EstimateSnapshotSpace, sizeof_TransactionId, sizeof_DistributedTransactionId. rewrite Hh, (sno_xcnt _ _ _ Hsn), (dsok_count _ _ Hds).
    pose proof carried_count as Hcc. unfold carried, subxip_used in *. pose proof (sno_subxcnt _ _ _ Hsn) as Hs. unfold subxip_used in Hs.
    destruct (Z.ltb_spec 0 (zlen xids)), (Z.ltb_spec 0 (subxcnt sn)); destruct (suboverflowed sn), (takenDuringRecovery sn); cbn in *; try lia;
      try (rewrite (Hs eq_refl) in *; pose proof (zlen_nonneg subs); lia). }
  unfold SerializeSnapshot. rewrite Hh, carried_count. cbn [ss_subxcnt sds_count ss_ds andb]. rewrite (dsok_count _ _ Hds), (sno_xcnt _ _ _ Hsn).
  unfold sizeof_TransactionId.
  destruct (opt_write 4 tops (zlen tops) (xip sn) [] tail 0 eq_refl (sno_xip _ _ _ Hsn) eq_refl) as (h1 & E1 & H1); [lia |].
  cbn [app] in E1. rewrite E1. cbn [mbind outcome_bind].
  assert (Hsub : zlen (carried sn subs) = 0 \/ subxcnt sn = zlen (carried sn subs)).
  { unfold carried. destruct (subxip_used sn) eqn:Eu; [right; by apply Hsn | by left]. }
  destruct (opt_write 4 (carried sn subs) (zlen (carried sn subs)) (subxip sn) (flat 4 tops) h1 (zlen tops * 4) eq_refl) as (h2 & E2 & H2).
  { unfold carried. destruct (subxip_used sn) eqn:Eu; [by apply Hsn | done]. } { rewrite zlen_flat. lia. } { lia. }
  assert (Er : (if 0 <? zlen (carried sn subs) then l ← array_read (subxip sn) (subxcnt sn); mem_write (flat 4 tops ++ h1) (zlen tops * 4) (flat 4 l) else Ok (flat 4 tops ++ h1))
    = Ok ((flat 4 tops ++ flat 4 (carried sn subs)) ++ h2)).
  { destruct Hsub as [E0 | ->]; [| exact E2]. rewrite E0 in E2 |- *. exact E2. }
  rewrite Er. cbn [mbind outcome_bind].
  destruct (opt_write 8 xids (zlen xids) (inProgressXidArray (dslm_ds (distribSnapshotWithLocalMapping sn))) (flat 4 tops ++ flat 4 (carried sn subs)) h2
    (zlen tops * 4 + zlen (carried sn subs) * 4) eq_refl (dsok_array _ _ Hds)) as (h3 & E3 & H3); [rewrite zlen_app, !zlen_flat; lia | lia |].
  rewrite E3. cbn [mbind outcome_bind]. assert (h3 = []) as -> by (destruct h3; [done | rewrite zlen_cons in H3; pose proof (zlen_nonneg h3); lia]).
  unfold header. by rewrite app_nil_r, <- app_assoc.
Qed.

(** What a worker gets: the snapshot, with the array of local ids as the memory was. *)
Lemma restore_snapshot_ok fresh :
  Forall (ubits 32) tops -> Forall (ubits 32) (carried sn subs) -> Forall (ubits 64) xids ->
  exists sn', RestoreSnapshot fresh header (flat 4 tops ++ flat 4 (carried sn subs) ++ flat 8 xids) = Ok sn' /\
    sn_ok sn' tops subs /\ haveDistribSnapshot sn' = true /\
    (forall root x, local_answer sn' tops subs root x = local_answer sn tops subs root x) /\ xmax sn' = xmax sn /\ curcid sn' = curcid sn /\
    let dslm := distribSnapshotWithLocalMapping sn' in
    ds_ok (dslm_ds dslm) xids /\ same_snapshot (dslm_ds (distribSnapshotWithLocalMapping sn)) (dslm_ds dslm) /\
    minCachedLocalXid dslm = minCachedLocalXid fresh /\ maxCachedLocalXid dslm = maxCachedLocalXid fresh /\
    currentLocalXidsCount dslm = currentLocalXidsCount fresh /\ inProgressMappedLocalXids dslm = inProgressMappedLocalXids fresh.
Proof.
  intros W1 W2 W3. unfold RestoreSnapshot. cbn [header ss_xcnt ss_subxcnt ss_haveDistribSnapshot ss_ds sds_count]. unfold sizeof_TransactionId.
  destruct (opt_read 4 tops (zlen tops) [] (flat 4 (carried sn subs) ++ flat 8 xids) 0 eq_refl eq_refl W1) as (a1 & E1 & H1).
  cbn [app] in E1. rewrite E1. cbn [mbind outcome_bind].
  destruct (opt_read 4 (carried sn subs) (zlen (carried sn subs)) (flat 4 tops) (flat 8 xids) (zlen tops * 4) eq_refl) as (a2 & E2 & H2);
    [rewrite zlen_flat; lia | done |]. rewrite E2. cbn [mbind outcome_bind].
  destruct (opt_read 8 xids (zlen xids) (flat 4 tops ++ flat 4 (carried sn subs)) [] (zlen tops * 4 + zlen (carried sn subs) * 4) eq_refl) as (a3 & E3 & H3);
    [rewrite zlen_app, !zlen_flat; lia | done |]. rewrite app_nil_r, <- app_assoc in E3. rewrite E3. cbn [mbind outcome_bind].
  eexists. split; [done |]. cbn [haveDistribSnapshot distribSnapshotWithLocalMapping xmax curcid dslm_ds minCachedLocalXid maxCachedLocalXid
    currentLocalXidsCount inProgressMappedLocalXids]. split.
  { constructor; cbn; unfold carried in *; unfold subxip_used in *; cbn; try done.
    - intros Hne. exists []. by rewrite app_nil_r, H1.
    - intros Hu. by rewrite Hu.
    - intros Hu Hne. rewrite Hu in *. exists []. by rewrite app_nil_r, H2. }
  split_and!; try done.
  - destruct Hds as [_ Hc Hw Hs Hm]. constructor; cbn; try done. intros Hne. exists []. by rewrite app_nil_r, H3.
  - unfold same_snapshot. cbn. rewrite (dsok_count _ _ Hds). done.
Qed.
End Serialized.

(** C10: What a snapshot on a segment sees.  For any sequence of tests
    [XidInMVCCSnapshot], with the two caches, the distributed log and the log of
    subtransactions behind it, answers as specified by [visibility]: the
    distributed snapshot decides about transactions that committed in a
    distributed transaction not older than all snapshots, the local arrays about
    the others, and nothing at or after [xmax] is seen.  A copy made by
    [CopySnapshot] answers the same. *)
Theorem snapshot_visibility max_cache truth D root tops subs xids sn cache (log : DistributedLog.DistributedLog) st junk xs :
  0 <= max_cache -> backend_ok truth D root tops subs xids sn cache log st -> Forall D xs -> zlen junk = zlen xids ->
  exists copy,
    run_visibility max_cache xs sn cache log st = Ok (visibility truth root tops subs xids sn <$> xs) /\
    CopySnapshot junk sn = Ok copy /\ copied copy = true /\
    run_visibility max_cache xs copy cache log st = Ok (visibility truth root tops subs xids sn <$> xs).
Proof.
  intros Hmax Hb Hxs Hj. pose proof Hb as (Hh & Hsn & Hst & Hd & Hmm & Hc & Hl).
  destruct (copy_snapshot_ok truth sn tops subs xids junk Hh Hsn Hd Hj) as (copy & Ecopy & Hsn' & Hd' & Hh' & Hsame & Hloc & Emax & Hcop).
  exists copy. split; [by eapply run_visibility_ok |]. split; [done |]. split; [done |]. destruct Hsame as (Ea & _ & Em & Ex & _).
  assert (Hb' : backend_ok truth D root tops subs xids copy cache log st).
  { unfold backend_ok. rewrite Ea, Em, Ex. done. }
  rewrite (run_visibility_ok max_cache Hmax truth D root tops subs xids xs copy cache log st Hb' Hxs). f_equal.
  apply list_fmap_ext. intros i y _. unfold visibility. by rewrite Emax, Hloc, Ea, Em, Ex.
Qed.

Lemma snapshot_visibility_witness :
  exists sn cache log st, run_visibility 100 [100; 101; 102; 103] sn cache (log : DistributedLog.DistributedLog) st =
    Ok [XID_IN_SNAPSHOT; XID_SURELY_COMMITTED; XID_IN_SNAPSHOT; XID_IN_SNAPSHOT].
Proof.
  set (dslm := mkDslm (mkDS 10 1 10 12 1 (Some [10])) 0 0 0 (Some [0])).
  set (sn := mkSnapshot 100 110 0 (Some [103]) 1 None 0 false false false true 0 0 0 0 0 dslm).
  set (truth := fun x => if x =? 100 then Some 10 else if x =? 101 then Some 11 else if x =? 102 then Some 13 else None).
  destruct three_commits_log as (log & Hd & Eh & E1 & E2 & E3 & E4).
  destruct (first_links 8 ltac:(lia)) as (st & _ & Hok & H0). rewrite xacts_per_page in H0.
  destruct (snapshot_visibility 100 truth (fun x => 100 <= x <= 103) (fun x => x) [103] [] [10] sn None log st [0] [100; 101; 102; 103])
    as (copy & E & _).
  - done.
  - split_and!; try done.
    + constructor; try done. intros _. by exists [].
    + split; [unfold normal_xid, FirstNormalTransactionId; lia |]. exists [].
      split; [split; [done |] |]; [intros x Hx; exists 0; rewrite H0 by lia; done | intros x _; by apply topmost_self].
    + constructor; [constructor; try done; [intros _; by exists [] | by repeat constructor] |]. exists [], [0]. by split_and!.
    + split; [split; [done | by rewrite Eh] |]. intros x Hx _. cbn [log_entry DistributedLog_CommitLogSpec]. rewrite Eh.
      assert (Hx' : x = 100 \/ x = 101 \/ x = 102 \/ x = 103) by lia.
      destruct Hx' as [-> | [-> | [-> | ->]]]; [exists 10 | exists 11 | exists 13 | exists 0]; (split; [assumption |]); [split; auto; done .. | done].
  - repeat constructor; lia.
  - done.
  - exists sn, None, log, st. exact E.
Defined.

(** A snapshot carried to a parallel worker keeps its bounds, its arrays and
    its distributed snapshot, but [RestoreSnapshot] leaves the array of local ids
    and its counters as the memory happened to be.  When that says that there are
    ids and gives [x] as the least, the worker takes [x] for in progress whatever
    the distributed log says; when it reads as an empty array with a NULL
    pointer, the first transaction that is found in progress is written through
    that pointer. *)
Theorem restored_mapping_uninitialised max_cache sn tops subs xids tail fresh :
  haveDistribSnapshot sn = true -> sn_ok sn tops subs -> ds_ok (dslm_ds (distribSnapshotWithLocalMapping sn)) xids ->
  Forall (ubits 32) tops -> Forall (ubits 32) subs -> Forall (ubits 64) xids -> zlen tail = EstimateSnapshotSpace sn ->
  exists h buf sn', SerializeSnapshot sn tail = Ok (h, buf) /\ RestoreSnapshot fresh h buf = Ok sn' /\
    (forall root x, local_answer sn' tops subs root x = local_answer sn tops subs root x) /\
    same_snapshot (dslm_ds (distribSnapshotWithLocalMapping sn)) (dslm_ds (distribSnapshotWithLocalMapping sn')) /\
    (forall x cache (log : DistributedLog.DistributedLog),
       normal_xid x -> 0 < currentLocalXidsCount fresh -> minCachedLocalXid fresh = x ->
       DistributedSnapshotWithLocalMapping_CommittedTest max_cache (distribSnapshotWithLocalMapping sn') x false cache log =
         Ok (DISTRIBUTEDSNAPSHOT_COMMITTED_INPROGRESS, distribSnapshotWithLocalMapping sn', cache, log)) /\
    (forall x g cache cache' (log : DistributedLog.DistributedLog),
       normal_xid x -> currentLocalXidsCount fresh = 0 -> inProgressMappedLocalXids fresh = None ->
       LocalDistribXactCache_CommittedFind max_cache x cache = (Some g, cache') -> g ∈ xids ->
       ds_xmin (dslm_ds (distribSnapshotWithLocalMapping sn)) <= g < ds_xmax (dslm_ds (distribSnapshotWithLocalMapping sn)) ->
       DistributedSnapshotWithLocalMapping_CommittedTest max_cache (distribSnapshotWithLocalMapping sn') x false cache log = Ub).
Proof.
  intros Hh Hsn Hds W1 W2 W3 Ht. exists (header sn tops subs xids), (flat 4 tops ++ flat 4 (carried sn subs) ++ flat 8 xids).
  destruct (restore_snapshot_ok sn tops subs xids Hh Hds fresh W1) as (sn' & Er & _ & _ & Hloc & _ & _ & Hds' & Hsame & Emin & Emax & Ecnt & Emap).
  { unfold carried. destruct (subxip_used sn); [done | constructor]. } { done. }
  exists sn'. split; [by apply serialize_snapshot_ok |]. do 3 (split; [done |]). set (dslm := distribSnapshotWithLocalMapping sn') in *. split.
  - intros x cache log Hx Hpos Hmin. unfold DistributedSnapshotWithLocalMapping_CommittedTest, mapped_check.
    rewrite (proj1 (normal_valid x Hx)), Ecnt, Emin, Hmin. cbn [negb]. replace (0 <? currentLocalXidsCount fresh) with true by lia.
    unfold TransactionIdEquals. by rewrite Z.eqb_refl.
  - intros x g cache cache' log Hx Hz Hnull Hf Hin Hg. unfold DistributedSnapshotWithLocalMapping_CommittedTest, mapped_check.
    rewrite (proj1 (normal_valid x Hx)), Ecnt, Hz. cbn [negb Z.ltb Z.compare mbind outcome_bind]. rewrite Hf.
    unfold snapshot_check. destruct Hsame as (Ea & _ & Em & Ex & Ec). pose proof (dsok_xmins _ _ Hds). rewrite Ea, Em, Ex.
    replace (g <? xminAllDistributedSnapshots (dslm_ds (distribSnapshotWithLocalMapping sn))) with false by lia.
    replace (g <? ds_xmin (dslm_ds (distribSnapshotWithLocalMapping sn))) with false by lia.
    replace (ds_xmax (dslm_ds (distribSnapshotWithLocalMapping sn)) <=? g) with false by lia.
    destruct (dsok_array _ _ Hds') as [rest Earr]; [by intros -> ; apply elem_of_nil in Hin |].
    pose proof (progress_scan_ok g xids rest [] (dsok_sorted _ _ Hds')) as Escan. cbn [app] in Escan. change (zlen []) with 0 in Escan.
    pose proof (dsok_width _ _ Hds). pose proof (zlen_nonneg xids). rewrite (dsok_count _ _ Hds'), Earr.
    replace (Z.to_nat (u32 (zlen xids))) with (length xids) by (unfold u32, zlen in *; rewrite Z.mod_small; lia).
    rewrite Escan, (bool_decide_eq_true_2 _ Hin). cbn [mbind outcome_bind]. unfold save_mapped. rewrite Ecnt, Hz, Emap, Hnull, (dsok_count _ _ Hds').
    replace (0 <? zlen xids) with true; [done |]. destruct xids; [by apply elem_of_nil in Hin |]. rewrite zlen_cons. pose proof (zlen_nonneg xids). lia.
Qed.

Lemma restored_mapping_uninitialised_witness :
  exists h buf sn' (log : DistributedLog.DistributedLog),
    RestoreSnapshot (mkDslm (mkDS 0 0 0 0 0 None) 101 101 1 None) h buf = Ok sn' /\
    DistributedSnapshotWithLocalMapping_CommittedTest 100 (distribSnapshotWithLocalMapping sn') 101 false None log =
      Ok (DISTRIBUTEDSNAPSHOT_COMMITTED_INPROGRESS, distribSnapshotWithLocalMapping sn', None, log).
Proof.
  set (dslm := mkDslm (mkDS 10 1 10 12 1 (Some [10])) 0 0 0 (Some [0])).
  set (sn := mkSnapshot 100 110 0 (Some [103]) 1 None 0 false false false true 0 0 0 0 0 dslm).
  destruct (restored_mapping_uninitialised 100 sn [103] [] [10] (replicate 12 0) (mkDslm (mkDS 0 0 0 0 0 None) 101 101 1 None))
    as (h & buf & sn' & _ & Er & _ & _ & H & _); try done.
  - constructor; try done. intros _. by exists [].
  - constructor; try done; [intros _; by exists [] | by repeat constructor].
  - by repeat constructor.
  - by repeat constructor.
  - destruct three_commits_log as (log & _). exists h, buf, sn', log. split; [done |]. by apply H.
Defined.
