(* ===== verification/Clog.v ===== *)
(** * The commit log

    Models src/backend/access/transam/clog.c: two bits of status for each
    transaction, four transactions to a byte, on the buffers of [Slru].  A page
    is the list of its bytes; a byte is the unsigned reading of the [char] of
    the code, whose sign the masks remove.

    A page is updated under one lock, so [TransactionIdSetPageStatus] is one
    step for other processes, whether it takes the lock itself or a group
    leader does the work.  [TransactionIdSetTreeStatus] is a sequence of such
    steps; it is written over an abstract step, to be run on a log and to be
    observed between the steps.  The log positions of asynchronous commits
    (group_lsn) are left out, so commits are synchronous; assertions and trace
    points are left out too. *)

From stdpp Require Import base list gmap.
From S2P Require Import Prelude TransactionId Slru.

Definition TRANSACTION_STATUS_IN_PROGRESS : Z := 0.
Definition TRANSACTION_STATUS_COMMITTED : Z := 1.
Definition TRANSACTION_STATUS_ABORTED : Z := 2.
Definition TRANSACTION_STATUS_SUB_COMMITTED : Z := 3.

Definition CLOG_BITS_PER_XACT : Z := 2.
Definition CLOG_XACTS_PER_BYTE : Z := 4.
Definition CLOG_PAGE_BYTES : Z := 32768.
Definition CLOG_XACTS_PER_PAGE : Z := CLOG_PAGE_BYTES * CLOG_XACTS_PER_BYTE.
Definition CLOG_XACT_BITMASK : Z := Z.shiftl 1 CLOG_BITS_PER_XACT - 1.

Definition TransactionIdToPage (xid : Z) : Z := xid / CLOG_XACTS_PER_PAGE.
Definition TransactionIdToPgIndex (xid : Z) : Z := xid mod CLOG_XACTS_PER_PAGE.
Definition TransactionIdToByte (xid : Z) : Z := TransactionIdToPgIndex xid / CLOG_XACTS_PER_BYTE.
Definition TransactionIdToBIndex (xid : Z) : Z := xid mod CLOG_XACTS_PER_BYTE.

Definition CLOGPagePrecedes (page1 page2 : Z) : bool :=
  let xid1 := u32 (u32 page1 * CLOG_XACTS_PER_PAGE) in
  let xid1 := u32 (xid1 + (FirstNormalTransactionId + 1)) in
  let xid2 := u32 (u32 page2 * CLOG_XACTS_PER_PAGE) in
  let xid2 := u32 (xid2 + (FirstNormalTransactionId + 1)) in
  TransactionIdPrecedes xid1 xid2 && TransactionIdPrecedes xid1 (u32 (xid2 + CLOG_XACTS_PER_PAGE - 1)).

Definition zero_bytes : list Z := replicate (Z.to_nat CLOG_PAGE_BYTES) 0.

(** Not exported: the pages of another log may be lists of integers too. *)
#[local] Instance XactCtl : SlruCtl (list Z) := {|
  zero_page := zero_bytes;
  PagePrecedes := CLOGPagePrecedes
|}.

Notation Xact := (Slru (list Z)).

(** ** Bits of a page *)

Section Bits.
  Context (InRecovery : bool).

Definition bshift (xid : Z) : Z := TransactionIdToBIndex xid * CLOG_BITS_PER_XACT.

Definition byte_status (byte xid : Z) : Z := Z.land (Z.shiftr byte (bshift xid)) CLOG_XACT_BITMASK.

(** Works on the page in the slot that the caller found. *)
Definition TransactionIdSetStatusBit (xid status : Z) (page : list Z) : outcome (list Z) :=
  byte ← zget page (TransactionIdToByte xid);
  let curval := byte_status byte xid in
  if InRecovery && (status =? TRANSACTION_STATUS_SUB_COMMITTED) && (curval =? TRANSACTION_STATUS_COMMITTED) then Ok page
  else
    let byteval := Z.land byte (Z.lnot (Z.shiftl CLOG_XACT_BITMASK (bshift xid))) in
    let byteval := u8 (Z.lor byteval (Z.shiftl status (bshift xid))) in
    zset page (TransactionIdToByte xid) byteval.

(** The loop over [subxids[off]] to [subxids[off + n - 1]]. *)
Fixpoint set_bits (n : nat) (subxids : list Z) (off status : Z) (page : list Z) : outcome (list Z) :=
  match n with
  | O => Ok page
  | S n =>
      x ← zget subxids off;
      page ← TransactionIdSetStatusBit x status page;
      set_bits n subxids (off + 1) status page
  end.

(** ** Recording a status *)

Definition TransactionIdSetPageStatusInternal (xid nsubxids : Z) (subxids : list Z) (off status pageno : Z) (st : Xact) : outcome Xact :=
  '(slotno, st) ← SimpleLruReadPage InRecovery st pageno true;
  s ← zget (slots st) slotno;
  page ← (if TransactionIdIsValid xid then
            page ← (if status =? TRANSACTION_STATUS_COMMITTED
                    then set_bits (Z.to_nat nsubxids) subxids off TRANSACTION_STATUS_SUB_COMMITTED (page_buffer s)
                    else Ok (page_buffer s));
            TransactionIdSetStatusBit xid status page
          else Ok (page_buffer s));
  page ← set_bits (Z.to_nat nsubxids) subxids off status page;
  slot_update st slotno page.

(** The three ways the code takes differ in who holds the lock. *)
Definition TransactionIdSetPageStatus (xid nsubxids : Z) (subxids : list Z) (off status pageno : Z) (st : Xact) : outcome Xact :=
  TransactionIdSetPageStatusInternal xid nsubxids subxids off status pageno st.

(** A group leader's walk over the members of its group, each with its xid, its
    subtransactions, its status and its page. *)
Fixpoint group_update (members : list (Z * list Z * Z * Z)) (st : Xact) : outcome Xact :=
  match members with
  | [] => Ok st
  | (xid, subxids, status, pageno) :: members =>
      st ← TransactionIdSetPageStatusInternal xid (zlen subxids) subxids 0 status pageno st;
      group_update members st
  end.
End Bits.

(** ** Recording a tree *)

Section Tree.
  Context {T : Type} (set_page_status : Z -> Z -> list Z -> Z -> Z -> Z -> T -> outcome T).

(** The [do ... while] loop: how many ids from [i] on are on the page, and the
    page of the first that is not. *)
Fixpoint count_on_page (fuel : nat) (nsubxids : Z) (subxids : list Z) (base i pageno : Z) : outcome (Z * Z) :=
  match fuel with
  | O => Err "fuel"
  | S fuel =>
      x ← zget subxids (base + i);
      let nextpageno := TransactionIdToPage x in
      if negb (nextpageno =? pageno) then Ok (i, nextpageno)
      else if i + 1 <? nsubxids then count_on_page fuel nsubxids subxids base (i + 1) pageno
      else Ok (i + 1, nextpageno)
  end.

(** [subxids + base] is the array of the code. *)
Fixpoint by_pages (fuel : nat) (nsubxids : Z) (subxids : list Z) (base i offset pageno status : Z) (s : T) : outcome T :=
  if i <? nsubxids then
    match fuel with
    | O => Err "fuel"
    | S fuel =>
        '(i, nextpageno) ← count_on_page (S (Z.to_nat (nsubxids - i))) nsubxids subxids base i pageno;
        s ← set_page_status InvalidTransactionId (i - offset) subxids (base + offset) status pageno s;
        by_pages fuel nsubxids subxids base i i nextpageno status s
    end
  else Ok s.

Definition set_status_by_pages (nsubxids : Z) (subxids : list Z) (base status : Z) (s : T) : outcome T :=
  x ← zget subxids base;
  by_pages (Z.to_nat nsubxids) nsubxids subxids base 0 0 (TransactionIdToPage x) status s.

(** The first loop of [TransactionIdSetTreeStatus]. *)
Fixpoint count_same_page (fuel : nat) (nsubxids : Z) (subxids : list Z) (i pageno : Z) : outcome Z :=
  if i <? nsubxids then
    match fuel with
    | O => Err "fuel"
    | S fuel =>
        x ← zget subxids i;
        if negb (TransactionIdToPage x =? pageno) then Ok i
        else count_same_page fuel nsubxids subxids (i + 1) pageno
    end
  else Ok i.

Definition TransactionIdSetTreeStatus (xid nsubxids : Z) (subxids : list Z) (status : Z) (s : T) : outcome T :=
  let pageno := TransactionIdToPage xid in
  i ← count_same_page (Z.to_nat nsubxids) nsubxids subxids 0 pageno;
  if i =? nsubxids then set_page_status xid nsubxids subxids 0 status pageno s
  else
    let nsubxids_on_first_page := i in
    s ← (if status =? TRANSACTION_STATUS_COMMITTED
         then set_status_by_pages (nsubxids - nsubxids_on_first_page) subxids nsubxids_on_first_page
                TRANSACTION_STATUS_SUB_COMMITTED s
         else Ok s);
    let pageno := TransactionIdToPage xid in
    s ← set_page_status xid nsubxids_on_first_page subxids 0 status pageno s;
    set_status_by_pages (nsubxids - nsubxids_on_first_page) subxids nsubxids_on_first_page status s.
End Tree.

(** ** Looking up *)

Section Operations.
  Context (InRecovery : bool).

  Implicit Types (st : Xact).

Definition TransactionIdGetStatus (xid : Z) st : outcome (Z * Xact) :=
  '(slotno, st) ← SimpleLruReadPage_ReadOnly InRecovery st (TransactionIdToPage xid);
  s ← zget (slots st) slotno;
  byte ← zget (page_buffer s) (TransactionIdToByte xid);
  Ok (byte_status byte xid, st).

(** The scan of one page downwards, [n] entries from [xid] on. *)
Fixpoint scan_bytes (n : nat) (page : list Z) (xid : Z) : outcome (option (Z * Z)) :=
  match n with
  | O => Ok None
  | S n =>
      byte ← zget page (TransactionIdToByte xid);
      let status := byte_status byte xid in
      if negb (status =? TRANSACTION_STATUS_IN_PROGRESS) then Ok (Some (xid, status)) else scan_bytes n page (xid - 1)
  end.

Fixpoint scan_clog (fuel : nat) (highXid : Z) st : outcome (bool * Z * Z * Xact) :=
  match fuel with
  | O => Err "fuel"
  | S fuel =>
      let pageno := TransactionIdToPage highXid in
      let lowXid := u32 (pageno * CLOG_XACTS_PER_PAGE) in
      let lowXid := if lowXid =? InvalidTransactionId then FirstNormalTransactionId else lowXid in
      if negb (SimpleLruDoesPhysicalPageExist st pageno) then Ok (false, InvalidTransactionId, TRANSACTION_STATUS_IN_PROGRESS, st)
      else
        '(slotno, st) ← SimpleLruReadPage InRecovery st pageno false;
        s ← zget (slots st) slotno;
        found ← scan_bytes (Z.to_nat (highXid - lowXid + 1)) (page_buffer s) highXid;
        match found with
        | Some (xid, status) => Ok (true, xid, status, st)
        | None =>
            if lowXid =? FirstNormalTransactionId then Ok (false, InvalidTransactionId, TRANSACTION_STATUS_IN_PROGRESS, st)
            else scan_clog fuel (lowXid - 1) st
        end
  end.

(** The result, the new [indexXid] and the status. *)
Definition CLOGScanForPrevStatus (indexXid : Z) st : outcome (bool * Z * Z * Xact) :=
  if indexXid =? InvalidTransactionId then Ok (false, indexXid, TRANSACTION_STATUS_IN_PROGRESS, st)
  else
    let highXid := indexXid - 1 in
    if highXid <? FirstNormalTransactionId then Ok (false, indexXid, TRANSACTION_STATUS_IN_PROGRESS, st)
    else scan_clog (S (Z.to_nat (TransactionIdToPage highXid))) highXid st.

(** ** Start-up, growth, truncation and replay *)

Definition ZeroCLOGPage (pageno : Z) st : outcome (Z * Xact) := SimpleLruZeroPage st pageno.

Definition BootStrapCLOG st : outcome Xact :=
  '(slotno, st) ← ZeroCLOGPage 0 st;
  SimpleLruWritePage st slotno.

Definition with_latest_page (pageno : Z) st : Xact := mkSlru (slots st) (cur_lru_count st) pageno (files st).

Definition StartupCLOG (nextXid : Z) st : Xact := with_latest_page (TransactionIdToPage nextXid) st.

(** The part of the page of [nextXid] from it on becomes zeroes. *)
Definition trim_page (xid : Z) (page : list Z) : outcome (list Z) :=
  let byteno := TransactionIdToByte xid in
  byte ← zget page byteno;
  page ← zset page byteno (Z.land byte (Z.shiftl 1 (bshift xid) - 1));
  mem_write page (byteno + 1) (replicate (Z.to_nat (CLOG_PAGE_BYTES - byteno - 1)) 0).

Definition TrimCLOG (nextXid : Z) st : outcome Xact :=
  let pageno := TransactionIdToPage nextXid in
  let st := with_latest_page pageno st in
  if negb (TransactionIdToPgIndex nextXid =? 0) then
    '(slotno, st) ← SimpleLruReadPage InRecovery st pageno false;
    s ← zget (slots st) slotno;
    page ← trim_page nextXid (page_buffer s);
    slot_update st slotno page
  else Ok st.

Definition ShutdownCLOG st : outcome Xact := SimpleLruFlush st.

Definition CheckPointCLOG st : outcome Xact := SimpleLruFlush st.

Definition ExtendCLOG (newestXact : Z) st : outcome Xact :=
  if negb (TransactionIdToPgIndex newestXact =? 0) && negb (TransactionIdEquals newestXact FirstNormalTransactionId) then Ok st
  else
    '(_, st) ← ZeroCLOGPage (TransactionIdToPage newestXact) st;
    Ok st.

Definition AdvanceOldestClogXid (oldestClogXid oldest_datfrozenxid : Z) : Z :=
  if TransactionIdPrecedes oldestClogXid oldest_datfrozenxid then oldest_datfrozenxid else oldestClogXid.

(** The log and the new [oldestClogXid]. *)
Definition TruncateCLOG (oldestXact oldestClogXid : Z) st : outcome (Z * Xact) :=
  let cutoffPage := TransactionIdToPage oldestXact in
  if negb (SlruScanDirCbReportPresence st cutoffPage) then Ok (oldestClogXid, st)
  else
    let oldestClogXid := AdvanceOldestClogXid oldestClogXid oldestXact in
    st ← SimpleLruTruncate st cutoffPage;
    Ok (oldestClogXid, st).

Inductive ClogRecord :=
| CLOG_ZEROPAGE (pageno : Z)
| CLOG_TRUNCATE (pageno oldestXact : Z).

Definition clog_redo (record : ClogRecord) (oldestClogXid : Z) st : outcome (Z * Xact) :=
  match record with
  | CLOG_ZEROPAGE pageno =>
      '(slotno, st) ← ZeroCLOGPage pageno st;
      st ← SimpleLruWritePage st slotno;
      Ok (oldestClogXid, st)
  | CLOG_TRUNCATE pageno oldestXact =>
      let st := with_latest_page pageno st in
      let oldestClogXid := AdvanceOldestClogXid oldestClogXid oldestXact in
      st ← SimpleLruTruncate st pageno;
      Ok (oldestClogXid, st)
  end.
End Operations.

(** ** Bits *)

Lemma bitmask : CLOG_XACT_BITMASK = 3.
Proof. reflexivity. Qed.

Lemma clog_page_bytes : CLOG_PAGE_BYTES = 32768.
Proof. reflexivity. Qed.

Lemma clog_per_page : CLOG_XACTS_PER_PAGE = 131072.
Proof. reflexivity. Qed.

Lemma zero_bytes_length : length zero_bytes = Z.to_nat CLOG_PAGE_BYTES.
Proof. apply length_replicate. Qed.

Lemma zero_bytes_lookup i : 0 <= i < CLOG_PAGE_BYTES -> zero_bytes !! Z.to_nat i = Some 0.
Proof. intros Hi. apply lookup_replicate_2. lia. Qed.

#[global] Opaque CLOG_PAGE_BYTES zero_bytes.

Lemma testbit_3 n : Z.testbit 3 n = (0 <=? n) && (n <? 2).
Proof.
  destruct (Z.leb_spec 0 n) as [H | H]; cbn [andb]; [| by apply Z.testbit_neg_r].
  destruct (Z.ltb_spec n 2) as [H2 | H2].
  - assert (Hn : n = 0 \/ n = 1) by lia. by destruct Hn as [-> | ->].
  - by apply (ubits_testbit 2).
Qed.

(** The two bits of one transaction in a byte, and those of the others. *)
Lemma set_bits_of_byte byte v i j :
  0 <= i < 4 -> 0 <= j < 4 -> ubits 2 v ->
  Z.land (Z.shiftr (u8 (Z.lor (Z.land byte (Z.lnot (Z.shiftl 3 (i * 2)))) (Z.shiftl v (i * 2)))) (j * 2)) 3 =
  if j =? i then v else Z.land (Z.shiftr byte (j * 2)) 3.
Proof.
  intros Hi Hj Hv. apply bits_ext. intros n Hn. unfold u8. destruct (Z.lt_ge_cases n 2) as [Hlt | Hge].
  - rewrite Z.land_spec, testbit_3, Z.shiftr_spec, mod_pow2_testbit, Z.lor_spec, Z.land_spec, Z.lnot_spec, !Z.shiftl_spec, testbit_3 by lia.
    replace (0 <=? n) with true by lia. replace (n <? 2) with true by lia. replace (n + j * 2 <? 8) with true by lia.
    rewrite andb_true_r. cbn [andb]. destruct (Z.eqb_spec j i) as [-> | Hne].
    + replace (n + i * 2 - i * 2) with n by lia. replace (0 <=? n) with true by lia. replace (n <? 2) with true by lia.
      by rewrite andb_false_r.
    + rewrite Z.land_spec, testbit_3, Z.shiftr_spec by lia. replace (0 <=? n) with true by lia. replace (n <? 2) with true by lia.
      rewrite !andb_true_r. replace ((0 <=? n + j * 2 - i * 2) && (n + j * 2 - i * 2 <? 2)) with false by lia.
      cbn [negb]. rewrite andb_true_r. destruct (Z.lt_ge_cases (n + j * 2 - i * 2) 0) as [Hneg | Hpos].
      * by rewrite (Z.testbit_neg_r v), orb_false_r by done.
      * by rewrite (ubits_testbit 2 v), orb_false_r by (done || lia).
  - rewrite Z.land_spec, (testbit_3 n). replace (n <? 2) with false by lia. rewrite !andb_false_r.
    destruct (j =? i); [by rewrite (ubits_testbit 2 v) by (done || lia) |].
    rewrite Z.land_spec, testbit_3. replace (n <? 2) with false by lia. by rewrite !andb_false_r.
Qed.

(** The status of a transaction on its page. *)
Definition page_status_of (page : list Z) (x : Z) : option Z :=
  byte ← page !! Z.to_nat (TransactionIdToByte x);
  Some (byte_status byte x).

Definition full (page : list Z) : Prop := length page = Z.to_nat CLOG_PAGE_BYTES.

Lemma byte_bounds x : 0 <= TransactionIdToByte x < CLOG_PAGE_BYTES.
Proof. unfold TransactionIdToByte, TransactionIdToPgIndex. rewrite clog_per_page, clog_page_bytes. unfold CLOG_XACTS_PER_BYTE. zlia. Qed.

Lemma byte_of x y :
  TransactionIdToPage x = TransactionIdToPage y -> TransactionIdToByte x = TransactionIdToByte y ->
  TransactionIdToBIndex x = TransactionIdToBIndex y -> x = y.
Proof.
  unfold TransactionIdToPage, TransactionIdToByte, TransactionIdToPgIndex, TransactionIdToBIndex. rewrite clog_per_page.
  unfold CLOG_XACTS_PER_BYTE. intros. zlia.
Qed.

Lemma set_status_bit_ok page x v :
  full page -> ubits 2 v ->
  exists page', TransactionIdSetStatusBit false x v page = Ok page' /\ full page' /\
    forall y, TransactionIdToPage y = TransactionIdToPage x ->
      page_status_of page' y = if y =? x then Some v else page_status_of page y.
Proof.
  intros Hf Hv. unfold full in *. pose proof (byte_bounds x) as Hb. unfold TransactionIdSetStatusBit.
  destruct (lookup_lt_is_Some_2 page (Z.to_nat (TransactionIdToByte x))) as [b Eb]; [lia |].
  rewrite (zget_lookup _ _ b) by (lia || done). cbn [mbind outcome_bind andb].
  rewrite zset_ok by (unfold zlen; lia). eexists. split; [done |]. split; [by rewrite length_insert |]. intros y Ep.
  assert (Hi : forall z, 0 <= TransactionIdToBIndex z < 4) by (intros z; by apply Z.mod_pos_bound).
  unfold page_status_of. destruct (Z.eq_dec (TransactionIdToByte y) (TransactionIdToByte x)) as [Ey | Ny].
  - rewrite Ey, list_lookup_insert_eq by lia. cbn [mbind option_bind]. unfold byte_status, bshift. rewrite bitmask.
    unfold CLOG_BITS_PER_XACT. rewrite set_bits_of_byte by done. destruct (Z.eqb_spec (TransactionIdToBIndex y) (TransactionIdToBIndex x)) as [Ei | Ni].
    + by rewrite (byte_of y x Ep Ey Ei), Z.eqb_refl.
    + replace (y =? x) with false by (symmetry; apply Z.eqb_neq; congruence). rewrite Eb. done.
  - pose proof (byte_bounds y). rewrite list_lookup_insert_ne by lia. by replace (y =? x) with false by (symmetry; apply Z.eqb_neq; congruence).
Qed.

(** ** The log as a map *)

Definition status_at (st : Xact) (x : Z) : option Z :=
  page ← slru_content st (TransactionIdToPage x);
  page_status_of page x.

Definition clog_ok (st : Xact) : Prop :=
  slru_ok st /\ forall p page, 0 <= p -> slru_content st p = Some page -> full page.

(** The transactions of [xs] get the status [v]; what is known of others stays. *)
Definition recorded (xs : list Z) (v : Z) (st st' : Xact) : Prop :=
  clog_ok st' /\ (forall x, x ∈ xs -> status_at st' x = Some v) /\
  forall y e, 0 <= y -> y ∉ xs -> status_at st y = Some e -> status_at st' y = Some e.

Lemma clog_page_nonneg x : 0 <= x -> 0 <= TransactionIdToPage x.
Proof. unfold TransactionIdToPage. rewrite clog_per_page. intros. zlia. Qed.

Lemma set_bits_ok p xs v : forall pre post page,
  full page -> ubits 2 v -> (forall x, x ∈ xs -> TransactionIdToPage x = p) ->
  exists page', set_bits false (length xs) (pre ++ xs ++ post) (zlen pre) v page = Ok page' /\ full page' /\
    forall y, TransactionIdToPage y = p -> page_status_of page' y = if bool_decide (y ∈ xs) then Some v else page_status_of page y.
Proof.
  induction xs as [| x xs IH]; intros pre post page Hf Hv Hp; cbn [length set_bits]; [by exists page |].
  change ((x :: xs) ++ post) with (x :: (xs ++ post)). rewrite zget_mid. cbn [mbind outcome_bind].
  destruct (set_status_bit_ok page x v Hf Hv) as (page1 & -> & Hf1 & H1). cbn [mbind outcome_bind].
  destruct (IH (pre ++ [x]) post page1 Hf1 Hv) as (page2 & E2 & Hf2 & H2); [intros y Hy; apply Hp; by right |].
  rewrite <- app_assoc, zlen_app in E2. cbn [app] in E2. change (zlen [x]) with 1 in E2. rewrite E2. exists page2. split_and!; try done.
  assert (Hx : TransactionIdToPage x = p) by (apply Hp; by left). intros y Hy. rewrite H2, H1 by congruence.
  destruct (Z.eqb_spec y x) as [-> | Hne].
  - rewrite (bool_decide_eq_true_2 (x ∈ x :: xs)) by (by left). by destruct (bool_decide _).
  - by rewrite (bool_decide_ext (y ∈ x :: xs) (y ∈ xs)) by (rewrite elem_of_cons; naive_solver).
Qed.

Lemma recorded_extends xs v st st1 st' : extends st st1 -> recorded xs v st1 st' -> recorded xs v st st'.
Proof.
  intros He (Hok & Hs & Hk). split_and!; try done. intros y e Hy Hn Hst. apply Hk; [done | done |]. revert Hst. unfold status_at.
  destruct (He _ (clog_page_nonneg y Hy)) as [-> | [-> _]]; done.
Qed.

Lemma clog_ok_extends st st1 : clog_ok st -> slru_ok st1 -> extends st st1 -> clog_ok st1.
Proof.
  intros [_ Hf] Hok He. split; [done |]. intros p page Hp. destruct (He p Hp) as [-> | [_ ->]]; [by apply Hf |].
  intros [= <-]. apply zero_bytes_length.
Qed.

(** Storing a changed page. *)
Lemma store_page_ok st p k s xs v page :
  clog_ok st -> loaded st p k s -> 0 <= p -> full page -> (forall x, x ∈ xs -> TransactionIdToPage x = p) ->
  (forall y, TransactionIdToPage y = p -> page_status_of page y = if bool_decide (y ∈ xs) then Some v else page_status_of (page_buffer s) y) ->
  exists st', slot_update st (Z.of_nat k) page = Ok st' /\ recorded xs v st st'.
Proof.
  intros [Hok Hf] Hl Hp Hpage Hxs Hst. destruct (slot_update_ok st p k s page Hok Hl) as (s' & st' & E & Hok' & _ & _ & Hc & _).
  pose proof (loaded_content st p k s Hok Hl) as Hcont. exists st'. split; [done |]. split; [split; [done |] |]; [| split].
  - intros q pg Hq. rewrite Hc. destruct (q =? p); [by intros [= <-] | by apply Hf].
  - intros x Hx. unfold status_at. rewrite Hc, (Hxs x Hx), Z.eqb_refl. cbn [mbind option_bind].
    by rewrite Hst, bool_decide_eq_true_2 by auto.
  - intros y e Hy Hn. unfold status_at. rewrite Hc. destruct (Z.eqb_spec (TransactionIdToPage y) p) as [Ep | _]; [| done].
    rewrite Ep, Hcont. cbn [mbind option_bind]. by rewrite Hst, bool_decide_eq_false_2.
Qed.

(** [xid], when it is valid, and the subtransactions of one page. *)
Definition targets (xid : Z) (xs : list Z) : list Z := if TransactionIdIsValid xid then xid :: xs else xs.

Lemma set_targets_ok p xid xs v pre post page :
  full page -> ubits 2 v -> (forall x, x ∈ targets xid xs -> TransactionIdToPage x = p) ->
  exists page',
    (page ← (if TransactionIdIsValid xid then
            page ← (if v =? TRANSACTION_STATUS_COMMITTED
                    then set_bits false (length xs) (pre ++ xs ++ post) (zlen pre) TRANSACTION_STATUS_SUB_COMMITTED page
                    else Ok page);
            TransactionIdSetStatusBit false xid v page
          else Ok page);
     set_bits false (length xs) (pre ++ xs ++ post) (zlen pre) v page) = Ok page' /\ full page' /\
    forall y, TransactionIdToPage y = p -> page_status_of page' y = if bool_decide (y ∈ targets xid xs) then Some v else page_status_of page y.
Proof.
  intros Hf Hv Hp. unfold targets in *. destruct (TransactionIdIsValid xid); [| by apply set_bits_ok].
  assert (H1 : exists page1, (if v =? TRANSACTION_STATUS_COMMITTED
      then set_bits false (length xs) (pre ++ xs ++ post) (zlen pre) TRANSACTION_STATUS_SUB_COMMITTED page else Ok page) = Ok page1 /\
      full page1 /\ forall y, TransactionIdToPage y = p -> y ∉ xs -> page_status_of page1 y = page_status_of page y).
  { destruct (v =? _); [| by exists page].
    destruct (set_bits_ok p xs TRANSACTION_STATUS_SUB_COMMITTED pre post page Hf ltac:(done)) as (page1 & -> & Hf1 & H1).
    { intros x Hx. apply Hp. by right. }
    exists page1. split_and!; try done. intros y Hy Hn. by rewrite H1, bool_decide_eq_false_2. }
  destruct H1 as (page1 & -> & Hf1 & H1). cbn [mbind outcome_bind].
  destruct (set_status_bit_ok page1 xid v Hf1 Hv) as (page2 & -> & Hf2 & H2). cbn [mbind outcome_bind].
  destruct (set_bits_ok p xs v pre post page2 Hf2 Hv) as (page3 & -> & Hf3 & H3); [intros x Hx; apply Hp; by right |].
  exists page3. split_and!; try done. assert (Hx : TransactionIdToPage xid = p) by (apply Hp; by left). intros y Hy.
  rewrite H3, H2 by congruence. destruct (decide (y ∈ xs)) as [Hin | Hn].
  - by rewrite !bool_decide_eq_true_2 by (done || by right).
  - rewrite (bool_decide_eq_false_2 (y ∈ xs)) by done. destruct (Z.eqb_spec y xid) as [-> | Hne].
    + by rewrite bool_decide_eq_true_2 by (by left).
    + rewrite bool_decide_eq_false_2; [by apply H1 |]. rewrite elem_of_cons. naive_solver.
Qed.

Lemma set_page_status_ok st xid xs v p pre post :
  clog_ok st -> ubits 2 v -> 0 <= p -> (exists page, slru_content st p = Some page) ->
  (forall x, x ∈ targets xid xs -> TransactionIdToPage x = p) ->
  exists st', TransactionIdSetPageStatus false xid (zlen xs) (pre ++ xs ++ post) (zlen pre) v p st = Ok st' /\ recorded (targets xid xs) v st st'.
Proof.
  intros Hst Hv Hp [pg Hpg] Hxs. unfold TransactionIdSetPageStatus, TransactionIdSetPageStatusInternal.
  destruct (read_page_ok st p true (proj1 Hst) Hp) as [(k & s & st1 & -> & Hok & Hext & _ & _ & Hl) | (msg & _ & En)]; [| congruence].
  cbn [mbind outcome_bind]. pose proof Hl as (Hk & _). rewrite (zget_nat _ _ _ Hk). cbn [mbind outcome_bind].
  pose proof (clog_ok_extends st st1 Hst Hok Hext) as Hst1. pose proof (loaded_content st1 p k s Hok Hl) as Hc.
  destruct (set_targets_ok p xid xs v pre post (page_buffer s) (proj2 Hst1 p _ Hp Hc) Hv Hxs) as (page & E & Hfull & Hpage).
  replace (Z.to_nat (zlen xs)) with (length xs) by (unfold zlen; lia).
  destruct (store_page_ok st1 p k s (targets xid xs) v page Hst1 Hl Hp Hfull Hxs Hpage) as (st' & E' & Hrec).
  exists st'. split; [| by eapply recorded_extends]. clear Hpage.
  destruct (TransactionIdIsValid xid); cbn [mbind outcome_bind] in E |- *.
  - destruct (if v =? _ then _ else Ok (page_buffer s)) as [p1 | |]; cbn [mbind outcome_bind] in E |- *; [| done | done].
    destruct (TransactionIdSetStatusBit false xid v p1) as [p2 | |]; cbn [mbind outcome_bind] in E |- *; [| done | done].
    rewrite E. done.
  - rewrite E. done.
Qed.

(** ** Recording a tree, page by page *)

Lemma span_page p xs :
  exists c r, xs = c ++ r /\ (forall x, x ∈ c -> TransactionIdToPage x = p) /\ (forall x r', r = x :: r' -> TransactionIdToPage x <> p).
Proof.
  induction xs as [| x xs (c & r & -> & Hc & Hr)]; [exists [], []; split_and!; set_solver |].
  destruct (Z.eq_dec (TransactionIdToPage x) p) as [Ex | Nx].
  - exists (x :: c), r. split_and!; [done | | done]. intros y [-> | Hy]%elem_of_cons; auto.
  - exists [], (x :: c ++ r). split_and!; [done | set_solver | by intros y r' [= <- _]].
Qed.

Lemma count_same_page_ok p c : forall fuel pre r post,
  (length c + length r <= fuel)%nat -> (forall x, x ∈ c -> TransactionIdToPage x = p) -> (forall x r', r = x :: r' -> TransactionIdToPage x <> p) ->
  count_same_page fuel (zlen pre + zlen c + zlen r) (pre ++ c ++ r ++ post) (zlen pre) p = Ok (zlen pre + zlen c).
Proof.
  induction c as [| x c IH]; intros fuel pre r post Hf Hc Hr.
  - change (zlen []) with 0. rewrite Z.add_0_r. cbn [app]. destruct r as [| y r].
    + change (zlen []) with 0. destruct fuel; cbn [count_same_page]; by replace (zlen pre <? zlen pre + 0) with false by lia.
    + rewrite zlen_cons. pose proof (zlen_nonneg r). destruct fuel as [| fuel]; [cbn in Hf; lia |]. cbn [count_same_page].
      replace (zlen pre <? zlen pre + (zlen r + 1)) with true by lia. cbn [app]. rewrite zget_mid. cbn [mbind outcome_bind].
      replace (TransactionIdToPage y =? p) with false by (symmetry; apply Z.eqb_neq; by eapply Hr). done.
  - rewrite zlen_cons. pose proof (zlen_nonneg c). pose proof (zlen_nonneg r). destruct fuel as [| fuel]; [cbn in Hf; lia |]. cbn [count_same_page].
    replace (zlen pre <? zlen pre + (zlen c + 1) + zlen r) with true by lia. cbn [app]. rewrite zget_mid. cbn [mbind outcome_bind].
    rewrite (Hc x) by (by left). rewrite Z.eqb_refl. cbn [negb].
    specialize (IH fuel (pre ++ [x]) r post). rewrite zlen_app, <- app_assoc in IH. cbn [app] in IH. change (zlen [x]) with 1 in IH.
    replace (zlen pre + (zlen c + 1) + zlen r) with (zlen pre + 1 + zlen c + zlen r) by lia.
    rewrite IH; [f_equal; lia | cbn in Hf; lia | | done]. intros y Hy. apply Hc. by right.
Qed.

Lemma count_on_page_ok p c : forall fuel pre a r post,
  (length c <= fuel)%nat -> c <> [] -> (forall x, x ∈ c -> TransactionIdToPage x = p) -> (forall x r', r = x :: r' -> TransactionIdToPage x <> p) ->
  exists q, count_on_page (S fuel) (zlen a + zlen c + zlen r) (pre ++ a ++ c ++ r ++ post) (zlen pre) (zlen a) p = Ok (zlen a + zlen c, q) /\
    forall x r', r = x :: r' -> TransactionIdToPage x = q.
Proof.
  induction c as [| x c IH]; intros fuel pre a r post Hf Hne Hc Hr; [done |]. rewrite zlen_cons. pose proof (zlen_nonneg c). pose proof (zlen_nonneg r).
  assert (Hx : TransactionIdToPage x = p) by (apply Hc; by left). cbn [count_on_page app].
  replace (zlen pre + zlen a) with (zlen (pre ++ a)) by (by rewrite zlen_app). rewrite (app_assoc pre a), zget_mid. cbn [mbind outcome_bind].
  rewrite Hx, Z.eqb_refl. cbn [negb]. destruct c as [| y c].
  - change (zlen []) with 0. destruct r as [| z r].
    + change (zlen []) with 0. replace (zlen a + 1 <? zlen a + (0 + 1) + 0) with false by lia. exists p. split; [f_equal; f_equal; lia | done].
    + rewrite zlen_cons. pose proof (zlen_nonneg r). replace (zlen a + 1 <? zlen a + (0 + 1) + (zlen r + 1)) with true by lia.
      destruct fuel as [| fuel]; [cbn in Hf; lia |]. cbn [count_on_page app].
      replace (zlen pre + (zlen a + 1)) with (zlen ((pre ++ a) ++ [x])) by (rewrite !zlen_app; change (zlen [x]) with 1; lia).
      replace ((pre ++ a) ++ x :: z :: r ++ post) with (((pre ++ a) ++ [x]) ++ z :: r ++ post) by (by rewrite <- !app_assoc).
      rewrite zget_mid. cbn [mbind outcome_bind].
      replace (TransactionIdToPage z =? p) with false by (symmetry; apply Z.eqb_neq; by eapply Hr). cbn [negb].
      eexists. split; [f_equal; f_equal; lia |]. by intros ? ? [= -> _].
  - replace (zlen a + 1 <? zlen a + (zlen (y :: c) + 1) + zlen r) with true by (rewrite zlen_cons; pose proof (zlen_nonneg c); lia).
    destruct fuel as [| fuel]; [cbn in Hf; lia |].
    destruct (IH fuel pre (a ++ [x]) r post) as (q & E & Hq); [cbn in Hf |- *; lia | done | intros z Hz; apply Hc; by right | done |].
    exists q. split; [| done]. rewrite zlen_app, <- app_assoc in E. change (zlen [x]) with 1 in E. cbn [app] in E. rewrite <- app_assoc. cbn [app].
    replace (zlen a + (zlen (y :: c) + 1) + zlen r) with (zlen a + 1 + zlen (y :: c) + zlen r) by lia. rewrite E. f_equal. f_equal. lia.
Qed.

(** What holds after each call holds after the loop, and what the calls do adds up. *)
Section Rule.
  Context {T : Type} (set_page : Z -> Z -> list Z -> Z -> Z -> Z -> T -> outcome T) (v : Z).
  Context (pre xs post : list Z) (Inv : T -> Prop) (Does : list Z -> T -> T -> Prop).
  Context (Hnil : forall s, Inv s -> Does [] s s) (Happ : forall a b s s1 s2, Does a s s1 -> Does b s1 s2 -> Does (a ++ b) s s2).
  Context (Hset : forall l c r p s, pre ++ xs ++ post = l ++ c ++ r -> (forall x, x ∈ c -> x ∈ xs /\ TransactionIdToPage x = p) -> c <> [] -> Inv s ->
             exists s', set_page InvalidTransactionId (zlen c) (l ++ c ++ r) (zlen l) v p s = Ok s' /\ Inv s' /\ Does c s s').

Lemma by_pages_rule fuel : forall a b p s,
  xs = a ++ b -> (length b <= fuel)%nat -> (forall x b', b = x :: b' -> TransactionIdToPage x = p) -> Inv s ->
  exists s', by_pages set_page fuel (zlen xs) (pre ++ xs ++ post) (zlen pre) (zlen a) (zlen a) p v s = Ok s' /\ Inv s' /\ Does b s s'.
Proof.
  induction fuel as [| fuel IH]; intros a b p s Exs Hf Hp Hs.
  - destruct b; [| cbn in Hf; lia]. cbn [by_pages]. rewrite app_nil_r in Exs. subst a. replace (zlen xs <? zlen xs) with false by lia. exists s. auto.
  - cbn [by_pages]. destruct b as [| x b].
    { rewrite app_nil_r in Exs. subst a. replace (zlen xs <? zlen xs) with false by lia. exists s. auto. }
    pose proof (zlen_nonneg b). assert (Elen : zlen xs = zlen a + zlen (x :: b)) by (rewrite Exs; apply zlen_app).
    replace (zlen a <? zlen xs) with true by (rewrite Elen, zlen_cons; lia).
    destruct (span_page p (x :: b)) as (c & r & Ecr & Hc & Hr).
    assert (Hcne : c <> []). { intros ->. cbn [app] in Ecr. destruct r as [| y r]; [done |]. injection Ecr as <- <-. by eapply Hr, Hp. }
    assert (Hlen : (length c + length r = length (x :: b))%nat) by (rewrite Ecr, length_app; done).
    destruct (count_on_page_ok p c (Z.to_nat (zlen xs - zlen a)) pre a r post) as (q & E & Hq); [unfold zlen in *; lia | done | done | done |].
    replace (zlen a + zlen c + zlen r) with (zlen xs) in E by (rewrite Elen, Ecr, zlen_app; lia).
    assert (Earr : pre ++ a ++ c ++ r ++ post = pre ++ xs ++ post) by (rewrite Exs, Ecr, <- !app_assoc; done).
    rewrite Earr in E. rewrite E. cbn [mbind outcome_bind].
    assert (Earr2 : pre ++ xs ++ post = (pre ++ a) ++ c ++ (r ++ post)) by (rewrite <- Earr, <- !app_assoc; done).
    destruct (Hset (pre ++ a) c (r ++ post) p s Earr2) as (s1 & Es & Hs1 & Hdo); [| done | done |].
    { intros y Hy. split; [| by apply Hc]. rewrite Exs, Ecr. set_solver. }
    replace (zlen a + zlen c - zlen a) with (zlen c) by lia. rewrite <- Earr2, zlen_app in Es. rewrite Es. cbn [mbind outcome_bind].
    destruct (IH (a ++ c) r q s1) as (s2 & E2 & Hs2 & Hdo2); [by rewrite <- app_assoc, <- Ecr | | done | done |].
    { destruct c; [done |]. cbn in Hlen, Hf. lia. }
    rewrite zlen_app in E2. exists s2. split; [done |]. split; [done |]. rewrite Ecr. by eapply Happ.
Qed.

Lemma set_status_by_pages_rule s :
  xs <> [] -> Inv s -> exists s', set_status_by_pages set_page (zlen xs) (pre ++ xs ++ post) (zlen pre) v s = Ok s' /\ Inv s' /\ Does xs s s'.
Proof.
  intros Hne Hs. assert (Hx : exists x xs', xs = x :: xs') by (destruct xs; [done | eauto]). destruct Hx as (x & xs' & Exs).
  unfold set_status_by_pages. assert (Ex : zget (pre ++ xs ++ post) (zlen pre) = Ok x) by (rewrite Exs; apply zget_mid).
  rewrite Ex. cbn [mbind outcome_bind]. apply (by_pages_rule (Z.to_nat (zlen xs)) [] xs (TransactionIdToPage x) s); [done | unfold zlen; lia | | done].
  rewrite Exs. by intros ? ? [= -> _].
Qed.
End Rule.

(** ** A commit, observed between its steps *)

(** Keeps the states after each step. *)
Definition observed (set_page : Z -> Z -> list Z -> Z -> Z -> Z -> Xact -> outcome Xact)
    (xid n : Z) (subxids : list Z) (off status pageno : Z) (s : list Xact * Xact) : outcome (list Xact * Xact) :=
  st ← set_page xid n subxids off status pageno (snd s);
  Ok (fst s ++ [st], st).

Section Project.
  Context (set_page : Z -> Z -> list Z -> Z -> Z -> Z -> Xact -> outcome Xact).

Lemma observed_step xid n subxids off v p s s' :
  observed set_page xid n subxids off v p s = Ok s' -> set_page xid n subxids off v p (snd s) = Ok (snd s').
Proof. unfold observed. destruct (set_page _ _ _ _ _ _ _); [| done | done]. by intros [= <-]. Qed.

Lemma observed_by_pages fuel : forall n subxids base i off p v s s',
  by_pages (observed set_page) fuel n subxids base i off p v s = Ok s' -> by_pages set_page fuel n subxids base i off p v (snd s) = Ok (snd s').
Proof.
  induction fuel as [| fuel IH]; intros n subxids base i off p v s s'; cbn [by_pages]; destruct (i <? n); [done | by intros [= <-] | | by intros [= <-]].
  destruct (count_on_page _ _ _ _ _ _) as [[j q] | |]; [| done | done]. cbn [mbind outcome_bind].
  destruct (observed set_page _ _ _ _ _ _ s) as [s1 | |] eqn:E1; [| done | done]. rewrite (observed_step _ _ _ _ _ _ _ _ E1). apply IH.
Qed.

Lemma observed_set_by_pages n subxids base v s s' :
  set_status_by_pages (observed set_page) n subxids base v s = Ok s' -> set_status_by_pages set_page n subxids base v (snd s) = Ok (snd s').
Proof. unfold set_status_by_pages. destruct (zget subxids base); [| done | done]. apply observed_by_pages. Qed.

Lemma observed_tree xid n subxids v s s' :
  TransactionIdSetTreeStatus (observed set_page) xid n subxids v s = Ok s' -> TransactionIdSetTreeStatus set_page xid n subxids v (snd s) = Ok (snd s').
Proof.
  unfold TransactionIdSetTreeStatus. destruct (count_same_page _ _ _ _ _) as [i | |]; [| done | done]. cbn [mbind outcome_bind].
  destruct (i =? n); [apply observed_step |]. destruct (v =? TRANSACTION_STATUS_COMMITTED).
  - destruct (set_status_by_pages (observed set_page) _ _ _ _ s) as [s1 | |] eqn:E1; [| done | done]. rewrite (observed_set_by_pages _ _ _ _ _ _ E1). cbn [mbind outcome_bind].
    destruct (observed set_page _ _ _ _ _ _ s1) as [s2 | |] eqn:E2; [| done | done]. rewrite (observed_step _ _ _ _ _ _ _ _ E2). apply observed_set_by_pages.
  - cbn [mbind outcome_bind].
    destruct (observed set_page _ _ _ _ _ _ s) as [s2 | |] eqn:E2; [| done | done]. rewrite (observed_step _ _ _ _ _ _ _ _ E2). apply observed_set_by_pages.
Qed.
End Project.

Lemma recorded_nil v st : clog_ok st -> recorded [] v st st.
Proof. intros H. split_and!; try done. set_solver. Qed.

Lemma recorded_app a b v st st1 st2 :
  (forall x, x ∈ a -> 0 <= x) -> recorded a v st st1 -> recorded b v st1 st2 -> recorded (a ++ b) v st st2.
Proof.
  intros Ha (_ & Hs1 & Hk1) (Hok & Hs2 & Hk2). split_and!; [done | |].
  - intros x [Hx | Hx]%elem_of_app; [| auto]. destruct (decide (x ∈ b)); [auto |]. apply Hk2; auto.
  - intros y e Hy Hn He. rewrite elem_of_app in Hn. apply Hk2; [done | tauto |]. apply Hk1; [done | tauto | done].
Qed.

Section Commit.
  Context (xid : Z) (subs : list Z) (st0 : Xact).
  Context (Hxid : TransactionIdIsValid xid = true) (Hpos : forall x, x ∈ xid :: subs -> 0 <= x) (Hfresh : xid ∉ subs).

(** The transaction is in progress, and so are the others or they say to ask it. *)
Definition undecided (st : Xact) : Prop :=
  status_at st xid = Some TRANSACTION_STATUS_IN_PROGRESS /\
  forall x, x ∈ subs -> status_at st x = Some TRANSACTION_STATUS_IN_PROGRESS \/ status_at st x = Some TRANSACTION_STATUS_SUB_COMMITTED.

Definition decided (st : Xact) : Prop :=
  status_at st xid = Some TRANSACTION_STATUS_COMMITTED /\
  forall x, x ∈ subs -> status_at st x = Some TRANSACTION_STATUS_COMMITTED \/ status_at st x = Some TRANSACTION_STATUS_SUB_COMMITTED.

Definition others_kept (st : Xact) : Prop :=
  forall y e, 0 <= y -> y ∉ xid :: subs -> status_at st0 y = Some e -> status_at st y = Some e.

(** What an observer between the steps may find. *)
Definition between (st : Xact) : Prop := clog_ok st /\ (undecided st \/ decided st) /\ others_kept st.

Lemma status_content st x e : status_at st x = Some e -> exists page, slru_content st (TransactionIdToPage x) = Some page.
Proof. unfold status_at. destruct (slru_content st _); [eauto | done]. Qed.

Lemma others_recorded (xs : list Z) v st st' :
  (forall x, x ∈ xs -> x ∈ xid :: subs) -> others_kept st -> recorded xs v st st' -> others_kept st'.
Proof. intros Hsub Hk (_ & _ & Hr) y e Hy Hn He. apply Hr; [done | | by apply Hk]. intros Hin. by apply Hn, Hsub. Qed.

Lemma undecided_sub (xs : list Z) st st' :
  (forall x, x ∈ xs -> x ∈ subs) -> undecided st -> recorded xs TRANSACTION_STATUS_SUB_COMMITTED st st' -> undecided st'.
Proof.
  intros Hsub [Hx Hs] (_ & Hset & Hk). split.
  - apply Hk; [apply Hpos; by left | | done]. intros Hin. by apply Hfresh, Hsub.
  - intros x Hin. destruct (decide (x ∈ xs)); [right; auto |]. destruct (Hs x Hin); [left | right]; apply Hk; auto; apply Hpos; by right.
Qed.

Lemma decided_sub (xs : list Z) st st' :
  (forall x, x ∈ xs -> x ∈ subs) -> decided st -> recorded xs TRANSACTION_STATUS_COMMITTED st st' -> decided st'.
Proof.
  intros Hsub [Hx Hs] (_ & Hset & Hk). split.
  - apply Hk; [apply Hpos; by left | | done]. intros Hin. by apply Hfresh, Hsub.
  - intros x Hin. destruct (decide (x ∈ xs)); [left; auto |]. destruct (Hs x Hin); [left | right]; apply Hk; auto; apply Hpos; by right.
Qed.

(** The steps of the main transaction. *)
Lemma decides (c : list Z) st st' :
  (forall x, x ∈ subs -> x ∈ c \/ status_at st x = Some TRANSACTION_STATUS_SUB_COMMITTED) ->
  recorded (xid :: c) TRANSACTION_STATUS_COMMITTED st st' -> decided st'.
Proof.
  intros Hrest (_ & Hset & Hk). split; [apply Hset; by left |]. intros x Hx. destruct (decide (x ∈ c)); [left; apply Hset; by right |].
  right. apply Hk; [apply Hpos; by right | | by destruct (Hrest x Hx)]. rewrite elem_of_cons. intros [-> | ?]; done.
Qed.

(** Undecided states, and then states of [ph]. *)
Definition turning (ph : Xact -> Prop) (hist : list Xact) : Prop :=
  exists h1 h2, hist = h1 ++ h2 /\ Forall undecided h1 /\ Forall ph h2.

Lemma turning_snoc (ph : Xact -> Prop) hist st : turning ph hist -> ph st -> turning ph (hist ++ [st]).
Proof.
  intros (h1 & h2 & -> & H1 & H2) Hst. exists h1, (h2 ++ [st]). rewrite app_assoc. split_and!; try done. apply Forall_app. auto.
Qed.

Lemma turning_turn hist st : turning undecided hist -> decided st -> turning decided (hist ++ [st]).
Proof. intros (h1 & h2 & -> & H1 & H2) Hst. exists (h1 ++ h2), [st]. split_and!; [done | by apply Forall_app | by constructor]. Qed.

(** Invariant of the steps: [ph] is [undecided] or [decided]. *)
Definition steps_inv (ph : Xact -> Prop) (s : list Xact * Xact) : Prop :=
  clog_ok (snd s) /\ ph (snd s) /\ others_kept (snd s) /\ Forall between (fst s) /\ turning ph (fst s).

Lemma observed_chunk (ph : Xact -> Prop) v (xs l c r : list Z) p s :
  (forall st, ph st -> undecided st \/ decided st) ->
  (forall (ys : list Z) st st', (forall x, x ∈ ys -> x ∈ subs) -> ph st -> recorded ys v st st' -> ph st') ->
  ubits 2 v -> (forall x, x ∈ xs -> x ∈ subs) ->
  (forall x, x ∈ c -> x ∈ xs /\ TransactionIdToPage x = p) -> c <> [] -> steps_inv ph s ->
  exists s', observed (TransactionIdSetPageStatus false) InvalidTransactionId (zlen c) (l ++ c ++ r) (zlen l) v p s = Ok s' /\
    steps_inv ph s' /\ recorded c v (snd s) (snd s').
Proof.
  intros Hph Hkeep Hv Hxs Hc Hne (Hok & Hp & Hk & HF & HT). destruct c as [| x c']; [done |]. destruct (Hc x ltac:(by left)) as [Hx Ep].
  assert (Hpage : exists page, slru_content (snd s) p = Some page).
  { rewrite <- Ep. destruct (Hph _ Hp) as [[_ H] | [_ H]]; destruct (H x (Hxs x Hx)) as [E | E]; by eapply status_content. }
  assert (H0 : 0 <= p) by (rewrite <- Ep; apply clog_page_nonneg, Hpos; right; auto).
  destruct (set_page_status_ok (snd s) InvalidTransactionId (x :: c') v p l r Hok Hv H0 Hpage) as (st' & E & Hrec).
  { intros y Hy. by apply Hc. }
  unfold observed. rewrite E. cbn [mbind outcome_bind]. eexists. split; [done |]. cbn [fst snd]. split; [| exact Hrec].
  assert (Hsub : forall y, y ∈ x :: c' -> y ∈ subs) by (intros y Hy; by apply Hxs, Hc).
  assert (Hp' : ph st') by (by eapply Hkeep). assert (Hk' : others_kept st').
  { eapply others_recorded; [| done | exact Hrec]. intros y Hy. right. auto. }
  split_and!; try done; [apply Hrec | | by apply turning_snoc]. cbn [fst]. apply Forall_app. split; [done |]. constructor; [| done]. split_and!; [apply Hrec | by apply Hph | done].
Qed.

(** The subtransactions of other pages get a status, in both of the loops. *)
Lemma observed_loop (ph : Xact -> Prop) v c r post s :
  (forall st, ph st -> undecided st \/ decided st) ->
  (forall (ys : list Z) st st', (forall x, x ∈ ys -> x ∈ subs) -> ph st -> recorded ys v st st' -> ph st') ->
  ubits 2 v -> (forall x, x ∈ r -> x ∈ subs) -> r <> [] -> steps_inv ph s ->
  exists s', set_status_by_pages (observed (TransactionIdSetPageStatus false)) (zlen r) (c ++ r ++ post) (zlen c) v s = Ok s' /\
    steps_inv ph s' /\ recorded r v (snd s) (snd s').
Proof.
  intros Hph Hkeep Hv Hr Hne Hs.
  destruct (set_status_by_pages_rule (observed (TransactionIdSetPageStatus false)) v c r post (steps_inv ph)
    (fun a s s' => (forall x, x ∈ a -> x ∈ r) -> recorded a v (snd s) (snd s'))) with (s := s) as (s' & E & Hi & Hd); try done.
  - intros s1 H1 _. apply recorded_nil, H1.
  - intros a b s1 s2 s3 Ha Hb Hab. assert (Hain : forall x, x ∈ a -> x ∈ r) by (intros x Hx; apply Hab, elem_of_app; auto).
    eapply recorded_app; [| by apply Ha | apply Hb; intros x Hx; apply Hab, elem_of_app; auto]. intros x Hx. apply Hpos. right. auto.
  - intros l c' r' p s1 _ Hc' Hne' Hs1.
    destruct (observed_chunk ph v r l c' r' p s1 Hph Hkeep Hv Hr Hc' Hne' Hs1) as (s2 & -> & Hs2 & Hrec). exists s2. auto.
  - exists s'. auto.
Qed.

(** The step of the main transaction, with the subtransactions [c] of its page. *)
Lemma observed_main c r s :
  steps_inv undecided s -> (forall x, x ∈ c -> x ∈ subs /\ TransactionIdToPage x = TransactionIdToPage xid) ->
  (forall x, x ∈ subs -> x ∈ c \/ status_at (snd s) x = Some TRANSACTION_STATUS_SUB_COMMITTED) ->
  exists s', observed (TransactionIdSetPageStatus false) xid (zlen c) (c ++ r) 0 TRANSACTION_STATUS_COMMITTED (TransactionIdToPage xid) s = Ok s' /\
    steps_inv decided s' /\ recorded (xid :: c) TRANSACTION_STATUS_COMMITTED (snd s) (snd s').
Proof.
  intros (Hok & Hu & Hk & HF & HT) Hc Hrest. assert (Et : targets xid c = xid :: c) by (unfold targets; by rewrite Hxid).
  destruct (set_page_status_ok (snd s) xid c TRANSACTION_STATUS_COMMITTED (TransactionIdToPage xid) [] r Hok) as (st' & E & Hrec);
    [done | apply clog_page_nonneg, Hpos; by left | by eapply status_content, Hu | |].
  { rewrite Et. intros x [-> | Hx]%elem_of_cons; [done | by apply Hc]. }
  rewrite Et in Hrec. unfold observed. cbn [app] in E. change (zlen []) with 0 in E. rewrite E. cbn [mbind outcome_bind].
  eexists. split; [done |]. cbn [fst snd]. split; [| exact Hrec]. pose proof (decides c (snd s) st' Hrest Hrec) as Hd. assert (Hk' : others_kept st').
  { eapply others_recorded; [| done | exact Hrec]. intros x [-> | Hx]%elem_of_cons; [by left | right; by apply Hc]. }
  split_and!; try done; [apply Hrec | | by apply turning_turn]. cbn [fst]. apply Forall_app. split; [done |]. constructor; [| done]. split_and!; [apply Hrec | by right | done].
Qed.

Lemma commit_tree_observed post :
  clog_ok st0 -> undecided st0 ->
  exists hist st', TransactionIdSetTreeStatus (observed (TransactionIdSetPageStatus false)) xid (zlen subs) (subs ++ post)
      TRANSACTION_STATUS_COMMITTED ([], st0) = Ok (hist, st') /\
    Forall between hist /\ turning decided hist /\ recorded (xid :: subs) TRANSACTION_STATUS_COMMITTED st0 st'.
Proof.
  intros Hok Hu. assert (Hs0 : steps_inv undecided ([], st0)) by (split_and!; try done; [by intros y e | by exists [], []]).
  destruct (span_page (TransactionIdToPage xid) subs) as (c & r & Ecr & Hc & Hr). unfold TransactionIdSetTreeStatus.
  pose proof (count_same_page_ok (TransactionIdToPage xid) c (Z.to_nat (zlen subs)) [] r post) as Ecount.
  cbn [app] in Ecount. change (zlen []) with 0 in Ecount. rewrite !Z.add_0_l in Ecount.
  assert (Elen : zlen subs = zlen c + zlen r) by (rewrite Ecr; apply zlen_app).
  replace (subs ++ post) with (c ++ r ++ post) by (rewrite Ecr, <- app_assoc; done). rewrite Elen in Ecount |- *.
  rewrite Ecount by (done || (unfold zlen; lia)). cbn [mbind outcome_bind].
  assert (Hcs : forall x, x ∈ c -> x ∈ subs /\ TransactionIdToPage x = TransactionIdToPage xid).
  { intros x Hx. split; [rewrite Ecr; set_solver | auto]. }
  destruct r as [| y r'].
  - change (zlen []) with 0. rewrite Z.add_0_r, Z.eqb_refl. rewrite app_nil_r in Ecr.
    destruct (observed_main c ([] ++ post) ([], st0) Hs0 Hcs) as ([h st'] & E & (_ & _ & _ & HF & HT) & Hrec); [intros x Hx; left; by rewrite <- Ecr |].
    exists h, st'. split; [exact E |]. split; [done |]. split; [done |]. by rewrite Ecr.
  - set (r := y :: r') in *. assert (Hrs : forall x, x ∈ r -> x ∈ subs) by (intros x Hx; rewrite Ecr; set_solver).
    replace (zlen c =? zlen c + zlen r) with false by (unfold r; rewrite zlen_cons; pose proof (zlen_nonneg r'); lia).
    replace (zlen c + zlen r - zlen c) with (zlen r) by lia. rewrite Z.eqb_refl.
    destruct (observed_loop undecided TRANSACTION_STATUS_SUB_COMMITTED c r post ([], st0)) as (s1 & -> & Hs1 & Hrec1); try done; [by left | apply undecided_sub |].
    cbn [mbind outcome_bind]. destruct (observed_main c (r ++ post) s1 Hs1 Hcs) as (s2 & -> & Hs2 & Hrec2).
    { intros x Hx. rewrite Ecr in Hx. apply elem_of_app in Hx as [Hx | Hx]; [by left | right; by apply (proj1 (proj2 Hrec1))]. }
    cbn [mbind outcome_bind].
    destruct (observed_loop decided TRANSACTION_STATUS_COMMITTED c r post s2) as ([h st'] & E & Hs3 & Hrec3); try done; [by right | apply decided_sub |].
    exists h, st'. split; [exact E |]. split; [apply Hs3 |]. split; [apply Hs3 |]. cbn [snd] in Hrec1, Hrec3.
    assert (H23 : recorded ((xid :: c) ++ r) TRANSACTION_STATUS_COMMITTED (snd s1) st').
    { eapply recorded_app; [| exact Hrec2 | exact Hrec3]. intros x [-> | Hx]%elem_of_cons; apply Hpos; [by left | right; by apply Hcs]. }
    destruct H23 as (Hok' & Hset & Hk). assert (Ex : xid :: subs = (xid :: c) ++ r) by (by rewrite Ecr).
    split_and!; [done | by rewrite Ex |]. rewrite Ex. intros z e Hz Hn He. apply Hk; [done | done |].
    apply (proj2 (proj2 Hrec1)); [done | | done]. intros Hin. apply Hn, elem_of_app. by right.
Qed.
End Commit.

(** ** An abort *)

Definition known (st : Xact) (x : Z) : Prop := exists e, status_at st x = Some e.

Lemma recorded_known xs v st st' y : recorded xs v st st' -> 0 <= y -> known st y -> known st' y.
Proof. intros (_ & Hs & Hk) Hy [e He]. destruct (decide (y ∈ xs)); [exists v; auto | exists e; auto]. Qed.

Lemma record_chunk xid xs v p l r st :
  clog_ok st -> ubits 2 v -> targets xid xs <> [] -> (forall x, x ∈ targets xid xs -> 0 <= x /\ known st x /\ TransactionIdToPage x = p) ->
  exists st', TransactionIdSetPageStatus false xid (zlen xs) (l ++ xs ++ r) (zlen l) v p st = Ok st' /\ recorded (targets xid xs) v st st'.
Proof.
  intros Hok Hv Hne Hx. destruct (targets xid xs) as [| y ys] eqn:Et; [done |]. destruct (Hx y ltac:(by left)) as (Hy & [e He] & Ep).
  rewrite <- Et in *. apply set_page_status_ok; try done; [rewrite <- Ep; by apply clog_page_nonneg | rewrite <- Ep; by eapply status_content |].
  intros x Hin. by apply Hx.
Qed.

Lemma abort_tree_ok xid subs post st :
  clog_ok st -> TransactionIdIsValid xid = true -> (forall x, x ∈ xid :: subs -> 0 <= x /\ known st x) ->
  exists st', TransactionIdSetTreeStatus (TransactionIdSetPageStatus false) xid (zlen subs) (subs ++ post) TRANSACTION_STATUS_ABORTED st = Ok st' /\
    recorded (xid :: subs) TRANSACTION_STATUS_ABORTED st st'.
Proof.
  intros Hok Hxid Hall. destruct (span_page (TransactionIdToPage xid) subs) as (c & r & Ecr & Hc & Hr). unfold TransactionIdSetTreeStatus.
  pose proof (count_same_page_ok (TransactionIdToPage xid) c (Z.to_nat (zlen subs)) [] r post) as Ecount.
  cbn [app] in Ecount. change (zlen []) with 0 in Ecount. rewrite !Z.add_0_l in Ecount.
  assert (Elen : zlen subs = zlen c + zlen r) by (rewrite Ecr; apply zlen_app).
  replace (subs ++ post) with (c ++ r ++ post) by (rewrite Ecr, <- app_assoc; done). rewrite Elen in Ecount |- *.
  rewrite Ecount by (done || (unfold zlen; lia)). cbn [mbind outcome_bind]. clear Ecount.
  assert (Et : targets xid c = xid :: c) by (unfold targets; by rewrite Hxid). assert (Ex : xid :: subs = (xid :: c) ++ r) by (by rewrite Ecr).
  destruct (record_chunk xid c TRANSACTION_STATUS_ABORTED (TransactionIdToPage xid) [] (r ++ post) st Hok) as (st1 & E1 & Hrec1);
    [done | by rewrite Et | |]. { rewrite Et. intros x Hx. destruct (Hall x) as [? ?]; [rewrite Ex; set_solver |].
    split_and!; try done. apply elem_of_cons in Hx as [-> | Hx]; [done | by apply Hc]. }
  rewrite Et in Hrec1. cbn [app] in E1. change (zlen []) with 0 in E1. destruct r as [| y r'].
  { change (zlen []) with 0. rewrite Z.add_0_r, Z.eqb_refl. exists st1. split; [done |]. rewrite Ex. by rewrite app_nil_r. }
  set (r := y :: r') in *. replace (zlen c =? zlen c + zlen r) with false by (unfold r; rewrite zlen_cons; pose proof (zlen_nonneg r'); lia).
  replace (zlen c + zlen r - zlen c) with (zlen r) by lia. cbn [Z.eqb TRANSACTION_STATUS_COMMITTED TRANSACTION_STATUS_ABORTED Pos.eqb mbind outcome_bind].
  fold TRANSACTION_STATUS_ABORTED. unfold TRANSACTION_STATUS_ABORTED in E1 |- *. rewrite E1. cbn [mbind outcome_bind].
  destruct (set_status_by_pages_rule (TransactionIdSetPageStatus false) 2 c r post (fun s => clog_ok s /\ forall x, x ∈ r -> known s x)
    (fun a s s' => (forall x, x ∈ a -> x ∈ r) -> recorded a 2 s s')) with (s := st1) as (st2 & -> & _ & Hrec2); try done.
  - intros s [Hs _] _. by apply recorded_nil.
  - intros a b s s1 s2 Ha Hb Hab. assert (Hain : forall x, x ∈ a -> x ∈ r) by (intros x Hx; apply Hab, elem_of_app; auto).
    eapply recorded_app; [| by apply Ha | apply Hb; intros x Hx; apply Hab, elem_of_app; auto]. intros x Hx. apply Hall. rewrite Ex. set_solver.
  - intros l c' r2 p s _ Hc' Hne [Hs Hk]. destruct (record_chunk InvalidTransactionId c' 2 p l r2 s Hs) as (s' & -> & Hrec); [done | done | |].
    { intros x Hx. destruct (Hc' x Hx) as [Hxr Hp]. split_and!; [apply Hall; rewrite Ex; set_solver | auto | done]. }
    exists s'. split; [done |]. split; [| done]. split; [apply Hrec |]. intros x Hx. eapply recorded_known; [exact Hrec | apply Hall; rewrite Ex; set_solver | auto].
  - split; [apply Hrec1 |]. intros x Hx. eapply recorded_known; [exact Hrec1 | |]; apply Hall; rewrite Ex; set_solver.
  - exists st2. split; [done |]. rewrite Ex. eapply recorded_app; [| exact Hrec1 | by apply Hrec2]. intros x Hx. apply Hall. rewrite Ex. set_solver.
Qed.

(** ** Looking up *)

Lemma get_status_ok st x e :
  clog_ok st -> 0 <= x -> status_at st x = Some e ->
  exists st', TransactionIdGetStatus false x st = Ok (e, st') /\ clog_ok st' /\ extends st st' /\
    forall y e', 0 <= y -> status_at st y = Some e' -> status_at st' y = Some e'.
Proof.
  intros Hst Hx He. pose proof (clog_page_nonneg x Hx) as Hp. unfold TransactionIdGetStatus.
  destruct (read_only_ok st _ (proj1 Hst) Hp) as [(k & s & st1 & -> & Hok & Hext & _ & _ & Hl) | (msg & _ & En)].
  2: { unfold status_at in He. by rewrite En in He. }
  assert (Hkeep : forall y e', 0 <= y -> status_at st y = Some e' -> status_at st1 y = Some e').
  { intros y e' Hy. unfold status_at. destruct (Hext _ (clog_page_nonneg y Hy)) as [-> | [-> _]]; done. }
  cbn [mbind outcome_bind]. pose proof Hl as (Hk & _). rewrite (zget_nat _ _ _ Hk). cbn [mbind outcome_bind].
  pose proof (Hkeep x e Hx He) as He1. unfold status_at in He1. rewrite (loaded_content st1 _ k s Hok Hl) in He1. cbn [mbind option_bind] in He1.
  unfold page_status_of in He1. destruct (page_buffer s !! _) as [b |] eqn:Eb; [| done]. cbn [mbind option_bind] in He1. injection He1 as <-.
  pose proof (byte_bounds x). rewrite (zget_lookup _ _ b) by (lia || done). cbn [mbind outcome_bind]. exists st1.
  split_and!; try done. by eapply clog_ok_extends.
Qed.

(** ** Growth and start-up *)

Lemma clog_ok_latest p st : clog_ok st -> clog_ok (with_latest_page p st) /\ forall x, status_at (with_latest_page p st) x = status_at st x.
Proof. intros [[] Hf]. split; [| done]. split; [by constructor | done]. Qed.

Lemma zero_bytes_status y : page_status_of zero_bytes y = Some TRANSACTION_STATUS_IN_PROGRESS.
Proof.
  unfold page_status_of. rewrite zero_bytes_lookup by apply byte_bounds. cbn [mbind option_bind]. unfold byte_status. by rewrite Z.shiftr_0_l.
Qed.

Lemma extend_clog_ok x st :
  clog_ok st -> 0 <= x -> TransactionIdToPgIndex x = 0 \/ x = FirstNormalTransactionId ->
  exists st', ExtendCLOG x st = Ok st' /\ clog_ok st' /\
    (forall y, 0 <= y -> TransactionIdToPage y = TransactionIdToPage x -> status_at st' y = Some TRANSACTION_STATUS_IN_PROGRESS) /\
    (forall y e, 0 <= y -> TransactionIdToPage y <> TransactionIdToPage x -> status_at st y = Some e -> status_at st' y = Some e).
Proof.
  intros [Hok Hf] Hx Hfirst. destruct (zero_page_ok st _ Hok (clog_page_nonneg x Hx)) as (i & s & st' & E & (Hok' & Hc & Ho & _) & _).
  unfold ExtendCLOG, ZeroCLOGPage, TransactionIdEquals. rewrite E.
  replace (_ && _) with false by (symmetry; apply andb_false_iff; destruct Hfirst as [-> | ->]; [by left | right; done]).
  cbn [mbind outcome_bind]. exists st'. split; [done |]. split; [| split].
  - split; [done |]. intros p page Hp. destruct (Z.eq_dec p (TransactionIdToPage x)) as [-> | Hne].
    + rewrite Hc. intros [= <-]. apply zero_bytes_length.
    + destruct (Ho p Hp Hne) as [-> | [_ ->]]; [by apply Hf |]. intros [= <-]. apply zero_bytes_length.
  - intros y Hy Ey. unfold status_at. rewrite Ey, Hc. apply zero_bytes_status.
  - intros y e Hy Ne. unfold status_at. destruct (Ho _ (clog_page_nonneg y Hy) Ne) as [-> | [-> _]]; done.
Qed.

(** The bits of the byte of [x] below and above those of [x]. *)
Lemma trim_byte byte i j :
  0 <= i < 4 -> 0 <= j < 4 ->
  Z.land (Z.shiftr (Z.land byte (Z.shiftl 1 (i * 2) - 1)) (j * 2)) 3 = if j <? i then Z.land (Z.shiftr byte (j * 2)) 3 else 0.
Proof.
  intros Hi Hj. rewrite Z.shiftl_1_l. replace (2 ^ (i * 2) - 1) with (Z.ones (i * 2)) by (rewrite Z.ones_equiv; lia).
  apply bits_ext. intros n Hn. rewrite Z.land_spec, testbit_3, Z.shiftr_spec, Z.land_spec by lia.
  destruct (Z.ltb_spec j i) as [H | H].
  - rewrite Z.land_spec, testbit_3, Z.shiftr_spec by lia. destruct (Z.lt_ge_cases n 2) as [H2 | H2].
    + rewrite Z.ones_spec_low by lia. by rewrite andb_true_r.
    + replace (n <? 2) with false by lia. by rewrite !andb_false_r.
  - rewrite Z.ones_spec_high by lia. rewrite andb_false_r. cbn [andb]. by rewrite Z.testbit_0_l.
Qed.

Lemma page_order x y :
  TransactionIdToPage y = TransactionIdToPage x ->
  (y <? x) = (TransactionIdToByte y <? TransactionIdToByte x) || (TransactionIdToByte y =? TransactionIdToByte x) && (TransactionIdToBIndex y <? TransactionIdToBIndex x).
Proof.
  unfold TransactionIdToPage, TransactionIdToByte, TransactionIdToPgIndex, TransactionIdToBIndex. rewrite clog_per_page.
  unfold CLOG_XACTS_PER_BYTE. intros. zlia.
Qed.

Lemma trim_page_ok x page :
  full page -> exists page', trim_page x page = Ok page' /\ full page' /\
    forall y, TransactionIdToPage y = TransactionIdToPage x ->
      page_status_of page' y = if y <? x then page_status_of page y else Some TRANSACTION_STATUS_IN_PROGRESS.
Proof.
  intros Hf. unfold full, trim_page in *. pose proof (byte_bounds x) as Hb. set (k := TransactionIdToByte x) in *.
  destruct (lookup_lt_is_Some_2 page (Z.to_nat k)) as [b Eb]; [lia |]. rewrite (zget_lookup _ _ b) by (lia || done). cbn [mbind outcome_bind].
  rewrite zset_ok by (unfold zlen; lia). cbn [mbind outcome_bind]. set (b' := Z.land b _).
  rewrite mem_write_ok by (unfold zlen; rewrite ?length_insert, ?length_replicate; lia). eexists. split; [done |].
  rewrite length_replicate, drop_ge by (rewrite length_insert; lia). rewrite app_nil_r.
  assert (Elen : length (take (Z.to_nat (k + 1)) (<[Z.to_nat k := b']> page)) = Z.to_nat (k + 1)) by (rewrite length_take, length_insert; lia).
  split; [rewrite length_app, Elen, length_replicate; lia |]. intros y Ep. rewrite (page_order x y Ep). fold k.
  pose proof (byte_bounds y) as Hy. unfold page_status_of. destruct (Z.lt_trichotomy (TransactionIdToByte y) k) as [H | [H | H]].
  - rewrite lookup_app_l, lookup_take_lt, list_lookup_insert_ne by lia. by replace (TransactionIdToByte y <? k) with true by lia.
  - rewrite H, Z.ltb_irrefl, Z.eqb_refl. rewrite lookup_app_l, lookup_take_lt, list_lookup_insert_eq by lia. cbn [mbind option_bind orb andb].
    rewrite Eb. cbn [mbind option_bind]. unfold byte_status, b', bshift. rewrite bitmask. unfold CLOG_BITS_PER_XACT.
    assert (Hi : forall z, 0 <= TransactionIdToBIndex z < 4) by (intros z; by apply Z.mod_pos_bound). rewrite trim_byte by done. by destruct (_ <? _).
  - rewrite lookup_app_r, lookup_replicate_2 by lia. cbn [mbind option_bind]. replace (_ || _) with false by lia. unfold byte_status. by rewrite Z.shiftr_0_l.
Qed.

(** After a crash the page of the next transaction may say anything about it and
    those after it; trimming makes them in progress again. *)
Lemma trim_clog_ok next st page :
  clog_ok st -> 0 <= next -> slru_content st (TransactionIdToPage next) = Some page ->
  exists st', TrimCLOG false next st = Ok st' /\ clog_ok st' /\
    (forall y, next <= y -> TransactionIdToPage y = TransactionIdToPage next -> TransactionIdToPgIndex next <> 0 ->
       status_at st' y = Some TRANSACTION_STATUS_IN_PROGRESS) /\
    (forall y e, 0 <= y -> y < next \/ TransactionIdToPage y <> TransactionIdToPage next -> status_at st y = Some e -> status_at st' y = Some e).
Proof.
  intros Hst Hx Hpg. destruct (clog_ok_latest (TransactionIdToPage next) st Hst) as [[Hok Hf] Hsame]. unfold TrimCLOG.
  set (st1 := with_latest_page _ st) in *. destruct (Z.eqb_spec (TransactionIdToPgIndex next) 0) as [E0 | N0]; cbn [negb].
  { exists st1. split_and!; try done. }
  destruct (read_page_ok st1 (TransactionIdToPage next) false Hok (clog_page_nonneg _ Hx)) as [(k & s & st2 & -> & Hok2 & Hext & _ & _ & Hl) | (msg & _ & En)].
  2: { unfold st1, with_latest_page in En. cbn in En. change (slru_content st (TransactionIdToPage next) = None) in En. congruence. }
  cbn [mbind outcome_bind]. pose proof Hl as (Hk & _). rewrite (zget_nat _ _ _ Hk). cbn [mbind outcome_bind].
  assert (Hst2 : clog_ok st2) by (by eapply (clog_ok_extends st1)). pose proof (loaded_content st2 _ k s Hok2 Hl) as Hcont.
  destruct (trim_page_ok next (page_buffer s)) as (page' & -> & Hfull & Hp'); [by eapply Hst2, Hcont; apply clog_page_nonneg |]. cbn [mbind outcome_bind].
  destruct (slot_update_ok st2 _ k s page' Hok2 Hl) as (s' & st3 & -> & Hok3 & _ & _ & Hc & _). exists st3. split; [done |]. split; [| split].
  - split; [done |]. intros q pg Hq. rewrite Hc. destruct (q =? _); [by intros [= <-] | by apply Hst2].
  - intros y Hy Ep _. unfold status_at. rewrite Ep, Hc, Z.eqb_refl. cbn [mbind option_bind]. rewrite Hp' by done. by replace (y <? next) with false by lia.
  - intros y e Hy Hlt He. assert (He2 : status_at st2 y = Some e).
    { rewrite <- Hsame in He. revert He. unfold status_at. destruct (Hext _ (clog_page_nonneg y Hy)) as [-> | [-> _]]; done. }
    unfold status_at in *. rewrite Hc. destruct (Z.eqb_spec (TransactionIdToPage y) (TransactionIdToPage next)) as [Ep | _]; [| done].
    destruct Hlt as [Hlt | ?]; [| done]. rewrite Ep, Hcont in He2. cbn [mbind option_bind] in *. rewrite Hp' by done. by replace (y <? next) with true by lia.
Qed.
