(* ===== verification/TransactionLog.v ===== *)
(** * The fate of transactions

    Models the rest of src/backend/access/transam/transam.c: whether a
    transaction committed or aborted, from the commit log of [Clog], a cache of
    one transaction, and, for a subtransaction that only says that it is
    committed as far as its parent is, the parents in [SubTrans].

    The recursion over the parents takes fuel.  The log positions of commits are
    left out, as in [Clog]; [TransactionXmin] is an argument. *)

From stdpp Require Import base list gmap.
From S2P Require Import Prelude TransactionId Slru SubTrans Clog.

Definition BootstrapTransactionId : Z := 1.
Definition FrozenTransactionId : Z := 2.

Record TransLog := mkTransLog {
  cachedFetchXid : Z;
  cachedFetchXidStatus : Z;
  tl_clog : Slru (list Z);
  tl_subtrans : Slru (list SubTransData)
}.

Definition TransactionLogFetch (transactionId : Z) (t : TransLog) : outcome (Z * TransLog) :=
  if TransactionIdEquals transactionId (cachedFetchXid t) then Ok (cachedFetchXidStatus t, t)
  else if negb (TransactionIdIsNormal transactionId) then
    if TransactionIdEquals transactionId BootstrapTransactionId then Ok (TRANSACTION_STATUS_COMMITTED, t)
    else if TransactionIdEquals transactionId FrozenTransactionId then Ok (TRANSACTION_STATUS_COMMITTED, t)
    else Ok (TRANSACTION_STATUS_ABORTED, t)
  else
    '(xidstatus, clog) ← TransactionIdGetStatus false transactionId (tl_clog t);
    if negb (xidstatus =? TRANSACTION_STATUS_IN_PROGRESS) && negb (xidstatus =? TRANSACTION_STATUS_SUB_COMMITTED)
    then Ok (xidstatus, mkTransLog transactionId xidstatus clog (tl_subtrans t))
    else Ok (xidstatus, mkTransLog (cachedFetchXid t) (cachedFetchXidStatus t) clog (tl_subtrans t)).

Section Fate.
  Context (TransactionXmin : Z).

Fixpoint TransactionIdDidCommit (fuel : nat) (transactionId : Z) (t : TransLog) : outcome (bool * TransLog) :=
  match fuel with
  | O => Err "fuel"
  | S fuel =>
      '(xidstatus, t) ← TransactionLogFetch transactionId t;
      if xidstatus =? TRANSACTION_STATUS_COMMITTED then Ok (true, t)
      else if xidstatus =? TRANSACTION_STATUS_SUB_COMMITTED then
        if TransactionIdPrecedes transactionId TransactionXmin then Ok (false, t)
        else
          '(parentXid, sub) ← SubTransGetParent false transactionId (tl_subtrans t);
          let t := mkTransLog (cachedFetchXid t) (cachedFetchXidStatus t) (tl_clog t) sub in
          if negb (TransactionIdIsValid parentXid) then Ok (false, t)
          else TransactionIdDidCommit fuel parentXid t
      else Ok (false, t)
  end.

Fixpoint TransactionIdDidAbort (fuel : nat) (transactionId : Z) (t : TransLog) : outcome (bool * TransLog) :=
  match fuel with
  | O => Err "fuel"
  | S fuel =>
      '(xidstatus, t) ← TransactionLogFetch transactionId t;
      if xidstatus =? TRANSACTION_STATUS_ABORTED then Ok (true, t)
      else if xidstatus =? TRANSACTION_STATUS_SUB_COMMITTED then
        if TransactionIdPrecedes transactionId TransactionXmin then Ok (true, t)
        else
          '(parentXid, sub) ← SubTransGetParent false transactionId (tl_subtrans t);
          let t := mkTransLog (cachedFetchXid t) (cachedFetchXidStatus t) (tl_clog t) sub in
          if negb (TransactionIdIsValid parentXid) then Ok (true, t)
          else TransactionIdDidAbort fuel parentXid t
      else Ok (false, t)
  end.
End Fate.

Definition TransactionIdDidAbortForReader (transactionId : Z) (t : TransLog) : outcome (bool * TransLog) :=
  '(status, t) ← TransactionLogFetch transactionId t;
  Ok (status =? TRANSACTION_STATUS_ABORTED, t).

Definition TransactionIdIsKnownCompleted (transactionId : Z) (t : TransLog) : bool :=
  TransactionIdEquals transactionId (cachedFetchXid t).

Definition TransactionIdCommitTree {T} (set_page_status : Z -> Z -> list Z -> Z -> Z -> Z -> T -> outcome T) (xid nxids : Z) (xids : list Z) (s : T) : outcome T :=
  TransactionIdSetTreeStatus set_page_status xid nxids xids TRANSACTION_STATUS_COMMITTED s.

Definition TransactionIdAbortTree {T} (set_page_status : Z -> Z -> list Z -> Z -> Z -> Z -> T -> outcome T) (xid nxids : Z) (xids : list Z) (s : T) : outcome T :=
  TransactionIdSetTreeStatus set_page_status xid nxids xids TRANSACTION_STATUS_ABORTED s.

(** The loop from the last id to the first. *)
Fixpoint latest_loop (nxids : nat) (xids : list Z) (result : Z) : outcome Z :=
  match nxids with
  | O => Ok result
  | S nxids =>
      x ← zget xids (Z.of_nat nxids);
      latest_loop nxids xids (if TransactionIdPrecedes result x then x else result)
  end.

Definition TransactionIdLatest (mainxid nxids : Z) (xids : list Z) : outcome Z := latest_loop (Z.to_nat nxids) xids mainxid.

(** ** The fate of a tree *)

#[local] Existing Instance XactCtl.

(** The cache holds only what can no longer change. *)
Definition cache_ok (t : TransLog) : Prop :=
  cachedFetchXid t = InvalidTransactionId \/
  status_at (tl_clog t) (cachedFetchXid t) = Some (cachedFetchXidStatus t).

Definition same_statuses (c c' : Slru (list Z)) : Prop := forall y e, 0 <= y -> status_at c y = Some e -> status_at c' y = Some e.

Section Tree.
  Context (TransactionXmin : Z) (D : Z -> Prop) (HD : forall x, D x -> normal_xid x) (h : list (Z * Z)).
  Context (xid : Z) (subs : list Z) (Hmem : forall x, x ∈ xid :: subs -> D x).
  Context (Hpar : forall x, x ∈ subs -> parent_of h x ∈ xid :: subs /\ topmost (parent_of h) x xid).
  Context (Hxmin : forall x, x ∈ subs -> TransactionIdPrecedes x TransactionXmin = false).

(** Each member of the tree has a status that [Q] allows. *)
Definition assigned (Q : Z -> Z -> Prop) (c : Slru (list Z)) : Prop :=
  forall x, x ∈ xid :: subs -> exists e, status_at c x = Some e /\ Q x e.

Definition tl_ok (Q : Z -> Z -> Prop) (t : TransLog) : Prop :=
  clog_ok (tl_clog t) /\ assigned Q (tl_clog t) /\ links_ok D h (tl_subtrans t) /\ cache_ok t /\
  (cachedFetchXid t = InvalidTransactionId \/ normal_xid (cachedFetchXid t)).

Lemma member_pos x : x ∈ xid :: subs -> normal_xid x /\ 0 <= x /\ x <> InvalidTransactionId.
Proof. intros Hx. pose proof (HD x (Hmem x Hx)). unfold normal_xid, FirstNormalTransactionId, InvalidTransactionId in *. lia. Qed.

Lemma assigned_same Q c c' : same_statuses c c' -> assigned Q c -> assigned Q c'.
Proof. intros Hs Ha x Hx. destruct (Ha x Hx) as (e & He & Hq). exists e. split; [| done]. apply Hs; [by apply member_pos | done]. Qed.

Lemma fetch_ok Q x t :
  tl_ok Q t -> x ∈ xid :: subs -> exists e t', TransactionLogFetch x t = Ok (e, t') /\ Q x e /\ tl_ok Q t'.
Proof.
  intros (Hc & Ha & Hl & Hcache & Hcx) Hx. destruct (Ha x Hx) as (e & He & Hq). destruct (member_pos x Hx) as (Hn & H0 & Hinv).
  unfold TransactionLogFetch, TransactionIdEquals. destruct (Z.eqb_spec x (cachedFetchXid t)) as [Ex | Nx].
  - exists e, t. split_and!; try done. destruct Hcache as [Hz | Hs]; [congruence |]. rewrite <- Ex, He in Hs. by injection Hs as ->.
  - rewrite (proj1 (normal_valid x Hn)). cbn [negb]. destruct (get_status_ok (tl_clog t) x e Hc H0 He) as (c' & -> & Hc' & _ & Hs).
    cbn [mbind outcome_bind]. exists e. pose proof (assigned_same Q _ _ Hs Ha) as Ha'. destruct (_ && _); eexists; (split; [done |]); (split; [done |]).
    + split_and!; try done; [right; cbn; by apply Hs | by right].
    + split_and!; try done. destruct Hcache as [Hz | Hst]; [by left |]. right. cbn. apply Hs; [| done].
      destruct Hcx as [-> | Hcx]; [done |]. unfold normal_xid, FirstNormalTransactionId in Hcx. lia.
Qed.

Lemma get_parent_ok Q x t :
  tl_ok Q t -> x ∈ subs ->
  exists sub, SubTransGetParent false x (tl_subtrans t) = Ok (parent_of h x, sub) /\
    tl_ok Q (mkTransLog (cachedFetchXid t) (cachedFetchXidStatus t) (tl_clog t) sub).
Proof.
  intros (Hc & Ha & [Hok Hl] & Hcache & Hcx) Hx. assert (Hdx : D x) by (apply Hmem; by right). destruct (Hl x Hdx) as (top & Ex & _).
  destruct (get_data_ok (tl_subtrans t) x _ Hok (HD x Hdx) Ex) as (sub & E & Hok' & Hk). unfold SubTransGetParent. rewrite E. cbn [mbind outcome_bind parent].
  exists sub. split; [done |]. split; [done |]. split; [done |]. split; [| done]. split; [done |]. intros y Hy. destruct (Hl y Hy) as (top' & Ey & H). exists top'. split; [| done].
  apply Hk; [| done]. pose proof (HD y Hy). unfold normal_xid, FirstNormalTransactionId in *. lia.
Qed.

(** [Q] leaves the fate to the parents, or decides it as [committed] and [aborted] say. *)
Definition decides_fate (Q : Z -> Z -> Prop) (committed aborted : bool) : Prop :=
  forall x e, x ∈ xid :: subs -> Q x e ->
    x ∈ subs /\ e = TRANSACTION_STATUS_SUB_COMMITTED \/
    (e =? TRANSACTION_STATUS_COMMITTED) = committed /\ (e =? TRANSACTION_STATUS_ABORTED) = aborted /\ e <> TRANSACTION_STATUS_SUB_COMMITTED.

Lemma fate_ok Q committed aborted x :
  decides_fate Q committed aborted -> topmost (parent_of h) x xid -> x ∈ xid :: subs ->
  exists n, forall fuel t, (n <= fuel)%nat -> tl_ok Q t ->
    (exists t', TransactionIdDidCommit TransactionXmin fuel x t = Ok (committed, t') /\ tl_ok Q t') /\
    (exists t', TransactionIdDidAbort TransactionXmin fuel x t = Ok (aborted, t') /\ tl_ok Q t').
Proof.
  intros HQ Htop. remember xid as root eqn:Eroot in Htop. revert Eroot.
  assert (Hdone : forall x fuel t e t', TransactionLogFetch x t = Ok (e, t') -> tl_ok Q t' ->
    (e =? TRANSACTION_STATUS_COMMITTED) = committed -> (e =? TRANSACTION_STATUS_ABORTED) = aborted -> e <> TRANSACTION_STATUS_SUB_COMMITTED ->
    (exists t', TransactionIdDidCommit TransactionXmin (S fuel) x t = Ok (committed, t') /\ tl_ok Q t') /\
    (exists t', TransactionIdDidAbort TransactionXmin (S fuel) x t = Ok (aborted, t') /\ tl_ok Q t')).
  { intros y fuel t e t' E Ht Ec Ea Hne. cbn [TransactionIdDidCommit TransactionIdDidAbort]. rewrite E. cbn [mbind outcome_bind].
    rewrite Ec, Ea. replace (e =? TRANSACTION_STATUS_SUB_COMMITTED) with false by (symmetry; by apply Z.eqb_neq).
    split; exists t'; (split; [| done]); [by destruct committed | by destruct aborted]. }
  induction Htop as [x Hself | x root Hne Htop IH]; intros Eroot Hx.
  - subst x. exists 1%nat. intros [| fuel] t Hf Ht; [lia |]. destruct (fetch_ok Q xid t Ht Hx) as (e & t' & E & Hq & Ht').
    destruct (HQ xid e Hx Hq) as [[Hin _] | (Ec & Ea & Hne)]; [| by eapply Hdone].
    destruct (Hpar xid Hin) as [Hp _]. rewrite Hself in Hp. apply member_pos in Hp as (_ & _ & Hp). done.
  - destruct (decide (x ∈ subs)) as [Hin | Hout].
    2: { exists 1%nat. intros [| fuel] t Hf Ht; [lia |]. destruct (fetch_ok Q x t Ht Hx) as (e & t' & E & Hq & Ht').
         destruct (HQ x e Hx Hq) as [[? _] | (Ec & Ea & He)]; [done | by eapply Hdone]. }
    destruct (Hpar x Hin) as [Hp _]. destruct (IH Eroot Hp) as (n & Hn). exists (S n). intros [| fuel] t Hf Ht; [lia |].
    destruct (fetch_ok Q x t Ht Hx) as (e & t' & E & Hq & Ht'). destruct (HQ x e Hx Hq) as [[_ ->] | (Ec & Ea & He)]; [| by eapply Hdone].
    cbn [TransactionIdDidCommit TransactionIdDidAbort]. rewrite E. cbn [mbind outcome_bind TRANSACTION_STATUS_SUB_COMMITTED TRANSACTION_STATUS_COMMITTED TRANSACTION_STATUS_ABORTED Z.eqb Pos.eqb].
    rewrite (Hxmin x Hin). destruct (get_parent_ok Q x t' Ht' Hin) as (sub & -> & Ht''). cbn [mbind outcome_bind].
    destruct (member_pos _ Hp) as (Hpn & _ & _). rewrite (proj2 (normal_valid _ Hpn)). cbn [negb]. apply Hn; [lia | done].
Qed.
End Tree.

(** A transaction and the subtransactions it commits or aborts with: their
    parents are among them and lead to it, and none is older than [TransactionXmin]. *)
Record live_tree (TransactionXmin : Z) (D : Z -> Prop) (h : list (Z * Z)) (xid : Z) (subs : list Z) : Prop := {
  live_normal : forall x, D x -> normal_xid x;
  live_members : forall x, x ∈ xid :: subs -> D x;
  live_parents : forall x, x ∈ subs -> parent_of h x ∈ xid :: subs /\ topmost (parent_of h) x xid;
  live_recent : forall x, x ∈ subs -> TransactionIdPrecedes x TransactionXmin = false;
  live_root : xid ∉ subs;
  live_top : parent_of h xid = InvalidTransactionId
}.

(** Whoever asks, with whatever they have cached, gets these answers for each
    member of the tree. *)
Definition tree_answers TransactionXmin D h xid subs (committed aborted : bool) (clog : Slru (list Z)) : Prop :=
  forall x, x ∈ xid :: subs -> exists n, forall fuel t, (n <= fuel)%nat -> tl_clog t = clog ->
    links_ok D h (tl_subtrans t) -> cache_ok t -> cachedFetchXid t = InvalidTransactionId \/ normal_xid (cachedFetchXid t) ->
    (exists t', TransactionIdDidCommit TransactionXmin fuel x t = Ok (committed, t')) /\
    (exists t', TransactionIdDidAbort TransactionXmin fuel x t = Ok (aborted, t')).

Section Answers.
  Context (TransactionXmin : Z) (D : Z -> Prop) (h : list (Z * Z)) (xid : Z) (subs : list Z).
  Context (Hlive : live_tree TransactionXmin D h xid subs).

Lemma answers_of Q committed aborted clog :
  clog_ok clog -> assigned xid subs Q clog -> decides_fate xid subs Q committed aborted ->
  tree_answers TransactionXmin D h xid subs committed aborted clog.
Proof.
  intros Hc Ha HQ x Hx. assert (Htop : topmost (parent_of h) x xid).
  { apply elem_of_cons in Hx as [-> | Hx]; [apply topmost_self, Hlive | by apply Hlive]. }
  destruct (fate_ok TransactionXmin D (live_normal _ _ _ _ _ Hlive) h xid subs (live_members _ _ _ _ _ Hlive) (live_parents _ _ _ _ _ Hlive)
    (live_recent _ _ _ _ _ Hlive) Q committed aborted x HQ Htop Hx) as (n & Hn).
  exists n. intros fuel t Hf <- Hl Hcache Hcx. destruct (Hn fuel t Hf) as [(t1 & E1 & _) (t2 & E2 & _)]; [by split_and! |]. split; by eexists.
Qed.

Lemma undecided_answers clog : clog_ok clog -> undecided xid subs clog -> tree_answers TransactionXmin D h xid subs false false clog.
Proof.
  intros Hc [Hx Hs]. apply (answers_of (fun x e => e = TRANSACTION_STATUS_IN_PROGRESS \/ x ∈ subs /\ e = TRANSACTION_STATUS_SUB_COMMITTED)); [done | |].
  - intros y [-> | Hy]%elem_of_cons; [eauto |]. destruct (Hs y Hy); eauto.
  - intros y e _ [-> | ?]; [by right | by left].
Qed.

Lemma decided_answers clog : clog_ok clog -> decided xid subs clog -> tree_answers TransactionXmin D h xid subs true false clog.
Proof.
  intros Hc [Hx Hs]. apply (answers_of (fun x e => e = TRANSACTION_STATUS_COMMITTED \/ x ∈ subs /\ e = TRANSACTION_STATUS_SUB_COMMITTED)); [done | |].
  - intros y [-> | Hy]%elem_of_cons; [eauto |]. destruct (Hs y Hy); eauto.
  - intros y e _ [-> | ?]; [by right | by left].
Qed.

Lemma live_xid : TransactionIdIsValid xid = true /\ forall x, x ∈ xid :: subs -> 0 <= x.
Proof.
  assert (Hn : forall x, x ∈ xid :: subs -> normal_xid x) by (intros x Hx; by apply Hlive, Hlive).
  split; [by apply normal_valid, Hn; left |]. intros x Hx%Hn. unfold normal_xid, FirstNormalTransactionId in Hx. lia.
Qed.

Lemma hist_answers hist :
  Forall clog_ok hist -> turning xid subs (decided xid subs) hist ->
  exists before after, hist = before ++ after /\
    Forall (tree_answers TransactionXmin D h xid subs false false) before /\ Forall (tree_answers TransactionXmin D h xid subs true false) after.
Proof.
  intros Hok (h1 & h2 & -> & H1 & H2). apply Forall_app in Hok as [Hok1 Hok2]. exists h1, h2. split; [done |]. rewrite !Forall_forall in *.
  split; intros c Hc; [apply undecided_answers | apply decided_answers]; auto.
Qed.
End Answers.

(** C5: A commit is atomic for those who ask meanwhile.  Committing a transaction
    with its subtransactions, whose statuses may lie on several pages that are
    locked one after the other, succeeds; in the states of the commit log after
    each page there is one moment before which [TransactionIdDidCommit] says no
    for the transaction and for every subtransaction, and from which on it says
    yes for all of them, for any cache that agrees with the log; at the end it
    says yes, and [TransactionIdDidAbort] never does. *)
Theorem commit_tree_atomic TransactionXmin D h xid subs post clog :
  live_tree TransactionXmin D h xid subs -> clog_ok clog -> undecided xid subs clog ->
  exists before after clog',
    TransactionIdCommitTree (observed (TransactionIdSetPageStatus false)) xid (zlen subs) (subs ++ post) ([], clog) = Ok (before ++ after, clog') /\
    TransactionIdCommitTree (TransactionIdSetPageStatus false) xid (zlen subs) (subs ++ post) clog = Ok clog' /\
    Forall (tree_answers TransactionXmin D h xid subs false false) (clog :: before) /\
    Forall (tree_answers TransactionXmin D h xid subs true false) (after ++ [clog']).
Proof.
  intros Hlive Hc Hu. destruct (live_xid _ _ _ _ _ Hlive) as [Hxid Hpos].
  destruct (commit_tree_observed xid subs clog Hxid Hpos (live_root _ _ _ _ _ Hlive) post Hc Hu) as (hist & clog' & E & Hb & Ht & Hok' & Hs & _).
  destruct (hist_answers TransactionXmin D h xid subs Hlive hist) as (before & after & -> & H1 & H2); [| done |].
  { eapply Forall_impl; [exact Hb |]. by intros c []. }
  exists before, after, clog'. split; [exact E |]. split; [apply (observed_tree _ _ _ _ _ _ _ E) |]. split.
  - constructor; [by apply undecided_answers | done].
  - apply Forall_app. split; [done |]. constructor; [| done]. apply decided_answers; [done | done |]. split; [apply Hs; by left |]. intros x Hx. left. apply Hs. by right.
Qed.

(** C28: An aborted tree is aborted for everybody.  [TransactionIdAbortTree]
    succeeds on a tree whose statuses the log knows; afterwards
    [TransactionIdDidAbort] says yes and [TransactionIdDidCommit] no for the
    transaction and every subtransaction, and the status of any other
    transaction is as before. *)
Theorem abort_tree_final TransactionXmin D h xid subs post clog :
  live_tree TransactionXmin D h xid subs -> clog_ok clog -> (forall x, x ∈ xid :: subs -> known clog x) ->
  exists clog', TransactionIdAbortTree (TransactionIdSetPageStatus false) xid (zlen subs) (subs ++ post) clog = Ok clog' /\
    tree_answers TransactionXmin D h xid subs false true clog' /\
    forall y e, 0 <= y -> y ∉ xid :: subs -> status_at clog y = Some e -> status_at clog' y = Some e.
Proof.
  intros Hlive Hc Hk. destruct (live_xid _ _ _ _ _ Hlive) as [Hxid Hpos].
  destruct (abort_tree_ok xid subs post clog Hc Hxid) as (clog' & E & Hok & Hs & Hkeep); [auto |]. exists clog'. split_and!; try done.
  apply (answers_of _ _ _ _ _ Hlive (fun _ e => e = TRANSACTION_STATUS_ABORTED)); [done | intros x Hx; eauto |]. intros x e _ ->. by right.
Qed.

(** A tree of four transactions around the end of a page. *)
Definition example_subs : list Z := [131071; 131072; 131073].
Definition example_links : list (Z * Z) := [(131073, 131071); (131072, 131070); (131071, 131070)].

Lemma example_live : live_tree 131070 (fun x => 131070 <= x <= 131073) example_links 131070 example_subs.
Proof.
  assert (Hcases : forall x, x ∈ example_subs -> x = 131071 \/ x = 131072 \/ x = 131073) by (intros x; unfold example_subs; set_solver).
  split; try done.
  - unfold normal_xid, FirstNormalTransactionId. lia.
  - intros x [-> | Hx%Hcases]%elem_of_cons; lia.
  - intros x Hx%Hcases. assert (H1 : topmost (parent_of example_links) 131071 131070) by (apply topmost_up; [done |]; by apply topmost_self).
    destruct Hx as [-> | [-> | ->]]; cbn; (split; [set_solver |]); [done | | by apply topmost_up].
    apply topmost_up; [done |]. by apply topmost_self.
  - intros x Hx%Hcases. by destruct Hx as [-> | [-> | ->]].
  - unfold example_subs. set_solver by lia.
Qed.

Lemma example_clog : exists clog, clog_ok clog /\ undecided 131070 example_subs clog.
Proof.
  assert (H0 : clog_ok (SimpleLruInit 8 ∅)).
  { split; [apply slru_init_ok; lia |]. intros p page Hp E. rewrite content_disk in E; [done | by apply slru_init_ok; lia |].
    intros j r Hj. apply lookup_replicate in Hj as [-> _]. unfold holds, is_empty. cbn. by rewrite andb_false_r. }
  destruct (extend_clog_ok FirstNormalTransactionId _ H0 ltac:(done) ltac:(by right)) as (c1 & _ & Hok1 & H1 & _).
  destruct (extend_clog_ok 131072 c1 Hok1 ltac:(lia) ltac:(by left)) as (c2 & _ & Hok2 & H2 & Hk2).
  assert (P0 : Clog.TransactionIdToPage FirstNormalTransactionId = 0) by done. assert (P1 : Clog.TransactionIdToPage 131072 = 1) by done.
  rewrite P0 in H1. rewrite P1 in H2, Hk2. exists c2. split; [done |]. split.
  - apply Hk2; [lia | done |]. by apply H1.
  - intros x Hx. left. assert (Hc : x = 131071 \/ x = 131072 \/ x = 131073) by (revert Hx; unfold example_subs; set_solver).
    destruct Hc as [-> | [-> | ->]]; [| by apply H2 | by apply H2]. apply Hk2; [lia | done |]. by apply H1.
Qed.

Lemma example_subtrans : exists sub, links_ok (fun x => 131070 <= x <= 131073) example_links sub.
Proof.
  destruct (zero_subtrans_page 31 _ (slru_init_ok (P := list SubTransData) 8 ∅ ltac:(lia)) ltac:(done)) as (k & st1 & _ & Hok1 & Hz1 & _).
  destruct (zero_subtrans_page 32 st1 Hok1 ltac:(done)) as (k2 & st2 & _ & Hok2 & Hz2 & Hk2).
  destruct (set_parents_ok (fun x => 131070 <= x <= 131073) (live_normal _ _ _ _ _ example_live) example_links st2) as (sub & _ & Hl); try done.
  - cbn. split_and!; try lia; intros y q Hin; set_solver by lia.
  - intros x Hx. destruct (Z.lt_ge_cases x 131072).
    + assert (Ep : SubTrans.TransactionIdToPage x = 31) by (unfold SubTrans.TransactionIdToPage; rewrite xacts_per_page; zlia).
      apply Hk2; [lia | rewrite Ep; done |]. by apply Hz1; [lia |].
    + apply Hz2; [lia |]. unfold SubTrans.TransactionIdToPage. rewrite xacts_per_page. zlia.
  - by exists sub.
Qed.

Lemma commit_tree_atomic_witness :
  exists clog clog' sub t n,
    TransactionIdCommitTree (TransactionIdSetPageStatus false) 131070 3 example_subs clog = Ok clog' /\
    TransactionIdDidCommit 131070 n 131073 (mkTransLog 0 0 clog' sub) = Ok (true, t).
Proof.
  destruct example_clog as (clog & Hok & Hu). destruct example_subtrans as (sub & Hl).
  destruct (commit_tree_atomic 131070 _ example_links 131070 example_subs [] clog example_live Hok Hu) as (before & after & clog' & _ & E & _ & Ha).
  apply Forall_app in Ha as [_ Ha]. apply Forall_inv in Ha. destruct (Ha 131073) as (n & Hn); [unfold example_subs; set_solver |].
  destruct (Hn n (mkTransLog 0 0 clog' sub)) as [(t & Et) _]; try done; [by left | by left |]. exists clog, clog', sub, t, n. split; [exact E | exact Et].
Defined.

Lemma abort_tree_final_witness :
  exists clog clog' sub t n,
    TransactionIdAbortTree (TransactionIdSetPageStatus false) 131070 3 example_subs clog = Ok clog' /\
    TransactionIdDidAbort 131070 n 131073 (mkTransLog 0 0 clog' sub) = Ok (true, t).
Proof.
  destruct example_clog as (clog & Hok & Hx & Hs). destruct example_subtrans as (sub & Hl).
  destruct (abort_tree_final 131070 _ example_links 131070 example_subs [] clog example_live Hok) as (clog' & E & Ha & _).
  { intros x [-> | Hin]%elem_of_cons; [by eexists |]. destruct (Hs x Hin); by eexists. }
  destruct (Ha 131073) as (n & Hn); [unfold example_subs; set_solver |].
  destruct (Hn n (mkTransLog 0 0 clog' sub)) as [_ (t & Et)]; try done; [by left | by left |]. exists clog, clog', sub, t, n. split; [exact E | exact Et].
Defined.
