(* ===== verification/LegacyHash.v ===== *)
(** * The hash functions of older releases

    Models src/backend/cdb/cdblegacyhash.c: FNV-1 over the bytes of a value,
    one function per type, and which functions and types belong to the scheme.
    The hash so far, which the code passes in the global [magic_hash_stash], is
    an argument.  A value is what the function reads of its argument: an integer
    at its width, the bits of a float, the bytes of a string, the fields of a
    struct in the order of its declaration.  The machine is little-endian.

    With [bpchareq] (utils/adt/varchar.c) and [interval_cmp_internal]
    (utils/adt/timestamp.c), the equalities that the hashes of strings and
    intervals have to agree with. *)

From stdpp Require Import base list.
From Stdlib Require Import String.
From S2P Require Import Prelude.

Definition FNV1_32_INIT : Z := 0x811c9dc5.
Definition FNV_32_PRIME : Z := 0x01000193.
Definition NULL_VAL : Z := 0xF0F0F0F1.
Definition NAN_VAL : Z := 0xE0E0E0E1.

(** ** FNV-1 *)

(** The octet [b] goes into the hash; the product by the prime is written with shifts. *)
Definition fnv_step (hval b : Z) : Z :=
  let hval := u32 (hval + (u32 (Z.shiftl hval 1) + u32 (Z.shiftl hval 4) + u32 (Z.shiftl hval 7) +
                           u32 (Z.shiftl hval 8) + u32 (Z.shiftl hval 24))) in
  Z.lxor hval b.

Definition fnv1_32_buf (buf : list Z) (len hval : Z) : outcome Z :=
  bytes ← mem_read buf 0 len;
  Ok (fold_left fnv_step bytes hval).

Definition hashFn (magic_hash_stash : Z) (buf : list Z) (len : Z) : outcome Z := fnv1_32_buf buf len magic_hash_stash.

(** The length without trailing blanks, down to one; [fuel] is the length. *)
Fixpoint ignoreblanks_loop (fuel : nat) (data : list Z) (len : Z) : outcome Z :=
  match fuel with
  | O => Err "fuel"
  | S fuel =>
      c ← zget data (len - 1);
      if c =? 32 then
        let len := len - 1 in
        if len =? 1 then Ok len else ignoreblanks_loop fuel data len
      else Ok len
  end.

Definition ignoreblanks (data : list Z) (len : Z) : outcome Z := ignoreblanks_loop (Z.to_nat len) data len.

Record inet_struct := mkInet { family : Z; bits : Z; ipaddr : list Z }.

Definition PGSQL_AF_INET : Z := 2.
Definition PGSQL_AF_INET6 : Z := 3.

(** The key and its length. *)
Definition inet_getkey (addr : inet_struct) (inet_key : list Z) : outcome (list Z * Z) :=
  let addrsize := if family addr =? PGSQL_AF_INET then 4 else if family addr =? PGSQL_AF_INET6 then 16 else 0 in
  inet_key ← zset inet_key 0 (family addr);
  inet_key ← zset inet_key 1 (bits addr);
  address ← mem_read (ipaddr addr) 0 addrsize;
  inet_key ← mem_write inet_key 2 address;
  Ok (inet_key, addrsize + 2).

(** ** One function per type *)

Definition int64_bytes (v : Z) : list Z := le_split 8 (u64 v).

(** The bits of a float, those of minus zero replaced by those of zero. *)
Definition zero_float (w : Z) (v : Z) : Z := if (v =? 0) || (v =? 2 ^ (w - 1)) then 0 else v.

Record Interval := mkInterval { time : Z; day : Z; month : Z }.
Record TimeTzADT := mkTimeTz { tz_time : Z; zone : Z }.
Record Numeric := mkNumeric { num_nan : bool; num_digits : list Z }.

Definition interval_bytes (i : Interval) : list Z := int64_bytes (time i) ++ le_split 4 (u32 (day i)) ++ le_split 4 (u32 (month i)).
(** The last four bytes of the struct are padding. *)
Definition timetz_bytes (t : TimeTzADT) (pad : list Z) : list Z := int64_bytes (tz_time t) ++ le_split 4 (u32 (zone t)) ++ pad.

Section Types.
  Context (magic_hash_stash : Z).

  #[local] Notation hashFn := (hashFn magic_hash_stash).

Definition cdblegacyhash_int2 (v : Z) : outcome Z := let intbuf := v in hashFn (int64_bytes intbuf) 8.
Definition cdblegacyhash_int4 (v : Z) : outcome Z := let intbuf := v in hashFn (int64_bytes intbuf) 8.
Definition cdblegacyhash_int8 (v : Z) : outcome Z := let intbuf := v in hashFn (int64_bytes intbuf) 8.
Definition cdblegacyhash_float4 (v : Z) : outcome Z := hashFn (le_split 4 (zero_float 32 v)) 4.
Definition cdblegacyhash_float8 (v : Z) : outcome Z := hashFn (le_split 8 (zero_float 64 v)) 8.

Definition cdblegacyhash_numeric (num : Numeric) : outcome Z :=
  if num_nan num then hashFn (le_split 4 NAN_VAL) 4
  else hashFn (flat 2 (map u16 (num_digits num))) (zlen (num_digits num) * 2).

Definition cdblegacyhash_char (v : Z) : outcome Z := hashFn [v] 1.

Definition cdblegacyhash_text (buf : list Z) : outcome Z :=
  let len := zlen buf in
  len ← (if 1 <? len then ignoreblanks buf len else Ok len);
  hashFn buf len.

Definition cdblegacyhash_bpchar (buf : list Z) : outcome Z := cdblegacyhash_text buf.

Definition cdblegacyhash_bytea (buf : list Z) : outcome Z := hashFn buf (zlen buf).

Definition NAMEDATALEN : Z := 64.

Definition cdblegacyhash_name (namebuf : list Z) : outcome Z :=
  len ← ignoreblanks namebuf NAMEDATALEN;
  hashFn namebuf len.

(** An Oid is read as a signed integer. *)
Definition cdblegacyhash_oid (v : Z) : outcome Z := let intbuf := s32 v in hashFn (int64_bytes intbuf) 8.

(** The two halves of the block number, and the offset. *)
Definition cdblegacyhash_tid (bi_hi bi_lo posid : Z) : outcome Z := hashFn (flat 2 [bi_hi; bi_lo; posid]) (4 + 2).

Definition cdblegacyhash_timestamp (v : Z) : outcome Z := hashFn (int64_bytes v) 8.
Definition cdblegacyhash_timestamptz (v : Z) : outcome Z := hashFn (int64_bytes v) 8.
Definition cdblegacyhash_date (v : Z) : outcome Z := hashFn (le_split 4 (u32 v)) 4.
Definition cdblegacyhash_time (v : Z) : outcome Z := hashFn (int64_bytes v) 8.
Definition cdblegacyhash_timetz (t : TimeTzADT) (pad : list Z) : outcome Z := hashFn (timetz_bytes t pad) (8 + 4).
Definition cdblegacyhash_interval (i : Interval) : outcome Z := hashFn (interval_bytes i) (8 + 4).

Definition cdblegacyhash_inet (addr : inet_struct) : outcome Z :=
  '(inet_hkey, len) ← inet_getkey addr (replicate 18 0);
  hashFn inet_hkey len.

Definition cdblegacyhash_macaddr (mac : list Z) : outcome Z := hashFn mac 6.
Definition cdblegacyhash_bit (bytes : list Z) : outcome Z := hashFn bytes (zlen bytes).
Definition cdblegacyhash_bool (b : bool) : outcome Z := hashFn [if b then 1 else 0] 1.
(** The bytes of the array after its length word. *)
Definition cdblegacyhash_array (data : list Z) : outcome Z := hashFn data (zlen data).
Definition cdblegacyhash_oidvector (values : list Z) : outcome Z := hashFn (flat 4 values) (zlen values * 4).
Definition cdblegacyhash_cash (v : Z) : outcome Z := hashFn (int64_bytes v) 8.
Definition cdblegacyhash_uuid (data : list Z) : outcome Z := hashFn data 16.

Definition cdblegacyhash_complex (re im : Z) : outcome Z :=
  hashFn (le_split 8 (zero_float 64 re) ++ le_split 8 (zero_float 64 im)) 16.

Definition cdblegacyhash_anyenum (v : Z) : outcome Z := let intbuf := s32 v in hashFn (int64_bytes intbuf) 8.
Definition cdblegacyhash_null : outcome Z := hashFn (le_split 4 NULL_VAL) 4.
End Types.

(** ** The functions and the types of the scheme *)

(** The functions have the object ids from that of int2 to that of anyenum, but
    for three between those of interval and inet. *)
Definition isLegacyCdbHashFunction (funcid : Z) : bool :=
  bool_decide (funcid ∈ [6140; 6141; 6142; 6143; 6144; 6145; 6146; 6147; 6148; 6149; 6150; 6151; 6152; 6153; 6154; 6155; 6156;
                         6157; 6158; 6162; 6163; 6164; 6165; 6166; 6167; 6168; 6170; 6169; 6171]).

Definition opclass_names : list (Z * string) :=
  [(21, "cdbhash_int2_ops"); (23, "cdbhash_int4_ops"); (20, "cdbhash_int8_ops"); (700, "cdbhash_float4_ops");
   (701, "cdbhash_float8_ops"); (1700, "cdbhash_numeric_ops"); (18, "cdbhash_char_ops"); (1042, "cdbhash_bpchar_ops");
   (25, "cdbhash_text_ops"); (1043, "cdbhash_text_ops"); (17, "cdbhash_bytea_ops"); (19, "cdbhash_name_ops");
   (26, "cdbhash_oid_ops"); (27, "cdbhash_tid_ops"); (24, "cdbhash_oid_ops"); (2202, "cdbhash_oid_ops");
   (2203, "cdbhash_oid_ops"); (2204, "cdbhash_oid_ops"); (2205, "cdbhash_oid_ops"); (2206, "cdbhash_oid_ops");
   (1114, "cdbhash_timestamp_ops"); (1184, "cdbhash_timestamptz_ops"); (1082, "cdbhash_date_ops"); (1083, "cdbhash_time_ops");
   (1266, "cdbhash_timetz_ops"); (1186, "cdbhash_interval_ops"); (869, "cdbhash_inet_ops"); (650, "cdbhash_inet_ops");
   (829, "cdbhash_macaddr_ops"); (1560, "cdbhash_bit_ops"); (1562, "cdbhash_bit_ops"); (16, "cdbhash_bool_ops");
   (30, "cdbhash_oidvector_ops"); (790, "cdbhash_cash_ops"); (2950, "cdbhash_uuid_ops"); (7198, "cdbhash_complex_ops");
   (3500, "cdbhash_enum_ops")].

Definition InvalidOid : Z := 0.

(** The catalog gives the base type of a domain, whether a type is an
    enumeration, and the operator class of a name. *)
Definition get_legacy_cdbhash_opclass_for_base_type (getBaseType : Z -> Z) (type_is_enum : Z -> bool) (get_opclass_oid : string -> Z)
    (orig_typid : Z) : Z :=
  let typid := getBaseType orig_typid in
  let opclass_name :=
    match list_find (fun e => fst e = typid) opclass_names with
    | Some (_, (_, name)) => Some name
    | None => if type_is_enum typid then Some "cdbhash_enum_ops"%string else None
    end in
  match opclass_name with
  | None => InvalidOid
  | Some name => get_opclass_oid name
  end.

(** ** Equalities *)

(** The loop from the last character down; [i + 1] is the result. *)
Fixpoint truelen_loop (n : nat) (s : list Z) : outcome Z :=
  match n with
  | O => Ok 0
  | S i =>
      c ← zget s (Z.of_nat i);
      if negb (c =? 32) then Ok (Z.of_nat i + 1) else truelen_loop i s
  end.

Definition bpchartruelen (s : list Z) (len : Z) : outcome Z := truelen_loop (Z.to_nat len) s.

(** For collations that compare bytes. *)
Definition bpchareq (arg1 arg2 : list Z) : outcome bool :=
  len1 ← bpchartruelen arg1 (zlen arg1);
  len2 ← bpchartruelen arg2 (zlen arg2);
  if negb (len1 =? len2) then Ok false
  else
    s1 ← mem_read arg1 0 len1;
    s2 ← mem_read arg2 0 len1;
    Ok (bool_decide (s1 = s2)).

Definition USECS_PER_DAY : Z := 86400000000.

(** The division truncates; the sum does not overflow 128 bits. *)
Definition interval_cmp_value (interval : Interval) : Z :=
  let dayfraction := Z.rem (time interval) USECS_PER_DAY in
  let days := Z.quot (time interval) USECS_PER_DAY in
  let days := days + month interval * 30 in
  let days := days + day interval in
  dayfraction + days * USECS_PER_DAY.

Definition interval_cmp_internal (interval1 interval2 : Interval) : comparison :=
  (interval_cmp_value interval1 ?= interval_cmp_value interval2).

Definition interval_eq (interval1 interval2 : Interval) : bool :=
  match interval_cmp_internal interval1 interval2 with Eq => true | _ => false end.

(** ** The shifts multiply by the prime *)

Definition fnv1 (bytes : list Z) (hval : Z) : Z := fold_left (fun h b => Z.lxor (u32 (h * FNV_32_PRIME)) b) bytes hval.

Lemma fnv_step_prime h b : fnv_step h b = Z.lxor (u32 (h * FNV_32_PRIME)) b.
Proof.
  unfold fnv_step. f_equal. unfold u32, FNV_32_PRIME. rewrite !Z.shiftl_mul_pow2 by lia.
  set (m := 2 ^ 32). assert (Hm : m <> 0) by done.
  assert (E : forall x, exists k, x mod m = x + k * m) by (intros x; exists (- (x / m)); rewrite Z.mod_eq by done; lia).
  destruct (E (h * 2 ^ 1)) as [k1 ->], (E (h * 2 ^ 4)) as [k2 ->], (E (h * 2 ^ 7)) as [k3 ->], (E (h * 2 ^ 8)) as [k4 ->], (E (h * 2 ^ 24)) as [k5 ->].
  rewrite <- (Z.mod_add (h * 16777619) (k1 + k2 + k3 + k4 + k5) m) by done. f_equal. lia.
Qed.

Lemma fnv1_ok buf len h : fnv1_32_buf buf len h = (bytes ← mem_read buf 0 len; Ok (fnv1 bytes h)).
Proof.
  unfold fnv1_32_buf. destruct (mem_read buf 0 len) as [bytes | |]; [| done | done]. cbn [mbind outcome_bind]. f_equal. unfold fnv1.
  revert h. induction bytes as [| b bytes IH]; intros h; [done |]. cbn [fold_left]. by rewrite fnv_step_prime, IH.
Qed.

Lemma fnv1_front a b h : fnv1_32_buf (a ++ b) (zlen a) h = Ok (fnv1 a h).
Proof. rewrite fnv1_ok, mem_read_front by done. done. Qed.

Lemma fnv1_whole a h : fnv1_32_buf a (zlen a) h = Ok (fnv1 a h).
Proof. rewrite <- (app_nil_r a) at 1. apply fnv1_front. Qed.

(** ** Trailing blanks *)

(** A string is a part that does not end in a blank, and blanks. *)
Definition stripped (t : list Z) : Prop := t = [] \/ exists t' c, t = t' ++ [c] /\ c <> 32.

Lemma strip_blanks s : exists t k, s = t ++ replicate k 32 /\ stripped t.
Proof.
  induction s as [| c s IH] using rev_ind; [by exists [], 0%nat; split; [| left] |]. destruct (Z.eq_dec c 32) as [-> | Hc].
  - destruct IH as (t & k & -> & Ht). exists t, (S k). split; [| done]. rewrite <- app_assoc. f_equal. by rewrite <- replicate_cons_app.
  - exists (s ++ [c]), 0%nat. split; [by rewrite app_nil_r |]. right. by exists s, c.
Qed.

Lemma zget_blank (t : list Z) k (i : nat) : (i < k)%nat -> zget (t ++ replicate k 32) (zlen t + Z.of_nat i) = Ok 32.
Proof.
  intros Hi. rewrite (zget_lookup _ _ 32); [done | unfold zlen; lia |]. rewrite lookup_app_r by (unfold zlen; lia).
  apply lookup_replicate_2. unfold zlen. lia.
Qed.

Lemma zget_last (t : list Z) c r : zget ((t ++ [c]) ++ r) (zlen t) = Ok c.
Proof. rewrite <- app_assoc. apply zget_mid. Qed.

Lemma truelen_ok t k : forall j, stripped t -> (j <= k)%nat -> truelen_loop (length t + j) (t ++ replicate k 32) = Ok (zlen t).
Proof.
  intros j Ht. induction j as [| j IH]; intros Hj.
  - rewrite Nat.add_0_r. destruct Ht as [-> | (t' & c & -> & Hc)]; [done |]. rewrite length_app, Nat.add_1_r. cbn [truelen_loop].
    change (Z.of_nat (length t')) with (zlen t'). rewrite zget_last. cbn [mbind outcome_bind].
    replace (c =? 32) with false by lia. cbn [negb]. by rewrite zlen_app.
  - rewrite Nat.add_succ_r. cbn [truelen_loop]. replace (Z.of_nat (length t + j)) with (zlen t + Z.of_nat j) by (unfold zlen; lia).
    rewrite zget_blank by lia. cbn [mbind outcome_bind Z.eqb Pos.eqb negb]. apply IH. lia.
Qed.

Lemma ignoreblanks_stripped t k : forall j fuel,
  stripped t -> t <> [] -> (j <= k)%nat -> (j < fuel)%nat ->
  ignoreblanks_loop fuel (t ++ replicate k 32) (zlen t + Z.of_nat j) = Ok (zlen t).
Proof.
  intros j fuel Ht Hne. revert j. induction fuel as [| fuel IH]; intros j Hj Hf; [lia |]. cbn [ignoreblanks_loop].
  assert (Hlen : 1 <= zlen t) by (destruct t; [done | rewrite zlen_cons; pose proof (zlen_nonneg t); lia]).
  destruct j as [| j].
  - destruct Ht as [-> | (t' & c & -> & Hc)]; [done |]. rewrite !Z.add_0_r. replace (zlen (t' ++ [c]) - 1) with (zlen t') by (rewrite zlen_app, zlen_cons, zlen_nil; lia).
    rewrite zget_last. cbn [mbind outcome_bind]. by replace (c =? 32) with false by lia.
  - replace (zlen t + Z.of_nat (S j) - 1) with (zlen t + Z.of_nat j) by lia. rewrite zget_blank by lia. cbn [mbind outcome_bind Z.eqb Pos.eqb].
    destruct (Z.eqb_spec (zlen t + Z.of_nat j) 1) as [E | _]; [f_equal; lia | apply IH; lia].
Qed.

Lemma ignoreblanks_blank k : forall j fuel,
  (2 + j <= k)%nat -> (j < fuel)%nat -> ignoreblanks_loop fuel (replicate k 32) (2 + Z.of_nat j) = Ok 1.
Proof.
  intros j fuel. revert j. induction fuel as [| fuel IH]; intros j Hj Hf; [lia |]. cbn [ignoreblanks_loop].
  pose proof (zget_blank [] k (S j) ltac:(lia)) as E. change (zlen []) with 0 in E. cbn [app] in E.
  replace (2 + Z.of_nat j - 1) with (0 + Z.of_nat (S j)) by lia. rewrite E. cbn [mbind outcome_bind Z.eqb Pos.eqb].
  destruct (Z.eqb_spec (0 + Z.of_nat (S j)) 1) as [E1 | N1]; [by rewrite E1 |]. destruct j as [| j]; [lia |].
  replace (0 + Z.of_nat (S (S j))) with (2 + Z.of_nat j) by lia. apply IH; lia.
Qed.

(** What is hashed of a string that is not empty. *)
Lemma text_hash_ok stash t k :
  stripped t -> t ++ replicate k 32 <> [] ->
  cdblegacyhash_text stash (t ++ replicate k 32) = Ok (fnv1 (match t with [] => [32] | _ => t end) stash).
Proof.
  intros Ht Hne. unfold cdblegacyhash_text, hashFn, ignoreblanks.
  assert (Elen : zlen (t ++ replicate k 32) = zlen t + Z.of_nat k) by (by rewrite zlen_app, zlen_replicate). rewrite Elen.
  destruct (decide (t = [])) as [-> | Hn].
  - change (zlen []) with 0. cbn [app]. rewrite !Z.add_0_l. destruct k as [| [| k]]; [by destruct Hne | apply (fnv1_whole [32]) |].
    replace (1 <? Z.of_nat (S (S k))) with true by lia. replace (Z.of_nat (S (S k))) with (2 + Z.of_nat k) by lia.
    rewrite ignoreblanks_blank by lia. cbn [mbind outcome_bind]. cbn [replicate]. apply (fnv1_front [32]).
  - assert (Hlen : 1 <= zlen t) by (destruct t; [done | rewrite zlen_cons; pose proof (zlen_nonneg t); lia]).
    replace (match t with [] => [32] | _ => t end) with t by (by destruct t). destruct (Z.ltb_spec 1 (zlen t + Z.of_nat k)) as [H1 | H1].
    + rewrite ignoreblanks_stripped; [| done | done | lia | lia]. cbn [mbind outcome_bind]. apply fnv1_front.
    + assert (k = 0%nat) as -> by lia. cbn [mbind outcome_bind]. rewrite Z.add_0_r. apply fnv1_front.
Qed.

Lemma bpchareq_ok t1 k1 t2 k2 :
  stripped t1 -> stripped t2 -> bpchareq (t1 ++ replicate k1 32) (t2 ++ replicate k2 32) = Ok (bool_decide (t1 = t2)).
Proof.
  intros H1 H2. unfold bpchareq, bpchartruelen.
  assert (E : forall t k, stripped t -> truelen_loop (Z.to_nat (zlen (t ++ replicate k 32))) (t ++ replicate k 32) = Ok (zlen t)).
  { intros t k Ht. replace (Z.to_nat _) with (length t + k)%nat by (rewrite zlen_app, zlen_replicate; unfold zlen; lia). by apply truelen_ok. }
  rewrite (E t1 k1 H1). cbn [mbind outcome_bind]. rewrite (E t2 k2 H2). cbn [mbind outcome_bind].
  destruct (Z.eqb_spec (zlen t1) (zlen t2)) as [El | Nl]; cbn [negb].
  - rewrite mem_read_front by done. cbn [mbind outcome_bind]. rewrite mem_read_front by done. done.
  - rewrite bool_decide_eq_false_2; [done |]. by intros ->.
Qed.

(** The hash of a string agrees with the equality of its type.  Two strings of
    blank-padded characters that are not empty and equal under [bpchareq], which
    ignores trailing blanks, have the same hash, whatever was hashed before;
    hashing them does not fail. *)
Theorem legacy_bpchar_hash a b stash :
  a <> [] -> b <> [] -> bpchareq a b = Ok true ->
  exists h, cdblegacyhash_bpchar stash a = Ok h /\ cdblegacyhash_bpchar stash b = Ok h.
Proof.
  intros Ha Hb E. destruct (strip_blanks a) as (t1 & k1 & -> & H1), (strip_blanks b) as (t2 & k2 & -> & H2).
  rewrite bpchareq_ok in E by done. injection E as E%bool_decide_eq_true. subst t2. unfold cdblegacyhash_bpchar.
  rewrite !text_hash_ok by done. by eexists.
Qed.

Lemma legacy_bpchar_hash_witness :
  exists h, cdblegacyhash_bpchar FNV1_32_INIT [97; 32; 98] = Ok h /\ cdblegacyhash_bpchar FNV1_32_INIT [97; 32; 98; 32; 32] = Ok h.
Proof. by apply (legacy_bpchar_hash [97; 32; 98] [97; 32; 98; 32; 32]). Defined.

(** C39: Two hashes disagree with the equality of their types.  The empty string
    and one blank are equal under [bpchareq] and hash differently; a month and
    thirty days are equal intervals and hash differently, since the twelve bytes
    hashed of an interval are its time and its days: the hash does not depend on
    the month at all. *)
Theorem legacy_hash_disagreements :
  (bpchareq [] [32] = Ok true /\ cdblegacyhash_bpchar FNV1_32_INIT [] <> cdblegacyhash_bpchar FNV1_32_INIT [32]) /\
  (interval_eq (mkInterval 0 0 1) (mkInterval 0 30 0) = true /\
   cdblegacyhash_interval FNV1_32_INIT (mkInterval 0 0 1) <> cdblegacyhash_interval FNV1_32_INIT (mkInterval 0 30 0)) /\
  forall stash t d m m', cdblegacyhash_interval stash (mkInterval t d m) = cdblegacyhash_interval stash (mkInterval t d m').
Proof.
  split; [by split; vm_compute |]. split; [by split; vm_compute |]. intros stash t d m m'. unfold cdblegacyhash_interval, hashFn, interval_bytes.
  cbn [time day month]. rewrite !app_assoc. change (8 + 4) with (zlen (int64_bytes t ++ le_split 4 (u32 d))). by rewrite !fnv1_front.
Qed.

(** ** Integers *)

Lemma int_hash_ok stash v : cdblegacyhash_int8 stash v = Ok (fnv1 (int64_bytes v) stash).
Proof. unfold cdblegacyhash_int8, hashFn. apply (fnv1_whole (int64_bytes v)). Qed.

(** Every function returns 32 bits. *)
Lemma fnv1_bound bytes : forall h, ubits 32 h -> Forall (ubits 8) bytes -> ubits 32 (fnv1 bytes h).
Proof.
  induction bytes as [| b bytes IH]; intros h Hh Hb; [done |]. apply Forall_cons in Hb as [Hb Hbs]. apply IH; [| done].
  apply testbit_ubits; [lia | |].
  - apply Z.lxor_nonneg. pose proof (u32_bound (h * FNV_32_PRIME)). destruct Hb. lia.
  - intros i Hi. rewrite Z.lxor_spec. rewrite (ubits_testbit 32) by (apply u32_bound || done). rewrite (ubits_testbit 8 b) by (done || lia). done.
Qed.
