(* ===== verification/CdbHash.v ===== *)
(** * Rows to segments

    Models src/backend/cdb/cdbhash.c, the hash of the distribution keys of a row
    and its reduction to a segment, and the places of the executor and of COPY
    that use it for a row: [evalHashKey] of nodeMotion.c and of
    nodeSplitUpdate.c, [GetTargetSeg] of copy.c, [TupleMatchesHashFilter] of
    nodeResult.c, the check of the distribution in [ExecInsert]
    (nodeModifyTable.c) and [cdbhash_const_list] of cdbmutate.c.

    Calling a hash function is a parameter; it gets the global
    [magic_hash_stash], which the functions of [LegacyHash] read, and may fail.
    The global is threaded through, also when a call fails.  Lookups in the
    catalog are parameters.

    The jump hash computes in doubles.  All of its numbers are positive, normal
    and below 2^63: a double is a pair of a mantissa of 53 bits and an exponent,
    and the operations round the exact result to the nearest, ties to even. *)

From stdpp Require Import base list.
From Stdlib Require SpecFloat.
From S2P Require Import Prelude LegacyHash.

(** ** Doubles *)

Definition double : Type := Z * Z.

(** The ratio of two positive numbers, rounded to a mantissa of 53 bits. *)
Definition round_ratio (n d : Z) : double :=
  let k := Z.log2 n - Z.log2 d in
  let fits := if 0 <=? k then d * 2 ^ k <=? n else d <=? n * 2 ^ (- k) in
  let e := if fits then k - 52 else k - 53 in
  let n := if e <=? 0 then n * 2 ^ (- e) else n in
  let d := if e <=? 0 then d else d * 2 ^ e in
  let q := n / d in
  let r := n mod d in
  (if (d <? 2 * r) || (2 * r =? d) && Z.odd q then q + 1 else q, e).

(** For integers below 2^53. *)
Definition double_of (n : Z) : double := (n, 0).

Definition double_div (a b : double) : double := let '(m, e) := round_ratio (fst a) (fst b) in (m, e + snd a - snd b).

Definition double_mul (a b : double) : double := let '(m, e) := round_ratio (fst a * fst b) 1 in (m, e + snd a + snd b).

(** The conversion to int64 is undefined out of its range. *)
Definition int64_of_double (a : double) : outcome Z :=
  let v := if 0 <=? snd a then fst a * 2 ^ snd a else fst a / 2 ^ (- snd a) in
  if v <? 2 ^ 63 then Ok v else Ub.

(** ** The jump hash *)

(** [j = (b + 1) * ((double)(1LL << 31) / (double)((key >> 33) + 1))] *)
Definition next_jump (b key : Z) : outcome Z :=
  int64_of_double (double_mul (double_of (b + 1)) (double_div (double_of (Z.shiftl 1 31)) (double_of (u64 (Z.shiftr key 33 + 1))))).

Fixpoint jump_loop (fuel : nat) (key b j num_segments : Z) : outcome Z :=
  if j <? num_segments then
    match fuel with
    | O => Err "fuel"
    | S fuel =>
        let b := j in
        let key := u64 (u64 (key * 2862933555777941757) + 1) in
        j ← next_jump b key;
        jump_loop fuel key b j num_segments
    end
  else Ok b.

(** Each round makes [j] larger, so there are at most [num_segments] of them. *)
Definition jump_consistent_hash (key num_segments : Z) : outcome Z :=
  jump_loop (Z.to_nat num_segments) key (-1) 0 num_segments.

(** ** The hash of a row *)

Inductive CdbHashReduce := REDUCE_LAZYMOD | REDUCE_BITMASK | REDUCE_JUMP_HASH.

Record CdbHash := mkCdbHash {
  hash : Z;
  numsegs : Z;
  reducealg : CdbHashReduce;
  is_legacy_hash : bool;
  natts : Z;
  hashfuncs : list Z
}.

Definition set_hash (h : CdbHash) (v : Z) : CdbHash := mkCdbHash v (numsegs h) (reducealg h) (is_legacy_hash h) (natts h) (hashfuncs h).

Definition FASTMOD (x y : Z) : Z := Z.land x (y - 1).

Definition ispowof2 (numsegs : Z) : bool := Z.land numsegs (numsegs - 1) =? 0.

(** The [natts] functions of the array. *)
Definition makeCdbHash (numsegs natts : Z) (hashfuncs : list Z) : outcome CdbHash :=
  funcs ← mem_read hashfuncs 0 natts;
  let is_legacy_hash := existsb isLegacyCdbHashFunction funcs in
  let reducealg := if is_legacy_hash then if ispowof2 numsegs then REDUCE_BITMASK else REDUCE_LAZYMOD else REDUCE_JUMP_HASH in
  Ok (mkCdbHash 0 numsegs reducealg is_legacy_hash natts funcs).

Definition cdbhashinit (h : CdbHash) : CdbHash := set_hash h (if is_legacy_hash h then FNV1_32_INIT else 0).

(** The modulo of an unsigned and a signed integer is unsigned. *)
Definition cdbhashreduce (h : CdbHash) : outcome Z :=
  match reducealg h with
  | REDUCE_BITMASK => Ok (FASTMOD (hash h) (u32 (numsegs h)))
  | REDUCE_LAZYMOD => if u32 (numsegs h) =? 0 then Ub else Ok (hash h mod u32 (numsegs h))
  | REDUCE_JUMP_HASH => jump_consistent_hash (hash h) (numsegs h)
  end.

Definition cdbhashrandomseg (random numsegs : Z) : outcome Z := if numsegs =? 0 then Ub else Ok (random mod numsegs).

Section Row.
  Context {Datum : Type}.

  (** A function, its argument and [magic_hash_stash]; no value is a null. *)
  Context (FunctionCallInvoke : Z -> Datum -> Z -> outcome (option Z)).

(** One column; the hash and [magic_hash_stash] afterwards. *)
Definition cdbhash (h : CdbHash) (attno : Z) (datum : Datum) (isnull : bool) (magic_hash_stash : Z) : outcome CdbHash * Z :=
  let hashkey := hash h in
  let invoke stash :=
    f ← zget (hashfuncs h) (attno - 1);
    r ← FunctionCallInvoke f datum stash;
    match r with None => Err "function returned NULL" | Some hkey => Ok (u32 hkey) end in
  if negb (is_legacy_hash h) then
    let hashkey := Z.lor (u32 (Z.shiftl hashkey 1)) (if negb (Z.land hashkey 0x80000000 =? 0) then 1 else 0) in
    if negb isnull then
      (hkey ← invoke magic_hash_stash; Ok (set_hash h (Z.lxor hashkey hkey)), magic_hash_stash)
    else (Ok (set_hash h hashkey), magic_hash_stash)
  else
    let magic_hash_stash := hashkey in
    let hkey := if negb isnull then invoke magic_hash_stash else cdblegacyhash_null magic_hash_stash in
    match hkey with
    | Ok hashkey => (Ok (set_hash h hashkey), FNV1_32_INIT)
    | Err msg => (Err msg, magic_hash_stash)
    | Ub => (Ub, magic_hash_stash)
    end.

(** The loop over the keys that all of the callers have; [i] keys are hashed. *)
Fixpoint hash_keys (i : Z) (keys : list (Datum * bool)) (h : CdbHash) (magic_hash_stash : Z) : outcome CdbHash * Z :=
  match keys with
  | [] => (Ok h, magic_hash_stash)
  | (datum, isnull) :: keys =>
      match cdbhash h (i + 1) datum isnull magic_hash_stash with
      | (Ok h, magic_hash_stash) => hash_keys (i + 1) keys h magic_hash_stash
      | (e, magic_hash_stash) => (e, magic_hash_stash)
      end
  end.

Definition key_segment (h : CdbHash) (keys : list (Datum * bool)) (magic_hash_stash : Z) : outcome Z * Z :=
  let '(h, magic_hash_stash) := hash_keys 0 keys (cdbhashinit h) magic_hash_stash in
  (h ← h; cdbhashreduce h, magic_hash_stash).

(** *** Callers *)

(** nodeMotion.c; the values of the key expressions. *)
Definition evalHashKey (hashkeys : list (Datum * bool)) (h : CdbHash) (random magic_hash_stash : Z) : outcome Z * Z :=
  if 0 <? zlen hashkeys then key_segment h hashkeys magic_hash_stash
  else (cdbhashrandomseg random (numsegs h), magic_hash_stash).

(** The attributes of the policy, out of a row. *)
Definition slot_keys (attrs : list Z) (slot : Z -> Datum * bool) : list (Datum * bool) := map slot attrs.

(** copy.c *)
Definition GetTargetSeg (h : CdbHash) (attrs : list Z) (slot : Z -> Datum * bool) (random magic_hash_stash : Z) : outcome Z * Z :=
  if 0 <? zlen attrs then key_segment h (slot_keys attrs slot) magic_hash_stash
  else (cdbhashrandomseg random (numsegs h), magic_hash_stash).

(** nodeSplitUpdate.c *)
Definition split_evalHashKey (h : CdbHash) (hashAttnos : list Z) (values : Z -> Datum * bool) (magic_hash_stash : Z) : outcome Z * Z :=
  key_segment h (slot_keys hashAttnos values) magic_hash_stash.

(** nodeResult.c; no filter matches every tuple. *)
Definition TupleMatchesHashFilter (segindex : Z) (hashFilter : option CdbHash) (hashFilterColIdx : list Z) (slot : Z -> Datum * bool)
    (magic_hash_stash : Z) : outcome bool * Z :=
  match hashFilter with
  | None => (Ok true, magic_hash_stash)
  | Some h =>
      let '(targetSeg, magic_hash_stash) := key_segment h (slot_keys hashFilterColIdx slot) magic_hash_stash in
      (targetSeg ← targetSeg; Ok (targetSeg =? segindex), magic_hash_stash)
  end.

(** nodeModifyTable.c, with gp_detect_data_correctness. *)
Definition check_distribution (segindex : Z) (h : CdbHash) (attrs : list Z) (slot : Z -> Datum * bool) (magic_hash_stash : Z) : outcome () * Z :=
  let '(seg, magic_hash_stash) := key_segment h (slot_keys attrs slot) magic_hash_stash in
  (seg ← seg; if negb (seg =? u32 segindex) then Err "trying to insert row into wrong segment" else Ok (), magic_hash_stash).

(** cdbmutate.c *)
Definition cdbhash_const_list (plConsts : list (Datum * bool)) (iSegments : Z) (hashfuncs : list Z) (magic_hash_stash : Z) : outcome Z * Z :=
  match makeCdbHash iSegments (zlen plConsts) hashfuncs with
  | Ok h => key_segment h plConsts magic_hash_stash
  | Err msg => (Err msg, magic_hash_stash)
  | Ub => (Ub, magic_hash_stash)
  end.
End Row.

(** ** The catalog *)

Record amproc := mkAmproc { amproclefttype : Z; amprocrighttype : Z; amprocnum : Z; amproc_oid : Z }.
Record amop := mkAmop { amoplefttype : Z; amoprighttype : Z; amopstrategy : Z; amopopr : Z }.
Record TypeCacheEntry := mkTypeCache { hash_opf : Z; hash_proc : Z; eq_opr : Z }.

Definition HASHSTANDARD_PROC : Z := 1.
Definition HTEqualStrategyNumber : Z := 1.

Section Catalog.
  Context (get_opfamily_proc get_opfamily_member : Z -> Z -> Z -> Z -> Z).
  Context (AMPROCNUM : Z -> list amproc) (AMOPSTRATEGY : Z -> list amop) (IsBinaryCoercible : Z -> Z -> bool).
  Context (lookup_type_cache : Z -> TypeCacheEntry) (GetDefaultOpClass ResolveOpClass get_opclass_family : Z -> Z).

Definition cdb_hashproc_in_opfamily (opfamily typeoid : Z) : outcome Z :=
  let hashfunc := get_opfamily_proc opfamily typeoid typeoid HASHSTANDARD_PROC in
  if negb (hashfunc =? InvalidOid) then Ok hashfunc
  else
    let found := find (fun a => (amprocnum a =? HASHSTANDARD_PROC) && (amproclefttype a =? amprocrighttype a) &&
                                IsBinaryCoercible typeoid (amproclefttype a)) (AMPROCNUM opfamily) in
    let hashfunc := match found with Some a => amproc_oid a | None => hashfunc end in
    if hashfunc =? InvalidOid then Err "could not find hash function for type in operator family" else Ok hashfunc.

Definition cdb_eqop_in_hash_opfamily (opfamily typeoid : Z) : outcome Z :=
  let eqop := get_opfamily_member opfamily typeoid typeoid HTEqualStrategyNumber in
  if negb (eqop =? InvalidOid) then Ok eqop
  else
    let found := find (fun a => (amopstrategy a =? HTEqualStrategyNumber) && (amoplefttype a =? amoprighttype a) &&
                                IsBinaryCoercible typeoid (amoplefttype a)) (AMOPSTRATEGY opfamily) in
    let eqop := match found with Some a => amopopr a | None => eqop end in
    if eqop =? InvalidOid then Err "could not find equality operator for type in operator family" else Ok eqop.

Definition cdb_default_distribution_opfamily_for_type (typeoid : Z) : Z :=
  let tcache := lookup_type_cache typeoid in
  if hash_opf tcache =? InvalidOid then InvalidOid
  else if hash_proc tcache =? InvalidOid then InvalidOid
  else if eq_opr tcache =? InvalidOid then InvalidOid
  else hash_opf tcache.

Definition cdb_default_distribution_opclass_for_type (typeoid : Z) : Z :=
  let opfamily := cdb_default_distribution_opfamily_for_type typeoid in
  if opfamily =? InvalidOid then InvalidOid else GetDefaultOpClass typeoid.

(** The operator class that the definition names, or a default. *)
Definition cdb_get_opclass_for_column_def (gp_use_legacy_hashops : bool) (legacy_opclass : Z -> Z) (opclassName : bool) (attrType : Z) : outcome Z :=
  if opclassName then Ok (ResolveOpClass attrType)
  else
    let opclass := if gp_use_legacy_hashops then legacy_opclass attrType else InvalidOid in
    let opclass := if opclass =? InvalidOid then cdb_default_distribution_opclass_for_type attrType else opclass in
    if opclass =? InvalidOid then Err "data type has no default operator class for access method hash" else Ok opclass.

(** The functions for the attributes of a policy: their operator classes and types. *)
Fixpoint relation_hashfuncs (attrs : list (Z * Z)) : outcome (list Z) :=
  match attrs with
  | [] => Ok []
  | (opclass, typeoid) :: attrs =>
      f ← cdb_hashproc_in_opfamily (get_opclass_family opclass) typeoid;
      fs ← relation_hashfuncs attrs;
      Ok (f :: fs)
  end.

Definition makeCdbHashForRelation (numsegments : Z) (attrs : list (Z * Z)) : outcome CdbHash :=
  fs ← relation_hashfuncs attrs;
  makeCdbHash numsegments (zlen attrs) fs.
End Catalog.

(** ** Rounding *)

(** The ratio before rounding: [n / d] where the exponent is [e]. *)
Lemma round_ratio_spec n d :
  0 < n -> 0 < d ->
  exists q e N D, round_ratio n d = (q, e) /\ 0 < D /\
    (N = n * 2 ^ (- e) /\ D = d /\ e <= 0 \/ N = n /\ D = d * 2 ^ e /\ 0 < e) /\
    (q = N / D \/ q = N / D + 1 /\ 0 < N mod D) /\ 2 ^ 52 * D <= N.
Proof.
  intros Hn Hd. unfold round_ratio. set (k := Z.log2 n - Z.log2 d).
  set (fits := if 0 <=? k then d * 2 ^ k <=? n else d <=? n * 2 ^ (- k)). set (e := if fits then k - 52 else k - 53).
  set (N := if e <=? 0 then n * 2 ^ (- e) else n). set (D := if e <=? 0 then d else d * 2 ^ e).
  exists (if (D <? 2 * (N mod D)) || (2 * (N mod D) =? D) && Z.odd (N / D) then N / D + 1 else N / D), e, N, D. split; [done |].
  pose proof (Z.log2_spec n Hn) as [Hn1 Hn2]. pose proof (Z.log2_spec d Hd) as [Hd1 Hd2].
  assert (HD : 0 < D) by (unfold D; destruct (Z.leb_spec e 0); [done |]; apply Z.mul_pos_pos; [done | by apply Z.pow_pos_nonneg; lia]).
  split; [done |]. split; [unfold N, D; destruct (Z.leb_spec e 0); auto |]. split.
  { pose proof (Z.mod_pos_bound N D HD). destruct (_ || _) eqn:E; [right | by left]. split; [done |]. lia. }
  assert (Hln := Z.log2_nonneg n). assert (Hld := Z.log2_nonneg d).
  (* the cross product, with the exponents moved to the positive side *)
  assert (Hfit : forall a b, 0 <= a -> 0 <= b -> b - a = e + 52 -> d * 2 ^ b <= n * 2 ^ a).
  { intros a b Ha Hb Hab. unfold e in Hab. destruct fits eqn:Ef; unfold fits in Ef.
    - destruct (Z.leb_spec 0 k).
      + replace b with (k + a) by lia. rewrite Z.pow_add_r by lia. apply Z.leb_le in Ef. rewrite Z.mul_assoc. apply Z.mul_le_mono_nonneg_r; lia.
      + replace a with (- k + b) by lia. rewrite Z.pow_add_r by lia. apply Z.leb_le in Ef. rewrite Z.mul_assoc. apply Z.mul_le_mono_nonneg_r; lia.
    - assert (d * 2 ^ b < 2 ^ (Z.succ (Z.log2 d) + b)) by (rewrite Z.pow_add_r by lia; apply Z.mul_lt_mono_pos_r; lia).
      assert (2 ^ (Z.log2 n + a) <= n * 2 ^ a) by (rewrite Z.pow_add_r by lia; apply Z.mul_le_mono_nonneg_r; lia).
      replace (Z.succ (Z.log2 d) + b) with (Z.log2 n + a) in * by (unfold k in *; lia). lia. }
  unfold N, D. destruct (Z.leb_spec e 0) as [He | He].
  - specialize (Hfit (- e) 52 ltac:(lia) ltac:(lia) ltac:(lia)). lia.
  - specialize (Hfit 0 (52 + e) ltac:(lia) ltac:(lia) ltac:(lia)). rewrite Z.pow_add_r in Hfit by lia. lia.
Qed.

(** [a] against a number of 53 bits and a power of two. *)
Definition double_le (a : double) (c s : Z) : Prop := if 0 <=? snd a then fst a * 2 ^ snd a <= c * 2 ^ s else fst a <= c * 2 ^ s * 2 ^ (- snd a).
Definition double_ge (a : double) (c s : Z) : Prop := if 0 <=? snd a then c * 2 ^ s <= fst a * 2 ^ snd a else c * 2 ^ s * 2 ^ (- snd a) <= fst a.

Lemma quotient_ge N D C : 0 < D -> D * C <= N -> C <= N / D.
Proof. intros HD H. apply Z.div_le_lower_bound; lia. Qed.

Lemma quotient_le N D C q : 0 < D -> N <= D * C -> q = N / D \/ q = N / D + 1 /\ 0 < N mod D -> q <= C.
Proof.
  intros HD H Hq. pose proof (Z.div_mod N D ltac:(lia)). pose proof (Z.mod_pos_bound N D HD).
  destruct Hq as [-> | [-> Hr]]; [apply Z.div_le_upper_bound; lia |].
  destruct (Z.le_gt_cases (N / D + 1) C); [done |]. nia.
Qed.

(** Rounding keeps the order with the numbers that need no rounding. *)
Lemma round_ge n d c s :
  0 < n -> 0 < d -> 0 < c <= 2 ^ 53 -> 0 <= s -> d * (c * 2 ^ s) <= n -> double_ge (round_ratio n d) c s.
Proof.
  intros Hn Hd Hc Hs H. destruct (round_ratio_spec n d Hn Hd) as (q & e & N & D & -> & HD & Hcase & Hq & Hfull). unfold double_ge. cbn [fst snd].
  assert (Hge : forall C, D * C <= N -> C <= q) by (intros C HC; pose proof (quotient_ge N D C HD HC); lia).
  destruct Hcase as [(-> & -> & He) | (-> & -> & He)].
  - assert (Hq' : c * 2 ^ s * 2 ^ (- e) <= q) by (apply Hge; rewrite Z.mul_assoc; apply Z.mul_le_mono_nonneg_r; lia).
    destruct (Z.leb_spec 0 e); [| done]. replace e with 0 in * by lia. rewrite Z.mul_1_r in Hq'. lia.
  - replace (0 <=? e) with true by lia. destruct (Z.le_gt_cases e s) as [Hes | Hes].
    + assert (Hq' : c * 2 ^ (s - e) <= q). { apply Hge. replace (d * 2 ^ e * (c * 2 ^ (s - e))) with (d * (c * (2 ^ (s - e) * 2 ^ e))) by lia. rewrite <- Z.pow_add_r by lia. by replace (s - e + e) with s by lia. }
      replace (2 ^ s) with (2 ^ (s - e) * 2 ^ e) by (rewrite <- Z.pow_add_r by lia; f_equal; lia). nia.
    + assert (Hq' : 2 ^ 52 <= q) by (apply Hge; lia). assert (Hp : 2 ^ (s + 1) <= 2 ^ e) by (apply Z.pow_le_mono_r; lia).
      rewrite Z.pow_add_r in Hp by lia. assert (0 < 2 ^ s) by (apply Z.pow_pos_nonneg; lia). nia.
Qed.

Lemma round_le n d c s :
  0 < n -> 0 < d -> 0 < c <= 2 ^ 53 -> 0 <= s -> n <= d * (c * 2 ^ s) -> double_le (round_ratio n d) c s.
Proof.
  intros Hn Hd Hc Hs H. destruct (round_ratio_spec n d Hn Hd) as (q & e & N & D & -> & HD & Hcase & Hq & Hfull). unfold double_le. cbn [fst snd].
  assert (Hle : forall C, N <= D * C -> q <= C) by (intros C HC; by eapply (quotient_le N D)).
  destruct Hcase as [(-> & -> & He) | (-> & -> & He)].
  - assert (Hq' : q <= c * 2 ^ s * 2 ^ (- e)) by (apply Hle; rewrite Z.mul_assoc; apply Z.mul_le_mono_nonneg_r; lia).
    destruct (Z.leb_spec 0 e); [| done]. replace e with 0 in * by lia. rewrite Z.mul_1_r in Hq'. lia.
  - replace (0 <=? e) with true by lia. destruct (Z.le_gt_cases e s) as [Hes | Hes].
    + assert (Hq' : q <= c * 2 ^ (s - e)). { apply Hle. replace (d * 2 ^ e * (c * 2 ^ (s - e))) with (d * (c * (2 ^ (s - e) * 2 ^ e))) by lia. rewrite <- Z.pow_add_r by lia. by replace (s - e + e) with s by lia. }
      replace (2 ^ s) with (2 ^ (s - e) * 2 ^ e) by (rewrite <- Z.pow_add_r by lia; f_equal; lia). nia.
    + assert (Hp : 2 ^ (s + 1) <= 2 ^ e) by (apply Z.pow_le_mono_r; lia). rewrite Z.pow_add_r in Hp by lia.
      assert (0 < 2 ^ s) by (apply Z.pow_pos_nonneg; lia). assert (Hc' : c * 2 ^ s <= 2 ^ 52 * 2 ^ e) by nia.
      assert (Hq' : q <= 2 ^ 52) by (apply Hle; nia). assert (Hmin : 2 ^ 52 * 2 ^ e <= c * 2 ^ s) by nia. nia.
Qed.

Lemma round_mantissa n d : 0 < n -> 0 < d -> 2 ^ 52 <= fst (round_ratio n d).
Proof.
  intros Hn Hd. destruct (round_ratio_spec n d Hn Hd) as (q & e & N & D & -> & HD & _ & Hq & Hfull). cbn [fst].
  pose proof (quotient_ge N D (2 ^ 52) HD ltac:(lia)). lia.
Qed.

(** Scaling by [2^(- e)] and converting to an integer. *)
Lemma to_int_ok a e c C :
  e <= 0 -> 0 < c -> 0 <= C -> C + - e <= 62 + - e -> double_ge a c (- e) -> double_le a (2 ^ C) (- e) ->
  exists j, int64_of_double (fst a, snd a + e) = Ok j /\ c <= j.
Proof.
  destruct a as [m e2]. unfold double_ge, double_le, int64_of_double. cbn [fst snd]. intros He Hc HC HC62 G L.
  set (v := if 0 <=? e2 + e then m * 2 ^ (e2 + e) else m / 2 ^ (- (e2 + e))). exists v.
  assert (Hp : forall x, 0 <= x -> 0 < 2 ^ x) by (intros x Hx; by apply Z.pow_pos_nonneg; lia).
  assert (HC' : 2 ^ C <= 2 ^ 62) by (apply Z.pow_le_mono_r; lia).
  assert (Hv : c <= v <= 2 ^ C).
  { unfold v. destruct (Z.leb_spec 0 (e2 + e)) as [H | H].
    - replace (0 <=? e2) with true in * by lia. pose proof (Hp (- e) ltac:(lia)).
      replace (2 ^ e2) with (2 ^ (e2 + e) * 2 ^ (- e)) in * by (rewrite <- Z.pow_add_r by lia; f_equal; lia). nia.
    - assert (Hm : c * 2 ^ (- (e2 + e)) <= m <= 2 ^ C * 2 ^ (- (e2 + e))).
      { destruct (Z.leb_spec 0 e2) as [H2 | H2].
        - replace (2 ^ (- e)) with (2 ^ (- (e2 + e)) * 2 ^ e2) in * by (rewrite <- Z.pow_add_r by lia; f_equal; lia).
          pose proof (Hp e2 ltac:(lia)). nia.
        - replace (2 ^ (- (e2 + e))) with (2 ^ (- e) * 2 ^ (- e2)) by (rewrite <- Z.pow_add_r by lia; f_equal; lia). lia. }
      pose proof (Hp (- (e2 + e)) ltac:(lia)). split; [apply Z.div_le_lower_bound; lia | apply Z.div_le_upper_bound; lia]. }
  replace (v <? 2 ^ 63) with true by lia. split; [done | lia].
Qed.

Lemma next_jump_ok b key : 0 <= b < 2 ^ 31 -> 0 <= key < 2 ^ 64 -> exists j, next_jump b key = Ok j /\ b < j.
Proof.
  intros Hb Hkey. unfold next_jump. assert (Hd : 1 <= Z.shiftr key 33 + 1 <= 2 ^ 31).
  { rewrite Z.shiftr_div_pow2 by lia. split; [pose proof (Z.div_pos key (2 ^ 33)); lia |]. assert (key / 2 ^ 33 < 2 ^ 31) by (apply Z.div_lt_upper_bound; lia). lia. }
  rewrite u64_small by lia. set (d := Z.shiftr key 33 + 1) in *. change (Z.shiftl 1 31) with (2 ^ 31).
  unfold double_div, double_of. cbn [fst snd]. pose proof (round_mantissa (2 ^ 31) d ltac:(lia) ltac:(lia)) as M1.
  pose proof (round_ge (2 ^ 31) d 1 0 ltac:(lia) ltac:(lia) ltac:(lia) ltac:(lia) ltac:(lia)) as G1.
  pose proof (round_le (2 ^ 31) d (2 ^ 31) 0 ltac:(lia) ltac:(lia) ltac:(lia) ltac:(lia) ltac:(lia)) as L1.
  destruct (round_ratio (2 ^ 31) d) as [m e]. unfold double_ge, double_le in G1, L1. cbn [fst snd] in G1, L1, M1.
  destruct (Z.leb_spec 0 e) as [He | He].
  { assert (0 < 2 ^ e) by (apply Z.pow_pos_nonneg; lia). nia. }
  rewrite Z.pow_0_r, !Z.mul_1_r in *. unfold double_mul. cbn [fst snd].
  assert (Hpe : 0 < 2 ^ (- e)) by (apply Z.pow_pos_nonneg; lia).
  destruct (to_int_ok (round_ratio ((b + 1) * m) 1) e (b + 1) 62) as (j & E & Hj); try lia.
  - apply round_ge; try lia; nia.
  - replace (2 ^ 62) with (2 ^ 31 * 2 ^ 31) by done.
    assert (Hle : double_le (round_ratio ((b + 1) * m) 1) (2 ^ 31) (31 - e)).
    { apply round_le; [nia | lia | lia | lia |]. replace (2 ^ (31 - e)) with (2 ^ 31 * 2 ^ (- e)) by (rewrite <- Z.pow_add_r by lia; f_equal; lia). nia. }
    unfold double_le in *. replace (2 ^ (31 - e)) with (2 ^ 31 * 2 ^ (- e)) in Hle by (rewrite <- Z.pow_add_r by lia; f_equal; lia).
    rewrite !Z.mul_assoc in Hle. done.
  - exists j. split; [| lia]. destruct (round_ratio ((b + 1) * m) 1) as [m2 e2]. cbn [fst snd] in E. rewrite <- E. do 2 f_equal. lia.
Qed.

(** *** The doubles of the Standard Library

    On a sample of steps, [next_jump] computes what its model of IEEE arithmetic does. *)

Definition spec_double (n : Z) : SpecFloat.spec_float := SpecFloat.binary_normalize 53 1024 n 0 false.

Definition spec_trunc (f : SpecFloat.spec_float) : Z :=
  match f with
  | SpecFloat.S754_finite _ m e => if 0 <=? e then Zpos m * 2 ^ e else Zpos m / 2 ^ (- e)
  | _ => 0
  end.

Definition spec_jump (b key : Z) : Z :=
  spec_trunc (SpecFloat.SFmul 53 1024 (spec_double (b + 1)) (SpecFloat.SFdiv 53 1024 (spec_double (2 ^ 31)) (spec_double (Z.shiftr key 33 + 1)))).

Definition sample_agrees (i : Z) : bool :=
  let key := u64 (i * 0x9E3779B97F4A7C15 + i * i * 12345) in
  match next_jump (i * 7919) key with Ok j => j =? spec_jump (i * 7919) key | _ => false end.

Lemma next_jump_samples : forallb (fun i => sample_agrees (Z.of_nat i)) (seq 0 1000) = true.
Proof. vm_compute. reflexivity. Qed.

(** ** The jump hash *)

Lemma jump_key_range key : 0 <= u64 (u64 (key * 2862933555777941757) + 1) < 2 ^ 64.
Proof. apply u64_bound. Qed.

(** The loop ends, below [n] and not before [j] once it is entered. *)
Lemma jump_loop_ok n : n <= 2 ^ 31 -> forall fuel key b j, -1 <= b < j -> b < n -> n - j <= Z.of_nat fuel ->
  exists r, jump_loop fuel key b j n = Ok r /\ b <= r < n /\ (j < n -> j <= r).
Proof.
  intros Hn. induction fuel as [| fuel IH]; intros key b j Hj Hb Hf; cbn [jump_loop]; destruct (Z.ltb_spec j n) as [Hlt | Hge]; [lia | exists b; split; [done | lia] | | exists b; split; [done | lia]].
  destruct (next_jump_ok j (u64 (u64 (key * 2862933555777941757) + 1)) ltac:(lia) (jump_key_range key)) as (j' & -> & Hj'). cbn [mbind outcome_bind].
  destruct (IH (u64 (u64 (key * 2862933555777941757) + 1)) j j') as (r & -> & Hr & _); [lia | lia | lia |]. exists r. split; [done | lia].
Qed.

(** With more segments the loop goes on from where it ended. *)
Lemma jump_loop_grow n m : n <= m -> m <= 2 ^ 31 -> forall fuel fuel' key b j r r', -1 <= b < j -> b < n -> m - j <= Z.of_nat fuel' ->
  jump_loop fuel key b j n = Ok r -> jump_loop fuel' key b j m = Ok r' -> r' = r \/ n <= r'.
Proof.
  intros Hnm Hm. induction fuel as [| fuel IH]; intros fuel' key b j r r' Hj Hb Hf E E'.
  - cbn [jump_loop] in E. destruct (Z.ltb_spec j n); [done |]. injection E as <-.
    destruct (jump_loop_ok m Hm fuel' key b j Hj ltac:(lia) Hf) as (r2 & E2 & Hr2 & Hj2). rewrite E' in E2. injection E2 as <-.
    destruct (Z.lt_ge_cases j m); [lia |]. destruct fuel'; cbn [jump_loop] in E'; (destruct (Z.ltb_spec j m); [lia |]); injection E' as <-; by left.
  - cbn [jump_loop] in E. destruct (Z.ltb_spec j n) as [Hlt | Hge].
    + destruct fuel' as [| fuel']; cbn [jump_loop] in E'; (destruct (Z.ltb_spec j m); [| lia]); [done |].
      destruct (next_jump_ok j (u64 (u64 (key * 2862933555777941757) + 1)) ltac:(lia) (jump_key_range key)) as (j' & Ej & Hj').
      rewrite Ej in E, E'. cbn [mbind outcome_bind] in E, E'. eapply (IH fuel'); [| | | exact E | exact E']; lia.
    + injection E as <-. destruct (jump_loop_ok m Hm fuel' key b j Hj ltac:(lia) Hf) as (r2 & E2 & Hr2 & Hj2). rewrite E' in E2. injection E2 as <-.
      destruct (Z.lt_ge_cases j m); [lia |]. destruct fuel'; cbn [jump_loop] in E'; (destruct (Z.ltb_spec j m); [lia |]); injection E' as <-; by left.
Qed.

Lemma jump_ok key n : 0 < n < 2 ^ 31 -> exists r, jump_consistent_hash key n = Ok r /\ 0 <= r < n.
Proof.
  intros Hn. unfold jump_consistent_hash. destruct (jump_loop_ok n ltac:(lia) (Z.to_nat n) key (-1) 0) as (r & E & Hr & H0); [lia | lia | lia |].
  exists r. split; [done | lia].
Qed.

(** ** Reduction *)

Lemma ispowof2_pow n : 0 < n -> ispowof2 n = true -> n = 2 ^ Z.log2 n.
Proof.
  intros Hn H. unfold ispowof2 in H. apply Z.eqb_eq in H. pose proof (Z.log2_spec n Hn) as [H1 H2]. pose proof (Z.log2_nonneg n) as H0.
  destruct (Z.eq_dec n (2 ^ Z.log2 n)) as [E | N]; [done |]. exfalso.
  assert (Hbit : forall x, 2 ^ Z.log2 n <= x < 2 ^ Z.succ (Z.log2 n) -> Z.testbit x (Z.log2 n) = true).
  { intros x Hx. replace (Z.log2 n) with (Z.log2 x) at 1 by (apply Z.log2_unique; lia). apply Z.bit_log2. lia. }
  assert (E : Z.testbit (Z.land n (n - 1)) (Z.log2 n) = true) by (rewrite Z.land_spec, !Hbit by lia; done).
  by rewrite H, Z.testbit_0_l in E.
Qed.

Lemma fastmod_ok x n : 0 < n -> ispowof2 n = true -> FASTMOD x n = x mod n.
Proof.
  intros Hn H. rewrite (ispowof2_pow n Hn H). unfold FASTMOD. rewrite <- Z.land_ones by apply Z.log2_nonneg. by rewrite Z.ones_equiv, Z.sub_1_r.
Qed.

(** What [makeCdbHash] sets up, with any hash so far. *)
Record cdbhash_ok (h : CdbHash) : Prop := {
  ok_hash : 0 <= hash h < 2 ^ 32;
  ok_numsegs : 0 < numsegs h < 2 ^ 31;
  ok_reduce : reducealg h = if is_legacy_hash h then if ispowof2 (numsegs h) then REDUCE_BITMASK else REDUCE_LAZYMOD else REDUCE_JUMP_HASH
}.

(** The segment of a hash. *)
Lemma reduce_ok h :
  cdbhash_ok h -> exists r, cdbhashreduce h = Ok r /\ 0 <= r < numsegs h /\ (is_legacy_hash h = true -> r = hash h mod numsegs h).
Proof.
  intros [Hh Hn Hr]. unfold cdbhashreduce. rewrite Hr. rewrite u32_small by lia. pose proof (Z.mod_pos_bound (hash h) (numsegs h) ltac:(lia)).
  destruct (is_legacy_hash h).
  - destruct (ispowof2 (numsegs h)) eqn:Ep.
    + rewrite fastmod_ok by (lia || done). by eexists.
    + replace (numsegs h =? 0) with false by lia. by eexists.
  - destruct (jump_ok (hash h) (numsegs h) Hn) as (r & E & Hb). exists r. by split.
Qed.

Lemma make_ok numsegs natts funcs :
  0 < numsegs < 2 ^ 31 -> 0 <= natts <= zlen funcs ->
  exists h, makeCdbHash numsegs natts funcs = Ok h /\ cdbhash_ok h /\ CdbHash.numsegs h = numsegs /\
    hashfuncs h = take (Z.to_nat natts) funcs /\ is_legacy_hash h = existsb isLegacyCdbHashFunction (take (Z.to_nat natts) funcs).
Proof.
  intros Hn Ha. unfold makeCdbHash. rewrite mem_read_ok by lia. cbn [mbind outcome_bind Z.to_nat]. rewrite drop_0. eexists. split; [done |].
  by split_and!.
Qed.

(** ** Rows *)

Section Rows.
  Context {Datum : Type} (FunctionCallInvoke : Z -> Datum -> Z -> outcome (option Z)).

  #[local] Notation hash_keys := (hash_keys FunctionCallInvoke).
  #[local] Notation key_segment := (key_segment FunctionCallInvoke).

(** The function can hash the value. *)
Definition key_ok (f : Z) (k : Datum * bool) : Prop :=
  snd k = false -> forall stash, exists v, FunctionCallInvoke f (fst k) stash = Ok (Some v).

(** The function does not tell the values apart. *)
Definition same_hash (f : Z) (k k' : Datum * bool) : Prop :=
  snd k = snd k' /\ (snd k = false -> forall stash, FunctionCallInvoke f (fst k) stash = FunctionCallInvoke f (fst k') stash).

Lemma rotate_bound x : 0 <= x < 2 ^ 32 -> ubits 32 (Z.lor (u32 (Z.shiftl x 1)) (if negb (Z.land x 0x80000000 =? 0) then 1 else 0)).
Proof. intros Hx. apply ubits_lor; [lia | apply u32_bound |]. unfold ubits. destruct (negb _); lia. Qed.

Lemma lxor_bound a b : ubits 32 a -> ubits 32 b -> ubits 32 (Z.lxor a b).
Proof.
  intros Ha Hb. apply testbit_ubits; [lia | apply Z.lxor_nonneg; unfold ubits in *; lia |]. intros i Hi.
  rewrite Z.lxor_spec. by rewrite !(ubits_testbit 32) by done.
Qed.

Definition stash_after (legacy : bool) (stash : Z) : Z := if legacy then FNV1_32_INIT else stash.

Lemma cdbhash_ok_step L x i f fs k stash :
  0 <= x < 2 ^ 32 -> 0 <= i -> fs !! Z.to_nat i = Some f -> key_ok f k ->
  exists v, 0 <= v < 2 ^ 32 /\ forall h, is_legacy_hash h = L -> hashfuncs h = fs -> hash h = x ->
    cdbhash FunctionCallInvoke h (i + 1) (fst k) (snd k) stash = (Ok (set_hash h v), stash_after L stash).
Proof.
  intros Hx Hi Hf Hk. destruct k as [d isnull]. cbn [fst snd]. unfold key_ok in Hk. cbn [fst snd] in Hk. pose proof (rotate_bound x Hx) as Hr.
  assert (Eget : zget fs (i + 1 - 1) = Ok f) by (rewrite (zget_lookup _ _ f); [done | lia | by replace (i + 1 - 1) with i by lia]).
  destruct L, isnull.
  - assert (E : cdblegacyhash_null x = Ok (fnv1 (le_split 4 NULL_VAL) x)) by apply (fnv1_whole (le_split 4 NULL_VAL)).
    exists (fnv1 (le_split 4 NULL_VAL) x). split; [by apply fnv1_bound, le_split_bytes |]. intros h El Ef Eh. unfold cdbhash. by rewrite El, Eh, E.
  - destruct (Hk eq_refl x) as [v E]. exists (u32 v). split; [apply u32_bound |]. intros h El Ef Eh. unfold cdbhash. rewrite El, Ef, Eh. cbn [negb].
    rewrite Eget. cbn [mbind outcome_bind]. by rewrite E.
  - eexists. split; [exact Hr |]. intros h El Ef Eh. unfold cdbhash. by rewrite El, Eh.
  - destruct (Hk eq_refl stash) as [v E]. exists (Z.lxor (Z.lor (u32 (Z.shiftl x 1)) (if negb (Z.land x 0x80000000 =? 0) then 1 else 0)) (u32 v)).
    split; [apply lxor_bound; [done | apply u32_bound] |]. intros h El Ef Eh. unfold cdbhash. rewrite El, Ef, Eh. cbn [negb].
    rewrite Eget. cbn [mbind outcome_bind]. by rewrite E.
Qed.

Lemma hash_keys_ok L keys post : forall x pre fs stash,
  0 <= x < 2 ^ 32 -> Forall2 key_ok fs keys ->
  exists v stash', 0 <= v < 2 ^ 32 /\ stash' = (match keys with [] => stash | _ => stash_after L stash end) /\
    forall h, is_legacy_hash h = L -> hashfuncs h = pre ++ fs ++ post -> hash h = x ->
      hash_keys (zlen pre) keys h stash = (Ok (set_hash h v), stash').
Proof.
  induction keys as [| k keys IH]; intros x pre fs stash Hx HF.
  - exists x, stash. split_and!; try lia; try done. intros h _ _ <-. by destruct h.
  - inversion HF as [| f ? fs' ? Hk HF']; subst.
    destruct (cdbhash_ok_step L x (zlen pre) f (pre ++ f :: fs' ++ post) k stash Hx (zlen_nonneg pre)) as (v & Hv & Hstep).
    { unfold zlen. rewrite Nat2Z.id, lookup_app_r by done. by rewrite Nat.sub_diag. }
    { done. }
    destruct (IH v (pre ++ [f]) fs' (stash_after L stash) Hv HF') as (v' & stash' & Hv' & Es & Hrest).
    exists v', stash'. split; [done |]. split; [rewrite Es; destruct keys, L; done |]. intros h El Ef Eh. cbn [CdbHash.hash_keys]. destruct k as [d isnull].
    cbn [fst snd] in Hstep. rewrite (Hstep h El Ef Eh). specialize (Hrest (set_hash h v)). rewrite zlen_app in Hrest. change (zlen [f]) with 1 in Hrest.
    rewrite Hrest; [by destruct h | done | by rewrite <- app_assoc | done].
Qed.

Lemma cdbhash_funcs h attno d isnull stash h2 stash2 :
  cdbhash FunctionCallInvoke h attno d isnull stash = (Ok h2, stash2) -> hashfuncs h2 = hashfuncs h.
Proof.
  unfold cdbhash. intros E. destruct (cdblegacyhash_null (hash h)); destruct (zget (hashfuncs h) (attno - 1)) as [f | |]; cbn [mbind outcome_bind] in E;
    try destruct (FunctionCallInvoke f d stash) as [[?|] | |], (FunctionCallInvoke f d (hash h)) as [[?|] | |]; cbn [mbind outcome_bind] in E;
    destruct (is_legacy_hash h), isnull; cbn [negb] in E; by simplify_eq.
Qed.

Lemma hash_keys_cong keys keys' : forall pre fs h stash,
  hashfuncs h = pre ++ fs -> Forall2 (fun f kk => same_hash f (fst kk) (snd kk)) fs (zip keys keys') -> length keys = length keys' ->
  hash_keys (zlen pre) keys h stash = hash_keys (zlen pre) keys' h stash.
Proof.
  revert keys'. induction keys as [| [d isnull] keys IH]; intros [| [d' isnull'] keys'] pre fs h stash Ef HF Hlen; try done.
  inversion HF as [| f ? fs' ? [En Es] HF']; subst. cbn [fst snd] in En, Es. subst isnull'. cbn [CdbHash.hash_keys].
  assert (E : cdbhash FunctionCallInvoke h (zlen pre + 1) d isnull stash = cdbhash FunctionCallInvoke h (zlen pre + 1) d' isnull stash).
  { unfold cdbhash. rewrite Ef. replace (zlen pre + 1 - 1) with (zlen pre) by lia. rewrite zget_mid. cbn [mbind outcome_bind].
    destruct isnull; [done |]. cbn [negb]. by rewrite !(Es eq_refl). }
  rewrite E. destruct (cdbhash _ _ _ d' _ _) as [[h2 | |] stash2] eqn:E2; [| done | done].
  assert (Ef2 : hashfuncs h2 = (pre ++ [f]) ++ fs').
  { rewrite <- app_assoc. cbn [app]. rewrite <- Ef. by eapply cdbhash_funcs. }
  specialize (IH keys' (pre ++ [f]) fs' h2 stash2 Ef2 HF'). rewrite zlen_app in IH. change (zlen [f]) with 1 in IH. apply IH. cbn [length] in Hlen. lia.
Qed.

Lemma hash_keys_app a b : forall i h stash,
  hash_keys i (a ++ b) h stash = match hash_keys i a h stash with (Ok h, stash) => hash_keys (i + zlen a) b h stash | e => e end.
Proof.
  induction a as [| [d isnull] a IH]; intros i h stash; cbn [app CdbHash.hash_keys].
  - by rewrite zlen_nil, Z.add_0_r.
  - destruct (cdbhash _ _ _ _ _ _) as [[h' | |] stash']; [| done | done]. rewrite IH, zlen_cons. by replace (i + 1 + zlen a) with (i + (zlen a + 1)) by lia.
Qed.

(** The hash that the keys have, for any number of segments and whatever was hashed before. *)
Lemma key_segment_ok L fs keys stash :
  Forall2 key_ok fs keys -> keys <> [] ->
  exists v, 0 <= v < 2 ^ 32 /\ forall h, is_legacy_hash h = L -> hashfuncs h = fs ->
    key_segment h keys stash = (cdbhashreduce (set_hash h v), stash_after L stash).
Proof.
  intros HF Hne. destruct (hash_keys_ok L keys [] (if L then FNV1_32_INIT else 0) [] fs stash) as (v & stash' & Hv & Es & Hk).
  { by destruct L. }
  { done. }
  exists v. split; [done |]. intros h El Ef. unfold CdbHash.key_segment. change 0 with (zlen (@nil Z)). rewrite (Hk (cdbhashinit h)).
  - cbn [mbind outcome_bind]. rewrite Es. destruct keys; [done |]. by destruct h.
  - by destruct h.
  - rewrite app_nil_r. by destruct h.
  - unfold cdbhashinit. by rewrite El.
Qed.
End Rows.

Section Segments.
  Context {Datum : Type} (FunctionCallInvoke : Z -> Datum -> Z -> outcome (option Z)).


(** C15: Growing the cluster moves rows only to new segments.  With hash functions
    that are not of the legacy scheme, the segment of a row among more segments is
    its segment among fewer, or one of those that were added. *)
Theorem expansion_moves_to_new n m attrs funcs slot hn hm random stash :
  0 < n <= m -> m < 2 ^ 31 -> attrs <> [] -> length funcs = length attrs -> existsb isLegacyCdbHashFunction funcs = false ->
  makeCdbHash n (zlen attrs) funcs = Ok hn -> makeCdbHash m (zlen attrs) funcs = Ok hm ->
  Forall2 (key_ok FunctionCallInvoke) funcs (slot_keys attrs slot) ->
  exists s s', fst (GetTargetSeg FunctionCallInvoke hn attrs slot random stash) = Ok s /\ 0 <= s < n /\
    fst (GetTargetSeg FunctionCallInvoke hm attrs slot random stash) = Ok s' /\ 0 <= s' < m /\ (s' = s \/ n <= s').
Proof.
  intros Hnm Hm Hne Hlen Hleg En Em HF.
  assert (Hmake : forall k h, 0 < k < 2 ^ 31 -> makeCdbHash k (zlen attrs) funcs = Ok h ->
    numsegs h = k /\ hashfuncs h = funcs /\ is_legacy_hash h = false /\ reducealg h = REDUCE_JUMP_HASH).
  { intros k h Hk E. destruct (make_ok k (zlen attrs) funcs Hk) as (h' & E' & Hok & Hns & Hf & Hl); [unfold zlen; lia |]. rewrite E in E'. injection E' as <-.
    rewrite take_ge in Hf, Hl by (unfold zlen; lia). rewrite Hleg in Hl. split_and!; try done. destruct Hok as [_ _ Hr]. by rewrite Hl in Hr. }
  assert (Hks : slot_keys attrs slot <> []) by (by destruct attrs). assert (Hl1 : (0 <? zlen attrs) = true) by (destruct attrs; [done | unfold zlen; cbn [length]; lia]).
  destruct (key_segment_ok FunctionCallInvoke false funcs _ stash HF Hks) as (v & Hv & Hkey).
  destruct (Hmake n hn ltac:(lia) En) as (Nn & Fn & Ln & Rn), (Hmake m hm ltac:(lia) Em) as (Nm & Fm & Lm & Rm).
  unfold GetTargetSeg. rewrite Hl1, (Hkey hn), (Hkey hm) by done. cbn [fst]. unfold cdbhashreduce. cbn [reducealg hash numsegs set_hash]. rewrite Rn, Rm, Nn, Nm.
  destruct (jump_ok v n ltac:(lia)) as (s & Es & Hs), (jump_ok v m ltac:(lia)) as (s' & Es' & Hs'). exists s, s'. split_and!; try done; try lia.
  unfold jump_consistent_hash in Es, Es'. eapply (jump_loop_grow n m); [lia | lia | | | | exact Es | exact Es']; lia.
Qed.

(** A key of the other scheme hides the keys before it.  When one function of a
    policy is of the legacy scheme, all keys are hashed its way, by a function
    that gets the hash so far; a function that is not of the scheme does not look
    at it, so that the segment of a row with a value for such a key does not
    depend on the keys before it. *)
Theorem mixed_keys_hidden h f (fs1 fs2 : list Z) ks1 ks1' k (ks2 : list (Datum * bool)) stash :
  is_legacy_hash h = true -> hashfuncs h = fs1 ++ f :: fs2 ->
  (forall d s s', FunctionCallInvoke f d s = FunctionCallInvoke f d s') -> snd k = false ->
  Forall2 (key_ok FunctionCallInvoke) fs1 ks1 -> Forall2 (key_ok FunctionCallInvoke) fs1 ks1' ->
  fst (key_segment FunctionCallInvoke h (ks1 ++ k :: ks2) stash) = fst (key_segment FunctionCallInvoke h (ks1' ++ k :: ks2) stash).
Proof.
  intros Hl Hf Hig Hk H1 H1'. unfold CdbHash.key_segment. rewrite !hash_keys_app. destruct k as [d isnull]. cbn [snd] in Hk. subst isnull.
  assert (Hpre : forall ks, Forall2 (key_ok FunctionCallInvoke) fs1 ks -> exists v stash',
    hash_keys FunctionCallInvoke 0 ks (cdbhashinit h) stash = (Ok (set_hash h v), stash') /\ zlen ks = zlen fs1).
  { intros ks HF. destruct (hash_keys_ok FunctionCallInvoke true ks (f :: fs2) FNV1_32_INIT [] fs1 stash ltac:(done) HF) as (v & stash' & _ & _ & E).
    exists v, stash'. split; [| unfold zlen; f_equal; by symmetry; eapply Forall2_length]. change 0 with (zlen (@nil Z)). rewrite (E (cdbhashinit h)); [by destruct h | by destruct h | by destruct h |].
    unfold cdbhashinit. by rewrite Hl. }
  destruct (Hpre ks1 H1) as (v & st1 & -> & L1), (Hpre ks1' H1') as (v' & st1' & -> & L1'). rewrite L1, L1'.
  cbn [CdbHash.hash_keys]. unfold cdbhash. cbn [is_legacy_hash set_hash hashfuncs hash]. rewrite Hl, Hf. cbn [negb].
  replace (0 + zlen fs1 + 1 - 1) with (zlen fs1) by lia. rewrite zget_mid. cbn [mbind outcome_bind]. rewrite (Hig d v' v).
  by destruct (FunctionCallInvoke f d v) as [[r |] | |].
Qed.
End Segments.

(** A hash function that fails leaves the hash so far in [magic_hash_stash]: the
    next direct call of a legacy function starts from it. *)
Lemma failed_hash_leaves_stash :
  let invoke f (d : Z) stash := if f =? 6142 then (v ← cdblegacyhash_int8 stash d; Ok (Some v)) else Err "out of memory" in
  let '(r, stash) := key_segment invoke (mkCdbHash 0 3 REDUCE_LAZYMOD true 2 [6142; 6147]) [(7, false); (8, false)] FNV1_32_INIT in
  r = Err "out of memory" /\ stash <> FNV1_32_INIT.
Proof. by vm_compute. Qed.

(** *** Witnesses *)

(** Two functions: a mix of the bits of a number, and a legacy one. *)
Definition example_invoke (f d stash : Z) : outcome (option Z) :=
  if f =? 6142 then (v ← cdblegacyhash_int8 stash d; Ok (Some v)) else Ok (Some (u32 (d * 2654435761))).

Lemma example_key_ok f k : key_ok example_invoke f k.
Proof.
  intros _ stash. unfold example_invoke. destruct (f =? 6142); [| by eexists]. rewrite int_hash_ok. by eexists.
Qed.

Definition example_slot (attnum : Z) : Z * bool := if attnum =? 2 then (0, true) else (attnum * 1000 + 7, false).


Lemma expansion_moves_to_new_witness :
  exists h3 h4 s s', makeCdbHash 3 2 [400; 450] = Ok h3 /\ makeCdbHash 4 2 [400; 450] = Ok h4 /\
    fst (GetTargetSeg example_invoke h3 [1; 2] example_slot 0 0) = Ok s /\
    fst (GetTargetSeg example_invoke h4 [1; 2] example_slot 0 0) = Ok s' /\ (s' = s \/ s' = 3).
Proof.
  destruct (make_ok 3 2 [400; 450] ltac:(lia) ltac:(by vm_compute)) as (h3 & E3 & _), (make_ok 4 2 [400; 450] ltac:(lia) ltac:(by vm_compute)) as (h4 & E4 & _).
  destruct (expansion_moves_to_new example_invoke 3 4 [1; 2] [400; 450] example_slot h3 h4 0 0 ltac:(lia) ltac:(lia) ltac:(done) ltac:(done) ltac:(done) E3 E4)
    as (s & s' & H1 & _ & H2 & H3 & H4). { repeat constructor; apply example_key_ok. }
  exists h3, h4, s, s'. split_and!; try done. lia.
Defined.

Lemma mixed_keys_hidden_witness :
  fst (key_segment example_invoke (mkCdbHash 0 7 REDUCE_LAZYMOD true 2 [6142; 400]) [(1, false); (5, false)] FNV1_32_INIT) =
  fst (key_segment example_invoke (mkCdbHash 0 7 REDUCE_LAZYMOD true 2 [6142; 400]) [(2, false); (5, false)] FNV1_32_INIT).
Proof.
  apply (mixed_keys_hidden example_invoke _ 400 [6142] [] [(1, false)] [(2, false)] (5, false) []); try done; repeat constructor; apply example_key_ok.
Defined.
