(* ===== verification/ValueSet.v ===== *)
(** * The values that a qualification leaves possible

    Models src/backend/optimizer/util/predtest_valueset.c and the part of
    predtest.c that uses it: from the qualification of a scan,
    [DeterminePossibleValueSet] computes a set of constants that the value of a
    column must be among, or that any value is possible.

    Expressions are trees with the node types that the code distinguishes; the
    rest is [NOther].  Constants are compared as [equal()] (nodes/equalfuncs.c)
    does, by their bytes, and a set is the list of its constants: the order in
    which a hash table is walked is not modelled, nor are memory contexts.  What
    the catalog says of operators and types is a parameter.

    [is_true] is what the executor makes of a qualification for a row: the
    operators and the values of other expressions are parameters. *)

From stdpp Require Import base list.
From S2P Require Import Prelude LegacyHash.

(** ** Expressions *)

Inductive Scalar :=
| ByVal (v : Z)
| ByRef (bytes : list Z).

(** A constant holds a value or an array of values. *)
Inductive Datum :=
| DScalar (s : Scalar)
| DArray (elemtype : Z) (elems : list (Scalar * bool)).

#[export] Instance Scalar_eq_dec : EqDecision Scalar.
Proof. solve_decision. Defined.

#[export] Instance Datum_eq_dec : EqDecision Datum.
Proof. solve_decision. Defined.

Record Const := mkConst {
  consttype : Z;
  consttypmod : Z;
  constcollid : Z;
  constlen : Z;
  constvalue : Datum;
  constisnull : bool;
  constbyval : bool
}.

Record Var := mkVar {
  varno : Z;
  varattno : Z;
  vartype : Z;
  vartypmod : Z;
  varcollid : Z;
  varlevelsup : Z
}.

#[export] Instance Var_eq_dec : EqDecision Var.
Proof. solve_decision. Defined.

Inductive NullTestType := IS_NULL | IS_NOT_NULL.
Inductive BoolExprType := AND_EXPR | OR_EXPR | NOT_EXPR.

Inductive Node :=
| NVar (v : Var)
| NConst (c : Const)
| NRelabelType (arg : Node)
| NOpExpr (opno inputcollid : Z) (args : list Node)
| NNullTest (nulltesttype : NullTestType) (arg : Node)
| NBoolExpr (boolop : BoolExprType) (args : list Node)
| NList (elems : list Node)
| NScalarArrayOpExpr (opno inputcollid : Z) (useOr : bool) (args : list Node)
| NArrayExpr (multidims : bool) (elements : list Node)
| NOther (tag : Z).

(** nodes/equalfuncs.c *)
Definition equalConst (a b : Const) : bool :=
  (consttype a =? consttype b) && (consttypmod a =? consttypmod b) && (constcollid a =? constcollid b) && (constlen a =? constlen b) &&
  eqb (constisnull a) (constisnull b) && eqb (constbyval a) (constbyval b) &&
  (constisnull a || bool_decide (constvalue a = constvalue b)).

(** [equal] with a variable. *)
Definition equal_variable (n : Node) (variable : Var) : bool := match n with NVar v => bool_decide (v = variable) | _ => false end.

(** ** Sets *)

(** The set is a null pointer before a value is added. *)
Record PossibleValueSet := mkPVS { pv_set : option (list Const); isAnyValuePossible : bool }.

Definition InitPossibleValueSetData : PossibleValueSet := mkPVS None true.

Definition GetPossibleValuesAsArray (pvs : PossibleValueSet) : list Const := default [] (pv_set pvs).

Definition ContainsValue (pvs : PossibleValueSet) (value : Const) : bool :=
  match pv_set pvs with Some set => existsb (equalConst value) set | None => false end.

Definition AddValue (pvs : PossibleValueSet) (valueToCopy : Const) : PossibleValueSet :=
  let set := default [] (pv_set pvs) in
  if negb (ContainsValue (mkPVS (Some set) (isAnyValuePossible pvs)) valueToCopy)
  then mkPVS (Some (set ++ [valueToCopy])) (isAnyValuePossible pvs)
  else mkPVS (Some set) (isAnyValuePossible pvs).

Definition SetToNoValuesPossible : PossibleValueSet := mkPVS (Some []) false.

(** Union, and intersection, into [pvs]; walking a null pointer is undefined. *)
Definition AddUnmatchingValues (pvs toCheck : PossibleValueSet) : outcome PossibleValueSet :=
  match pv_set toCheck with
  | None => Ub
  | Some values => Ok (fold_left AddValue values pvs)
  end.

Definition RemoveValue (pvs : PossibleValueSet) (value : Const) : outcome PossibleValueSet :=
  match pv_set pvs with
  | None => Ub
  | Some set => Ok (mkPVS (Some (filter (fun c => equalConst value c = false) set)) (isAnyValuePossible pvs))
  end.

Fixpoint remove_values (pvs : PossibleValueSet) (toRemove : list Const) : outcome PossibleValueSet :=
  match toRemove with
  | [] => Ok pvs
  | value :: toRemove => pvs ← RemoveValue pvs value; remove_values pvs toRemove
  end.

Definition RemoveUnmatchingValues (pvs toCheck : PossibleValueSet) : outcome PossibleValueSet :=
  match pv_set pvs with
  | None => Ub
  | Some values => remove_values pvs (filter (fun c => ContainsValue toCheck c = false) values)
  end.

(** ** Integers *)

Definition INT8OID : Z := 20.
Definition INT2OID : Z := 21.
Definition INT4OID : Z := 23.

Definition INT16MAX : Z := 32767.
Definition INT16MIN : Z := -32768.
Definition INT32MAX : Z := 2147483647.
Definition INT32MIN : Z := -2147483648.

Definition s16 (z : Z) : Z := (z + 2 ^ 15) mod 2 ^ 16 - 2 ^ 15.

(** A value that is passed by value; a pointer is not read as a number. *)
Definition datum_word (d : Datum) : outcome Z := match d with DScalar (ByVal v) => Ok v | _ => Ub end.

Definition DatumGetInt16 (d : Z) : Z := s16 d.
Definition DatumGetInt32 (d : Z) : Z := s32 d.
Definition DatumGetInt64 (d : Z) : Z := s64 d.
Definition IntGetDatum (v : Z) : Datum := DScalar (ByVal (u64 v)).

(** The constant as a 64-bit integer; other types are not known. *)
Definition const_int64 (const_type : Z) (d : Datum) : option (outcome Z) :=
  if const_type =? INT2OID then Some (v ← datum_word d; Ok (DatumGetInt16 v))
  else if const_type =? INT4OID then Some (v ← datum_word d; Ok (DatumGetInt32 v))
  else if const_type =? INT8OID then Some (v ← datum_word d; Ok (DatumGetInt64 v))
  else None.

(** Whether it overflows, and the length and the value in the type of the variable. *)
Definition int_of_type (var_type constvalue : Z) : option (bool * Z * Datum) :=
  if var_type =? INT2OID then Some ((INT16MAX <? constvalue) || (constvalue <? INT16MIN), 2, IntGetDatum (s16 constvalue))
  else if var_type =? INT4OID then Some ((INT32MAX <? constvalue) || (constvalue <? INT32MIN), 4, IntGetDatum (s32 constvalue))
  else if var_type =? INT8OID then Some (false, 8, IntGetDatum constvalue)
  else None.

(** ** Atoms *)

Record OpBtreeInterpretation := mkOpBtree { strategy : Z; oplefttype : Z; oprighttype : Z }.

Definition BTEqualStrategyNumber : Z := 3.

Definition get_leftop (args : list Node) : option Node := head args.
Definition get_rightop (args : list Node) : option Node := match args with _ :: r :: _ => Some r | _ => None end.

Definition strip_relabel (n : Node) : Node := match n with NRelabelType arg => arg | _ => n end.

Section Atoms.
  Context (op_in_opfamily : Z -> Z -> bool) (get_op_btree_interpretation : Z -> list OpBtreeInterpretation).
  Context (get_typlenbyval : Z -> Z * bool).

(** The value that an equality with a constant leaves: the constant, or the
    integer in the type of the variable.  No result is the result [false]:
    nothing was learned. *)
Definition equality_value (clause_op_info : OpBtreeInterpretation) (constOnRight : bool) (constExpr : Const) : outcome (option PossibleValueSet) :=
  if oplefttype clause_op_info =? oprighttype clause_op_info then Ok (Some (AddValue (mkPVS None false) constExpr))
  else
    let const_type := if constOnRight then oprighttype clause_op_info else oplefttype clause_op_info in
    let var_type := if constOnRight then oplefttype clause_op_info else oprighttype clause_op_info in
    match const_int64 const_type (constvalue constExpr) with
    | None => Ok None
    | Some constvalue =>
        constvalue ← constvalue;
        match int_of_type var_type constvalue with
        | None => Ok None
        | Some (isOverflow, new_const_len, new_const_datum) =>
            if isOverflow : bool then Ok (Some SetToNoValuesPossible)
            else
              let newConst := mkConst var_type 0 InvalidOid new_const_len new_const_datum false true in
              Ok (Some (AddValue (mkPVS None false) newConst))
        end
    end.

(** The side with the variable, the constant, and whether that is on the right. *)
Definition const_side (leftop rightop : Node) : option (Node * Const * bool) :=
  match leftop, rightop with
  | _, NConst c => Some (leftop, c, true)
  | NConst c, _ => Some (rightop, c, false)
  | _, _ => None
  end.

Definition TryProcessOpExprForPossibleValues (opno : Z) (args : list Node) (variable : Var) (opfamily : Z) : outcome (option PossibleValueSet) :=
  match get_leftop args, get_rightop args with
  | Some leftop, Some rightop =>
      match const_side leftop rightop with
      | None => Ok None
      | Some (varExpr, constExpr, constOnRight) =>
          if constisnull constExpr then Ok None
          else if negb (equal_variable (strip_relabel varExpr) variable) then Ok None
          else if negb (op_in_opfamily opno opfamily) then Ok None
          else
            match find (fun i => strategy i =? BTEqualStrategyNumber) (get_op_btree_interpretation opno) with
            | None => Ok None
            | Some clause_op_info => equality_value clause_op_info constOnRight constExpr
            end
      end
  | _, _ => Ok None
  end.

Definition makeNullConst (consttype consttypmod constcollid : Z) : Const :=
  let '(typLen, typByVal) := get_typlenbyval consttype in
  mkConst consttype consttypmod constcollid typLen (IntGetDatum 0) true typByVal.

Definition TryProcessNullTestForPossibleValues (nulltesttype : NullTestType) (arg : Node) (variable : Var) : option PossibleValueSet :=
  if negb (equal_variable (strip_relabel arg) variable) then None
  else
    match nulltesttype with
    | IS_NULL => Some (AddValue (mkPVS None false) (makeNullConst (vartype variable) (-1) (varcollid variable)))
    | IS_NOT_NULL => None
    end.

Definition TryProcessExprForPossibleValues (expr : Node) (variable : Var) (opfamily : Z) : outcome (option PossibleValueSet) :=
  match expr with
  | NOpExpr opno _ args => TryProcessOpExprForPossibleValues opno args variable opfamily
  | NNullTest nulltesttype arg => Ok (TryProcessNullTestForPossibleValues nulltesttype arg variable)
  | _ => Ok None
  end.

(** ** Clauses *)

Inductive PredClass := CLASS_ATOM | CLASS_AND | CLASS_OR.

Definition MAX_SAOP_ARRAY_SIZE : Z := 100.

(** The clauses that the array operator stands for, one per element. *)
Definition arrayconst_clauses (opno inputcollid : Z) (args : list Node) (c : Const) (elemtype : Z) (elems : list (Scalar * bool)) : list Node :=
  let '(elmlen, elmbyval) := get_typlenbyval elemtype in
  map (fun e => NOpExpr opno inputcollid
                  (take 1 args ++ [NConst (mkConst elemtype (-1) (constcollid c) elmlen (DScalar (fst e)) (snd e) elmbyval)])) elems.

Definition arrayexpr_clauses (opno inputcollid : Z) (args elements : list Node) : list Node :=
  map (fun e => NOpExpr opno inputcollid (take 1 args ++ [e])) elements.

(** The class of a clause, and what its iterator yields. *)
Definition predicate_classify (clause : Node) : PredClass * list Node :=
  match clause with
  | NList elems => (CLASS_AND, elems)
  | NBoolExpr AND_EXPR args => (CLASS_AND, args)
  | NBoolExpr OR_EXPR args => (CLASS_OR, args)
  | NScalarArrayOpExpr opno inputcollid useOr args =>
      let class := if useOr : bool then CLASS_OR else CLASS_AND in
      match get_rightop args with
      | Some (NConst c) =>
          match constvalue c with
          | DArray elemtype elems =>
              if negb (constisnull c) && (zlen elems <=? MAX_SAOP_ARRAY_SIZE)
              then (class, arrayconst_clauses opno inputcollid args c elemtype elems) else (CLASS_ATOM, [])
          | DScalar _ => (CLASS_ATOM, [])
          end
      | Some (NArrayExpr multidims elements) =>
          if negb multidims && (zlen elements <=? MAX_SAOP_ARRAY_SIZE)
          then (class, arrayexpr_clauses opno inputcollid args elements) else (CLASS_ATOM, [])
      | _ => (CLASS_ATOM, [])
      end
  | _ => (CLASS_ATOM, [])
  end.

(** The loops over the clauses of a conjunction and of a disjunction. *)
Fixpoint and_loop (determine : Node -> outcome PossibleValueSet) (clauses : list Node) (result : PossibleValueSet) : outcome PossibleValueSet :=
  match clauses with
  | [] => Ok result
  | child :: clauses =>
      childPossible ← determine child;
      result ← (if isAnyValuePossible childPossible then Ok result
                else if isAnyValuePossible result then Ok childPossible
                else RemoveUnmatchingValues result childPossible);
      and_loop determine clauses result
  end.

Fixpoint or_loop (determine : Node -> outcome PossibleValueSet) (clauses : list Node) (result : PossibleValueSet) : outcome PossibleValueSet :=
  match clauses with
  | [] => Ok result
  | child :: clauses =>
      childPossible ← determine child;
      if isAnyValuePossible childPossible then Ok InitPossibleValueSetData
      else
        result ← (if isAnyValuePossible result then Ok childPossible else AddUnmatchingValues result childPossible);
        or_loop determine clauses result
  end.

Fixpoint determine_values (fuel : nat) (clause : Node) (variable : Var) (opfamily : Z) : outcome PossibleValueSet :=
  match fuel with
  | O => Err "fuel"
  | S fuel =>
      match predicate_classify clause with
      | (CLASS_AND, clauses) => and_loop (fun child => determine_values fuel child variable opfamily) clauses InitPossibleValueSetData
      | (CLASS_OR, clauses) => or_loop (fun child => determine_values fuel child variable opfamily) clauses InitPossibleValueSetData
      | (CLASS_ATOM, _) =>
          r ← TryProcessExprForPossibleValues clause variable opfamily;
          Ok (default InitPossibleValueSetData r)
      end
  end.

(** The depth of the clauses: the fuel that they take. *)
Fixpoint clause_depth (n : Node) : nat :=
  match n with
  | NList l | NBoolExpr _ l => S (list_max (map clause_depth l))
  | NScalarArrayOpExpr _ _ _ _ => 2
  | _ => 1
  end%nat.

(** No clause is a null pointer. *)
Definition DeterminePossibleValueSet (clause : option Node) (variable : Var) (opfamily : Z) : outcome PossibleValueSet :=
  match clause with
  | None => Ok InitPossibleValueSetData
  | Some clause => determine_values (clause_depth clause) clause variable opfamily
  end.
End Atoms.

(** ** What a qualification says of a row *)

Section Truth.
  Context (env : Var -> Scalar * bool) (op_sem : Z -> Z -> Scalar -> Scalar -> bool).
  Context (other_value : Node -> Scalar * bool) (other_true : Node -> bool).

(** The value of an expression, and whether it is null. *)
Fixpoint value (n : Node) : Scalar * bool :=
  match n with
  | NVar v => env v
  | NConst c => match constvalue c with DScalar s => (s, constisnull c) | DArray _ _ => other_value n end
  | NRelabelType arg => value arg
  | _ => other_value n
  end.

(** A strict operator. *)
Definition apply_op (opno inputcollid : Z) (x y : Scalar * bool) : bool :=
  negb (snd x) && negb (snd y) && op_sem opno inputcollid (fst x) (fst y).

Definition any_or_all (useOr : bool) (p : Scalar * bool -> bool) (l : list (Scalar * bool)) : bool :=
  if useOr then existsb p l else forallb p l.

Fixpoint is_true (n : Node) : bool :=
  match n with
  | NList l | NBoolExpr AND_EXPR l => forallb is_true l
  | NBoolExpr OR_EXPR l => existsb is_true l
  | NOpExpr opno inputcollid (a :: b :: _) => apply_op opno inputcollid (value a) (value b)
  | NNullTest IS_NULL arg => snd (value arg)
  | NNullTest IS_NOT_NULL arg => negb (snd (value arg))
  | NScalarArrayOpExpr opno inputcollid useOr (a :: NConst c :: _) =>
      match constvalue c with
      | DArray _ elems => negb (constisnull c) && any_or_all useOr (apply_op opno inputcollid (value a)) elems
      | DScalar _ => other_true n
      end
  | NScalarArrayOpExpr opno inputcollid useOr (a :: NArrayExpr false elements :: _) =>
      any_or_all useOr (apply_op opno inputcollid (value a)) (map value elements)
  | _ => other_true n
  end.
End Truth.

(** ** Soundness *)

Definition int_in_type (t n : Z) : Prop :=
  t = INT2OID /\ - 2 ^ 15 <= n < 2 ^ 15 \/ t = INT4OID /\ - 2 ^ 31 <= n < 2 ^ 31 \/ t = INT8OID /\ - 2 ^ 63 <= n < 2 ^ 63.

(** *** Sets *)

Lemma equalConst_spec a b :
  equalConst a b = true <->
  consttype a = consttype b /\ consttypmod a = consttypmod b /\ constcollid a = constcollid b /\ constlen a = constlen b /\
  constisnull a = constisnull b /\ constbyval a = constbyval b /\ (constisnull a = false -> constvalue a = constvalue b).
Proof.
  unfold equalConst. rewrite !andb_true_iff, !Z.eqb_eq, !Bool.eqb_true_iff, orb_true_iff, bool_decide_eq_true.
  destruct (constisnull a); naive_solver.
Qed.

Lemma equalConst_refl a : equalConst a a = true.
Proof. apply equalConst_spec. naive_solver. Qed.

Lemma equalConst_trans a b c : equalConst a b = true -> equalConst b c = true -> equalConst a c = true.
Proof.
  rewrite !equalConst_spec. intros (? & ? & ? & ? & E1 & ? & Hab) (? & ? & ? & ? & E2 & ? & Hbc). split_and!; try congruence.
  intros Hn. rewrite Hab by done. apply Hbc. congruence.
Qed.

(** Every constant of [l] is equal to one of the set. *)
Definition subsumed (l set : list Const) : Prop := forall c, c ∈ l -> exists c', c' ∈ set /\ equalConst c c' = true.

Lemma contains_spec pvs c set : pv_set pvs = Some set -> ContainsValue pvs c = true <-> exists c', c' ∈ set /\ equalConst c c' = true.
Proof. intros E. unfold ContainsValue. rewrite E, existsb_exists. split; intros (c' & H1 & H2); exists c'; (split; [| done]); by apply list_elem_of_In. Qed.

Lemma add_value_spec pvs c set :
  pv_set pvs = Some set -> exists set', pv_set (AddValue pvs c) = Some set' /\ isAnyValuePossible (AddValue pvs c) = isAnyValuePossible pvs /\
    (forall x, x ∈ set -> x ∈ set') /\ (exists c', c' ∈ set' /\ equalConst c c' = true) /\ (forall x, x ∈ set' -> x ∈ set \/ x = c).
Proof.
  intros E. unfold AddValue. rewrite E. cbn [default]. destruct (ContainsValue _ _) eqn:Ec; cbn [negb].
  - exists set. split_and!; try done; [| by left]. by apply (contains_spec _ _ set) in Ec.
  - exists (set ++ [c]). split_and!; try done.
    + intros x Hx. apply elem_of_app. by left.
    + exists c. split; [apply elem_of_app; right; by left | apply equalConst_refl].
    + intros x [Hx | Hx]%elem_of_app; [by left |]. apply list_elem_of_singleton in Hx. by right.
Qed.

Lemma add_unmatching_spec pvs toCheck set values :
  pv_set pvs = Some set -> pv_set toCheck = Some values ->
  exists r set', AddUnmatchingValues pvs toCheck = Ok r /\ isAnyValuePossible r = isAnyValuePossible pvs /\ pv_set r = Some set' /\
    (forall x, x ∈ set -> x ∈ set') /\ subsumed values set' /\ (forall x, x ∈ set' -> x ∈ set \/ x ∈ values).
Proof.
  intros E Ev. unfold AddUnmatchingValues. rewrite Ev. exists (fold_left AddValue values pvs). clear Ev. revert pvs set E.
  induction values as [| c values IH]; intros pvs set E; cbn [fold_left].
  - exists set. split_and!; try done; [intros x Hx; by apply not_elem_of_nil in Hx | by left].
  - destruct (add_value_spec pvs c set E) as (set1 & E1 & Ea & Hk & Hc & Hn). destruct (IH _ _ E1) as (set2 & _ & Ea2 & E2 & Hk2 & Hs2 & Hn2).
    exists set2. split_and!; try done; [congruence | auto | |].
    + intros x [-> | Hx]%elem_of_cons; [| auto]. destruct Hc as (c' & Hin & Heq). exists c'. auto.
    + intros x [Hx | Hx]%Hn2; [| right; by right]. apply Hn in Hx as [Hx | ->]; [by left | right; by left].
Qed.

Lemma remove_values_spec rm : forall pvs set,
  pv_set pvs = Some set ->
  exists r set', remove_values pvs rm = Ok r /\ isAnyValuePossible r = isAnyValuePossible pvs /\ pv_set r = Some set' /\
    (forall x, x ∈ set' <-> x ∈ set /\ forall y, y ∈ rm -> equalConst y x = false).
Proof.
  induction rm as [| c rm IH]; intros pvs set E; cbn [remove_values].
  - exists pvs, set. split_and!; try done. intros x. split; [| by intros [? _]]. intros Hx. split; [done |]. intros y Hy. by apply not_elem_of_nil in Hy.
  - unfold RemoveValue. rewrite E. cbn [mbind outcome_bind]. destruct (IH (mkPVS (Some (filter (fun x => equalConst c x = false) set)) (isAnyValuePossible pvs)) _ eq_refl)
      as (r & set' & -> & Ea & Es & Hx). exists r, set'. split_and!; try done. intros x. rewrite Hx, list_elem_of_filter.
    split; [intros [[Hc Hin] Hrest]; split; [done |]; intros y [-> | Hy]%elem_of_cons; auto |].
    intros [Hin Hall]. split_and!; try done; [apply Hall; by left |]. intros y Hy. apply Hall. by right.
Qed.

Lemma remove_unmatching_spec pvs toCheck set values :
  pv_set pvs = Some set -> pv_set toCheck = Some values ->
  exists r set', RemoveUnmatchingValues pvs toCheck = Ok r /\ isAnyValuePossible r = isAnyValuePossible pvs /\ pv_set r = Some set' /\
    (forall x, x ∈ set' <-> x ∈ set /\ exists c, c ∈ values /\ equalConst x c = true).
Proof.
  intros E Ev. unfold RemoveUnmatchingValues. rewrite E. destruct (remove_values_spec (filter (fun c => ContainsValue toCheck c = false) set) pvs set E) as (r & set' & Er & Ea & Es & Hx).
  exists r, set'. split_and!; try done. intros x. rewrite Hx. split; intros [Hin H]; (split; [done |]).
  - destruct (ContainsValue toCheck x) eqn:Ec; [by apply (contains_spec _ _ values) in Ec |]. exfalso.
    assert (Hf : equalConst x x = false) by (apply H, list_elem_of_filter; done). rewrite equalConst_refl in Hf. done.
  - intros y [Hc Hy]%list_elem_of_filter. destruct (equalConst y x) eqn:Eq; [| done]. destruct H as (c & Hcv & Hxc).
    assert (Ht : ContainsValue toCheck y = true) by (apply (contains_spec _ _ values); [done |]; exists c; split; [done |]; by eapply equalConst_trans). congruence.
Qed.

Section Sound.
  Context (op_in_opfamily : Z -> Z -> bool) (get_op_btree_interpretation : Z -> list OpBtreeInterpretation).
  Context (get_typlenbyval : Z -> Z * bool).
  Context (env : Var -> Scalar * bool) (op_sem : Z -> Z -> Scalar -> Scalar -> bool).
  Context (other_value : Node -> Scalar * bool) (other_true : Node -> bool).

  #[local] Notation is_true := (is_true env op_sem other_value other_true).
  #[local] Notation value := (value env other_value).
  #[local] Notation determine_values := (determine_values op_in_opfamily get_op_btree_interpretation get_typlenbyval).
  #[local] Notation predicate_classify := (predicate_classify get_typlenbyval).

Definition equality_of (opno : Z) : option OpBtreeInterpretation :=
  find (fun i => strategy i =? BTEqualStrategyNumber) (get_op_btree_interpretation opno).

(** What the operators of a hash operator family promise: an equality of one type
    implies [key_eq], and an equality of two integer types holds of equal
    integers of these types only. *)
Record op_contract (opfamily : Z) (key_eq : Scalar -> Scalar -> Prop) : Prop := {
  key_eq_equiv :: Equivalence key_eq;
  same_type : forall opno coll i x y, op_in_opfamily opno opfamily = true -> equality_of opno = Some i ->
    oplefttype i = oprighttype i -> op_sem opno coll x y = true -> key_eq x y;
  cross_type : forall opno coll i x y, op_in_opfamily opno opfamily = true -> equality_of opno = Some i ->
    oplefttype i <> oprighttype i -> op_sem opno coll x y = true ->
    exists n, x = ByVal (u64 n) /\ y = ByVal (u64 n) /\ int_in_type (oplefttype i) n /\ int_in_type (oprighttype i) n
}.

(** The constant stands for the value. *)
Definition key_match (key_eq : Scalar -> Scalar -> Prop) (v : Scalar * bool) (c : Const) : Prop :=
  constisnull c = snd v /\ (snd v = false -> exists x, constvalue c = DScalar x /\ key_eq (fst v) x).

Lemma add_first c : AddValue (mkPVS None false) c = mkPVS (Some [c]) false.
Proof. reflexivity. Qed.

Lemma value_strip n variable : equal_variable (strip_relabel n) variable = true -> value n = env variable.
Proof.
  destruct n as [v | | arg | | | | | | |]; try done; cbn [strip_relabel equal_variable].
  - by intros ->%bool_decide_eq_true.
  - destruct arg; try done. by intros ->%bool_decide_eq_true.
Qed.

Lemma const_int64_ok t n : int_in_type t n -> const_int64 t (DScalar (ByVal (u64 n))) = Some (Ok n).
Proof.
  unfold const_int64, INT2OID, INT4OID, INT8OID. intros [[-> H] | [[-> H] | [-> H]]]; cbn [Z.eqb Pos.eqb datum_word mbind outcome_bind]; do 2 f_equal.
  - unfold DatumGetInt16, s16, u64. zlia.
  - unfold DatumGetInt32, s32, u64. zlia.
  - unfold DatumGetInt64, s64, u64. zlia.
Qed.

Lemma int_of_type_ok t n : int_in_type t n -> exists len, int_of_type t n = Some (false, len, DScalar (ByVal (u64 n))).
Proof.
  unfold int_of_type, INT2OID, INT4OID, INT8OID, INT16MAX, INT16MIN, INT32MAX, INT32MIN, IntGetDatum.
  intros [[-> H] | [[-> H] | [-> H]]]; cbn [Z.eqb Pos.eqb].
  - exists 2. replace (s16 n) with n by (unfold s16; zlia). destruct (Z.ltb_spec 32767 n), (Z.ltb_spec n (-32768)); done || lia.
  - exists 4. rewrite s32_small by lia. destruct (Z.ltb_spec 2147483647 n), (Z.ltb_spec n (-2147483648)); done || lia.
  - by exists 8.
Qed.

(** *** Atoms *)

Section Atom.
  Context (variable : Var) (opfamily : Z) (key_eq : Scalar -> Scalar -> Prop) (Hops : op_contract opfamily key_eq).

  #[local] Notation key_match := (key_match key_eq (env variable)).

(** The sets that the code makes: any value, or constants that are there. *)
Definition pvs_ok (pvs : PossibleValueSet) : Prop := isAnyValuePossible pvs = true \/ exists set, pv_set pvs = Some set.

Definition covers (pvs : PossibleValueSet) : Prop := isAnyValuePossible pvs = true \/ exists c, c ∈ GetPossibleValuesAsArray pvs /\ key_match c.

Lemma op_sides opno coll varExpr c (constOnRight : bool) i x :
  value varExpr = env variable -> constvalue c = DScalar x -> constisnull c = false ->
  op_in_opfamily opno opfamily = true -> equality_of opno = Some i ->
  (if constOnRight then apply_op op_sem opno coll (value varExpr) (value (NConst c)) else apply_op op_sem opno coll (value (NConst c)) (value varExpr)) = true ->
  snd (env variable) = false /\
  (oplefttype i = oprighttype i -> key_eq (fst (env variable)) x) /\
  (oplefttype i <> oprighttype i -> exists n, fst (env variable) = ByVal (u64 n) /\ x = ByVal (u64 n) /\
     int_in_type (if constOnRight then oplefttype i else oprighttype i) n /\ int_in_type (if constOnRight then oprighttype i else oplefttype i) n).
Proof.
  intros Hv Hc Hn Hfam Hi. cbn [ValueSet.value]. rewrite Hc, Hv, Hn. unfold apply_op. destruct (env variable) as [y ny]. cbn [fst snd negb]. pose proof (key_eq_equiv _ _ Hops).
  destruct constOnRight; rewrite ?andb_true_r; intros [Hnull Hop]%andb_true_iff; rewrite ?andb_true_r in Hnull; destruct ny; try done; (split; [done |]); split.
  - intros Ht. by eapply (same_type _ _ Hops).
  - intros Ht. destruct (cross_type _ _ Hops opno coll i y x) as (n & -> & -> & H1 & H2); try done. by exists n.
  - intros Ht. symmetry. by eapply (same_type _ _ Hops).
  - intros Ht. destruct (cross_type _ _ Hops opno coll i x y) as (n & -> & -> & H1 & H2); try done. by exists n.
Qed.

#[local] Notation try_op := (TryProcessOpExprForPossibleValues op_in_opfamily get_op_btree_interpretation).

(** What is learned from an atom covers the value that makes it true. *)
Definition learned (r : option PossibleValueSet) : Prop := match r with None => True | Some pvs => isAnyValuePossible pvs = false /\ pvs_ok pvs /\ covers pvs end.

Lemma side_sound opno coll varExpr c (constOnRight : bool) i r :
  equal_variable (strip_relabel varExpr) variable = true -> constisnull c = false -> op_in_opfamily opno opfamily = true -> equality_of opno = Some i ->
  (if constOnRight then apply_op op_sem opno coll (value varExpr) (value (NConst c)) else apply_op op_sem opno coll (value (NConst c)) (value varExpr)) = true ->
  (exists x, constvalue c = DScalar x) -> equality_value i constOnRight c = Ok r -> learned r.
Proof.
  intros Hv Hn Hfam Hi Htrue [x Hx]. apply value_strip in Hv. destruct (op_sides opno coll varExpr c constOnRight i x Hv Hx Hn Hfam Hi Htrue) as (Hnn & Hsame & Hcross).
  unfold equality_value. destruct (Z.eqb_spec (oplefttype i) (oprighttype i)) as [Et | Nt].
  - intros [= <-]. rewrite add_first. cbn [learned]. split; [done |]. split; [right; by eexists |]. right. exists c. split; [by left |].
    split; [congruence |]. intros _. exists x. auto.
  - destruct (Hcross Nt) as (n & Ev & -> & Hvt & Hct). rewrite Hx, (const_int64_ok _ n Hct). cbn [mbind outcome_bind].
    destruct (int_of_type_ok _ n Hvt) as (len & ->). intros [= <-]. rewrite add_first. split; [done |]. split; [right; by eexists |]. right. eexists. split; [by left |].
    split; [cbn; congruence |]. intros _. rewrite Ev. pose proof (key_eq_equiv _ _ Hops). eexists. split; [done | reflexivity].
Qed.

Lemma const_side_ok opno coll leftop rightop varExpr c onRight :
  const_side leftop rightop = Some (varExpr, c, onRight) -> apply_op op_sem opno coll (value leftop) (value rightop) = true ->
  (NConst c = leftop \/ NConst c = rightop) /\
  (if onRight : bool then apply_op op_sem opno coll (value varExpr) (value (NConst c)) else apply_op op_sem opno coll (value (NConst c)) (value varExpr)) = true.
Proof. unfold const_side. intros E H. destruct leftop, rightop; try done; injection E as <- <- <-; auto. Qed.

Lemma op_expr_sound opno coll args r :
  (forall c, NConst c ∈ args -> exists x, constvalue c = DScalar x) ->
  is_true (NOpExpr opno coll args) = true -> try_op opno args variable opfamily = Ok r -> learned r.
Proof.
  intros Hsc Htrue. unfold TryProcessOpExprForPossibleValues, get_leftop, get_rightop.
  destruct args as [| leftop [| rightop rest]]; [by intros [= <-] | by intros [= <-] |]. cbn [head]. cbn [ValueSet.is_true] in Htrue.
  destruct (const_side leftop rightop) as [[[varExpr c] onRight] |] eqn:Es; [| by intros [= <-]].
  destruct (const_side_ok opno coll _ _ _ _ _ Es Htrue) as [Hin Hop].
  destruct (constisnull c) eqn:En; [by intros [= <-] |]. destruct (equal_variable _ _) eqn:Ev; [| by intros [= <-]].
  destruct (op_in_opfamily opno opfamily) eqn:Ef; [| by intros [= <-]]. cbn [negb]. fold (equality_of opno).
  destruct (equality_of opno) as [i |] eqn:Ei; [| by intros [= <-]]. apply (side_sound opno coll varExpr); try done. apply Hsc. destruct Hin as [-> | ->]; [by left | right; by left].
Qed.

Lemma null_test_sound t arg r :
  is_true (NNullTest t arg) = true -> TryProcessNullTestForPossibleValues get_typlenbyval t arg variable = r -> learned r.
Proof.
  unfold TryProcessNullTestForPossibleValues. destruct (equal_variable _ _) eqn:Ev; [| by intros _ <-]. cbn [negb]. apply value_strip in Ev.
  destruct t; [| by intros _ <-]. cbn [ValueSet.is_true]. rewrite Ev. intros Hn <-. rewrite add_first. split; [done |]. split; [right; by eexists |].
  right. eexists. split; [by left |]. unfold makeNullConst. destruct (get_typlenbyval _). cbn. split; [done | congruence].
Qed.

(** *** Clauses *)

#[local] Notation try_expr := (TryProcessExprForPossibleValues op_in_opfamily get_op_btree_interpretation get_typlenbyval).

Definition is_int_type (t : Z) : bool := (t =? INT2OID) || (t =? INT4OID) || (t =? INT8OID).

(** The constants of an operator are values, those of an integer type words. *)
Definition scalar_const (n : Node) : bool := match n with NConst c => match constvalue c with DScalar _ => true | DArray _ _ => false end | _ => true end.
Definition word_const (t : Z) (n : Node) : bool :=
  match n with NConst c => negb (is_int_type t) || match constvalue c with DScalar (ByVal _) => true | _ => false end | _ => true end.

Definition typed_atom (n : Node) : bool :=
  match n with
  | NOpExpr opno _ args =>
      forallb scalar_const args &&
      match equality_of opno, args with
      | Some i, a :: b :: _ => word_const (oplefttype i) a && word_const (oprighttype i) b
      | _, _ => true
      end
  | _ => true
  end.

Fixpoint typed_clause (fuel : nat) (clause : Node) : bool :=
  match fuel with
  | O => true
  | S fuel =>
      match predicate_classify clause with
      | (CLASS_ATOM, _) => typed_atom clause
      | (_, clauses) => forallb (typed_clause fuel) clauses
      end
  end.

(** The constants that the atoms of a clause leave for the variable. *)
Fixpoint clause_consts (fuel : nat) (clause : Node) : list Const :=
  match fuel with
  | O => []
  | S fuel =>
      match predicate_classify clause with
      | (CLASS_ATOM, _) => match try_expr clause variable opfamily with Ok (Some pvs) => GetPossibleValuesAsArray pvs | _ => [] end
      | (_, clauses) => flat_map (clause_consts fuel) clauses
      end
  end.

(** Constants of two clauses that stand for the value are equal as [equal()] sees it. *)
Definition same_bytes (consts : Node -> list Const) (a b : Node) : Prop :=
  forall c c', c ∈ consts a -> c' ∈ consts b -> key_match c -> key_match c' -> equalConst c c' = true.

Fixpoint pairs_agree (consts : Node -> list Const) (clauses : list Node) : Prop :=
  match clauses with
  | [] => True
  | a :: clauses => Forall (same_bytes consts a) clauses /\ pairs_agree consts clauses
  end.

(** In each conjunction the clauses agree on the bytes of the value. *)
Fixpoint raw_agrees (fuel : nat) (clause : Node) : Prop :=
  match fuel with
  | O => True
  | S fuel =>
      match predicate_classify clause with
      | (CLASS_ATOM, _) => True
      | (CLASS_OR, clauses) => Forall (raw_agrees fuel) clauses
      | (CLASS_AND, clauses) => Forall (raw_agrees fuel) clauses /\ pairs_agree (clause_consts fuel) clauses
      end
  end.

Lemma try_expr_ok n :
  typed_atom n = true ->
  exists r, try_expr n variable opfamily = Ok r /\ (is_true n = true -> learned r) /\
    match r with None => True | Some pvs => isAnyValuePossible pvs = false /\ pvs_ok pvs end.
Proof.
  destruct n as [| | | opno coll args | t arg | | | | |]; intros Ht; try by exists None.
  2: { cbn [TryProcessExprForPossibleValues]. eexists. split; [done |]. split; [intros H; by eapply null_test_sound |].
       unfold TryProcessNullTestForPossibleValues. destruct (negb _); [done |]. destruct t; [| done]. rewrite add_first. split; [done | right; by eexists]. }
  cbn [typed_atom] in Ht. apply andb_true_iff in Ht as [Hsc Hw]. cbn [TryProcessExprForPossibleValues].
  assert (Hsc' : forall c, NConst c ∈ args -> exists x, constvalue c = DScalar x).
  { intros c Hin. rewrite forallb_forall in Hsc. specialize (Hsc (NConst c) (proj1 (list_elem_of_In _ _) Hin)). cbn in Hsc. destruct (constvalue c); [eauto | done]. }
  assert (Hr : exists r, try_op opno args variable opfamily = Ok r /\ match r with None => True | Some pvs => isAnyValuePossible pvs = false /\ pvs_ok pvs end).
  2: { destruct Hr as (r & E & Hp). exists r. split; [done |]. split; [| done]. intros H. by eapply op_expr_sound. }
  unfold TryProcessOpExprForPossibleValues, get_leftop, get_rightop. destruct args as [| leftop [| rightop rest]]; [by exists None | by exists None |]. cbn [head].
  destruct (const_side leftop rightop) as [[[varExpr c] onRight] |] eqn:Es; [| by exists None]. destruct (constisnull c); [by exists None |].
  destruct (negb _); [by exists None |]. destruct (negb _); [by exists None |]. fold (equality_of opno). destruct (equality_of opno) as [i |]; [| by exists None].
  unfold equality_value. destruct (_ =? _); [eexists; split; [done |]; rewrite add_first; split; [done | right; by eexists] |].
  assert (Hword : word_const (if onRight then oprighttype i else oplefttype i) (NConst c) = true).
  { apply andb_true_iff in Hw as [Hw1 Hw2]. unfold const_side in Es. destruct leftop, rightop; try done; injection Es as <- <- <-; done. }
  set (ct := if onRight then oprighttype i else oplefttype i) in *. set (vt := if onRight then oplefttype i else oprighttype i).
  destruct (const_int64 ct (constvalue c)) as [o |] eqn:Eo; [| by exists None].
  assert (Hi : exists n, o = Ok n).
  { cbn in Hword. unfold const_int64, is_int_type in *. destruct (ct =? INT2OID), (ct =? INT4OID), (ct =? INT8OID); try done; cbn [orb negb] in Hword;
      (destruct (constvalue c) as [[v |] |]; [| done | done]); injection Eo as <-; by eexists. }
  destruct Hi as [n ->]. cbn [mbind outcome_bind]. destruct (int_of_type vt n) as [[[ov len] d] |]; [| by exists None].
  destruct ov; eexists; (split; [done |]); [by split; [| right; eexists] |]. rewrite add_first. by split; [| right; eexists].
Qed.

Lemma list_max_in (f : Node -> nat) l x : x ∈ l -> (f x <= list_max (map f l))%nat.
Proof.
  induction l as [| y l IH]; intros Hin; [by apply not_elem_of_nil in Hin |]. change (list_max (map f (y :: l))) with (Nat.max (f y) (list_max (map f l))).
  apply elem_of_cons in Hin as [-> | Hin]; [| specialize (IH Hin)]; lia.
Qed.

Lemma classify_depth clause class clauses child :
  predicate_classify clause = (class, clauses) -> child ∈ clauses -> (clause_depth child < clause_depth clause)%nat.
Proof.
  intros E Hin. destruct clause as [| | | | | op args | elems | opno coll useOr args | |]; cbn [ValueSet.predicate_classify] in E;
    try (injection E as <- <-; by apply not_elem_of_nil in Hin).
  - destruct op; injection E as <- <-; [| | by apply not_elem_of_nil in Hin]; cbn [clause_depth]; pose proof (list_max_in clause_depth _ _ Hin); lia.
  - injection E as <- <-. cbn [clause_depth]. pose proof (list_max_in clause_depth _ _ Hin). lia.
  - assert (Hone : (clause_depth child <= 1)%nat); [| cbn [clause_depth]; lia].
    destruct (get_rightop args) as [[| c | | | | | | | md els |] |]; try (injection E as <- <-; by apply not_elem_of_nil in Hin).
    + destruct (constvalue c) as [| et es]; [injection E as <- <-; by apply not_elem_of_nil in Hin |].
      destruct (_ && _); [| injection E as <- <-; by apply not_elem_of_nil in Hin]. injection E as <- <-.
      unfold arrayconst_clauses in Hin. destruct (get_typlenbyval et). apply list_elem_of_fmap in Hin as (e & -> & _). done.
    + destruct (_ && _); [| injection E as <- <-; by apply not_elem_of_nil in Hin]. injection E as <- <-.
      unfold arrayexpr_clauses in Hin. apply list_elem_of_fmap in Hin as (e & -> & _). done.
Qed.

(** The clauses of a conjunction are true together, one of a disjunction is. *)
Lemma classify_true clause class clauses :
  predicate_classify clause = (class, clauses) -> is_true clause = true ->
  match class with
  | CLASS_ATOM => True
  | CLASS_AND => forall child, child ∈ clauses -> is_true child = true
  | CLASS_OR => exists child, child ∈ clauses /\ is_true child = true
  end.
Proof.
  assert (Hall : forall l, forallb is_true l = true -> forall child, child ∈ l -> is_true child = true).
  { intros l H child Hin. rewrite forallb_forall in H. by apply H, list_elem_of_In. }
  assert (Hex : forall l, existsb is_true l = true -> exists child, child ∈ l /\ is_true child = true).
  { intros l (c & H1 & H2)%existsb_exists. exists c. split; [by apply list_elem_of_In | done]. }
  intros E H. destruct clause as [| | | | | op args | elems | opno coll useOr args | |]; cbn [ValueSet.predicate_classify] in E; try (injection E as <- <-; done).
  - destruct op; injection E as <- <-; [exact (Hall _ H) | exact (Hex _ H) | done].
  - injection E as <- <-. exact (Hall _ H).
  - destruct args as [| a [| b rest]]; [injection E as <- <-; done | injection E as <- <-; done |]. cbn [get_rightop] in E.
    assert (Hsaop : forall nodes, any_or_all useOr (apply_op op_sem opno coll (value a)) (map value nodes) = true ->
      match (if useOr then CLASS_OR else CLASS_AND) with
      | CLASS_ATOM => True
      | CLASS_AND => forall child, child ∈ map (fun e => NOpExpr opno coll ([a] ++ [e])) nodes -> is_true child = true
      | CLASS_OR => exists child, child ∈ map (fun e => NOpExpr opno coll ([a] ++ [e])) nodes /\ is_true child = true
      end).
    { intros nodes Hq. unfold any_or_all in Hq. destruct useOr.
      - apply existsb_exists in Hq as (x & Hx & Ho). apply in_map_iff in Hx as (e & <- & He). exists (NOpExpr opno coll ([a] ++ [e])).
        split; [| done]. apply list_elem_of_In, in_map_iff. by exists e.
      - intros child Hin. apply list_elem_of_fmap in Hin as (e & -> & He). rewrite forallb_forall in Hq. apply (Hq (value e)). by apply in_map, list_elem_of_In. }
    destruct b as [| c | | | | | | | md els |]; try (injection E as <- <-; done).
    + cbn [ValueSet.is_true] in H. destruct (constvalue c) as [| et es]; [injection E as <- <-; done |].
      destruct (_ && (zlen es <=? _)); [| injection E as <- <-; done]. apply andb_true_iff in H as [_ H]. injection E as <- <-. unfold arrayconst_clauses.
      destruct (get_typlenbyval et) as [len byval]. cbn [take firstn].
      specialize (Hsaop (map (fun e => NConst (mkConst et (-1) (constcollid c) len (DScalar (fst e)) (snd e) byval)) es)). rewrite !map_map in Hsaop. cbn in Hsaop. apply Hsaop.
      rewrite <- H. f_equal. rewrite <- (map_id es) at 2. apply map_ext. by intros [].
    + destruct md; cbn [negb andb] in E; [injection E as <- <-; done |]. destruct (zlen els <=? _); [| injection E as <- <-; done]. injection E as <- <-.
      cbn [ValueSet.is_true] in H. unfold arrayexpr_clauses. cbn [take firstn]. by apply Hsaop.
Qed.

Lemma key_match_equal c c' : equalConst c c' = true -> key_match c -> key_match c'.
Proof.
  rewrite equalConst_spec. intros (_ & _ & _ & _ & En & _ & Ev) [Hn Hk]. split; [congruence |]. intros H. rewrite <- Ev by congruence. by apply Hk.
Qed.

#[local] Notation values := GetPossibleValuesAsArray.

(** A set for a clause: of constants of the clause. *)
Definition from_clause (consts : list Const) (p : PossibleValueSet) : Prop :=
  pvs_ok p /\ (isAnyValuePossible p = true \/ forall c, c ∈ values p -> c ∈ consts).

Lemma pvs_set p : pvs_ok p -> isAnyValuePossible p = false -> exists set, pv_set p = Some set /\ values p = set.
Proof. intros [H | [set E]] Ha; [congruence |]. exists set. split; [done |]. unfold GetPossibleValuesAsArray. by rewrite E. Qed.

Section Loops.
  Context (determine : Node -> outcome PossibleValueSet) (consts : Node -> list Const).

Lemma and_loop_ok all : forall clauses result,
  (forall child, child ∈ clauses -> (exists p, determine child = Ok p /\ from_clause (consts child) p) /\ forall c, c ∈ consts child -> c ∈ all) ->
  from_clause all result -> exists r, and_loop determine clauses result = Ok r /\ from_clause all r.
Proof.
  induction clauses as [| child clauses IH]; intros result Hch Hres; cbn [and_loop]; [by exists result |].
  destruct (Hch child ltac:(by left)) as [(p & -> & [Hp Hpin]) Hsub]. cbn [mbind outcome_bind].
  assert (Hrest : forall child, child ∈ clauses -> (exists p, determine child = Ok p /\ from_clause (consts child) p) /\ forall c, c ∈ consts child -> c ∈ all) by (intros; apply Hch; by right).
  destruct (isAnyValuePossible p) eqn:Ea; [by apply IH |]. destruct Hpin as [? | Hpin]; [done |].
  assert (Hpall : from_clause all p) by (split; [done |]; right; auto). destruct Hres as [Hrok Hrin].
  destruct (isAnyValuePossible result) eqn:Er; cbn [mbind outcome_bind]; [by apply IH |]. destruct Hrin as [? | Hrin]; [done |].
  destruct (pvs_set _ Hrok Er) as (set & E1 & V1), (pvs_set _ Hp Ea) as (vs & E2 & V2).
  destruct (remove_unmatching_spec result p set vs E1 E2) as (r & set' & -> & Ear & Esr & Hr). cbn [mbind outcome_bind]. apply IH; [done |]. split; [right; by eexists |].
  right. intros c. unfold GetPossibleValuesAsArray. rewrite Esr. cbn. intros [Hin _]%Hr. apply Hrin. by rewrite V1.
Qed.

Lemma and_loop_covers : forall clauses result r,
  (forall child, child ∈ clauses -> exists p, determine child = Ok p /\ from_clause (consts child) p /\ covers p) ->
  pvs_ok result -> covers result ->
  (isAnyValuePossible result = false -> forall child c c', child ∈ clauses -> c ∈ values result -> c' ∈ consts child -> key_match c -> key_match c' -> equalConst c c' = true) ->
  pairs_agree consts clauses -> and_loop determine clauses result = Ok r -> covers r.
Proof.
  induction clauses as [| child clauses IH]; intros result r Hch Hrok Hcov Hag Hpairs; cbn [and_loop]; [by intros [= <-] |].
  destruct (Hch child ltac:(by left)) as (p & -> & [Hp Hpin] & Hpc). cbn [mbind outcome_bind]. destruct Hpairs as [Hfirst Hpairs].
  assert (Hrest : forall child, child ∈ clauses -> exists p, determine child = Ok p /\ from_clause (consts child) p /\ covers p) by (intros; apply Hch; by right).
  destruct (isAnyValuePossible p) eqn:Ea.
  { cbn [mbind outcome_bind]. apply IH; try done. intros Hany b c c' Hb. apply Hag; [done | by right]. }
  destruct Hpin as [? | Hpin]; [done |]. destruct (isAnyValuePossible result) eqn:Er; cbn [mbind outcome_bind].
  { apply IH; try done. intros _ b c c' Hb Hc Hc'. rewrite Forall_forall in Hfirst. apply (Hfirst b Hb); auto. }
  destruct (pvs_set _ Hrok Er) as (set & E1 & V1), (pvs_set _ Hp Ea) as (vs & E2 & V2).
  destruct (remove_unmatching_spec result p set vs E1 E2) as (r' & set' & -> & Ear & Esr & Hr). cbn [mbind outcome_bind].
  assert (Vr : values r' = set') by (unfold GetPossibleValuesAsArray; by rewrite Esr).
  apply IH; try done; [right; by eexists | |].
  - destruct Hcov as [? | (c & Hc & Hm)]; [congruence |]. destruct Hpc as [? | (c' & Hc' & Hm')]; [congruence |]. right. exists c. split; [| done].
    rewrite Vr. apply Hr. rewrite <- V1, <- V2. split; [done |]. exists c'. split; [done |]. apply (Hag eq_refl child); auto. by left.
  - intros _ b c c' Hb Hc. apply Hag; [done | by right |]. rewrite V1. rewrite Vr in Hc. by apply Hr in Hc as [? _].
Qed.

Lemma or_loop_ok all : forall clauses result,
  (forall child, child ∈ clauses -> (exists p, determine child = Ok p /\ from_clause (consts child) p) /\ forall c, c ∈ consts child -> c ∈ all) ->
  from_clause all result ->
  exists r, or_loop determine clauses result = Ok r /\ from_clause all r /\
    ((isAnyValuePossible result = false /\ covers result) \/ (exists child p, child ∈ clauses /\ determine child = Ok p /\ covers p) -> covers r).
Proof.
  assert (Hinit : forall l, from_clause l InitPossibleValueSetData /\ covers InitPossibleValueSetData) by (intros l; split; [split; by left | by left]).
  induction clauses as [| child clauses IH]; intros result Hch Hres; cbn [or_loop].
  { exists result. split; [done |]. split; [done |]. intros [[_ ?] | (child & p & Hin & _)]; [done | by apply not_elem_of_nil in Hin]. }
  destruct (Hch child ltac:(by left)) as [(p & Edet & [Hp Hpin]) Hsub]. rewrite Edet. cbn [mbind outcome_bind].
  destruct (isAnyValuePossible p) eqn:Ea.
  { exists InitPossibleValueSetData. split; [done |]. split; [apply Hinit |]. intros _. by apply (Hinit []). }
  destruct Hpin as [? | Hpin]; [done |]. destruct Hres as [Hrok Hrin].
  assert (Hrest : forall child, child ∈ clauses -> (exists p, determine child = Ok p /\ from_clause (consts child) p) /\ forall c, c ∈ consts child -> c ∈ all) by (intros; apply Hch; by right).
  assert (Hstep : forall r, from_clause all r -> isAnyValuePossible r = false ->
    (isAnyValuePossible result = false /\ covers result \/ covers p -> covers r) ->
    exists r', or_loop determine clauses r = Ok r' /\ from_clause all r' /\
      ((isAnyValuePossible result = false /\ covers result) \/ (exists child0 p, child0 ∈ child :: clauses /\ determine child0 = Ok p /\ covers p) -> covers r')).
  { intros r1 H1 Ha1 Hcov. destruct (IH r1 Hrest H1) as (r' & E' & Hr' & Hc'). exists r'. split_and!; try done. intros [H | (b & pb & Hb & Eb & Hcb)].
    - apply Hc'. left. auto.
    - apply elem_of_cons in Hb as [-> | Hb]; [| apply Hc'; right; eauto]. rewrite Edet in Eb. injection Eb as <-. apply Hc'. left. auto. }
  destruct (isAnyValuePossible result) eqn:Er; cbn [mbind outcome_bind].
  { apply Hstep; [split; [done |]; right; auto | done |]. by intros [[? _] | ?]. }
  destruct Hrin as [? | Hrin]; [done |]. destruct (pvs_set _ Hrok Er) as (set & E1 & V1), (pvs_set _ Hp Ea) as (vs & E2 & V2).
  destruct (add_unmatching_spec result p set vs E1 E2) as (r1 & set' & -> & Ear & Esr & Hk & Hs & Hn). cbn [mbind outcome_bind].
  assert (Vr : values r1 = set') by (unfold GetPossibleValuesAsArray; by rewrite Esr). apply Hstep; [| congruence |].
  - split; [right; by eexists |]. right. intros c. rewrite Vr. intros [Hin | Hin]%Hn; [apply Hrin; by rewrite V1 | apply Hsub, Hpin; by rewrite V2].
  - intros [[_ [? | (c & Hc & Hm)]] | [? | (c & Hc & Hm)]]; try congruence; right.
    + exists c. split; [| done]. rewrite Vr. apply Hk. by rewrite <- V1.
    + rewrite V2 in Hc. destruct (Hs c Hc) as (c' & Hin & Heq). exists c'. rewrite Vr. split; [done |]. by eapply key_match_equal.
Qed.
End Loops.

(** The sets of a clause with enough fuel, and what they cover. *)
Lemma determine_ok : forall fuel clause,
  (clause_depth clause <= fuel)%nat -> typed_clause fuel clause = true ->
  exists p, determine_values fuel clause variable opfamily = Ok p /\ from_clause (clause_consts fuel clause) p /\
    (raw_agrees fuel clause -> is_true clause = true -> covers p).
Proof.
  induction fuel as [| fuel IH]; intros clause Hd Ht; [destruct clause; cbn in Hd; lia |].
  cbn [ValueSet.determine_values typed_clause clause_consts raw_agrees] in *. destruct (predicate_classify clause) as [class clauses] eqn:Ec.
  pose proof (classify_depth clause class clauses) as Hdepth. pose proof (classify_true clause class clauses Ec) as Htrue.
  assert (Hchild : class <> CLASS_ATOM -> forall child, child ∈ clauses -> exists p, determine_values fuel child variable opfamily = Ok p /\
    from_clause (clause_consts fuel child) p /\ (raw_agrees fuel child -> is_true child = true -> covers p)).
  { intros Hne child Hin. apply IH; [specialize (Hdepth child Ec Hin); lia |]. destruct class; [done | |]; rewrite forallb_forall in Ht; by apply Ht, list_elem_of_In. }
  assert (Hall : class <> CLASS_ATOM -> forall child, child ∈ clauses -> (exists p, determine_values fuel child variable opfamily = Ok p /\ from_clause (clause_consts fuel child) p) /\
    forall c, c ∈ clause_consts fuel child -> c ∈ flat_map (clause_consts fuel) clauses).
  { intros Hne child Hin. split; [destruct (Hchild Hne child Hin) as (p & ? & ? & _); eauto |]. intros c Hc. apply list_elem_of_In, in_flat_map. exists child. by rewrite <- !list_elem_of_In. }
  assert (Hinit : from_clause (flat_map (clause_consts fuel) clauses) InitPossibleValueSetData) by (split; by left).
  destruct class.
  - destruct (try_expr_ok clause Ht) as (r & E & Hl & Hok). rewrite E. cbn [mbind outcome_bind]. exists (default InitPossibleValueSetData r). split; [done |].
    destruct r as [pvs |]; cbn [default]; [| split; [split; by left | intros _ _; by left]].
    split; [split; [apply Hok |]; right; auto |]. intros _ Hc. by apply Hl.
  - destruct (and_loop_ok (fun child => determine_values fuel child variable opfamily) (clause_consts fuel) _ clauses InitPossibleValueSetData (Hall ltac:(done)) Hinit) as (r & E & Hr).
    exists r. split; [done |]. split; [done |]. intros [HF Hpairs] Hc. specialize (Htrue Hc). apply (and_loop_covers (fun child => determine_values fuel child variable opfamily) (clause_consts fuel) clauses InitPossibleValueSetData r); [| by left | by left | done | exact Hpairs | exact E].
    intros child Hin. destruct (Hchild ltac:(done) child Hin) as (p & Ep & Hp & Hcov). exists p. split_and!; try done. rewrite Forall_forall in HF. auto.
  - destruct (or_loop_ok (fun child => determine_values fuel child variable opfamily) (clause_consts fuel) _ clauses InitPossibleValueSetData (Hall ltac:(done)) Hinit) as (r & E & Hr & Hcov).
    exists r. split; [done |]. split; [done |]. intros HF Hc. destruct (Htrue Hc) as (child & Hin & Hct). destruct (Hchild ltac:(done) child Hin) as (p & Ep & Hp & Hpc).
    apply Hcov. right. exists child, p. split_and!; try done. rewrite Forall_forall in HF. auto.
Qed.

(** In a family of integers the constants are words. *)
Lemma clause_consts_words :
  (forall opno i, op_in_opfamily opno opfamily = true -> equality_of opno = Some i -> is_int_type (oplefttype i) = true /\ is_int_type (oprighttype i) = true) ->
  forall fuel clause c, typed_clause fuel clause = true -> c ∈ clause_consts fuel clause -> exists v, constvalue c = DScalar (ByVal v).
Proof.
  intros Hint. induction fuel as [| fuel IH]; intros clause c Ht Hin; [by apply not_elem_of_nil in Hin |].
  cbn [typed_clause clause_consts] in Ht, Hin. destruct (predicate_classify clause) as [class clauses].
  assert (Hrec : forallb (typed_clause fuel) clauses = true -> c ∈ flat_map (clause_consts fuel) clauses -> exists v, constvalue c = DScalar (ByVal v)).
  { intros HF Hc. apply list_elem_of_In, in_flat_map in Hc as (child & Hch & Hc). rewrite forallb_forall in HF. apply (IH child); [by apply HF | by apply list_elem_of_In]. }
  destruct class; [| by apply Hrec | by apply Hrec]. clear Hrec IH. destruct clause as [| | | opno coll args | t arg | | | | |]; try (by apply not_elem_of_nil in Hin); cbn [TryProcessExprForPossibleValues] in Hin.
  2: { unfold TryProcessNullTestForPossibleValues in Hin. destruct (negb _); [by apply not_elem_of_nil in Hin |]. destruct t; [| by apply not_elem_of_nil in Hin].
       rewrite add_first in Hin. cbn in Hin. apply list_elem_of_singleton in Hin as ->. unfold makeNullConst. destruct (get_typlenbyval _). by eexists. }
  cbn [typed_atom] in Ht. apply andb_true_iff in Ht as [_ Hw]. unfold TryProcessOpExprForPossibleValues, get_leftop, get_rightop in Hin.
  destruct args as [| leftop [| rightop rest]]; try (by apply not_elem_of_nil in Hin). cbn [head] in Hin.
  destruct (const_side leftop rightop) as [[[varExpr k] onRight] |] eqn:Es; [| by apply not_elem_of_nil in Hin]. destruct (constisnull k); [by apply not_elem_of_nil in Hin |].
  destruct (negb (equal_variable _ _)); [by apply not_elem_of_nil in Hin |]. destruct (op_in_opfamily opno opfamily) eqn:Ef; [| by apply not_elem_of_nil in Hin]. cbn [negb] in Hin.
  fold (equality_of opno) in Hin. destruct (equality_of opno) as [i |] eqn:Ei; [| by apply not_elem_of_nil in Hin]. destruct (Hint opno i Ef Ei) as [Hl Hr]. unfold equality_value in Hin.
  destruct (oplefttype i =? oprighttype i).
  - rewrite add_first in Hin. cbn in Hin. apply list_elem_of_singleton in Hin as ->. apply andb_true_iff in Hw as [Hw1 Hw2].
    assert (Hk : word_const (if onRight then oprighttype i else oplefttype i) (NConst k) = true) by (unfold const_side in Es; destruct leftop, rightop; try done; injection Es as <- <- <-; done).
    cbn in Hk. destruct onRight; rewrite ?Hl, ?Hr in Hk; cbn [negb orb] in Hk; destruct (constvalue k) as [[v |] |]; try done; by eexists.
  - destruct (const_int64 _ _) as [[n | |] |]; try (by apply not_elem_of_nil in Hin). cbn [mbind outcome_bind] in Hin.
    destruct (int_of_type _ n) as [[[ov len] d] |] eqn:Eo; [| by apply not_elem_of_nil in Hin]. destruct ov; [by apply not_elem_of_nil in Hin |].
    rewrite add_first in Hin. cbn in Hin. apply list_elem_of_singleton in Hin as ->. cbn. unfold int_of_type, IntGetDatum in Eo. repeat case_match; simplify_eq; by eexists.
Qed.
End Atom.
End Sound.
