(* ===== verification/DirectDispatch.v ===== *)
(** * Direct dispatch

    Models src/backend/cdb/cdbtargeteddispatch.c: which segments a slice of a plan
    has to run on.  For a scan, the values that the qualification leaves for the
    distribution keys ([ValueSet]) are hashed in all combinations ([CdbHash]);
    what the scans of a slice need is merged.  With the predicates on
    distribution policies (cdbcat.c), the step of [build_slice_table_walker]
    (cdbllize.c) that gives a slice without segments one, and the segments that
    [FillSliceGangInfo] (execUtils.c) dispatches to.

    Opening the relation, its descriptor and the catalog are parameters; a plan
    node is its type with the qualification that the type is looked up for. *)

From stdpp Require Import base list.
From S2P Require Import Prelude LegacyHash CdbHash ValueSet.

Inductive GpPolicyType := POLICYTYPE_PARTITIONED | POLICYTYPE_ENTRY | POLICYTYPE_REPLICATED.

Record GpPolicy := mkPolicy { ptype : GpPolicyType; numsegments : Z; attrs : list Z; opclasses : list Z }.

Definition is_partitioned_type (p : GpPolicy) : bool := match ptype p with POLICYTYPE_PARTITIONED => true | _ => false end.

Definition GpPolicyIsPartitioned (policy : option GpPolicy) : bool := match policy with None => false | Some p => is_partitioned_type p end.

Definition GpPolicyIsHashPartitioned (policy : option GpPolicy) : bool :=
  match policy with None => false | Some p => is_partitioned_type p && (0 <? zlen (attrs p)) end.

Definition GpPolicyIsEntry (policy : option GpPolicy) : bool :=
  match policy with None => true | Some p => match ptype p with POLICYTYPE_ENTRY => true | _ => false end end.

Record DirectDispatchInfo := mkDDI { isDirectDispatch : bool; contentIds : list Z; haveProcessedAnyCalculations : bool }.

Definition InitDirectDispatchCalculationInfo : DirectDispatchInfo := mkDDI false [] false.

Definition DisableTargetedDispatch : DirectDispatchInfo := mkDDI false [] true.

Definition list_append_unique_int (l : list Z) (datum : Z) : list Z := if bool_decide (datum ∈ l) then l else l ++ [datum].

Definition list_union_int (l1 l2 : list Z) : list Z := fold_left list_append_unique_int l2 l1.

Definition GP_SEGMENTID_TYPID : Z := INT4OID.
Definition GP_SEGMENTID_OPFAMILY : Z := 1977.
Definition GpSegmentIdAttributeNumber : Z := -7.

(** An attribute: its type, typmod and collation. *)
Record attribute := mkAttribute { atttypid : Z; atttypmod : Z; attcollation : Z }.

Definition makeVar (rangeTableIndex attno : Z) (a : attribute) : Var :=
  mkVar rangeTableIndex attno (atttypid a) (atttypmod a) (attcollation a) 0.

Definition segment_id_var (rangeTableIndex : Z) : Var :=
  makeVar rangeTableIndex GpSegmentIdAttributeNumber (mkAttribute GP_SEGMENTID_TYPID (-1) 0).

(** A qualification without clauses is a null pointer. *)
Definition qual_node (qualification : list Node) : option Node := match qualification with [] => None | _ => Some (NList qualification) end.

Section Dispatch.
  Context (FunctionCallInvoke : Z -> Datum -> Z -> outcome (option Z)).
  Context (op_in_opfamily : Z -> Z -> bool) (get_op_btree_interpretation : Z -> list OpBtreeInterpretation) (get_typlenbyval : Z -> Z * bool).
  Context (get_opclass_family : Z -> Z) (get_opfamily_proc : Z -> Z -> Z -> Z -> Z) (AMPROCNUM : Z -> list amproc) (IsBinaryCoercible : Z -> Z -> bool).

  #[local] Notation determine := (DeterminePossibleValueSet op_in_opfamily get_op_btree_interpretation get_typlenbyval).

(** The hash for a relation with the policy and the descriptor. *)
Definition relation_hash (policy : GpPolicy) (att : Z -> attribute) : outcome CdbHash :=
  makeCdbHashForRelation get_opfamily_proc AMPROCNUM IsBinaryCoercible get_opclass_family (numsegments policy)
    (map (fun k => (snd k, atttypid (att (fst k)))) (zip (attrs policy) (opclasses policy))).

(** The segments that a condition on gp_segment_id names, when it names some but
    not all. *)
Fixpoint segment_ids (values : list Const) (ids : list Z) : outcome (list Z) :=
  match values with
  | [] => Ok ids
  | c :: values => d ← datum_word (constvalue c); segment_ids values (list_append_unique_int ids (DatumGetInt32 d))
  end.

(** The values of each key and how many combinations there are; -1 when a key
    may have any value. *)
Fixpoint possible_parts (keys : list (Z * Z)) (att : Z -> attribute) (rangeTableIndex : Z) (qual : option Node) (totalCombinations : Z) :
    outcome (list (list Const) * Z) :=
  match keys with
  | [] => Ok ([], totalCombinations)
  | (attnum, opclass) :: keys =>
      pvs ← determine qual (makeVar rangeTableIndex attnum (att attnum)) (get_opclass_family opclass);
      if isAnyValuePossible pvs then Ok ([], -1)
      else
        let values := GetPossibleValuesAsArray pvs in
        '(parts, totalCombinations) ← possible_parts keys att rangeTableIndex qual (s64 (totalCombinations * zlen values));
        Ok (values :: parts, totalCombinations)
  end.

(** The combination of an index, the values of the first key changing fastest. *)
Fixpoint combination (parts : list (list Const)) (curIndex : Z) : outcome (list (Datum * bool)) :=
  match parts with
  | [] => Ok []
  | values :: parts =>
      let numValues := zlen values in
      c ← zget values (curIndex mod numValues);
      rest ← combination parts (curIndex / numValues);
      Ok ((constvalue c, constisnull c) :: rest)
  end.

Fixpoint combination_segments (n : nat) (index : Z) (parts : list (list Const)) (h : CdbHash) (magic_hash_stash : Z) (ids : list Z) : outcome (list Z) :=
  match n with
  | O => Ok ids
  | S n =>
      keys ← combination parts index;
      let '(hashCode, magic_hash_stash) := key_segment FunctionCallInvoke h keys magic_hash_stash in
      hashCode ← hashCode;
      combination_segments n (index + 1) parts h magic_hash_stash (list_append_unique_int ids hashCode)
  end.

(** [relation] is the policy of the relation, when the range table entry is one. *)
Definition GetDispatchInfoFromPlanForSingleRelation (forceDistRandom : bool) (relation : option GpPolicy) (att : Z -> attribute)
    (rangeTableIndex : Z) (qualification : list Node) (magic_hash_stash : Z) : outcome DirectDispatchInfo :=
  if forceDistRandom || GpPolicyIsEntry relation then Ok (mkDDI false [] true)
  else
    match relation with
    | None => Ok (mkDDI false [] true)
    | Some policy =>
        let qual := qual_node qualification in
        by_segment ←
          (if GpPolicyIsPartitioned relation then
             pvs_segids ← determine qual (segment_id_var rangeTableIndex) GP_SEGMENTID_OPFAMILY;
             let seg_ids := GetPossibleValuesAsArray pvs_segids in
             if negb (isAnyValuePossible pvs_segids) && (0 <? zlen seg_ids) && (zlen seg_ids <? numsegments policy) then
               ids ← segment_ids seg_ids [];
               Ok (Some ids)
             else Ok None
           else Ok None);
        match by_segment with
        | Some ids => Ok (mkDDI true ids true)
        | None =>
            if GpPolicyIsHashPartitioned relation then
              '(parts, totalCombinations) ← possible_parts (zip (attrs policy) (opclasses policy)) att rangeTableIndex qual 1;
              if totalCombinations =? 0 then Ok (mkDDI true [] true)
              else if (0 <? totalCombinations) && (totalCombinations <? s32 (numsegments policy * 3)) then
                h ← relation_hash policy att;
                ids ← combination_segments (Z.to_nat totalCombinations) 0 parts h magic_hash_stash [];
                Ok (mkDDI true ids true)
              else Ok (mkDDI false [] true)
            else Ok (mkDDI false [] true)
        end
    end.

Definition MergeDirectDispatchCalculationInfo (to from : DirectDispatchInfo) : DirectDispatchInfo :=
  let to :=
    if negb (isDirectDispatch from) then mkDDI false (contentIds to) (haveProcessedAnyCalculations to)
    else if negb (haveProcessedAnyCalculations to) then from
    else if negb (isDirectDispatch to) then to
    else match contentIds from, contentIds to with
         | [], _ => to
         | _, [] => mkDDI (isDirectDispatch to) (contentIds from) (haveProcessedAnyCalculations to)
         | _, _ => mkDDI (isDirectDispatch to) (list_union_int (contentIds to) (contentIds from)) (haveProcessedAnyCalculations to)
         end in
  mkDDI (isDirectDispatch to) (contentIds to) true.

(** ** The nodes of a slice *)

(** The node types with no change to the segments, those that disable direct
    dispatch, and the scans, with the qualification that is used for each. *)
Inductive NodeTag :=
| T_Result | T_Append | T_MergeAppend | T_LockRows | T_ModifyTable | T_BitmapAnd | T_BitmapOr | T_BitmapHeapScan
| T_SampleScan | T_SeqScan | T_IndexScan | T_IndexOnlyScan | T_BitmapIndexScan
| T_SubqueryScan | T_NamedTuplestoreScan | T_TidScan | T_FunctionScan | T_TableFuncScan | T_WorkTableScan | T_ValuesScan
| T_NestLoop | T_MergeJoin | T_HashJoin
| T_Material | T_Sort | T_Agg | T_TupleSplit | T_Unique | T_Gather | T_Hash | T_SetOp | T_Limit | T_PartitionSelector
| T_Motion | T_ShareInputScan | T_WindowAgg | T_TableFunctionScan | T_RecursiveUnion | T_ForeignScan | T_CustomScan | T_SplitUpdate
| T_Unknown.

Record Plan := mkPlan {
  tag : NodeTag;
  scanrelid : Z;
  plan_qual : list Node;
  indexqualorig : list Node;
  recheckqual : list Node
}.

(** The range table: whether the distribution is forced to be random, the policy
    and the attributes. *)
Record RangeTblEntry := mkRTE { forceDistRandom : bool; rte_policy : option GpPolicy; rte_att : Z -> attribute }.

Definition scan_info (rtable : Z -> RangeTblEntry) (scanrelid : Z) (qualification : list Node) (magic_hash_stash : Z) : outcome DirectDispatchInfo :=
  let rte := rtable scanrelid in
  GetDispatchInfoFromPlanForSingleRelation (forceDistRandom rte) (rte_policy rte) (rte_att rte) scanrelid qualification magic_hash_stash.

Definition DirectDispatchUpdateContentIdsFromPlan (rtable : Z -> RangeTblEntry) (curSlice : DirectDispatchInfo) (plan : Plan) (magic_hash_stash : Z) :
    outcome DirectDispatchInfo :=
  dispatchInfo ←
    match tag plan with
    | T_Result | T_Append | T_MergeAppend | T_LockRows | T_ModifyTable | T_BitmapAnd | T_BitmapOr | T_BitmapHeapScan =>
        Ok InitDirectDispatchCalculationInfo
    | T_SampleScan => Ok DisableTargetedDispatch
    | T_SeqScan => scan_info rtable (scanrelid plan) (plan_qual plan) magic_hash_stash
    | T_IndexScan => scan_info rtable (scanrelid plan) (indexqualorig plan) magic_hash_stash
    | T_IndexOnlyScan => scan_info rtable (scanrelid plan) (recheckqual plan) magic_hash_stash
    | T_BitmapIndexScan => scan_info rtable (scanrelid plan) (indexqualorig plan) magic_hash_stash
    | T_SubqueryScan | T_NamedTuplestoreScan => Ok InitDirectDispatchCalculationInfo
    | T_TidScan | T_FunctionScan | T_TableFuncScan | T_WorkTableScan => Ok DisableTargetedDispatch
    | T_ValuesScan | T_NestLoop | T_MergeJoin | T_HashJoin => Ok InitDirectDispatchCalculationInfo
    | T_Material | T_Sort | T_Agg | T_TupleSplit | T_Unique | T_Gather | T_Hash | T_SetOp | T_Limit | T_PartitionSelector =>
        Ok InitDirectDispatchCalculationInfo
    | T_Motion | T_ShareInputScan => Ok DisableTargetedDispatch
    | T_WindowAgg | T_TableFunctionScan | T_RecursiveUnion => Ok InitDirectDispatchCalculationInfo
    | T_ForeignScan | T_CustomScan => Ok DisableTargetedDispatch
    | T_SplitUpdate => Ok InitDirectDispatchCalculationInfo
    | T_Unknown => Err "unknown plan node"
    end;
  if haveProcessedAnyCalculations dispatchInfo then Ok (MergeDirectDispatchCalculationInfo curSlice dispatchInfo) else Ok curSlice.

(** The nodes of a slice in the order in which their plans are made. *)
Fixpoint slice_info (rtable : Z -> RangeTblEntry) (plans : list Plan) (magic_hash_stash : Z) (curSlice : DirectDispatchInfo) : outcome DirectDispatchInfo :=
  match plans with
  | [] => Ok curSlice
  | plan :: plans =>
      curSlice ← DirectDispatchUpdateContentIdsFromPlan rtable curSlice plan magic_hash_stash;
      slice_info rtable plans magic_hash_stash curSlice
  end.

(** The value of a key: none when it is not a constant, not initialised when the
    target list does not have the key. *)
Fixpoint target_entry (targetlist : list (Z * Node)) (attnum : Z) : option (outcome (Datum * bool)) :=
  match targetlist with
  | [] => Some Ub
  | (resno, expr) :: targetlist =>
      if negb (resno =? attnum) then target_entry targetlist attnum
      else match expr with NConst c => Some (Ok (constvalue c, constisnull c)) | _ => None end
  end.

Fixpoint target_entries (targetlist : list (Z * Node)) (attrs : list Z) : option (list (outcome (Datum * bool))) :=
  match attrs with
  | [] => Some []
  | attnum :: attrs =>
      e ← target_entry targetlist attnum;
      es ← target_entries targetlist attrs;
      Some (e :: es)
  end.

Fixpoint read_entries (es : list (outcome (Datum * bool))) : outcome (list (Datum * bool)) :=
  match es with
  | [] => Ok []
  | e :: es => k ← e; ks ← read_entries es; Ok (k :: ks)
  end.

Definition DirectDispatchUpdateContentIdsForInsert (curSlice : DirectDispatchInfo) (targetlist : list (Z * Node)) (targetPolicy : GpPolicy)
    (hashfuncs : list Z) (magic_hash_stash : Z) : outcome DirectDispatchInfo :=
  match target_entries targetlist (attrs targetPolicy) with
  | None => Ok curSlice
  | Some values =>
      h ← makeCdbHash (numsegments targetPolicy) (zlen (attrs targetPolicy)) hashfuncs;
      keys ← read_entries values;
      hashcode ← fst (key_segment FunctionCallInvoke h keys magic_hash_stash);
      Ok (MergeDirectDispatchCalculationInfo curSlice (mkDDI true [hashcode] true))
  end.
End Dispatch.

(** ** The segments of a slice *)

(** cdbllize.c *)
Definition slice_direct_dispatch (dd : DirectDispatchInfo) : DirectDispatchInfo :=
  match isDirectDispatch dd, contentIds dd with
  | true, [] => mkDDI true [0] (haveProcessedAnyCalculations dd)
  | _, _ => dd
  end.

(** execUtils.c, for the gangs of the primaries. *)
Definition FillSliceGangInfo (numsegments getgpsegmentCount : Z) (dd : DirectDispatchInfo) : list Z :=
  if isDirectDispatch dd then contentIds dd else map (fun i => Z.of_nat i mod getgpsegmentCount) (seq 0 (Z.to_nat numsegments)).

(** ** Lists of segments *)

Lemma append_unique_in l d x : x ∈ list_append_unique_int l d <-> x ∈ l \/ x = d.
Proof.
  unfold list_append_unique_int. case_bool_decide as H; [naive_solver |]. rewrite elem_of_app, list_elem_of_singleton. done.
Qed.

Lemma union_in l2 : forall l1 x, x ∈ list_union_int l1 l2 <-> x ∈ l1 \/ x ∈ l2.
Proof.
  unfold list_union_int. induction l2 as [| d l2 IH]; intros l1 x; cbn [fold_left]; [rewrite elem_of_nil; tauto |].
  rewrite IH, append_unique_in, elem_of_cons. tauto.
Qed.

(** ** Combinations *)

Definition product (parts : list (list Const)) : Z := fold_right (fun values n => zlen values * n) 1 parts.

Definition as_key (c : Const) : Datum * bool := (constvalue c, constisnull c).

Lemma product_nonneg parts : 0 <= product parts.
Proof. induction parts as [| v parts IH]; cbn [product fold_right]; [lia |]. fold (product parts). pose proof (zlen_nonneg v). nia. Qed.

(** Every index gives a combination, and every combination has an index. *)
Lemma combination_total parts : forall index, 0 <= index < product parts ->
  exists cs, combination parts index = Ok (map as_key cs) /\ Forall2 (fun c values => c ∈ values) cs parts.
Proof.
  induction parts as [| values parts IH]; intros index Hi; cbn [combination product fold_right] in *; [by exists [] |]. fold (product parts) in Hi.
  pose proof (zlen_nonneg values). pose proof (product_nonneg parts). assert (Hv : 0 < zlen values) by nia. pose proof (Z.mod_pos_bound index (zlen values) Hv).
  destruct (zget_ok values (index mod zlen values) ltac:(lia)) as (c & E). rewrite E. cbn [mbind outcome_bind].
  destruct (IH (index / zlen values)) as (cs & -> & HF); [split; [apply Z.div_pos; lia | apply Z.div_lt_upper_bound; lia] |].
  cbn [mbind outcome_bind]. exists (c :: cs). split; [done |]. constructor; [| done]. apply zget_inv in E as [_ E]. by eapply list_elem_of_lookup_2.
Qed.

Lemma combination_complete parts cs : Forall2 (fun c values => c ∈ values) cs parts ->
  exists index, 0 <= index < product parts /\ combination parts index = Ok (map as_key cs).
Proof.
  induction 1 as [| c values cs parts Hin HF IH]; [by exists 0 |]. destruct IH as (index & Hi & E).
  apply list_elem_of_lookup_1 in Hin as [j Hj]. pose proof (lookup_lt_Some _ _ _ Hj) as Hlt.
  exists (Z.of_nat j + zlen values * index). cbn [combination product fold_right map]. fold (product parts). split; [unfold zlen in *; nia |].
  assert (Hz : 0 < zlen values) by (unfold zlen; lia).
  rewrite (Z.mul_comm (zlen values)), Z.mod_add, Z.div_add by lia. rewrite Z.mod_small, Z.div_small by (unfold zlen in *; lia). rewrite Z.add_0_l.
  rewrite (zget_nat _ _ _ Hj). cbn [mbind outcome_bind]. by rewrite E.
Qed.

(** ** What a scan needs *)

(** The info sends the slice to the segment, or to all. *)
Definition reaches (dd : DirectDispatchInfo) (s : Z) : Prop := isDirectDispatch dd = true -> s ∈ contentIds dd.

Section Reach.
  Context (FunctionCallInvoke : Z -> Datum -> Z -> outcome (option Z)).
  Context (op_in_opfamily : Z -> Z -> bool) (get_op_btree_interpretation : Z -> list OpBtreeInterpretation) (get_typlenbyval : Z -> Z * bool).
  Context (get_opclass_family : Z -> Z) (get_opfamily_proc : Z -> Z -> Z -> Z -> Z) (AMPROCNUM : Z -> list amproc) (IsBinaryCoercible : Z -> Z -> bool).
  Context (env : Var -> Scalar * bool) (op_sem : Z -> Z -> Scalar -> Scalar -> bool).
  Context (other_value : Node -> Scalar * bool) (other_true : Node -> bool).

  #[local] Notation determine := (DeterminePossibleValueSet op_in_opfamily get_op_btree_interpretation get_typlenbyval).
  #[local] Notation relation_hash := (relation_hash get_opclass_family get_opfamily_proc AMPROCNUM IsBinaryCoercible).
  #[local] Notation possible_parts := (possible_parts op_in_opfamily get_op_btree_interpretation get_typlenbyval get_opclass_family).
  #[local] Notation op_contract := (op_contract op_in_opfamily get_op_btree_interpretation op_sem).
  #[local] Notation raw_agrees := (raw_agrees op_in_opfamily get_op_btree_interpretation get_typlenbyval env).

(** No hash function fails. *)
  Context (Htotal : forall f d stash, exists v, FunctionCallInvoke f d stash = Ok (Some v)).

Definition row_key (rangeTableIndex : Z) (att : Z -> attribute) (attnum : Z) : Datum * bool :=
  let v := env (makeVar rangeTableIndex attnum (att attnum)) in (DScalar (fst v), snd v).

(** The qualification is well typed, true of the row, and its conjunctions agree on the
    bytes of the values, for a variable. *)
Definition qual_contract (qualification : list Node) (variable : Var) (opfamily : Z) (key_eq : Scalar -> Scalar -> Prop) : Prop :=
  op_contract opfamily key_eq /\ raw_agrees variable opfamily key_eq (clause_depth (NList qualification)) (NList qualification).

Definition qual_true (qualification : list Node) : Prop :=
  typed_clause get_op_btree_interpretation get_typlenbyval (clause_depth (NList qualification)) (NList qualification) = true /\
  is_true env op_sem other_value other_true (NList qualification) = true.

Lemma determine_covers qualification variable opfamily key_eq :
  qual_contract qualification variable opfamily key_eq -> qual_true qualification ->
  exists p, determine (qual_node qualification) variable opfamily = Ok p /\ pvs_ok p /\
    (isAnyValuePossible p = true \/ exists c, c ∈ GetPossibleValuesAsArray p /\ key_match key_eq (env variable) c).
Proof.
  intros [Hops Hraw] [Ht Htrue]. destruct qualification as [| q qs]; [exists InitPossibleValueSetData; split; [done |]; split; by left |].
  unfold DeterminePossibleValueSet, qual_node.
  destruct (determine_ok op_in_opfamily get_op_btree_interpretation get_typlenbyval env op_sem other_value other_true variable opfamily key_eq Hops
    (clause_depth (NList (q :: qs))) (NList (q :: qs)) (Nat.le_refl _) Ht) as (p & E & [Hok _] & Hcov).
  exists p. split; [done |]. split; [done |]. by apply Hcov.
Qed.

(** A key: its variable, and that equal values of it have equal hashes. *)
Definition key_contract (rangeTableIndex : Z) (att : Z -> attribute) (qualification : list Node) (f : Z) (k : Z * Z) : Prop :=
  exists key_eq, qual_contract qualification (makeVar rangeTableIndex (fst k) (att (fst k))) (get_opclass_family (snd k)) key_eq /\
    forall x y stash, key_eq x y -> FunctionCallInvoke f (DScalar x) stash = FunctionCallInvoke f (DScalar y) stash.

Lemma match_same_hash key_eq v c f :
  (forall x y stash, key_eq x y -> FunctionCallInvoke f (DScalar x) stash = FunctionCallInvoke f (DScalar y) stash) ->
  key_match key_eq v c -> same_hash FunctionCallInvoke f (DScalar (fst v), snd v) (as_key c).
Proof.
  intros Hh [Hn Hk]. split; [done |]. cbn [fst snd as_key]. intros Hnn stash. destruct (Hk Hnn) as (x & -> & Hx). auto.
Qed.

Lemma product_pos cs parts : Forall2 (fun (c : Const) values => c ∈ values) cs parts -> 1 <= product parts.
Proof.
  induction 1 as [| c values cs parts Hin HF IH]; cbn [product fold_right]; [lia |]. fold (product parts).
  assert (1 <= zlen values) by (destruct values; [by apply not_elem_of_nil in Hin | rewrite zlen_cons; pose proof (zlen_nonneg values); lia]). nia.
Qed.

Lemma parts_cover rangeTableIndex att qualification : forall keys fs total,
  Forall2 (key_contract rangeTableIndex att qualification) fs keys -> qual_true qualification ->
  exists parts t, possible_parts keys att rangeTableIndex (qual_node qualification) total = Ok (parts, t) /\
    (t = -1 \/
     (exists cs, Forall2 (fun c values => c ∈ values) cs parts /\ length cs = length keys /\
        Forall2 (fun f kk => same_hash FunctionCallInvoke f (fst kk) (snd kk)) fs (zip (map (row_key rangeTableIndex att) (map fst keys)) (map as_key cs))) /\
     (0 < total -> total * product parts < 2 ^ 63 -> t = total * product parts)).
Proof.
  intros keys fs total HF Hq. revert total. induction HF as [| f [attnum opclass] fs keys (key_eq & Hc & Hh) HF IH]; intros total; cbn [DirectDispatch.possible_parts].
  { exists [], total. split; [done |]. right. split; [exists []; by split_and! | cbn; lia]. }
  cbn [fst snd] in Hc, Hh. destruct (determine_covers qualification _ _ key_eq Hc Hq) as (p & -> & Hok & Hcov). cbn [mbind outcome_bind].
  destruct (isAnyValuePossible p) eqn:Ea; [by exists [], (-1); split; [| left] |]. destruct Hcov as [? | (c & Hin & Hm)]; [done |].
  set (values := GetPossibleValuesAsArray p) in *. destruct (IH (s64 (total * zlen values))) as (parts & t & -> & Hcase). cbn [mbind outcome_bind].
  exists (values :: parts), t. split; [done |]. destruct Hcase as [-> | [(cs & Hcs & Hlen & Hsame) Ht]]; [by left | right]. split.
  - exists (c :: cs). split_and!; [by constructor | cbn [length]; lia |]. cbn [map zip zip_with]. constructor; [| done]. by eapply match_same_hash.
  - intros Hpos. cbn [product fold_right]. fold (product parts). intros Hb. pose proof (product_pos _ _ Hcs).
    assert (Hv : 1 <= zlen values) by (destruct values; [by apply not_elem_of_nil in Hin | rewrite zlen_cons; pose proof (zlen_nonneg values); lia]).
    assert (Hs : s64 (total * zlen values) = total * zlen values) by (apply s64_small; nia). rewrite Hs in Ht. rewrite Ht by nia. lia.
Qed.

(** Hashing constants does not fail and leaves [magic_hash_stash] as it was. *)
Lemma key_segment_total h fs keys :
  cdbhash_ok h -> hashfuncs h = fs -> length fs = length keys -> keys <> [] ->
  exists s, key_segment FunctionCallInvoke h keys FNV1_32_INIT = (Ok s, FNV1_32_INIT) /\ 0 <= s < numsegs h.
Proof.
  intros Hok Hf Hlen Hne. assert (HF : Forall2 (key_ok FunctionCallInvoke) fs keys).
  { apply Forall2_same_length_lookup_2; [done |]. intros i f k _ _ _ stash. apply Htotal. }
  destruct (key_segment_ok FunctionCallInvoke (is_legacy_hash h) fs keys FNV1_32_INIT HF Hne) as (v & Hv & Hk).
  assert (Hokv : cdbhash_ok (set_hash h v)) by (destruct Hok; by split). destruct (reduce_ok _ Hokv) as (s & Es & Hs & _).
  exists s. split; [| done]. rewrite (Hk h) by done. rewrite Es. f_equal. unfold stash_after. by destruct (is_legacy_hash h).
Qed.

Lemma combination_segments_ok parts h fs :
  cdbhash_ok h -> hashfuncs h = fs -> length fs = length parts -> parts <> [] ->
  forall n index ids, 0 <= index -> index + Z.of_nat n <= product parts ->
  exists ids', combination_segments FunctionCallInvoke n index parts h FNV1_32_INIT ids = Ok ids' /\ (forall x, x ∈ ids -> x ∈ ids') /\
    forall i keys s, index <= i < index + Z.of_nat n -> combination parts i = Ok keys ->
      fst (key_segment FunctionCallInvoke h keys FNV1_32_INIT) = Ok s -> s ∈ ids'.
Proof.
  intros Hok Hf Hlen Hne. induction n as [| n IH]; intros index ids Hi Hn; cbn [combination_segments].
  { exists ids. split_and!; try done. intros. lia. }
  destruct (combination_total parts index ltac:(lia)) as (cs & E & HF). rewrite E. cbn [mbind outcome_bind].
  pose proof (Forall2_length _ _ _ HF) as Hcs. destruct (key_segment_total h fs (map as_key cs) Hok Hf) as (s & Es & _).
  { rewrite length_map. lia. }
  { destruct cs, parts; done. }
  rewrite Es. cbn [mbind outcome_bind]. destruct (IH (index + 1) (list_append_unique_int ids s) ltac:(lia) ltac:(lia)) as (ids' & -> & Hsub & Hall).
  exists ids'. split; [done |]. split; [intros x Hx; apply Hsub, append_unique_in; by left |]. intros i keys s' Hr Ek Es'.
  destruct (Z.eq_dec i index) as [-> | Hne']; [| apply (Hall i keys); [lia | done | done]]. rewrite E in Ek. injection Ek as <-. rewrite Es in Es'. injection Es' as <-.
  apply Hsub, append_unique_in. by right.
Qed.

Lemma segment_ids_ok values : forall ids,
  (forall c, c ∈ values -> exists v, constvalue c = DScalar (ByVal v)) ->
  exists ids', segment_ids values ids = Ok ids' /\ (forall x, x ∈ ids -> x ∈ ids') /\
    forall c v, c ∈ values -> constvalue c = DScalar (ByVal v) -> s32 v ∈ ids'.
Proof.
  induction values as [| c values IH]; intros ids Hv; cbn [segment_ids].
  { exists ids. split_and!; try done. intros c v Hin. by apply not_elem_of_nil in Hin. }
  destruct (Hv c ltac:(by left)) as [v E]. rewrite E. cbn [datum_word mbind outcome_bind].
  destruct (IH (list_append_unique_int ids (DatumGetInt32 v))) as (ids' & -> & Hsub & Hall); [intros; apply Hv; by right |].
  exists ids'. split; [done |]. split; [intros x Hx; apply Hsub, append_unique_in; by left |]. intros c' v' [-> | Hin]%elem_of_cons E'; [| by apply (Hall c')].
  rewrite E in E'. injection E' as <-. apply Hsub, append_unique_in. by right.
Qed.

Lemma relation_hash_ok policy att h : 0 < numsegments policy < 2 ^ 31 -> relation_hash policy att = Ok h -> cdbhash_ok h /\ numsegs h = numsegments policy.
Proof.
  intros Hn. unfold DirectDispatch.relation_hash, makeCdbHashForRelation. destruct (relation_hashfuncs _ _ _ _ _) as [fs | |]; [| done | done]. cbn [mbind outcome_bind].
  unfold makeCdbHash. destruct (mem_read _ _ _) as [funcs | |]; [| done | done]. cbn [mbind outcome_bind]. intros [= <-]. by split.
Qed.

(** What is known of a row on segment [s] that a scan has to find: the
    qualification is true of it, also of its gp_segment_id; and if the relation is
    distributed by keys, COPY puts the row there. *)
Record scan_contract (policy : GpPolicy) (att : Z -> attribute) (rangeTableIndex : Z) (qualification : list Node) (s : Z) : Prop := {
  sc_segs : 0 < numsegments policy < 2 ^ 31;
  sc_true : qual_true qualification;
  sc_segid : env (segment_id_var rangeTableIndex) = (ByVal (u64 s), false) /\ 0 <= s < numsegments policy;
  sc_segid_ops : exists seg_eq, qual_contract qualification (segment_id_var rangeTableIndex) GP_SEGMENTID_OPFAMILY seg_eq /\
    forall y, seg_eq (ByVal (u64 s)) y -> exists v, y = ByVal v /\ s32 v = s;
  sc_segid_types : forall opno i, op_in_opfamily opno GP_SEGMENTID_OPFAMILY = true -> equality_of get_op_btree_interpretation opno = Some i ->
    is_int_type (oplefttype i) = true /\ is_int_type (oprighttype i) = true;
  sc_keys : length (attrs policy) = length (opclasses policy);
  sc_hash : GpPolicyIsHashPartitioned (Some policy) = true ->
    exists h, relation_hash policy att = Ok h /\
      Forall2 (key_contract rangeTableIndex att qualification) (hashfuncs h) (zip (attrs policy) (opclasses policy)) /\
      (exists random, fst (GetTargetSeg FunctionCallInvoke h (attrs policy) (row_key rangeTableIndex att) random FNV1_32_INIT) = Ok s) /\
      forall parts t, possible_parts (zip (attrs policy) (opclasses policy)) att rangeTableIndex (qual_node qualification) 1 = Ok (parts, t) ->
        product parts < 2 ^ 63
}.

Lemma hash_scan_reaches policy att rangeTableIndex qualification s h random :
  0 < numsegments policy < 2 ^ 31 -> qual_true qualification -> length (attrs policy) = length (opclasses policy) -> attrs policy <> [] ->
  relation_hash policy att = Ok h ->
  Forall2 (key_contract rangeTableIndex att qualification) (hashfuncs h) (zip (attrs policy) (opclasses policy)) ->
  fst (GetTargetSeg FunctionCallInvoke h (attrs policy) (row_key rangeTableIndex att) random FNV1_32_INIT) = Ok s ->
  (forall parts t, possible_parts (zip (attrs policy) (opclasses policy)) att rangeTableIndex (qual_node qualification) 1 = Ok (parts, t) -> product parts < 2 ^ 63) ->
  exists info,
    ('(parts, totalCombinations) ← possible_parts (zip (attrs policy) (opclasses policy)) att rangeTableIndex (qual_node qualification) 1;
     if totalCombinations =? 0 then Ok (mkDDI true [] true)
     else if (0 <? totalCombinations) && (totalCombinations <? s32 (numsegments policy * 3)) then
       h ← relation_hash policy att;
       ids ← combination_segments FunctionCallInvoke (Z.to_nat totalCombinations) 0 parts h FNV1_32_INIT [];
       Ok (mkDDI true ids true)
     else Ok (mkDDI false [] true)) = Ok info /\ haveProcessedAnyCalculations info = true /\ reaches info s.
Proof.
  intros Hn Hq Hlen Hne Eh HF Hseg Hprod. destruct (relation_hash_ok policy att h Hn Eh) as [Hok _].
  destruct (parts_cover rangeTableIndex att qualification _ _ 1 HF Hq) as (parts & t & Ep & Hcase). rewrite Ep. cbn [mbind outcome_bind].
  destruct Hcase as [-> | [(cs & Hcs & Hlc & Hsame) Ht]]; [by eexists |].
  specialize (Hprod parts t Ep). rewrite Z.mul_1_l in Ht. rewrite (Ht ltac:(lia) Hprod). pose proof (product_pos _ _ Hcs) as Hpos.
  replace (product parts =? 0) with false by lia. destruct (_ && _); [| by eexists]. rewrite Eh. cbn [mbind outcome_bind].
  pose proof (Forall2_length _ _ _ HF) as Hlf. pose proof (Forall2_length _ _ _ Hcs) as Hlp. rewrite length_zip_with_l_eq in Hlf, Hlc by done.
  destruct (combination_segments_ok parts h (hashfuncs h) Hok eq_refl ltac:(lia)) with (n := Z.to_nat (product parts)) (index := 0) (ids := @nil Z) as (ids & -> & _ & Hall);
    [intros ->; destruct (attrs policy); [done | cbn [length] in *; lia] | lia | lia |].
  cbn [mbind outcome_bind]. eexists. split; [done |]. split; [done |]. intros _. destruct (combination_complete parts cs Hcs) as (index & Hi & Ec).
  apply (Hall index (map as_key cs)); [lia | done |]. rewrite <- Hseg. unfold GetTargetSeg, slot_keys.
  assert (Hz : (0 <? zlen (attrs policy)) = true) by (destruct (attrs policy); [done | unfold zlen; cbn [length]; lia]). rewrite Hz.
  assert (Efst : map fst (zip (attrs policy) (opclasses policy)) = attrs policy) by (apply fst_zip; lia). rewrite Efst in Hsame. unfold key_segment. symmetry. f_equal.
  assert (Ehk : hash_keys FunctionCallInvoke (zlen (@nil Z)) (map (row_key rangeTableIndex att) (attrs policy)) (cdbhashinit h) FNV1_32_INIT =
                hash_keys FunctionCallInvoke (zlen (@nil Z)) (map as_key cs) (cdbhashinit h) FNV1_32_INIT).
  { apply (hash_keys_cong FunctionCallInvoke _ _ [] (hashfuncs h)); [by destruct h | done | rewrite !length_map; lia]. }
  change (zlen (@nil Z)) with 0 in Ehk. by rewrite Ehk.
Qed.

#[local] Notation scan_dispatch := (GetDispatchInfoFromPlanForSingleRelation FunctionCallInvoke op_in_opfamily get_op_btree_interpretation get_typlenbyval
  get_opclass_family get_opfamily_proc AMPROCNUM IsBinaryCoercible).

(** The segments that a condition on gp_segment_id names. *)
Lemma segid_scan_reaches rangeTableIndex qualification s n seg_eq :
  qual_true qualification -> env (segment_id_var rangeTableIndex) = (ByVal (u64 s), false) ->
  qual_contract qualification (segment_id_var rangeTableIndex) GP_SEGMENTID_OPFAMILY seg_eq ->
  (forall y, seg_eq (ByVal (u64 s)) y -> exists v, y = ByVal v /\ s32 v = s) ->
  (forall opno i, op_in_opfamily opno GP_SEGMENTID_OPFAMILY = true -> equality_of get_op_btree_interpretation opno = Some i ->
    is_int_type (oplefttype i) = true /\ is_int_type (oprighttype i) = true) ->
  exists by_segment,
    (pvs_segids ← determine (qual_node qualification) (segment_id_var rangeTableIndex) GP_SEGMENTID_OPFAMILY;
     let seg_ids := GetPossibleValuesAsArray pvs_segids in
     if negb (isAnyValuePossible pvs_segids) && (0 <? zlen seg_ids) && (zlen seg_ids <? n) then
       ids ← segment_ids seg_ids [];
       Ok (Some ids)
     else Ok None) = Ok by_segment /\ match by_segment with Some ids => s ∈ ids | None => True end.
Proof.
  intros [Ht Htrue] Henv [Hops Hraw] Hs Hint. destruct qualification as [| q qs]; [by exists None |].
  destruct (determine_ok op_in_opfamily get_op_btree_interpretation get_typlenbyval env op_sem other_value other_true (segment_id_var rangeTableIndex) GP_SEGMENTID_OPFAMILY seg_eq Hops
    (clause_depth (NList (q :: qs))) (NList (q :: qs)) (Nat.le_refl _) Ht) as (p & E & [Hok Hin] & Hcov). specialize (Hcov Hraw Htrue).
  unfold DeterminePossibleValueSet, qual_node. rewrite E. cbn [mbind outcome_bind]. cbv zeta.
  destruct (isAnyValuePossible p) eqn:Ea; cbn [negb andb]; [by exists None |]. destruct Hin as [? | Hin]; [done |]. destruct Hcov as [? | (c & Hc & Hm)]; [congruence |].
  destruct (_ && _); [| by exists None]. destruct (segment_ids_ok (GetPossibleValuesAsArray p) []) as (ids & -> & _ & Hall).
  { intros c' Hc'. eapply (clause_consts_words op_in_opfamily get_op_btree_interpretation get_typlenbyval _ _ Hint); [exact Ht | by apply Hin]. }
  cbn [mbind outcome_bind]. eexists. split; [done |]. destruct Hm as [_ Hm]. rewrite Henv in Hm. destruct (Hm eq_refl) as (x & Ex & Hx).
  destruct (Hs x Hx) as (v & -> & <-). by eapply Hall.
Qed.

Lemma scan_reaches force policy att rangeTableIndex qualification s :
  scan_contract policy att rangeTableIndex qualification s ->
  exists info, scan_dispatch force (Some policy) att rangeTableIndex qualification FNV1_32_INIT = Ok info /\
    haveProcessedAnyCalculations info = true /\ reaches info s.
Proof.
  intros [Hn Hq [Henv Hs] (seg_eq & Hsc & Hseg) Hint Hlen Hhash]. unfold GetDispatchInfoFromPlanForSingleRelation.
  destruct (force || _); [by eexists |]. cbv zeta.
  assert (Hby : exists by_segment,
    (if GpPolicyIsPartitioned (Some policy) then
       pvs_segids ← determine (qual_node qualification) (segment_id_var rangeTableIndex) GP_SEGMENTID_OPFAMILY;
       let seg_ids := GetPossibleValuesAsArray pvs_segids in
       if negb (isAnyValuePossible pvs_segids) && (0 <? zlen seg_ids) && (zlen seg_ids <? numsegments policy) then
         ids ← segment_ids seg_ids [];
         Ok (Some ids)
       else Ok None
     else Ok None) = Ok by_segment /\ match by_segment with Some ids => s ∈ ids | None => True end).
  { destruct (GpPolicyIsPartitioned _); [by eapply segid_scan_reaches | by exists None]. }
  destruct Hby as (by_segment & Eb & Hb). cbv zeta in Eb. rewrite Eb. cbn [mbind outcome_bind]. destruct by_segment as [ids |]; [by eexists; split; [| split; [| intros _]] |].
  destruct (GpPolicyIsHashPartitioned (Some policy)) eqn:Ehp; [| by eexists]. destruct (Hhash eq_refl) as (h & Eh & HF & (random & Hr) & Hprod).
  eapply hash_scan_reaches; try done. intros Hnil. cbn in Ehp. rewrite Hnil in Ehp. by rewrite andb_false_r in Ehp.
Qed.
End Reach.

(** ** Slices *)

Lemma merge_reaches to from s : reaches from s -> reaches (MergeDirectDispatchCalculationInfo to from) s.
Proof.
  unfold reaches, MergeDirectDispatchCalculationInfo. intros H. destruct (isDirectDispatch from) eqn:Ed; cbn [negb isDirectDispatch contentIds]; [| done].
  destruct (haveProcessedAnyCalculations to); cbn [negb]; [| by intros _; apply H]. destruct (isDirectDispatch to) eqn:Et; cbn [negb]; [| congruence].
  specialize (H eq_refl). intros _. destruct (contentIds from) as [| x l]; [by apply not_elem_of_nil in H |]. destruct (contentIds to) as [| y l']; [done |].
  apply union_in. by right.
Qed.

Lemma merge_keeps to from s : haveProcessedAnyCalculations to = true -> reaches to s -> reaches (MergeDirectDispatchCalculationInfo to from) s.
Proof.
  unfold reaches, MergeDirectDispatchCalculationInfo. intros Hp H. destruct (isDirectDispatch from) eqn:Ed; cbn [negb isDirectDispatch contentIds]; [| done].
  rewrite Hp. cbn [negb]. destruct (isDirectDispatch to) eqn:Et; cbn [negb]; [| congruence]. specialize (H eq_refl). intros _.
  destruct (contentIds from) as [| x l]; [done |]. destruct (contentIds to) as [| y l']; [by apply not_elem_of_nil in H |]. apply union_in. by left.
Qed.

Lemma fill_reaches dd s numsegments segcount :
  reaches dd s -> 0 <= s < numsegments -> numsegments <= segcount -> s ∈ FillSliceGangInfo numsegments segcount (slice_direct_dispatch dd).
Proof.
  intros H Hs Hc. unfold FillSliceGangInfo, slice_direct_dispatch, reaches in *. destruct (isDirectDispatch dd) eqn:Ed.
  - specialize (H eq_refl). destruct (contentIds dd) as [| x l] eqn:Ec; [by apply not_elem_of_nil in H |]. by rewrite Ed, Ec.
  - rewrite Ed. apply list_elem_of_In, in_map_iff. exists (Z.to_nat s). split; [rewrite Z.mod_small; lia |]. apply in_seq. lia.
Qed.

(** The qualification that a scan of a relation is dispatched by. *)
Definition scan_qual (plan : Plan) : option (list Node) :=
  match tag plan with
  | T_SeqScan => Some (plan_qual plan)
  | T_IndexScan | T_BitmapIndexScan => Some (indexqualorig plan)
  | T_IndexOnlyScan => Some (recheckqual plan)
  | _ => None
  end.

Section Slice.
  Context (FunctionCallInvoke : Z -> Datum -> Z -> outcome (option Z)).
  Context (op_in_opfamily : Z -> Z -> bool) (get_op_btree_interpretation : Z -> list OpBtreeInterpretation) (get_typlenbyval : Z -> Z * bool).
  Context (get_opclass_family : Z -> Z) (get_opfamily_proc : Z -> Z -> Z -> Z -> Z) (AMPROCNUM : Z -> list amproc) (IsBinaryCoercible : Z -> Z -> bool).
  Context (env : Var -> Scalar * bool) (op_sem : Z -> Z -> Scalar -> Scalar -> bool).
  Context (other_value : Node -> Scalar * bool) (other_true : Node -> bool) (rtable : Z -> RangeTblEntry).

  #[local] Notation slice_info := (slice_info FunctionCallInvoke op_in_opfamily get_op_btree_interpretation get_typlenbyval
    get_opclass_family get_opfamily_proc AMPROCNUM IsBinaryCoercible rtable).
  #[local] Notation scan_info := (scan_info FunctionCallInvoke op_in_opfamily get_op_btree_interpretation get_typlenbyval
    get_opclass_family get_opfamily_proc AMPROCNUM IsBinaryCoercible rtable).
  #[local] Notation update := (DirectDispatchUpdateContentIdsFromPlan FunctionCallInvoke op_in_opfamily get_op_btree_interpretation get_typlenbyval
    get_opclass_family get_opfamily_proc AMPROCNUM IsBinaryCoercible rtable).

(** What a node of the slice has to satisfy, for rows on the segments [seg]. *)
Definition node_contract (seg : Z -> Z) (n : Z) (plan : Plan) : Prop :=
  tag plan <> T_Unknown /\
  forall qual, scan_qual plan = Some qual ->
    exists policy, rte_policy (rtable (scanrelid plan)) = Some policy /\ numsegments policy <= n /\
      scan_contract FunctionCallInvoke op_in_opfamily get_op_btree_interpretation get_typlenbyval get_opclass_family get_opfamily_proc AMPROCNUM IsBinaryCoercible
        env op_sem other_value other_true policy (rte_att (rtable (scanrelid plan))) (scanrelid plan) qual (seg (scanrelid plan)).

(** Nothing is known yet, or the segment is reached. *)
Definition keeps (dd dd' : DirectDispatchInfo) : Prop :=
  haveProcessedAnyCalculations dd = true -> haveProcessedAnyCalculations dd' = true /\ forall s, reaches dd s -> reaches dd' s.

Lemma update_spec dd info :
  keeps dd (if haveProcessedAnyCalculations info then MergeDirectDispatchCalculationInfo dd info else dd).
Proof. intros H. destruct (haveProcessedAnyCalculations info); [| done]. split; [done |]. intros s. by apply merge_keeps. Qed.

Lemma node_reaches seg n dd plan :
  (forall f d stash, exists v, FunctionCallInvoke f d stash = Ok (Some v)) -> node_contract seg n plan ->
  exists dd', update dd plan FNV1_32_INIT = Ok dd' /\ keeps dd dd' /\
    (scan_qual plan <> None -> haveProcessedAnyCalculations dd' = true /\ reaches dd' (seg (scanrelid plan)) /\ 0 <= seg (scanrelid plan) < n).
Proof.
  intros Htot [Hk Hscan]. unfold DirectDispatchUpdateContentIdsFromPlan.
  assert (Hsc : forall qual, scan_qual plan = Some qual -> exists info, scan_info (scanrelid plan) qual FNV1_32_INIT = Ok info /\
    haveProcessedAnyCalculations info = true /\ reaches info (seg (scanrelid plan)) /\ 0 <= seg (scanrelid plan) < n).
  { intros qual Eq. destruct (Hscan qual Eq) as (policy & Ep & Hle & Hc). unfold DirectDispatch.scan_info. cbv zeta. rewrite Ep.
    destruct (scan_reaches _ _ _ _ _ _ _ _ _ _ _ _ Htot (forceDistRandom (rtable (scanrelid plan))) _ _ _ _ _ Hc) as (info & -> & Hp & Hr).
    exists info. split_and!; try done; destruct Hc as [_ _ [_ ?] _ _ _ _]; lia. }
  assert (Hother : forall info, scan_qual plan = None ->
    exists dd', (if haveProcessedAnyCalculations info then Ok (MergeDirectDispatchCalculationInfo dd info) else Ok dd) = Ok dd' /\ keeps dd dd' /\
      (scan_qual plan <> None -> haveProcessedAnyCalculations dd' = true /\ reaches dd' (seg (scanrelid plan)) /\ 0 <= seg (scanrelid plan) < n)).
  { intros info En. pose proof (update_spec dd info) as Hu. destruct (haveProcessedAnyCalculations info); eexists; (split; [done |]); split; try done. }
  assert (Hdo : forall qual, scan_qual plan = Some qual -> exists dd',
    (dispatchInfo ← scan_info (scanrelid plan) qual FNV1_32_INIT;
     if haveProcessedAnyCalculations dispatchInfo then Ok (MergeDirectDispatchCalculationInfo dd dispatchInfo) else Ok dd) = Ok dd' /\ keeps dd dd' /\
      (scan_qual plan <> None -> haveProcessedAnyCalculations dd' = true /\ reaches dd' (seg (scanrelid plan)) /\ 0 <= seg (scanrelid plan) < n)).
  { intros qual Eq. destruct (Hsc qual Eq) as (info & -> & Hp & Hr & Hb). cbn [mbind outcome_bind]. pose proof (update_spec dd info) as Hu. rewrite Hp in Hu |- *.
    eexists. split; [done |]. split; [done |]. intros _. split; [done |]. split; [by apply merge_reaches | done]. }
  unfold scan_qual in *. destruct (tag plan); try done; (by apply Hdo) || (by apply Hother).
Qed.

(** C6: A slice is dispatched to every segment that has a row it must find.  For
    the nodes of a slice, and rows of the relations they scan that the
    qualifications are true of: the segments are computed without error, and the
    segments of the rows, which COPY chose by hashing their distribution keys or
    which gp_segment_id names, are among those that the slice is dispatched to.
    This relies on hash functions that respect the operators of their family, on
    the number of combinations of values not overflowing, and on constants of one
    conjunction that are equal as values being equal in their bytes. *)
Theorem slice_reaches_rows seg n segcount plans :
  (forall f d stash, exists v, FunctionCallInvoke f d stash = Ok (Some v)) -> n <= segcount ->
  Forall (node_contract seg n) plans ->
  exists dd, slice_info plans FNV1_32_INIT InitDirectDispatchCalculationInfo = Ok dd /\
    forall plan, plan ∈ plans -> scan_qual plan <> None ->
      seg (scanrelid plan) ∈ FillSliceGangInfo n segcount (slice_direct_dispatch dd).
Proof.
  intros Htot Hseg HF.
  assert (Hgen : forall dd, exists dd', slice_info plans FNV1_32_INIT dd = Ok dd' /\ keeps dd dd' /\
    forall plan, plan ∈ plans -> scan_qual plan <> None -> reaches dd' (seg (scanrelid plan)) /\ 0 <= seg (scanrelid plan) < n).
  { induction HF as [| plan plans Hp HF IH]; intros dd; cbn [DirectDispatch.slice_info].
    - exists dd. split_and!; try done. intros plan Hin. by apply not_elem_of_nil in Hin.
    - destruct (node_reaches seg n dd plan Htot Hp) as (dd1 & -> & Hk1 & Hr1). cbn [mbind outcome_bind]. destruct (IH dd1) as (dd' & -> & Hk2 & Hr2).
      exists dd'. split; [done |]. split.
      + intros Hd. destruct (Hk1 Hd) as [Hd1 Hs1]. destruct (Hk2 Hd1) as [Hd2 Hs2]. split; auto.
      + intros p [-> | Hin]%elem_of_cons Hq; [| by apply Hr2]. destruct (Hr1 Hq) as (Hd1 & Hr & Hb). split; [by apply (Hk2 Hd1) | done]. }
  destruct (Hgen InitDirectDispatchCalculationInfo) as (dd & E & _ & Hr). exists dd. split; [done |].
  intros plan Hin Hq. destruct (Hr plan Hin Hq) as [Hreach Hb]. by apply fill_reaches.
Qed.
End Slice.

(** ** Examples *)

Module Example.

(** The integer operators: 96 compares two integers, 15 one with a big integer;
    98 compares texts. *)
Definition op_in_opfamily (opno opfamily : Z) : bool :=
  (opfamily =? 1977) && ((opno =? 96) || (opno =? 15)) || (opfamily =? 1995) && (opno =? 98).

Definition get_op_btree_interpretation (opno : Z) : list OpBtreeInterpretation :=
  if opno =? 96 then [mkOpBtree 3 INT4OID INT4OID] else if opno =? 15 then [mkOpBtree 3 INT4OID INT8OID]
  else if opno =? 98 then [mkOpBtree 3 25 25] else [].

Definition get_typlenbyval (t : Z) : Z * bool := if t =? INT4OID then (4, true) else if t =? INT8OID then (8, true) else (-1, false).

(** Under the collation 7 texts are compared without their case. *)
Definition lower (b : Z) : Z := if (65 <=? b) && (b <=? 90) then b + 32 else b.

Definition op_sem (opno coll : Z) (x y : Scalar) : bool :=
  match x, y with
  | ByVal a, ByVal b => if opno =? 15 then (a =? b) && (u64 (s32 a) =? a) else if opno =? 96 then a =? b else false
  | ByRef a, ByRef b => (opno =? 98) && (if coll =? 7 then bool_decide (map lower a = map lower b) else bool_decide (a = b))
  | _, _ => false
  end.

Definition get_opclass_family (opclass : Z) : Z := if opclass =? 1978 then 1977 else 1995.
Definition get_opfamily_proc (opfamily lefttype righttype procnum : Z) : Z := if opfamily =? 1977 then 450 else 400.

Definition invoke (f : Z) (d : Datum) (stash : Z) : outcome (option Z) :=
  match d with
  | DScalar (ByVal v) => Ok (Some (u32 (v * 2654435761)))
  | DScalar (ByRef bytes) => Ok (Some (fnv1 bytes FNV1_32_INIT))
  | DArray _ _ => Ok (Some 0)
  end.

Definition policy : GpPolicy := mkPolicy POLICYTYPE_PARTITIONED 3 [1] [1978].
Definition att (attnum : Z) : attribute := mkAttribute INT4OID (-1) 0.
Definition column : Var := makeVar 1 1 (att 1).

Definition int4 (v : Z) : Node := NConst (mkConst INT4OID (-1) 0 4 (IntGetDatum v) false true).
Definition int8 (v : Z) : Node := NConst (mkConst INT8OID (-1) 0 8 (IntGetDatum v) false true).

(** [x = ANY ('{5,7}')] *)
Definition in_list : Node :=
  NScalarArrayOpExpr 96 0 true [NVar column; NConst (mkConst 1007 (-1) 0 (-1) (DArray INT4OID [(ByVal 5, false); (ByVal 7, false)]) false false)].

(** A row with 5 in the column, on segment [s]. *)
Definition env (s : Z) (v : Var) : Scalar * bool := if varattno v =? GpSegmentIdAttributeNumber then (ByVal (u64 s), false) else (ByVal 5, false).

Definition other_value (n : Node) : Scalar * bool := (ByVal 0, true).
Definition other_true (n : Node) : bool := false.

(** A column of texts, and a row with 'abc' in it. *)
Definition text_policy : GpPolicy := mkPolicy POLICYTYPE_PARTITIONED 3 [1] [1994].
Definition text_att (attnum : Z) : attribute := mkAttribute 25 (-1) 100.
Definition text_column : Var := makeVar 1 1 (text_att 1).
Definition text (bytes : list Z) : Node := NConst (mkConst 25 (-1) 7 (-1) (DScalar (ByRef bytes)) false false).
Definition text_env (v : Var) : Scalar * bool := if varattno v =? GpSegmentIdAttributeNumber then (ByVal 2, false) else (ByRef [97; 98; 99], false).

(** The segment of a row, and those that a scan of the relation is dispatched to. *)
Definition row_segment (policy : GpPolicy) (att : Z -> attribute) (row : Scalar) : outcome Z :=
  h ← relation_hash get_opclass_family get_opfamily_proc (fun _ => []) (fun _ _ => false) policy att;
  fst (GetTargetSeg invoke h (attrs policy) (fun _ => (DScalar row, false)) 0 FNV1_32_INIT).

Definition scan_segments (policy : GpPolicy) (att : Z -> attribute) (qualification : list Node) : outcome (list Z) :=
  dd ← GetDispatchInfoFromPlanForSingleRelation invoke op_in_opfamily get_op_btree_interpretation get_typlenbyval get_opclass_family get_opfamily_proc
         (fun _ => []) (fun _ _ => false) false (Some policy) att 1 qualification FNV1_32_INIT;
  Ok (FillSliceGangInfo 3 3 (slice_direct_dispatch dd)).

(** Sixteen integer keys, and for each a list of sixteen values. *)
Definition wide_keys : list Z := map Z.of_nat (seq 1 16).
Definition wide_policy : GpPolicy := mkPolicy POLICYTYPE_PARTITIONED 3 wide_keys (replicate 16 1978).
Definition wide_list (attnum : Z) : Node :=
  NScalarArrayOpExpr 96 0 true [NVar (makeVar 1 attnum (att attnum));
    NConst (mkConst 1007 (-1) 0 (-1) (DArray INT4OID (map (fun i => (ByVal (Z.of_nat i), false)) (seq 1 16))) false false)].

Definition wide_env (v : Var) : Scalar * bool := (ByVal 2, false).

Lemma int_contract : op_contract op_in_opfamily get_op_btree_interpretation op_sem 1977 eq.
Proof.
  split; [apply _ | |].
  - intros opno coll i x y Hf Hi Ht Hop. unfold op_in_opfamily in Hf. cbn in Hf. rewrite orb_false_r in Hf. apply orb_true_iff in Hf as [->%Z.eqb_eq | ->%Z.eqb_eq].
    + destruct x as [a |], y as [b |]; try done. cbn in Hop. apply Z.eqb_eq in Hop. by subst.
    + cbn in Hi. injection Hi as <-. done.
  - intros opno coll i x y Hf Hi Ht Hop. unfold op_in_opfamily in Hf. cbn in Hf. rewrite orb_false_r in Hf. apply orb_true_iff in Hf as [->%Z.eqb_eq | ->%Z.eqb_eq].
    + cbn in Hi. injection Hi as <-. done.
    + cbn in Hi. injection Hi as <-. destruct x as [a |], y as [b |]; try done. cbn in Hop. apply andb_true_iff in Hop as [->%Z.eqb_eq Hb%Z.eqb_eq].
      exists (s32 b). rewrite Hb. split_and!; try done; [right; left | right; right]; (split; [done |]); unfold s32; zlia.
Qed.

Definition plans : list Plan :=
  [mkPlan T_SeqScan 1 [in_list; NOpExpr 96 0 [NVar column; int4 5]] [] []; mkPlan T_Sort 0 [] [] []].

Definition rtable (rti : Z) : RangeTblEntry := mkRTE false (Some policy) att.

Lemma scan_example :
  scan_contract invoke op_in_opfamily get_op_btree_interpretation get_typlenbyval get_opclass_family get_opfamily_proc (fun _ => []) (fun _ _ => false)
    (env 1) op_sem other_value other_true policy att 1 [in_list; NOpExpr 96 0 [NVar column; int4 5]] 1.
Proof.
  assert (Hagree : forall v, v = segment_id_var 1 \/ v = column ->
    raw_agrees op_in_opfamily get_op_btree_interpretation get_typlenbyval (env 1) v 1977 eq 3 (NList [in_list; NOpExpr 96 0 [NVar column; int4 5]])).
  { intros v Hv. cbn [raw_agrees predicate_classify pairs_agree]. split; [repeat constructor |]. split; [| by repeat constructor]. constructor; [| constructor].
    intros c c' Hc Hc' Hm Hm'. destruct Hv as [-> | ->].
    - assert (E : clause_consts op_in_opfamily get_op_btree_interpretation get_typlenbyval (segment_id_var 1) 1977 2 in_list = []) by (vm_compute; reflexivity).
      rewrite E in Hc. by apply not_elem_of_nil in Hc.
    - assert (E : clause_consts op_in_opfamily get_op_btree_interpretation get_typlenbyval column 1977 2 (NOpExpr 96 0 [NVar column; int4 5]) =
        [mkConst INT4OID (-1) 0 4 (IntGetDatum 5) false true]) by (vm_compute; reflexivity).
      rewrite E in Hc'. apply list_elem_of_singleton in Hc' as ->.
      assert (E2 : clause_consts op_in_opfamily get_op_btree_interpretation get_typlenbyval column 1977 2 in_list =
        [mkConst INT4OID (-1) 0 4 (IntGetDatum 5) false true; mkConst INT4OID (-1) 0 4 (IntGetDatum 7) false true]) by (vm_compute; reflexivity).
      rewrite E2 in Hc. apply elem_of_cons in Hc as [-> | Hc]; [apply equalConst_refl |]. apply list_elem_of_singleton in Hc as ->.
      destruct Hm as [_ Hm]. destruct (Hm eq_refl) as (x & Ex & Hx). vm_compute in Ex, Hx. congruence. }
  split.
  - done.
  - by split; vm_compute.
  - done.
  - exists eq. split; [split; [apply int_contract | apply Hagree; by left] |]. intros y <-. by eexists.
  - intros opno i Hf Hi. unfold op_in_opfamily in Hf. cbn in Hf. rewrite orb_false_r in Hf.
    apply orb_true_iff in Hf as [->%Z.eqb_eq | ->%Z.eqb_eq]; cbn in Hi; injection Hi as <-; done.
  - done.
  - intros _. eexists. split; [vm_compute; reflexivity |]. split; [| split].
    + constructor; [| constructor]. exists eq. split; [split; [apply int_contract | apply Hagree; by right] |]. by intros x y stash ->.
    + exists 0. vm_compute. reflexivity.
    + intros parts t E. vm_compute in E. injection E as <- <-. by vm_compute.
Qed.
End Example.

Lemma slice_reaches_rows_witness :
  exists dd, slice_info Example.invoke Example.op_in_opfamily Example.get_op_btree_interpretation Example.get_typlenbyval Example.get_opclass_family
      Example.get_opfamily_proc (fun _ => []) (fun _ _ => false) Example.rtable Example.plans FNV1_32_INIT InitDirectDispatchCalculationInfo = Ok dd /\
    1 ∈ FillSliceGangInfo 3 3 (slice_direct_dispatch dd).
Proof.
  destruct (slice_reaches_rows Example.invoke Example.op_in_opfamily Example.get_op_btree_interpretation Example.get_typlenbyval Example.get_opclass_family
    Example.get_opfamily_proc (fun _ => []) (fun _ _ => false) (Example.env 1) Example.op_sem Example.other_value Example.other_true Example.rtable
    (fun _ => 1) 3 3 Example.plans) as (dd & E & Hall).
  - intros f [[v | bytes] | et es] stash; by eexists.
  - lia.
  - constructor; [| constructor; [| constructor]]; (split; [done |]); intros qual Eq; [| done]. injection Eq as <-.
    exists Example.policy. split; [done |]. split; [done |]. apply Example.scan_example.
  - exists dd. split; [done |]. eapply (Hall (mkPlan T_SeqScan 1 _ [] [])); [by left | done].
Defined.


(** ** Inserting constants *)

Section Insert.
  Context (FunctionCallInvoke : Z -> Datum -> Z -> outcome (option Z)) (Htotal : forall f d stash, exists v, FunctionCallInvoke f d stash = Ok (Some v)).

Lemma target_entries_ok targetlist slot : forall attrs,
  (forall a, a ∈ attrs -> target_entry targetlist a = Some (Ok (slot a))) ->
  exists es, target_entries targetlist attrs = Some es /\ read_entries es = Ok (map slot attrs).
Proof.
  intros attrs. induction attrs as [| a attrs IH]; intros H; [by exists [] |]. destruct IH as (es & E & Er); [intros a' Ha'; apply H; by right |].
  cbn [target_entries]. rewrite (H a), E by (by left). cbn. eexists. split; [done |]. cbn [read_entries mbind outcome_bind]. by rewrite Er.
Qed.

(** C31: An insert of constants goes where the row belongs.  When every
    distribution key has a constant in the target list, the slice is dispatched to
    the segment that COPY would send the row to, and to what it was dispatched to
    before. *)
Theorem insert_reaches_segment curSlice targetlist policy hashfuncs slot :
  0 < numsegments policy < 2 ^ 31 -> attrs policy <> [] -> length hashfuncs = length (attrs policy) ->
  (forall a, a ∈ attrs policy -> target_entry targetlist a = Some (Ok (slot a))) ->
  exists h dd s, makeCdbHash (numsegments policy) (zlen (attrs policy)) hashfuncs = Ok h /\
    fst (GetTargetSeg FunctionCallInvoke h (attrs policy) slot 0 FNV1_32_INIT) = Ok s /\ 0 <= s < numsegments policy /\
    DirectDispatchUpdateContentIdsForInsert FunctionCallInvoke curSlice targetlist policy hashfuncs FNV1_32_INIT = Ok dd /\
    reaches dd s /\ (haveProcessedAnyCalculations curSlice = true -> forall s', reaches curSlice s' -> reaches dd s').
Proof.
  intros Hn Hne Hlen Ht. destruct (make_ok (numsegments policy) (zlen (attrs policy)) hashfuncs Hn ltac:(unfold zlen; lia)) as (h & E & Hok & Hns & Hf & _).
  rewrite take_ge in Hf by (unfold zlen; lia). destruct (key_segment_total FunctionCallInvoke Htotal h hashfuncs (map slot (attrs policy)) Hok Hf) as (s & Es & Hs).
  { by rewrite length_map. }
  { by destruct (attrs policy). }
  destruct (target_entries_ok targetlist slot (attrs policy) Ht) as (es & Ee & Er). unfold DirectDispatchUpdateContentIdsForInsert. rewrite Ee, E. cbn [mbind outcome_bind].
  rewrite Er. cbn [mbind outcome_bind]. rewrite Es. cbn [fst mbind outcome_bind]. exists h. eexists _, s. split; [done |].
  assert (Hz : (0 <? zlen (attrs policy)) = true) by (destruct (attrs policy); [done | unfold zlen; cbn [length]; lia]).
  unfold GetTargetSeg, slot_keys. rewrite Hz, Es. split; [done |]. split; [lia |]. split; [done |]. split.
  - apply merge_reaches. intros _. by left.
  - intros Hp s' Hr. by apply merge_keeps.
Qed.
End Insert.

Lemma insert_reaches_segment_witness :
  exists h dd s, makeCdbHash 3 1 [450] = Ok h /\
    fst (GetTargetSeg Example.invoke h [1] (fun _ => (IntGetDatum 5, false)) 0 FNV1_32_INIT) = Ok s /\
    DirectDispatchUpdateContentIdsForInsert Example.invoke InitDirectDispatchCalculationInfo [(2, NOther 0); (1, Example.int4 5)] Example.policy [450] FNV1_32_INIT = Ok dd /\
    reaches dd s.
Proof.
  destruct (insert_reaches_segment Example.invoke) with (curSlice := InitDirectDispatchCalculationInfo) (targetlist := [(2, NOther 0); (1, Example.int4 5)])
    (policy := Example.policy) (hashfuncs := [450]) (slot := fun _ : Z => (IntGetDatum 5, false)) as (h & dd & s & H1 & H2 & _ & H3 & H4 & _).
  - intros f [[v | bytes] | et es] stash; by eexists.
  - done.
  - done.
  - done.
  - intros a Ha. apply list_elem_of_singleton in Ha as ->. done.
  - exists h, dd, s. exact (conj H1 (conj H2 (conj H3 H4))).
Defined.
