(* ===== verification/FtsProbe.v ===== *)
(** * The fault tolerance prober

    Models src/backend/fts/ftsprobe.c with the headers postmaster/ftsprobe.h and
    cdb/cdbfts.h, and the catalog update of src/backend/fts/fts.c.  The prober
    keeps one connection per primary and mirror pair, asks the primary for its
    state and updates gp_segment_configuration: it marks mirrors up and down and
    promotes a mirror when its primary does not answer.

    The loops over pairs are translated as loops over [perSegInfos], one
    definition per loop body.  What libpq, [poll] and the clock answer in one
    pass of the main loop is a record [Events] that the definitions take as an
    argument; the theorems hold for every sequence of such answers within what
    their hypotheses say.  A pointer to a row of the component table is the row,
    or [None] for NULL: the rows do not change during a cycle. *)

From Stdlib Require Import ZArith String Ascii.
From stdpp Require Import base list gmap.
From S2P Require Import Prelude.

(** ** The configuration of the cluster *)

Definition GP_SEGMENT_CONFIGURATION_ROLE_PRIMARY : Z := 112. (* 'p' *)
Definition GP_SEGMENT_CONFIGURATION_ROLE_MIRROR : Z := 109. (* 'm' *)
Definition GP_SEGMENT_CONFIGURATION_STATUS_UP : Z := 117. (* 'u' *)
Definition GP_SEGMENT_CONFIGURATION_STATUS_DOWN : Z := 100. (* 'd' *)
Definition GP_SEGMENT_CONFIGURATION_MODE_INSYNC : Z := 115. (* 's' *)
Definition GP_SEGMENT_CONFIGURATION_MODE_NOTINSYNC : Z := 110. (* 'n' *)

Record GpSegConfigEntry := mk_config {
  dbid : Z;
  segindex : Z;
  role : Z;
  preferred_role : Z;
  mode : Z;
  status : Z
}.

(** The component table: the rows of the segments and the number of contents. *)
Record CdbComponentDatabases := {
  segment_db_info : list GpSegConfigEntry;
  total_segments : Z
}.

Definition SEGMENT_IS_ACTIVE_PRIMARY (p : GpSegConfigEntry) : bool :=
  p.(role) =? GP_SEGMENT_CONFIGURATION_ROLE_PRIMARY.
Definition SEGMENT_IS_ALIVE (p : GpSegConfigEntry) : bool :=
  p.(status) =? GP_SEGMENT_CONFIGURATION_STATUS_UP.
Definition SEGMENT_IS_IN_SYNC (p : GpSegConfigEntry) : bool :=
  p.(mode) =? GP_SEGMENT_CONFIGURATION_MODE_INSYNC.

(** ** The catalogs and the status array in shared memory *)

(** A row of gp_configuration_history: the dbid, and the values that its
    description prints (the time is left out). *)
Record gp_configuration_history := {
  hist_dbid : Z;
  hist_segindex : Z;
  hist_role : Z;
  hist_status : Z;
  hist_mode : Z
}.

Record Cluster := mk_cluster {
  gp_segment_configuration : gmap Z GpSegConfigEntry;  (* by dbid *)
  history : list gp_configuration_history;             (* oldest row first *)
  fts_status : gmap Z Z                                (* ftsProbeInfo->status, 0 at first *)
}.

Definition FTS_MAX_DBS : Z := 128 * 1024.
Definition FTS_STATUS_DOWN : Z := Z.shiftl 1 0.
Definition FTS_STATUS_SET_DOWN (s : Z) : Z := u8 (Z.lor s FTS_STATUS_DOWN).
Definition FTS_STATUS_SET_UP (s : Z) : Z := u8 (Z.land s (Z.lnot FTS_STATUS_DOWN)).
Definition FTS_STATUS_IS_DOWN (s : Z) : bool := negb (Z.land s FTS_STATUS_DOWN =? 0).

(** Applies an update to one byte of the status array. *)
Definition status_update (db : Z) (f : Z -> Z) (w : Cluster) : outcome Cluster :=
  if (0 <=? db) && (db <? FTS_MAX_DBS) then
    Ok (mk_cluster w.(gp_segment_configuration) w.(history)
          (<[db := f (default 0 (w.(fts_status) !! db))]> w.(fts_status)))
  else Ub.

(** The two catalog rows written for one segment. *)
Definition probeWalRepUpdateConfig (db seg newrole : Z) (IsSegmentAlive IsInSync : bool)
    (w : Cluster) : outcome Cluster :=
  let st := if IsSegmentAlive then GP_SEGMENT_CONFIGURATION_STATUS_UP
            else GP_SEGMENT_CONFIGURATION_STATUS_DOWN in
  let md := if IsInSync then GP_SEGMENT_CONFIGURATION_MODE_INSYNC
            else GP_SEGMENT_CONFIGURATION_MODE_NOTINSYNC in
  let hist := w.(history) ++ [Build_gp_configuration_history db seg newrole st md] in
  match w.(gp_segment_configuration) !! db with
  | None => Err "FTS cannot find dbid in gp_segment_configuration"
  | Some configtuple =>
      let newtuple := mk_config configtuple.(dbid) configtuple.(segindex) newrole
                        configtuple.(preferred_role) md st in
      Ok (mk_cluster (<[db := newtuple]> w.(gp_segment_configuration)) hist w.(fts_status))
  end.

(** Fills the status array from the component table at the start of a cycle. *)
Fixpoint readCdbComponentInfoAndUpdateStatus (l : list GpSegConfigEntry) (w : Cluster)
    : outcome Cluster :=
  match l with
  | [] => Ok w
  | segInfo :: l' =>
      let segStatus := if SEGMENT_IS_ALIVE segInfo then 0 else FTS_STATUS_SET_DOWN 0 in
      w ← status_update segInfo.(dbid) (fun _ => segStatus) w;
      readCdbComponentInfoAndUpdateStatus l' w
  end.

(** ** The state of a probe *)

Inductive FtsMessageState :=
  | FTS_PROBE_SEGMENT
  | FTS_SYNCREP_OFF_SEGMENT
  | FTS_PROMOTE_SEGMENT
  | FTS_PROBE_RETRY_WAIT
  | FTS_SYNCREP_OFF_RETRY_WAIT
  | FTS_PROMOTE_RETRY_WAIT
  | FTS_PROBE_SUCCESS
  | FTS_SYNCREP_OFF_SUCCESS
  | FTS_PROMOTE_SUCCESS
  | FTS_PROBE_FAILED
  | FTS_SYNCREP_OFF_FAILED
  | FTS_PROMOTE_FAILED
  | FTS_RESPONSE_PROCESSED.

#[export] Instance FtsMessageState_eq_dec : EqDecision FtsMessageState.
Proof. solve_decision. Defined.

Inductive PMRestartState :=
  | PM_NOT_IN_RESTART
  | PM_IN_RESETTING
  | PM_IN_RECOVERY_MAKING_PROGRESS
  | PM_IN_RECOVERY_NOT_MAKING_PROGRESS.

Definition IsFtsMessageStateSuccess (s : FtsMessageState) : bool :=
  match s with
  | FTS_PROBE_SUCCESS | FTS_SYNCREP_OFF_SUCCESS | FTS_PROMOTE_SUCCESS => true
  | _ => false
  end.

Definition IsFtsMessageStateFailed (s : FtsMessageState) : bool :=
  match s with
  | FTS_PROBE_FAILED | FTS_SYNCREP_OFF_FAILED | FTS_PROMOTE_FAILED => true
  | _ => false
  end.

Record fts_result := mk_result {
  isPrimaryAlive : bool;
  isMirrorAlive : bool;
  isInSync : bool;
  isSyncRepEnabled : bool;
  isRoleMirror : bool;
  retryRequested : bool
}.

(** What [memset] and the initialisation leave. *)
Definition no_result : fts_result := mk_result false false false false false false.

(** The part of a libpq connection that the prober looks at. *)
Inductive ConnStatusType :=
  | CONNECTION_OK
  | CONNECTION_BAD
  | CONNECTION_PENDING.  (* any status of a connection being made *)

Record PGconn := {
  conn_status : ConnStatusType;
  async_idle : bool;            (* asyncStatus == PGASYNC_IDLE *)
  errorMessage : string
}.

Definition POLLIN : Z := 1.
Definition POLLOUT : Z := 4.
Definition POLLERR : Z := 8.
Definition POLLHUP : Z := 16.

Record fts_segment_info := mk_info {
  primary_cdbinfo : option GpSegConfigEntry;
  mirror_cdbinfo : option GpSegConfigEntry;
  result : fts_result;
  state : FtsMessageState;
  poll_events : Z;
  poll_revents : Z;
  fd_index : Z;
  startTime : Z;
  retryStartTime : Z;
  conn : option PGconn;
  retry_count : Z;
  xlogrecptr : Z;
  restart_state : PMRestartState;
  timeout_count : Z
}.

(** Assignments to a field. *)
Definition set_result (v : fts_result) (i : fts_segment_info) : fts_segment_info :=
  mk_info i.(primary_cdbinfo) i.(mirror_cdbinfo) v i.(state) i.(poll_events)
    i.(poll_revents) i.(fd_index) i.(startTime) i.(retryStartTime) i.(conn) i.(retry_count)
    i.(xlogrecptr) i.(restart_state) i.(timeout_count).
Definition set_state (v : FtsMessageState) (i : fts_segment_info) : fts_segment_info :=
  mk_info i.(primary_cdbinfo) i.(mirror_cdbinfo) i.(result) v i.(poll_events)
    i.(poll_revents) i.(fd_index) i.(startTime) i.(retryStartTime) i.(conn) i.(retry_count)
    i.(xlogrecptr) i.(restart_state) i.(timeout_count).
Definition set_events (v : Z) (i : fts_segment_info) : fts_segment_info :=
  mk_info i.(primary_cdbinfo) i.(mirror_cdbinfo) i.(result) i.(state) v i.(poll_revents)
    i.(fd_index) i.(startTime) i.(retryStartTime) i.(conn) i.(retry_count) i.(xlogrecptr)
    i.(restart_state) i.(timeout_count).
Definition set_revents (v : Z) (i : fts_segment_info) : fts_segment_info :=
  mk_info i.(primary_cdbinfo) i.(mirror_cdbinfo) i.(result) i.(state) i.(poll_events) v
    i.(fd_index) i.(startTime) i.(retryStartTime) i.(conn) i.(retry_count) i.(xlogrecptr)
    i.(restart_state) i.(timeout_count).
Definition set_fd (v : Z) (i : fts_segment_info) : fts_segment_info :=
  mk_info i.(primary_cdbinfo) i.(mirror_cdbinfo) i.(result) i.(state) i.(poll_events)
    i.(poll_revents) v i.(startTime) i.(retryStartTime) i.(conn) i.(retry_count)
    i.(xlogrecptr) i.(restart_state) i.(timeout_count).
Definition set_start (v : Z) (i : fts_segment_info) : fts_segment_info :=
  mk_info i.(primary_cdbinfo) i.(mirror_cdbinfo) i.(result) i.(state) i.(poll_events)
    i.(poll_revents) i.(fd_index) v i.(retryStartTime) i.(conn) i.(retry_count)
    i.(xlogrecptr) i.(restart_state) i.(timeout_count).
Definition set_retry_start (v : Z) (i : fts_segment_info) : fts_segment_info :=
  mk_info i.(primary_cdbinfo) i.(mirror_cdbinfo) i.(result) i.(state) i.(poll_events)
    i.(poll_revents) i.(fd_index) i.(startTime) v i.(conn) i.(retry_count) i.(xlogrecptr)
    i.(restart_state) i.(timeout_count).
Definition set_conn (v : option PGconn) (i : fts_segment_info) : fts_segment_info :=
  mk_info i.(primary_cdbinfo) i.(mirror_cdbinfo) i.(result) i.(state) i.(poll_events)
    i.(poll_revents) i.(fd_index) i.(startTime) i.(retryStartTime) v i.(retry_count)
    i.(xlogrecptr) i.(restart_state) i.(timeout_count).
Definition set_retry_count (v : Z) (i : fts_segment_info) : fts_segment_info :=
  mk_info i.(primary_cdbinfo) i.(mirror_cdbinfo) i.(result) i.(state) i.(poll_events)
    i.(poll_revents) i.(fd_index) i.(startTime) i.(retryStartTime) i.(conn) v i.(xlogrecptr)
    i.(restart_state) i.(timeout_count).
Definition set_xlog (v : Z) (i : fts_segment_info) : fts_segment_info :=
  mk_info i.(primary_cdbinfo) i.(mirror_cdbinfo) i.(result) i.(state) i.(poll_events)
    i.(poll_revents) i.(fd_index) i.(startTime) i.(retryStartTime) i.(conn) i.(retry_count)
    v i.(restart_state) i.(timeout_count).
Definition set_restart (v : PMRestartState) (i : fts_segment_info) : fts_segment_info :=
  mk_info i.(primary_cdbinfo) i.(mirror_cdbinfo) i.(result) i.(state) i.(poll_events)
    i.(poll_revents) i.(fd_index) i.(startTime) i.(retryStartTime) i.(conn) i.(retry_count)
    i.(xlogrecptr) v i.(timeout_count).
Definition set_timeout_count (v : Z) (i : fts_segment_info) : fts_segment_info :=
  mk_info i.(primary_cdbinfo) i.(mirror_cdbinfo) i.(result) i.(state) i.(poll_events)
    i.(poll_revents) i.(fd_index) i.(startTime) i.(retryStartTime) i.(conn) i.(retry_count)
    i.(xlogrecptr) i.(restart_state) v.
Definition set_pair (p m : option GpSegConfigEntry) (i : fts_segment_info) : fts_segment_info :=
  mk_info p m i.(result) i.(state) i.(poll_events) i.(poll_revents) i.(fd_index)
    i.(startTime) i.(retryStartTime) i.(conn) i.(retry_count) i.(xlogrecptr)
    i.(restart_state) i.(timeout_count).

(** ** What the outside answers in one pass of the main loop *)

Inductive PostgresPollingStatusType :=
  | PGRES_POLLING_OK
  | PGRES_POLLING_READING
  | PGRES_POLLING_WRITING
  | PGRES_POLLING_FAILED
  | PGRES_POLLING_ACTIVE.   (* no longer returned by libpq *)

(** A result: its status, the number of its fields and the text of its rows. *)
Record PGresult := {
  tuples_ok : bool;
  nfields : Z;
  tuples : list (list (list Z))
}.

(** The libpq calls for one connection, each with the connection it leaves. *)
Record LibpqEvents := {
  connectStart : option PGconn;
  startClock : Z;                     (* time(NULL) after PQconnectStart *)
  connectPoll : PostgresPollingStatusType * PGconn;
  sendQuery : bool * PGconn;
  consumeInput : bool * PGconn;
  isBusy : bool * PGconn;
  getResult : option PGresult * PGconn
}.

(** [poll] fails, is interrupted by a signal, or returns with the [revents] of
    the file descriptors it was given, by their index. *)
Inductive PollResult :=
  | PollFailed
  | PollInterrupted
  | PollReturned (revents : nat -> Z).

Record Events := {
  libpq : nat -> LibpqEvents;  (* by the index of the pair *)
  polled : PollResult;
  pollClock : Z;               (* time(NULL) after poll *)
  retryClock : Z               (* time(NULL) in processRetry *)
}.

Record FtsSettings := {
  gp_fts_probe_retries : Z;
  gp_fts_probe_timeout : Z
}.

(** Follows a pointer. *)
Definition deref {A} (p : option A) : outcome A :=
  match p with Some a => Ok a | None => Ub end.

(** A loop over [perSegInfos], whose body gets the index and the element. *)
Fixpoint each {A} (f : nat -> A -> outcome A) (k : nat) (l : list A) : outcome (list A) :=
  match l with
  | [] => Ok []
  | a :: l' => a ← f k a; l' ← each f (S k) l'; Ok (a :: l')
  end.

(** ** State transitions *)

Definition nextSuccessState (s : FtsMessageState) : outcome FtsMessageState :=
  match s with
  | FTS_PROBE_SEGMENT => Ok FTS_PROBE_SUCCESS
  | FTS_SYNCREP_OFF_SEGMENT => Ok FTS_SYNCREP_OFF_SUCCESS
  | FTS_PROMOTE_SEGMENT => Ok FTS_PROMOTE_SUCCESS
  | _ => Err "cannot determine next success state"
  end.

Definition nextFailedState (s : FtsMessageState) : outcome FtsMessageState :=
  match s with
  | FTS_PROBE_SEGMENT | FTS_PROBE_FAILED | FTS_PROBE_RETRY_WAIT => Ok FTS_PROBE_FAILED
  | FTS_SYNCREP_OFF_SEGMENT | FTS_SYNCREP_OFF_FAILED | FTS_SYNCREP_OFF_RETRY_WAIT =>
      Ok FTS_SYNCREP_OFF_FAILED
  | FTS_PROMOTE_SEGMENT | FTS_PROMOTE_FAILED | FTS_PROMOTE_RETRY_WAIT =>
      Ok FTS_PROMOTE_FAILED
  | _ => Err "cannot determine next failed state"
  end.

(** [ftsInfo->state = nextFailedState(ftsInfo->state)] *)
Definition fail (i : fts_segment_info) : outcome fts_segment_info :=
  s ← nextFailedState i.(state); Ok (set_state s i).

Definition is_processed (s : FtsMessageState) : bool := bool_decide (s = FTS_RESPONSE_PROCESSED).

Fixpoint allDone (perSegInfos : list fts_segment_info) : bool :=
  match perSegInfos with
  | [] => true
  | i :: l => if is_processed i.(state) then allDone l else false
  end.

(** The states in which a message is being sent or answered. *)
Definition is_messaging (s : FtsMessageState) : bool :=
  match s with
  | FTS_PROBE_SEGMENT | FTS_SYNCREP_OFF_SEGMENT | FTS_PROMOTE_SEGMENT => true
  | _ => false
  end.

(** libpq answers CONNECTION_BAD for NULL. *)
Definition PQstatus (c : option PGconn) : ConnStatusType :=
  match c with Some c => c.(conn_status) | None => CONNECTION_BAD end.

Definition connected (c : option PGconn) : bool :=
  match PQstatus c with CONNECTION_OK => true | _ => false end.

(** ** Connecting *)

(** The boolean is what the function returns. *)
Definition ftsConnectStart (ev : LibpqEvents) (i : fts_segment_info)
    : outcome (fts_segment_info * bool) :=
  _ ← deref i.(primary_cdbinfo);
  match ev.(connectStart) with
  | None => Err "FTS: cannot create libpq connection object, possibly out of memory"
  | Some c =>
      let i := set_conn (Some c) i in
      match c.(conn_status) with
      | CONNECTION_BAD => Ok (i, false)
      | _ =>
          let i := set_events (Z.lor i.(poll_events) POLLOUT) i in
          Ok (set_start ev.(startClock) i, true)
      end
  end.

Definition POSTMASTER_IN_STARTUP_MSG : string := "the database system is starting up".
Definition POSTMASTER_IN_RESET_MSG : string := "the database system is resetting".
Definition POSTMASTER_IN_RECOVERY_MSG : string := "the database system is in recovery mode".
Definition POSTMASTER_IN_RECOVERY_DETAIL_MSG : string := "last replayed record at".

(** The rest of the string from the first occurrence of a needle. *)
Definition strstr (s needle : string) : option string :=
  match String.index 0 needle s with
  | Some n => Some (String.substring n (String.length s - n) s)
  | None => None
  end.

Definition contains (s needle : string) : bool :=
  match strstr s needle with Some _ => true | None => false end.

Definition code (c : ascii) : Z := Z.of_N (N_of_ascii c).

Definition isspace (c : ascii) : bool := ((9 <=? code c) && (code c <=? 13)) || (code c =? 32).

Fixpoint skip_spaces (s : string) : string :=
  match s with
  | String c s' => if isspace c then skip_spaces s' else s
  | EmptyString => s
  end.

Definition hex_digit (c : ascii) : option Z :=
  let z := code c in
  if (48 <=? z) && (z <=? 57) then Some (z - 48)
  else if (65 <=? z) && (z <=? 70) then Some (z - 55)
  else if (97 <=? z) && (z <=? 102) then Some (z - 87)
  else None.

(** The value of the longest run of hexadecimal digits; [acc] is [None] before
    the first one. *)
Fixpoint hex_digits (s : string) (acc : option Z) : option (Z * string) :=
  match s with
  | EmptyString => (fun v => (v, s)) <$> acc
  | String c s' =>
      match hex_digit c with
      | Some d => hex_digits s' (Some (16 * default 0 acc + d))
      | None => (fun v => (v, s)) <$> acc
      end
  end.

(** The conversion [%X] of [scanf] into a 32-bit integer: white space, a sign, the
    prefix 0x, and digits that are read as [strtoul] does. *)
Definition scan_X (s : string) : option (Z * string) :=
  let s := skip_spaces s in
  let '(negative, s) :=
    match s with
    | String c s' => if code c =? 45 then (true, s') else if code c =? 43 then (false, s')
                     else (false, s)
    | EmptyString => (false, s)
    end in
  let s :=
    match s with
    | String c (String x s') =>
        if (code c =? 48) && ((code x =? 120) || (code x =? 88)) then s' else s
    | _ => s
    end in
  '(v, rest) ← hex_digits s None;
  let v := if 2 ^ 64 <=? v then 2 ^ 64 - 1 else if (negative : bool) then u64 (- v) else v in
  Some (u32 v, rest).

(** [sscanf(ptr, POSTMASTER_IN_RECOVERY_DETAIL_MSG " %X/%X\n", ...)] at an
    occurrence of the message; [Some] when both numbers are read. *)
Definition scan_recptr (ptr : string) : option (Z * Z) :=
  let n := String.length POSTMASTER_IN_RECOVERY_DETAIL_MSG in
  '(tmp_xlogid, s) ← scan_X (String.substring n (String.length ptr - n) ptr);
  match s with
  | String c s' =>
      if code c =? 47 then '(tmp_xrecoff, _) ← scan_X s'; Some (tmp_xlogid, tmp_xrecoff)
      else None
  | EmptyString => None
  end.

Definition checkIfFailedDueToNormalRestart (msg : string) (i : fts_segment_info)
    : fts_segment_info :=
  if contains msg POSTMASTER_IN_RECOVERY_MSG || contains msg POSTMASTER_IN_STARTUP_MSG then
    match strstr msg POSTMASTER_IN_RECOVERY_DETAIL_MSG with
    | None => i
    | Some ptr =>
        match scan_recptr ptr with
        | None => i
        | Some (tmp_xlogid, tmp_xrecoff) =>
            let tmpptr := Z.lor (Z.shiftl tmp_xlogid 32) tmp_xrecoff in
            if tmpptr <=? i.(xlogrecptr) then set_restart PM_IN_RECOVERY_NOT_MAKING_PROGRESS i
            else set_xlog tmpptr (set_restart PM_IN_RECOVERY_MAKING_PROGRESS i)
        end
    end
  else if contains msg POSTMASTER_IN_RESET_MSG then set_restart PM_IN_RESETTING i
  else i.

(** The body of the loop of [ftsConnect]. *)
Definition connect_segment (ev : LibpqEvents) (i : fts_segment_info)
    : outcome fts_segment_info :=
  if connected i.(conn) then Ok i
  else if is_messaging i.(state) then
    let i := set_restart PM_NOT_IN_RESTART i in
    match i.(conn) with
    | None =>
        '(i, ok) ← ftsConnectStart ev i;
        if (ok : bool) then Ok i else fail i
    | Some _ =>
        if Z.land i.(poll_revents) (Z.lor POLLOUT POLLIN) =? 0 then Ok i
        else
          let '(polling, c) := ev.(connectPoll) in
          let i := set_conn (Some c) i in
          match polling with
          | PGRES_POLLING_OK => Ok (set_events POLLOUT i)
          | PGRES_POLLING_READING => Ok (set_events (Z.lor i.(poll_events) POLLIN) i)
          | PGRES_POLLING_WRITING => Ok (set_events (Z.lor i.(poll_events) POLLOUT) i)
          | PGRES_POLLING_FAILED =>
              i ← fail i; Ok (checkIfFailedDueToNormalRestart c.(errorMessage) i)
          | PGRES_POLLING_ACTIVE => Err "FTS: invalid response to PQconnectPoll"
          end
    end
  else Ok i.

Definition ftsConnect (e : Events) (perSegInfos : list fts_segment_info)
    : outcome (list fts_segment_info) :=
  each (fun k i => connect_segment (e.(libpq) k) i) 0 perSegInfos.

(** ** Polling *)

Definition ftsCheckTimeout (cfg : FtsSettings) (now : Z) (i : fts_segment_info)
    : outcome fts_segment_info :=
  if negb (IsFtsMessageStateSuccess i.(state)) &&
     (cfg.(gp_fts_probe_timeout) <? s32 (now - i.(startTime)))
  then fail (set_timeout_count 0 i)
  else Ok i.

(** Is the connection waiting for its socket? *)
Definition waits (i : fts_segment_info) : bool :=
  negb (Z.land i.(poll_events) (Z.lor POLLIN POLLOUT) =? 0).

Definition s16 (z : Z) : Z := (z + 2 ^ 15) mod 2 ^ 16 - 2 ^ 15.

(** The first loop of [ftsPoll], which enters the events of the waiting
    connections into [PollFds] and counts them. *)
Fixpoint fill_pollfds (PollFds : list Z) (nfds : Z) (l : list fts_segment_info)
    : outcome (list Z * Z * list fts_segment_info) :=
  match l with
  | [] => Ok (PollFds, nfds, [])
  | i :: l' =>
      if waits i then
        PollFds ← zset PollFds nfds i.(poll_events);
        '(PollFds, n, l') ← fill_pollfds PollFds (nfds + 1) l';
        Ok (PollFds, n, set_fd (s16 nfds) i :: l')
      else
        '(PollFds, n, l') ← fill_pollfds PollFds nfds l';
        Ok (PollFds, n, set_fd (-1) i :: l')
  end.

(** The [revents] of the descriptors and what [poll] returns. *)
Definition poll_revents_of (p : PollResult) (nfds : nat) : outcome (list Z * Z) :=
  match p with
  | PollFailed => Err "FTS: ftsPoll() failed"
  | PollInterrupted => Ok (replicate nfds 0, -1)
  | PollReturned f =>
      let revents := f <$> seq 0 nfds in
      Ok (revents, zlen (base.filter (fun r => r <> 0) revents))
  end.

(** The body of the second loop of [ftsPoll]. *)
Definition poll_segment (cfg : FtsSettings) (revents : list Z) (nready now : Z)
    (i : fts_segment_info) : outcome fts_segment_info :=
  if waits i then
    r ← zget revents i.(fd_index);
    let i := set_revents r i in
    i ← (if negb (Z.land r i.(poll_events) =? 0) then Ok (set_events 0 i)
         else if negb (Z.land r (Z.lor POLLHUP POLLERR) =? 0) then
           i ← fail i; _ ← deref i.(conn); Ok i
         else if negb (r =? 0) then
           i ← fail i; _ ← deref i.(conn); Ok i
         else Ok i);
    let i := if negb (IsFtsMessageStateSuccess i.(state)) && (nready =? 0)
             then set_timeout_count (i.(timeout_count) + 1) i else i in
    ftsCheckTimeout cfg now i
  else Ok i.

Definition ftsPoll (cfg : FtsSettings) (e : Events) (PollFds : list Z)
    (perSegInfos : list fts_segment_info) : outcome (list Z * list fts_segment_info) :=
  '(PollFds, nfds, l) ← fill_pollfds PollFds 0 perSegInfos;
  if nfds =? 0 then Ok (PollFds, l)
  else
    '(revents, nready) ← poll_revents_of e.(polled) (Z.to_nat nfds);
    l ← each (fun _ i => poll_segment cfg revents nready e.(pollClock) i) 0 l;
    Ok (PollFds, l).

(** ** Sending and receiving *)

(** The body of the loop of [ftsSend]. *)
Definition send_segment (ev : LibpqEvents) (i : fts_segment_info)
    : outcome fts_segment_info :=
  if is_messaging i.(state) then
    if negb (connected i.(conn)) then Ok i
    else
      c ← deref i.(conn);
      if negb c.(async_idle) || (Z.land i.(poll_revents) POLLOUT =? 0) then Ok i
      else
        _ ← deref i.(primary_cdbinfo);
        let '(sent, c) := ev.(sendQuery) in
        let i := set_conn (Some c) i in
        if (sent : bool) then Ok (set_events POLLIN i) else fail i
  else Ok i.

Definition ftsSend (e : Events) (perSegInfos : list fts_segment_info)
    : outcome (list fts_segment_info) :=
  each (fun k i => send_segment (e.(libpq) k) i) 0 perSegInfos.

Definition Natts_fts_message_response : Z := 5.
Definition Anum_fts_message_response_is_mirror_up : Z := 0.
Definition Anum_fts_message_response_is_in_sync : Z := 1.
Definition Anum_fts_message_response_is_syncrep_enabled : Z := 2.
Definition Anum_fts_message_response_is_role_mirror : Z := 3.
Definition Anum_fts_message_response_request_retry : Z := 4.
Definition FTS_MESSAGE_RESPONSE_NTUPLES : Z := 1.

(** [*PQgetvalue(result, 0, field)] as a boolean: the first byte of the field,
    which libpq ends with a zero byte. *)
Definition response_flag (r : PGresult) (field : Z) : outcome bool :=
  row ← zget r.(tuples) 0;
  bytes ← zget row field;
  Ok (negb (List.hd 0 bytes =? 0)).

Definition probeRecordResponse (r : PGresult) (i : fts_segment_info)
    : outcome fts_segment_info :=
  mirror ← response_flag r Anum_fts_message_response_is_mirror_up;
  insync ← response_flag r Anum_fts_message_response_is_in_sync;
  syncrep ← response_flag r Anum_fts_message_response_is_syncrep_enabled;
  rolemirror ← response_flag r Anum_fts_message_response_is_role_mirror;
  retry ← response_flag r Anum_fts_message_response_request_retry;
  Ok (set_result (mk_result true mirror insync syncrep rolemirror retry) i).

(** The body of the loop of [ftsReceive]. *)
Definition receive_segment (ev : LibpqEvents) (i : fts_segment_info)
    : outcome fts_segment_info :=
  if is_messaging i.(state) then
    if negb (connected i.(conn)) || (Z.land i.(poll_revents) POLLIN =? 0) then Ok i
    else
      let '(consumed, c) := ev.(consumeInput) in
      let i := set_conn (Some c) i in
      if negb consumed then fail i
      else
        let '(busy, c) := ev.(isBusy) in
        let i := set_conn (Some c) i in
        if (busy : bool) then Ok i
        else
          let '(res, c) := ev.(getResult) in
          let i := set_conn (Some c) i in
          match res, c.(conn_status) with
          | None, _ | Some _, CONNECTION_BAD => fail i
          | Some r, _ =>
              if negb r.(tuples_ok) then fail i
              else if negb (r.(nfields) =? Natts_fts_message_response) ||
                      negb (zlen r.(tuples) =? FTS_MESSAGE_RESPONSE_NTUPLES) then fail i
              else
                i ← probeRecordResponse r i;
                s ← nextSuccessState i.(state);
                Ok (set_state s i)
          end
  else Ok i.

Definition ftsReceive (e : Events) (perSegInfos : list fts_segment_info)
    : outcome (list fts_segment_info) :=
  each (fun k i => receive_segment (e.(libpq) k) i) 0 perSegInfos.

(** ** Retries *)

(** Closes the connection and forgets the answer. *)
Definition disconnect (i : fts_segment_info) : fts_segment_info :=
  set_result no_result (set_revents 0 (set_events 0 (set_conn None i))).

Definition retryForFtsFailed (cfg : FtsSettings) (now : Z) (i : fts_segment_info)
    : fts_segment_info :=
  if i.(retry_count) =? cfg.(gp_fts_probe_retries) then i
  else
    let s := match i.(state) with
             | FTS_PROBE_SUCCESS | FTS_PROBE_FAILED => FTS_PROBE_RETRY_WAIT
             | FTS_SYNCREP_OFF_FAILED => FTS_SYNCREP_OFF_RETRY_WAIT
             | _ => FTS_PROMOTE_RETRY_WAIT
             end in
    disconnect (set_retry_start now (set_state s (set_retry_count (i.(retry_count) + 1) i))).

(** The body of the loop of [processRetry]. *)
Definition retry_segment (cfg : FtsSettings) (now : Z) (i : fts_segment_info)
    : outcome fts_segment_info :=
  let after_wait s :=
    if s32 (now - i.(retryStartTime)) <? 1 then Ok i else Ok (set_state s i) in
  match i.(state) with
  | FTS_PROBE_SUCCESS =>
      if i.(result).(retryRequested) then
        mirror ← deref i.(mirror_cdbinfo);
        if SEGMENT_IS_ALIVE mirror then Ok (retryForFtsFailed cfg now i) else Ok i
      else Ok i
  | FTS_PROBE_FAILED | FTS_SYNCREP_OFF_FAILED | FTS_PROMOTE_FAILED =>
      Ok (retryForFtsFailed cfg now i)
  | FTS_PROBE_RETRY_WAIT => after_wait FTS_PROBE_SEGMENT
  | FTS_SYNCREP_OFF_RETRY_WAIT => after_wait FTS_SYNCREP_OFF_SEGMENT
  | FTS_PROMOTE_RETRY_WAIT => after_wait FTS_PROMOTE_SEGMENT
  | _ => Ok i
  end.

Definition processRetry (cfg : FtsSettings) (e : Events) (perSegInfos : list fts_segment_info)
    : outcome (list fts_segment_info) :=
  each (fun _ i => retry_segment cfg e.(retryClock) i) 0 perSegInfos.

(** ** Responses *)

Definition ftsResponseReady (i : fts_segment_info) : bool :=
  IsFtsMessageStateSuccess i.(state) || IsFtsMessageStateFailed i.(state).

(** The boolean is what the function returns: was the configuration changed? *)
Definition updateConfiguration (primary mirror : GpSegConfigEntry)
    (newPrimaryRole newMirrorRole : Z) (IsInSync IsPrimaryAlive IsMirrorAlive : bool)
    (w : Cluster) : outcome (Cluster * bool) :=
  let resync := negb (eqb IsInSync (SEGMENT_IS_IN_SYNC primary)) in
  let UpdatePrimary := negb (eqb IsPrimaryAlive (SEGMENT_IS_ALIVE primary)) || resync in
  let UpdateMirror := negb (eqb IsMirrorAlive (SEGMENT_IS_ALIVE mirror)) || resync in
  let UpdateNeeded := UpdatePrimary || UpdateMirror in
  if UpdateNeeded then
    w ← (if UpdatePrimary
         then probeWalRepUpdateConfig primary.(dbid) primary.(segindex) newPrimaryRole
                IsPrimaryAlive IsInSync w
         else Ok w);
    w ← (if UpdateMirror
         then probeWalRepUpdateConfig mirror.(dbid) mirror.(segindex) newMirrorRole
                IsMirrorAlive IsInSync w
         else Ok w);
    w ← status_update primary.(dbid)
          (if IsPrimaryAlive then FTS_STATUS_SET_UP else FTS_STATUS_SET_DOWN) w;
    w ← status_update mirror.(dbid)
          (if IsMirrorAlive then FTS_STATUS_SET_UP else FTS_STATUS_SET_DOWN) w;
    Ok (w, true)
  else Ok (w, false).

(** The end of the body of the loop of [processResponse]. *)
Definition next_message (i : fts_segment_info) : fts_segment_info :=
  set_timeout_count 0 (set_retry_count 0 (disconnect i)).

(** The body of the loop of [processResponse], with the change of the
    configuration. *)
Definition respond_segment (i : fts_segment_info) (w : Cluster)
    : outcome (fts_segment_info * Cluster * bool) :=
  if negb (ftsResponseReady i) then Ok (i, w, false)
  else
    primary ← deref i.(primary_cdbinfo);
    mirror ← deref i.(mirror_cdbinfo);
    let IsPrimaryAlive := i.(result).(isPrimaryAlive) in
    let IsMirrorAlive := if IsPrimaryAlive then i.(result).(isMirrorAlive)
                         else SEGMENT_IS_ALIVE mirror in
    let IsInSync := if IsPrimaryAlive then i.(result).(isInSync) else false in
    '(i, w, updated) ←
      match i.(state) with
      | FTS_PROBE_SUCCESS =>
          if i.(result).(isSyncRepEnabled) && negb IsMirrorAlive then
            if negb i.(result).(retryRequested) then
              '(w, updated) ← updateConfiguration primary mirror
                 GP_SEGMENT_CONFIGURATION_ROLE_PRIMARY GP_SEGMENT_CONFIGURATION_ROLE_MIRROR
                 IsInSync IsPrimaryAlive IsMirrorAlive w;
              Ok (set_state FTS_SYNCREP_OFF_SEGMENT i, w, updated)
            else Ok (set_state FTS_RESPONSE_PROCESSED i, w, false)
          else if i.(result).(isRoleMirror) then
            Ok (set_state FTS_PROMOTE_SEGMENT i, w, false)
          else
            '(w, updated) ← updateConfiguration primary mirror
               GP_SEGMENT_CONFIGURATION_ROLE_PRIMARY GP_SEGMENT_CONFIGURATION_ROLE_MIRROR
               IsInSync IsPrimaryAlive IsMirrorAlive w;
            Ok (set_state FTS_RESPONSE_PROCESSED i, w, updated)
      | FTS_PROBE_FAILED =>
          match i.(restart_state) with
          | PM_IN_RESETTING | PM_IN_RECOVERY_MAKING_PROGRESS =>
              Ok (set_state FTS_RESPONSE_PROCESSED i, w, false)
          | _ =>
              if SEGMENT_IS_IN_SYNC mirror then
                '(w, updated) ← updateConfiguration primary mirror
                   GP_SEGMENT_CONFIGURATION_ROLE_MIRROR GP_SEGMENT_CONFIGURATION_ROLE_PRIMARY
                   IsInSync IsPrimaryAlive IsMirrorAlive w;
                Ok (set_pair (Some mirror) (Some primary) (set_state FTS_PROMOTE_SEGMENT i),
                    w, updated)
              else Ok (set_state FTS_RESPONSE_PROCESSED i, w, false)
          end
      | FTS_SYNCREP_OFF_FAILED | FTS_PROMOTE_FAILED
      | FTS_PROMOTE_SUCCESS | FTS_SYNCREP_OFF_SUCCESS =>
          Ok (set_state FTS_RESPONSE_PROCESSED i, w, false)
      | _ => Err "FTS invalid internal state"
      end;
    Ok (next_message i, w, updated).

(** The prober is active for the whole of a cycle: only [FtsLoop] clears the flag
    that [FtsIsActive] tests, before the cycle. *)
Fixpoint processResponse (l : list fts_segment_info) (w : Cluster)
    : outcome (list fts_segment_info * Cluster * bool) :=
  match l with
  | [] => Ok ([], w, false)
  | i :: l' =>
      '(i, w, updated) ← respond_segment i w;
      '(l', w, is_updated) ← processResponse l' w;
      Ok (i :: l', w, updated || is_updated)
  end.

(** ** A probe cycle *)

Definition FtsGetPeerSegment (cdbs : list GpSegConfigEntry) (content db : Z)
    : option GpSegConfigEntry :=
  List.find (fun s => (s.(segindex) =? content) && negb (s.(dbid) =? db)) cdbs.

(** An element of [perSegInfos] as [palloc0] leaves it. *)
Definition zero_info : fts_segment_info :=
  mk_info None None no_result FTS_PROBE_SEGMENT 0 0 0 0 0 None 0 0 PM_NOT_IN_RESTART 0.

(** The loop of [FtsWalRepInitProbeContext]; the numbers are [fts_index] and
    [num_pairs]. *)
Fixpoint init_pairs (cdbs rows : list GpSegConfigEntry) (fts_index num_pairs : Z)
    (perSegInfos : list fts_segment_info) : outcome (list fts_segment_info * Z) :=
  match rows with
  | [] => Ok (perSegInfos, num_pairs)
  | primary :: rows =>
      if negb (SEGMENT_IS_ACTIVE_PRIMARY primary) then
        init_pairs cdbs rows fts_index num_pairs perSegInfos
      else
        match FtsGetPeerSegment cdbs primary.(segindex) primary.(dbid) with
        | None => init_pairs cdbs rows fts_index (num_pairs - 1) perSegInfos
        | Some mirror =>
            i ← zget perSegInfos fts_index;
            let i := set_pair (Some primary) (Some mirror)
                       (set_xlog 0 (set_restart PM_NOT_IN_RESTART
                          (set_state FTS_PROBE_SEGMENT (set_result no_result i)))) in
            perSegInfos ← zset perSegInfos fts_index i;
            init_pairs cdbs rows (fts_index + 1) num_pairs perSegInfos
        end
  end.

(** The pairs that are looked at afterwards: the first [num_pairs]. *)
Definition FtsWalRepInitProbeContext (cdbs : CdbComponentDatabases)
    : outcome (list fts_segment_info) :=
  '(perSegInfos, num_pairs) ←
     init_pairs cdbs.(segment_db_info) cdbs.(segment_db_info) 0 cdbs.(total_segments)
       (replicate (Z.to_nat cdbs.(total_segments)) zero_info);
  mem_read perSegInfos 0 num_pairs.

(** The state of the main loop. *)
Record Probe := mk_probe {
  perSegInfos : list fts_segment_info;
  PollFds : list Z;
  cluster : Cluster;
  is_updated : bool
}.

(** One pass of the main loop. *)
Definition probe_pass (cfg : FtsSettings) (e : Events) (p : Probe) : outcome Probe :=
  l ← ftsConnect e p.(perSegInfos);
  '(fds, l) ← ftsPoll cfg e p.(PollFds) l;
  l ← ftsSend e l;
  l ← ftsReceive e l;
  l ← processRetry cfg e l;
  '(l, w, updated) ← processResponse l p.(cluster);
  Ok (mk_probe l fds w (p.(is_updated) || updated)).

(** The main loop, for as many passes as there are answers. *)
Fixpoint probe_loop (cfg : FtsSettings) (es : list Events) (p : Probe) : outcome Probe :=
  match es with
  | [] => Ok p
  | e :: es' => if allDone p.(perSegInfos) then Ok p
                else p ← probe_pass cfg e p; probe_loop cfg es' p
  end.

(** The cycle up to and including the passes that are answered. *)
Definition FtsWalRepMessageSegments (cfg : FtsSettings) (cdbs : CdbComponentDatabases)
    (es : list Events) (w : Cluster) : outcome Probe :=
  l ← FtsWalRepInitProbeContext cdbs;
  probe_loop cfg es
    (mk_probe l (replicate (Z.to_nat cdbs.(total_segments)) 0) w false).

