(* ===== verification/FtsCycle.v ===== *)
(** * What a probe cycle does to the configuration

    On the model of [FtsProbe]: for every sequence of answers of libpq, [poll] and
    the clock, a cycle raises no error, keeps the assertions of the code and
    changes the catalog only as a failover or a change of a mirror does. *)

From Stdlib Require Import ZArith String Ascii.
From stdpp Require Import base list gmap.
From S2P Require Import Prelude FtsProbe.

(** ** What holds of a pair during a cycle *)

(** The message that a pair is busy with. *)
Inductive Phase := Probing | Unsyncing | Promoting | Finished.

#[export] Instance Phase_eq_dec : EqDecision Phase.
Proof. solve_decision. Defined.

Definition phase (s : FtsMessageState) : Phase :=
  match s with
  | FTS_PROBE_SEGMENT | FTS_PROBE_RETRY_WAIT | FTS_PROBE_SUCCESS | FTS_PROBE_FAILED => Probing
  | FTS_SYNCREP_OFF_SEGMENT | FTS_SYNCREP_OFF_RETRY_WAIT
  | FTS_SYNCREP_OFF_SUCCESS | FTS_SYNCREP_OFF_FAILED => Unsyncing
  | FTS_PROMOTE_SEGMENT | FTS_PROMOTE_RETRY_WAIT
  | FTS_PROMOTE_SUCCESS | FTS_PROMOTE_FAILED => Promoting
  | FTS_RESPONSE_PROCESSED => Finished
  end.

(** The answer recorded for a pair. *)
Definition result_ok (i : fts_segment_info) : Prop :=
  if IsFtsMessageStateSuccess i.(state) then
    i.(result).(isPrimaryAlive) = true /\
    (i.(result).(isInSync) = true -> i.(result).(isMirrorAlive) = true)
  else i.(result) = no_result.

(** The segments that a pair names: the first gets the messages. *)
Definition names (p m : GpSegConfigEntry) (i : fts_segment_info) : Prop :=
  match phase i.(state) with
  | Probing | Unsyncing => i.(primary_cdbinfo) = Some p /\ i.(mirror_cdbinfo) = Some m
  | Promoting =>
      (i.(primary_cdbinfo) = Some p /\ i.(mirror_cdbinfo) = Some m) \/
      (i.(primary_cdbinfo) = Some m /\ i.(mirror_cdbinfo) = Some p)
  | Finished => True
  end.

Record good (cfg : FtsSettings) (p m : GpSegConfigEntry) (i : fts_segment_info) : Prop := {
  good_count : 0 <= i.(retry_count) <= cfg.(gp_fts_probe_retries);
  good_names : names p m i;
  good_result : result_ok i;
  good_conn : i.(conn) = None -> i.(poll_events) = 0 /\ i.(poll_revents) = 0;
  good_idle : is_messaging i.(state) || ftsResponseReady i = false -> i.(conn) = None
}.

(** What the theorems ask of the answers: an object for every connection, the
    results of [PQconnectPoll] that libpq has, results with as many columns as they
    say, and primaries that call a mirror in sync only when it is up. *)
Definition proper_result (r : PGresult) : Prop :=
  Forall (fun row => zlen row = r.(nfields)) r.(tuples).

Definition honest_result (r : PGresult) : Prop :=
  response_flag r Anum_fts_message_response_is_in_sync = Ok true ->
  response_flag r Anum_fts_message_response_is_mirror_up = Ok true.

Record libpq_ok (ev : LibpqEvents) : Prop := {
  start_ok : ev.(connectStart) <> None;
  poll_ok : fst ev.(connectPoll) <> PGRES_POLLING_ACTIVE;
  answer_ok : forall r, fst ev.(getResult) = Some r -> proper_result r /\ honest_result r
}.

Definition events_ok (e : Events) : Prop :=
  (forall k, libpq_ok (e.(libpq) k)) /\ e.(polled) <> PollFailed.

(** *** Loops over pairs *)

(** A step that keeps [P] of every pair, as [Forall2]. *)
Lemma each_forall {A B} (P Q : B -> A -> Prop) f bs l :
  (forall k b a, P b a -> exists a', f k a = Ok a' /\ Q b a') ->
  Forall2 P bs l -> forall k, exists l', each f k l = Ok l' /\ Forall2 Q bs l'.
Proof.
  intros Hf HF. induction HF as [|b a bs l Hba HF IH]; intros k; [by exists []|].
  destruct (Hf k b a Hba) as (a' & Ha & HQ). destruct (IH (S k)) as (l' & Hl & HF').
  exists (a' :: l'). cbn [each]. rewrite Ha. cbn [mbind outcome_bind]. rewrite Hl.
  split; [done|by constructor].
Qed.

(** *** The steps of a pass keep a pair good *)

Section Steps.
Context (cfg : FtsSettings) (p m : GpSegConfigEntry).

Local Notation good := (good cfg p m).

(** A state to which the steps before the answer lead. *)
Definition unanswered (ph : Phase) (i : fts_segment_info) : Prop :=
  good i /\ phase i.(state) = ph /\ IsFtsMessageStateSuccess i.(state) = false.

Definition answered (ph : Phase) (i : fts_segment_info) : Prop :=
  good i /\ phase i.(state) = ph.

Lemma fail_ok ph i :
  good i -> phase i.(state) = ph -> IsFtsMessageStateSuccess i.(state) = false ->
  i.(state) <> FTS_RESPONSE_PROCESSED -> i.(conn) <> None ->
  exists i', fail i = Ok i' /\ unanswered ph i' /\ i'.(conn) = i.(conn) /\
    IsFtsMessageStateFailed i'.(state) = true /\ i' = set_state i'.(state) i.
Proof.
  intros [Hc Hn Hr He Hi] Hp Hs Hd Hconn. unfold fail.
  destruct i as [pc mc r s pe pr fd st rs cn rc xl rst tc]; simpl in *.
  unfold names, result_ok in *; simpl in *.
  destruct s; try done; simpl in *;
    (eexists; split; [reflexivity|]; split_and!; try reflexivity;
     split_and!; simpl; [|done|done]; constructor; simpl; done).
Qed.

Lemma good_unconnected i : good i -> waits i = true -> i.(conn) <> None.
Proof.
  intros [_ _ _ He _] Hw Hc. destruct (He Hc) as [E _]. unfold waits in Hw.
  by rewrite E in Hw.
Qed.

(** Closing: what a change of the connection, the events and the timers keeps. *)
Lemma good_conn_change i i' :
  good i -> i'.(conn) <> None ->
  i'.(state) = i.(state) -> i'.(result) = i.(result) -> i'.(retry_count) = i.(retry_count) ->
  i'.(primary_cdbinfo) = i.(primary_cdbinfo) -> i'.(mirror_cdbinfo) = i.(mirror_cdbinfo) ->
  is_messaging i.(state) || ftsResponseReady i = true ->
  good i'.
Proof.
  intros [Hc Hn Hr He Hi] Hconn Es Er Ec Ep Em Hm.
  constructor; unfold names, result_ok, ftsResponseReady in *;
    rewrite ?Es, ?Er, ?Ec, ?Ep, ?Em; try done.
  by rewrite Hm.
Qed.

Lemma messaging_states s : is_messaging s = true ->
  IsFtsMessageStateSuccess s = false /\ s <> FTS_RESPONSE_PROCESSED.
Proof. by destruct s. Qed.

(** A new connection makes a messaging pair wait for its socket. *)
Lemma start_ok_good ev ph i :
  libpq_ok ev -> unanswered ph i -> is_messaging i.(state) = true -> i.(conn) = None ->
  exists i' ok, ftsConnectStart ev i = Ok (i', ok) /\ unanswered ph i' /\
    i'.(conn) <> None /\ i'.(state) = i.(state) /\ i'.(retry_count) = i.(retry_count) /\
    (ok = true -> i'.(poll_events) = POLLOUT /\ i'.(startTime) = ev.(startClock) /\
       i'.(conn) = ev.(connectStart)).
Proof.
  intros [Hs _ _] (Hg & Hp & Hq) Hm Hn. unfold ftsConnectStart.
  assert (exists q, i.(primary_cdbinfo) = Some q) as [q Eq].
  { destruct Hg as [_ Hnm _ _ _]. unfold names in Hnm.
    destruct i.(state); simpl in *; try done; destruct_or?; destruct_and?; eauto. }
  rewrite Eq. cbn [deref mbind outcome_bind].
  destruct ev.(connectStart) as [c|]; [|done].
  destruct (good_conn _ _ _ _ Hg Hn) as [He _].
  assert (Hmr : is_messaging i.(state) || ftsResponseReady i = true) by by rewrite Hm.
  destruct c.(conn_status) eqn:Ec;
    (do 2 eexists; split; [reflexivity|]; split_and!;
      [split_and!; simpl; [|done|done]; by eapply (good_conn_change i)
      |done|done|done|intros ?; simpl; rewrite ?He; done]).
Qed.

Lemma restart_good ph st i : unanswered ph i -> unanswered ph (set_restart st i).
Proof. intros ([? ? ? ? ?] & ? & ?). by split_and!. Qed.

Lemma check_restart_good ph msg i :
  unanswered ph i -> unanswered ph (checkIfFailedDueToNormalRestart msg i) /\
  (checkIfFailedDueToNormalRestart msg i).(state) = i.(state) /\
  (checkIfFailedDueToNormalRestart msg i).(retry_count) = i.(retry_count).
Proof.
  intros H. unfold checkIfFailedDueToNormalRestart.
  assert (Hx : forall z st, unanswered ph (set_xlog z (set_restart st i))).
  { intros z st. destruct H as ([? ? ? ? ?] & ? & ?). by split_and!. }
  repeat case_match; split_and!; auto using restart_good.
Qed.

Lemma connect_good ev ph i :
  libpq_ok ev -> unanswered ph i ->
  exists i', connect_segment ev i = Ok i' /\ unanswered ph i'.
Proof.
  intros Hev H. unfold connect_segment.
  destruct (connected i.(conn)); [eauto|].
  destruct (is_messaging i.(state)) eqn:Hm; [|eauto].
  pose proof (restart_good ph PM_NOT_IN_RESTART i H) as H'.
  set (j := set_restart PM_NOT_IN_RESTART i) in *.
  assert (Hj : is_messaging j.(state) = true) by done.
  destruct (messaging_states _ Hj) as [Hq Hd].
  change (conn i) with (conn j). destruct (conn j) as [c0|] eqn:Ec.
  - destruct (Z.land _ _ =? 0); [eauto|].
    destruct ev.(connectPoll) as [pl c] eqn:Epl.
    assert (Hc : forall i', i'.(conn) = Some c -> i'.(state) = j.(state) ->
      i'.(result) = j.(result) -> i'.(retry_count) = j.(retry_count) ->
      i'.(primary_cdbinfo) = j.(primary_cdbinfo) -> i'.(mirror_cdbinfo) = j.(mirror_cdbinfo) ->
      unanswered ph i').
    { intros i' E1 E2 E3 E4 E5 E6. destruct H' as (Hg & Hp & _). unfold unanswered.
      rewrite E2. split_and!; try done. apply (good_conn_change j); try done; [by rewrite E1|].
      by rewrite Hj. }
    destruct pl; try (eexists; split; [reflexivity|]; by apply Hc).
    + destruct (Hc (set_conn (Some c) j)) as (Hg & Hp & Hq'); try done.
      destruct (fail_ok ph _ Hg Hp Hq') as (i' & Ei & Hi' & _); [done..|].
      rewrite Ei. cbn [mbind outcome_bind]. eexists; split; [reflexivity|].
      by apply check_restart_good.
    + destruct Hev as [_ Hp _]. by rewrite Epl in Hp.
  - destruct (start_ok_good ev ph j Hev H' Hj Ec) as (i' & ok & -> & Hi' & Hcn & Hst & _).
    cbn [mbind outcome_bind]. destruct ok; [eauto|].
    destruct Hi' as (Hg & Hp & Hq').
    destruct (fail_ok ph i' Hg Hp Hq') as (i2 & -> & Hi2 & _); [by rewrite Hst|done|eauto].
Qed.

Lemma timers_good ph i i' :
  unanswered ph i -> i'.(state) = i.(state) -> i'.(result) = i.(result) ->
  i'.(retry_count) = i.(retry_count) -> i'.(conn) = i.(conn) ->
  i'.(primary_cdbinfo) = i.(primary_cdbinfo) -> i'.(mirror_cdbinfo) = i.(mirror_cdbinfo) ->
  (i.(conn) = None -> i'.(poll_events) = i.(poll_events) /\
                      i'.(poll_revents) = i.(poll_revents)) ->
  unanswered ph i'.
Proof.
  intros ([Hc Hn Hr He Hi] & Hp & Hq) Es Er Ec En Ep Em Hev.
  unfold unanswered. rewrite Es. split_and!; try done.
  constructor; unfold names, result_ok, ftsResponseReady in *;
    rewrite ?Es, ?Er, ?Ec, ?En, ?Ep, ?Em; try done.
  intros E. destruct (He E), (Hev E). split; congruence.
Qed.

(** The states that can fail are those of a pair with a connection. *)
Lemma busy_state ph i : unanswered ph i -> i.(conn) <> None -> i.(state) <> FTS_RESPONSE_PROCESSED.
Proof.
  intros ([_ _ _ _ Hi] & _ & _) Hc E. apply Hc, Hi. unfold ftsResponseReady. by rewrite E.
Qed.

Lemma fail_good ph i :
  unanswered ph i -> i.(conn) <> None ->
  exists i', fail i = Ok i' /\ unanswered ph i' /\ i'.(conn) = i.(conn) /\
    IsFtsMessageStateFailed i'.(state) = true /\ i' = set_state i'.(state) i.
Proof.
  intros H Hc. pose proof (busy_state ph i H Hc). destruct H as (? & ? & ?).
  by apply fail_ok.
Qed.

Lemma timeout_good now ph i :
  unanswered ph i -> i.(conn) <> None ->
  exists i', ftsCheckTimeout cfg now i = Ok i' /\ unanswered ph i'.
Proof.
  intros H Hc. unfold ftsCheckTimeout. case_match; [|eauto].
  destruct (fail_good ph (set_timeout_count 0 i)) as (i' & E & Hi' & _); [|done|eauto].
  by apply (timers_good ph i).
Qed.

Lemma poll_good revents nready now ph i :
  unanswered ph i -> (waits i = true -> 0 <= i.(fd_index) < zlen revents) ->
  exists i', poll_segment cfg revents nready now i = Ok i' /\ unanswered ph i'.
Proof.
  intros H Hfd. unfold poll_segment. destruct (waits i) eqn:Hw; [|eauto].
  pose proof (good_unconnected i (proj1 H) Hw) as Hc.
  destruct (zget_ok revents i.(fd_index) (Hfd eq_refl)) as [r ->]. cbn [mbind outcome_bind].
  set (j := set_revents r i).
  assert (Hj : unanswered ph j) by by apply (timers_good ph i).
  assert (exists i1, (if negb (Z.land r j.(poll_events) =? 0) then Ok (set_events 0 j)
         else if negb (Z.land r (Z.lor POLLHUP POLLERR) =? 0) then
           i ← fail j; _ ← deref i.(conn); Ok i
         else if negb (r =? 0) then
           i ← fail j; _ ← deref i.(conn); Ok i
         else Ok j) = Ok i1 /\ unanswered ph i1 /\ i1.(conn) <> None) as (i1 & -> & H1 & Hc1).
  { destruct (fail_good ph j Hj Hc) as (i1 & E1 & H1 & Ec1 & _).
    assert (deref i1.(conn) <> Ub).
    { rewrite Ec1. change (conn j) with (conn i). by destruct (conn i). }
    rewrite !E1. cbn [mbind outcome_bind].
    assert (exists c, deref i1.(conn) = Ok c) as [c ->] by (destruct (conn i1); eauto; done).
    cbn [mbind outcome_bind].
    repeat case_match; eexists; split_and!; try reflexivity; try done; try (by rewrite Ec1).
    by apply (timers_good ph j). }
  cbn [mbind outcome_bind].
  match goal with |- exists i', ftsCheckTimeout cfg now ?x = _ /\ _ => set (i2 := x) end.
  apply timeout_good; unfold i2; case_match; try done. by apply (timers_good ph i1).
Qed.

Lemma send_good ev ph i :
  unanswered ph i -> exists i', send_segment ev i = Ok i' /\ unanswered ph i'.
Proof.
  intros H. unfold send_segment. destruct (is_messaging i.(state)) eqn:Hm; [|eauto].
  destruct (connected i.(conn)) eqn:Hc; [|eauto]. simpl.
  destruct i.(conn) as [c|] eqn:Ec; [|done]. cbn [deref mbind outcome_bind].
  case_match; [eauto|].
  assert (exists q, i.(primary_cdbinfo) = Some q) as [q ->].
  { destruct H as ([_ Hnm _ _ _] & _). unfold names in Hnm.
    destruct i.(state); simpl in *; try done; destruct_or?; destruct_and?; eauto. }
  cbn [deref mbind outcome_bind]. destruct ev.(sendQuery) as [sent c'].
  assert (Hg : forall i', i'.(conn) = Some c' -> i'.(state) = i.(state) ->
      i'.(result) = i.(result) -> i'.(retry_count) = i.(retry_count) ->
      i'.(primary_cdbinfo) = i.(primary_cdbinfo) -> i'.(mirror_cdbinfo) = i.(mirror_cdbinfo) ->
      unanswered ph i').
  { intros i' E1 E2 E3 E4 E5 E6. destruct H as (Hg & Hp & Hq). unfold unanswered.
    rewrite E2. split_and!; try done. apply (good_conn_change i); try done; [by rewrite E1|].
    by rewrite Hm. }
  destruct sent; [eexists; split; [reflexivity|]; by apply Hg|].
  destruct (fail_good ph (set_conn (Some c') i)) as (i' & E & Hi' & _); [by apply Hg|done|].
  eauto.
Qed.

Lemma flag_ok r n : zlen r.(tuples) = 1 -> proper_result r -> 0 <= n < r.(nfields) ->
  exists b, response_flag r n = Ok b.
Proof.
  intros Hl Hp Hn. unfold response_flag.
  destruct (zget_ok r.(tuples) 0) as [row Er]; [lia|]. rewrite Er. cbn [mbind outcome_bind].
  apply zget_inv in Er as (_ & Er).
  pose proof (proj1 (Forall_lookup _ _) Hp _ _ Er) as Hrow. simpl in Hrow.
  destruct (zget_ok row n) as [b ->]; [lia|]. eauto.
Qed.

Lemma record_ok r i :
  proper_result r -> honest_result r -> nfields r = Natts_fts_message_response ->
  zlen r.(tuples) = FTS_MESSAGE_RESPONSE_NTUPLES ->
  exists res, probeRecordResponse r i = Ok (set_result res i) /\
    res.(isPrimaryAlive) = true /\ (res.(isInSync) = true -> res.(isMirrorAlive) = true).
Proof.
  intros Hp Hh Hn Ht. unfold probeRecordResponse, honest_result in *.
  destruct (flag_ok r Anum_fts_message_response_is_mirror_up) as [b0 E0]; [done..|by rewrite Hn|].
  destruct (flag_ok r Anum_fts_message_response_is_in_sync) as [b1 E1]; [done..|by rewrite Hn|].
  destruct (flag_ok r Anum_fts_message_response_is_syncrep_enabled) as [b2 E2]; [done..|by rewrite Hn|].
  destruct (flag_ok r Anum_fts_message_response_is_role_mirror) as [b3 E3]; [done..|by rewrite Hn|].
  destruct (flag_ok r Anum_fts_message_response_request_retry) as [b4 E4]; [done..|by rewrite Hn|].
  rewrite E0, E1, E2, E3, E4. eexists. split; [reflexivity|]. simpl. split; [done|].
  intros ->. rewrite E0, E1 in Hh. specialize (Hh eq_refl). congruence.
Qed.

Lemma success_good ph res i :
  unanswered ph i -> is_messaging i.(state) = true -> i.(conn) <> None ->
  res.(isPrimaryAlive) = true -> (res.(isInSync) = true -> res.(isMirrorAlive) = true) ->
  exists s, nextSuccessState i.(state) = Ok s /\
    answered ph (set_state s (set_result res i)) /\ IsFtsMessageStateSuccess s = true.
Proof.
  intros ([Hc Hn Hr He Hi] & Hp & Hq) Hm Hcn Ha Hh.
  destruct i as [pc mc r s pe pr fd st rs cn rc xl rst tc]; simpl in *.
  unfold names, result_ok in *; simpl in *.
  destruct s; try done; simpl in *;
    (eexists; split; [reflexivity|]; split; [|done]; split; [|done]; constructor; simpl; done).
Qed.

Lemma receive_good ev ph i :
  libpq_ok ev -> unanswered ph i ->
  exists i', receive_segment ev i = Ok i' /\ answered ph i'.
Proof.
  intros Hev H. unfold receive_segment.
  assert (H' : answered ph i) by (destruct H as (? & ? & ?); by split).
  destruct (is_messaging i.(state)) eqn:Hm; [|eauto]. case_match; [eauto|].
  assert (Hg : forall c', unanswered ph (set_conn (Some c') i)).
  { intros c'. destruct H as (Hg & Hp & Hq). split_and!; try done.
    apply (good_conn_change i); try done. by rewrite Hm. }
  assert (Hf : forall c', exists i', fail (set_conn (Some c') i) = Ok i' /\ answered ph i').
  { intros c'. destruct (fail_good ph (set_conn (Some c') i)) as (i' & E & (? & ? & ?) & _);
      [by apply Hg|done|]. exists i'. by split_and!. }
  destruct ev.(consumeInput) as [cons c1]. destruct cons; simpl; [|apply Hf].
  destruct ev.(isBusy) as [busy c2]. destruct busy.
  { eexists; split; [reflexivity|]. destruct (Hg c2) as (? & ? & ?). by split. }
  destruct ev.(getResult) as [res c3] eqn:Eg. change (set_conn (Some c3) _) with (set_conn (Some c3) i).
  destruct res as [r|]; [|apply Hf]. destruct (answer_ok _ Hev r) as [Hp Hh]; [by rewrite Eg|].
  assert (Hs : exists i', (if negb (tuples_ok r) then fail (set_conn (Some c3) i)
    else if negb (nfields r =? Natts_fts_message_response) ||
            negb (zlen r.(tuples) =? FTS_MESSAGE_RESPONSE_NTUPLES)
    then fail (set_conn (Some c3) i)
    else i ← probeRecordResponse r (set_conn (Some c3) i);
         s ← nextSuccessState i.(state); Ok (set_state s i)) = Ok i' /\ answered ph i').
  { case_match; [apply Hf|]. case_match; [apply Hf|].
    destruct (record_ok r (set_conn (Some c3) i)) as (res & -> & Hpa & Hin); try done; try lia.
    cbn [mbind outcome_bind].
    destruct (success_good ph res (set_conn (Some c3) i)) as (s & Es & Ha & _); try done.
    change (state (set_result res (set_conn (Some c3) i))) with (state (set_conn (Some c3) i)).
    rewrite Es. eauto. }
  destruct c3.(conn_status); first [exact Hs|apply Hf].
Qed.

End Steps.

(** *** The assertions of [processResponse] *)

(** The assertions of [updateConfiguration] and, for both segments, of
    [probeWalRepUpdateConfig]. *)
Definition updateConfiguration_asserts (primary mirror : GpSegConfigEntry)
    (newPrimaryRole : Z) (IsInSync IsPrimaryAlive IsMirrorAlive : bool) : bool :=
  implb (newPrimaryRole =? GP_SEGMENT_CONFIGURATION_ROLE_MIRROR)
    (SEGMENT_IS_IN_SYNC mirror && negb IsInSync && negb IsPrimaryAlive) &&
  (primary.(mode) =? mirror.(mode)) &&
  implb IsInSync (IsPrimaryAlive && IsMirrorAlive).

(** The assertions on the way to the changes of the configuration; those about a
    primary that answers as a mirror are not among them. *)
Definition processResponse_asserts (cfg : FtsSettings) (i : fts_segment_info) : bool :=
  if negb (ftsResponseReady i) then true
  else
    match i.(primary_cdbinfo), i.(mirror_cdbinfo) with
    | Some primary, Some mirror =>
        let IsPrimaryAlive := i.(result).(isPrimaryAlive) in
        let IsMirrorAlive := if IsPrimaryAlive then i.(result).(isMirrorAlive)
                             else SEGMENT_IS_ALIVE mirror in
        let IsInSync := if IsPrimaryAlive then i.(result).(isInSync) else false in
        implb (IsFtsMessageStateFailed i.(state))
          (i.(retry_count) =? cfg.(gp_fts_probe_retries)) &&
        implb IsInSync (IsPrimaryAlive && IsMirrorAlive) &&
        match i.(state) with
        | FTS_PROBE_SUCCESS =>
            IsPrimaryAlive &&
            updateConfiguration_asserts primary mirror GP_SEGMENT_CONFIGURATION_ROLE_PRIMARY
              IsInSync IsPrimaryAlive IsMirrorAlive
        | FTS_PROBE_FAILED =>
            match i.(restart_state) with
            | PM_IN_RESETTING | PM_IN_RECOVERY_MAKING_PROGRESS => true
            | _ =>
                negb IsPrimaryAlive &&
                implb (SEGMENT_IS_IN_SYNC mirror)
                  (SEGMENT_IS_IN_SYNC primary &&
                   updateConfiguration_asserts primary mirror
                     GP_SEGMENT_CONFIGURATION_ROLE_MIRROR IsInSync IsPrimaryAlive IsMirrorAlive)
            end
        | _ => true
        end
    | _, _ => false
    end.

(** *** Pairs of the configuration *)

(** The values that the catalog columns have. *)
Definition columns_ok (e : GpSegConfigEntry) : Prop :=
  (e.(role) = GP_SEGMENT_CONFIGURATION_ROLE_PRIMARY \/
   e.(role) = GP_SEGMENT_CONFIGURATION_ROLE_MIRROR) /\
  (e.(status) = GP_SEGMENT_CONFIGURATION_STATUS_UP \/
   e.(status) = GP_SEGMENT_CONFIGURATION_STATUS_DOWN) /\
  (e.(mode) = GP_SEGMENT_CONFIGURATION_MODE_INSYNC \/
   e.(mode) = GP_SEGMENT_CONFIGURATION_MODE_NOTINSYNC).

(** A primary and its mirror: the primary is up, both have one mode, and a mirror
    in sync is up. *)
Record pair_ok (p m : GpSegConfigEntry) : Prop := {
  pair_columns : columns_ok p /\ columns_ok m;
  pair_content : p.(segindex) = m.(segindex);
  pair_roles : p.(role) = GP_SEGMENT_CONFIGURATION_ROLE_PRIMARY /\
               m.(role) = GP_SEGMENT_CONFIGURATION_ROLE_MIRROR;
  pair_up : p.(status) = GP_SEGMENT_CONFIGURATION_STATUS_UP;
  pair_mode : p.(mode) = m.(mode);
  pair_sync : SEGMENT_IS_IN_SYNC m = true -> SEGMENT_IS_ALIVE m = true
}.

(** A row with new values for what the prober changes. *)
Definition reconfigured (e : GpSegConfigEntry) (newrole : Z) (alive insync : bool)
    : GpSegConfigEntry :=
  mk_config e.(dbid) e.(segindex) newrole e.(preferred_role)
    (if insync then GP_SEGMENT_CONFIGURATION_MODE_INSYNC
     else GP_SEGMENT_CONFIGURATION_MODE_NOTINSYNC)
    (if alive then GP_SEGMENT_CONFIGURATION_STATUS_UP
     else GP_SEGMENT_CONFIGURATION_STATUS_DOWN).

(** What one cycle may do to the rows of a primary and its mirror. *)
Inductive pair_change (p m : GpSegConfigEntry) : GpSegConfigEntry -> GpSegConfigEntry -> Prop :=
  | change_none : pair_change p m p m
  | change_mirror alive insync :
      (insync = true -> alive = true) ->
      pair_change p m
        (reconfigured p GP_SEGMENT_CONFIGURATION_ROLE_PRIMARY true insync)
        (reconfigured m GP_SEGMENT_CONFIGURATION_ROLE_MIRROR alive insync)
  | change_failover :
      SEGMENT_IS_IN_SYNC p = true -> SEGMENT_IS_IN_SYNC m = true -> SEGMENT_IS_ALIVE m = true ->
      pair_change p m
        (reconfigured p GP_SEGMENT_CONFIGURATION_ROLE_MIRROR false false)
        (reconfigured m GP_SEGMENT_CONFIGURATION_ROLE_PRIMARY true false).

Definition marked_down (w : Cluster) (db : Z) : bool :=
  FTS_STATUS_IS_DOWN (default 0 (w.(fts_status) !! db)).

(** The rows of a pair in the catalog, and their bits in shared memory. *)
Definition pair_rows (w : Cluster) (p m p' m' : GpSegConfigEntry) : Prop :=
  w.(gp_segment_configuration) !! p.(dbid) = Some p' /\
  w.(gp_segment_configuration) !! m.(dbid) = Some m' /\
  marked_down w p.(dbid) = negb (SEGMENT_IS_ALIVE p') /\
  marked_down w m.(dbid) = negb (SEGMENT_IS_ALIVE m').

Definition pair_world (w : Cluster) (ph : Phase) (p m : GpSegConfigEntry) : Prop :=
  exists p' m', pair_rows w p m p' m' /\ pair_change p m p' m' /\
    (ph = Probing -> p' = p /\ m' = m).

Definition dbid_ok (e : GpSegConfigEntry) : Prop := 0 <= e.(dbid) < FTS_MAX_DBS.

(** Two states of the cluster agree on a segment. *)
Definition same_at (db : Z) (w w' : Cluster) : Prop :=
  w'.(gp_segment_configuration) !! db = w.(gp_segment_configuration) !! db /\
  w'.(fts_status) !! db = w.(fts_status) !! db.

Lemma same_at_world w w' ph p m :
  same_at p.(dbid) w w' -> same_at m.(dbid) w w' -> pair_world w ph p m -> pair_world w' ph p m.
Proof.
  intros [A1 A2] [B1 B2] (p' & m' & (R1 & R2 & R3 & R4) & Hc & Hp).
  exists p', m'. unfold pair_rows, marked_down in *. by rewrite A1, A2, B1, B2.
Qed.

Lemma down_bit s : FTS_STATUS_IS_DOWN (FTS_STATUS_SET_DOWN s) = true.
Proof.
  unfold FTS_STATUS_IS_DOWN, FTS_STATUS_SET_DOWN, FTS_STATUS_DOWN, u8.
  change (Z.shiftl 1 0) with (2 ^ 0). rewrite land_mask by lia.
  rewrite Z.mod_pow2_bits_low by lia. rewrite Z.lor_spec. by rewrite orb_true_r.
Qed.

Lemma up_bit s : FTS_STATUS_IS_DOWN (FTS_STATUS_SET_UP s) = false.
Proof.
  unfold FTS_STATUS_IS_DOWN, FTS_STATUS_SET_UP, FTS_STATUS_DOWN, u8.
  change (Z.shiftl 1 0) with (2 ^ 0). rewrite land_mask by lia.
  rewrite Z.mod_pow2_bits_low by lia. rewrite Z.land_spec, Z.lnot_spec by lia.
  by rewrite andb_false_r.
Qed.

(** *** Changing the rows of a pair *)

Lemma reconfigured_same e r alive insync :
  columns_ok e -> e.(role) = r -> SEGMENT_IS_ALIVE e = alive -> SEGMENT_IS_IN_SYNC e = insync ->
  reconfigured e r alive insync = e.
Proof.
  intros (_ & Hs & Hm) Hr Ha Hi. unfold reconfigured, SEGMENT_IS_ALIVE, SEGMENT_IS_IN_SYNC in *.
  destruct e as [d sg ro pr mo st]; simpl in *. subst. f_equal.
  - by destruct Hm as [-> | ->].
  - by destruct Hs as [-> | ->].
Qed.

(** A history row says what the catalog has. *)
Definition row_matches (w : Cluster) (r : gp_configuration_history) : Prop :=
  exists e, w.(gp_segment_configuration) !! r.(hist_dbid) = Some e /\
    r.(hist_role) = e.(role) /\ r.(hist_status) = e.(status) /\ r.(hist_mode) = e.(mode).

(** The history rows of one change of a pair. *)
Definition appended (w w' : Cluster) (p m : GpSegConfigEntry) : Prop :=
  exists rows, w'.(history) = w.(history) ++ rows /\ NoDup (hist_dbid <$> rows) /\
    Forall (fun r => row_matches w' r /\ (r.(hist_dbid) = p.(dbid) \/ r.(hist_dbid) = m.(dbid)))
      rows.

Lemma status_update_ok db f w : 0 <= db < FTS_MAX_DBS ->
  status_update db f w =
  Ok (mk_cluster w.(gp_segment_configuration) w.(history)
        (<[db := f (default 0 (w.(fts_status) !! db))]> w.(fts_status))).
Proof. intros H. unfold status_update. by replace ((0 <=? db) && (db <? FTS_MAX_DBS)) with true by lia. Qed.

Lemma config_update_ok e seg r alive insync w :
  w.(gp_segment_configuration) !! e.(dbid) = Some e ->
  exists h, probeWalRepUpdateConfig e.(dbid) seg r alive insync w =
  Ok (mk_cluster (<[e.(dbid) := reconfigured e r alive insync]> w.(gp_segment_configuration))
        (w.(history) ++ [h]) w.(fts_status)) /\
  h.(hist_dbid) = e.(dbid) /\ h.(hist_role) = r /\
  h.(hist_status) = (reconfigured e r alive insync).(status) /\
  h.(hist_mode) = (reconfigured e r alive insync).(mode).
Proof.
  intros H. unfold probeWalRepUpdateConfig. rewrite H.
  eexists. split; [reflexivity|]. simpl. by destruct alive, insync.
Qed.

Lemma set_alive_bit (alive : bool) s :
  FTS_STATUS_IS_DOWN ((if alive then FTS_STATUS_SET_UP else FTS_STATUS_SET_DOWN) s) = negb alive.
Proof. destruct alive; [apply up_bit|apply down_bit]. Qed.

Lemma reconfigured_alive e r alive insync :
  SEGMENT_IS_ALIVE (reconfigured e r alive insync) = alive.
Proof. by destruct alive. Qed.

(** The update of one row, or its omission when it would change nothing. *)
Lemma maybe_update_ok (upd : bool) e r alive insync w :
  w.(gp_segment_configuration) !! e.(dbid) = Some e ->
  (upd = false -> reconfigured e r alive insync = e) ->
  exists hs, (if upd then probeWalRepUpdateConfig e.(dbid) e.(segindex) r alive insync w else Ok w) =
    Ok (mk_cluster (<[e.(dbid) := reconfigured e r alive insync]> w.(gp_segment_configuration))
          (w.(history) ++ hs) w.(fts_status)) /\
    (hs = [] \/ exists h, hs = [h] /\ h.(hist_dbid) = e.(dbid) /\ h.(hist_role) = r /\
       h.(hist_status) = (reconfigured e r alive insync).(status) /\
       h.(hist_mode) = (reconfigured e r alive insync).(mode)).
Proof.
  intros He Hs. destruct upd.
  - destruct (config_update_ok e e.(segindex) r alive insync w He) as (h & -> & Hh).
    exists [h]. split; [done|]. right. by exists h.
  - exists []. rewrite (Hs eq_refl), app_nil_r, insert_id by done. destruct w; simpl. eauto.
Qed.

Section Update.
Context (p m : GpSegConfigEntry).
Hypothesis Hpd : dbid_ok p.
Hypothesis Hmd : dbid_ok m.
Hypothesis Hne : p.(dbid) <> m.(dbid).

Lemma update_ok r1 r2 insync alive1 alive2 w :
  pair_rows w p m p m ->
  (insync = SEGMENT_IS_IN_SYNC p -> alive1 = SEGMENT_IS_ALIVE p ->
     reconfigured p r1 alive1 insync = p) ->
  (insync = SEGMENT_IS_IN_SYNC p -> alive2 = SEGMENT_IS_ALIVE m ->
     reconfigured m r2 alive2 insync = m) ->
  exists w' u, updateConfiguration p m r1 r2 insync alive1 alive2 w = Ok (w', u) /\
    pair_rows w' p m (reconfigured p r1 alive1 insync) (reconfigured m r2 alive2 insync) /\
    (forall db, db <> p.(dbid) -> db <> m.(dbid) -> same_at db w w') /\
    appended w w' p m.
Proof.
  intros (R1 & R2 & R3 & R4) Hs1 Hs2. unfold updateConfiguration.
  set (resync := negb (eqb insync (SEGMENT_IS_IN_SYNC p))).
  set (U1 := negb (eqb alive1 (SEGMENT_IS_ALIVE p)) || resync).
  set (U2 := negb (eqb alive2 (SEGMENT_IS_ALIVE m)) || resync).
  assert (H1 : U1 = false -> reconfigured p r1 alive1 insync = p).
  { unfold U1, resync. intros H. apply orb_false_elim in H as [A B].
    apply negb_false_iff, eqb_prop in A, B. auto. }
  assert (H2 : U2 = false -> reconfigured m r2 alive2 insync = m).
  { unfold U2, resync. intros H. apply orb_false_elim in H as [A B].
    apply negb_false_iff, eqb_prop in A, B. auto. }
  destruct (U1 || U2) eqn:EU.
  2:{ apply orb_false_elim in EU as [E1 E2]. exists w, false. rewrite H1, H2 by done.
      split_and!; try done. exists []. rewrite app_nil_r. split_and!; try done. constructor. }
  destruct (maybe_update_ok U1 p r1 alive1 insync w R1 H1) as (h1 & -> & Hh1).
  cbn [mbind outcome_bind].
  set (w1 := mk_cluster (<[dbid p := _]> _) _ _).
  assert (R2' : w1.(gp_segment_configuration) !! m.(dbid) = Some m).
  { unfold w1. simpl. by rewrite lookup_insert_ne by done. }
  destruct (maybe_update_ok U2 m r2 alive2 insync w1 R2' H2) as (h2 & -> & Hh2).
  cbn [mbind outcome_bind]. rewrite status_update_ok by done. cbn [mbind outcome_bind].
  rewrite status_update_ok by done. cbn [mbind outcome_bind].
  do 2 eexists. split; [reflexivity|]. split_and!.
  - unfold pair_rows, marked_down. simpl.
    rewrite (lookup_insert_ne _ m.(dbid) p.(dbid)) by done. rewrite !lookup_insert_eq.
    rewrite (lookup_insert_ne _ m.(dbid) p.(dbid)), lookup_insert_eq by done. simpl.
    by rewrite !set_alive_bit, !reconfigured_alive.
  - intros db Hdp Hdm. unfold same_at. simpl. by rewrite !lookup_insert_ne by done.
  - exists (h1 ++ h2). simpl. rewrite app_assoc. split; [done|].
    assert (Hp : forall h, h.(hist_dbid) = p.(dbid) /\ h.(hist_role) = r1 /\
       h.(hist_status) = (reconfigured p r1 alive1 insync).(status) /\
       h.(hist_mode) = (reconfigured p r1 alive1 insync).(mode) ->
       row_matches (mk_cluster (<[dbid m:=reconfigured m r2 alive2 insync]>
         (<[dbid p:=reconfigured p r1 alive1 insync]> (gp_segment_configuration w)))
         (history w) (fts_status w)) h).
    { intros h (Ed & ? & ? & ?). eexists. rewrite Ed. simpl.
      rewrite lookup_insert_ne, lookup_insert_eq by done. eauto. }
    assert (Hm : forall h, h.(hist_dbid) = m.(dbid) /\ h.(hist_role) = r2 /\
       h.(hist_status) = (reconfigured m r2 alive2 insync).(status) /\
       h.(hist_mode) = (reconfigured m r2 alive2 insync).(mode) ->
       row_matches (mk_cluster (<[dbid m:=reconfigured m r2 alive2 insync]>
         (<[dbid p:=reconfigured p r1 alive1 insync]> (gp_segment_configuration w)))
         (history w) (fts_status w)) h).
    { intros h (Ed & ? & ? & ?). eexists. rewrite Ed. simpl. rewrite lookup_insert_eq. eauto. }
    assert (Hn : forall h h' : gp_configuration_history, h.(hist_dbid) = p.(dbid) ->
      h'.(hist_dbid) = m.(dbid) -> NoDup (hist_dbid <$> [h; h'])).
    { intros h h' E E'. cbn. rewrite E, E'. apply NoDup_cons_2; [|apply NoDup_singleton].
      by rewrite list_elem_of_singleton. }
    destruct Hh1 as [-> | (a & -> & Ha)], Hh2 as [-> | (b & -> & Hb)]; cbn [app]; split.
    + apply NoDup_nil_2.
    + constructor.
    + apply NoDup_singleton.
    + constructor; [|constructor]. split; [by apply Hm|right; apply Hb].
    + apply NoDup_singleton.
    + constructor; [|constructor]. split; [by apply Hp|left; apply Ha].
    + apply Hn; [apply Ha|apply Hb].
    + constructor; [|constructor; [|constructor]].
      * split; [by apply Hp|left; apply Ha].
      * split; [by apply Hm|right; apply Hb].
Qed.

End Update.

(** *** Retries and responses *)

(** What [processRetry] leaves to [processResponse]. *)
Definition exhausted (cfg : FtsSettings) (i : fts_segment_info) : Prop :=
  IsFtsMessageStateFailed i.(state) = true -> i.(retry_count) = cfg.(gp_fts_probe_retries).

Lemma retry_good cfg p m now ph i :
  answered cfg p m ph i ->
  exists i', retry_segment cfg now i = Ok i' /\ answered cfg p m ph i' /\ exhausted cfg i'.
Proof.
  intros ([Hc Hn Hr He Hi] & Hp). unfold retry_segment.
  destruct i as [pc mc r s pe pr fd st rs cn rc xl rst tc].
  unfold names, result_ok, ftsResponseReady in *; simpl in *.
  assert (Hretry : forall s', is_messaging s' || IsFtsMessageStateSuccess s' = false ->
     s' <> FTS_RESPONSE_PROCESSED -> phase s' = ph -> phase s = ph -> rc <> gp_fts_probe_retries cfg ->
     IsFtsMessageStateFailed s' = false ->
     answered cfg p m ph (disconnect (set_retry_start now (set_state s' (set_retry_count (rc + 1)
        (mk_info pc mc r s pe pr fd st rs cn rc xl rst tc)))))).
  { intros s' Hs Hd Hph Hph' Hrc Hf. split; [|done]. constructor; simpl; try done.
    - lia.
    - unfold names in *. simpl. by rewrite Hph, <- Hph'.
    - unfold result_ok. simpl. by destruct s'. }
  assert (Hwait : forall s', is_messaging s' = true -> phase s' = ph -> phase s = ph ->
     IsFtsMessageStateSuccess s = false -> is_messaging s = false ->
     answered cfg p m ph (set_state s' (mk_info pc mc r s pe pr fd st rs cn rc xl rst tc))).
  { intros s' Hs Hph Hph' Hq Hm. split; [|done]. constructor; simpl; try done.
    - unfold names in *. simpl. by rewrite Hph, <- Hph'.
    - unfold result_ok. simpl. rewrite Hq in Hr. destruct (messaging_states _ Hs) as [-> _]. done.
    - by rewrite Hs. }
  assert (Hsame : answered cfg p m ph (mk_info pc mc r s pe pr fd st rs cn rc xl rst tc)) by done.
  assert (Hfail : forall s', s' = match s with
             | FTS_PROBE_SUCCESS | FTS_PROBE_FAILED => FTS_PROBE_RETRY_WAIT
             | FTS_SYNCREP_OFF_FAILED => FTS_SYNCREP_OFF_RETRY_WAIT
             | _ => FTS_PROMOTE_RETRY_WAIT
             end -> phase s' = phase s ->
     let i' := retryForFtsFailed cfg now (mk_info pc mc r s pe pr fd st rs cn rc xl rst tc) in
     answered cfg p m ph i' /\ exhausted cfg i').
  { intros s' Es Ephs. unfold retryForFtsFailed, exhausted. simpl. rewrite <- Es.
    destruct (rc =? gp_fts_probe_retries cfg) eqn:Erc; simpl.
    - split; [done|intros _; lia].
    - split; [|by destruct s; subst s'].
      apply Hretry; try (by destruct s; subst s'); try congruence; lia. }
  destruct s; simpl in *; try (by eexists; split_and!);
    try (eexists; split; [reflexivity|]; by eapply Hfail);
    try (case_match; eexists; split_and!; [done|done|done|done|by apply Hwait|done]).
  destruct Hn as [_ ->]. simpl. destruct (retryRequested r); [|by eexists; split_and!].
  cbn [mbind outcome_bind]. destruct (SEGMENT_IS_ALIVE m); [|by eexists; split_and!].
  eexists; split; [reflexivity|]. by eapply Hfail.
Qed.

Section Respond.
Context (cfg : FtsSettings) (p m : GpSegConfigEntry).
Hypothesis Hretries : 0 <= cfg.(gp_fts_probe_retries).
Hypothesis Hpair : pair_ok p m.
Hypothesis Hpd : dbid_ok p.
Hypothesis Hmd : dbid_ok m.
Hypothesis Hne : p.(dbid) <> m.(dbid).

Lemma next_message_good s i :
  is_messaging s || is_processed s = true ->
  names p m (set_state s i) -> good cfg p m (next_message (set_state s i)).
Proof.
  intros Hs Hn. constructor; simpl; try done.
  unfold result_ok. simpl. by destruct s.
Qed.

Lemma pair_sync_eq : SEGMENT_IS_IN_SYNC p = SEGMENT_IS_IN_SYNC m.
Proof. unfold SEGMENT_IS_IN_SYNC. by rewrite (pair_mode _ _ Hpair). Qed.

Lemma pair_p_alive : SEGMENT_IS_ALIVE p = true.
Proof. unfold SEGMENT_IS_ALIVE. by rewrite (pair_up _ _ Hpair). Qed.

(** A report of a living primary. *)
Lemma report_ok insync alive w :
  pair_world w Probing p m -> (insync = true -> alive = true) ->
  exists w' u, updateConfiguration p m GP_SEGMENT_CONFIGURATION_ROLE_PRIMARY
      GP_SEGMENT_CONFIGURATION_ROLE_MIRROR insync true alive w = Ok (w', u) /\
    (forall ph, ph <> Probing -> pair_world w' ph p m) /\
    (forall db, db <> p.(dbid) -> db <> m.(dbid) -> same_at db w w') /\ appended w w' p m.
Proof.
  intros (p' & m' & R & _ & Hpr) Hs. destruct (Hpr eq_refl) as [-> ->].
  destruct (pair_columns _ _ Hpair) as [C1 C2]. destruct (pair_roles _ _ Hpair) as [R1 R2].
  destruct (update_ok p m Hpd Hmd Hne GP_SEGMENT_CONFIGURATION_ROLE_PRIMARY
     GP_SEGMENT_CONFIGURATION_ROLE_MIRROR insync true alive w R) as (w' & u & E & R' & F & A).
  - intros Hi Ha. by apply reconfigured_same.
  - intros Hi Ha. apply reconfigured_same; try done. by rewrite <- pair_sync_eq.
  - exists w', u. split_and!; try done. intros ph Hph.
    do 2 eexists. split_and!; [exact R'|by constructor|done].
Qed.

Lemma failover_ok w :
  pair_world w Probing p m -> SEGMENT_IS_IN_SYNC m = true ->
  exists w' u, updateConfiguration p m GP_SEGMENT_CONFIGURATION_ROLE_MIRROR
      GP_SEGMENT_CONFIGURATION_ROLE_PRIMARY false false (SEGMENT_IS_ALIVE m) w = Ok (w', u) /\
    (forall ph, ph <> Probing -> pair_world w' ph p m) /\
    (forall db, db <> p.(dbid) -> db <> m.(dbid) -> same_at db w w') /\ appended w w' p m.
Proof.
  intros (p' & m' & R & _ & Hpr) Hs. destruct (Hpr eq_refl) as [-> ->].
  pose proof (pair_sync _ _ Hpair Hs) as Ha. rewrite Ha.
  destruct (update_ok p m Hpd Hmd Hne GP_SEGMENT_CONFIGURATION_ROLE_MIRROR
     GP_SEGMENT_CONFIGURATION_ROLE_PRIMARY false false true w R) as (w' & u & E & R' & F & A).
  - by rewrite pair_sync_eq, Hs.
  - by rewrite pair_sync_eq, Hs.
  - exists w', u. split_and!; try done. intros ph Hph.
    do 2 eexists. split_and!; [exact R'| |done]. constructor; try done. by rewrite pair_sync_eq.
Qed.

Lemma world_later w ph ph' : ph' <> Probing -> pair_world w ph p m -> pair_world w ph' p m.
Proof. intros Hp (p' & m' & ? & ? & _). by exists p', m'. Qed.

(** What a response does to a pair and to the cluster. *)
Definition responded (i i' : fts_segment_info) (w w' : Cluster) : Prop :=
  good cfg p m i' /\ ftsResponseReady i' = false /\
  pair_world w' (phase i'.(state)) p m /\
  (forall db, db <> p.(dbid) -> db <> m.(dbid) -> same_at db w w') /\
  (phase i'.(state) = Probing -> i' = i) /\
  (w' = w \/ phase i.(state) = Probing /\ phase i'.(state) <> Probing /\ appended w w' p m).

Lemma responded_same w i s :
  names p m (set_state s i) -> phase s <> Probing -> is_messaging s || is_processed s = true ->
  pair_world w (phase i.(state)) p m -> responded i (next_message (set_state s i)) w w.
Proof.
  intros Hn Hph Hs Hw. split_and!; try done; [by apply next_message_good| |by eapply world_later|by left].
  by destruct s.
Qed.

Lemma responded_update w w' i i' j s :
  i' = next_message (set_state s j) -> names p m (set_state s j) -> phase s <> Probing ->
  is_messaging s || is_processed s = true -> phase i.(state) = Probing ->
  (forall ph, ph <> Probing -> pair_world w' ph p m) ->
  (forall db, db <> p.(dbid) -> db <> m.(dbid) -> same_at db w w') -> appended w w' p m ->
  responded i i' w w'.
Proof.
  intros -> Hn Hph Hs Hpi Hw HF HA. split_and!; try done.
  - by apply next_message_good.
  - by destruct s.
  - by apply Hw.
  - by right.
Qed.

Lemma names_state i s :
  i.(primary_cdbinfo) = Some p -> i.(mirror_cdbinfo) = Some m -> names p m (set_state s i).
Proof. intros H1 H2. unfold names. simpl. destruct (phase s); auto. Qed.

Lemma success_responds i w :
  good cfg p m i -> i.(state) = FTS_PROBE_SUCCESS -> pair_world w Probing p m ->
  exists i' w' u, respond_segment i w = Ok (i', w', u) /\ responded i i' w w'.
Proof.
  intros [_ Hn Hr _ _] Es Hw. unfold respond_segment, ftsResponseReady.
  unfold names, result_ok in Hn, Hr. rewrite Es in *. simpl in *.
  destruct Hn as [Hi1 Hi2], Hr as [Ha Hh]. rewrite Hi1, Hi2, Ha. cbn [deref mbind outcome_bind].
  destruct (report_ok _ _ w Hw Hh) as (w' & u & E & W & F & A).
  pose proof (fun s => names_state i s Hi1 Hi2) as Hns.
  destruct (isSyncRepEnabled _ && _) eqn:E1; [destruct (retryRequested i.(result)) eqn:E2|
    destruct (isRoleMirror i.(result)) eqn:E3]; simpl; rewrite ?E; cbn [mbind outcome_bind];
    do 3 eexists; (split; [reflexivity|]).
  1,3: by apply responded_same; rewrite ?Es.
  all: by eapply responded_update; rewrite ?Es.
Qed.

Lemma failure_responds i w :
  good cfg p m i -> i.(state) = FTS_PROBE_FAILED -> pair_world w Probing p m ->
  exists i' w' u, respond_segment i w = Ok (i', w', u) /\ responded i i' w w'.
Proof.
  intros [_ Hn Hr _ _] Es Hw. unfold respond_segment, ftsResponseReady.
  unfold names, result_ok in Hn, Hr. rewrite Es in *. simpl in *.
  destruct Hn as [Hi1 Hi2]. rewrite Hi1, Hi2, Hr. cbn [deref mbind outcome_bind no_result isPrimaryAlive].
  pose proof (fun s => names_state i s Hi1 Hi2) as Hns.
  assert (Hdone : exists i' w' u,
    Ok (next_message (set_state FTS_RESPONSE_PROCESSED i), w, false) = Ok (i', w', u) /\
    responded i i' w w').
  { do 3 eexists. split; [reflexivity|]. by apply responded_same; rewrite ?Es. }
  destruct i.(restart_state); try exact Hdone;
    (destruct (SEGMENT_IS_IN_SYNC m) eqn:Hs; [|exact Hdone]);
    destruct (failover_ok w Hw Hs) as (w' & u & -> & W & F & A); cbn [mbind outcome_bind];
    (do 3 eexists; split; [reflexivity|];
     apply (responded_update w w' i _ (set_pair (Some m) (Some p) i) FTS_PROMOTE_SEGMENT);
     try done; [by right|by rewrite Es]).
Qed.

Lemma other_responds i w :
  good cfg p m i -> ftsResponseReady i = true ->
  phase i.(state) <> Probing -> pair_world w (phase i.(state)) p m ->
  exists i' w' u, respond_segment i w = Ok (i', w', u) /\ responded i i' w w'.
Proof.
  intros [_ Hn _ _ _] Hready Hph Hw. unfold respond_segment. rewrite Hready. simpl.
  assert (exists a b, i.(primary_cdbinfo) = Some a /\ i.(mirror_cdbinfo) = Some b) as (a & b & -> & ->).
  { unfold names in Hn. destruct (phase i.(state)) eqn:E; [done| | |];
      try (destruct_or?; destruct_and?; eauto).
    unfold ftsResponseReady in Hready. by destruct i.(state). }
  cbn [deref mbind outcome_bind]. unfold ftsResponseReady in Hready.
  destruct i.(state) eqn:Es; try done; simpl in *; cbn [mbind outcome_bind];
    (do 3 eexists; split; [reflexivity|]; by apply responded_same; rewrite ?Es).
Qed.

Lemma respond_good i w :
  good cfg p m i -> pair_world w (phase i.(state)) p m ->
  exists i' w' u, respond_segment i w = Ok (i', w', u) /\ responded i i' w w'.
Proof.
  intros Hg Hw. destruct (ftsResponseReady i) eqn:Hr.
  - destruct (decide (i.(state) = FTS_PROBE_SUCCESS)) as [E|N1];
      [apply success_responds; by rewrite ?E in *|].
    destruct (decide (i.(state) = FTS_PROBE_FAILED)) as [E|N2];
      [apply failure_responds; by rewrite ?E in *|].
    apply other_responds; try done. unfold ftsResponseReady in Hr. by destruct i.(state).
  - exists i, w, false. unfold respond_segment. rewrite Hr. split; [done|].
    split_and!; try done. by left.
Qed.

(** The assertions hold of a pair that is good and has no retries left. *)
Lemma asserts_good i : good cfg p m i -> exhausted cfg i -> processResponse_asserts cfg i = true.
Proof.
  intros [_ Hn Hr _ _] He. unfold processResponse_asserts.
  destruct (ftsResponseReady i) eqn:Hready; [|done]. simpl.
  unfold exhausted, names, result_ok, ftsResponseReady in *.
  assert (Hmode : (p.(mode) =? m.(mode)) = true) by (rewrite (pair_mode _ _ Hpair); lia).
  assert (Hcnt : implb (IsFtsMessageStateFailed i.(state))
            (i.(retry_count) =? cfg.(gp_fts_probe_retries)) = true).
  { destruct (IsFtsMessageStateFailed _); [|done]. rewrite He by done. simpl. lia. }
  rewrite Hcnt. clear Hcnt He.
  destruct i.(state) eqn:Es; try done; simpl in *; destruct_or?; destruct_and?;
    repeat match goal with H : primary_cdbinfo i = _ |- _ => rewrite H; clear H
                         | H : mirror_cdbinfo i = _ |- _ => rewrite H; clear H end; simpl.
  all: try (rewrite Hr; simpl).
  all: try match goal with H : isPrimaryAlive _ = true |- _ => rewrite H; simpl end.
  all: unfold updateConfiguration_asserts; rewrite ?Hmode; simpl.
  all: try (destruct (isInSync i.(result)); [|done]; simpl;
            match goal with H : true = true -> _ |- _ => by rewrite (H eq_refl) end).
  all: try done.
  destruct i.(restart_state); try done;
    (destruct (SEGMENT_IS_IN_SYNC m) eqn:Hs; [|done]; by rewrite pair_sync_eq, Hs).
Qed.

End Respond.

(** ** All pairs *)

Notation Pair := (GpSegConfigEntry * GpSegConfigEntry)%type.

Definition pair_dbids (pm : Pair) : list Z := [pm.1.(dbid); pm.2.(dbid)].

Definition dbids (pms : list Pair) : list Z := flat_map pair_dbids pms.

Definition pair_wf (pm : Pair) : Prop :=
  pair_ok pm.1 pm.2 /\ dbid_ok pm.1 /\ dbid_ok pm.2.

Lemma Forall2_impl_in {A B} (P Q : A -> B -> Prop) l k :
  Forall2 P l k -> (forall a b, a ∈ l -> b ∈ k -> P a b -> Q a b) -> Forall2 Q l k.
Proof.
  induction 1 as [|a b l k Hab HF IH]; intros H; constructor.
  - apply H; [apply list_elem_of_here..|done].
  - apply IH. intros a' b' Ha Hb. apply H; by apply list_elem_of_further.
Qed.

(** The segments of the pairs that still wait for an answer to the probe. *)
Fixpoint open_dbids (pms : list Pair) (l : list fts_segment_info) : list Z :=
  match pms, l with
  | pm :: pms, i :: l =>
      (if bool_decide (phase i.(state) = Probing) then pair_dbids pm else []) ++ open_dbids pms l
  | _, _ => []
  end.

(** The history since [w0]: one row at most for a segment, which says what the
    catalog now has, and none for the segments in [free]. *)
Definition journal (w0 w : Cluster) (free : list Z) : Prop :=
  exists rows, w.(history) = w0.(history) ++ rows /\ NoDup (hist_dbid <$> rows) /\
    Forall (fun r => row_matches w r /\ r.(hist_dbid) ∉ free) rows.

Lemma open_dbids_sub pms l db : db ∈ open_dbids pms l -> db ∈ dbids pms.
Proof.
  revert l. induction pms as [|pm pms IH]; intros [|i l]; simpl; try (by intros ?%elem_of_nil).
  rewrite elem_of_app. intros [H|H].
  - case_bool_decide; [set_solver|by apply elem_of_nil in H].
  - do 2 apply list_elem_of_further. eauto.
Qed.

Lemma row_matches_same w w' r : same_at r.(hist_dbid) w w' -> row_matches w r -> row_matches w' r.
Proof. intros [E _] (e & He & H). exists e. by rewrite E. Qed.

Lemma journal_weaken w0 w D D' :
  (forall db, db ∈ D' -> db ∈ D) -> journal w0 w D -> journal w0 w D'.
Proof.
  intros H (rows & E & N & F). exists rows. split_and!; try done.
  eapply Forall_impl; [exact F|]. naive_solver.
Qed.

(** A change of a pair whose segments have no rows yet. *)
Lemma journal_append w0 w w' p m D D' :
  journal w0 w D -> p.(dbid) ∈ D -> m.(dbid) ∈ D ->
  p.(dbid) ∉ D' -> m.(dbid) ∉ D' -> (forall db, db ∈ D' -> db ∈ D) ->
  (forall db, db <> p.(dbid) -> db <> m.(dbid) -> same_at db w w') -> appended w w' p m ->
  journal w0 w' D'.
Proof.
  intros (rows & E & N & F) Hp Hm Hp' Hm' Hsub Hfr (rows' & E' & N' & F').
  exists (rows ++ rows'). rewrite E', E, app_assoc. split_and!; [done| |].
  - rewrite fmap_app. apply NoDup_app. split_and!; try done.
    intros db (r & -> & Hr)%list_elem_of_fmap (r' & Er & Hr')%list_elem_of_fmap.
    rewrite Forall_forall in F, F'. destruct (F r Hr) as [_ H1]. destruct (F' r' Hr') as [_ H2].
    destruct H2 as [H2|H2]; rewrite Er, H2 in H1; done.
  - apply Forall_app. split.
    + eapply Forall_impl; [exact F|]. intros r [H1 H2]. split; [|naive_solver].
      apply (row_matches_same w); [|done]. apply Hfr; congruence.
    + eapply Forall_impl; [exact F'|]. intros r [H1 H2]. split; [done|].
      by destruct H2 as [-> | ->].
Qed.

Section Pairs.
Context (cfg : FtsSettings).
Hypothesis Hretries : 0 <= cfg.(gp_fts_probe_retries).

(** A pair together with its place in the cluster. *)
Definition settled (w : Cluster) (pm : Pair) (i : fts_segment_info) : Prop :=
  good cfg pm.1 pm.2 i /\ ftsResponseReady i = false /\ pair_world w (phase i.(state)) pm.1 pm.2.

Lemma settled_same w w' pm i :
  same_at pm.1.(dbid) w w' -> same_at pm.2.(dbid) w w' -> settled w pm i -> settled w' pm i.
Proof. intros ? ? (? & ? & ?). split_and!; try done. by eapply same_at_world. Qed.

Lemma processResponse_good pms l w :
  Forall2 (fun pm i => good cfg pm.1 pm.2 i /\ pair_world w (phase i.(state)) pm.1 pm.2) pms l ->
  Forall pair_wf pms -> NoDup (dbids pms) ->
  exists l' w' u, processResponse l w = Ok (l', w', u) /\
    Forall2 (settled w') pms l' /\
    (forall db, db ∉ dbids pms -> same_at db w w') /\
    (forall w0 D, (forall db, db ∈ D -> db ∉ dbids pms) ->
       journal w0 w (D ++ open_dbids pms l) -> journal w0 w' (D ++ open_dbids pms l')).
Proof.
  revert l w. induction pms as [|[p m] pms IH]; intros l w HF Hwf Hnd;
    inversion HF as [|? i ? l0 [Hg Hw] HF']; subst.
  { exists [], w, false. split_and!; try done. }
  inversion Hwf as [|? ? (Hpair & Hp & Hm) Hwf']; subst. simpl in Hnd, Hpair, Hp, Hm, Hg, Hw.
  apply NoDup_cons in Hnd as [Hpn Hnd]. apply NoDup_cons in Hnd as [Hmn Hnd].
  apply not_elem_of_cons in Hpn as [Hne Hpn].
  destruct (respond_good cfg p m Hretries Hpair Hp Hm Hne i w Hg Hw)
    as (i' & w1 & u1 & E1 & Hg' & Hr' & Hw' & Hfr & Hsame & Hch).
  assert (HF1 : Forall2 (fun pm i => good cfg pm.1 pm.2 i /\
      pair_world w1 (phase i.(state)) pm.1 pm.2) pms l0).
  { apply (Forall2_impl_in _ _ _ _ HF'). intros [p2 m2] j Hin _ [? Hw2]. split; [done|].
    assert (Hin1 : p2.(dbid) ∈ dbids pms /\ m2.(dbid) ∈ dbids pms).
    { unfold dbids. rewrite !list_elem_of_In, !in_flat_map.
      split; exists (p2, m2); (split; [by apply list_elem_of_In|simpl; tauto]). }
    eapply same_at_world; [| |exact Hw2]; apply Hfr; simpl in *; intros E;
      rewrite E in Hin1; tauto. }
  destruct (IH l0 w1 HF1 Hwf' Hnd) as (l' & w' & u & E & HFl & Hfr' & Hj).
  exists (i' :: l'), w', (u1 || u). cbn [processResponse]. rewrite E1. cbn [mbind outcome_bind].
  rewrite E. cbn [mbind outcome_bind]. split; [done|]. split_and!.
  - constructor; [|done]. apply (settled_same w1); [by apply Hfr'..|]. by split_and!.
  - intros db Hdb. simpl in Hdb. apply not_elem_of_cons in Hdb as [H1 Hdb].
    apply not_elem_of_cons in Hdb as [H2 Hdb]. destruct (Hfr db H1 H2), (Hfr' db Hdb).
    split; congruence.
  - intros w0 D HD HJ. simpl in HJ, HD |- *.
    assert (HJ1 : journal w0 w1
       ((D ++ (if bool_decide (phase i'.(state) = Probing) then pair_dbids (p, m) else [])) ++
        open_dbids pms l0)).
    { rewrite <- app_assoc. destruct Hch as [-> | (Hpi & Hpi' & Ha)].
      - eapply journal_weaken; [|exact HJ]. intros db. rewrite !elem_of_app.
        intros [H|[H|H]]; [by left| |by right; right].
        right; left. case_bool_decide as Hi'; [|by apply elem_of_nil in H].
        by rewrite <- (Hsame Hi'), bool_decide_true.
      - rewrite bool_decide_true in HJ by done. rewrite bool_decide_false by done.
        eapply (journal_append w0 w w1 p m); [exact HJ|set_solver..| | | |exact Hfr|exact Ha].
        + rewrite !elem_of_app. intros [H|[H|H]]; [|by apply elem_of_nil in H|].
          * apply (HD _ H). set_solver.
          * by apply open_dbids_sub in H.
        + rewrite !elem_of_app. intros [H|[H|H]]; [|by apply elem_of_nil in H|].
          * apply (HD _ H). set_solver.
          * by apply open_dbids_sub in H.
        + set_solver. }
    apply Hj in HJ1; [by rewrite <- app_assoc in HJ1|].
    intros db. rewrite elem_of_app. intros [H|H]; [intros H2; apply (HD db H); set_solver|].
    case_bool_decide; [|by apply elem_of_nil in H]. unfold pair_dbids in H. simpl in H.
    apply elem_of_cons in H as [->|H]; [done|]. apply list_elem_of_singleton in H as ->. done.
Qed.

(** *** One pass *)

Lemma s16_small z : 0 <= z < 2 ^ 15 -> s16 z = z.
Proof. intros H. unfold s16. rewrite Z.mod_small; lia. Qed.

Lemma fill_pollfds_ok l : forall fds nfds,
  0 <= nfds -> nfds + zlen l <= zlen fds -> nfds + zlen l < 2 ^ 15 ->
  exists fds' n l', fill_pollfds fds nfds l = Ok (fds', n, l') /\ zlen fds' = zlen fds /\
    nfds <= n /\
    Forall2 (fun i i' => exists fd, i' = set_fd fd i /\ (waits i = true -> 0 <= fd < n)) l l'.
Proof.
  induction l as [|i l IH]; intros fds nfds H0 Hl Hb.
  { exists fds, nfds, []. split_and!; try done; try lia. }
  rewrite zlen_cons in Hl, Hb. pose proof (zlen_nonneg l). cbn [fill_pollfds].
  destruct (waits i) eqn:Hw.
  - rewrite zset_ok by lia. cbn [mbind outcome_bind].
    destruct (IH (<[Z.to_nat nfds := i.(poll_events)]> fds) (nfds + 1)) as (fds' & n & l' & E & Hz & Hn & HF);
      [lia|unfold zlen in *; rewrite length_insert; lia|lia|].
    rewrite E. cbn [mbind outcome_bind]. do 3 eexists. split; [reflexivity|].
    split_and!; [rewrite Hz; unfold zlen; by rewrite length_insert|lia|].
    constructor; [|done]. exists (s16 nfds). split; [done|]. rewrite s16_small by lia. lia.
  - destruct (IH fds nfds) as (fds' & n & l' & E & Hz & Hn & HF); [lia..|].
    rewrite E. cbn [mbind outcome_bind]. do 3 eexists. split; [reflexivity|].
    split_and!; try done. constructor; [|done]. exists (-1). by rewrite Hw.
Qed.

Lemma poll_result_ok r n : r <> PollFailed ->
  exists revents nready, poll_revents_of r n = Ok (revents, nready) /\ zlen revents = Z.of_nat n.
Proof.
  intros H. destruct r; try done; do 2 eexists; (split; [reflexivity|]).
  - apply zlen_replicate.
  - unfold zlen. by rewrite length_fmap, length_seq.
Qed.

Lemma ftsPoll_ok {B} (P Q : B -> fts_segment_info -> Prop) e bs fds l :
  Forall2 P bs l -> e.(polled) <> PollFailed -> zlen l <= zlen fds -> zlen l < 2 ^ 15 ->
  (forall b i fd, P b i -> P b (set_fd fd i)) ->
  (forall b i revents nready, P b i -> (waits i = true -> 0 <= i.(fd_index) < zlen revents) ->
     exists i', poll_segment cfg revents nready e.(pollClock) i = Ok i' /\ Q b i') ->
  exists fds' l', ftsPoll cfg e fds l = Ok (fds', l') /\ zlen fds' = zlen fds /\ Forall2 Q bs l'.
Proof.
  intros HF Hp Hl Hb Hfd Hstep. unfold ftsPoll.
  destruct (fill_pollfds_ok l fds 0) as (fds' & n & l1 & -> & Hz & Hn & HF1); [lia..|].
  cbn [mbind outcome_bind].
  assert (HF2 : Forall2 (fun b i => P b i /\ (waits i = true -> 0 <= i.(fd_index) < n)) bs l1).
  { clear -HF HF1 Hfd. revert l1 HF1. induction HF as [|b i bs l Hbi HF IH]; intros l1 HF1;
      inversion HF1 as [|? i' ? l2 (fd & -> & Hw) HF2]; subst; constructor; [|by apply IH].
    split; [by apply Hfd|done]. }
  destruct (n =? 0) eqn:En.
  - exists fds', l1. split_and!; try done. apply (Forall2_impl_in _ _ _ _ HF2).
    intros b i _ _ [HP Hw].
    assert (Hw' : waits i = false) by (destruct (waits i); [specialize (Hw eq_refl); lia|done]).
    destruct (Hstep b i [] 0 HP) as (i' & E & HQ); [by rewrite Hw'|].
    unfold poll_segment in E. rewrite Hw' in E. by simplify_eq.
  - destruct (poll_result_ok e.(polled) (Z.to_nat n) Hp) as (revents & nready & -> & Hlen).
    cbn [mbind outcome_bind].
    assert (Hs : forall (k : nat) b i, P b i /\ (waits i = true -> 0 <= i.(fd_index) < n) ->
      exists i', poll_segment cfg revents nready e.(pollClock) i = Ok i' /\ Q b i').
    { intros k b i [HP Hw]. apply Hstep; [done|]. rewrite Hlen. intros H. specialize (Hw H). lia. }
    destruct (each_forall _ Q (fun _ i => poll_segment cfg revents nready e.(pollClock) i) bs l1
       Hs HF2 0%nat) as (l' & -> & HF').
    by exists fds', l'.
Qed.

(** What is known of the pairs between two passes. *)
Record probe_ok (pms : list Pair) (w0 : Cluster) (P : Probe) : Prop := {
  probe_pairs : Forall2 (settled P.(cluster)) pms P.(perSegInfos);
  probe_fds : zlen P.(perSegInfos) <= zlen P.(PollFds);
  probe_frame : forall db, db ∉ dbids pms -> same_at db w0 P.(cluster);
  probe_journal : journal w0 P.(cluster) (open_dbids pms P.(perSegInfos))
}.

(** The state before [processResponse] in a pass. *)
Definition before_response (e : Events) (P : Probe) : outcome (list Z * list fts_segment_info) :=
  l ← ftsConnect e P.(perSegInfos);
  '(fds, l) ← ftsPoll cfg e P.(PollFds) l;
  l ← ftsSend e l;
  l ← ftsReceive e l;
  l ← processRetry cfg e l;
  Ok (fds, l).

Lemma probe_pass_eq e P :
  probe_pass cfg e P =
  ('(fds, l) ← before_response e P;
   '(l, w, updated) ← processResponse l P.(cluster);
   Ok (mk_probe l fds w (P.(is_updated) || updated))).
Proof.
  unfold probe_pass, before_response.
  destruct (ftsConnect _ _) as [l1| |]; [|done..]. cbn [mbind outcome_bind].
  destruct (ftsPoll _ _ _ _) as [[fds l2]| |]; [|done..]. cbn [mbind outcome_bind].
  destruct (ftsSend _ _) as [l3| |]; [|done..]. cbn [mbind outcome_bind].
  destruct (ftsReceive _ _) as [l4| |]; [|done..]. cbn [mbind outcome_bind].
  by destruct (processRetry _ _ _) as [l5| |].
Qed.

Lemma before_response_ok pms e P :
  Forall2 (fun pm i => good cfg pm.1 pm.2 i /\ ftsResponseReady i = false) pms P.(perSegInfos) ->
  zlen P.(perSegInfos) <= zlen P.(PollFds) -> zlen P.(perSegInfos) < 2 ^ 15 -> events_ok e ->
  exists fds l, before_response e P = Ok (fds, l) /\ zlen fds = zlen P.(PollFds) /\
    Forall2 (fun b i => answered cfg b.1.1 b.1.2 (phase b.2.(state)) i /\ exhausted cfg i)
      (zip pms P.(perSegInfos)) l.
Proof.
  intros HF Hfds Hb [Hev Hpl]. set (bs := zip pms P.(perSegInfos)).
  assert (H0 : Forall2 (fun b i => unanswered cfg b.1.1 b.1.2 (phase b.2.(state)) i) bs
                 P.(perSegInfos)).
  { unfold bs. clear -HF. induction HF as [|pm i pms l [Hg Hr] HF IH]; constructor; [|done].
    split_and!; try done. unfold ftsResponseReady in Hr. by apply orb_false_elim in Hr as [-> _]. }
  assert (Hlen : forall l, Forall2 (fun b i => unanswered cfg b.1.1 b.1.2 (phase b.2.(state)) i) bs l ->
     zlen l = zlen P.(perSegInfos)).
  { intros l H. unfold zlen. by rewrite <- (Forall2_length _ _ _ H), (Forall2_length _ _ _ H0). }
  destruct (each_forall _ _ (fun k i => connect_segment (e.(libpq) k) i) bs _
    (fun k b i H => connect_good cfg b.1.1 b.1.2 (e.(libpq) k) _ i (Hev k) H) H0 0%nat)
    as (l1 & E1 & H1).
  destruct (ftsPoll_ok _ (fun b i => unanswered cfg b.1.1 b.1.2 (phase b.2.(state)) i) e bs
     P.(PollFds) l1 H1 Hpl) as (fds & l2 & E2 & Hz & H2).
  - rewrite (Hlen _ H1). lia.
  - rewrite (Hlen _ H1). lia.
  - intros b i fd H. by apply (timers_good cfg b.1.1 b.1.2 _ i).
  - intros b i revents nready H Hfd. by apply poll_good.
  - destruct (each_forall _ _ (fun k i => send_segment (e.(libpq) k) i) bs l2
      (fun k b i H => send_good cfg b.1.1 b.1.2 (e.(libpq) k) _ i H) H2 0%nat) as (l3 & E3 & H3).
    destruct (each_forall _ _ (fun k i => receive_segment (e.(libpq) k) i) bs l3
      (fun k b i H => receive_good cfg b.1.1 b.1.2 (e.(libpq) k) _ i (Hev k) H) H3 0%nat)
      as (l4 & E4 & H4).
    destruct (each_forall _ _ (fun _ i => retry_segment cfg e.(retryClock) i) bs l4
      (fun _ b i H => retry_good cfg b.1.1 b.1.2 e.(retryClock) _ i H) H4 0%nat)
      as (l5 & E5 & H5).
    exists fds, l5. unfold before_response, ftsConnect. rewrite E1. cbn [mbind outcome_bind].
    rewrite E2. cbn [mbind outcome_bind]. unfold ftsSend. rewrite E3. cbn [mbind outcome_bind].
    unfold ftsReceive. rewrite E4. cbn [mbind outcome_bind]. unfold processRetry. by rewrite E5.
Qed.

Lemma settled_pairs w pms l :
  Forall2 (settled w) pms l ->
  Forall2 (fun pm i => good cfg pm.1 pm.2 i /\ ftsResponseReady i = false) pms l.
Proof. intros H. eapply Forall2_impl; [exact H|]. by intros pm i (? & ? & _). Qed.

(** The answers leave every pair in its phase. *)
Lemma answered_world w pms l0 l :
  Forall2 (settled w) pms l0 ->
  Forall2 (fun b i => answered cfg b.1.1 b.1.2 (phase b.2.(state)) i /\ exhausted cfg i)
    (zip pms l0) l ->
  Forall2 (fun pm i => good cfg pm.1 pm.2 i /\ pair_world w (phase i.(state)) pm.1 pm.2) pms l /\
  open_dbids pms l = open_dbids pms l0 /\
  Forall2 (fun pm i => good cfg pm.1 pm.2 i /\ exhausted cfg i) pms l.
Proof.
  intros HF. revert l. induction HF as [|pm i0 pms l0 (Hg0 & Hr0 & Hw0) HF IH]; intros l H; simpl in H;
    inversion H as [|? i ? l' [[Hg Hp] He] H']; subst; [done|].
  simpl in *. destruct (IH l' H') as (HF1 & Ho & HF2). split_and!.
  - constructor; [|done]. by rewrite Hp.
  - by rewrite Hp, Ho.
  - by constructor.
Qed.

Lemma probe_pass_ok pms w0 e P :
  Forall pair_wf pms -> NoDup (dbids pms) -> zlen pms < 2 ^ 15 ->
  probe_ok pms w0 P -> events_ok e ->
  exists P', probe_pass cfg e P = Ok P' /\ probe_ok pms w0 P' /\
    exists fds l, before_response e P = Ok (fds, l) /\
      forallb (processResponse_asserts cfg) l = true.
Proof.
  intros Hwf Hnd Hb [HF Hfds Hfr Hj] Hev. rewrite probe_pass_eq.
  assert (Hlen : zlen P.(perSegInfos) = zlen pms).
  { unfold zlen. by rewrite (Forall2_length _ _ _ HF). }
  destruct (before_response_ok pms e P (settled_pairs _ _ _ HF) Hfds ltac:(lia) Hev)
    as (fds & l & E & Hz & HA).
  destruct (answered_world _ _ _ _ HF HA) as (HF1 & Ho & HF2).
  destruct (processResponse_good pms l P.(cluster) HF1 Hwf Hnd) as (l' & w' & u & E' & HF' & Hfr' & Hj').
  rewrite E. cbn [mbind outcome_bind]. rewrite E'. cbn [mbind outcome_bind].
  eexists. split; [reflexivity|]. split.
  - constructor; simpl; [done| | |].
    + unfold zlen in *. rewrite <- (Forall2_length _ _ _ HF'). lia.
    + intros db Hdb. destruct (Hfr db Hdb), (Hfr' db Hdb). split; congruence.
    + apply (Hj' w0 []); [by intros db ?%elem_of_nil|]. simpl. by rewrite Ho.
  - exists fds, l. split; [done|]. clear -HF2 Hwf.
    induction HF2 as [|pm i pms l [Hg He] HF2 IH]; [done|]. inversion Hwf as [|? ? (Hp & _ & _) Hwf']; subst.
    simpl. rewrite (asserts_good cfg pm.1 pm.2 Hp i Hg He). by apply IH.
Qed.

Lemma probe_loop_ok pms w0 es P :
  Forall pair_wf pms -> NoDup (dbids pms) -> zlen pms < 2 ^ 15 ->
  probe_ok pms w0 P -> Forall events_ok es ->
  exists P', probe_loop cfg es P = Ok P' /\ probe_ok pms w0 P'.
Proof.
  intros Hwf Hnd Hb HP Hes. revert P HP. induction Hes as [|e es He Hes IH]; intros P HP; [by exists P|].
  cbn [probe_loop]. destruct (allDone P.(perSegInfos)); [by exists P|].
  destruct (probe_pass_ok pms w0 e P Hwf Hnd Hb HP He) as (P1 & -> & HP1 & _).
  cbn [mbind outcome_bind]. by apply IH.
Qed.

End Pairs.

(** ** The start of a cycle *)

(** A configuration: unique dbids, and for every content a primary that is up,
    alone or with one mirror of the same mode; a mirror in sync is up. *)
Record configuration_ok (l : list GpSegConfigEntry) : Prop := {
  config_nodup : NoDup (dbid <$> l);
  config_rows : forall e, e ∈ l -> columns_ok e /\ dbid_ok e;
  config_primary : forall e, e ∈ l -> exists p, p ∈ l /\ p.(segindex) = e.(segindex) /\
    p.(role) = GP_SEGMENT_CONFIGURATION_ROLE_PRIMARY;
  config_up : forall p, p ∈ l -> p.(role) = GP_SEGMENT_CONFIGURATION_ROLE_PRIMARY ->
    p.(status) = GP_SEGMENT_CONFIGURATION_STATUS_UP;
  config_peers : forall a b, a ∈ l -> b ∈ l -> a.(segindex) = b.(segindex) ->
    a.(dbid) <> b.(dbid) ->
    a.(role) <> b.(role) /\ a.(mode) = b.(mode) /\
    (SEGMENT_IS_IN_SYNC a = true -> SEGMENT_IS_ALIVE a = true)
}.

(** The primaries with their mirrors, in the order of the rows. *)
Fixpoint pairs_of (cdbs rows : list GpSegConfigEntry) : list Pair :=
  match rows with
  | [] => []
  | p :: rows =>
      if SEGMENT_IS_ACTIVE_PRIMARY p then
        match FtsGetPeerSegment cdbs p.(segindex) p.(dbid) with
        | Some m => (p, m) :: pairs_of cdbs rows
        | None => pairs_of cdbs rows
        end
      else pairs_of cdbs rows
  end.

Definition primaries (l : list GpSegConfigEntry) : Z :=
  zlen (base.filter (fun e => SEGMENT_IS_ACTIVE_PRIMARY e = true) l).

(** The info of a pair at the start. *)
Definition first_info (pm : Pair) : fts_segment_info := set_pair (Some pm.1) (Some pm.2) zero_info.

Lemma init_pairs_ok cdbs rows : forall done k,
  zlen (pairs_of cdbs rows) <= Z.of_nat k ->
  init_pairs cdbs rows (zlen done) (zlen done + primaries rows)
    (done ++ replicate k zero_info) =
  Ok (done ++ (first_info <$> pairs_of cdbs rows) ++
        replicate (k - length (pairs_of cdbs rows)) zero_info,
      zlen done + zlen (pairs_of cdbs rows)).
Proof.
  induction rows as [|p rows IH]; intros dn k Hk; cbn [init_pairs pairs_of] in *.
  { cbn [length fmap list_fmap app]. by rewrite Nat.sub_0_r. }
  unfold primaries in *. rewrite filter_cons.
  destruct (SEGMENT_IS_ACTIVE_PRIMARY p) eqn:Ep; simpl.
  2:{ destruct (decide (false = true)); [done|]. by apply IH. }
  destruct (decide (true = true)); [|done].
  destruct (FtsGetPeerSegment cdbs p.(segindex) p.(dbid)) as [m|] eqn:Em.
  - rewrite zlen_cons in Hk. pose proof (zlen_nonneg (pairs_of cdbs rows)).
    destruct k as [|k]; [lia|].
    cbn [replicate]. rewrite zget_mid. cbn [mbind outcome_bind].
    rewrite zset_ok by (rewrite zlen_app, zlen_cons; pose proof (zlen_nonneg dn);
      pose proof (zlen_nonneg (replicate k zero_info)); lia).
    cbn [mbind outcome_bind].
    replace (Z.to_nat (zlen dn)) with (length dn) by (unfold zlen; lia).
    rewrite insert_app_r_alt, Nat.sub_diag by lia. cbn [insert list_insert].
    specialize (IH (dn ++ [first_info (p, m)]) k ltac:(lia)).
    rewrite <- !app_assoc in IH. cbn [app] in IH.
    replace (zlen (dn ++ [first_info (p, m)])) with (zlen dn + 1) in IH
      by (rewrite zlen_app; reflexivity).
    rewrite !zlen_cons. rewrite fmap_cons. cbn [length app].
    replace (zlen dn + (zlen (filter (λ e, SEGMENT_IS_ACTIVE_PRIMARY e = true) rows) + 1))
      with (zlen dn + 1 + zlen (filter (λ e, SEGMENT_IS_ACTIVE_PRIMARY e = true) rows)) by lia.
    change (set_pair (Some p) (Some m) _) with (first_info (p, m)).
    rewrite IH. f_equal. f_equal. lia.
  - rewrite zlen_cons. rewrite <- IH by done. f_equal. lia.
Qed.

Lemma pairs_le_primaries cdbs rows : zlen (pairs_of cdbs rows) <= primaries rows.
Proof.
  unfold primaries. induction rows as [|p rows IH]; [done|]. simpl. rewrite filter_cons.
  destruct (SEGMENT_IS_ACTIVE_PRIMARY p); simpl; [|destruct (decide (false = true)); [done|lia]].
  destruct (decide (true = true)); [|done]. rewrite zlen_cons.
  case_match; rewrite ?zlen_cons; lia.
Qed.

Lemma init_context_ok cdbs :
  cdbs.(total_segments) = primaries cdbs.(segment_db_info) ->
  FtsWalRepInitProbeContext cdbs =
  Ok (first_info <$> pairs_of cdbs.(segment_db_info) cdbs.(segment_db_info)).
Proof.
  intros Ht. unfold FtsWalRepInitProbeContext. set (l := segment_db_info cdbs) in *.
  pose proof (pairs_le_primaries l l) as Hle. pose proof (zlen_nonneg (pairs_of l l)).
  assert (Hk : zlen (pairs_of l l) <= Z.of_nat (Z.to_nat cdbs.(total_segments))) by lia.
  pose proof (init_pairs_ok l l [] (Z.to_nat cdbs.(total_segments)) Hk) as E.
  rewrite zlen_nil in E. cbn [app] in E. rewrite Ht in E at 2 |- * at 1. rewrite Z.add_0_l in E.
  rewrite E. cbn [mbind outcome_bind]. apply mem_read_front.
  unfold zlen. by rewrite length_fmap.
Qed.

Lemma peer_spec cdbs p m : FtsGetPeerSegment cdbs p.(segindex) p.(dbid) = Some m ->
  m ∈ cdbs /\ m.(segindex) = p.(segindex) /\ m.(dbid) <> p.(dbid).
Proof.
  intros H. apply find_some in H as [Hin H].
  split; [by apply list_elem_of_In|]. lia.
Qed.

Lemma pairs_of_spec cdbs rows p m : (p, m) ∈ pairs_of cdbs rows ->
  p ∈ rows /\ p.(role) = GP_SEGMENT_CONFIGURATION_ROLE_PRIMARY /\
  m ∈ cdbs /\ m.(segindex) = p.(segindex) /\ m.(dbid) <> p.(dbid).
Proof.
  induction rows as [|q rows IH]; simpl; [by intros ?%elem_of_nil|].
  destruct (SEGMENT_IS_ACTIVE_PRIMARY q) eqn:Eq.
  - destruct (FtsGetPeerSegment cdbs q.(segindex) q.(dbid)) as [mq|] eqn:Em.
    + rewrite elem_of_cons. intros [[= -> ->]|H].
      * split; [apply list_elem_of_here|]. unfold SEGMENT_IS_ACTIVE_PRIMARY in Eq.
        split; [lia|]. by apply peer_spec.
      * destruct (IH H) as (? & ?). split; [by apply list_elem_of_further|done].
    + intros H. destruct (IH H) as (? & ?). split; [by apply list_elem_of_further|done].
  - intros H. destruct (IH H) as (? & ?). split; [by apply list_elem_of_further|done].
Qed.

Lemma elem_dbids pms db : db ∈ dbids pms <->
  exists p m, (p, m) ∈ pms /\ (db = p.(dbid) \/ db = m.(dbid)).
Proof.
  unfold dbids. rewrite list_elem_of_In, in_flat_map. split.
  - intros ([p m] & Hin & H). exists p, m. rewrite list_elem_of_In. simpl in H. naive_solver.
  - intros (p & m & Hin & H). exists (p, m). rewrite <- list_elem_of_In. simpl. naive_solver.
Qed.

Section Configuration.
Context (l : list GpSegConfigEntry).
Hypothesis Hl : configuration_ok l.

Lemma dbid_inj a b : a ∈ l -> b ∈ l -> a.(dbid) = b.(dbid) -> a = b.
Proof.
  intros (i & Hi)%list_elem_of_lookup (j & Hj)%list_elem_of_lookup E.
  assert (Hij : i = j).
  { eapply (proj1 (NoDup_alt _) (config_nodup _ Hl)); rewrite list_lookup_fmap.
    - by rewrite Hi.
    - rewrite Hj. simpl. by rewrite E. }
  congruence.
Qed.

Lemma one_primary a b : a ∈ l -> b ∈ l -> a.(segindex) = b.(segindex) ->
  a.(role) = b.(role) -> a = b.
Proof.
  intros Ha Hb Hs Hr. destruct (decide (a.(dbid) = b.(dbid))) as [E|N]; [by apply dbid_inj|].
  by destruct (config_peers _ Hl a b Ha Hb Hs N) as [? _].
Qed.

Lemma pairs_wf : Forall pair_wf (pairs_of l l).
Proof.
  apply Forall_forall. intros [p m] H. apply pairs_of_spec in H as (Hp & Hr & Hm & Hs & Hd).
  destruct (config_rows _ Hl p Hp) as [Cp Dp]. destruct (config_rows _ Hl m Hm) as [Cm Dm].
  destruct (config_peers _ Hl p m Hp Hm ltac:(done) ltac:(congruence)) as (R & M & _).
  destruct (config_peers _ Hl m p Hm Hp Hs Hd) as (_ & _ & S).
  split_and!; try done. constructor; simpl; try done.
  - split; [done|]. destruct Cm as ([E|E] & _); [congruence|done].
  - by apply (config_up _ Hl).
Qed.

Lemma pairs_nodup rows : (forall e, e ∈ rows -> e ∈ l) -> NoDup (dbid <$> rows) ->
  NoDup (dbids (pairs_of l rows)).
Proof.
  induction rows as [|p rows IH]; intros Hsub Hnd; [apply NoDup_nil_2|].
  rewrite fmap_cons in Hnd. apply NoDup_cons in Hnd as [Hp Hnd]. simpl.
  assert (IH' : NoDup (dbids (pairs_of l rows))).
  { apply IH; [|done]. intros e He. by apply Hsub, list_elem_of_further. }
  destruct (SEGMENT_IS_ACTIVE_PRIMARY p) eqn:Ep; [|done].
  destruct (FtsGetPeerSegment l p.(segindex) p.(dbid)) as [m|] eqn:Em; [|done].
  destruct (peer_spec _ _ _ Em) as (Hm & Hs & Hd).
  assert (Hpl : p ∈ l) by apply Hsub, list_elem_of_here.
  assert (Hpr : p.(role) = GP_SEGMENT_CONFIGURATION_ROLE_PRIMARY).
  { unfold SEGMENT_IS_ACTIVE_PRIMARY in Ep. lia. }
  assert (Hother : forall p2 m2, (p2, m2) ∈ pairs_of l rows -> p2.(segindex) = p.(segindex) -> False).
  { intros p2 m2 H E. apply pairs_of_spec in H as (H1 & H2 & _). apply Hp.
    rewrite <- (one_primary p2 p); [by apply list_elem_of_fmap_2| | |done|congruence]; [|done].
    by apply Hsub, list_elem_of_further. }
  assert (Hfree : forall q, q ∈ l -> q.(segindex) = p.(segindex) -> q.(dbid) ∉ dbids (pairs_of l rows)).
  { intros q Hq Eq (p2 & m2 & Hin & H)%elem_dbids. apply (Hother p2 m2 Hin).
    pose proof (pairs_of_spec _ _ _ _ Hin) as (H1 & _ & H3 & H4 & _).
    destruct H as [E|E].
    - rewrite <- (dbid_inj q p2); try done. by apply Hsub, list_elem_of_further.
    - rewrite <- H4. rewrite <- (dbid_inj q m2); done. }
  cbn [dbids flat_map pair_dbids app fst snd]. apply NoDup_cons. split.
  - rewrite not_elem_of_cons. split; [congruence|by apply Hfree].
  - apply NoDup_cons. split; [by apply Hfree|done].
Qed.

End Configuration.

(** ** Theorems *)

(** The probing part of a round of [FtsLoop]. *)
Definition FtsLoop_probe (cfg : FtsSettings) (cdbs : CdbComponentDatabases) (es : list Events)
    (w : Cluster) : outcome Probe :=
  w ← readCdbComponentInfoAndUpdateStatus cdbs.(segment_db_info) w;
  FtsWalRepMessageSegments cfg cdbs es w.

(** A component table read from the catalog of [w]. *)
Record cdbs_ok (cdbs : CdbComponentDatabases) (w : Cluster) : Prop := {
  cdbs_config : configuration_ok cdbs.(segment_db_info);
  cdbs_total : cdbs.(total_segments) = primaries cdbs.(segment_db_info);
  cdbs_bound : zlen cdbs.(segment_db_info) < 2 ^ 15;
  cdbs_catalog : forall e, e ∈ cdbs.(segment_db_info) ->
    w.(gp_segment_configuration) !! e.(dbid) = Some e
}.

Definition pairs (cdbs : CdbComponentDatabases) : list Pair :=
  pairs_of cdbs.(segment_db_info) cdbs.(segment_db_info).

Lemma read_status_ok l : forall w, (forall e, e ∈ l -> dbid_ok e) ->
  exists st, readCdbComponentInfoAndUpdateStatus l w =
    Ok (mk_cluster w.(gp_segment_configuration) w.(history) st) /\
    (forall db, db ∉ dbid <$> l -> st !! db = w.(fts_status) !! db) /\
    (NoDup (dbid <$> l) -> forall e, e ∈ l ->
       FTS_STATUS_IS_DOWN (default 0 (st !! e.(dbid))) = negb (SEGMENT_IS_ALIVE e)).
Proof.
  induction l as [|e l IH]; intros w Hd; cbn [readCdbComponentInfoAndUpdateStatus].
  { exists w.(fts_status). destruct w. split_and!; try done. by intros _ e ?%elem_of_nil. }
  rewrite status_update_ok by apply Hd, list_elem_of_here. cbn [mbind outcome_bind].
  match goal with |- context [readCdbComponentInfoAndUpdateStatus l ?x] => set (w1 := x) end.
  destruct (IH w1) as (st & E & Hsame & Hbits); [intros e' He'; by apply Hd, list_elem_of_further|].
  exists st. split_and!; [exact E| |].
  - intros db. rewrite fmap_cons, not_elem_of_cons. intros [Hne Hn]. rewrite Hsame by done.
    unfold w1. simpl. by rewrite lookup_insert_ne by congruence.
  - rewrite fmap_cons, NoDup_cons. intros [Hn Hnd] e'. rewrite elem_of_cons. intros [->|He']; [|auto].
    rewrite Hsame by done. unfold w1. simpl. rewrite lookup_insert_eq. simpl.
    destruct (SEGMENT_IS_ALIVE e); [done|apply down_bit].
Qed.

Lemma first_info_good cfg pm : 0 <= cfg.(gp_fts_probe_retries) ->
  good cfg pm.1 pm.2 (first_info pm).
Proof. intros H. by constructor. Qed.

(** The state at the start of a cycle. *)
Lemma cycle_start cfg cdbs w : 0 <= cfg.(gp_fts_probe_retries) -> cdbs_ok cdbs w ->
  exists P, (forall es, FtsLoop_probe cfg cdbs es w = probe_loop cfg es P) /\
    probe_ok cfg (pairs cdbs) P.(cluster) P /\ P.(perSegInfos) = first_info <$> pairs cdbs /\
    P.(cluster).(gp_segment_configuration) = w.(gp_segment_configuration) /\
    P.(cluster).(history) = w.(history).
Proof.
  intros Hr [Hc Ht Hb Hcat]. set (l := segment_db_info cdbs) in *.
  destruct (read_status_ok l w) as (st & E & Hsame & Hbits);
    [intros e He; by apply (config_rows _ Hc)|].
  eexists. split; [intros es|].
  { unfold FtsLoop_probe, FtsWalRepMessageSegments. fold l. rewrite E.
    cbn [mbind outcome_bind]. rewrite (init_context_ok cdbs Ht). cbn [mbind outcome_bind].
    reflexivity. }
  split; [|done]. fold l. constructor; simpl.
  - assert (HA : Forall (fun pm => settled cfg
        (mk_cluster (gp_segment_configuration w) (history w) st) pm (first_info pm)) (pairs_of l l)).
    { apply Forall_forall. intros [p m] Hin.
      destruct (pairs_of_spec _ _ _ _ Hin) as (Hp & _ & Hm & _).
      split_and!; [by apply first_info_good|done|]. exists p, m. split_and!; [|constructor|done].
      split_and!; simpl; [by apply Hcat..| |]; apply Hbits; try done; by apply (config_nodup _ Hc). }
    unfold pairs. fold l. clear -HA. induction HA; simpl; by constructor.
  - unfold zlen at 1. rewrite length_fmap. fold (zlen (pairs_of l l)).
    pose proof (pairs_le_primaries l l). rewrite zlen_replicate, Ht. fold l.
    unfold primaries in *. pose proof (zlen_nonneg (base.filter
      (fun e => SEGMENT_IS_ACTIVE_PRIMARY e = true) l)). lia.
  - done.
  - exists []. split_and!; [by rewrite app_nil_r|apply NoDup_nil_2|constructor].
Qed.

Lemma pairs_bound cdbs w : cdbs_ok cdbs w -> zlen (pairs cdbs) < 2 ^ 15.
Proof.
  intros [_ _ Hb _]. unfold pairs.
  pose proof (pairs_le_primaries cdbs.(segment_db_info) cdbs.(segment_db_info)) as H.
  unfold primaries, zlen in *.
  pose proof (length_filter (fun e => SEGMENT_IS_ACTIVE_PRIMARY e = true) cdbs.(segment_db_info)). lia.
Qed.

(** The state after any number of passes. *)
Lemma cycle_ok cfg cdbs es w :
  0 <= cfg.(gp_fts_probe_retries) -> cdbs_ok cdbs w -> Forall events_ok es ->
  exists P w1, FtsLoop_probe cfg cdbs es w = Ok P /\ probe_ok cfg (pairs cdbs) w1 P /\
    w1.(gp_segment_configuration) = w.(gp_segment_configuration) /\ w1.(history) = w.(history).
Proof.
  intros Hr Hc Hes. destruct (cycle_start cfg cdbs w Hr Hc) as (P0 & E & HP & _ & H1 & H2).
  pose proof (cdbs_config _ _ Hc) as Hcfg.
  destruct (probe_loop_ok cfg Hr (pairs cdbs) P0.(cluster) es P0 (pairs_wf _ Hcfg)
    (pairs_nodup _ Hcfg _ (fun _ H => H) (config_nodup _ Hcfg)) (pairs_bound _ _ Hc) HP Hes)
    as (P & EP & HP').
  exists P, P0.(cluster). by rewrite E.
Qed.


(** In every pass of a cycle the assertions of processResponse,
    updateConfiguration and probeWalRepUpdateConfig on the way to a change of the
    configuration hold: a failure is processed only when the retries are used up,
    in sync means that both are alive, and a mirror is promoted only from an
    in-sync pair whose primary gave no answer. *)
Theorem cycle_asserts_hold cfg cdbs es e w :
  0 <= cfg.(gp_fts_probe_retries) -> cdbs_ok cdbs w -> Forall events_ok es -> events_ok e ->
  exists P fds l, FtsLoop_probe cfg cdbs es w = Ok P /\
    before_response cfg e P = Ok (fds, l) /\ forallb (processResponse_asserts cfg) l = true.
Proof.
  intros Hr Hc Hes He. destruct (cycle_ok cfg cdbs es w Hr Hc Hes) as (P & w1 & E & HP & _).
  pose proof (cdbs_config _ _ Hc) as Hcfg.
  destruct (probe_pass_ok cfg Hr (pairs cdbs) w1 e P (pairs_wf _ Hcfg)
    (pairs_nodup _ Hcfg _ (fun _ H => H) (config_nodup _ Hcfg)) (pairs_bound _ _ Hc) HP He)
    as (_ & _ & _ & fds & l & El & Ha).
  by exists P, fds, l.
Qed.

(** *** The configuration after a cycle *)

Lemma pair_change_ok p m p' m' : pair_ok p m -> pair_change p m p' m' ->
  (pair_ok p' m' \/ pair_ok m' p') /\ p'.(dbid) = p.(dbid) /\ m'.(dbid) = m.(dbid).
Proof.
  intros [[Hc1 Hc2] Hs Hr Hu Hm Hy] H.
  assert (Hcol : forall e r alive insync,
    r = GP_SEGMENT_CONFIGURATION_ROLE_PRIMARY \/ r = GP_SEGMENT_CONFIGURATION_ROLE_MIRROR ->
    columns_ok (reconfigured e r alive insync)).
  { intros e r alive insync Hr'. split_and!; simpl; [done|destruct alive; auto|destruct insync; auto]. }
  destruct H as [|alive insync Hsa|_ _ _]; (split; [|done]).
  - by left.
  - left. constructor; simpl; try done; try (split; apply Hcol; auto).
    intros Hi. rewrite reconfigured_alive. apply Hsa. by destruct insync.
  - right. constructor; simpl; try done; split; apply Hcol; auto.
Qed.

(** The rows that the catalog now has for some segments. *)
Definition current (w : Cluster) (l : list GpSegConfigEntry) : list GpSegConfigEntry :=
  (fun e => default e (w.(gp_segment_configuration) !! e.(dbid))) <$> l.

Section Preserved.
Context (l : list GpSegConfigEntry) (w : Cluster).
Hypothesis Hl : configuration_ok l.
Hypothesis Hpairs : forall p m, (p, m) ∈ pairs_of l l ->
  exists p' m', pair_rows w p m p' m' /\ pair_change p m p' m'.
Hypothesis Hlone : forall e, e ∈ l -> e.(dbid) ∉ dbids (pairs_of l l) ->
  w.(gp_segment_configuration) !! e.(dbid) = Some e.

Local Notation now e := (default e (w.(gp_segment_configuration) !! e.(dbid))).

Lemma pairs_complete rows p m : p ∈ rows -> m ∈ l ->
  p.(role) = GP_SEGMENT_CONFIGURATION_ROLE_PRIMARY ->
  (forall e, e ∈ rows -> e ∈ l) ->
  p.(segindex) = m.(segindex) -> p.(dbid) <> m.(dbid) -> (p, m) ∈ pairs_of l rows.
Proof.
  intros Hp Hm Hr Hsub Hs Hd. induction rows as [|q rows IH]; [by apply elem_of_nil in Hp|]. simpl.
  apply elem_of_cons in Hp as [<-|Hp].
  - unfold SEGMENT_IS_ACTIVE_PRIMARY. rewrite Hr, Z.eqb_refl.
    assert (Hpl : p ∈ l) by apply Hsub, list_elem_of_here.
    destruct (FtsGetPeerSegment l p.(segindex) p.(dbid)) as [m2|] eqn:E.
    + destruct (peer_spec _ _ _ E) as (H1 & H2 & H3).
      replace m with m2; [apply list_elem_of_here|]. apply (one_primary l Hl); try done; [congruence|].
      destruct (config_peers _ Hl p m Hpl Hm Hs Hd) as [R1 _].
      destruct (config_peers _ Hl p m2 Hpl H1 ltac:(congruence) ltac:(congruence)) as [R2 _].
      destruct (config_rows _ Hl m Hm) as [([?|?] & _) _], (config_rows _ Hl m2 H1) as [([?|?] & _) _];
        congruence.
    + exfalso. pose proof (find_none _ _ E m) as Hf. rewrite <- list_elem_of_In in Hf.
      specialize (Hf Hm). simpl in Hf. lia.
  - assert (IH' : (p, m) ∈ pairs_of l rows).
    { apply IH; [done|]. intros e He. by apply Hsub, list_elem_of_further. }
    repeat case_match; try done. by apply list_elem_of_further.
Qed.

(** Two rows of a content, as a pair of the old and of the new configuration. *)
Lemma peers_now a b : a ∈ l -> b ∈ l -> a.(segindex) = b.(segindex) -> a.(dbid) <> b.(dbid) ->
  (pair_ok (now a) (now b) \/ pair_ok (now b) (now a)) /\
  (now a).(dbid) = a.(dbid) /\ (now b).(dbid) = b.(dbid).
Proof.
  intros Ha Hb Hs Hd. destruct (config_peers _ Hl a b Ha Hb Hs Hd) as [R _].
  assert (H : forall p m, p ∈ l -> m ∈ l -> p.(role) = GP_SEGMENT_CONFIGURATION_ROLE_PRIMARY ->
    p.(segindex) = m.(segindex) -> p.(dbid) <> m.(dbid) ->
    (pair_ok (now p) (now m) \/ pair_ok (now m) (now p)) /\
    (now p).(dbid) = p.(dbid) /\ (now m).(dbid) = m.(dbid)).
  { intros p m Hp Hm Hr Hs' Hd'.
    pose proof (pairs_complete l p m Hp Hm Hr (fun _ H => H) Hs' Hd') as Hin.
    destruct (Hpairs p m Hin) as (p' & m' & (E1 & E2 & _) & Hch). rewrite E1, E2. simpl.
    apply (pair_change_ok p m); [|done].
    by apply (proj1 (Forall_forall _ _) (pairs_wf l Hl) (p, m) Hin). }
  destruct (config_rows _ Hl a Ha) as [([Ra|Ra] & _) _].
  - by apply H.
  - destruct (config_rows _ Hl b Hb) as [([Rb|Rb] & _) _]; [|congruence].
    destruct (H b a) as (? & ? & ?); try done. split; [tauto|done].
Qed.

(** A row either has a peer, or is a primary that the cycle leaves alone. *)
Lemma alone_or_peer e : e ∈ l ->
  (exists b, b ∈ l /\ e.(segindex) = b.(segindex) /\ e.(dbid) <> b.(dbid)) \/
  (w.(gp_segment_configuration) !! e.(dbid) = Some e /\
   e.(role) = GP_SEGMENT_CONFIGURATION_ROLE_PRIMARY).
Proof.
  intros He. destruct (FtsGetPeerSegment l e.(segindex) e.(dbid)) as [b|] eqn:E.
  { left. exists b. destruct (peer_spec _ _ _ E) as (? & ? & ?). split_and!; congruence. }
  assert (Hno : forall b, b ∈ l -> e.(segindex) = b.(segindex) -> e.(dbid) = b.(dbid)).
  { intros b Hb Hs. pose proof (find_none _ _ E b) as Hf. rewrite <- list_elem_of_In in Hf.
    specialize (Hf Hb). simpl in Hf. lia. }
  right. split.
  - apply Hlone; [done|]. intros (p & m & Hin & H)%elem_dbids.
    destruct (pairs_of_spec _ _ _ _ Hin) as (Hp & _ & Hm & Hs & Hd).
    destruct H as [H|H].
    + assert (e = p) as -> by by apply (dbid_inj l Hl). apply Hd. by rewrite (Hno m Hm).
    + assert (e = m) as -> by by apply (dbid_inj l Hl). apply Hd. by rewrite (Hno p Hp).
  - destruct (config_primary _ Hl e He) as (p & Hp & Hs & Hr).
    by rewrite (dbid_inj l Hl e p He Hp (Hno p Hp ltac:(congruence))).
Qed.

Lemma now_dbid e : e ∈ l -> (now e).(dbid) = e.(dbid) /\ (now e).(segindex) = e.(segindex).
Proof.
  intros He. destruct (alone_or_peer e He) as [(b & Hb & Hs & Hd)|[E _]]; [|by rewrite E].
  split; [by destruct (peers_now e b He Hb Hs Hd) as (_ & ? & _)|].
  destruct (config_rows _ Hl e He) as [([R|R] & _) _].
  - destruct (Hpairs e b (pairs_complete l e b He Hb R (fun _ H => H) Hs Hd)) as (p' & m' & (E & _) & Hc).
    rewrite E. simpl. by destruct Hc.
  - destruct (config_peers _ Hl e b He Hb Hs Hd) as [R' _].
    destruct (config_rows _ Hl b Hb) as [([Rb|Rb] & _) _]; [|congruence].
    destruct (Hpairs b e (pairs_complete l b e Hb He Rb (fun _ H => H) ltac:(done) ltac:(done)))
      as (p' & m' & (_ & E & _) & Hc).
    rewrite E. simpl. by destruct Hc.
Qed.

Lemma current_ok : configuration_ok (current w l).
Proof.
  assert (Hin : forall e', e' ∈ current w l -> exists e, e ∈ l /\ e' = now e).
  { intros e' (e & -> & He)%list_elem_of_fmap. eauto. }
  assert (Hin' : forall e, e ∈ l -> now e ∈ current w l).
  { intros e He. unfold current. by apply (list_elem_of_fmap_2 (fun e => now e)). }
  constructor.
  - replace (dbid <$> current w l) with (dbid <$> l); [by apply (config_nodup _ Hl)|].
    unfold current. rewrite <- list_fmap_compose. apply list_fmap_ext. intros i e Hi.
    symmetry. apply now_dbid. by eapply list_elem_of_lookup_2.
  - intros e' (e & He & ->)%Hin. destruct (now_dbid e He) as [Ed _].
    split; [|unfold dbid_ok; rewrite Ed; by apply (config_rows _ Hl)].
    destruct (alone_or_peer e He) as [(b & Hb & Hs & Hd)|[E _]].
    + destruct (peers_now e b He Hb Hs Hd) as ([[[? ?] _ _ _ _ _]|[[? ?] _ _ _ _ _]] & _); done.
    + rewrite E. by apply (config_rows _ Hl).
  - intros e' (e & He & ->)%Hin. destruct (now_dbid e He) as [_ Es].
    destruct (alone_or_peer e He) as [(b & Hb & Hs & Hd)|[E R]].
    + destruct (now_dbid b Hb) as [_ Eb].
      destruct (peers_now e b He Hb Hs Hd) as ([[_ _ [? ?] _ _ _]|[_ _ [? ?] _ _ _]] & _).
      * exists (now e). split_and!; auto.
      * exists (now b). split_and!; auto. congruence.
    + exists (now e). split_and!; auto. by rewrite E.
  - intros e' (e & He & ->)%Hin R.
    destruct (alone_or_peer e He) as [(b & Hb & Hs & Hd)|[E R']].
    + destruct (peers_now e b He Hb Hs Hd) as ([[_ _ _ ? _ _]|[_ _ [? Hr] _ _ _]] & _); [done|].
      by rewrite Hr in R.
    + rewrite E. by apply (config_up _ Hl).
  - intros a' b' (a & Ha & ->)%Hin (b & Hb & ->)%Hin Hs Hd.
    destruct (now_dbid a Ha) as [Da Sa]. destruct (now_dbid b Hb) as [Db Sb].
    destruct (peers_now a b Ha Hb ltac:(congruence) ltac:(congruence))
      as ([[_ _ [R1 R2] U M Y]|[_ _ [R1 R2] U M Y]] & _); rewrite R1, R2.
    + split_and!; [done|done|]. unfold SEGMENT_IS_ALIVE. by rewrite U.
    + split_and!; [done|done|done].
Qed.

End Preserved.


(** ** An example *)

(** Content 0 with its primary, dbid 2, and its mirror, dbid 3, in sync. *)
Module Example.
Definition primary : GpSegConfigEntry :=
  mk_config 2 0 GP_SEGMENT_CONFIGURATION_ROLE_PRIMARY GP_SEGMENT_CONFIGURATION_ROLE_PRIMARY
    GP_SEGMENT_CONFIGURATION_MODE_INSYNC GP_SEGMENT_CONFIGURATION_STATUS_UP.
Definition mirror : GpSegConfigEntry :=
  mk_config 3 0 GP_SEGMENT_CONFIGURATION_ROLE_MIRROR GP_SEGMENT_CONFIGURATION_ROLE_MIRROR
    GP_SEGMENT_CONFIGURATION_MODE_INSYNC GP_SEGMENT_CONFIGURATION_STATUS_UP.
Definition cdbs : CdbComponentDatabases := Build_CdbComponentDatabases [primary; mirror] 1.
Definition start : Cluster := mk_cluster {[2 := primary; 3 := mirror]} [] ∅.
Definition cfg : FtsSettings := Build_FtsSettings 1 20.

Definition pending : PGconn := Build_PGconn CONNECTION_PENDING false EmptyString.

(** Segments that never become ready; a pass takes 30 seconds. *)
Definition silence (n : nat) : Events :=
  let clock := 30 * Z.of_nat n in
  Build_Events
    (fun _ => Build_LibpqEvents (Some pending) clock (PGRES_POLLING_WRITING, pending)
       (false, pending) (false, pending) (false, pending) (None, pending))
    (PollReturned (fun _ => 0)) (clock + 5) (clock + 6).

Lemma cdbs_start : cdbs_ok cdbs start.
Proof.
  assert (Hin : forall e, e ∈ [primary; mirror] -> e = primary \/ e = mirror).
  { intros e. rewrite elem_of_cons, list_elem_of_singleton. done. }
  assert (Hp : primary ∈ [primary; mirror]) by apply list_elem_of_here.
  constructor; [constructor| | |].
  - vm_compute. apply NoDup_cons_2; [|apply NoDup_singleton]. by rewrite list_elem_of_singleton.
  - intros e [-> | ->]%Hin; (split; [by vm_compute; auto 6|by vm_compute]).
  - intros e [-> | ->]%Hin; by exists primary.
  - by intros e [-> | ->]%Hin.
  - by intros a b [-> | ->]%Hin [-> | ->]%Hin.
  - by vm_compute.
  - by vm_compute.
  - by intros e [-> | ->]%Hin.
Qed.

Lemma silence_ok n : events_ok (silence n).
Proof. split; [|done]. intros k. by constructor. Qed.

End Example.


Lemma cycle_asserts_hold_witness :
  let es := Example.silence <$> seq 0 3 in
  exists P fds l, FtsLoop_probe Example.cfg Example.cdbs es Example.start = Ok P /\
    before_response Example.cfg (Example.silence 3) P = Ok (fds, l) /\
    forallb (processResponse_asserts Example.cfg) l = true.
Proof.
  intros es. apply (cycle_asserts_hold Example.cfg Example.cdbs es (Example.silence 3) Example.start).
  - by vm_compute.
  - exact Example.cdbs_start.
  - apply Forall_fmap, Forall_true. exact Example.silence_ok.
  - apply Example.silence_ok.
Defined.

