(* ===== verification/FtsTermination.v ===== *)
(** * The end of a probe cycle

    On the model of [FtsProbe] and the invariant of [FtsCycle]: a cycle ends, for every behaviour of the segments
    in which libpq keeps its promises, the clock runs and no answer arrives in
    parts; and a segment that sends a part of an answer and then nothing keeps
    the prober in the cycle for ever, because the timeout is not tested for a
    connection that is not polled. *)

From Stdlib Require Import ZArith String Ascii.
From stdpp Require Import base list gmap.
From S2P Require Import Prelude FtsProbe FtsCycle.

(** ** What libpq promises *)

(** A new connection is not yet established; [PQconnectPoll] says so when it is,
    and it is then idle; a connection is busy after a query was sent; and all of
    an answer has arrived when a part of it has. *)
Record libpq_live (ev : LibpqEvents) : Prop := {
  live_start : forall c, ev.(connectStart) = Some c -> c.(conn_status) <> CONNECTION_OK;
  live_poll : match ev.(connectPoll) with
              | (PGRES_POLLING_OK, c) => c.(conn_status) = CONNECTION_OK /\ c.(async_idle) = true
              | (PGRES_POLLING_READING, c) | (PGRES_POLLING_WRITING, c) =>
                  c.(conn_status) <> CONNECTION_OK
              | _ => True
              end;
  live_send : forall c, ev.(sendQuery) = (true, c) ->
    c.(conn_status) = CONNECTION_OK /\ c.(async_idle) = false;
  live_whole : fst ev.(isBusy) = false
}.

Definition events_live (e : Events) : Prop := forall k, libpq_live (e.(libpq) k).

(** ** A measure of what is left of a cycle *)

Definition is_waiting (s : FtsMessageState) : bool :=
  match s with
  | FTS_PROBE_RETRY_WAIT | FTS_SYNCREP_OFF_RETRY_WAIT | FTS_PROMOTE_RETRY_WAIT => true
  | _ => false
  end.

Section Rank.
Context (cfg : FtsSettings).

(** The attempts that a phase has left. *)
Definition attempts (i : fts_segment_info) : Z :=
  2 * (cfg.(gp_fts_probe_retries) - i.(retry_count)) + (if is_waiting i.(state) then 2 else 1).

(** More than [attempts] can be. *)
Definition phase_size : Z := 2 * cfg.(gp_fts_probe_retries) + 3.

Definition rank (i : fts_segment_info) : Z :=
  match phase i.(state) with
  | Probing => phase_size + attempts i
  | Unsyncing | Promoting => attempts i
  | Finished => 0
  end.

Lemma rank_zero p m i : good cfg p m i -> 0 <= rank i /\ (rank i = 0 <-> i.(state) = FTS_RESPONSE_PROCESSED).
Proof.
  intros [Hc _ _ _ _]. unfold rank, attempts, phase_size.
  destruct i.(state); simpl; split; try lia; split; try done; lia.
Qed.

(** ** One pair in one pass *)

Definition polling (z : Z) : Prop := z = POLLIN \/ z = POLLOUT \/ z = Z.lor POLLIN POLLOUT.

(** A connection that is being made or used is polled or about to be used. *)
Definition attached (i : fts_segment_info) : Prop :=
  is_messaging i.(state) = true -> forall c, i.(conn) = Some c ->
  match c.(conn_status) with
  | CONNECTION_OK => if c.(async_idle) then i.(poll_events) = POLLOUT else i.(poll_events) = POLLIN
  | _ => polling i.(poll_events) \/
         (i.(poll_events) = 0 /\ Z.land i.(poll_revents) (Z.lor POLLOUT POLLIN) <> 0)
  end.

Definition started (e : Events) (i0 i : fts_segment_info) : Prop :=
  match i0.(conn) with
  | None => exists k, i.(startTime) = (e.(libpq) k).(startClock)
  | Some _ => i.(startTime) = i0.(startTime)
  end.

(** Between the steps of a pass that began with [i0]: a pair with a message
    either has its answer or a failure, or still has its connection, of which [K]
    holds. *)
Definition mid (e : Events) (K : fts_segment_info -> Prop) (i0 i : fts_segment_info) : Prop :=
  i.(retry_count) = i0.(retry_count) /\
  if is_messaging i0.(state) then
    ftsResponseReady i = true \/
    (i.(state) = i0.(state) /\ i.(conn) <> None /\ started e i0 i /\ K i)
  else i.(state) = i0.(state) /\ i.(retryStartTime) = i0.(retryStartTime).

(** A connection that is made is polled for sending or for the answer. *)
Definition polled_conn (i : fts_segment_info) : Prop :=
  polling i.(poll_events) /\
  forall c, i.(conn) = Some c -> c.(conn_status) = CONNECTION_OK ->
    if c.(async_idle) then i.(poll_events) = POLLOUT else i.(poll_events) = POLLIN.

Lemma polling_waits i : polling i.(poll_events) -> waits i = true.
Proof. unfold waits. by intros [-> | [-> | ->]]. Qed.

Lemma polling_or z : z = 0 \/ polling z -> polling (Z.lor z POLLIN) /\ polling (Z.lor z POLLOUT).
Proof. unfold polling. intros [-> | [-> | [-> | ->]]]; vm_compute; tauto. Qed.

Lemma fail_ready i i' : fail i = Ok i' ->
  ftsResponseReady i' = true /\ i'.(retry_count) = i.(retry_count).
Proof.
  unfold fail, ftsResponseReady. destruct i.(state); cbn; intros [= <-]; done.
Qed.

Lemma check_restart_same msg i :
  (checkIfFailedDueToNormalRestart msg i).(state) = i.(state) /\
  (checkIfFailedDueToNormalRestart msg i).(retry_count) = i.(retry_count).
Proof. unfold checkIfFailedDueToNormalRestart. by repeat case_match. Qed.

Lemma connect_mid e k p m i i' :
  libpq_live (e.(libpq) k) -> good cfg p m i -> ftsResponseReady i = false -> attached i ->
  connect_segment (e.(libpq) k) i = Ok i' -> mid e polled_conn i i'.
Proof.
  intros [Ls Lp _ _] Hg Hr Hat. unfold connect_segment, mid.
  destruct (is_messaging i.(state)) eqn:Hm.
  2:{ destruct (connected i.(conn)); intros [= <-]; by split_and!. }
  specialize (Hat Hm).
  destruct i.(conn) as [c|] eqn:Ec; unfold connected, PQstatus.
  - specialize (Hat c eq_refl). destruct (conn_status c) eqn:Es.
    { intros [= <-]. split; [done|]. right. unfold started. rewrite Ec. split_and!; try done.
      split; [unfold polling; destruct (async_idle c); rewrite Hat; tauto|].
      intros c' Hc'. rewrite Ec in Hc'. by injection Hc' as <-. }
    all: change (conn (set_restart PM_NOT_IN_RESTART i)) with (conn i); rewrite Ec; simpl.
    all: destruct (Z.land i.(poll_revents) (Z.lor POLLOUT POLLIN) =? 0) eqn:Ev.
    1,3: intros [= <-]; split; [done|]; right; unfold started; simpl; rewrite Ec;
      split_and!; [done..|]; split; [destruct Hat as [Hat|[_ Hat]]; [done|lia]|];
      simpl; intros c' Hc'; rewrite Ec in Hc'; injection Hc' as <-; by rewrite Es.
    all: destruct (connectPoll _) as [pl c'] eqn:Ep; destruct pl; try done.
    all: try (intros [= <-]; split; [done|]; right; unfold started; rewrite Ec; split_and!; try done;
      (split; [by right; left|] || (split; [apply polling_or; simpl; tauto|]));
      ( simpl; intros c2 [= <-];
       destruct_and?; intros Hok; try done; by destruct (async_idle _))).
    all: destruct (fail _) as [i1| |] eqn:Ef; try done; cbn [mbind outcome_bind]; intros [= <-];
      apply fail_ready in Ef as [Ef1 Ef2]; unfold ftsResponseReady in *;
      destruct (check_restart_same (errorMessage c') i1) as [-> ->]; split; [done|by left].
  - change (conn (set_restart PM_NOT_IN_RESTART i)) with (conn i). rewrite Ec.
    unfold ftsConnectStart. simpl. destruct (deref _); try done. cbn [mbind outcome_bind].
    destruct (connectStart _) as [c|] eqn:Est; [|done]. specialize (Ls c eq_refl).
    destruct (conn_status c) eqn:Es; [done| |]; cbn [mbind outcome_bind].
    + intros Ef. apply fail_ready in Ef as [Ef1 Ef2]. split; [done|by left].
    + intros [= <-]. split; [done|]. right. unfold started. rewrite Ec. split_and!; try done.
      * by exists k.
      * split; [|simpl; intros c' [= <-]; by rewrite Es].
        simpl. destruct (good_conn _ _ _ _ Hg Ec) as [-> _]. by right; left.
Qed.

Definition unexpired (e : Events) (i : fts_segment_info) : Prop :=
  s32 (e.(pollClock) - i.(startTime)) <= cfg.(gp_fts_probe_timeout).

(** After [poll], the socket of a connection is still polled, or it is ready. *)
Definition poll_done (i : fts_segment_info) : Prop :=
  forall c, i.(conn) = Some c ->
  match c.(conn_status) with
  | CONNECTION_OK =>
      if c.(async_idle)
      then i.(poll_events) = POLLOUT \/ i.(poll_events) = 0 /\ Z.land i.(poll_revents) POLLOUT <> 0
      else i.(poll_events) = POLLIN \/ i.(poll_events) = 0 /\ Z.land i.(poll_revents) POLLIN <> 0
  | _ => polling i.(poll_events) \/
         (i.(poll_events) = 0 /\ Z.land i.(poll_revents) (Z.lor POLLOUT POLLIN) <> 0)
  end.

(** After sending, it is polled, or an answer is ready. *)
Definition send_done (i : fts_segment_info) : Prop :=
  forall c, i.(conn) = Some c ->
  match c.(conn_status) with
  | CONNECTION_OK =>
      if c.(async_idle) then i.(poll_events) = POLLOUT
      else i.(poll_events) = POLLIN \/ i.(poll_events) = 0 /\ Z.land i.(poll_revents) POLLIN <> 0
  | _ => polling i.(poll_events) \/
         (i.(poll_events) = 0 /\ Z.land i.(poll_revents) (Z.lor POLLOUT POLLIN) <> 0)
  end.

Lemma timeout_spec now i i' : ftsCheckTimeout cfg now i = Ok i' ->
  IsFtsMessageStateSuccess i.(state) = false ->
  ftsResponseReady i' = true /\ i'.(retry_count) = i.(retry_count) \/
  i' = i /\ s32 (now - i.(startTime)) <= cfg.(gp_fts_probe_timeout).
Proof.
  unfold ftsCheckTimeout. intros E Hs. rewrite Hs in E. simpl in E. case_match eqn:Et.
  - left. by apply fail_ready in E.
  - simplify_eq. right. split; [done|lia].
Qed.

Lemma land_sub r ev : polling ev -> Z.land r ev <> 0 -> Z.land r (Z.lor POLLOUT POLLIN) <> 0.
Proof.
  intros Hp Hr H. apply Hr. apply bits_ext. intros b Hb. rewrite Z.testbit_0_l, Z.land_spec.
  assert (Hz : Z.testbit (Z.land r (Z.lor POLLOUT POLLIN)) b = false) by (rewrite H; apply Z.testbit_0_l).
  rewrite Z.land_spec, Z.lor_spec in Hz.
  destruct (Z.testbit r b); [|done]. simpl in *. apply orb_false_elim in Hz as [H1 H2].
  destruct Hp as [-> | [-> | ->]]; rewrite ?Z.lor_spec, ?H1, ?H2; done.
Qed.

(** The end of the body of the second loop of [ftsPoll]. *)
Definition poll_end (nready now : Z) (i : fts_segment_info) : outcome fts_segment_info :=
  let i := if negb (IsFtsMessageStateSuccess i.(state)) && (nready =? 0)
           then set_timeout_count (i.(timeout_count) + 1) i else i in
  ftsCheckTimeout cfg now i.

Lemma poll_end_ready nready now i i' :
  poll_end nready now i = Ok i' -> IsFtsMessageStateFailed i.(state) = true ->
  ftsResponseReady i' = true /\ i'.(retry_count) = i.(retry_count).
Proof.
  unfold poll_end. intros E Hf.
  assert (Hs : IsFtsMessageStateSuccess i.(state) = false) by by destruct i.(state).
  apply timeout_spec in E as [[H1 H2]|[-> _]]; try (split; [done|]); case_match; try done;
    unfold ftsResponseReady; simpl; by rewrite Hf, orb_true_r.
Qed.

Lemma poll_end_spec nready now i i' :
  poll_end nready now i = Ok i' -> IsFtsMessageStateSuccess i.(state) = false ->
  ftsResponseReady i' = true /\ i'.(retry_count) = i.(retry_count) \/
  (exists n, i' = set_timeout_count n i) /\ s32 (now - i.(startTime)) <= cfg.(gp_fts_probe_timeout).
Proof.
  unfold poll_end. intros E Hs.
  apply timeout_spec in E as [[H1 H2]|[-> Ht]]; [left|right|by case_match].
  - split; [done|]. rewrite H2. by case_match.
  - split; [|by case_match]. case_match; [by eexists|]. exists i.(timeout_count). by destruct i.
Qed.

Lemma fail_failed i i' : fail i = Ok i' ->
  IsFtsMessageStateFailed i'.(state) = true /\ i'.(retry_count) = i.(retry_count).
Proof. unfold fail. destruct i.(state); cbn; intros [= <-]; done. Qed.

(** The three ways on from the test of the events of a socket. *)
Lemma poll_segment_cases revents nready now i i' :
  poll_segment cfg revents nready now i = Ok i' -> waits i = true ->
  exists r, 
    (Z.land r i.(poll_events) <> 0 /\ poll_end nready now (set_events 0 (set_revents r i)) = Ok i') \/
    (exists i1, fail (set_revents r i) = Ok i1 /\ poll_end nready now i1 = Ok i') \/
    (r = 0 /\ poll_end nready now (set_revents r i) = Ok i').
Proof.
  unfold poll_segment, poll_end. intros E Hw. rewrite Hw in E.
  destruct (zget revents i.(fd_index)) as [r| |]; try done. cbn [mbind outcome_bind] in E.
  exists r. change (poll_events (set_revents r i)) with (poll_events i) in E.
  destruct (Z.land r i.(poll_events) =? 0) eqn:E1; cbn [negb mbind outcome_bind] in E;
    [|left; split; [lia|exact E]].
  right. destruct (Z.land r (Z.lor POLLHUP POLLERR) =? 0) eqn:E2; cbn [negb] in E.
  - destruct (r =? 0) eqn:E3; cbn [negb] in E; [right; split; [lia|exact E]|].
    left. destruct (fail (set_revents r i)) as [i1| |]; try done. cbn [mbind outcome_bind] in E.
    exists i1. destruct (deref i1.(conn)); done.
  - left. destruct (fail (set_revents r i)) as [i1| |]; try done. cbn [mbind outcome_bind] in E.
    exists i1. destruct (deref i1.(conn)); done.
Qed.

Lemma poll_mid e p m revents nready ph i0 i i' :
  ftsResponseReady i0 = false ->
  unanswered cfg p m ph i -> mid e polled_conn i0 i ->
  poll_segment cfg revents nready e.(pollClock) i = Ok i' ->
  mid e (fun i => unexpired e i /\ poll_done i) i0 i'.
Proof.
  intros Hr0 Hu [Hrc Hm] E. pose proof Hu as (Hg & _ & Hs). unfold mid.
  destruct (is_messaging i0.(state)) eqn:Hm0.
  2:{ assert (Hw : waits i = false).
      { destruct (waits i) eqn:Hw; [|done]. exfalso.
        apply (good_unconnected cfg p m i Hg Hw), (good_idle _ _ _ _ Hg).
        destruct Hm as [Hst _]. unfold ftsResponseReady in *. by rewrite Hst, Hm0, Hr0. }
      unfold poll_segment in E. rewrite Hw in E. by simplify_eq. }
  destruct Hm as [Hr|(Hst & Hc & Hsta & Hp & Hok)].
  { assert (Hf : IsFtsMessageStateFailed i.(state) = true).
    { unfold ftsResponseReady in Hr. by rewrite Hs in Hr. }
    destruct (waits i) eqn:Hw; [|unfold poll_segment in E; rewrite Hw in E; simplify_eq; auto].
    destruct (poll_segment_cases _ _ _ _ _ E Hw) as (r & [[_ E']|[(i1 & E1 & E')|[_ E']]]).
    - apply poll_end_ready in E' as [? Hc]; [|done]. split; [by rewrite Hc|by left].
    - apply fail_failed in E1 as [E1 Hc1]. apply poll_end_ready in E' as [? Hc]; [|done].
      split; [by rewrite Hc, Hc1|by left].
    - apply poll_end_ready in E' as [? Hc]; [|done]. split; [by rewrite Hc|by left]. }
  destruct (poll_segment_cases _ _ _ _ _ E (polling_waits _ Hp)) as (r & [[Hl E']|[(i1 & E1 & E')|[_ E']]]).
  - apply poll_end_spec in E' as [[? Hc']|[[n ->] Ht]]; [split; [by rewrite Hc'|by left]| |done].
    split; [done|]. right. split_and!; try done. intros c Hcn. simpl in *.
    specialize (Hok c Hcn). destruct (conn_status c); [specialize (Hok eq_refl)| |].
    + destruct (async_idle c); rewrite Hok in Hl; by right.
    + right. split; [done|]. by eapply land_sub.
    + right. split; [done|]. by eapply land_sub.
  - apply fail_failed in E1 as [E1 Hc1]. apply poll_end_ready in E' as [? Hc']; [|done].
    split; [by rewrite Hc', Hc1|by left].
  - apply poll_end_spec in E' as [[? Hc']|[[n ->] Ht]]; [split; [by rewrite Hc'|by left]| |done].
    split; [done|]. right. split_and!; try done. intros c Hcn. simpl in *.
    specialize (Hok c Hcn). destruct (conn_status c); [specialize (Hok eq_refl)| |].
    + destruct (async_idle c); by left.
    + by left.
    + by left.
Qed.

Lemma send_mid e k i0 i i' :
  libpq_live (e.(libpq) k) -> mid e (fun i => unexpired e i /\ poll_done i) i0 i ->
  send_segment (e.(libpq) k) i = Ok i' -> mid e (fun i => unexpired e i /\ send_done i) i0 i'.
Proof.
  intros [_ _ Lsd _] [Hrc Hm]. unfold send_segment, mid.
  destruct (is_messaging i.(state)) eqn:Hmi.
  2:{ intros [= <-]. split; [done|]. destruct (is_messaging i0.(state)) eqn:Hm0; [|done].
      destruct Hm as [Hr|(Hst & _)]; [by left|congruence]. }
  destruct (is_messaging i0.(state)) eqn:Hm0.
  2:{ destruct Hm as [Hst _]. congruence. }
  destruct Hm as [Hr|(Hst & Hc & Hsta & Hx & Hp)].
  { unfold ftsResponseReady in Hr. by destruct i.(state). }
  destruct i.(conn) as [c|] eqn:Ec; [|done]. specialize (Hp c Ec).
  unfold connected, PQstatus. destruct (conn_status c) eqn:Es; simpl.
  2,3: intros [= <-]; (split; [done|]); right; rewrite Ec; split_and!; try done;
    intros c'; rewrite Ec; intros [= <-]; by rewrite Es.
  destruct (negb (async_idle c) || (Z.land i.(poll_revents) POLLOUT =? 0)) eqn:Ei.
  - intros [= <-]. split; [done|]. right. rewrite Ec. split_and!; try done.
    intros c'. rewrite Ec. intros [= <-]. rewrite Es.
    destruct (async_idle c); [|done]. destruct Hp as [Hp|[_ Hp]]; [done|].
    simpl in Ei. lia.
  - destruct (deref i.(primary_cdbinfo)); try done. cbn [mbind outcome_bind].
    destruct (sendQuery _) as [[] c'] eqn:Eq.
    + intros [= <-]. split; [done|]. right. split_and!; [exact Hst|done|exact Hsta|exact Hx|].
      intros c2 [= <-]. destruct (Lsd c' eq_refl) as [-> ->]. by left.
    + intros Ef. apply fail_ready in Ef as [? Hf]. split; [by rewrite Hf|by left].
Qed.

Lemma receive_mid e k i0 i i' :
  libpq_live (e.(libpq) k) -> mid e (fun i => unexpired e i /\ send_done i) i0 i ->
  receive_segment (e.(libpq) k) i = Ok i' -> mid e (fun i => unexpired e i /\ attached i) i0 i'.
Proof.
  intros [_ _ _ Lb] [Hrc Hm]. unfold receive_segment, mid.
  destruct (is_messaging i.(state)) eqn:Hmi.
  2:{ intros [= <-]. split; [done|]. destruct (is_messaging i0.(state)) eqn:Hm0; [|done].
      destruct Hm as [Hr|(Hst & _)]; [by left|congruence]. }
  destruct (is_messaging i0.(state)) eqn:Hm0.
  2:{ destruct Hm as [Hst _]. congruence. }
  destruct Hm as [Hr|(Hst & Hc & Hsta & Hx & Hp)].
  { unfold ftsResponseReady in Hr. by destruct i.(state). }
  assert (Hready : forall j, ftsResponseReady j = true -> retry_count j = retry_count i ->
    retry_count j = retry_count i0 /\ (ftsResponseReady j = true \/
      state j = state i0 /\ conn j <> None /\ started e i0 j /\ unexpired e j /\ attached j)).
  { intros j H1 H2. split; [congruence|by left]. }
  assert (Hfail : forall c j, fail (set_conn (Some c) i) = Ok j ->
    ftsResponseReady j = true /\ retry_count j = retry_count i).
  { intros c j Hf. by apply fail_ready in Hf. }
  destruct (negb (connected i.(conn)) || (Z.land i.(poll_revents) POLLIN =? 0)) eqn:Ec.
  - intros [= <-]. split; [done|]. right. split_and!; try done.
    intros _ c Hcn. specialize (Hp c Hcn). rewrite Hcn in Ec. unfold connected, PQstatus in Ec.
    destruct (conn_status c); try done. simpl in Ec. destruct (async_idle c); [done|].
    destruct Hp as [Hp|[_ Hp]]; [done|]. lia.
  - destruct (consumeInput _) as [[] c1]; simpl; [|intros Hf; apply Hfail in Hf as []; auto].
    destruct (isBusy _) as [b c2]. simpl in Lb. subst b.
    destruct (getResult _) as [res c3]. change (set_conn (Some c3) _) with (set_conn (Some c3) i).
    destruct res as [r|]; [|intros Hf; apply Hfail in Hf as []; auto].
    assert (Hs : (if negb (tuples_ok r) then fail (set_conn (Some c3) i)
      else if negb (nfields r =? Natts_fts_message_response) ||
              negb (zlen r.(tuples) =? FTS_MESSAGE_RESPONSE_NTUPLES)
      then fail (set_conn (Some c3) i)
      else i ← probeRecordResponse r (set_conn (Some c3) i);
           s ← nextSuccessState i.(state); Ok (set_state s i)) = Ok i' ->
      ftsResponseReady i' = true /\ retry_count i' = retry_count i).
    { case_match; [by apply Hfail|]. case_match; [by apply Hfail|].
      unfold probeRecordResponse. repeat (destruct (response_flag _ _); try done; cbn [mbind outcome_bind]).
      simpl. unfold ftsResponseReady. destruct i.(state); cbn; try done; by intros [= <-]. }
    destruct c3.(conn_status); intros Hf; (apply Hs in Hf as [] || apply Hfail in Hf as []); auto.
Qed.

(** ** Retries and responses *)

(** The ways of a pair through a pass, up to [processResponse]. *)
Inductive retried (e : Events) (i0 i : fts_segment_info) : Prop :=
  | retried_ready :
      is_messaging i0.(state) = true -> ftsResponseReady i = true -> retried e i0 i
  | retried_later :
      is_messaging i0.(state) = true -> is_waiting i.(state) = true ->
      i.(retry_count) = i0.(retry_count) + 1 -> i.(retryStartTime) = e.(retryClock) ->
      retried e i0 i
  | retried_stay :
      is_messaging i0.(state) = true -> i.(state) = i0.(state) ->
      i.(retry_count) = i0.(retry_count) -> i.(conn) <> None -> started e i0 i ->
      unexpired e i -> attached i -> retried e i0 i
  | retried_wait :
      is_waiting i0.(state) = true -> i.(state) = i0.(state) ->
      i.(retry_count) = i0.(retry_count) -> i.(retryStartTime) = i0.(retryStartTime) ->
      s32 (e.(retryClock) - i0.(retryStartTime)) < 1 -> retried e i0 i
  | retried_again :
      is_waiting i0.(state) = true -> is_messaging i.(state) = true ->
      i.(retry_count) = i0.(retry_count) -> i.(conn) = None -> retried e i0 i
  | retried_done :
      i0.(state) = FTS_RESPONSE_PROCESSED -> i.(state) = FTS_RESPONSE_PROCESSED ->
      retried e i0 i.

Lemma retry_failed_cases now i :
  ftsResponseReady i = true ->
  let i' := retryForFtsFailed cfg now i in
  i' = i \/ is_waiting i'.(state) = true /\ i'.(retry_count) = i.(retry_count) + 1 /\
            i'.(retryStartTime) = now.
Proof.
  intros Hr. unfold retryForFtsFailed. case_match; [by left|]. right. simpl. by destruct i.(state).
Qed.

Lemma retry_mid e p m ph i0 i i' :
  ftsResponseReady i0 = false -> answered cfg p m ph i ->
  mid e (fun i => unexpired e i /\ attached i) i0 i ->
  retry_segment cfg e.(retryClock) i = Ok i' -> retried e i0 i'.
Proof.
  intros Hr0 [Hg _] [Hrc Hm] E. unfold retry_segment in E.
  destruct (is_messaging i0.(state)) eqn:Hm0.
  - destruct Hm as [Hr|(Hst & Hc & Hsta & Hx & Ha)].
    + destruct (retry_failed_cases e.(retryClock) i Hr) as [Hf|(Hw & Hcnt & Hts)].
      * unfold ftsResponseReady in Hr. rewrite Hf in E.
        assert (i' = i) as ->.
        { destruct i.(state) eqn:Es; try done; try by simplify_eq.
          destruct (retryRequested _); [|by simplify_eq].
          destruct (deref _); try done. cbn [mbind outcome_bind] in E.
          case_match; by simplify_eq. }
        by apply retried_ready.
      * assert (Hl : retried e i0 (retryForFtsFailed cfg e.(retryClock) i)).
        { apply retried_later; try done. by rewrite Hcnt, Hrc. }
        assert (Hi : retried e i0 i) by by apply retried_ready.
        unfold ftsResponseReady in Hr.
        destruct i.(state) eqn:Es; try done; try (by injection E as <-).
        destruct (retryRequested _); [|by simplify_eq].
        destruct (deref _) as [b| |]; try done. cbn [mbind outcome_bind] in E.
        destruct (SEGMENT_IS_ALIVE b); by injection E as <-.
    + assert (i' = i) as ->; [|by apply retried_stay].
      rewrite Hst in E. destruct i0.(state); try done; by simplify_eq.
  - destruct Hm as [Hst Hts]. unfold ftsResponseReady in Hr0. rewrite Hst, Hts in E.
    assert (Hn : i.(conn) = None).
    { apply (good_idle _ _ _ _ Hg). unfold ftsResponseReady. by rewrite Hst, Hm0, Hr0. }
    destruct i0.(state) eqn:Es; try done;
      try (case_match eqn:Et; simplify_eq; [apply retried_wait; rewrite ?Es; try done; lia
                                           |apply retried_again; by rewrite ?Es]).
    simplify_eq. by apply retried_done; rewrite ?Es.
Qed.

Lemma respond_moves i w i' w' u :
  respond_segment i w = Ok (i', w', u) ->
  if ftsResponseReady i then
    i'.(retry_count) = 0 /\ i'.(conn) = None /\ is_waiting i'.(state) = false /\
    (phase i.(state) = Probing /\ phase i'.(state) <> Probing \/ phase i'.(state) = Finished)
  else i' = i.
Proof.
  unfold respond_segment. destruct (ftsResponseReady i) eqn:Hr; simpl; [|by intros [= <- _ _]].
  destruct (deref i.(primary_cdbinfo)) as [a| |]; try done. cbn [mbind outcome_bind].
  destruct (deref i.(mirror_cdbinfo)) as [b| |]; try done. cbn [mbind outcome_bind].
  unfold ftsResponseReady in Hr.
  destruct i.(state); try done; simpl;
    repeat (case_match; simpl);
    repeat (destruct (updateConfiguration _ _ _ _ _ _ _ _) as [[? ?]| |]; try done;
            cbn [mbind outcome_bind]);
    intros [= <- _ _]; split_and!; try done; simpl; auto.
Qed.

(** What a pass does to a pair. *)
Inductive progress (e : Events) (i0 i : fts_segment_info) : Prop :=
  | progress_moved :
      rank i < rank i0 -> (is_messaging i.(state) = true -> i.(conn) = None) ->
      (is_waiting i.(state) = true -> i.(retryStartTime) = e.(retryClock)) -> progress e i0 i
  | progress_stay :
      is_messaging i0.(state) = true -> i.(state) = i0.(state) ->
      i.(retry_count) = i0.(retry_count) -> i.(conn) <> None -> started e i0 i ->
      unexpired e i -> attached i -> progress e i0 i
  | progress_wait :
      is_waiting i0.(state) = true -> i.(state) = i0.(state) ->
      i.(retry_count) = i0.(retry_count) -> i.(retryStartTime) = i0.(retryStartTime) ->
      s32 (e.(retryClock) - i0.(retryStartTime)) < 1 -> progress e i0 i
  | progress_done :
      i0.(state) = FTS_RESPONSE_PROCESSED -> i.(state) = FTS_RESPONSE_PROCESSED ->
      progress e i0 i.

Lemma progress_ok e p m i0 i w i' w' u :
  good cfg p m i0 -> answered cfg p m (phase i0.(state)) i -> retried e i0 i ->
  respond_segment i w = Ok (i', w', u) -> progress e i0 i'.
Proof.
  intros [Hc0 _ _ _ _] [[Hc _ _ _ _] Hph] Hret E. apply respond_moves in E.
  destruct Hret as [Hm Hr|Hm Hw Hcnt Hts|Hm Hst Hcnt Hcn Hsta Hx Ha|Hw Hst Hcnt Hts Hx|Hw Hm Hcnt Hcn|Hd Hd'].
  - rewrite Hr in E. destruct E as (Ec & Ecn & Ew & Hp). apply progress_moved.
    + unfold rank, attempts, phase_size. rewrite Ec, Ew. rewrite Hph in Hp.
      destruct (phase i0.(state)) eqn:E0, (phase i'.(state)); try (by destruct Hp as [[? ?]|?]);
        destruct (is_waiting i0.(state)); try lia. all: by destruct i0.(state).
    + done.
    + by rewrite Ew.
  - assert (Hr : ftsResponseReady i = false) by (unfold ftsResponseReady; by destruct i.(state)).
    rewrite Hr in E. subst i'. apply progress_moved; [|by destruct i.(state)|done].
    unfold rank, attempts. rewrite Hph, Hcnt, Hw.
    assert (is_waiting i0.(state) = false) as -> by by destruct i0.(state).
    destruct (phase i0.(state)) eqn:E0; try lia. by destruct i0.(state).
  - assert (Hr : ftsResponseReady i = false).
    { unfold ftsResponseReady. rewrite Hst. by destruct i0.(state). }
    rewrite Hr in E. subst i'. by apply progress_stay.
  - assert (Hr : ftsResponseReady i = false).
    { unfold ftsResponseReady. rewrite Hst. by destruct i0.(state). }
    rewrite Hr in E. subst i'. by apply progress_wait.
  - assert (Hr : ftsResponseReady i = false).
    { unfold ftsResponseReady. by destruct i.(state). }
    rewrite Hr in E. subst i'. apply progress_moved; [|done|by destruct i.(state)].
    unfold rank, attempts. rewrite Hph, Hcnt, Hw.
    assert (is_waiting i.(state) = false) as -> by by destruct i.(state).
    destruct (phase i0.(state)) eqn:E0; try lia. by destruct i0.(state).
  - assert (Hr : ftsResponseReady i = false) by (unfold ftsResponseReady; by rewrite Hd').
    rewrite Hr in E. subst i'. by apply progress_done.
Qed.

Lemma progress_attached e i0 i : progress e i0 i -> attached i.
Proof.
  intros [_ Hc _|? ? ? ? ? ? Ha|Hw Hs _ _ _|_ Hs] Hm c Hcn; [by rewrite (Hc Hm) in Hcn|by apply Ha| |].
  - rewrite Hs in Hm. by destruct i0.(state).
  - by rewrite Hs in Hm.
Qed.

Lemma progress_rank e i0 i : progress e i0 i -> rank i <= rank i0.
Proof.
  unfold rank, attempts. intros [H _ _|_ Hs Hc _ _ _ _|_ Hs Hc _ _|Hd Hs]; [|rewrite Hs, Hc..|].
  - unfold rank, attempts in H. lia.
  - lia.
  - lia.
  - by rewrite Hd, Hs.
Qed.

(** ** All pairs in one pass *)

Lemma processResponse_each l : forall w l' w' u, processResponse l w = Ok (l', w', u) ->
  Forall2 (fun i i' => exists w1 w2 u, respond_segment i w1 = Ok (i', w2, u)) l l'.
Proof.
  induction l as [|i l IH]; intros w l' w' u; cbn [processResponse]; [by intros [= <- _ _]|].
  destruct (respond_segment i w) as [[[i1 w1] u1]| |] eqn:E1; try done. cbn [mbind outcome_bind].
  destruct (processResponse l w1) as [[[l2 w2] u2]| |] eqn:E2; try done. cbn [mbind outcome_bind].
  intros [= <- _ _]. constructor; eauto.
Qed.

Lemma before_response_retried pms e P :
  Forall2 (fun pm i => (good cfg pm.1 pm.2 i /\ ftsResponseReady i = false) /\ attached i)
    pms P.(perSegInfos) ->
  zlen P.(perSegInfos) <= zlen P.(PollFds) -> zlen P.(perSegInfos) < 2 ^ 15 ->
  events_ok e -> events_live e ->
  exists fds l, before_response cfg e P = Ok (fds, l) /\
    Forall2 (fun b i => answered cfg b.1.1 b.1.2 (phase b.2.(state)) i /\ retried e b.2 i)
      (zip pms P.(perSegInfos)) l.
Proof.
  intros HF Hfds Hb [Hev Hpl] Hlive. set (bs := zip pms P.(perSegInfos)).
  set (U := fun (b : GpSegConfigEntry * GpSegConfigEntry * fts_segment_info) i =>
    ftsResponseReady b.2 = false /\ unanswered cfg b.1.1 b.1.2 (phase b.2.(state)) i).
  assert (H0 : Forall2 (fun b i => U b i /\ i = b.2 /\ attached i) bs P.(perSegInfos)).
  { unfold bs, U. clear -HF. induction HF as [|pm i pms l [[Hg Hr] Ha] HF IH]; constructor; [|done].
    unfold ftsResponseReady in *. apply orb_false_elim in Hr as [Hr1 Hr2].
    split_and!; try done. simpl. by rewrite Hr1, Hr2. }
  assert (Hlen : zlen bs = zlen P.(perSegInfos)).
  { unfold zlen. by rewrite (Forall2_length _ _ _ H0). }
  assert (S1 : forall k b i, U b i /\ i = b.2 /\ attached i -> exists i',
     connect_segment (e.(libpq) k) i = Ok i' /\ (U b i' /\ mid e polled_conn b.2 i')).
  { intros k b i ((Hr & Hu) & -> & Ha). destruct (connect_good cfg _ _ _ _ _ (Hev k) Hu) as (i' & E & Hu').
    exists i'. split; [done|]. split; [done|]. destruct Hu as (Hg & _ & _).
    by apply (connect_mid e k b.1.1 b.1.2). }
  destruct (each_forall _ _ _ bs _ S1 H0 0%nat) as (l1 & E1 & H1).
  destruct (ftsPoll_ok cfg _ (fun b i => U b i /\ mid e (fun i => unexpired e i /\ poll_done i) b.2 i)
     e bs P.(PollFds) l1 H1 Hpl) as (fds & l2 & E2 & _ & H2).
  - unfold zlen in *. rewrite <- (Forall2_length _ _ _ H1). lia.
  - unfold zlen in *. rewrite <- (Forall2_length _ _ _ H1). lia.
  - intros b i fd ((Hr & Hu) & Hm). split; [|done]. split; [done|].
    by apply (timers_good cfg b.1.1 b.1.2 _ i).
  - intros b i revents nready ((Hr & Hu) & Hm) Hfd.
    destruct (poll_good cfg b.1.1 b.1.2 revents nready e.(pollClock) _ i Hu Hfd) as (i' & E & Hu').
    exists i'. split; [done|]. split; [done|].
    by apply (poll_mid e b.1.1 b.1.2 revents nready (phase b.2.(state)) b.2 i i').
  - assert (S3 : forall k b i, U b i /\ mid e (fun i => unexpired e i /\ poll_done i) b.2 i ->
      exists i', send_segment (e.(libpq) k) i = Ok i' /\
        (U b i' /\ mid e (fun i => unexpired e i /\ send_done i) b.2 i')).
    { intros k b i ((Hr & Hu) & Hm). destruct (send_good cfg _ _ (e.(libpq) k) _ i Hu) as (i' & E & Hu').
      exists i'. split; [done|]. split; [done|]. by apply (send_mid e k b.2 i). }
    destruct (each_forall _ _ _ bs l2 S3 H2 0%nat) as (l3 & E3 & H3).
    assert (S4 : forall k b i, U b i /\ mid e (fun i => unexpired e i /\ send_done i) b.2 i ->
      exists i', receive_segment (e.(libpq) k) i = Ok i' /\
        (ftsResponseReady b.2 = false /\ answered cfg b.1.1 b.1.2 (phase b.2.(state)) i' /\
         mid e (fun i => unexpired e i /\ attached i) b.2 i')).
    { intros k b i ((Hr & Hu) & Hm).
      destruct (receive_good cfg _ _ (e.(libpq) k) _ i (Hev k) Hu) as (i' & E & Hu').
      exists i'. split; [done|]. split; [done|]. split; [done|]. by apply (receive_mid e k b.2 i). }
    destruct (each_forall _ _ _ bs l3 S4 H3 0%nat) as (l4 & E4 & H4).
    assert (S5 : forall (k : nat) b i, ftsResponseReady b.2 = false /\
        answered cfg b.1.1 b.1.2 (phase b.2.(state)) i /\
        mid e (fun i => unexpired e i /\ attached i) b.2 i ->
      exists i', retry_segment cfg e.(retryClock) i = Ok i' /\
        (answered cfg b.1.1 b.1.2 (phase b.2.(state)) i' /\ retried e b.2 i')).
    { intros k b i (Hr & Hu & Hm).
      destruct (retry_good cfg _ _ e.(retryClock) _ i Hu) as (i' & E & Hu' & _).
      exists i'. split; [done|]. split; [done|].
      by apply (retry_mid e b.1.1 b.1.2 (phase b.2.(state)) b.2 i i'). }
    destruct (each_forall _ _ _ bs l4 S5 H4 0%nat) as (l5 & E5 & H5).
    exists fds, l5. unfold before_response, ftsConnect. rewrite E1. cbn [mbind outcome_bind].
    rewrite E2. cbn [mbind outcome_bind]. unfold ftsSend. rewrite E3. cbn [mbind outcome_bind].
    unfold ftsReceive. rewrite E4. cbn [mbind outcome_bind]. unfold processRetry. by rewrite E5.
Qed.

Lemma retried_progress pms l0 l w l' w' u e :
  Forall2 (fun pm i => good cfg pm.1 pm.2 i) pms l0 ->
  Forall2 (fun b i => answered cfg b.1.1 b.1.2 (phase b.2.(state)) i /\ retried e b.2 i)
    (zip pms l0) l ->
  processResponse l w = Ok (l', w', u) -> Forall2 (progress e) l0 l'.
Proof.
  intros HF HR HP. apply processResponse_each in HP. revert l l' HR HP.
  induction HF as [|pm i0 pms l0 Hg HF IH]; intros l l' HR HP; simpl in HR;
    inversion HR as [|? i ? l2 [Ha Hr] HR']; subst;
    inversion HP as [|? i' ? l3 (w1 & w2 & u1 & E) HP']; subst; constructor.
  - simpl in *. by eapply (progress_ok e pm.1 pm.2 i0 i).
  - by eapply IH.
Qed.

Hypothesis Hretries : 0 <= cfg.(gp_fts_probe_retries).

Lemma pass_progress pms w0 e P :
  Forall pair_wf pms -> NoDup (dbids pms) -> zlen pms < 2 ^ 15 ->
  probe_ok cfg pms w0 P -> Forall attached P.(perSegInfos) -> events_ok e -> events_live e ->
  exists P', probe_pass cfg e P = Ok P' /\ probe_ok cfg pms w0 P' /\
    Forall2 (progress e) P.(perSegInfos) P'.(perSegInfos).
Proof.
  intros Hwf Hnd Hb HP Hat He Hl.
  destruct (probe_pass_ok cfg Hretries pms w0 e P Hwf Hnd Hb HP He) as (P' & E & HP' & _).
  exists P'. split_and!; [done|done|]. rewrite probe_pass_eq in E.
  destruct HP as [HF Hfds _ _].
  assert (HF2 : Forall2 (fun pm i => (good cfg pm.1 pm.2 i /\ ftsResponseReady i = false) /\ attached i)
    pms P.(perSegInfos)).
  { clear -HF Hat. induction HF as [|pm i pms l (Hg & Hr & _) HF IH]; constructor;
      inversion Hat; subst; [done|by apply IH]. }
  assert (Hlen : zlen P.(perSegInfos) = zlen pms).
  { unfold zlen. by rewrite (Forall2_length _ _ _ HF). }
  destruct (before_response_retried pms e P HF2 Hfds ltac:(lia) He Hl) as (fds & l & El & HR).
  rewrite El in E. cbn [mbind outcome_bind] in E.
  destruct (processResponse l P.(cluster)) as [[[l' w'] u]| |] eqn:Er; try done.
  cbn [mbind outcome_bind] in E. injection E as <-. simpl.
  eapply (retried_progress pms); [|exact HR|exact Er].
  eapply Forall2_impl; [exact HF2|]. by intros pm i [[? _] _].
Qed.

(** ** The clock *)

(** The times of pass [n] lie between [t n] and [t (n + 1)]; a pass takes an hour
    at most, and time goes on. *)
Record clock_runs (E : nat -> Events) (t : nat -> Z) : Prop := {
  clock_start : forall n k, t n <= ((E n).(libpq) k).(startClock) <= (E n).(pollClock);
  clock_pass : forall n, t n <= (E n).(pollClock) <= (E n).(retryClock) /\
                         (E n).(retryClock) <= t (S n) <= t n + 3600;
  clock_on : forall T, exists n, T <= t n
}.

Section Clock.
Context (E : nat -> Events) (t : nat -> Z).
Hypothesis Ht : clock_runs E t.
Hypothesis Hto : 0 <= cfg.(gp_fts_probe_timeout) <= 3600.

Definition timed (n : nat) (i : fts_segment_info) : Prop :=
  (is_messaging i.(state) = true -> i.(conn) <> None ->
     i.(startTime) <= t n <= i.(startTime) + cfg.(gp_fts_probe_timeout) + 3600) /\
  (is_waiting i.(state) = true -> i.(retryStartTime) <= t n <= i.(retryStartTime) + 3600).

Lemma stay_time n i0 i :
  timed n i0 -> is_messaging i0.(state) = true -> started (E n) i0 i -> unexpired (E n) i ->
  i.(startTime) <= t (S n) /\ t n <= i.(startTime) + cfg.(gp_fts_probe_timeout) /\
  t (S n) <= i.(startTime) + cfg.(gp_fts_probe_timeout) + 3600.
Proof.
  intros [Hm _] Hm0 Hs Hx. destruct (clock_pass _ _ Ht n) as [? ?]. unfold unexpired, started in *.
  assert (Hd : 0 <= (E n).(pollClock) - i.(startTime) < 2 ^ 31).
  { destruct i0.(conn) eqn:Ec.
    - rewrite Hs. specialize (Hm Hm0 ltac:(done)). lia.
    - destruct Hs as [k ->]. pose proof (clock_start _ _ Ht n k). lia. }
  rewrite s32_small in Hx by lia.
  assert (i.(startTime) <= (E n).(pollClock)) by lia. lia.
Qed.

Lemma wait_time n i0 :
  timed n i0 -> is_waiting i0.(state) = true ->
  s32 ((E n).(retryClock) - i0.(retryStartTime)) < 1 ->
  t (S n) <= i0.(retryStartTime) + 3600 /\ t n <= i0.(retryStartTime).
Proof.
  intros [_ Hw] Hw0 Hx. specialize (Hw Hw0). destruct (clock_pass _ _ Ht n) as [? ?].
  rewrite s32_small in Hx by lia. lia.
Qed.

Lemma progress_timed n i0 i : timed n i0 -> progress (E n) i0 i -> timed (S n) i.
Proof.
  intros Hti Hp. destruct (clock_pass _ _ Ht n) as [? ?].
  destruct Hp as [_ Hc Hw|Hm Hs _ Hcn Hsta Hx _|Hw Hs _ Hr Hx|_ Hs]; split; intros A; try intros B.
  - by rewrite (Hc A) in B.
  - rewrite (Hw A). lia.
  - pose proof (stay_time n i0 i Hti Hm Hsta Hx). lia.
  - rewrite Hs in A. by destruct i0.(state).
  - rewrite Hs in A. by destruct i0.(state).
  - pose proof (wait_time n i0 Hti Hw Hx). rewrite Hr. destruct Hti as [_ Hti].
    specialize (Hti Hw). lia.
  - by rewrite Hs in A.
  - by rewrite Hs in A.
Qed.

(** A pair that will move on when the clock has passed [d]. *)
Definition due (d : Z) (i : fts_segment_info) : Prop :=
  is_messaging i.(state) = true /\ i.(conn) <> None /\
    i.(startTime) + cfg.(gp_fts_probe_timeout) <= d \/
  is_waiting i.(state) = true /\ i.(retryStartTime) <= d.

Lemma due_step n d i0 i : timed n i0 -> due d i0 -> progress (E n) i0 i ->
  rank i < rank i0 \/ due d i /\ t n <= d.
Proof.
  intros Hti Hd Hp.
  destruct Hp as [? _ _|Hm Hs _ Hcn Hsta Hx _|Hw Hs _ Hr Hx|Hdn _]; [by left|right..|].
  - destruct Hd as [(_ & Hc0 & Hd)|[Hw _]]; [|by destruct i0.(state)].
    pose proof (stay_time n i0 i Hti Hm Hsta Hx). unfold started in Hsta.
    destruct i0.(conn); [|done]. split; [left; rewrite Hs, Hsta; done|lia].
  - destruct Hd as [(Hm & _)|[_ Hd]]; [by destruct i0.(state)|].
    pose proof (wait_time n i0 Hti Hw Hx). split; [right; by rewrite Hs, Hr|lia].
  - destruct Hd as [(Hm & _)|[Hw _]]; by rewrite Hdn in *.
Qed.

Lemma due_start n i0 i : timed n i0 -> i0.(state) <> FTS_RESPONSE_PROCESSED ->
  progress (E n) i0 i ->
  rank i < rank i0 \/ due (t (S n) + cfg.(gp_fts_probe_timeout)) i.
Proof.
  intros Hti Hnd Hp.
  destruct Hp as [? _ _|Hm Hs _ Hcn Hsta Hx _|Hw Hs _ Hr Hx|Hdn _]; [by left|right..|done].
  - pose proof (stay_time n i0 i Hti Hm Hsta Hx). left. rewrite Hs. split_and!; try done. lia.
  - right. rewrite Hs, Hr. split; [done|]. destruct Hti as [_ Hti]. specialize (Hti Hw).
    destruct (clock_pass _ _ Ht n). lia.
Qed.

(** ** All pairs *)

Definition total (l : list fts_segment_info) : Z := foldr (fun i s => rank i + s) 0 l.

Lemma total_progress e l l' : Forall2 (progress e) l l' ->
  total l' <= total l /\
  forall k i i', l !! k = Some i -> l' !! k = Some i' -> rank i' < rank i -> total l' < total l.
Proof.
  induction 1 as [|i i' l l' Hp HF [IH1 IH2]]; simpl; [split; [lia|done]|].
  pose proof (progress_rank e i i' Hp). split; [lia|].
  intros [|k] a b Ha Hb Hr; simpl in Ha, Hb; simplify_eq; [lia|].
  specialize (IH2 k a b Ha Hb Hr). lia.
Qed.

Lemma probe_loop_app a b P : probe_loop cfg (a ++ b) P =
  (P ← probe_loop cfg a P; probe_loop cfg b P).
Proof.
  revert P. induction a as [|e a IH]; intros P; [done|]. cbn [app probe_loop].
  destruct (allDone P.(perSegInfos)) eqn:Ed.
  - cbn [mbind outcome_bind]. destruct b; cbn [probe_loop]; by rewrite ?Ed.
  - destruct (probe_pass cfg e P) as [P'| |]; try done. cbn [mbind outcome_bind]. apply IH.
Qed.

Lemma not_done l : allDone l = false -> exists k i, l !! k = Some i /\ i.(state) <> FTS_RESPONSE_PROCESSED.
Proof.
  induction l as [|i l IH]; [done|]. simpl. unfold is_processed. case_bool_decide as Hd.
  - intros H. destruct (IH H) as (k & j & ? & ?). by exists (S k), j.
  - intros _. by exists 0%nat, i.
Qed.

Section Run.
Context (pms : list (GpSegConfigEntry * GpSegConfigEntry)) (w0 : Cluster).
Hypothesis Hwf : Forall pair_wf pms.
Hypothesis Hnd : NoDup (dbids pms).
Hypothesis Hb : zlen pms < 2 ^ 15.
Hypothesis Hok : forall n, events_ok (E n).
Hypothesis Hlive : forall n, events_live (E n).

(** What is known before pass [n]. *)
Definition running (n : nat) (P : Probe) : Prop :=
  probe_ok cfg pms w0 P /\ Forall attached P.(perSegInfos) /\ Forall (timed n) P.(perSegInfos).

Lemma running_pass n P : running n P ->
  exists P', probe_pass cfg (E n) P = Ok P' /\ running (S n) P' /\
    Forall2 (progress (E n)) P.(perSegInfos) P'.(perSegInfos).
Proof.
  intros (HP & Ha & Hti).
  destruct (pass_progress pms w0 (E n) P Hwf Hnd Hb HP Ha (Hok n) (Hlive n)) as (P' & Ep & HP' & HF).
  exists P'. split_and!; try done. split_and!; [done| |].
  - clear -HF. induction HF; constructor; eauto using progress_attached.
  - clear -HF Hti Ht Hto. induction HF; inversion Hti; subst; constructor; eauto using progress_timed.
Qed.

(** Passes until a pair that is due has moved on. *)
Lemma run_due j : forall n P d k i, running n P -> P.(perSegInfos) !! k = Some i -> due d i ->
  d < t (n + j) ->
  exists m P', probe_loop cfg (E <$> seq n m) P = Ok P' /\ running (n + m) P' /\
    (total P'.(perSegInfos) < total P.(perSegInfos) \/ allDone P'.(perSegInfos) = true).
Proof.
  induction j as [|j IH]; intros n P d k i HP Hk Hd Hj;
    (destruct (allDone P.(perSegInfos)) eqn:Edn;
      [exists 0%nat, P; rewrite Nat.add_0_r; by auto|]);
    destruct (running_pass n P HP) as (P1 & E1 & HP1 & HF);
    destruct (Forall2_lookup_l _ _ _ _ _ HF Hk) as (i1 & Hk1 & Hp);
    destruct HP as (_ & _ & Hti); pose proof (proj1 (Forall_lookup _ _) Hti _ _ Hk) as Hti1;
    destruct (total_progress _ _ _ HF) as [Hle Hlt];
    (destruct (due_step n d i i1 Hti1 Hd Hp) as [Hr|[Hd1 Hn]];
     [exists 1%nat, P1; cbn [seq fmap list_fmap probe_loop]; rewrite Edn, E1; cbn [mbind outcome_bind];
      rewrite Nat.add_1_r; split_and!; [done|done|left; by eapply Hlt]|]).
  - rewrite Nat.add_0_r in Hj. lia.
  - destruct (IH (S n) P1 d k i1 HP1 Hk1 Hd1) as (m & P' & E' & HP' & Hres);
      [by replace (S n + j)%nat with (n + S j)%nat by lia|].
    exists (S m), P'. rewrite Nat.add_succ_r.
    cbn [seq fmap list_fmap probe_loop]. rewrite Edn, E1. cbn [mbind outcome_bind].
    split_and!; [done|done|]. destruct Hres as [?|?]; [left; lia|by right].
Qed.

Lemma clock_mono n m : (n <= m)%nat -> t n <= t m.
Proof.
  induction 1 as [|m Hnm IH]; [lia|]. destruct (clock_pass _ _ Ht m). lia.
Qed.

Lemma run_less n P : running n P -> allDone P.(perSegInfos) = false ->
  exists m P', probe_loop cfg (E <$> seq n m) P = Ok P' /\ running (n + m) P' /\
    (total P'.(perSegInfos) < total P.(perSegInfos) \/ allDone P'.(perSegInfos) = true).
Proof.
  intros HP Edn. destruct (not_done _ Edn) as (k & i & Hk & Hi).
  destruct (running_pass n P HP) as (P1 & E1 & HP1 & HF).
  destruct (Forall2_lookup_l _ _ _ _ _ HF Hk) as (i1 & Hk1 & Hp).
  destruct HP as (_ & _ & Hti). pose proof (proj1 (Forall_lookup _ _) Hti _ _ Hk) as Hti1.
  destruct (total_progress _ _ _ HF) as [Hle Hlt].
  destruct (due_start n i i1 Hti1 Hi Hp) as [Hr|Hd].
  - exists 1%nat, P1. cbn [seq fmap list_fmap probe_loop]. rewrite Edn, E1. cbn [mbind outcome_bind].
    rewrite Nat.add_1_r. split_and!; [done|done|left; by eapply Hlt].
  - set (d := t (S n) + cfg.(gp_fts_probe_timeout)) in *.
    destruct (clock_on _ _ Ht (d + 1)) as [N HN].
    assert (HN' : d < t (S n + N)%nat).
    { pose proof (clock_mono N (S n + N) ltac:(lia)). lia. }
    destruct (run_due N (S n) P1 d k i1 HP1 Hk1 Hd HN') as (m & P' & E' & HP' & Hres).
    exists (S m), P'. rewrite Nat.add_succ_r.
    cbn [seq fmap list_fmap probe_loop]. rewrite Edn, E1. cbn [mbind outcome_bind].
    split_and!; [done|done|]. destruct Hres as [?|?]; [left; lia|by right].
Qed.

Lemma total_nonneg P : probe_ok cfg pms w0 P -> 0 <= total P.(perSegInfos).
Proof.
  intros [HF _ _ _]. clear -HF. induction HF as [|pm i pms2 l (Hg & _) HF IH]; simpl; [lia|].
  pose proof (rank_zero _ _ _ Hg). lia.
Qed.

Lemma run_done b : forall n P, running n P -> total P.(perSegInfos) < Z.of_nat b ->
  exists m P', probe_loop cfg (E <$> seq n m) P = Ok P' /\ allDone P'.(perSegInfos) = true.
Proof.
  induction b as [|b IH]; intros n P HP Hbd.
  { pose proof (total_nonneg P (proj1 HP)). lia. }
  destruct (allDone P.(perSegInfos)) eqn:Edn; [by exists 0%nat, P|].
  destruct (run_less n P HP Edn) as (m & P1 & E1 & HP1 & [Hlt|Hd]); [|by exists m, P1].
  destruct (IH (n + m)%nat P1 HP1) as (m2 & P2 & E2 & Hd2); [lia|].
  exists (m + m2)%nat, P2. rewrite seq_app, fmap_app, probe_loop_app, E1. by cbn [mbind outcome_bind].
Qed.

End Run.
End Clock.
End Rank.

(** C11: A probe cycle ends.  Whatever the segments do (connect or not, answer,
    refuse, fall silent, ask for retries, lose their primary or their mirror),
    after finitely many passes every pair is processed, provided that libpq keeps
    its promises, that the clock runs on and that an answer does not arrive in
    parts. *)
Theorem probe_cycle_ends cfg cdbs w E t :
  0 <= cfg.(gp_fts_probe_retries) -> 0 <= cfg.(gp_fts_probe_timeout) <= 3600 ->
  cdbs_ok cdbs w -> (forall n, events_ok (E n)) -> (forall n, events_live (E n)) ->
  clock_runs E t ->
  exists n P, FtsLoop_probe cfg cdbs (E <$> seq 0 n) w = Ok P /\ allDone P.(perSegInfos) = true.
Proof.
  intros Hr Hto Hc Hok Hlive Ht. destruct (cycle_start cfg cdbs w Hr Hc) as (P0 & Eq & HP & Hi & _).
  pose proof (cdbs_config _ _ Hc) as Hcfg.
  assert (Hrun : running cfg t (pairs cdbs) P0.(cluster) 0 P0).
  { split_and!; [done| |]; rewrite Hi; apply Forall_forall; intros i (pm & -> & _)%list_elem_of_fmap.
    - by intros _ c ?.
    - by split; intros. }
  destruct (run_done cfg Hr E t Ht Hto (pairs cdbs) P0.(cluster) (pairs_wf _ Hcfg)
    (pairs_nodup _ Hcfg _ (fun _ H => H) (config_nodup _ Hcfg)) (pairs_bound _ _ Hc) Hok Hlive
    (S (Z.to_nat (total cfg P0.(perSegInfos)))) 0%nat P0 Hrun) as (m & P & E' & Hd).
  - pose proof (total_nonneg cfg (pairs cdbs) P0.(cluster) P0 HP). lia.
  - exists m, P. by rewrite Eq.
Qed.

Lemma probe_cycle_ends_witness :
  exists n P, FtsLoop_probe Example.cfg Example.cdbs (Example.silence <$> seq 0 n) Example.start = Ok P /\
    allDone P.(perSegInfos) = true.
Proof.
  apply (probe_cycle_ends Example.cfg Example.cdbs Example.start Example.silence
           (fun n => 30 * Z.of_nat n)).
  - by vm_compute.
  - by vm_compute.
  - exact Example.cdbs_start.
  - exact Example.silence_ok.
  - intros n k. constructor; simpl; [|done|done|done]. by intros c [= <-].
  - constructor.
    + intros n k. simpl. lia.
    + intros n. simpl. lia.
    + intros T. exists (Z.to_nat T). lia.
Defined.

(** ** An answer that stops in the middle *)

(** The segment has sent a part of its answer, and nothing more arrives: libpq
    reads what there is, which is nothing, and needs more. *)
Definition stalled (e : Events) : Prop :=
  exists c1 c2, (e.(libpq) 0%nat).(consumeInput) = (true, c1) /\
    (e.(libpq) 0%nat).(isBusy) = (true, c2) /\
    c2.(conn_status) = CONNECTION_OK /\ c2.(async_idle) = false.

(** A probe that has begun to read an answer. *)
Definition reading (i : fts_segment_info) : Prop :=
  i.(state) = FTS_PROBE_SEGMENT /\ i.(poll_events) = 0 /\ Z.land i.(poll_revents) POLLIN <> 0 /\
  exists c, i.(conn) = Some c /\ c.(conn_status) = CONNECTION_OK /\ c.(async_idle) = false.

Lemma reading_fd i fd : reading i -> reading (set_fd fd i).
Proof. intros (? & ? & ? & ?). by split_and!. Qed.

Lemma reading_conn i c : reading i -> c.(conn_status) = CONNECTION_OK -> c.(async_idle) = false ->
  reading (set_conn (Some c) i).
Proof. intros (A & B & D & _) H1 H2. split_and!; try done. by exists c. Qed.

(** The steps of a pass on such a probe. *)
Lemma reading_steps ev cfg now i w : reading i ->
  connect_segment ev i = Ok i /\ waits i = false /\ send_segment ev i = Ok i /\
  retry_segment cfg now i = Ok i /\ respond_segment i w = Ok (i, w, false).
Proof.
  intros (Hs & He & Hr & c & Hc & Hok & Hid).
  unfold connect_segment, waits, send_segment, retry_segment, respond_segment, ftsResponseReady, connected.
  rewrite Hs, Hc, He. simpl. rewrite Hok. simpl. by rewrite Hid.
Qed.

Lemma reading_receive e i : reading i -> stalled e ->
  exists i', receive_segment (e.(libpq) 0%nat) i = Ok i' /\ reading i'.
Proof.
  intros Hi (c1 & c2 & E1 & E2 & Hok2 & Hid2). pose proof Hi as (Hs & _ & Hr & c & Hc & Hok & _).
  unfold receive_segment, connected. rewrite Hs, Hc. simpl. rewrite Hok.
  replace (Z.land i.(poll_revents) POLLIN =? 0) with false by lia. simpl. rewrite E1, E2. simpl.
  eexists. split; [reflexivity|]. by apply (reading_conn i).
Qed.

Lemma stalled_pass cfg e P i :
  P.(perSegInfos) = [i] -> reading i -> stalled e ->
  exists P' i', probe_pass cfg e P = Ok P' /\ P'.(perSegInfos) = [i'] /\ reading i' /\
    P'.(cluster) = P.(cluster).
Proof.
  intros HP Hi He. unfold probe_pass, ftsConnect, ftsPoll, ftsSend, ftsReceive, processRetry.
  destruct (reading_steps (e.(libpq) 0%nat) cfg 0 i P.(cluster) Hi) as (E1 & E2 & _).
  rewrite HP. cbn [each]. rewrite E1. cbn [mbind outcome_bind fill_pollfds]. rewrite E2.
  cbn [mbind outcome_bind fill_pollfds]. change (0 =? 0) with true. cbv beta iota.
  pose proof (reading_fd i (-1) Hi) as Hj. set (j := set_fd (-1) i) in *.
  destruct (reading_steps (e.(libpq) 0%nat) cfg 0 j P.(cluster) Hj) as (_ & _ & E3 & _).
  destruct (reading_receive e j Hj He) as (i' & E4 & Hi').
  destruct (reading_steps (e.(libpq) 0%nat) cfg e.(retryClock) i' P.(cluster) Hi') as (_ & _ & _ & E5 & E6).
  cbn [mbind outcome_bind each]. rewrite E3. cbn [mbind outcome_bind each]. rewrite E4.
  cbn [mbind outcome_bind each]. rewrite E5. cbn [mbind outcome_bind each processResponse].
  rewrite E6. cbn [mbind outcome_bind processResponse]. by do 2 eexists.
Qed.

Lemma stalled_loop cfg es : forall P i, P.(perSegInfos) = [i] -> reading i -> Forall stalled es ->
  exists P' i', probe_loop cfg es P = Ok P' /\ P'.(perSegInfos) = [i'] /\ reading i' /\
    P'.(cluster) = P.(cluster).
Proof.
  induction es as [|e es IH]; intros P i HP Hi Hes; [by exists P, i|].
  inversion Hes as [|? ? He Hes']; subst. cbn [probe_loop].
  assert (Hnd : allDone P.(perSegInfos) = false).
  { rewrite HP. simpl. unfold is_processed. by rewrite bool_decide_false by (by rewrite (proj1 Hi)). }
  rewrite Hnd. destruct (stalled_pass cfg e P i HP Hi He) as (P1 & i1 & -> & HP1 & Hi1 & Hc1).
  cbn [mbind outcome_bind]. destruct (IH P1 i1 HP1 Hi1 Hes') as (P2 & i2 & -> & ? & ? & Hc2).
  exists P2, i2. by rewrite Hc2, Hc1.
Qed.

Module Stall.
Definition idle : PGconn := Build_PGconn CONNECTION_OK true EmptyString.
Definition busy : PGconn := Build_PGconn CONNECTION_OK false EmptyString.

(** The connection is made and the probe is sent; then the beginning of an answer
    arrives. *)
Definition ready (revents : Z) : Events :=
  Build_Events
    (fun _ => Build_LibpqEvents (Some Example.pending) 0 (PGRES_POLLING_OK, idle)
       (true, busy) (true, busy) (true, busy) (None, busy))
    (PollReturned (fun _ => revents)) 0 0.

Definition beginning : list Events := [ready POLLOUT; ready POLLOUT; ready POLLIN].
End Stall.


