(* ===== verification/FtsHandler.v ===== *)
(** * The answers of a segment to the prober

    Models src/backend/fts/ftsmessagehandler.c and
    src/backend/replication/gp_replication.c: how a segment reads a message of the
    prober, what it finds out about its mirror, and what it answers.

    The shared memory of a segment that these functions use is a record; files,
    the clock and the addresses of the write-ahead log are arguments.  A signal to
    the postmaster is a counter or a flag.  The flag sync_standbys_defined is set
    by the checkpointer when it reads the configuration again, so setting the
    parameter does not change it. *)

From Stdlib Require Import ZArith String Ascii.
From stdpp Require Import base list strings.
From S2P Require Import Prelude FtsProbe FtsCycle.

Local Open Scope string_scope.
Local Open Scope Z_scope.

(** ** The state of a segment *)

Inductive WalSndState :=
  | WALSNDSTATE_STARTUP
  | WALSNDSTATE_BACKUP
  | WALSNDSTATE_CATCHUP
  | WALSNDSTATE_STREAMING
  | WALSNDSTATE_STOPPING.

#[export] Instance WalSndState_eq_dec : EqDecision WalSndState.
Proof. solve_decision. Defined.

Record WalSnd := {
  pid : Z;
  snd_state : WalSndState;
  write : Z;
  caughtup_within_range : bool;
  is_for_gp_walreceiver : bool
}.

Record FTSReplicationStatus := mk_replication {
  name : string;
  in_use : bool;
  con_attempt_count : Z;
  replica_disconnected_at : Z
}.

Record ReplicationSlot := mk_slot {
  slot_name : string;
  slot_in_use : bool;
  restart_lsn : Z;
  active_pid : Z
}.

Record Segment := mk_segment {
  walsnds : list WalSnd;
  sync_standbys_defined : bool;
  replications : list FTSReplicationStatus;  (* FTSRepStatusCtl *)
  synchronous_standby_names : string;        (* in gp_replication.conf *)
  reloads : Z;                               (* configuration reloads signalled *)
  replication_slots : list ReplicationSlot;
  promote_signalled : bool
}.

Definition set_replications (l : list FTSReplicationStatus) (s : Segment) : Segment :=
  mk_segment s.(walsnds) s.(sync_standbys_defined) l s.(synchronous_standby_names) s.(reloads)
    s.(replication_slots) s.(promote_signalled).
Definition set_standby_names (v : string) (s : Segment) : Segment :=
  mk_segment s.(walsnds) s.(sync_standbys_defined) s.(replications) v (s.(reloads) + 1)
    s.(replication_slots) s.(promote_signalled).
Definition set_slots (l : list ReplicationSlot) (s : Segment) : Segment :=
  mk_segment s.(walsnds) s.(sync_standbys_defined) s.(replications) s.(synchronous_standby_names)
    s.(reloads) l s.(promote_signalled).
Definition signal_promote (s : Segment) : Segment :=
  mk_segment s.(walsnds) s.(sync_standbys_defined) s.(replications) s.(synchronous_standby_names)
    s.(reloads) s.(replication_slots) true.

(** ** The replication status of the mirror *)

Definition NAMEDATALEN : Z := 64.

(** [strncmp] of the first bytes of two names. *)
Definition strncmp_eq (a b : string) (n : Z) : bool :=
  String.eqb (String.substring 0 (Z.to_nat n) a) (String.substring 0 (Z.to_nat n) b).

(** [StrNCpy], which keeps the last byte for the end of the string. *)
Definition StrNCpy (s : string) (n : Z) : string := String.substring 0 (Z.to_nat (n - 1)) s.

(** The loop of [FTSReplicationStatusCreateIfNotExist]: the name exists, or a free
    slot by its index, or neither. *)
Inductive slot_search := SlotExists | SlotFree (k : nat) | SlotNone.

Fixpoint find_replication (app_name : string) (free : slot_search) (k : nat)
    (l : list FTSReplicationStatus) : slot_search :=
  match l with
  | [] => free
  | slot :: l' =>
      if slot.(in_use) then
        if strncmp_eq app_name slot.(name) NAMEDATALEN then SlotExists
        else find_replication app_name free (S k) l'
      else
        find_replication app_name (match free with SlotNone => SlotFree k | _ => free end) (S k) l'
  end.

(** [application_name] is the setting of the walsender; the caller passes it as
    [app_name] too. *)
Definition FTSReplicationStatusCreateIfNotExist (app_name application_name : string)
    (l : list FTSReplicationStatus) : outcome (list FTSReplicationStatus) :=
  match find_replication app_name SlotNone 0 l with
  | SlotExists => Ok l
  | SlotFree k => Ok (<[k := mk_replication (StrNCpy application_name NAMEDATALEN) true 0 0]> l)
  | SlotNone => Err "number of requested standby connections exceeds max_replication_status"
  end.

Definition is_named (app_name : string) (slot : FTSReplicationStatus) : bool :=
  slot.(in_use) && String.eqb app_name slot.(name).

Definition FTSReplicationStatusDrop (app_name : string) (l : list FTSReplicationStatus)
    : list FTSReplicationStatus :=
  (fun slot => if is_named app_name slot
               then mk_replication EmptyString false slot.(con_attempt_count)
                      slot.(replica_disconnected_at)
               else slot) <$> l.

(** The index of the slot with a name, as the pointer returned. *)
Fixpoint retrieve_from (app_name : string) (k : nat) (l : list FTSReplicationStatus)
    : option nat :=
  match l with
  | [] => None
  | slot :: l' => if is_named app_name slot then Some k else retrieve_from app_name (S k) l'
  end.

Definition RetrieveFTSReplicationStatus (app_name : string) (l : list FTSReplicationStatus)
    : option nat := retrieve_from app_name 0 l.

(** A change of the slot behind a pointer, which may be NULL. *)
Definition at_slot (k : option nat) (f : FTSReplicationStatus -> FTSReplicationStatus)
    (l : list FTSReplicationStatus) : list FTSReplicationStatus :=
  match k with Some k => alter f k l | None => l end.

Definition mark_disconnect (now : Z) (slot : FTSReplicationStatus) : FTSReplicationStatus :=
  mk_replication slot.(name) slot.(in_use) (u32 (slot.(con_attempt_count) + 1)) now.

Definition FTSReplicationStatusMarkDisconnect (k : option nat) (now : Z) :=
  at_slot k (mark_disconnect now).

Definition FTSReplicationStatusClearAttempts (k : option nat) :=
  at_slot k (fun slot => mk_replication slot.(name) slot.(in_use) 0 slot.(replica_disconnected_at)).

Definition FTSReplicationStatusClearDisconnectTime (k : option nat) :=
  at_slot k (fun slot => mk_replication slot.(name) slot.(in_use) slot.(con_attempt_count) 0).

Definition slot_field (f : FTSReplicationStatus -> Z) (k : option nat)
    (l : list FTSReplicationStatus) : Z :=
  match k with
  | Some k => match l !! k with Some slot => f slot | None => 0 end
  | None => 0
  end.

Definition FTSReplicationStatusRetrieveAttempts := slot_field con_attempt_count.
Definition FTSReplicationStatusRetrieveDisconnectTime := slot_field replica_disconnected_at.

Definition InvalidXLogRecPtr : Z := 0.

Definition is_mirror_up (walsender : WalSnd) : bool :=
  let walsender_has_pid := negb (walsender.(pid) =? 0) in
  let is_communicating_with_mirror :=
    bool_decide (walsender.(snd_state) = WALSNDSTATE_CATCHUP) &&
    negb (walsender.(write) =? InvalidXLogRecPtr) ||
    bool_decide (walsender.(snd_state) = WALSNDSTATE_STREAMING) in
  walsender_has_pid && is_communicating_with_mirror.

(** Called by the walsender when its state changes; [MyWalSnd] has the new state. *)
Definition FTSReplicationStatusUpdateForWalState (app_name : string) (state : WalSndState)
    (MyWalSnd : WalSnd) (now : Z) (l : list FTSReplicationStatus) : list FTSReplicationStatus :=
  let k := RetrieveFTSReplicationStatus app_name l in
  if is_mirror_up MyWalSnd then
    let l := FTSReplicationStatusClearDisconnectTime k l in
    if bool_decide (state = WALSNDSTATE_STREAMING) then FTSReplicationStatusClearAttempts k l else l
  else if FTSReplicationStatusRetrieveDisconnectTime k l =? 0 then
    FTSReplicationStatusMarkDisconnect k now l
  else l.

Definition FTSReplicationStatusMarkDisconnectForReplication (app_name : string) (now : Z)
    (l : list FTSReplicationStatus) : list FTSReplicationStatus :=
  FTSReplicationStatusMarkDisconnect (RetrieveFTSReplicationStatus app_name l) now l.

(** The settings and the time that a segment looks at. *)
Record SegmentSettings := {
  gp_fts_replication_attempt_count : Z;
  gp_fts_mark_mirror_down_grace_period : Z;
  PMAcceptingConnectionsStartTime : Z
}.

Definition GP_WALRECEIVER_APPNAME : string := "gp_walreceiver".

Definition FTSGetReplicationDisconnectTime (cfg : SegmentSettings) (app_name : string)
    (l : list FTSReplicationStatus) : Z :=
  match RetrieveFTSReplicationStatus app_name l with
  | None => 0
  | Some k =>
      if FTSReplicationStatusRetrieveAttempts (Some k) l <=? cfg.(gp_fts_replication_attempt_count)
      then FTSReplicationStatusRetrieveDisconnectTime (Some k) l
      else 0
  end.

Definition is_probe_retry_needed (cfg : SegmentSettings) (now : Z)
    (l : list FTSReplicationStatus) : bool :=
  let walsender_replica_disconnected_at :=
    FTSGetReplicationDisconnectTime cfg GP_WALRECEIVER_APPNAME l in
  let delta := s64 (now - Z.max walsender_replica_disconnected_at
                            cfg.(PMAcceptingConnectionsStartTime)) in
  (delta <? cfg.(gp_fts_mark_mirror_down_grace_period)) && (0 <=? delta).

(** ** The status of the mirror *)

Record FtsResponse := mk_response {
  IsMirrorUp : bool;
  IsInSync : bool;
  IsSyncRepEnabled : bool;
  IsRoleMirror : bool;
  RequestRetry : bool
}.

(** The loop of [GetMirrorStatus]: is the mirror up, is it in sync, and is the
    primary ready to wait for it? *)
Fixpoint mirror_walsender (l : list WalSnd) : bool * bool * bool :=
  match l with
  | [] => (false, false, false)
  | walsender :: l' =>
      if negb walsender.(is_for_gp_walreceiver) then mirror_walsender l'
      else
        let is_up := is_mirror_up walsender in
        let is_streaming := bool_decide (walsender.(snd_state) = WALSNDSTATE_STREAMING) in
        let ready_for_syncrep :=
          is_up && (is_streaming ||
                    bool_decide (walsender.(snd_state) = WALSNDSTATE_CATCHUP) &&
                    walsender.(caughtup_within_range)) in
        (is_up, is_up && is_streaming, ready_for_syncrep)
  end.

(** The response, and [*ready_for_syncrep]. *)
Definition GetMirrorStatus (cfg : SegmentSettings) (now : Z) (seg : Segment)
    (response : FtsResponse) : FtsResponse * bool :=
  let '(is_up, in_sync, ready_for_syncrep) := mirror_walsender seg.(walsnds) in
  let retry := if negb is_up then is_probe_retry_needed cfg now seg.(replications) else false in
  (mk_response is_up in_sync seg.(sync_standbys_defined) response.(IsRoleMirror) retry,
   ready_for_syncrep).

Definition SetSyncStandbysDefined (seg : Segment) : Segment :=
  if negb seg.(sync_standbys_defined) then set_standby_names "*" seg else seg.

Definition UnsetSyncStandbysDefined (seg : Segment) : Segment :=
  let seg := if seg.(sync_standbys_defined) then set_standby_names EmptyString seg else seg in
  set_replications (FTSReplicationStatusDrop GP_WALRECEIVER_APPNAME seg.(replications)) seg.

(** ** The check of the disk *)

Definition BLCKSZ : Z := 32768.
Definition FTS_PROBE_MAGIC_STRING : string := "FtS PrObEr MaGiC StRiNg, pRoBiNg cHeCk.......".

(** What the system calls on the probe file answer: [open], the creation and first
    write of a missing file, [read] with the bytes it delivers, [lseek] and
    [write]. *)
Inductive open_answer := Opened | NotThere | NoDirectIO | OpenError.

Record ProbeFile := {
  file_open : open_answer;
  file_create : bool;
  file_first_write : Z;
  file_read : Z * string;
  file_seek : bool;
  file_write : Z
}.

(** [strncmp] of the buffer with the magic string and its final zero byte. *)
Definition magic_read (data : string) : bool :=
  let n := String.length FTS_PROBE_MAGIC_STRING in
  String.eqb (String.substring 0 (S n) data) (FTS_PROBE_MAGIC_STRING ++ String zero EmptyString).

(** Did the check fail, and is the file removed? *)
Definition probe_file_failure (io : ProbeFile) : bool * bool :=
  match io.(file_open) with
  | NotThere =>
      if negb io.(file_create) then (true, false)
      else let failure := negb (io.(file_first_write) =? BLCKSZ) in (failure, failure)
  | NoDirectIO => (false, false)
  | OpenError => (true, false)
  | Opened =>
      let failure :=
        negb (io.(file_read).1 =? BLCKSZ) || negb (magic_read io.(file_read).2) ||
        negb io.(file_seek) || negb (io.(file_write) =? BLCKSZ) in
      (failure, failure)
  end.

Definition checkIODataDirectory (io : ProbeFile) : outcome unit :=
  if (probe_file_failure io).1 then Err "disk IO check during FTS probe failed" else Ok tt.

(** ** Handling a message *)

(** The row that the prober gets: five columns of one byte. *)
Definition flag_byte (b : bool) : list Z := [if b then 1 else 0].

Definition SendFtsResponse (response : FtsResponse) : PGresult :=
  Build_PGresult true Natts_fts_message_response
    [[flag_byte response.(IsMirrorUp); flag_byte response.(IsInSync);
      flag_byte response.(IsSyncRepEnabled); flag_byte response.(IsRoleMirror);
      flag_byte response.(RequestRetry)]].

Definition no_response : FtsResponse := mk_response false false false false false.

(** What a message finds outside the shared memory of the segment. *)
Inductive DBState := DB_IN_ARCHIVE_RECOVERY | DB_OTHER_STATE.

Record Surroundings := {
  am_mirror : bool;
  clock_now : Z;
  probe_file : ProbeFile;
  db_state : DBState;
  redo_ptr : Z;
  my_pid : Z
}.

Definition HandleFtsWalRepProbe (cfg : SegmentSettings) (env : Surroundings) (seg : Segment)
    : outcome (Segment * FtsResponse) :=
  let '(seg, response) :=
    if env.(am_mirror) then (seg, mk_response false false false true false)
    else
      let '(response, ready_for_syncrep) := GetMirrorStatus cfg env.(clock_now) seg no_response in
      if negb response.(IsSyncRepEnabled) && ready_for_syncrep then
        (SetSyncStandbysDefined seg,
         mk_response response.(IsMirrorUp) response.(IsInSync) true response.(IsRoleMirror)
           response.(RequestRetry))
      else (seg, response) in
  _ ← checkIODataDirectory env.(probe_file);
  Ok (seg, response).

Definition HandleFtsWalRepSyncRepOff (cfg : SegmentSettings) (env : Surroundings) (seg : Segment)
    : outcome (Segment * FtsResponse) :=
  let seg := UnsetSyncStandbysDefined seg in
  Ok (seg, (GetMirrorStatus cfg env.(clock_now) seg no_response).1).

Definition INTERNAL_WAL_REPLICATION_SLOT_NAME : string := "internal_wal_replication_slot".

(** The loop of [CreateReplicationSlotOnPromote] finds the last slot of the name. *)
Fixpoint find_slot (nm : string) (k : nat) (l : list ReplicationSlot) : option nat :=
  match l with
  | [] => None
  | s :: l' =>
      match find_slot nm (S k) l' with
      | Some j => Some j
      | None => if s.(slot_in_use) && String.eqb nm s.(slot_name) then Some k else None
      end
  end.

Fixpoint free_slot (k : nat) (l : list ReplicationSlot) : option nat :=
  match l with
  | [] => None
  | s :: l' => if negb s.(slot_in_use) then Some k else free_slot (S k) l'
  end.

(** [ReplicationSlotCreate] for a name that no slot has; a slot that could not be
    written to disk is not modelled. *)
Definition ReplicationSlotCreate (nm : string) (mypid : Z) (l : list ReplicationSlot)
    : outcome (list ReplicationSlot * nat) :=
  match free_slot 0 l with
  | None => Err "all replication slots are in use"
  | Some k => Ok (<[k := mk_slot (StrNCpy nm NAMEDATALEN) true 0 mypid]> l, k)
  end.

(** [ReplicationSlotReserveWal] takes the redo pointer: the slot is a physical one. *)
Definition CreateReplicationSlotOnPromote (nm : string) (env : Surroundings)
    (l : list ReplicationSlot) : outcome (list ReplicationSlot) :=
  '(l, k) ← match find_slot nm 0 l with
             | None => ReplicationSlotCreate nm env.(my_pid) l
             | Some k => Ok (l, k)
             end;
  Ok (alter (fun s => if s.(restart_lsn) =? 0
                      then mk_slot s.(slot_name) s.(slot_in_use) env.(redo_ptr) 0
                      else s) k l).

Definition HandleFtsWalRepPromote (env : Surroundings) (seg : Segment)
    : outcome (Segment * FtsResponse) :=
  let response := mk_response false false false env.(am_mirror) false in
  match env.(db_state) with
  | DB_IN_ARCHIVE_RECOVERY =>
      if negb (env.(redo_ptr) =? InvalidXLogRecPtr) then
        let seg := UnsetSyncStandbysDefined seg in
        slots ← CreateReplicationSlotOnPromote INTERNAL_WAL_REPLICATION_SLOT_NAME env
                  seg.(replication_slots);
        Ok (signal_promote (set_slots slots seg), response)
      else Ok (seg, response)
  | DB_OTHER_STATE => Ok (seg, response)
  end.

(** ** The text of a message *)

Definition FTS_MSG_PROBE : string := "PROBE".
Definition FTS_MSG_SYNCREP_OFF : string := "SYNCREP_OFF".
Definition FTS_MSG_PROMOTE : string := "PROMOTE".
Definition FTS_MSG_MAX_LEN : Z := 100.

(** [%s] of [scanf]: the next run of characters that are not white space. *)
Fixpoint word (s : string) : string * string :=
  match s with
  | EmptyString => (EmptyString, EmptyString)
  | String c s' => if isspace c then (EmptyString, s)
                   else let '(w, rest) := word s' in (String c w, rest)
  end.

(** The digits of [%d], with the value read so far. *)
Fixpoint dec_value (s : string) (acc : Z) (any : bool) : option (Z * string) :=
  match s with
  | String c s' =>
      if (48 <=? code c) && (code c <=? 57) then dec_value s' (10 * acc + (code c - 48)) true
      else if any then Some (acc, s) else None
  | EmptyString => if any then Some (acc, s) else None
  end.

(** [%d] into an [int], read as [strtol] does. *)
Definition scan_d (s : string) : option (Z * string) :=
  let s := skip_spaces s in
  let '(negative, s) :=
    match s with
    | String c s' => if code c =? 45 then (true, s') else if code c =? 43 then (false, s')
                     else (false, s)
    | EmptyString => (false, s)
    end in
  '(v, rest) ← dec_value s 0 false;
  let v := if (negative : bool) then Z.max (- v) (- 2 ^ 63) else Z.min v (2 ^ 63 - 1) in
  Some (s32 v, rest).

(** Literal characters of a format. *)
Fixpoint literal (p s : string) : option string :=
  match p, s with
  | EmptyString, _ => Some s
  | String a p', String b s' => if Ascii.eqb a b then literal p' s' else None
  | String _ _, EmptyString => None
  end.

(** The rest of [sscanf(query_string, FTS_MSG_FORMAT, ...)] after the word. *)
Definition scan_ids (s : string) : option (Z * Z) :=
  s ← literal "dbid=" (skip_spaces s);
  '(dbid, s) ← scan_d s;
  s ← literal "contid=" (skip_spaces s);
  '(contid, _) ← scan_d s;
  Some (dbid, contid).

(** [sscanf] writes the word with its final zero byte into [message_type]. *)
Definition scan_message (query_string : string) : outcome (string * Z * Z) :=
  let '(message_type, s) := word (skip_spaces query_string) in
  if FTS_MSG_MAX_LEN <=? Z.of_nat (String.length message_type) then Ub
  else
    match message_type, scan_ids s with
    | String _ _, Some (dbid, contid) => Ok (message_type, dbid, contid)
    | _, _ => Err "received invalid FTS query"
    end.

(** A message for another segment is only warned about. *)
Definition HandleFtsMessage (cfg : SegmentSettings) (env : Surroundings) (query_string : string)
    (seg : Segment) : outcome (Segment * PGresult) :=
  _ ← scan_message query_string;
  '(seg, response) ←
    (if String.prefix FTS_MSG_PROBE query_string then HandleFtsWalRepProbe cfg env seg
     else if String.prefix FTS_MSG_SYNCREP_OFF query_string then
       HandleFtsWalRepSyncRepOff cfg env seg
     else if String.prefix FTS_MSG_PROMOTE query_string then HandleFtsWalRepPromote env seg
     else Err "received unknown FTS query");
  Ok (seg, SendFtsResponse response).

(** ** The message that the prober sends *)

Definition digit (d : Z) : ascii := ascii_of_N (Z.to_N (48 + d)).

Fixpoint dec_digits (fuel : nat) (n : Z) (acc : string) : string :=
  match fuel with
  | O => acc
  | S f => let acc := String (digit (n mod 10)) acc in
           if n <? 10 then acc else dec_digits f (n / 10) acc
  end.

(** [%d] of [printf]: an [int] has ten digits at most. *)
Definition print_d (n : Z) : string :=
  if n <? 0 then String "-" (dec_digits 10 (- n) EmptyString) else dec_digits 10 n EmptyString.

(** [FTS_MSG_FORMAT], and what [snprintf] leaves in a buffer of [FTS_MSG_MAX_LEN]
    bytes. *)
Definition format_message (message_type : string) (dbid segindex : Z) : string :=
  message_type ++ " dbid=" ++ print_d dbid ++ " contid=" ++ print_d segindex.

Definition fts_message (s : FtsMessageState) (dbid segindex : Z) : string :=
  let message_type :=
    match s with
    | FTS_PROBE_SEGMENT => FTS_MSG_PROBE
    | FTS_SYNCREP_OFF_SEGMENT => FTS_MSG_SYNCREP_OFF
    | _ => FTS_MSG_PROMOTE
    end in
  String.substring 0 (Z.to_nat (FTS_MSG_MAX_LEN - 1)) (format_message message_type dbid segindex).

(** ** Messages are understood *)

Lemma append_empty s : String.append EmptyString s = s.
Proof. done. Qed.

Lemma append_string c a s : String.append (String c a) s = String c (String.append a s).
Proof. done. Qed.

Lemma digit_code d : 0 <= d < 10 -> code (digit d) = 48 + d.
Proof.
  intros H. assert (Hc : d = 0 \/ d = 1 \/ d = 2 \/ d = 3 \/ d = 4 \/ d = 5 \/ d = 6 \/ d = 7 \/
    d = 8 \/ d = 9) by lia.
  by repeat destruct Hc as [-> |Hc]; try rewrite Hc.
Qed.

Lemma dec_value_digit d s a any : 0 <= d < 10 ->
  dec_value (String (digit d) s) a any = dec_value s (10 * a + d) true.
Proof.
  intros H. cbn [dec_value]. rewrite digit_code by done.
  replace ((48 <=? 48 + d) && (48 + d <=? 57)) with true by lia.
  f_equal. lia.
Qed.

Lemma dec_value_digits fuel : forall n acc, 0 <= n < 10 ^ Z.of_nat (S fuel) ->
  exists k, 0 <= k /\ forall a any,
    dec_value (dec_digits (S fuel) n acc) a any = dec_value acc (a * 10 ^ k + n) true.
Proof.
  induction fuel as [|fuel IH]; intros n acc Hn.
  - exists 1. split; [lia|]. intros a any. cbn [dec_digits]. rewrite Z.mod_small by lia.
    change (10 ^ Z.of_nat 1) with 10 in Hn.
    replace (n <? 10) with true by lia. rewrite dec_value_digit by lia. f_equal. lia.
  - cbn [dec_digits]. destruct (n <? 10) eqn:E.
    + exists 1. split; [lia|]. intros a any. rewrite Z.mod_small by lia.
      rewrite dec_value_digit by lia. f_equal. lia.
    + destruct (IH (n / 10) (String (digit (n mod 10)) acc)) as (k & Hk & IHk).
      { rewrite Nat2Z.inj_succ, Z.pow_succ_r in Hn by lia. split; [apply Z.div_pos; lia|].
        apply Z.div_lt_upper_bound; lia. }
      exists (k + 1). split; [lia|]. intros a any. cbn [dec_digits] in IHk. rewrite IHk.
      pose proof (Z.mod_pos_bound n 10). rewrite dec_value_digit by lia. f_equal.
      rewrite Z.pow_add_r by lia. pose proof (Z.div_mod n 10). lia.
Qed.

Lemma dec_digits_head fuel : forall n acc, 0 <= n ->
  exists d s, 0 <= d < 10 /\ dec_digits (S fuel) n acc = String (digit d) s.
Proof.
  induction fuel as [|fuel IH]; intros n acc Hn; cbn [dec_digits].
  - case_match; eexists _, _; (split; [apply Z.mod_pos_bound; lia|reflexivity]).
  - case_match; [eexists _, _; split; [apply Z.mod_pos_bound; lia|reflexivity]|].
    apply IH. apply Z.div_pos; lia.
Qed.

Lemma dec_digits_app fuel : forall n acc rest,
  String.append (dec_digits fuel n acc) rest = dec_digits fuel n (String.append acc rest).
Proof.
  induction fuel as [|fuel IH]; intros n acc rest; [done|]. cbn [dec_digits].
  case_match; [done|]. by rewrite IH.
Qed.

Lemma dec_digits_length fuel : forall n acc,
  (String.length (dec_digits fuel n acc) <= fuel + String.length acc)%nat.
Proof.
  induction fuel as [|fuel IH]; intros n acc; cbn [dec_digits]; [lia|].
  case_match; [simpl; lia|]. etransitivity; [apply IH|]. simpl. lia.
Qed.

(** A text that a number cannot run into. *)
Definition ends_number (s : string) : Prop := forall v, dec_value s v true = Some (v, s).

Lemma scan_print n rest : - 2 ^ 31 <= n < 2 ^ 31 -> ends_number rest ->
  scan_d (String.append (print_d n) rest) = Some (n, rest).
Proof.
  intros Hn Hr. unfold scan_d, print_d. destruct (n <? 0) eqn:E.
  - rewrite append_string, dec_digits_app, append_empty. set (ds := dec_digits 10 (- n) rest) in *.
    change (skip_spaces (String "-" ds)) with (String "-" ds). cbv beta iota.
    change (code "-" =? 45) with true. cbv beta iota. unfold ds.
    destruct (dec_value_digits 9 (- n) rest) as (k & _ & Hk); [lia|].
    rewrite Hk, Hr. cbn. rewrite s32_small by lia. f_equal. f_equal. lia.
  - rewrite dec_digits_app, append_empty.
    destruct (dec_digits_head 9 n rest) as (d & s & Hd & Es); [lia|].
    destruct (dec_value_digits 9 n rest) as (k & _ & Hk); [lia|].
    specialize (Hk 0 false). rewrite Es in *. cbn [skip_spaces].
    assert (Hc : code (digit d) = 48 + d) by by apply digit_code.
    assert (Hs : isspace (digit d) = false) by (unfold isspace; rewrite Hc; lia).
    rewrite Hs. replace (code (digit d) =? 45) with false by lia.
    replace (code (digit d) =? 43) with false by lia.
    rewrite Hk, Hr. cbn. rewrite s32_small by lia. f_equal. f_equal. lia.
Qed.

Fixpoint no_space (s : string) : bool :=
  match s with String c s' => negb (isspace c) && no_space s' | EmptyString => true end.

Lemma word_app w s : no_space w = true -> word (String.append w (String " " s)) = (w, String " " s).
Proof.
  induction w as [|c w IH]; cbn [no_space]; intros H; [done|].
  rewrite append_string.
  apply andb_prop in H as [H1 H2]. cbn [word]. apply negb_true_iff in H1. rewrite H1.
  by rewrite IH.
Qed.

Lemma substring_full s : forall n, (String.length s <= n)%nat -> String.substring 0 n s = s.
Proof.
  induction s as [|c s IH]; intros [|n] H; simpl in *; try done; [lia|]. by rewrite IH by lia.
Qed.

Lemma prefix_append p s : String.prefix p (String.append p s) = true.
Proof.
  induction p as [|c p IH]; [by destruct s|]. rewrite append_string. simpl.
  destruct (ascii_dec c c); [done|congruence].
Qed.

Lemma print_d_length n : (String.length (print_d n) <= 11)%nat.
Proof.
  unfold print_d. case_match; cbn [String.length];
    match goal with |- context [dec_digits 10 ?x EmptyString] =>
      pose proof (dec_digits_length 10 x EmptyString) end; cbn [String.length] in *; lia.
Qed.

Lemma append_length a b : String.length (String.append a b) = (String.length a + String.length b)%nat.
Proof. induction a as [|c a IH]; [done|]. rewrite append_string. simpl. by rewrite IH. Qed.

Lemma literal_app p s : literal p (String.append p s) = Some s.
Proof. induction p as [|c p IH]; [done|]. rewrite append_string. cbn [literal]. by rewrite Ascii.eqb_refl. Qed.

Lemma append_nil_r s : String.append s EmptyString = s.
Proof. induction s as [|c s IH]; [done|]. by rewrite append_string, IH. Qed.

Lemma scan_format ty db seg :
  no_space ty = true -> ty <> EmptyString -> Z.of_nat (String.length ty) < FTS_MSG_MAX_LEN ->
  - 2 ^ 31 <= db < 2 ^ 31 -> - 2 ^ 31 <= seg < 2 ^ 31 ->
  (match ty with String c _ => isspace c = false | EmptyString => False end) ->
  scan_message (format_message ty db seg) = Ok (ty, db, seg).
Proof.
  intros Hns Hne Hlen Hdb Hseg Hfirst. unfold scan_message, format_message.
  assert (Hsk : forall s, skip_spaces (String.append ty s) = String.append ty s).
  { intros s. destruct ty as [|c ty]; [done|]. rewrite append_string. cbn [skip_spaces]. by rewrite Hfirst. }
  rewrite Hsk. change (String.append " dbid=" ?x) with (String " " (String.append "dbid=" x)).
  rewrite word_app by done. rewrite (proj2 (Z.leb_gt _ _)) by done.
  assert (Hids : scan_ids (String " " (String.append "dbid="
      (String.append (print_d db) (String.append " contid=" (print_d seg))))) = Some (db, seg)).
  { unfold scan_ids. change (skip_spaces (String " " (String.append "dbid=" ?x)))
      with (String.append "dbid=" x).
    rewrite literal_app. cbn [mbind option_bind]. rewrite scan_print; [|done|by intros v].
    cbn [mbind option_bind]. change (skip_spaces (String.append " contid=" ?x))
      with (String.append "contid=" x).
    rewrite literal_app. cbn [mbind option_bind].
    rewrite <- (append_nil_r (print_d seg)), scan_print; [done|done|by intros v]. }
  rewrite Hids. by destruct ty.
Qed.

(** The handler for the message of a state. *)
Definition handler (cfg : SegmentSettings) (env : Surroundings) (s : FtsMessageState)
    (seg : Segment) : outcome (Segment * FtsResponse) :=
  match s with
  | FTS_PROBE_SEGMENT => HandleFtsWalRepProbe cfg env seg
  | FTS_SYNCREP_OFF_SEGMENT => HandleFtsWalRepSyncRepOff cfg env seg
  | _ => HandleFtsWalRepPromote env seg
  end.

Lemma format_length ty db seg : (String.length ty <= 50)%nat ->
  (String.length (format_message ty db seg) <= 99)%nat.
Proof.
  intros H. unfold format_message. rewrite !append_length.
  pose proof (print_d_length db). pose proof (print_d_length seg).
  change (String.length " dbid=") with 6%nat. change (String.length " contid=") with 8%nat. lia.
Qed.

Lemma fts_message_format s db seg : is_messaging s = true ->
  fts_message s db seg =
  format_message match s with
                 | FTS_PROBE_SEGMENT => FTS_MSG_PROBE
                 | FTS_SYNCREP_OFF_SEGMENT => FTS_MSG_SYNCREP_OFF
                 | _ => FTS_MSG_PROMOTE
                 end db seg.
Proof.
  intros H. unfold fts_message. apply substring_full. apply format_length.
  destruct s; try done; vm_compute; lia.
Qed.

Lemma handle_message cfg env s db segi seg :
  is_messaging s = true -> - 2 ^ 31 <= db < 2 ^ 31 -> - 2 ^ 31 <= segi < 2 ^ 31 ->
  HandleFtsMessage cfg env (fts_message s db segi) seg =
  ('(seg, response) ← handler cfg env s seg; Ok (seg, SendFtsResponse response)).
Proof.
  intros Hs Hdb Hseg. rewrite fts_message_format by done. unfold HandleFtsMessage.
  rewrite scan_format; try done; by destruct s.
Qed.

(** ** The answers of a segment *)

Lemma mirror_walsender_sync l : let '(up, sync, _) := mirror_walsender l in sync = true -> up = true.
Proof.
  induction l as [|ws l IH]; simpl; [done|]. destruct (is_for_gp_walreceiver ws); simpl; [|done].
  intros [? _]%andb_prop. done.
Qed.

Lemma mirror_status_sync cfg now seg r0 :
  let r := (GetMirrorStatus cfg now seg r0).1 in IsInSync r = true -> IsMirrorUp r = true.
Proof.
  unfold GetMirrorStatus. pose proof (mirror_walsender_sync seg.(walsnds)) as H.
  by destruct (mirror_walsender seg.(walsnds)) as [[up sync] ready].
Qed.

Lemma handler_honest cfg env s seg seg' r :
  handler cfg env s seg = Ok (seg', r) -> IsInSync r = true -> IsMirrorUp r = true.
Proof.
  unfold handler, HandleFtsWalRepProbe, HandleFtsWalRepSyncRepOff, HandleFtsWalRepPromote.
  assert (Hp : forall x, (match db_state env with
    | DB_IN_ARCHIVE_RECOVERY =>
      if negb (env.(redo_ptr) =? InvalidXLogRecPtr) then
        slots ← x; Ok (signal_promote (set_slots slots (UnsetSyncStandbysDefined seg)),
                       mk_response false false false env.(am_mirror) false)
      else Ok (seg, mk_response false false false env.(am_mirror) false)
    | DB_OTHER_STATE => Ok (seg, mk_response false false false env.(am_mirror) false)
    end) = Ok (seg', r) -> IsInSync r = true -> IsMirrorUp r = true).
  { intros x. destruct env.(db_state); [case_match; [destruct x; try done; cbn [mbind outcome_bind]|]|];
      by intros [= _ <-]. }
  destruct s; try apply Hp.
  - pose proof (mirror_status_sync cfg env.(clock_now) seg no_response) as Hm.
    destruct (GetMirrorStatus cfg env.(clock_now) seg no_response) as [resp ready].
    destruct env.(am_mirror); [|destruct (negb resp.(IsSyncRepEnabled) && ready)];
      destruct (checkIODataDirectory _); try done; cbn [mbind outcome_bind]; intros E; by simplify_eq.
  - intros [= _ <-]. apply mirror_status_sync.
Qed.

Lemma record_response r i :
  probeRecordResponse (SendFtsResponse r) i =
  Ok (set_result (mk_result true r.(IsMirrorUp) r.(IsInSync) r.(IsSyncRepEnabled)
        r.(IsRoleMirror) r.(RequestRetry)) i).
Proof. destruct r as [[] [] [] [] []]; reflexivity. Qed.

(** C29: A message and its answer are understood: the text that the prober prints
    for a pair is read by the segment as the same dbid and content and runs the
    handler of the same message, and the row that comes back has the shape that
    the prober requires and is recorded with every flag of the response.  No
    response calls a mirror in sync that is not up, which is what the prober
    relies on. *)
Theorem exchange_understood cfg env s db segi seg :
  is_messaging s = true -> - 2 ^ 15 <= db < 2 ^ 15 -> - 2 ^ 15 <= segi < 2 ^ 15 ->
  (exists ty, scan_message (fts_message s db segi) = Ok (ty, db, segi)) /\
  match handler cfg env s seg with
  | Ok (seg', response) =>
      exists r, HandleFtsMessage cfg env (fts_message s db segi) seg = Ok (seg', r) /\
        (forall i, probeRecordResponse r i =
           Ok (set_result (mk_result true response.(IsMirrorUp) response.(IsInSync)
                 response.(IsSyncRepEnabled) response.(IsRoleMirror) response.(RequestRetry)) i)) /\
        r.(tuples_ok) = true /\ r.(nfields) = Natts_fts_message_response /\
        zlen r.(tuples) = FTS_MESSAGE_RESPONSE_NTUPLES /\ proper_result r /\ honest_result r
  | Err msg => HandleFtsMessage cfg env (fts_message s db segi) seg = Err msg
  | Ub => HandleFtsMessage cfg env (fts_message s db segi) seg = Ub
  end.
Proof.
  intros Hs Hdb Hseg. split.
  { rewrite fts_message_format by done. eexists. apply scan_format; try done; try lia;
      by destruct s. }
  rewrite handle_message by (try done; lia).
  destruct (handler cfg env s seg) as [[seg' r]| |] eqn:Eh; cbn [mbind outcome_bind]; try done.
  exists (SendFtsResponse r). split_and!; try done.
  - intros i. apply record_response.
  - by repeat constructor.
  - intros H. pose proof (handler_honest _ _ _ _ _ _ Eh) as Hh.
    destruct r as [[] [] c d f]; try done. by specialize (Hh eq_refl).
Qed.

(** ** A mirror that keeps failing *)

(** What a walsender does to the replication status: it starts, its state is set
    (to the state in [ws]), it dies. *)
Inductive WalEvent :=
  | SenderStarts
  | SenderState (ws : WalSnd) (now : Z)
  | SenderDies (now : Z).

Definition wal_event (ev : WalEvent) (l : list FTSReplicationStatus)
    : outcome (list FTSReplicationStatus) :=
  match ev with
  | SenderStarts =>
      FTSReplicationStatusCreateIfNotExist GP_WALRECEIVER_APPNAME GP_WALRECEIVER_APPNAME l
  | SenderState ws now =>
      Ok (FTSReplicationStatusUpdateForWalState GP_WALRECEIVER_APPNAME ws.(snd_state) ws now l)
  | SenderDies now =>
      Ok (FTSReplicationStatusMarkDisconnectForReplication GP_WALRECEIVER_APPNAME now l)
  end.

Fixpoint wal_events (evs : list WalEvent) (l : list FTSReplicationStatus)
    : outcome (list FTSReplicationStatus) :=
  match evs with
  | [] => Ok l
  | ev :: evs => l ← wal_event ev l; wal_events evs l
  end.

(** Does the mirror stream after this event? *)
Definition streams (ev : WalEvent) : bool :=
  match ev with
  | SenderState ws _ => is_mirror_up ws && bool_decide (ws.(snd_state) = WALSNDSTATE_STREAMING)
  | _ => false
  end.

Definition dies (ev : WalEvent) : bool :=
  match ev with SenderDies _ => true | _ => false end.

(** The slot of the mirror. *)
Definition mirror_slot (l : list FTSReplicationStatus) : option FTSReplicationStatus :=
  match RetrieveFTSReplicationStatus GP_WALRECEIVER_APPNAME l with
  | Some k => l !! k
  | None => None
  end.

Lemma retrieve_from_spec nm l : forall k j, retrieve_from nm k l = Some j ->
  (k <= j)%nat /\ exists slot, l !! (j - k)%nat = Some slot /\ is_named nm slot = true.
Proof.
  induction l as [|slot l IH]; intros k j; cbn [retrieve_from]; [done|].
  destruct (is_named nm slot) eqn:E.
  - intros [= <-]. split; [lia|]. exists slot. by rewrite Nat.sub_diag.
  - intros H. destruct (IH (S k) j H) as (Hle & s & Hs & Hn). split; [lia|]. exists s.
    by replace (j - k)%nat with (S (j - S k)) by lia.
Qed.

Lemma retrieve_from_alter nm f l : forall k j,
  (forall s, (f s).(name) = s.(name) /\ (f s).(in_use) = s.(in_use)) ->
  retrieve_from nm k (alter f j l) = retrieve_from nm k l.
Proof.
  intros k j Hf. revert k j. induction l as [|slot l IH]; intros k [|j]; try done;
    cbn [alter list_alter retrieve_from].
  - assert (E : is_named nm (f slot) = is_named nm slot).
    { unfold is_named. by destruct (Hf slot) as [-> ->]. }
    by rewrite E.
  - change (list_alter f j l) with (alter f j l). by rewrite IH.
Qed.

(** A change of the slot of the mirror. *)
Lemma at_mirror f l :
  (forall s, (f s).(name) = s.(name) /\ (f s).(in_use) = s.(in_use)) ->
  mirror_slot (at_slot (RetrieveFTSReplicationStatus GP_WALRECEIVER_APPNAME l) f l) =
  f <$> mirror_slot l.
Proof.
  intros Hf. unfold mirror_slot, RetrieveFTSReplicationStatus at 1.
  destruct (RetrieveFTSReplicationStatus GP_WALRECEIVER_APPNAME l) as [k|] eqn:E; cbn [at_slot].
  - rewrite retrieve_from_alter by done. unfold RetrieveFTSReplicationStatus in E. rewrite E.
    apply list_lookup_alter_eq.
  - unfold RetrieveFTSReplicationStatus in E. by rewrite E.
Qed.

Lemma mirror_field g l : slot_field g (RetrieveFTSReplicationStatus GP_WALRECEIVER_APPNAME l) l =
  match mirror_slot l with Some s => g s | None => 0 end.
Proof. unfold slot_field, mirror_slot. by destruct (RetrieveFTSReplicationStatus _ _). Qed.

Lemma find_existing nm l : forall k free j, retrieve_from nm j l <> None ->
  find_replication nm free k l = SlotExists.
Proof.
  induction l as [|slot l IH]; intros k free j H; cbn [retrieve_from find_replication] in *; [done|].
  unfold is_named in H. destruct slot.(in_use) eqn:Eu; simpl in H; [|by eapply IH].
  destruct (String.eqb nm slot.(name)) eqn:En.
  - apply String.eqb_eq in En. rewrite <- En. unfold strncmp_eq. by rewrite String.eqb_refl.
  - destruct (strncmp_eq _ _ _); [done|by eapply IH].
Qed.

(** What an event does to the slot of the mirror. *)
Definition slot_event (ev : WalEvent) (s : FTSReplicationStatus) : FTSReplicationStatus :=
  match ev with
  | SenderStarts => s
  | SenderState ws now =>
      if is_mirror_up ws then
        mk_replication s.(name) s.(in_use)
          (if bool_decide (ws.(snd_state) = WALSNDSTATE_STREAMING) then 0 else s.(con_attempt_count)) 0
      else if s.(replica_disconnected_at) =? 0 then mark_disconnect now s else s
  | SenderDies now => mark_disconnect now s
  end.

Lemma wal_event_slot ev l s : mirror_slot l = Some s ->
  exists l', wal_event ev l = Ok l' /\ mirror_slot l' = Some (slot_event ev s).
Proof.
  intros Hs. destruct ev as [|ws now|now]; cbn [wal_event].
  - unfold FTSReplicationStatusCreateIfNotExist. rewrite (find_existing _ _ _ _ 0); [by exists l|].
    unfold mirror_slot, RetrieveFTSReplicationStatus in Hs. by destruct (retrieve_from _ _ _).
  - eexists. split; [reflexivity|]. unfold FTSReplicationStatusUpdateForWalState. cbn [slot_event].
    unfold FTSReplicationStatusRetrieveDisconnectTime. rewrite mirror_field, Hs.
    destruct (is_mirror_up ws).
    + unfold FTSReplicationStatusClearDisconnectTime, FTSReplicationStatusClearAttempts.
      set (l1 := at_slot _ _ l).
      assert (E1 : mirror_slot l1 = Some (mk_replication s.(name) s.(in_use) s.(con_attempt_count) 0)).
      { unfold l1. rewrite at_mirror by done. by rewrite Hs. }
      case_bool_decide; [|done].
      assert (E2 : RetrieveFTSReplicationStatus GP_WALRECEIVER_APPNAME l1 =
                   RetrieveFTSReplicationStatus GP_WALRECEIVER_APPNAME l).
      { unfold l1, at_slot. destruct (RetrieveFTSReplicationStatus GP_WALRECEIVER_APPNAME l) eqn:E; [|done].
        rewrite <- E. by apply retrieve_from_alter. }
      rewrite <- E2. rewrite at_mirror by done. by rewrite E1.
    + case_match; [|done]. unfold FTSReplicationStatusMarkDisconnect. rewrite at_mirror by done.
      by rewrite Hs.
  - eexists. split; [reflexivity|]. unfold FTSReplicationStatusMarkDisconnectForReplication,
      FTSReplicationStatusMarkDisconnect. rewrite at_mirror by done. by rewrite Hs.
Qed.

Lemma wal_events_slot evs : forall l s, mirror_slot l = Some s ->
  exists l', wal_events evs l = Ok l' /\ mirror_slot l' = Some (foldl (fun s ev => slot_event ev s) s evs).
Proof.
  induction evs as [|ev evs IH]; intros l s Hs; cbn [wal_events foldl]; [by exists l|].
  destruct (wal_event_slot ev l s Hs) as (l1 & -> & H1). cbn [mbind outcome_bind]. by apply IH.
Qed.

(** Without streaming the count of attempts only grows, by the deaths at least. *)
Lemma attempts_grow evs : forall s,
  Forall (fun ev => streams ev = false) evs ->
  0 <= s.(con_attempt_count) -> s.(con_attempt_count) + zlen evs < 2 ^ 32 ->
  s.(con_attempt_count) + zlen (base.filter (fun ev => dies ev = true) evs) <=
  (foldl (fun s ev => slot_event ev s) s evs).(con_attempt_count).
Proof.
  induction evs as [|ev evs IH]; intros s Hst H0 Hb; cbn [foldl]; [rewrite filter_nil, zlen_nil; lia|].
  inversion Hst as [|? ? He Hst']; subst. rewrite zlen_cons in Hb. pose proof (zlen_nonneg evs).
  rewrite filter_cons.
  assert (Hstep : s.(con_attempt_count) + (if dies ev then 1 else 0) <=
      (slot_event ev s).(con_attempt_count) <= s.(con_attempt_count) + 1).
  { destruct ev as [|ws now|now]; cbn [slot_event dies]; [lia| |].
    - simpl in He. destruct (is_mirror_up ws).
      + simpl in He |- *. rewrite He. lia.
      + case_match; simpl; [rewrite u32_small by lia|]; lia.
    - simpl. rewrite u32_small by lia. lia. }
  specialize (IH (slot_event ev s) Hst' ltac:(destruct (dies ev); lia) ltac:(lia)).
  destruct (dies ev); simpl; [destruct (decide (true = true)); [rewrite zlen_cons; lia|done]|].
  destruct (decide (false = true)); [done|lia].
Qed.

Lemma retry_needed_slot cfg now l s : mirror_slot l = Some s ->
  is_probe_retry_needed cfg now l =
  (let at_ := if s.(con_attempt_count) <=? cfg.(gp_fts_replication_attempt_count)
              then s.(replica_disconnected_at) else 0 in
   let delta := s64 (now - Z.max at_ cfg.(PMAcceptingConnectionsStartTime)) in
   (delta <? cfg.(gp_fts_mark_mirror_down_grace_period)) && (0 <=? delta)).
Proof.
  intros Hs. unfold is_probe_retry_needed, FTSGetReplicationDisconnectTime.
  pose proof (mirror_field con_attempt_count l) as E1.
  pose proof (mirror_field replica_disconnected_at l) as E2. rewrite Hs in E1, E2.
  unfold mirror_slot in Hs. destruct (RetrieveFTSReplicationStatus _ _) as [k|]; [|done].
  unfold FTSReplicationStatusRetrieveAttempts, FTSReplicationStatusRetrieveDisconnectTime.
  by rewrite E1, E2.
Qed.


(** ** Promotion is idempotent *)

Lemma find_named_slot_spec nm l : forall k j, find_slot nm k l = Some j ->
  (k <= j)%nat /\ exists s, l !! (j - k)%nat = Some s /\ s.(slot_in_use) = true /\ s.(slot_name) = nm.
Proof.
  induction l as [|s l IH]; intros k j; cbn [find_slot]; [done|].
  destruct (find_slot nm (S k) l) as [j'|] eqn:E.
  - intros [= <-]. destruct (IH (S k) j' E) as (Hle & s' & Hs & Hn). split; [lia|]. exists s'.
    by replace (j' - k)%nat with (S (j' - S k)) by lia.
  - destruct (slot_in_use s && String.eqb nm s.(slot_name)) eqn:En; [|done]. intros [= <-].
    apply andb_prop in En as [? Hn%String.eqb_eq]. split; [lia|]. exists s.
    by rewrite Nat.sub_diag.
Qed.

Lemma find_slot_alter nm f l : forall k j,
  (forall s, (f s).(slot_name) = s.(slot_name) /\ (f s).(slot_in_use) = s.(slot_in_use)) ->
  find_slot nm k (alter f j l) = find_slot nm k l.
Proof.
  intros k j Hf. revert k j. induction l as [|s l IH]; intros k [|j]; try done; cbn [alter list_alter find_slot].
  - by destruct (Hf s) as [-> ->].
  - change (list_alter f j l) with (alter f j l). by rewrite IH.
Qed.

Lemma find_slot_insert nm l : forall k j s, find_slot nm k l = None -> (j < length l)%nat ->
  s.(slot_in_use) = true -> s.(slot_name) = nm -> find_slot nm k (<[j := s]> l) = Some (k + j)%nat.
Proof.
  induction l as [|s0 l IH]; intros k j s Hn Hj Hu Hnm; [simpl in Hj; lia|].
  cbn [find_slot] in Hn. destruct (find_slot nm (S k) l) eqn:E; [done|].
  destruct j as [|j].
  - change (<[0%nat := s]> (s0 :: l)) with (s :: l). cbn [find_slot]. rewrite E, Hu, Hnm, String.eqb_refl. simpl. by rewrite Nat.add_0_r.
  - assert (IH' : find_slot nm (S k) (<[j := s]> l) = Some (S k + j)%nat)
      by (apply IH; try done; simpl in Hj; lia).
    change (<[S j := s]> (s0 :: l)) with (s0 :: <[j := s]> l). cbn [find_slot]. rewrite IH'.
    f_equal. lia.
Qed.

Lemma free_slot_bound l : forall k j, free_slot k l = Some j -> (k <= j < k + length l)%nat.
Proof.
  induction l as [|s l IH]; intros k j; cbn [free_slot]; [done|]. case_match.
  - intros [= <-]. simpl. lia.
  - intros H1. apply IH in H1. simpl. lia.
Qed.

(** A slot with its place in the log. *)
Definition reserved (l : list ReplicationSlot) : Prop :=
  exists k s, find_slot INTERNAL_WAL_REPLICATION_SLOT_NAME 0 l = Some k /\ l !! k = Some s /\
    s.(restart_lsn) <> 0.

Definition reserve (env : Surroundings) (s : ReplicationSlot) : ReplicationSlot :=
  if s.(restart_lsn) =? 0 then mk_slot s.(slot_name) s.(slot_in_use) env.(redo_ptr) 0 else s.

Lemma create_slot_reserved env l l' :
  CreateReplicationSlotOnPromote INTERNAL_WAL_REPLICATION_SLOT_NAME env l = Ok l' ->
  env.(redo_ptr) <> 0 -> reserved l'.
Proof.
  unfold CreateReplicationSlotOnPromote. intros E Hr. fold (reserve env) in E.
  assert (Hf : forall s, (reserve env s).(slot_name) = s.(slot_name) /\
                         (reserve env s).(slot_in_use) = s.(slot_in_use)).
  { intros s. unfold reserve. by destruct (restart_lsn s =? 0). }
  assert (Hlsn : forall s, (reserve env s).(restart_lsn) <> 0).
  { intros s. unfold reserve. destruct (restart_lsn s =? 0) eqn:E0; simpl; lia. }
  destruct (find_slot INTERNAL_WAL_REPLICATION_SLOT_NAME 0 l) as [k|] eqn:Ef.
  - cbn [mbind outcome_bind] in E. injection E as <-.
    destruct (find_named_slot_spec _ _ _ _ Ef) as (_ & s & Hs & _). rewrite Nat.sub_0_r in Hs.
    exists k, (reserve env s). split_and!; [by rewrite find_slot_alter| |done].
    rewrite list_lookup_alter_eq. by rewrite Hs.
  - unfold ReplicationSlotCreate in E. destruct (free_slot 0 l) as [k|] eqn:Ek; [|done].
    cbn [mbind outcome_bind] in E. injection E as <-. apply free_slot_bound in Ek.
    set (s := mk_slot _ true 0 _). exists k, (reserve env s). split_and!.
    + rewrite find_slot_alter by done. by rewrite (find_slot_insert _ _ 0 k s) by (try done; lia).
    + rewrite list_lookup_alter_eq, list_lookup_insert_eq by lia. done.
    + apply Hlsn.
Qed.

Lemma create_slot_again env l : reserved l ->
  CreateReplicationSlotOnPromote INTERNAL_WAL_REPLICATION_SLOT_NAME env l = Ok l.
Proof.
  intros (k & s & Ef & Hs & Hl). unfold CreateReplicationSlotOnPromote. rewrite Ef.
  cbn [mbind outcome_bind]. f_equal. fold (reserve env). apply list_eq. intros j.
  destruct (decide (j = k)) as [->|Hne].
  - rewrite list_lookup_alter_eq, Hs. simpl. unfold reserve. by rewrite (proj2 (Z.eqb_neq _ _)).
  - by rewrite list_lookup_alter_ne.
Qed.

(** Handling a promote message is idempotent, so the prober may repeat it: a
    handled promotion leaves a replication slot that holds a place in the log, and
    a later message, whatever the state of the database then, succeeds and changes
    no slot.  The message is answered with the role that the segment has. *)
Theorem promote_idempotent env env2 seg seg1 r1 :
  env.(db_state) = DB_IN_ARCHIVE_RECOVERY -> env.(redo_ptr) <> InvalidXLogRecPtr ->
  HandleFtsWalRepPromote env seg = Ok (seg1, r1) ->
  reserved seg1.(replication_slots) /\ seg1.(promote_signalled) = true /\
  exists seg2, HandleFtsWalRepPromote env2 seg1 =
      Ok (seg2, mk_response false false false env2.(am_mirror) false) /\
    seg2.(replication_slots) = seg1.(replication_slots) /\ seg2.(promote_signalled) = true.
Proof.
  intros Hst Hredo E. unfold HandleFtsWalRepPromote in E. rewrite Hst in E.
  replace (redo_ptr env =? InvalidXLogRecPtr) with false in E by lia. cbn [negb] in E.
  destruct (CreateReplicationSlotOnPromote _ _ _) as [slots| |] eqn:Ec; try done.
  cbn [mbind outcome_bind] in E. injection E as <- _. simpl.
  pose proof (create_slot_reserved _ _ _ Ec Hredo) as Hres. split_and!; [done|done|].
  unfold HandleFtsWalRepPromote.
  destruct env2.(db_state); [|by eexists]. case_match; [|by eexists].
  assert (Hsl : (UnsetSyncStandbysDefined (signal_promote (set_slots slots
     (UnsetSyncStandbysDefined seg)))).(replication_slots) = slots).
  { unfold UnsetSyncStandbysDefined. simpl. by repeat case_match. }
  rewrite Hsl, (create_slot_again env2 slots Hres). cbn [mbind outcome_bind]. by eexists.
Qed.

(** ** A message without an end *)

Lemma word_all s : no_space s = true -> word s = (s, EmptyString).
Proof.
  induction s as [|c s IH]; cbn [no_space word]; [done|]. intros [H1 H2]%andb_prop.
  apply negb_true_iff in H1. rewrite H1. by rewrite IH.
Qed.

(** A query without white space of 100 characters or more makes the handler
    write past the end of the array for the message type, because the conversion
    of sscanf has no width. *)
Theorem long_message_overflows cfg env seg query :
  no_space query = true -> FTS_MSG_MAX_LEN <= Z.of_nat (String.length query) ->
  HandleFtsMessage cfg env query seg = Ub.
Proof.
  intros Hn Hl. unfold HandleFtsMessage, scan_message.
  assert (Hs : skip_spaces query = query).
  { destruct query as [|c q]; [done|]. cbn [no_space] in Hn. apply andb_prop in Hn as [Hc _].
    cbn [skip_spaces]. apply negb_true_iff in Hc. by rewrite Hc. }
  rewrite Hs, word_all by done. by rewrite (proj2 (Z.leb_le _ _)).
Qed.

(** ** Examples *)

Module Sample.
Definition cfg : SegmentSettings := Build_SegmentSettings 1 30 1000.
Definition good_file : ProbeFile :=
  Build_ProbeFile Opened true BLCKSZ
    (BLCKSZ, FTS_PROBE_MAGIC_STRING ++ String zero EmptyString) true BLCKSZ.
Definition env : Surroundings :=
  Build_Surroundings true 2000 good_file DB_IN_ARCHIVE_RECOVERY 4096 77.
Definition primary_env : Surroundings :=
  Build_Surroundings false 2000 good_file DB_OTHER_STATE 4096 77.
Definition sender (st : WalSndState) : WalSnd := Build_WalSnd 5 st 4096 true true.
Definition slot : FTSReplicationStatus := mk_replication GP_WALRECEIVER_APPNAME true 0 0.
Definition seg : Segment :=
  mk_segment [sender WALSNDSTATE_STREAMING] true [slot] "*" 0 [mk_slot EmptyString false 0 0] false.
End Sample.

Lemma exchange_understood_witness :
  (exists ty, scan_message (fts_message FTS_PROBE_SEGMENT 2 0) = Ok (ty, 2, 0)) /\
  match handler Sample.cfg Sample.primary_env FTS_PROBE_SEGMENT Sample.seg with
  | Ok (seg', response) =>
      response = mk_response true true true false false /\
      exists r, HandleFtsMessage Sample.cfg Sample.primary_env (fts_message FTS_PROBE_SEGMENT 2 0)
                  Sample.seg = Ok (seg', r) /\ honest_result r
  | _ => False
  end.
Proof.
  destruct (exchange_understood Sample.cfg Sample.primary_env FTS_PROBE_SEGMENT 2 0 Sample.seg)
    as [H1 H2]; [reflexivity|lia|lia|].
  split; [exact H1|].
  destruct (handler Sample.cfg Sample.primary_env FTS_PROBE_SEGMENT Sample.seg)
    as [[seg' r]| |] eqn:E; vm_compute in E; try discriminate E.
  injection E as _ <-. split; [reflexivity|].
  destruct H2 as (r & Hr & _ & _ & _ & _ & _ & Hh). exists r. split; [exact Hr|exact Hh].
Defined.


Lemma promote_idempotent_witness :
  match HandleFtsWalRepPromote Sample.env Sample.seg with
  | Ok (seg1, r1) => reserved seg1.(replication_slots) /\
      exists seg2, HandleFtsWalRepPromote Sample.primary_env seg1 =
          Ok (seg2, mk_response false false false false false) /\
        seg2.(replication_slots) = seg1.(replication_slots)
  | _ => False
  end.
Proof.
  destruct (HandleFtsWalRepPromote Sample.env Sample.seg) as [[seg1 r1]| |] eqn:E;
    [|vm_compute in E; discriminate E..].
  destruct (promote_idempotent Sample.env Sample.primary_env Sample.seg seg1 r1)
    as (Hr & _ & seg2 & E2 & Hs & _); [reflexivity|discriminate|exact E|].
  split; [exact Hr|]. exists seg2. split; [exact E2|exact Hs].
Defined.

Lemma long_message_overflows_witness :
  HandleFtsMessage Sample.cfg Sample.env
    (String.concat EmptyString (replicate 20 FTS_MSG_PROBE)) Sample.seg = Ub.
Proof. apply long_message_overflows; [reflexivity|vm_compute; discriminate]. Defined.
