(* ===== verification/DtxLog.v ===== *)
(** * The coordinator's log of distributed commits

    The part of two-phase commit that survives a crash of the coordinator
    (src/backend/cdb/cdbtm.c and cdbdtxrecovery.c, with the checkpoints and the
    redo of src/backend/access/transam/xlog.c and xact.c and the process array of
    src/backend/storage/ipc/procarray.c).

    The state is the shared memory that these files use, the write-ahead log with
    its flushed prefix, and the checkpoint that the control file points to.
    Backends, the checkpointer, the recovery process and crashes are actions that
    interleave in any order; an action is what a process does between two points
    at which another one can look.  Positions in the log are numbers of records. *)
From Stdlib Require Import Sorted.
From S2P Require Import Prelude TransactionId.

(** ** Data *)

Inductive DtxState :=
| DTX_STATE_NONE
| DTX_STATE_ACTIVE_DISTRIBUTED
| DTX_STATE_ONE_PHASE_COMMIT
| DTX_STATE_NOTIFYING_ONE_PHASE_COMMIT
| DTX_STATE_PREPARING
| DTX_STATE_PREPARED
| DTX_STATE_INSERTING_COMMITTED
| DTX_STATE_INSERTED_COMMITTED
| DTX_STATE_NOTIFYING_COMMIT_PREPARED
| DTX_STATE_INSERTING_FORGET_COMMITTED
| DTX_STATE_INSERTED_FORGET_COMMITTED
| DTX_STATE_NOTIFYING_ABORT_NO_PREPARED
| DTX_STATE_NOTIFYING_ABORT_SOME_PREPARED
| DTX_STATE_NOTIFYING_ABORT_PREPARED
| DTX_STATE_RETRY_COMMIT_PREPARED
| DTX_STATE_RETRY_ABORT_PREPARED.

#[export] Instance DtxState_eq_dec : EqDecision DtxState.
Proof. solve_decision. Defined.

Definition FirstDistributedTransactionId : Z := 1.
Definition LastDistributedTransactionId : Z := 2 ^ 64 - 1.

(** The [CheckPoint] of the log and the [TMGXACT_CHECKPOINT] that follows it. *)
Record CheckPoint := mkCheckPoint {
  cp_redo : nat;
  cp_nextGxid : Z;
  committedGxidArray : list Z
}.

Inductive WalRecord :=
| XLOG_XACT_DISTRIBUTED_COMMIT (gxid : Z)
| XLOG_XACT_DISTRIBUTED_FORGET (gxid : Z)
| XLOG_NEXTGXID (gxid : Z)
| XLOG_CHECKPOINT (cp : CheckPoint)
| XLOG_OTHER.

#[export] Instance CheckPoint_eq_dec : EqDecision CheckPoint.
Proof. solve_decision. Defined.
#[export] Instance WalRecord_eq_dec : EqDecision WalRecord.
Proof. solve_decision. Defined.

(** What a backend of the coordinator shows of its distributed transaction: the
    fields of [TMGXACT] and of [PGXACT] that count here, and the state in its
    [TMGXACTLOCAL], which says where in the commit it is. *)
Record Proc := mkProc {
  p_gxid : Z;
  includeInCkpt : bool;
  delayChkpt : bool;
  p_state : DtxState
}.

(** Where the checkpointer is in [CreateCheckPoint]. *)
Inductive CkptProgress :=
| CkptIdle
| CkptRedo (redo : nat)
| CkptGxid (redo : nat) (next : Z)
| CkptWait (redo : nat) (next : Z) (vxids : list (nat * Z))
| CkptScan (redo : nat) (next : Z) (i : nat) (committed : list Z).

Inductive Phase := Running | Stopped | Recovered.

#[export] Instance Phase_eq_dec : EqDecision Phase.
Proof. solve_decision. Defined.

Record Shared := mkShared {
  nextGxid : Z;
  GxidCount : Z;
  latestCompletedGxid : Z;
  shmCommittedGxidArray : list Z;
  recovered : nat;             (* the entries [recoverInDoubtTransactions] is past *)
  allProcs : list Proc;
  bumping : bool;              (* [GxidBumpLock] is held by [bumpGxid] *)
  ckpt : CkptProgress;
  phase : Phase;
  wal : list WalRecord;
  flushed : nat;
  checkPoint : nat             (* [ControlFile->checkPoint] *)
}.

Definition with_gxids (n k : Z) (b : bool) (c : Shared) : Shared :=
  mkShared n k (latestCompletedGxid c) (shmCommittedGxidArray c) (recovered c) (allProcs c)
    b (ckpt c) (phase c) (wal c) (flushed c) (checkPoint c).
Definition with_procs (ps : list Proc) (c : Shared) : Shared :=
  mkShared (nextGxid c) (GxidCount c) (latestCompletedGxid c) (shmCommittedGxidArray c) (recovered c) ps
    (bumping c) (ckpt c) (phase c) (wal c) (flushed c) (checkPoint c).
Definition with_latest (g : Z) (c : Shared) : Shared :=
  mkShared (nextGxid c) (GxidCount c) g (shmCommittedGxidArray c) (recovered c) (allProcs c)
    (bumping c) (ckpt c) (phase c) (wal c) (flushed c) (checkPoint c).
Definition with_array (a : list Z) (i : nat) (c : Shared) : Shared :=
  mkShared (nextGxid c) (GxidCount c) (latestCompletedGxid c) a i (allProcs c)
    (bumping c) (ckpt c) (phase c) (wal c) (flushed c) (checkPoint c).
Definition with_ckpt (k : CkptProgress) (c : Shared) : Shared :=
  mkShared (nextGxid c) (GxidCount c) (latestCompletedGxid c) (shmCommittedGxidArray c) (recovered c) (allProcs c)
    (bumping c) k (phase c) (wal c) (flushed c) (checkPoint c).
Definition with_phase (f : Phase) (c : Shared) : Shared :=
  mkShared (nextGxid c) (GxidCount c) (latestCompletedGxid c) (shmCommittedGxidArray c) (recovered c) (allProcs c)
    (bumping c) (ckpt c) f (wal c) (flushed c) (checkPoint c).
Definition with_wal (w : list WalRecord) (n k : nat) (c : Shared) : Shared :=
  mkShared (nextGxid c) (GxidCount c) (latestCompletedGxid c) (shmCommittedGxidArray c) (recovered c) (allProcs c)
    (bumping c) (ckpt c) (phase c) w n k.

(** ** The log *)

Definition XLogInsert (r : WalRecord) (c : Shared) : Shared :=
  with_wal (wal c ++ [r]) (flushed c) (checkPoint c) c.

(** [upto] is the number of records that must be on disk. *)
Definition XLogFlush (upto : nat) (c : Shared) : Shared :=
  with_wal (wal c) (flushed c `max` (upto `min` length (wal c))) (checkPoint c) c.

(** Where the last record equal to [r] ends. *)
Fixpoint record_end (r : WalRecord) (w : list WalRecord) : nat :=
  match w with
  | [] => 0
  | x :: w => if (record_end r w =? 0)%nat then (if decide (x = r) then 1%nat else 0%nat)
              else S (record_end r w)
  end.

(** ** Distributed transaction identifiers (cdbtm.c) *)
Section gxids.
Context (gp_gxid_prefetch_num : Z).

Definition GXID_PRETCH_THRESHOLD : Z := Z.shiftr gp_gxid_prefetch_num 1.

Definition nextLimit (c : Shared) : Z :=
  u64 (nextGxid c + u32 (GxidCount c + gp_gxid_prefetch_num)).

Definition XLogPutNextGxid (g : Z) (c : Shared) : Shared :=
  let c := XLogInsert (XLOG_NEXTGXID g) c in
  XLogFlush (length (wal c)) c.

(** [bumpGxid] up to the record in the log; [None] is the [PANIC]. *)
Definition bumpGxid_log (c : Shared) : option Shared :=
  if u64 (LastDistributedTransactionId - gp_gxid_prefetch_num) <=? nextLimit c then None
  else Some (with_gxids (nextGxid c) (GxidCount c) true (XLogPutNextGxid (nextLimit c) c)).

(** And the rest of it. *)
Definition bumpGxid_count (c : Shared) : Shared :=
  with_gxids (nextGxid c) (u32 (GxidCount c + gp_gxid_prefetch_num)) false c.

Definition bumpGxid (c : Shared) : option Shared :=
  if GXID_PRETCH_THRESHOLD <? GxidCount c then Some c
  else bumpGxid_count <$> bumpGxid_log c.

(** The section of [currentDtxActivate] under [shmGxidGenLock], and what follows. *)
Definition take_gxid (p : nat) (c : Shared) : Shared :=
  with_gxids (u64 (nextGxid c + 1)) (u32 (GxidCount c - 1)) (bumping c)
    (with_procs (alter (fun x => mkProc (nextGxid c) (includeInCkpt x) (delayChkpt x) DTX_STATE_ACTIVE_DISTRIBUTED)
                  p (allProcs c)) c).

(** Without other backends, one round of its loop is enough. *)
Definition currentDtxActivate (p : nat) (c : Shared) : option Shared :=
  c ← (if GxidCount c =? 0 then bumpGxid c else Some c);
  if 0 <? GxidCount c then Some (take_gxid p c) else None.
End gxids.

(** ** The commit of a backend (cdbtm.c, xact.c, procarray.c) *)

Definition setCurrentDtxState (p : nat) (s : DtxState) (c : Shared) : Shared :=
  with_procs (alter (fun x => mkProc (p_gxid x) (includeInCkpt x) (delayChkpt x) s) p (allProcs c)) c.

Definition set_includeInCkpt (p : nat) (b : bool) (c : Shared) : Shared :=
  with_procs (alter (fun x => mkProc (p_gxid x) b (delayChkpt x) (p_state x)) p (allProcs c)) c.

Definition set_delayChkpt (p : nat) (b : bool) (c : Shared) : Shared :=
  with_procs (alter (fun x => mkProc (p_gxid x) (includeInCkpt x) b (p_state x)) p (allProcs c)) c.

Definition gxid_of (p : nat) (c : Shared) : Z :=
  match allProcs c !! p with Some x => p_gxid x | None => InvalidDistributedTransactionId end.

Definition insertingDistributedCommitted (p : nat) (c : Shared) : Shared :=
  setCurrentDtxState p DTX_STATE_INSERTING_COMMITTED c.

Definition insertedDistributedCommitted (p : nat) (c : Shared) : Shared :=
  set_includeInCkpt p true (setCurrentDtxState p DTX_STATE_INSERTED_COMMITTED c).

(** Its flush, under [SYNCHRONOUS_COMMIT_REMOTE_APPLY] only, is a flush by anybody. *)
Definition RecordDistributedForgetCommitted (g : Z) (c : Shared) : Shared :=
  XLogInsert (XLOG_XACT_DISTRIBUTED_FORGET g) c.

(** [ProcArrayEndGxact], and the reset of the local state by [resetTmGxact]. *)
Definition ProcArrayEndGxact (p : nat) (c : Shared) : Shared :=
  let g := gxid_of p c in
  let c := with_procs (alter (fun x => mkProc InvalidDistributedTransactionId false false DTX_STATE_NONE) p (allProcs c)) c in
  if negb (g =? InvalidDistributedTransactionId) && (latestCompletedGxid c <? g)
  then with_latest g c else c.

(** ** Checkpoints (xlog.c, procarray.c) *)

(** [GetVirtualXIDsDelayingChkpt]: the virtual transaction id of a backend in a
    distributed transaction is given by its number and its gxid. *)
Definition GetVirtualXIDsDelayingChkpt (c : Shared) : list (nat * Z) :=
  omap (fun '(i, x) => if delayChkpt x then Some (i, p_gxid x) else None) (imap pair (allProcs c)).

Definition HaveVirtualXIDsDelayingChkpt (vxids : list (nat * Z)) (c : Shared) : bool :=
  existsb (fun v => bool_decide (v ∈ vxids)) (GetVirtualXIDsDelayingChkpt c).

(** One backend in the second loop of [getDtxCheckPointInfo]. *)
Definition scan_proc (x : Proc) (committed : list Z) : list Z :=
  if includeInCkpt x then committed ++ [p_gxid x] else committed.

Definition getDtxCheckPointInfo (c : Shared) : list Z :=
  foldl (fun a x => scan_proc x a) (shmCommittedGxidArray c) (allProcs c).

(** The end of [CreateCheckPoint]: the record, its flush, the control file. *)
Definition write_checkpoint (cp : CheckPoint) (c : Shared) : Shared :=
  let at_ := length (wal c) in
  let c := XLogInsert (XLOG_CHECKPOINT cp) c in
  let c := XLogFlush (length (wal c)) c in
  with_wal (wal c) (flushed c) at_ c.

(** A checkpoint at shutdown or at the end of recovery, when nobody else runs. *)
Definition CreateCheckPoint_shutdown (c : Shared) : Shared :=
  write_checkpoint (mkCheckPoint (length (wal c)) (nextGxid c) (getDtxCheckPointInfo c)) c.

(** ** Redo (cdbdtxrecovery.c, xlog.c, xact.c) *)
Section redo.
Context (max_tm_gxacts : Z).

Definition redoDistributedCommitRecord (g : Z) (a : list Z) : outcome (list Z) :=
  if bool_decide (g ∈ a) then Ok a
  else if max_tm_gxacts <=? zlen a
       then Err "the limit of %d distributed transactions has been reached while adding gid"
       else Ok (a ++ [g]).

Fixpoint find_gxid (g : Z) (a : list Z) : option nat :=
  match a with
  | [] => None
  | x :: a => if x =? g then Some 0%nat else S <$> find_gxid g a
  end.

Definition redoDistributedForgetCommitRecord (g : Z) (a : list Z) : list Z :=
  match find_gxid g a with
  | None => a
  | Some i =>
      let n := pred (length a) in
      if (i =? n)%nat then take n a
      else match a !! n with Some l => <[i := l]> (take n a) | None => a end
  end.

Fixpoint redoDtxCheckPoint (gs a : list Z) : outcome (list Z) :=
  match gs with
  | [] => Ok a
  | g :: gs => a ← redoDistributedCommitRecord g a; redoDtxCheckPoint gs a
  end.

(** [xlog_redo] and [xact_redo], on the next gxid and the array. *)
Definition redo_record (r : WalRecord) (s : Z * list Z) : outcome (Z * list Z) :=
  match r with
  | XLOG_XACT_DISTRIBUTED_COMMIT g => a ← redoDistributedCommitRecord g s.2; Ok (s.1, a)
  | XLOG_XACT_DISTRIBUTED_FORGET g => Ok (s.1, redoDistributedForgetCommitRecord g s.2)
  | XLOG_NEXTGXID n => Ok (n, s.2)
  | XLOG_CHECKPOINT _ | XLOG_OTHER => Ok s
  end.

Fixpoint redo_records (w : list WalRecord) (s : Z * list Z) : outcome (Z * list Z) :=
  match w with
  | [] => Ok s
  | r :: w => s ← redo_record r s; redo_records w s
  end.

(** The reading of the checkpoint and the redo loop of [StartupXLOG], on a log of
    which the first [cut] records are on disk. *)
Definition redo_log (cut : nat) (c : Shared) : outcome (Z * list Z) :=
  match take cut (wal c) !! checkPoint c with
  | Some (XLOG_CHECKPOINT cp) =>
      a ← redoDtxCheckPoint (committedGxidArray cp) [];
      redo_records (drop (cp_redo cp) (take cut (wal c))) (cp_nextGxid cp, a)
  | _ => Err "could not locate a valid checkpoint record"
  end.

Definition idle_proc : Proc := mkProc InvalidDistributedTransactionId false false DTX_STATE_NONE.

(** [StartupXLOG] up to where connections would be accepted. *)
Definition StartupXLOG (cut : nat) (c : Shared) : outcome Shared :=
  s ← redo_log cut c;
  Ok (mkShared s.1 0 s.1 s.2 0 (replicate (length (allProcs c)) idle_proc) false CkptIdle Recovered
        (take cut (wal c)) cut (checkPoint c)).
End redo.

(** ** Interleaving *)

Inductive LogAction :=
| Bump                          (* [bumpGxid] up to the log record *)
| BumpDone                      (* and the rest of it *)
| Activate (p : nat)            (* a backend takes a gxid *)
| Work (p : nat) (s : DtxState) (* it works, prepares or aborts *)
| DelayChkpt (p : nat)          (* [RecordTransactionCommit] enters its critical section *)
| InsertCommit (p : nat)        (* it inserts the commit record *)
| Inserted (p : nat)            (* [insertedDistributedCommitted] *)
| FlushCommit (p : nat)         (* it flushes the record and leaves the critical section *)
| Notify (p : nat) (s : DtxState) (* it notifies the segments, again and again *)
| InsertForget (p : nat)        (* [doInsertForgetCommitted] inserts its record *)
| Forgotten (p : nat)           (* and clears [includeInCkpt] *)
| EndXact (p : nat)             (* [ProcArrayEndTransaction] *)
| InsertOther                   (* another record *)
| FlushWal (n : nat)            (* somebody flushes *)
| CkptStart                     (* the checkpointer takes the redo pointer *)
| CkptReadGxid                  (* the next gxid *)
| CkptGetVxids                  (* the transactions to wait for *)
| CkptReadArray                 (* has waited, and reads the array *)
| CkptReadProc                  (* reads one backend *)
| CkptWrite                     (* and writes its record *)
| RecoverStart                  (* [recoverInDoubtTransactions] starts, maybe again *)
| RecoverForget                 (* one round of its loop *)
| RecoverReset                  (* and the reset after it *)
| Shutdown                      (* shutdown with a checkpoint *)
| Restart (cut : nat)           (* start after a crash that kept [cut] records *)
| StartupDone (b : bool).       (* the end of start-up, with or without a checkpoint *)

(** States in which no commit record has been written. *)
Definition before_commit (s : DtxState) : bool :=
  match s with
  | DTX_STATE_ACTIVE_DISTRIBUTED | DTX_STATE_ONE_PHASE_COMMIT | DTX_STATE_NOTIFYING_ONE_PHASE_COMMIT
  | DTX_STATE_PREPARING | DTX_STATE_PREPARED | DTX_STATE_NOTIFYING_ABORT_NO_PREPARED
  | DTX_STATE_NOTIFYING_ABORT_SOME_PREPARED | DTX_STATE_NOTIFYING_ABORT_PREPARED
  | DTX_STATE_RETRY_ABORT_PREPARED => true
  | _ => false
  end.

Definition notifying (s : DtxState) : bool :=
  match s with
  | DTX_STATE_NOTIFYING_COMMIT_PREPARED | DTX_STATE_RETRY_COMMIT_PREPARED => true
  | _ => false
  end.

Definition on_proc (p : nat) (f : Proc -> bool) (c : Shared) (c' : Shared) : option Shared :=
  match allProcs c !! p with
  | Some x => if bool_decide (phase c = Running) && f x then Some c' else None
  | None => None
  end.

Section log_step.
Context (max_tm_gxacts gp_gxid_prefetch_num : Z).

Definition proc_action (a : LogAction) (c : Shared) : option Shared :=
  match a with
  | Activate p =>
      on_proc p (fun x => bool_decide (p_state x = DTX_STATE_NONE) && (0 <? GxidCount c)) c (take_gxid p c)
  | Work p s =>
      on_proc p (fun x => before_commit (p_state x) && negb (delayChkpt x) && before_commit s) c
        (setCurrentDtxState p s c)
  | DelayChkpt p =>
      on_proc p (fun x => bool_decide (p_state x = DTX_STATE_PREPARED) && negb (delayChkpt x)) c
        (set_delayChkpt p true c)
  | InsertCommit p =>
      on_proc p (fun x => bool_decide (p_state x = DTX_STATE_PREPARED) && delayChkpt x) c
        (XLogInsert (XLOG_XACT_DISTRIBUTED_COMMIT (gxid_of p c)) (insertingDistributedCommitted p c))
  | Inserted p =>
      on_proc p (fun x => bool_decide (p_state x = DTX_STATE_INSERTING_COMMITTED)) c
        (insertedDistributedCommitted p c)
  | FlushCommit p =>
      on_proc p (fun x => bool_decide (p_state x = DTX_STATE_INSERTED_COMMITTED) && delayChkpt x) c
        (set_delayChkpt p false
           (XLogFlush (record_end (XLOG_XACT_DISTRIBUTED_COMMIT (gxid_of p c)) (wal c)) c))
  | Notify p s =>
      on_proc p (fun x => (bool_decide (p_state x = DTX_STATE_INSERTED_COMMITTED) || notifying (p_state x))
                          && negb (delayChkpt x) && notifying s) c (setCurrentDtxState p s c)
  | InsertForget p =>
      on_proc p (fun x => notifying (p_state x)) c
        (RecordDistributedForgetCommitted (gxid_of p c)
           (setCurrentDtxState p DTX_STATE_INSERTING_FORGET_COMMITTED c))
  | Forgotten p =>
      on_proc p (fun x => bool_decide (p_state x = DTX_STATE_INSERTING_FORGET_COMMITTED)) c
        (set_includeInCkpt p false (setCurrentDtxState p DTX_STATE_INSERTED_FORGET_COMMITTED c))
  | EndXact p =>
      on_proc p (fun x => (before_commit (p_state x) && negb (delayChkpt x))
                          || bool_decide (p_state x = DTX_STATE_INSERTED_FORGET_COMMITTED)) c
        (ProcArrayEndGxact p c)
  | _ => None
  end.

Definition ckpt_action (a : LogAction) (c : Shared) : option Shared :=
  match a, ckpt c with
  | CkptStart, CkptIdle => Some (with_ckpt (CkptRedo (length (wal c))) c)
  | CkptReadGxid, CkptRedo r =>
      if bumping c then None
      else Some (with_ckpt (CkptGxid r (u64 (nextGxid c + GxidCount c))) c)
  | CkptGetVxids, CkptGxid r n => Some (with_ckpt (CkptWait r n (GetVirtualXIDsDelayingChkpt c)) c)
  | CkptReadArray, CkptWait r n vxids =>
      if HaveVirtualXIDsDelayingChkpt vxids c then None
      else Some (with_ckpt (CkptScan r n 0 (shmCommittedGxidArray c)) c)
  | CkptReadProc, CkptScan r n i a =>
      x ← allProcs c !! i; Some (with_ckpt (CkptScan r n (S i) (scan_proc x a)) c)
  | CkptWrite, CkptScan r n i a =>
      if (i =? length (allProcs c))%nat
      then Some (with_ckpt CkptIdle (write_checkpoint (mkCheckPoint r n a) c)) else None
  | _, _ => None
  end.

Definition system_action (a : LogAction) (c : Shared) : option Shared :=
  match a with
  | Bump =>
      if bumping c || (GXID_PRETCH_THRESHOLD gp_gxid_prefetch_num <? GxidCount c) then None
      else bumpGxid_log gp_gxid_prefetch_num c
  | BumpDone => if bumping c then Some (bumpGxid_count gp_gxid_prefetch_num c) else None
  | InsertOther => Some (XLogInsert XLOG_OTHER c)
  | FlushWal n => Some (XLogFlush n c)
  | RecoverStart => Some (with_array (shmCommittedGxidArray c) 0 c)
  | RecoverForget =>
      g ← shmCommittedGxidArray c !! recovered c;
      Some (with_array (shmCommittedGxidArray c) (S (recovered c)) (RecordDistributedForgetCommitted g c))
  | RecoverReset =>
      if (recovered c =? length (shmCommittedGxidArray c))%nat then Some (with_array [] 0 c) else None
  | Shutdown =>
      match ckpt c with
      | CkptIdle => if forallb (fun x => bool_decide (p_state x = DTX_STATE_NONE)) (allProcs c) && negb (bumping c)
                    then Some (with_phase Stopped (CreateCheckPoint_shutdown c)) else None
      | _ => None
      end
  | _ => None
  end.

(** One action; [None] when it cannot happen. *)
Definition log_step (a : LogAction) (c : Shared) : option Shared :=
  match a with
  | Restart cut =>
      if (flushed c <=? cut)%nat && (cut <=? length (wal c))%nat
      then match StartupXLOG max_tm_gxacts cut c with Ok c => Some c | _ => None end else None
  | StartupDone b =>
      if bool_decide (phase c = Recovered)
      then Some (with_phase Running (if b then CreateCheckPoint_shutdown c else c)) else None
  | Bump | BumpDone | InsertOther | FlushWal _ | RecoverStart | RecoverForget | RecoverReset | Shutdown =>
      if bool_decide (phase c = Running) then system_action a c else None
  | CkptStart | CkptReadGxid | CkptGetVxids | CkptReadArray | CkptReadProc | CkptWrite =>
      if bool_decide (phase c = Running) then ckpt_action a c else None
  | _ => proc_action a c
  end.

Fixpoint log_run (acts : list LogAction) (c : Shared) : option Shared :=
  match acts with [] => Some c | a :: acts => c ← log_step a c; log_run acts c end.

(** The gxids that the backends take in a run. *)
Fixpoint gxids_taken (acts : list LogAction) (c : Shared) : list Z :=
  match acts with
  | [] => []
  | a :: acts =>
      match log_step a c with
      | Some c' => match a with Activate _ => [nextGxid c] | _ => [] end ++ gxids_taken acts c'
      | None => []
      end
  end.
End log_step.

(** A new cluster, with the checkpoint of [BootStrapXLOG] and [n] backends. *)
Definition BootStrapXLOG (n : nat) : Shared :=
  mkShared FirstDistributedTransactionId 0 0 [] 0 (replicate n idle_proc) false CkptIdle Running
    [XLOG_CHECKPOINT (mkCheckPoint 0 FirstDistributedTransactionId [])] 1 0.

(** Boolean guards as propositions. *)
Ltac bool_props :=
  repeat match goal with
  | H : (_ && _) = true |- _ => apply andb_true_iff in H as [? H]
  | H : bool_decide _ = true |- _ => apply bool_decide_eq_true in H
  | H : negb _ = true |- _ => apply negb_true_iff in H
  | H : (_ <? _) = true |- _ => apply Z.ltb_lt in H
  end.

(** ** Lemmas on logs *)

(** The log has a commit record, a forget record of [g]. *)
Definition com (w : list WalRecord) (g : Z) : Prop := XLOG_XACT_DISTRIBUTED_COMMIT g ∈ w.
Definition forg (w : list WalRecord) (g : Z) : Prop := XLOG_XACT_DISTRIBUTED_FORGET g ∈ w.

(** The next gxid after a redo of [w] from [n]. *)
Definition gxid_limit (n : Z) (w : list WalRecord) : Z :=
  foldl (fun n r => match r with XLOG_NEXTGXID m => m | _ => n end) n w.

Lemma com_app w v g : com (w ++ v) g <-> com w g \/ com v g.
Proof. apply elem_of_app. Qed.
Lemma forg_app w v g : forg (w ++ v) g <-> forg w g \/ forg v g.
Proof. apply elem_of_app. Qed.
Lemma com_take n w g : com (take n w) g -> com w g.
Proof. rewrite <- (take_drop n w) at 2. rewrite com_app. auto. Qed.
Lemma forg_take n w g : forg (take n w) g -> forg w g.
Proof. rewrite <- (take_drop n w) at 2. rewrite forg_app. auto. Qed.
Lemma com_take_app n w v g : (n <= length w)%nat -> com (take n (w ++ v)) g <-> com (take n w) g.
Proof. intros. by rewrite take_app_le. Qed.
Lemma com_cases cut n w g : com (take cut w) g -> com (take n w) g \/ com (drop n (take cut w)) g.
Proof.
  rewrite <- (take_drop n (take cut w)) at 1. rewrite com_app, take_take.
  intros [H |]; [left | by right]. rewrite Nat.min_comm, <- take_take in H. by apply com_take in H.
Qed.
Lemma forg_order w v :
  (forall k g, forg (take k w) g -> com (take k w) g) -> (forall g, forg v g -> com w g) ->
  forall k g, forg (take k (w ++ v)) g -> com (take k (w ++ v)) g.
Proof.
  intros Hw Hv k g. rewrite take_app, forg_app, com_app. intros [Hg | Hg]; [auto |].
  destruct (decide (k <= length w)%nat) as [Hk | Hk].
  - replace (k - length w)%nat with 0%nat in Hg by lia. by apply elem_of_nil in Hg.
  - left. rewrite take_ge by lia. apply Hv. by apply forg_take in Hg.
Qed.
Lemma gxid_limit_app n w v : gxid_limit n (w ++ v) = gxid_limit (gxid_limit n w) v.
Proof. apply foldl_app. Qed.
Lemma gxid_limit_none n w : (forall m, XLOG_NEXTGXID m ∉ w) -> gxid_limit n w = n.
Proof.
  revert n. induction w as [| r w IH]; intros n H; [done |].
  cbn. destruct r; try (apply IH; intros m Hm; eapply H; by right).
  exfalso. eapply H. by left.
Qed.
(** With a record in between, the start does not matter. *)
Lemma gxid_limit_some n n' w m : XLOG_NEXTGXID m ∈ w -> gxid_limit n w = gxid_limit n' w.
Proof.
  revert n n'. induction w as [| r w IH]; intros n n' H; [by apply elem_of_nil in H |].
  apply elem_of_cons in H as [<- | H]; [done |]. cbn. destruct r; try apply (IH _ _ H); done.
Qed.
Lemma gxid_limit_cases n n' w : gxid_limit n w = gxid_limit n' w \/ (gxid_limit n w = n /\ gxid_limit n' w = n').
Proof.
  revert n n'. induction w as [| r w IH]; intros n n'; [by right |]. cbn. destruct r; try apply IH. by left.
Qed.

Lemma alter_insert {A} (f : A -> A) (l : list A) i x : l !! i = Some x -> alter f i l = <[i := f x]> l.
Proof.
  intros H. apply list_eq. intros j. destruct (decide (i = j)) as [<- |].
  - rewrite list_lookup_alter_eq, H, list_lookup_insert_eq; [done | by eapply lookup_lt_Some].
  - by rewrite list_lookup_alter_ne, list_lookup_insert_ne.
Qed.

Lemma record_end_spec r w : r ∈ w -> r ∈ take (record_end r w) w.
Proof.
  induction w as [| x w IH]; [intros H; by apply elem_of_nil in H |]. cbn.
  intros [-> | H]%elem_of_cons.
  - destruct (Nat.eqb_spec (record_end x w) 0); [rewrite decide_True by done |]; cbn; by left.
  - specialize (IH H). destruct (Nat.eqb_spec (record_end r w) 0) as [E | E].
    + rewrite E in IH. by apply elem_of_nil in IH.
    + cbn. by right.
Qed.

(** ** Lemmas on redo *)

Lemma find_gxid_Some g a i : find_gxid g a = Some i -> a !! i = Some g.
Proof.
  revert i. induction a as [| x a IH]; intros i H; [done |]. cbn in H.
  destruct (Z.eqb_spec x g) as [-> |]; [by simplify_eq |].
  destruct (find_gxid g a); cbn in H; simplify_eq. by apply IH.
Qed.
Lemma find_gxid_None g a : find_gxid g a = None -> g ∉ a.
Proof.
  induction a as [| x a IH]; intros H; [apply not_elem_of_nil |]. cbn in H.
  destruct (Z.eqb_spec x g); [done |]. destruct (find_gxid g a); [done |].
  rewrite elem_of_cons. intros [| Ha]; [congruence | by apply IH].
Qed.

Lemma redo_forget_perm g a :
  g ∈ a -> a ≡ₚ g :: redoDistributedForgetCommitRecord g a.
Proof.
  intros Hg. unfold redoDistributedForgetCommitRecord.
  destruct (find_gxid g a) as [i |] eqn:E; [| by apply find_gxid_None in E].
  apply find_gxid_Some in E. pose proof (lookup_lt_Some _ _ _ E).
  destruct (Nat.eqb_spec i (pred (length a))) as [Hi | Hi].
  - rewrite <- (take_drop (pred (length a)) a) at 1. rewrite <- Hi.
    rewrite (drop_S _ _ _ E), drop_ge by lia. by rewrite Permutation_app_comm.
  - destruct (lookup_lt_is_Some_2 a (pred (length a))) as [l Hl]; [lia |]. rewrite Hl.
    rewrite <- (take_drop (pred (length a)) a) at 1. rewrite (drop_S _ _ _ Hl), drop_ge by lia.
    set (b := take (pred (length a)) a).
    assert (Hb : b !! i = Some g) by (unfold b; rewrite lookup_take_lt; [done | lia]).
    pose proof (lookup_lt_Some _ _ _ Hb).
    rewrite insert_take_drop by done. rewrite <- (take_drop i b) at 1. rewrite (drop_S _ _ _ Hb).
    rewrite <- app_assoc. cbn. rewrite <- Permutation_middle. apply perm_skip.
    apply Permutation_app_head. by rewrite Permutation_app_comm.
Qed.

Lemma redo_forget_spec g a :
  NoDup a ->
  NoDup (redoDistributedForgetCommitRecord g a) /\
  forall x, x ∈ redoDistributedForgetCommitRecord g a <-> x ∈ a /\ x <> g.
Proof.
  intros Ha. destruct (decide (g ∈ a)) as [Hg | Hg].
  - pose proof (redo_forget_perm g a Hg) as Hp. rewrite Hp in Ha. apply NoDup_cons in Ha as [Hn Ha].
    split; [done |]. intros x. rewrite Hp at 2. rewrite elem_of_cons. split; [| tauto].
    intros Hx. split; [auto |]. by intros ->.
  - unfold redoDistributedForgetCommitRecord. destruct (find_gxid g a) as [i |] eqn:E.
    + apply find_gxid_Some, list_elem_of_lookup_2 in E. done.
    + split; [done |]. intros x. split; [| tauto]. intros Hx. split; [done |]. by intros ->.
Qed.

Lemma redo_commit_spec max g a a' :
  NoDup a -> redoDistributedCommitRecord max g a = Ok a' ->
  NoDup a' /\ forall x, x ∈ a' <-> x ∈ a \/ x = g.
Proof.
  unfold redoDistributedCommitRecord. intros Ha H. case_bool_decide as Hg.
  - simplify_eq. split; [done |]. intros x. split; [tauto |]. by intros [| ->].
  - destruct (max <=? zlen a); simplify_eq. split.
    + apply NoDup_app. split_and!; [done | | apply NoDup_singleton].
      intros x Hx ->%list_elem_of_singleton. done.
    + intros x. by rewrite elem_of_app, list_elem_of_singleton.
Qed.

Lemma redo_checkpoint_spec max gs a a' :
  NoDup a -> redoDtxCheckPoint max gs a = Ok a' ->
  NoDup a' /\ forall x, x ∈ a' <-> x ∈ a \/ x ∈ gs.
Proof.
  revert a. induction gs as [| g gs IH]; intros a Ha H; cbn in H.
  - simplify_eq. split; [done |]. intros x. rewrite elem_of_nil. tauto.
  - outcome_inv. destruct (redo_commit_spec _ _ _ _ Ha E) as [Hd Hi].
    destruct (IH _ Hd H) as [Hd' Hi']. split; [done |]. intros x. rewrite Hi', Hi, elem_of_cons. tauto.
Qed.

(** What redo makes of a stretch of the log. *)
Lemma redo_records_spec max w s s' :
  NoDup s.2 -> redo_records max w s = Ok s' ->
  s'.1 = gxid_limit s.1 w /\ NoDup s'.2 /\
  (forall g, g ∈ s'.2 -> g ∈ s.2 \/ com w g) /\
  (forall g, g ∈ s.2 \/ com w g -> forg w g \/ g ∈ s'.2).
Proof.
  revert s. induction w as [| r w IH]; intros [n a] Ha H; cbn in H.
  - simplify_eq. split_and!; try done; [tauto |]. intros g [|Hg]; [auto |]. by apply elem_of_nil in Hg.
  - unfold com, forg. setoid_rewrite elem_of_cons. destruct r as [g | g | m | cp |]; cbn in H.
    + destruct (redoDistributedCommitRecord max g a) as [a1 | |] eqn:E; cbn in H; try done.
      destruct (redo_commit_spec _ _ _ _ Ha E) as [Hd Hi].
      destruct (IH (n, a1) Hd H) as (H1 & H2 & H3 & H4). split_and!; try done.
      * intros x Hx. apply H3 in Hx as [Hx%Hi | Hx]; cbn in *; naive_solver.
      * intros x Hx. cbn in *. destruct (H4 x); [rewrite Hi; unfold com; naive_solver | auto | auto].
    + destruct (redo_forget_spec g a Ha) as [Hd Hi].
      destruct (IH (n, redoDistributedForgetCommitRecord g a) Hd H) as (H1 & H2 & H3 & H4). split_and!; try done.
      * intros x Hx. apply H3 in Hx as [[Hx _]%Hi | Hx]; unfold com in *; auto.
      * intros x Hx. cbn in *. destruct (decide (x = g)) as [-> | Hne]; [by left; left |].
        destruct (H4 x); [rewrite Hi; unfold com; naive_solver | auto | auto].
    + destruct (IH (m, a) Ha H) as (H1 & H2 & H3 & H4). cbn in *. split_and!; try done.
      * intros x Hx%H3. unfold com in *. tauto.
      * intros x Hx. destruct (H4 x); [unfold com; naive_solver | auto | auto].
    + destruct (IH (n, a) Ha H) as (H1 & H2 & H3 & H4). cbn in *. split_and!; try done.
      * intros x Hx%H3. unfold com in *. tauto.
      * intros x Hx. destruct (H4 x); [unfold com; naive_solver | auto | auto].
    + destruct (IH (n, a) Ha H) as (H1 & H2 & H3 & H4). cbn in *. split_and!; try done.
      * intros x Hx%H3. unfold com in *. tauto.
      * intros x Hx. destruct (H4 x); [unfold com; naive_solver | auto | auto].
Qed.

(** ** The invariant of the log *)

(** A backend whose committed transaction a checkpoint must find. *)
Definition holder (x : Proc) : Prop :=
  includeInCkpt x = true \/ p_state x = DTX_STATE_INSERTING_COMMITTED.

Definition proc_ok (w : list WalRecord) (n : Z) (x : Proc) : Prop :=
  let g := p_gxid x in
  match p_state x with
  | DTX_STATE_NONE => x = idle_proc
  | DTX_STATE_INSERTING_COMMITTED =>
      0 < g < n /\ com w g /\ includeInCkpt x = false /\ delayChkpt x = true
  | DTX_STATE_INSERTED_COMMITTED => 0 < g < n /\ com w g /\ includeInCkpt x = true
  | DTX_STATE_NOTIFYING_COMMIT_PREPARED | DTX_STATE_RETRY_COMMIT_PREPARED =>
      0 < g < n /\ com w g /\ includeInCkpt x = true /\ delayChkpt x = false
  | DTX_STATE_INSERTING_FORGET_COMMITTED =>
      0 < g < n /\ com w g /\ forg w g /\ includeInCkpt x = true /\ delayChkpt x = false
  | DTX_STATE_INSERTED_FORGET_COMMITTED =>
      0 < g < n /\ com w g /\ forg w g /\ includeInCkpt x = false /\ delayChkpt x = false
  | s => 0 < g < n /\ ~ com w g /\ includeInCkpt x = false /\
         (delayChkpt x = true -> s = DTX_STATE_PREPARED)
  end.

(** The checkpoint at [k] has what a redo from it needs. *)
Record control_ok (w : list WalRecord) (f k : nat) (cp : CheckPoint) : Prop := {
  co_at : w !! k = Some (XLOG_CHECKPOINT cp);
  co_redo : (cp_redo cp <= k)%nat;
  co_flushed : (k < f <= length w)%nat;
  co_covers : forall g, com (take (cp_redo cp) w) g -> g ∈ committedGxidArray cp \/ forg (take k w) g;
  co_committed : forall g, g ∈ committedGxidArray cp -> com (take k w) g
}.

Section invariant.
Context (gp_gxid_prefetch_num : Z).

(** The gxids below this one are given out or reserved. *)
Definition reserved (c : Shared) : Z :=
  nextGxid c + GxidCount c + (if bumping c then gp_gxid_prefetch_num else 0).

Definition promised (c : Shared) : Z :=
  if decide (phase c = Stopped) then nextGxid c else reserved c.

Lemma promised_live c : phase c <> Stopped -> promised c = reserved c.
Proof. intros. unfold promised. by rewrite decide_False. Qed.

Definition ckpt_base (c : Shared) (r : nat) (n : Z) : Prop :=
  (r <= length (wal c))%nat /\ gxid_limit n (drop r (wal c)) = promised c.

Definition ckpt_ok (c : Shared) (redo0 : nat) : Prop :=
  match ckpt c with
  | CkptIdle => True
  | CkptRedo r => (redo0 <= r <= length (wal c))%nat /\ phase c = Running
  | CkptGxid r n => ckpt_base c r n
  | CkptWait r n v =>
      ckpt_base c r n /\
      forall p x, allProcs c !! p = Some x -> p_state x = DTX_STATE_INSERTING_COMMITTED ->
        com (take r (wal c)) (p_gxid x) -> (p, p_gxid x) ∈ v
  | CkptScan r n i a =>
      ckpt_base c r n /\
      (forall g, com (take r (wal c)) g ->
         g ∈ a \/ forg (wal c) g \/
         exists p x, (i <= p)%nat /\ allProcs c !! p = Some x /\ p_gxid x = g /\ includeInCkpt x = true) /\
      (forall g, g ∈ a -> com (wal c) g)
  end.

Record log_inv (c : Shared) : Prop := {
  li_com : forall g, com (wal c) g -> 0 < g < nextGxid c;
  li_forg : forall k g, forg (take k (wal c)) g -> com (take k (wal c)) g;
  li_arr : forall g, g ∈ shmCommittedGxidArray c -> com (wal c) g;
  li_rec : forall g, g ∈ take (recovered c) (shmCommittedGxidArray c) -> forg (wal c) g;
  li_proc : forall p x, allProcs c !! p = Some x -> proc_ok (wal c) (nextGxid c) x;
  li_distinct : forall p q x y, allProcs c !! p = Some x -> allProcs c !! q = Some y ->
    p_gxid x = p_gxid y -> p_gxid x <> 0 -> p = q;
  li_live : forall g, com (wal c) g ->
    forg (wal c) g \/ g ∈ shmCommittedGxidArray c \/
    exists p x, allProcs c !! p = Some x /\ p_gxid x = g /\ holder x;
  li_control : exists cp, control_ok (wal c) (flushed c) (checkPoint c) cp /\
    gxid_limit (cp_nextGxid cp) (drop (cp_redo cp) (wal c)) = promised c /\
    ckpt_ok c (cp_redo cp);
  li_next : 0 < nextGxid c /\ 0 <= GxidCount c /\ reserved c < LastDistributedTransactionId - gp_gxid_prefetch_num;
  li_count : 2 * GxidCount c <= (if bumping c then gp_gxid_prefetch_num else 3 * gp_gxid_prefetch_num);
  li_nextgxid : forall i n, wal c !! i = Some (XLOG_NEXTGXID n) -> (i < flushed c)%nat
}.

Lemma proc_ok_mono w v n n' x :
  proc_ok w n x -> n <= n' -> (forall g, com v g -> g <> p_gxid x \/ before_commit (p_state x) = false) ->
  proc_ok (w ++ v) n' x.
Proof.
  unfold proc_ok. intros H Hn Hv. destruct (p_state x); cbn in Hv; try done;
    rewrite ?com_app, ?forg_app; destruct_and! H; split_and!; try done; try lia; try tauto;
    intros [|Hc]; try done; destruct (Hv _ Hc); done.
Qed.

Lemma control_ok_append w v f k cp :
  control_ok w f k cp -> control_ok (w ++ v) f k cp.
Proof.
  intros [H1 H2 H3 H4 H5]. constructor; try done.
  - by apply lookup_app_l_Some.
  - rewrite length_app. lia.
  - intros g. rewrite !take_app_le by lia. auto.
  - intros g. rewrite !take_app_le by lia. auto.
Qed.

(** A record that is not about gxids keeps the limit. *)
Lemma limit_append n r w v :
  (r <= length w)%nat -> (forall m, XLOG_NEXTGXID m ∉ v) ->
  gxid_limit n (drop r (w ++ v)) = gxid_limit n (drop r w).
Proof. intros H Hv. rewrite drop_app_le by done. rewrite gxid_limit_app. by apply gxid_limit_none. Qed.

(** What a step of backend [p] may do: [x] becomes [x'] and [v] is logged. *)
Record proc_step_ok (c : Shared) (x x' : Proc) (v : list WalRecord) : Prop := {
  ps_ok : proc_ok (wal c ++ v) (nextGxid c) x';
  ps_gxid : p_gxid x' = p_gxid x \/ p_gxid x' = 0;
  ps_nextgxid : forall m, XLOG_NEXTGXID m ∉ v;
  ps_com : forall g, com v g -> g = p_gxid x /\ before_commit (p_state x) = true /\ p_gxid x' = g /\ holder x';
  ps_forg : forall g, forg v g -> com (wal c) g;
  ps_include : includeInCkpt x = true ->
    (includeInCkpt x' = true /\ p_gxid x' = p_gxid x) \/ forg (wal c ++ v) (p_gxid x);
  ps_inserting : p_state x = DTX_STATE_INSERTING_COMMITTED -> holder x' /\ p_gxid x' = p_gxid x;
  ps_not_inserting : p_state x' = DTX_STATE_INSERTING_COMMITTED -> ~ com (wal c) (p_gxid x')
}.

Definition updated (c : Shared) (p : nat) (x' : Proc) (v : list WalRecord) : Shared :=
  with_wal (wal c ++ v) (flushed c) (checkPoint c) (with_procs (<[p := x']> (allProcs c)) c).

(** A backend that holds a commit still holds it, or has forgotten it. *)
Lemma holder_kept c p x x' v q y :
  proc_step_ok c x x' v -> allProcs c !! p = Some x -> allProcs c !! q = Some y -> holder y ->
  forg (wal c ++ v) (p_gxid y) \/
  exists z, <[p := x']> (allProcs c) !! q = Some z /\ p_gxid z = p_gxid y /\ holder z.
Proof.
  intros Hs Hp Hq Hy. destruct (decide (p = q)) as [<- | Hne].
  - simplify_eq. assert (Hl : <[p := x']> (allProcs c) !! p = Some x').
    { apply list_lookup_insert_eq. by eapply lookup_lt_Some. }
    destruct Hy as [Hy | Hy].
    + destruct (ps_include _ _ _ _ Hs Hy) as [[Hi Hg] | Hf]; [right | by left].
      exists x'. split_and!; try done. by left.
    + destruct (ps_inserting _ _ _ _ Hs Hy). right. by exists x'.
  - right. exists y. by rewrite list_lookup_insert_ne.
Qed.

Lemma include_kept c p x x' v q y :
  proc_step_ok c x x' v -> allProcs c !! p = Some x -> allProcs c !! q = Some y -> includeInCkpt y = true ->
  forg (wal c ++ v) (p_gxid y) \/
  exists z, <[p := x']> (allProcs c) !! q = Some z /\ p_gxid z = p_gxid y /\ includeInCkpt z = true.
Proof.
  intros Hs Hp Hq Hy. destruct (decide (p = q)) as [<- | Hne].
  - simplify_eq. destruct (ps_include _ _ _ _ Hs Hy) as [[Hi Hg] | Hf]; [right | by left].
    exists x'. rewrite list_lookup_insert_eq by (by eapply lookup_lt_Some). done.
  - right. exists y. by rewrite list_lookup_insert_ne.
Qed.

Lemma updated_ckpt_ok c p x x' v k :
  log_inv c -> allProcs c !! p = Some x -> proc_step_ok c x x' v ->
  ckpt_ok c k -> ckpt_ok (updated c p x' v) k.
Proof.
  intros HI Hp Hs. pose proof (ps_nextgxid _ _ _ _ Hs) as Hn. unfold ckpt_ok.
  change (ckpt (updated c p x' v)) with (ckpt c).
  assert (Hbase : forall r n, ckpt_base c r n -> ckpt_base (updated c p x' v) r n).
  { intros r n [Hr Hl]. split; cbn; [rewrite length_app; lia |]. rewrite limit_append by done. apply Hl. }
  destruct (ckpt c) as [| r | r n | r n vx | r n i a]; [done | | by apply Hbase | |].
  - intros [Hr Hph]. split; [cbn; rewrite length_app; lia | done].
  - intros [Hb Hv]. split; [by apply Hbase |]. destruct Hb as [Hr _]. intros q y Hq Hy Hc. cbn in Hq, Hc.
    apply com_take_app in Hc; [| done]. destruct (decide (p = q)) as [<- | Hne].
    + rewrite list_lookup_insert_eq in Hq by (by eapply lookup_lt_Some). simplify_eq.
      apply com_take in Hc. by apply (ps_not_inserting _ _ _ _ Hs) in Hc.
    + rewrite list_lookup_insert_ne in Hq by done. by apply Hv.
  - intros (Hb & Hv & Ha). split_and!; [by apply Hbase | |]; destruct Hb as [Hr _]; cbn.
    + intros g Hg. apply com_take_app in Hg; [| done].
      destruct (Hv g Hg) as [Hg1 | [Hg1 | (q & y & Hi & Hq & <- & Hy)]]; [by left | right; left; apply forg_app; by left |].
      destruct (include_kept _ _ _ _ _ _ _ Hs Hp Hq Hy) as [Hf | (z & Hz & Hzg & Hzi)]; [by right; left |].
      right. right. by exists q, z.
    + intros g Hg. apply com_app. left. auto.
Qed.

Lemma updated_inv c p x x' v :
  log_inv c -> allProcs c !! p = Some x -> proc_step_ok c x x' v -> log_inv (updated c p x' v).
Proof.
  intros HI Hp Hs. pose proof HI as HI'. destruct HI' as [I1 I2 I3 I4 I5 I6 I7 I8 I9 I10 I11].
  pose proof (I5 _ _ Hp) as Hx. pose proof (ps_nextgxid _ _ _ _ Hs) as Hn.
  assert (Hlen : (p < length (allProcs c))%nat) by (by eapply lookup_lt_Some).
  assert (Hlook : forall q y, <[p := x']> (allProcs c) !! q = Some y -> (q = p /\ y = x') \/ (q <> p /\ allProcs c !! q = Some y)).
  { intros q y Hq. destruct (decide (p = q)) as [<- |]; [rewrite list_lookup_insert_eq in Hq by done | rewrite list_lookup_insert_ne in Hq by done]; [left | right]; naive_solver. }
  assert (Hcv : forall g, com v g -> 0 < g < nextGxid c).
  { intros g Hg. destruct (ps_com _ _ _ _ Hs g Hg) as (-> & Hb & _). unfold proc_ok in Hx.
    destruct (p_state x); try done; destruct_and! Hx; lia. }
  constructor; cbn; auto.
  - intros g. rewrite com_app. intros [|]; auto.
  - apply forg_order; [done | apply (ps_forg _ _ _ _ Hs)].
  - intros g Hg. apply com_app. auto.
  - intros g Hg. apply forg_app. auto.
  - intros q y [[-> ->] | [Hne Hq]]%Hlook; [apply (ps_ok _ _ _ _ Hs) |].
    apply (proc_ok_mono _ _ (nextGxid c)); [by eapply I5 | lia |].
    intros g Hg. left. intros ->. pose proof (Hcv _ Hg). destruct (ps_com _ _ _ _ Hs _ Hg) as (He & _).
    apply Hne. eapply I6; eauto. lia.
  - intros q1 q2 y1 y2 H1 H2 He H0. apply Hlook in H1 as [[-> ->] | [Hn1 H1]]; apply Hlook in H2 as [[-> ->] | [Hn2 H2]]; try done.
    + destruct (ps_gxid _ _ _ _ Hs) as [E | E]; [| congruence]. eapply I6; eauto; congruence.
    + destruct (ps_gxid _ _ _ _ Hs) as [E | E]; [| congruence]. eapply I6; eauto; congruence.
    + eapply I6; eauto.
  - intros g. rewrite com_app, forg_app. intros [Hg | Hg].
    + destruct (I7 g Hg) as [| [| (q & y & Hq & <- & Hy)]]; [auto | auto |].
      destruct (holder_kept _ _ _ _ _ _ _ Hs Hp Hq Hy) as [Hf | (z & ? & ? & ?)]; [rewrite <- forg_app; auto |].
      right. right. by exists q, z.
    + destruct (ps_com _ _ _ _ Hs g Hg) as (-> & _ & E & Hh). right. right. exists p, x'.
      by rewrite list_lookup_insert_eq.
  - destruct I8 as (cp & Hc & Hl & Hk). exists cp. split_and!; [by apply control_ok_append | | by eapply updated_ckpt_ok].
    destruct Hc. rewrite limit_append by (done || lia). apply Hl.
  - intros i m Hi. apply lookup_app_Some in Hi as [Hi | [_ Hi]]; [by eapply I11 |].
    apply list_elem_of_lookup_2 in Hi. by apply Hn in Hi.
Qed.

Lemma updated_nil c p x' : with_procs (<[p := x']> (allProcs c)) c = updated c p x' [].
Proof. destruct c. unfold updated, with_procs, with_wal. cbn. by rewrite app_nil_r. Qed.

Lemma com_nil g : ~ com [] g.
Proof. apply not_elem_of_nil. Qed.
Lemma forg_nil g : ~ forg [] g.
Proof. apply not_elem_of_nil. Qed.

(** A step of a backend that logs nothing. *)
Lemma quiet_inv c p x x' :
  log_inv c -> allProcs c !! p = Some x -> proc_ok (wal c) (nextGxid c) x' ->
  p_gxid x' = p_gxid x \/ p_gxid x' = 0 ->
  (includeInCkpt x = true -> (includeInCkpt x' = true /\ p_gxid x' = p_gxid x) \/ forg (wal c) (p_gxid x)) ->
  (p_state x = DTX_STATE_INSERTING_COMMITTED -> holder x' /\ p_gxid x' = p_gxid x) ->
  p_state x' <> DTX_STATE_INSERTING_COMMITTED ->
  log_inv (with_procs (<[p := x']> (allProcs c)) c).
Proof.
  intros HI Hp Hx Hg Hi Hn Hni. rewrite updated_nil. eapply updated_inv; [done | done |].
  constructor; rewrite ?app_nil_r; try done.
  - intros m Hm. by apply elem_of_nil in Hm.
  - intros g Hc. by apply com_nil in Hc.
  - intros g Hc. by apply forg_nil in Hc.
Qed.

Lemma flush_inv n c : log_inv c -> log_inv (XLogFlush n c).
Proof.
  intros [I1 I2 I3 I4 I5 I6 I7 I8 I9 I10 I11]. constructor; cbn; auto.
  - destruct I8 as (cp & [H1 H2 H3 H4 H5] & Hl & Hk). exists cp. split_and!; try done. constructor; try done. lia.
  - intros i m Hi. apply I11 in Hi. lia.
Qed.

Lemma with_latest_inv g c : log_inv c -> log_inv (with_latest g c).
Proof. intros [I1 I2 I3 I4 I5 I6 I7 I8 I9 I10 I11]. constructor; cbn; auto. Qed.

(** A record that no backend and no gxid depends on. *)
Lemma append_inv r c :
  log_inv c -> (forall m, r <> XLOG_NEXTGXID m) -> (forall g, r <> XLOG_XACT_DISTRIBUTED_COMMIT g) ->
  (forall g, r = XLOG_XACT_DISTRIBUTED_FORGET g -> com (wal c) g) -> log_inv (XLogInsert r c).
Proof.
  intros [I1 I2 I3 I4 I5 I6 I7 I8 I9 I10 I11] Hn Hc Hf.
  assert (Hv : forall m, XLOG_NEXTGXID m ∉ [r]) by (intros m ?%list_elem_of_singleton; by eapply Hn).
  assert (Hcv : forall g, ~ com [r] g) by (intros g ?%list_elem_of_singleton; by eapply Hc).
  constructor; cbn; auto.
  - intros g. rewrite com_app. intros [|H]; [auto |]. by apply Hcv in H.
  - apply forg_order; [done |]. intros g Hg. apply Hf. symmetry. by apply list_elem_of_singleton in Hg.
  - intros g Hg. apply com_app. auto.
  - intros g Hg. apply forg_app. auto.
  - intros p x Hp. apply (proc_ok_mono _ _ (nextGxid c)); [by eapply I5 | lia |]. intros g Hg. by apply Hcv in Hg.
  - intros g. rewrite com_app, forg_app. intros [H | H]; [| by apply Hcv in H]. apply I7 in H. tauto.
  - destruct I8 as (cp & Hco & Hl & Hk). exists cp. split_and!; [by apply control_ok_append | |].
    { destruct Hco. rewrite limit_append by (done || lia). apply Hl. }
    assert (Hbase : forall r0 n, ckpt_base c r0 n -> ckpt_base (XLogInsert r c) r0 n).
    { intros r0 n [Hr Hl']. split; cbn; [rewrite length_app; lia |]. rewrite limit_append by done. apply Hl'. }
    unfold ckpt_ok in *. change (ckpt (XLogInsert r c)) with (ckpt c).
    destruct (ckpt c) as [| r0 | r0 n | r0 n vx | r0 n i a]; [done | | by apply Hbase | |].
    + cbn. rewrite length_app. split; [lia | tauto].
    + destruct Hk as [Hb Hk]. split; [by apply Hbase |]. intros p x Hp Hx. cbn. destruct Hb.
      rewrite com_take_app by done. by apply Hk.
    + destruct Hk as (Hb & Hk & Ha). split_and!; [by apply Hbase | |]; destruct Hb; cbn.
      * intros g. rewrite com_take_app, forg_app by done. intros Hg. apply Hk in Hg. tauto.
      * intros g Hg. apply com_app. auto.
  - intros i m Hi. apply lookup_app_Some in Hi as [Hi | [_ Hi]]; [by eapply I11 |].
    apply list_elem_of_lookup_2 in Hi. by apply Hv in Hi.
Qed.

Lemma insert_commit_inv c p x :
  log_inv c -> allProcs c !! p = Some x -> p_state x = DTX_STATE_PREPARED -> delayChkpt x = true ->
  log_inv (XLogInsert (XLOG_XACT_DISTRIBUTED_COMMIT (gxid_of p c)) (insertingDistributedCommitted p c)).
Proof.
  intros HI Hp Hst Hd. pose proof (li_proc _ HI _ _ Hp) as Hx. unfold proc_ok in Hx. rewrite Hst in Hx.
  destruct Hx as (Hb & Hnc & Hi & _). unfold insertingDistributedCommitted, setCurrentDtxState, gxid_of. rewrite Hp.
  rewrite (alter_insert _ _ _ _ Hp).
  change (log_inv (updated c p (mkProc (p_gxid x) (includeInCkpt x) (delayChkpt x) DTX_STATE_INSERTING_COMMITTED)
            [XLOG_XACT_DISTRIBUTED_COMMIT (p_gxid x)])).
  eapply updated_inv; [done | done |]. constructor; cbn; rewrite ?Hst; try done.
  - split_and!; try lia; try done. apply com_app. right. by left.
  - by left.
  - intros m Hm. apply list_elem_of_singleton in Hm. done.
  - intros g Hg. apply list_elem_of_singleton in Hg. simplify_eq. split_and!; try done. by right.
  - intros g Hg. by apply list_elem_of_singleton in Hg.
  - congruence.
Qed.

Lemma insert_forget_inv c p x :
  log_inv c -> allProcs c !! p = Some x -> notifying (p_state x) = true ->
  log_inv (RecordDistributedForgetCommitted (gxid_of p c)
             (setCurrentDtxState p DTX_STATE_INSERTING_FORGET_COMMITTED c)).
Proof.
  intros HI Hp Hst. pose proof (li_proc _ HI _ _ Hp) as Hx. unfold proc_ok in Hx.
  assert (Hx' : 0 < p_gxid x < nextGxid c /\ com (wal c) (p_gxid x) /\ includeInCkpt x = true /\ delayChkpt x = false)
    by (destruct (p_state x); done). destruct Hx' as (Hb & Hc & Hi & Hd).
  unfold setCurrentDtxState, gxid_of. rewrite Hp, (alter_insert _ _ _ _ Hp).
  change (log_inv (updated c p (mkProc (p_gxid x) (includeInCkpt x) (delayChkpt x) DTX_STATE_INSERTING_FORGET_COMMITTED)
            [XLOG_XACT_DISTRIBUTED_FORGET (p_gxid x)])).
  eapply updated_inv; [done | done |]. constructor; cbn; try done.
  - rewrite com_app, forg_app. split_and!; try lia; try done; [by left | right; by left].
  - by left.
  - intros m Hm. apply list_elem_of_singleton in Hm. done.
  - intros g Hg. by apply list_elem_of_singleton in Hg.
  - intros g Hg. apply list_elem_of_singleton in Hg. by simplify_eq.
  - by left.
  - intros H. by rewrite H in Hst.
Qed.

Lemma end_inv c p x :
  log_inv c -> allProcs c !! p = Some x ->
  (before_commit (p_state x) && negb (delayChkpt x))
    || bool_decide (p_state x = DTX_STATE_INSERTED_FORGET_COMMITTED) = true ->
  log_inv (ProcArrayEndGxact p c).
Proof.
  intros HI Hp Hst. pose proof (li_proc _ HI _ _ Hp) as Hx. unfold ProcArrayEndGxact.
  rewrite (alter_insert _ _ _ _ Hp).
  assert (log_inv (with_procs (<[p:=idle_proc]> (allProcs c)) c)) as H.
  { eapply quiet_inv; try done; [by right | |]; intros Hi; exfalso.
    - unfold proc_ok in Hx. destruct (p_state x); try done; destruct_and! Hx; congruence.
    - by rewrite Hi in Hst. }
  case_match; [by apply with_latest_inv | done].
Qed.

(** The guard of an action of a backend. *)
Ltac proc_case HI :=
  lazymatch goal with
  | H : on_proc ?p ?f ?c ?c' = Some _ |- _ =>
      let x := fresh "x" in let Hp := fresh "Hp" in let Hx := fresh "Hx" in let E := fresh "E" in
      let Hph := fresh "Hph" in
      unfold on_proc in H; destruct (allProcs c !! p) as [x |] eqn:Hp; [| discriminate H];
      case_match eqn:E; [| discriminate H]; simplify_eq;
      apply andb_true_iff in E as [Hph E]; apply bool_decide_eq_true in Hph;
      pose proof (li_proc _ HI _ _ Hp) as Hx
  end.

Lemma take_gxid_inv c p x :
  log_inv c -> allProcs c !! p = Some x -> p_state x = DTX_STATE_NONE -> 0 < GxidCount c ->
  0 < gp_gxid_prefetch_num < 2 ^ 31 -> phase c = Running -> log_inv (take_gxid p c).
Proof.
  intros HI Hp Hst Hk Hpre Hph. pose proof HI as [I1 I2 I3 I4 I5 I6 I7 I8 I9 I10 I11].
  pose proof (I5 _ _ Hp) as Hx. unfold proc_ok in Hx. rewrite Hst in Hx. subst x.
  unfold LastDistributedTransactionId, reserved in I9.
  assert (HN : u64 (nextGxid c + 1) = nextGxid c + 1) by (apply u64_small; revert I9; destruct (bumping c); lia).
  assert (HC : u32 (GxidCount c - 1) = GxidCount c - 1) by (apply u32_small; revert I10; destruct (bumping c); lia).
  assert (Hpr : promised (take_gxid p c) = promised c).
  { rewrite !promised_live by (cbn; congruence). unfold reserved. cbn. rewrite HN, HC. lia. }
  unfold take_gxid in *. rewrite (alter_insert _ _ _ _ Hp) in *. cbn in *.
  set (x' := mkProc (nextGxid c) false false DTX_STATE_ACTIVE_DISTRIBUTED) in *.
  assert (Hlen : (p < length (allProcs c))%nat) by (by eapply lookup_lt_Some).
  assert (Hlook : forall q y, <[p := x']> (allProcs c) !! q = Some y -> (q = p /\ y = x') \/ (q <> p /\ allProcs c !! q = Some y)).
  { intros q y Hq. destruct (decide (p = q)) as [<- |]; [rewrite list_lookup_insert_eq in Hq by done | rewrite list_lookup_insert_ne in Hq by done]; [left | right]; naive_solver. }
  assert (Hne : forall q y, allProcs c !! q = Some y -> p_gxid y < nextGxid c).
  { intros q y Hq. apply I5 in Hq. unfold proc_ok in Hq. destruct (p_state y); destruct_and? Hq; subst; unfold idle_proc, InvalidDistributedTransactionId; cbn; lia. }
  assert (Hother : forall q y, allProcs c !! q = Some y -> holder y -> <[p := x']> (allProcs c) !! q = Some y).
  { intros q y Hq Hy. rewrite list_lookup_insert_ne; [done |]. intros <-. simplify_eq. by destruct Hy. }
  rewrite HN, HC in *. constructor; cbn; auto.
  - intros g Hg. apply I1 in Hg. lia.
  - intros q y [[-> ->] | [Hq1 Hq]]%Hlook.
    + cbn. split_and!; try done; try lia. intros Hg%I1. lia.
    + apply I5 in Hq. rewrite <- (app_nil_r (wal c)). apply (proc_ok_mono _ _ (nextGxid c)); [done | lia |].
      intros g Hg. by apply com_nil in Hg.
  - intros q1 q2 y1 y2 H1 H2 He H0. apply Hlook in H1 as [[-> ->] | [Hn1 H1]]; apply Hlook in H2 as [[-> ->] | [Hn2 H2]]; try done.
    + apply Hne in H2. cbn in He. lia.
    + apply Hne in H1. cbn in He. lia.
    + eapply I6; eauto.
  - intros g Hg. destruct (I7 g Hg) as [| [| (q & y & Hq & <- & Hy)]]; [auto | auto |]. right. right. exists q, y. auto.
  - destruct I8 as (cp & Hco & Hl & Hk'). exists cp. split_and!; [done | by rewrite Hpr |].
    unfold ckpt_ok, ckpt_base in *. cbn in *. rewrite Hpr.
    destruct (ckpt c) as [| r0 | r0 n | r0 n vx | r0 n i a]; try done.
    + destruct Hk' as [Hb Hv]. split; [done |]. intros q y [[-> ->] | [Hq1 Hq]]%Hlook Hy; [done | eauto].
    + destruct Hk' as (Hb & Hv & Ha). split_and!; [by destruct Hb | by destruct Hb | | done].
      intros g Hg. destruct (Hv g Hg) as [| [| (q & y & Hi & Hq & <- & Hy)]]; [auto | auto |].
      right. right. exists q, y. split_and!; try done. apply Hother; [done | by left].
  - unfold LastDistributedTransactionId, reserved. cbn. revert I9. destruct (bumping c); lia.
  - revert I10. destruct (bumping c); lia.
Qed.

Lemma proc_ok_before w n x :
  before_commit (p_state x) = true ->
  proc_ok w n x <-> 0 < p_gxid x < n /\ ~ com w (p_gxid x) /\ includeInCkpt x = false /\
                    (delayChkpt x = true -> p_state x = DTX_STATE_PREPARED).
Proof. unfold proc_ok. by destruct (p_state x). Qed.

Lemma proc_ok_notifying w n x :
  notifying (p_state x) = true ->
  proc_ok w n x <-> 0 < p_gxid x < n /\ com w (p_gxid x) /\ includeInCkpt x = true /\ delayChkpt x = false.
Proof. unfold proc_ok. by destruct (p_state x). Qed.

Lemma proc_action_inv a c c' :
  0 < gp_gxid_prefetch_num < 2 ^ 31 -> log_inv c -> proc_action a c = Some c' -> log_inv c'.
Proof.
  intros Hpre HI H. destruct a; cbn in H; try discriminate H; proc_case HI.
  - bool_props. by eapply take_gxid_inv.
  - unfold setCurrentDtxState. rewrite (alter_insert _ _ _ _ Hp). bool_props.
    apply proc_ok_before in Hx as (? & ? & Hi & _); [| done].
    eapply quiet_inv; try done; cbn; [| by left | intros; congruence | |].
    + apply proc_ok_before; cbn; [done |]. split_and!; try done; [lia | lia |]. intros. congruence.
    + intros Es. by rewrite Es in *.
    + intros ->. done.
  - unfold set_delayChkpt. rewrite (alter_insert _ _ _ _ Hp).
    bool_props. rename H into Est. unfold proc_ok in Hx. rewrite Est in Hx. destruct_and! Hx. eapply quiet_inv; try done; unfold proc_ok, holder; cbn; rewrite ?Est;
      try (by left); try (split_and!; done || lia); intros; try congruence; auto.
  - bool_props. by eapply insert_commit_inv.
  - bool_props. unfold insertedDistributedCommitted, set_includeInCkpt, setCurrentDtxState.
    rewrite (alter_insert _ _ _ _ Hp). cbn.
    erewrite alter_insert by (apply list_lookup_insert_eq; by eapply lookup_lt_Some). rewrite list_insert_insert_eq.
    change (log_inv (with_procs (<[p:=mkProc (p_gxid x) true (delayChkpt x) DTX_STATE_INSERTED_COMMITTED]> (allProcs c)) c)).
    unfold proc_ok in Hx. rewrite E in Hx. destruct_and! Hx. eapply quiet_inv; try done; unfold proc_ok, holder; cbn;
      try (by left); try (split_and!; done || lia); intros; try congruence; auto.
  - bool_props. rename H into Est. unfold set_delayChkpt. cbn. rewrite (alter_insert _ _ _ _ Hp).
    change (log_inv (XLogFlush (record_end (XLOG_XACT_DISTRIBUTED_COMMIT (gxid_of p c)) (wal c))
       (with_procs (<[p:=mkProc (p_gxid x) (includeInCkpt x) false (p_state x)]> (allProcs c)) c))).
    apply flush_inv. unfold proc_ok in Hx. rewrite Est in Hx. destruct_and! Hx. eapply quiet_inv; try done; unfold proc_ok, holder; cbn; rewrite ?Est;
      try (by left); try (split_and!; done || lia); intros; try congruence; auto.
  - unfold setCurrentDtxState. rewrite (alter_insert _ _ _ _ Hp). bool_props.
    assert (0 < p_gxid x < nextGxid c /\ com (wal c) (p_gxid x) /\ includeInCkpt x = true) as (? & ? & Hi).
    { unfold proc_ok in Hx. destruct (p_state x); try done; destruct_and! Hx; done. }
    eapply quiet_inv; try done; cbn; [| by left | by left | |].
    + by apply proc_ok_notifying.
    + intros Es. by rewrite Es in *.
    + intros ->. done.
  - eapply insert_forget_inv; done.
  - bool_props. unfold set_includeInCkpt, setCurrentDtxState. rewrite (alter_insert _ _ _ _ Hp). cbn.
    erewrite alter_insert by (apply list_lookup_insert_eq; by eapply lookup_lt_Some). rewrite list_insert_insert_eq.
    change (log_inv (with_procs (<[p:=mkProc (p_gxid x) false (delayChkpt x) DTX_STATE_INSERTED_FORGET_COMMITTED]> (allProcs c)) c)).
    unfold proc_ok in Hx. rewrite E in Hx. destruct_and! Hx. eapply quiet_inv; try done; unfold proc_ok, holder; cbn;
      try (by left); try (split_and!; done || lia); intros; try congruence; auto.
  - eapply end_inv; done.
Qed.

Lemma with_gxids_bump_inv c c' :
  0 < gp_gxid_prefetch_num < 2 ^ 31 -> log_inv c -> phase c = Running -> bumping c = false ->
  GxidCount c <= GXID_PRETCH_THRESHOLD gp_gxid_prefetch_num ->
  bumpGxid_log gp_gxid_prefetch_num c = Some c' -> log_inv c'.
Proof.
  intros Hpre HI Hph Hb Hk H. pose proof HI as [I1 I2 I3 I4 I5 I6 I7 I8 I9 I10 I11].
  unfold bumpGxid_log in H. destruct (u64 _ <=? _) eqn:Eg; [done |]. simplify_eq. apply Z.leb_gt in Eg.
  unfold GXID_PRETCH_THRESHOLD in Hk. rewrite Z.shiftr_div_pow2 in Hk by lia.
  unfold LastDistributedTransactionId, reserved in I9. rewrite Hb in I9, I10.
  assert (HL : nextLimit gp_gxid_prefetch_num c = reserved c + gp_gxid_prefetch_num).
  { unfold nextLimit, reserved. rewrite Hb, u32_small, u64_small by zlia. lia. }
  rewrite u64_small in Eg by (unfold LastDistributedTransactionId; zlia).
  rewrite HL in *. unfold reserved in Eg. rewrite Hb in Eg.
  set (m := reserved c + gp_gxid_prefetch_num) in *.
  assert (Hv : forall g, ~ com [XLOG_NEXTGXID m] g) by (intros g Hg; by apply list_elem_of_singleton in Hg).
  assert (Hv' : forall g, ~ forg [XLOG_NEXTGXID m] g) by (intros g Hg; by apply list_elem_of_singleton in Hg).
  assert (Hlim : forall n r, (r <= length (wal c))%nat -> gxid_limit n (drop r (wal c ++ [XLOG_NEXTGXID m])) = m).
  { intros n r Hr. rewrite drop_app_le by done. by rewrite gxid_limit_app. }
  assert (Hpr : promised (with_gxids (nextGxid c) (GxidCount c) true (XLogPutNextGxid m c)) = m).
  { rewrite promised_live by (cbn; congruence). unfold m, reserved. cbn. rewrite Hb. lia. }
  constructor; cbn; auto.
  - intros g. rewrite com_app. intros [|Hg]; [auto |]. by apply Hv in Hg.
  - apply forg_order; [done |]. intros g Hg. by apply Hv' in Hg.
  - intros g Hg. apply com_app. auto.
  - intros g Hg. apply forg_app. auto.
  - intros p x Hp. apply (proc_ok_mono _ _ (nextGxid c)); [by eapply I5 | lia |]. intros g Hg. by apply Hv in Hg.
  - intros g. rewrite com_app, forg_app. intros [Hg | Hg]; [| by apply Hv in Hg]. apply I7 in Hg. tauto.
  - destruct I8 as (cp & Hco & Hl & Hc). exists cp. split_and!.
    + apply (control_ok_append _ [XLOG_NEXTGXID m]) in Hco as [H1 H2 H3 H4 H5]. constructor; try done.
      rewrite length_app in *. cbn in *. lia.
    + rewrite Hpr. apply Hlim. destruct Hco. lia.
    + unfold ckpt_ok, ckpt_base in *. rewrite Hpr. cbn in *. rewrite length_app.
      destruct (ckpt c) as [| r | r n | r n vx | r n i a]; try done.
      * split; [lia | done].
      * split; [lia |]. apply Hlim. tauto.
      * destruct Hc as ((Hr & _) & Hc). split_and!; [lia | by apply Hlim |].
        intros p x Hp Hx. rewrite com_take_app by done. by apply Hc.
      * destruct Hc as ((Hr & _) & Hc & Ha). split_and!; [lia | by apply Hlim | |].
        -- intros g. rewrite com_take_app, forg_app by done. intros Hg%Hc. tauto.
        -- intros g Hg. apply com_app. auto.
  - unfold reserved, LastDistributedTransactionId in *. cbn. lia.
  - zlia.
  - intros i n Hi. apply lookup_lt_Some in Hi. rewrite length_app in *. cbn in *. lia.
Qed.

Lemma bump_count_inv c :
  0 < gp_gxid_prefetch_num < 2 ^ 31 -> log_inv c -> bumping c = true -> phase c = Running ->
  log_inv (bumpGxid_count gp_gxid_prefetch_num c).
Proof.
  intros Hpre [I1 I2 I3 I4 I5 I6 I7 I8 I9 I10 I11] Hb Hph. rewrite Hb in I10.
  assert (HC : u32 (GxidCount c + gp_gxid_prefetch_num) = GxidCount c + gp_gxid_prefetch_num) by (apply u32_small; lia).
  assert (Hr : reserved (bumpGxid_count gp_gxid_prefetch_num c) = reserved c).
  { unfold reserved. cbn. rewrite HC, Hb. lia. }
  assert (Hpr : promised (bumpGxid_count gp_gxid_prefetch_num c) = promised c).
  { by rewrite !promised_live by (cbn; congruence). }
  constructor; auto.
  - unfold ckpt_ok, ckpt_base in *. rewrite Hpr. exact I8.
  - rewrite Hr. cbn. rewrite HC. lia.
  - cbn. rewrite HC. lia.
Qed.

(** The record of a checkpoint that covers what it must. *)
Lemma write_checkpoint_inv cp f c :
  log_inv c -> phase c <> Stopped -> (cp_redo cp <= length (wal c))%nat ->
  (forall g, com (take (cp_redo cp) (wal c)) g -> g ∈ committedGxidArray cp \/ forg (wal c) g) ->
  (forall g, g ∈ committedGxidArray cp -> com (wal c) g) ->
  gxid_limit (cp_nextGxid cp) (drop (cp_redo cp) (wal c)) = promised (with_phase f c) ->
  log_inv (with_phase f (with_ckpt CkptIdle (write_checkpoint cp c))).
Proof.
  intros HI Hph Hr Hcov Hcom Hlim.
  apply (append_inv (XLOG_CHECKPOINT cp)) in HI as [I1 I2 I3 I4 I5 I6 I7 I8 I9 I10 I11]; try done.
  constructor; cbn; auto.
  - exists cp. split_and!.
    + constructor; cbn; rewrite ?length_app; cbn; try lia.
      * by rewrite lookup_app_r, Nat.sub_diag.
      * destruct I8 as (? & [] & _). cbn in *. rewrite length_app in *. cbn in *. lia.
      * intros g. rewrite take_app_le by done. rewrite take_app_length. auto.
      * intros g Hg. rewrite take_app_length. auto.
    + rewrite limit_append; [exact Hlim | done |]. intros m Hm. by apply list_elem_of_singleton in Hm.
    + done.
  - intros i m Hi. apply lookup_lt_Some in Hi. rewrite length_app in *. cbn in *. lia.
Qed.

Lemma with_ckpt_inv k c :
  log_inv c ->
  (forall cp, control_ok (wal c) (flushed c) (checkPoint c) cp ->
     gxid_limit (cp_nextGxid cp) (drop (cp_redo cp) (wal c)) = promised c ->
     ckpt_ok c (cp_redo cp) -> ckpt_ok (with_ckpt k c) (cp_redo cp)) ->
  log_inv (with_ckpt k c).
Proof.
  intros [I1 I2 I3 I4 I5 I6 I7 I8 I9 I10 I11] Hk. constructor; auto.
  destruct I8 as (cp & H1 & H2 & H3). exists cp. auto.
Qed.

Lemma delaying_found c p x :
  allProcs c !! p = Some x -> delayChkpt x = true -> (p, p_gxid x) ∈ GetVirtualXIDsDelayingChkpt c.
Proof.
  intros Hp Hd. unfold GetVirtualXIDsDelayingChkpt. apply list_elem_of_omap. exists (p, x). rewrite Hd. split; [| done].
  apply list_elem_of_lookup. exists p. by rewrite list_lookup_imap, Hp.
Qed.

Lemma waited_for c p x v :
  HaveVirtualXIDsDelayingChkpt v c = false -> allProcs c !! p = Some x -> delayChkpt x = true -> (p, p_gxid x) ∉ v.
Proof.
  intros H Hp Hd Hv. assert (HaveVirtualXIDsDelayingChkpt v c = true); [| congruence].
  apply existsb_exists. exists (p, p_gxid x). split; [| by apply bool_decide_eq_true].
  apply list_elem_of_In. by apply delaying_found.
Qed.

Lemma read_array_ok c r n v k :
  log_inv c -> ckpt c = CkptWait r n v -> ckpt_ok c k -> HaveVirtualXIDsDelayingChkpt v c = false ->
  ckpt_ok (with_ckpt (CkptScan r n 0 (shmCommittedGxidArray c)) c) k.
Proof.
  intros HI E Hk Hv. unfold ckpt_ok in Hk. rewrite E in Hk. destruct Hk as [Hb Hk].
  split_and!; [exact Hb | | apply (li_arr _ HI)]. intros g Hg. cbn in *.
  destruct (li_live _ HI g (com_take _ _ _ Hg)) as [|[| (p & x & Hp & <- & [Hx | Hx])]]; [auto | auto | |].
  - right. right. exists p, x. split_and!; try done. lia.
  - exfalso. eapply waited_for; [done | done | | by apply Hk].
    pose proof (li_proc _ HI _ _ Hp) as Hok. unfold proc_ok in Hok. rewrite Hx in Hok. by destruct_and! Hok.
Qed.

Lemma read_proc_ok c r n i a x k :
  log_inv c -> ckpt c = CkptScan r n i a -> ckpt_ok c k -> allProcs c !! i = Some x ->
  ckpt_ok (with_ckpt (CkptScan r n (S i) (scan_proc x a)) c) k.
Proof.
  intros HI E Hk Hi. unfold ckpt_ok in Hk. rewrite E in Hk. destruct Hk as (Hb & Hk & Ha).
  pose proof (li_proc _ HI _ _ Hi) as Hx.
  split_and!; [exact Hb | |]; cbn; unfold scan_proc.
  - intros g Hg. destruct (Hk g Hg) as [| [| (p & y & Hp & Hy & <- & Hinc)]].
    + left. destruct (includeInCkpt x); [apply elem_of_app; auto | done].
    + auto.
    + destruct (decide (p = i)) as [-> |]; [| right; right; exists p, y; split_and!; try done; lia].
      simplify_eq. left. rewrite Hinc. apply elem_of_app. right. by apply list_elem_of_singleton.
  - intros g. destruct (includeInCkpt x) eqn:Einc; [| auto]. rewrite elem_of_app, list_elem_of_singleton.
    intros [| ->]; [auto |]. unfold proc_ok in Hx. destruct (p_state x); destruct_and? Hx; try congruence; try done.
    by subst x.
Qed.

Lemma read_gxid_ok c r k cp0 :
  log_inv c -> ckpt c = CkptRedo r -> ckpt_ok c k -> bumping c = false -> (0 <= gp_gxid_prefetch_num) ->
  gxid_limit cp0 (drop k (wal c)) = promised c ->
  ckpt_ok (with_ckpt (CkptGxid r (u64 (nextGxid c + GxidCount c))) c) k.
Proof.
  intros HI E Hk Hb Hpre Hl. unfold ckpt_ok in Hk. rewrite E in Hk. destruct Hk as (Hr & Hph).
  rewrite promised_live in Hl by congruence. pose proof (li_next _ HI) as Hn.
  assert (HS : u64 (nextGxid c + GxidCount c) = reserved c).
  { unfold reserved, LastDistributedTransactionId in *. rewrite Hb in *. rewrite u64_small; lia. }
  cbn. split; [apply Hr |]. cbn. rewrite HS, promised_live by (cbn; congruence). unfold reserved at 2. cbn. fold (reserved c).
  rewrite <- (take_drop (r - k) (drop k (wal c))), drop_drop, gxid_limit_app in Hl.
  replace (k + (r - k))%nat with r in Hl by lia.
  destruct (gxid_limit_cases (reserved c) (gxid_limit cp0 (take (r - k) (drop k (wal c)))) (drop r (wal c))) as [He | [He _]]; congruence.
Qed.

Lemma ckpt_action_inv a c c' :
  0 < gp_gxid_prefetch_num < 2 ^ 31 -> phase c = Running ->
  log_inv c -> ckpt_action a c = Some c' -> log_inv c'.
Proof.
  intros Hpre Hph HI H. unfold ckpt_action in H.
  destruct a, (ckpt c) as [| r | r m | r m v | r m i l] eqn:E; try discriminate H.
  - simplify_eq. apply with_ckpt_inv; [done |]. intros cp [] Hl Hk. cbn. split; [lia | done].
  - destruct (bumping c) eqn:Eb; [done |]. simplify_eq. apply with_ckpt_inv; [done |].
    intros cp Hc Hl Hk. eapply read_gxid_ok; eauto; lia.
  - simplify_eq. apply with_ckpt_inv; [done |]. intros cp _ _ Hk. unfold ckpt_ok in Hk. rewrite E in Hk.
    split; [done |]. intros p x Hp Hx _. apply delaying_found; [done |].
    apply (li_proc _ HI) in Hp. unfold proc_ok in Hp. rewrite Hx in Hp. by destruct_and! Hp.
  - destruct (HaveVirtualXIDsDelayingChkpt v c) eqn:Ev; [done |]. simplify_eq. apply with_ckpt_inv; [done |].
    intros cp _ _ Hk. by eapply read_array_ok.
  - destruct (allProcs c !! i) as [x |] eqn:Ei; [| done]. cbn in H. simplify_eq. apply with_ckpt_inv; [done |].
    intros cp _ _ Hk. by eapply read_proc_ok.
  - destruct (Nat.eqb_spec i (length (allProcs c))) as [-> |]; [| done]. simplify_eq.
    pose proof (li_control _ HI) as (cp & _ & _ & Hk). unfold ckpt_ok in Hk. rewrite E in Hk.
    destruct Hk as ((Hr & Hl) & Hk & Ha).
    assert (log_inv (with_phase (phase c) (with_ckpt CkptIdle (write_checkpoint (mkCheckPoint r m l) c)))) as HX.
    { apply write_checkpoint_inv; cbn; try done; [congruence |]. intros g Hg.
      destruct (Hk g Hg) as [| [| (p & x & Hp & Hp' & _)]]; [auto | auto |].
      apply lookup_lt_Some in Hp'. lia. }
    exact HX.
Qed.

(** What is not flushed has no record of a limit. *)
Lemma limit_cut c cut n r :
  log_inv c -> (flushed c <= cut <= length (wal c))%nat -> (r <= flushed c)%nat ->
  gxid_limit n (drop r (take cut (wal c))) = gxid_limit n (drop r (wal c)).
Proof.
  intros HI Hcut Hr. rewrite <- (take_drop cut (wal c)) at 2. rewrite drop_app_le by (rewrite length_take; lia).
  rewrite gxid_limit_app. symmetry. apply gxid_limit_none. intros m Hm. apply list_elem_of_lookup in Hm as [i Hm].
  rewrite lookup_drop in Hm. apply (li_nextgxid _ HI) in Hm. lia.
Qed.

(** Redo finds what is committed and not forgotten, and the gxids that are reserved. *)
Lemma redo_log_spec max cut c n a :
  log_inv c -> (flushed c <= cut <= length (wal c))%nat -> redo_log max cut c = Ok (n, a) ->
  n = promised c /\ NoDup a /\ (forall g, g ∈ a -> com (take cut (wal c)) g) /\
  (forall g, com (take cut (wal c)) g -> forg (take cut (wal c)) g \/ g ∈ a).
Proof.
  intros HI Hcut H. destruct (li_control _ HI) as (cp & [H1 H2 H3 H4 H5] & Hl & _).
  unfold redo_log in H. rewrite lookup_take_lt, H1 in H by lia. outcome_inv.
  destruct (redo_checkpoint_spec _ _ _ _ (NoDup_nil_2) E) as [Hd Hi].
  destruct (redo_records_spec _ _ (_, _) _ Hd H) as (R1 & R2 & R3 & R4). cbn in *.
  assert (Hsub : forall g, com (take (checkPoint c) (wal c)) g -> com (take cut (wal c)) g).
  { intros g. replace (checkPoint c) with (checkPoint c `min` cut)%nat by lia. rewrite <- take_take. apply com_take. }
  assert (Hsubf : forall g, forg (take (checkPoint c) (wal c)) g -> forg (take cut (wal c)) g).
  { intros g. replace (checkPoint c) with (checkPoint c `min` cut)%nat by lia. rewrite <- take_take. apply forg_take. }
  split_and!; [| done | |].
  - rewrite R1, <- Hl. apply limit_cut; [done | lia | lia].
  - intros g Hg. destruct (R3 g Hg) as [Ha%Hi | Hc].
    + destruct Ha as [Ha | Ha]; [by apply elem_of_nil in Ha | auto].
    + unfold com in *. rewrite <- (take_drop (cp_redo cp) (take cut (wal c))), elem_of_app. auto.
  - intros g Hg. destruct (com_cases _ (cp_redo cp) _ _ Hg) as [Hc | Hc].
    + destruct (H4 g Hc) as [Ha | Hf]; [| auto].
      destruct (R4 g) as [Hf | Hf]; [left; apply Hi; auto | | auto].
      left. unfold forg in *. rewrite <- (take_drop (cp_redo cp) (take cut (wal c))), elem_of_app. auto.
    + destruct (R4 g) as [Hf | Hf]; [auto | | auto].
      left. unfold forg in *. rewrite <- (take_drop (cp_redo cp) (take cut (wal c))), elem_of_app. auto.
Qed.

(** What start-up and shutdown rely on. *)
Definition phase_inv (c : Shared) : Prop :=
  phase c <> Running ->
  (forall p x, allProcs c !! p = Some x -> x = idle_proc) /\ ckpt c = CkptIdle /\ bumping c = false /\
  (phase c = Recovered -> GxidCount c = 0).

Lemma promised_bounds c :
  0 <= gp_gxid_prefetch_num -> log_inv c -> nextGxid c <= promised c <= reserved c.
Proof.
  intros Hpre HI. pose proof (li_next _ HI) as Hn. unfold promised, reserved in *.
  destruct (decide _), (bumping c); lia.
Qed.

Lemma restart_inv max cut c c' :
  0 <= gp_gxid_prefetch_num -> log_inv c -> (flushed c <= cut <= length (wal c))%nat ->
  StartupXLOG max cut c = Ok c' -> log_inv c' /\ phase_inv c'.
Proof.
  intros Hpre HI Hcut H. unfold StartupXLOG in H. destruct (redo_log max cut c) as [[n a] | |] eqn:E; try done.
  cbn in H. simplify_eq. destruct (redo_log_spec _ _ _ _ _ HI Hcut E) as (-> & Hd & Hin & Hcov).
  pose proof (promised_bounds _ Hpre HI) as Hb. pose proof HI as [I1 I2 I3 I4 I5 I6 I7 I8 I9 I10 I11].
  assert (Hidle : forall p x, replicate (length (allProcs c)) idle_proc !! p = Some x -> x = idle_proc).
  { intros p x [-> _]%lookup_replicate. done. }
  split; [| intros _; cbn; auto].
  constructor; cbn; auto.
  - intros g Hg%com_take%I1. lia.
  - intros k g. rewrite take_take. auto.
  - intros g Hg. by apply elem_of_nil in Hg.
  - intros p x Hp. apply Hidle in Hp as ->. done.
  - intros p q x y Hp _ _ Hne. by apply Hidle in Hp as ->.
  - intros g Hg. destruct (Hcov g Hg); auto.
  - destruct I8 as (cp & [H1 H2 H3 H4 H5] & Hl & _). exists cp. split_and!; [| | done].
    + constructor; rewrite ?length_take; try lia.
      * rewrite lookup_take_lt by lia. done.
      * intros g. rewrite !take_take, !Nat.min_l by lia. auto.
      * intros g. rewrite !take_take, !Nat.min_l by lia. auto.
    + rewrite promised_live by done. unfold reserved at 1. cbn. rewrite !Z.add_0_r, <- Hl. apply limit_cut; [done | lia | lia].
  - unfold reserved at 1. cbn. lia.
  - lia.
  - intros i m Hi. apply lookup_lt_Some in Hi. rewrite length_take in Hi. lia.
Qed.

Lemma with_array_inv a i c :
  log_inv c -> (forall g, g ∈ a -> com (wal c) g) -> (forall g, g ∈ take i a -> forg (wal c) g) ->
  (forall g, g ∈ shmCommittedGxidArray c -> forg (wal c) g \/ g ∈ a) -> log_inv (with_array a i c).
Proof.
  intros [I1 I2 I3 I4 I5 I6 I7 I8 I9 I10 I11] H1 H2 H3. constructor; auto.
  cbn. intros g Hg. destruct (I7 g Hg) as [| [Ha |]]; auto. destruct (H3 g Ha); auto.
Qed.

Lemma idle_info c :
  (forall p x, allProcs c !! p = Some x -> includeInCkpt x = false) -> getDtxCheckPointInfo c = shmCommittedGxidArray c.
Proof.
  unfold getDtxCheckPointInfo. generalize (shmCommittedGxidArray c). induction (allProcs c) as [| x l IH]; intros a H; [done |].
  cbn. unfold scan_proc at 2. rewrite (H 0%nat x) by done. apply IH. intros p. apply (H (S p)).
Qed.

(** A checkpoint when no backend has a transaction. *)
Lemma shutdown_inv f c :
  log_inv c -> phase c <> Stopped -> ckpt c = CkptIdle ->
  (forall p x, allProcs c !! p = Some x -> x = idle_proc) ->
  promised (with_phase f c) = nextGxid c -> log_inv (with_phase f (CreateCheckPoint_shutdown c)).
Proof.
  intros HI Hph Hck Hidle Hpr. unfold CreateCheckPoint_shutdown. rewrite idle_info by (intros p x Hp; by apply Hidle in Hp as ->).
  assert (Hc : forall cp, write_checkpoint cp c = with_ckpt CkptIdle (write_checkpoint cp c)).
  { intros cp. destruct c. cbn in *. by subst. }
  rewrite Hc. apply write_checkpoint_inv; cbn; try done; [| apply (li_arr _ HI) |].
  - intros g Hg. rewrite take_ge in Hg by done. destruct (li_live _ HI g Hg) as [| [| (p & x & Hp & <- & Hx)]]; [auto | auto |].
    apply Hidle in Hp as ->. by destruct Hx.
  - by rewrite drop_ge.
Qed.

Lemma system_action_inv a c c' :
  0 < gp_gxid_prefetch_num < 2 ^ 31 -> phase c = Running -> log_inv c ->
  system_action gp_gxid_prefetch_num a c = Some c' -> log_inv c' /\ (a <> Shutdown -> phase c' = Running) /\ (a = Shutdown -> phase_inv c').
Proof.
  intros Hpre Hph HI H. destruct a; try discriminate H; cbn in H.
  - destruct (bumping c) eqn:Eb; [done |]. cbn in H. destruct (Z.ltb_spec (GXID_PRETCH_THRESHOLD gp_gxid_prefetch_num) (GxidCount c)); [done |].
    split; [by eapply with_gxids_bump_inv |]. split; [| done]. unfold bumpGxid_log in H. case_match; [done |]. by simplify_eq.
  - destruct (bumping c) eqn:Eb; [| done]. simplify_eq. split; [by apply bump_count_inv | done].
  - simplify_eq. split; [by apply append_inv | done].
  - simplify_eq. split; [by apply flush_inv | done].
  - simplify_eq. split; [| done]. apply with_array_inv; [done | apply (li_arr _ HI) | | auto]. intros g Hg. by apply elem_of_nil in Hg.
  - destruct (shmCommittedGxidArray c !! recovered c) as [g |] eqn:E; [| done]. cbn in H. simplify_eq. split; [| done].
    pose proof (li_arr _ HI g (list_elem_of_lookup_2 _ _ _ E)) as Hg. apply with_array_inv; cbn; auto.
    + apply append_inv; try done. intros g' [= <-]. done.
    + intros g' Hg'. apply com_app. left. by apply (li_arr _ HI).
    + intros g'. rewrite (take_S_r _ _ _ E), elem_of_app, list_elem_of_singleton, forg_app.
      intros [Hg' | ->]; [left; by apply (li_rec _ HI) | right; by left].
  - destruct (Nat.eqb_spec (recovered c) (length (shmCommittedGxidArray c))) as [E |]; [| done]. simplify_eq. split; [| done].
    apply with_array_inv; [done | | |]; try (intros g Hg; by apply elem_of_nil in Hg).
    intros g Hg. left. apply (li_rec _ HI). by rewrite take_ge by lia.
  - destruct (ckpt c) eqn:Ek; try done. case_match eqn:E; [| done]. simplify_eq.
    apply andb_true_iff in E as [E1 E2]. apply negb_true_iff in E2.
    assert (Hidle : forall p x, allProcs c !! p = Some x -> x = idle_proc).
    { intros p x Hp. rewrite forallb_forall in E1. pose proof (E1 x) as Hs. rewrite bool_decide_eq_true in Hs.
      apply (li_proc _ HI) in Hp as Hok. unfold proc_ok in Hok. rewrite Hs in Hok; [done |]. apply list_elem_of_In. by eapply list_elem_of_lookup_2. }
    split_and!; [| done |].
    + apply shutdown_inv; try done; congruence.
    + intros _ _. cbn. split_and!; done.
Qed.

Lemma on_proc_Some p f c c1 c' : on_proc p f c c1 = Some c' -> phase c = Running /\ c' = c1.
Proof.
  unfold on_proc. intros H. destruct (allProcs c !! p); [| done].
  case_bool_decide; [| done]. cbn in H. destruct (f p0); by simplify_eq.
Qed.

Lemma log_step_inv max a c c' :
  0 < gp_gxid_prefetch_num < 2 ^ 31 -> log_inv c -> phase_inv c ->
  log_step max gp_gxid_prefetch_num a c = Some c' -> log_inv c' /\ phase_inv c'.
Proof.
  intros Hpre HI HP H.
  assert (Hrun : forall c', phase c' = Running -> phase_inv c') by (intros c1 E E'; done).
  assert (Hproc : proc_action a c = Some c' -> log_inv c' /\ phase_inv c').
  { intros Hp. split; [by eapply proc_action_inv |]. apply Hrun.
    destruct a; cbn in Hp; try discriminate Hp; apply on_proc_Some in Hp as [Hph ->]; try done.
    unfold ProcArrayEndGxact. by case_match. }
  unfold log_step in H. destruct a; cbv beta iota in H; try (by apply Hproc);
    try (case_bool_decide as Hph; [| done];
         destruct (system_action_inv _ _ _ Hpre Hph HI H) as (? & H1 & H2); split; [done |]; first [by apply H2 | by apply Hrun, H1]);
    try (case_bool_decide as Hph; [| done]; pose proof (ckpt_action_inv _ _ _ Hpre Hph HI H); split; [done |]; apply Hrun;
         unfold ckpt_action in H; repeat case_match; simplify_option_eq; done).
  - case_match eqn:E; [| done]. apply andb_true_iff in E as [E1 E2]. apply Nat.leb_le in E1, E2.
    destruct (StartupXLOG max cut c) as [c1 | |] eqn:Es; try done. simplify_eq. eapply restart_inv; [| done | | done]; lia.
  - case_bool_decide as Hph; [| done]. simplify_eq.
    assert (phase c <> Running) as Hr by congruence. destruct (HP Hr) as (Hidle & Hck & Hb & Hz). specialize (Hz Hph).
    destruct b.
    + split; [| by apply Hrun]. apply shutdown_inv; try done; [congruence |].
      rewrite promised_live by done. unfold reserved. cbn. rewrite Hb, Hz. lia.
    + split; [| by apply Hrun]. destruct HI as [I1 I2 I3 I4 I5 I6 I7 I8 I9 I10 I11]. constructor; auto.
      destruct I8 as (cp & H1 & H2 & H3). exists cp. split_and!; try done.
      * rewrite promised_live in H2 |- * by (cbn; congruence). exact H2.
      * unfold ckpt_ok. cbn. by rewrite Hck.
Qed.

Lemma log_run_inv max acts c c' :
  0 < gp_gxid_prefetch_num < 2 ^ 31 -> log_inv c -> phase_inv c ->
  log_run max gp_gxid_prefetch_num acts c = Some c' -> log_inv c' /\ phase_inv c'.
Proof.
  intros Hpre. revert c. induction acts as [| a acts IH]; intros c HI HP H; cbn in H; [by simplify_eq |].
  destruct (log_step max gp_gxid_prefetch_num a c) as [c1 |] eqn:E; [| done]. cbn in H.
  destruct (log_step_inv _ _ _ _ Hpre HI HP E). by eapply IH.
Qed.

Lemma bootstrap_inv n : 0 < gp_gxid_prefetch_num < 2 ^ 31 -> log_inv (BootStrapXLOG n) /\ phase_inv (BootStrapXLOG n).
Proof.
  intros Hpre. split; [| done].
  assert (Hc : forall k g, ~ com (take k (wal (BootStrapXLOG n))) g) by (intros k g Hg%com_take%list_elem_of_singleton; done).
  assert (Hf : forall k g, ~ forg (take k (wal (BootStrapXLOG n))) g) by (intros k g Hg%forg_take%list_elem_of_singleton; done).
  assert (Hc' : forall g, ~ com (wal (BootStrapXLOG n)) g) by (intros g Hg%list_elem_of_singleton; done).
  constructor.
  - intros g Hg. by apply Hc' in Hg.
  - intros k g Hg. by apply Hf in Hg.
  - intros g Hg. by apply elem_of_nil in Hg.
  - intros g Hg. by apply elem_of_nil in Hg.
  - intros p x [-> _]%lookup_replicate. done.
  - intros p q x y [-> _]%lookup_replicate _ _ Hne. done.
  - intros g Hg. by apply Hc' in Hg.
  - exists (mkCheckPoint 0 FirstDistributedTransactionId []). split_and!; [| done | done].
    constructor; cbn; try lia; try done; intros g Hg; by apply elem_of_nil in Hg.
  - unfold reserved, BootStrapXLOG, LastDistributedTransactionId, FirstDistributedTransactionId. cbn [nextGxid GxidCount bumping]. lia.
  - cbn. lia.
  - intros [|[|i]] m Hi; cbn in *; done || lia.
Qed.
End invariant.

(** ** What the log guarantees *)
Section guarantees.
Context (max_tm_gxacts gp_gxid_prefetch_num : Z).
Notation inv := (log_inv gp_gxid_prefetch_num).
Notation step := (log_step max_tm_gxacts gp_gxid_prefetch_num).

Lemma end_next p c : nextGxid (ProcArrayEndGxact p c) = nextGxid c.
Proof. unfold ProcArrayEndGxact. by case_match. Qed.

Lemma step_next a c c' :
  0 < gp_gxid_prefetch_num < 2 ^ 31 -> inv c -> step a c = Some c' ->
  match a with Activate _ => nextGxid c' = nextGxid c + 1 | _ => nextGxid c <= nextGxid c' end.
Proof.
  intros Hpre HI H.
  assert (Hproc : proc_action a c = Some c' -> (forall p, a <> Activate p) -> nextGxid c <= nextGxid c').
  { intros Hp Ha. destruct a; cbn in Hp; try discriminate Hp; apply on_proc_Some in Hp as [_ ->]; try done.
    - by edestruct Ha. - rewrite end_next. done. }
  unfold log_step in H. destruct a; cbv beta iota in H; try (by apply Hproc);
    try (case_bool_decide; [| done]; unfold ckpt_action in H; repeat case_match; simplify_option_eq; done);
    try (case_bool_decide; [| done]; cbn in H; unfold bumpGxid_log in H; repeat case_match; simplify_option_eq; done).
  - cbn in H. unfold on_proc in H. destruct (allProcs c !! p); [| done]. case_match eqn:E; [| done]. simplify_eq.
    bool_props. cbn. apply u64_small. pose proof (li_next _ _ HI) as Hn.
    unfold reserved, LastDistributedTransactionId in Hn. destruct (bumping c); lia.
  - case_match; [| done]. unfold StartupXLOG in H. destruct (redo_log max_tm_gxacts cut c) as [[n l] | |] eqn:E; try done.
    cbn in H. simplify_eq. apply andb_true_iff in H0 as [H1 H2]. apply Nat.leb_le in H1, H2.
    destruct (redo_log_spec _ _ _ _ _ _ HI (conj H1 H2) E) as (-> & _). cbn. apply promised_bounds; [lia | done].
Qed.

Lemma taken_sorted acts c :
  0 < gp_gxid_prefetch_num < 2 ^ 31 -> inv c -> phase_inv c ->
  StronglySorted Z.lt (gxids_taken max_tm_gxacts gp_gxid_prefetch_num acts c) /\
  Forall (fun g => nextGxid c <= g) (gxids_taken max_tm_gxacts gp_gxid_prefetch_num acts c).
Proof.
  intros Hpre. revert c. induction acts as [| a acts IH]; intros c HI HP; cbn; [split; constructor |].
  destruct (step a c) as [c' |] eqn:E; [| split; constructor].
  destruct (log_step_inv _ _ _ _ _ Hpre HI HP E) as [HI' HP']. destruct (IH c' HI' HP') as [Hs Hf].
  pose proof (step_next _ _ _ Hpre HI E) as Hn. rewrite Forall_forall in Hf.
  destruct a; cbn; try (split; [done | apply Forall_forall; intros g Hg; specialize (Hf g Hg); cbn in Hf; lia]).
  split.
  - constructor; [done |]. apply Forall_forall. intros g Hg. specialize (Hf g Hg). cbn in Hf. lia.
  - constructor; [lia |]. apply Forall_forall. intros g Hg. specialize (Hf g Hg). cbn in Hf. lia.
Qed.
End guarantees.


(** The commit of backend 0, up to its flush. *)
Definition commit_actions (p : nat) : list LogAction :=
  [Activate p; Work p DTX_STATE_PREPARED; DelayChkpt p; InsertCommit p; Inserted p; FlushCommit p].
Definition checkpoint_actions (n : nat) : list LogAction :=
  [CkptStart; CkptReadGxid; CkptGetVxids; CkptReadArray] ++ replicate n CkptReadProc ++ [CkptWrite].


(** C13: distributed transaction identifiers are never reused.  The gxids that backends
    take are strictly increasing over any run from a new cluster, through crashes,
    checkpoints at any moment of a bump, and shutdowns. *)
Theorem gxids_never_reused max_tm_gxacts gp_gxid_prefetch_num n acts :
  0 < gp_gxid_prefetch_num < 2 ^ 31 ->
  StronglySorted Z.lt (gxids_taken max_tm_gxacts gp_gxid_prefetch_num acts (BootStrapXLOG n)).
Proof.
  intros Hpre. destruct (bootstrap_inv _ n Hpre) as [HI HP]. by apply taken_sorted.
Qed.

Lemma gxids_never_reused_witness :
  let acts := [Bump; BumpDone; Activate 0; EndXact 0; Activate 0; Restart 2; StartupDone true; Bump; BumpDone; Activate 1] in
  gxids_taken 10 512 acts (BootStrapXLOG 2) = [1; 2; 513] /\ StronglySorted Z.lt [1; 2; 513].
Proof.
  split; [vm_compute; reflexivity |].
  apply (gxids_never_reused 10 512 2
    [Bump; BumpDone; Activate 0; EndXact 0; Activate 0; Restart 2; StartupDone true; Bump; BumpDone; Activate 1]).
  lia.
Defined.

