(* ===== verification/DtxSegment.v ===== *)
(** * Two-phase commit on a segment

    What a segment does for one distributed transaction (the QE side of
    src/backend/cdb/cdbtm.c, with [FinishPreparedTransaction] of
    src/backend/access/transam/twophase.c): the writer process (QE) of the session
    and its context, processes of earlier connections that have not noticed yet
    that they are alone, and what the segment has on disk about the transaction.

    The network decides with a [Delivery] what becomes of a message. *)
From S2P Require Import Prelude.

(** ** Data *)

Inductive DtxContext :=
| DTX_CONTEXT_LOCAL_ONLY
| DTX_CONTEXT_QD_DISTRIBUTED_CAPABLE
| DTX_CONTEXT_QD_RETRY_PHASE_2
| DTX_CONTEXT_QE_ENTRY_DB_SINGLETON
| DTX_CONTEXT_QE_AUTO_COMMIT_IMPLICIT
| DTX_CONTEXT_QE_TWO_PHASE_EXPLICIT_WRITER
| DTX_CONTEXT_QE_TWO_PHASE_IMPLICIT_WRITER
| DTX_CONTEXT_QE_READER
| DTX_CONTEXT_QE_PREPARED
| DTX_CONTEXT_QE_FINISH_PREPARED.

#[export] Instance DtxContext_eq_dec : EqDecision DtxContext.
Proof. solve_decision. Defined.

(** The commands of subtransactions are left out. *)
Inductive DtxProtocolCommand :=
| DTX_PROTOCOL_COMMAND_ABORT_NO_PREPARED
| DTX_PROTOCOL_COMMAND_PREPARE
| DTX_PROTOCOL_COMMAND_ABORT_SOME_PREPARED
| DTX_PROTOCOL_COMMAND_COMMIT_ONEPHASE
| DTX_PROTOCOL_COMMAND_COMMIT_PREPARED
| DTX_PROTOCOL_COMMAND_ABORT_PREPARED
| DTX_PROTOCOL_COMMAND_RETRY_COMMIT_PREPARED
| DTX_PROTOCOL_COMMAND_RETRY_ABORT_PREPARED
| DTX_PROTOCOL_COMMAND_RECOVERY_COMMIT_PREPARED
| DTX_PROTOCOL_COMMAND_RECOVERY_ABORT_PREPARED.

(** A QE: its [DistributedTransactionContext], and whether it has the transaction open. *)
Record QE := mkQE { qe_context : DtxContext; qe_open : bool }.

#[export] Instance DtxProtocolCommand_eq_dec : EqDecision DtxProtocolCommand.
Proof. solve_decision. Defined.
#[export] Instance QE_eq_dec : EqDecision QE.
Proof. solve_decision. Defined.

(** What the segment's log says: the transaction is prepared; it has committed
    ([Some true]) or aborted ([Some false]). *)
Record Disk := mkDisk { prepared : bool; fate : option bool }.

(** An error that the operation itself raises: while the transaction block is still in
    progress, or later, before or after its effect. *)
Inductive Fault := NoFault | FailEarly | FailBefore | FailAfter.

#[export] Instance Fault_eq_dec : EqDecision Fault.
Proof. solve_decision. Defined.

Inductive Reply := RDone | RError | RFatal | RPanic.

(** ** The QE side of cdbtm.c *)

Definition new_QE : QE := mkQE DTX_CONTEXT_LOCAL_ONLY false.

Definition writer_context (c : DtxContext) : bool :=
  match c with
  | DTX_CONTEXT_QE_TWO_PHASE_EXPLICIT_WRITER | DTX_CONTEXT_QE_TWO_PHASE_IMPLICIT_WRITER => true
  | _ => false
  end.

Definition abort_disk (d : Disk) : Disk := mkDisk (prepared d) (Some false).

(** [AbortCurrentTransaction] after an error in a transaction block, which a writer is
    in also without an explicit begin: the block stays, aborted, with its context. *)
Definition abort_block (q : QE) (d : Disk) : QE * Disk :=
  (mkQE (qe_context q) false, if qe_open q then abort_disk d else d).

(** The abort of an open transaction, or the end of an aborted block;
    [CleanupTransaction] resets the context. *)
Definition AbortOutOfAnyTransaction (q : QE) (d : Disk) : QE * Disk :=
  if qe_open q then (new_QE, abort_disk d)
  else if writer_context (qe_context q) then (new_QE, d) else (q, d).

(** [None] is the error for a transaction that is not there. *)
Definition FinishPreparedTransaction (isCommit raiseErrorIfNotFound : bool) (d : Disk) : option Disk :=
  if prepared d then Some (mkDisk false (Some isCommit))
  else if raiseErrorIfNotFound then None else Some d.

(** In an aborted block [PrepareTransactionBlock] fails, and the block is left. *)
Definition performDtxProtocolPrepare (f : Fault) (q : QE) (d : Disk) : QE * Disk * Reply :=
  match f with
  | FailEarly => (abort_block q d, RError)
  | _ =>
      if qe_open q then
        match f with
        | NoFault => (mkQE DTX_CONTEXT_QE_PREPARED false, mkDisk true (fate d), RDone)
        | FailAfter => (new_QE, mkDisk true (fate d), RError)
        | _ => (new_QE, abort_disk d, RError)
        end
      else (new_QE, d, RError)
  end.

Definition performDtxProtocolCommitOnePhase (f : Fault) (q : QE) (d : Disk) : QE * Disk * Reply :=
  match f with
  | FailEarly => (abort_block q d, RError)
  | _ =>
      if qe_open q then
        match f with
        | NoFault => (new_QE, mkDisk (prepared d) (Some true), RDone)
        | FailAfter => (new_QE, mkDisk (prepared d) (Some true), RError)
        | _ => (new_QE, abort_disk d, RError)
        end
      else (new_QE, d, RError)
  end.

(** [c] is the context in which the command starts. *)
Definition performDtxProtocolCommitPrepared (raiseErrorIfNotFound : bool) (f : Fault) (c : DtxContext) (d : Disk)
    : QE * Disk * Reply :=
  match f, FinishPreparedTransaction true raiseErrorIfNotFound d with
  | FailEarly, _ => (mkQE c false, d, RError)
  | FailBefore, _ | _, None => (new_QE, d, RError)
  | NoFault, Some d => (new_QE, d, RDone)
  | FailAfter, Some d => (new_QE, d, RError)
  end.

Definition performDtxProtocolAbortPrepared (raiseErrorIfNotFound : bool) (f : Fault) (c : DtxContext) (d : Disk)
    : QE * Disk * Reply :=
  match f, FinishPreparedTransaction false raiseErrorIfNotFound d with
  | FailEarly, _ => (mkQE c false, d, RError)
  | FailBefore, _ | _, None => (new_QE, d, RError)
  | NoFault, Some d => (new_QE, d, RDone)
  | FailAfter, Some d => (new_QE, d, RError)
  end.

(** [requireDistributedTransactionContext] before a command that finishes a
    prepared transaction. *)
Definition require (c : DtxContext) (q : QE) (d : Disk) (r : QE * Disk * Reply) : QE * Disk * Reply :=
  if decide (qe_context q = c) then r else (q, d, RFatal).

Definition performDtxProtocolCommand (cmd : DtxProtocolCommand) (f : Fault) (q : QE) (d : Disk) : QE * Disk * Reply :=
  match cmd with
  | DTX_PROTOCOL_COMMAND_ABORT_NO_PREPARED => (AbortOutOfAnyTransaction q d, RDone)
  | DTX_PROTOCOL_COMMAND_PREPARE | DTX_PROTOCOL_COMMAND_COMMIT_ONEPHASE =>
      match qe_context q with
      | DTX_CONTEXT_LOCAL_ONLY => (q, d, RError)
      | DTX_CONTEXT_QE_TWO_PHASE_EXPLICIT_WRITER | DTX_CONTEXT_QE_TWO_PHASE_IMPLICIT_WRITER =>
          match cmd with
          | DTX_PROTOCOL_COMMAND_COMMIT_ONEPHASE => performDtxProtocolCommitOnePhase f q d
          | _ => performDtxProtocolPrepare f q d
          end
      | DTX_CONTEXT_QD_DISTRIBUTED_CAPABLE | DTX_CONTEXT_QD_RETRY_PHASE_2 | DTX_CONTEXT_QE_PREPARED
      | DTX_CONTEXT_QE_FINISH_PREPARED | DTX_CONTEXT_QE_ENTRY_DB_SINGLETON | DTX_CONTEXT_QE_READER => (q, d, RFatal)
      | DTX_CONTEXT_QE_AUTO_COMMIT_IMPLICIT => (q, d, RPanic)
      end
  | DTX_PROTOCOL_COMMAND_ABORT_SOME_PREPARED =>
      match qe_context q with
      | DTX_CONTEXT_LOCAL_ONLY | DTX_CONTEXT_QE_TWO_PHASE_EXPLICIT_WRITER
      | DTX_CONTEXT_QE_TWO_PHASE_IMPLICIT_WRITER => (AbortOutOfAnyTransaction q d, RDone)
      | DTX_CONTEXT_QE_PREPARED => performDtxProtocolAbortPrepared true f DTX_CONTEXT_QE_FINISH_PREPARED d
      | _ => (q, d, RPanic)
      end
  | DTX_PROTOCOL_COMMAND_COMMIT_PREPARED =>
      require DTX_CONTEXT_QE_PREPARED q d (performDtxProtocolCommitPrepared true f DTX_CONTEXT_QE_FINISH_PREPARED d)
  | DTX_PROTOCOL_COMMAND_ABORT_PREPARED =>
      require DTX_CONTEXT_QE_PREPARED q d (performDtxProtocolAbortPrepared true f DTX_CONTEXT_QE_FINISH_PREPARED d)
  | DTX_PROTOCOL_COMMAND_RETRY_COMMIT_PREPARED =>
      require DTX_CONTEXT_LOCAL_ONLY q d (performDtxProtocolCommitPrepared false f DTX_CONTEXT_LOCAL_ONLY d)
  | DTX_PROTOCOL_COMMAND_RETRY_ABORT_PREPARED =>
      require DTX_CONTEXT_LOCAL_ONLY q d (performDtxProtocolAbortPrepared false f DTX_CONTEXT_LOCAL_ONLY d)
  | DTX_PROTOCOL_COMMAND_RECOVERY_COMMIT_PREPARED =>
      require DTX_CONTEXT_LOCAL_ONLY q d (performDtxProtocolCommitPrepared false f DTX_CONTEXT_LOCAL_ONLY d)
  | DTX_PROTOCOL_COMMAND_RECOVERY_ABORT_PREPARED =>
      require DTX_CONTEXT_LOCAL_ONLY q d (performDtxProtocolAbortPrepared false f DTX_CONTEXT_LOCAL_ONLY d)
  end.

(** [setupQEDtxContext] of a writer for a query that needs two-phase commit: the new
    context, or the error that is raised. *)
Definition setupQEDtxContext (explicitBegin : bool) (q : QE) : DtxContext + Reply :=
  match qe_context q with
  | DTX_CONTEXT_LOCAL_ONLY =>
      if qe_open q then inr RError
      else inl (if explicitBegin then DTX_CONTEXT_QE_TWO_PHASE_EXPLICIT_WRITER
                else DTX_CONTEXT_QE_TWO_PHASE_IMPLICIT_WRITER)
  | DTX_CONTEXT_QE_TWO_PHASE_IMPLICIT_WRITER => if explicitBegin then inr RError else inl (qe_context q)
  | DTX_CONTEXT_QE_TWO_PHASE_EXPLICIT_WRITER | DTX_CONTEXT_QE_ENTRY_DB_SINGLETON | DTX_CONTEXT_QE_READER =>
      inl (qe_context q)
  | DTX_CONTEXT_QE_AUTO_COMMIT_IMPLICIT | DTX_CONTEXT_QE_PREPARED | DTX_CONTEXT_QE_FINISH_PREPARED => inr RError
  | DTX_CONTEXT_QD_DISTRIBUTED_CAPABLE | DTX_CONTEXT_QD_RETRY_PHASE_2 => inr RPanic
  end.

(** A query on the QE.  An error aborts the transaction block, and in an aborted block
    every query is an error. *)
Definition exec_query (explicitBegin : bool) (f : Fault) (q : QE) (d : Disk) : QE * Disk * Reply :=
  match setupQEDtxContext explicitBegin q with
  | inr RPanic => (q, d, RPanic)
  | inr _ => (abort_block q d, RError)
  | inl c =>
      if bool_decide (qe_context q = DTX_CONTEXT_LOCAL_ONLY) || qe_open q then
        match f with
        | NoFault => (mkQE c true, d, RDone)
        | _ => (mkQE c false, abort_disk d, RError)
        end
      else (q, d, RError)
  end.

(** ** The segment *)

(** The session's connection: none yet, a live QE, or one that the session does not
    know to be dead. *)
Inductive Conn := NoQE | Live (q : QE) | Broken.

#[export] Instance Conn_eq_dec : EqDecision Conn.
Proof. solve_decision. Defined.

Record Segment := mkSegment {
  conn : Conn;
  zombies : list (QE * option DtxProtocolCommand);  (* with the command it has still to read *)
  disk : Disk;
  joined : bool;              (* the transaction has been here *)
  wrote : bool                (* and has written *)
}.

Definition new_segment : Segment := mkSegment NoQE [] (mkDisk false None) false false.

Definition with_disk (d : Disk) (s : Segment) : Segment := mkSegment (conn s) (zombies s) d (joined s) (wrote s).
Definition with_conn (c : Conn) (s : Segment) : Segment := mkSegment c (zombies s) (disk s) (joined s) (wrote s).
Definition with_zombies (z : list (QE * option DtxProtocolCommand)) (s : Segment) : Segment :=
  mkSegment (conn s) z (disk s) (joined s) (wrote s).

(** The exit of a process aborts what it has open. *)
Definition qe_exit (q : QE) (d : Disk) : Disk := if qe_open q then abort_disk d else d.

(** Crash and recovery of the segment (or the promotion of its mirror): every
    process is gone, what was prepared stays prepared. *)
Definition seg_restart (s : Segment) : Segment :=
  let d := foldl (fun d z => qe_exit z.1 d) (disk s) (zombies s) in
  match conn s with
  | NoQE => mkSegment NoQE [] d (joined s) (wrote s)
  | Live q => mkSegment Broken [] (qe_exit q d) (joined s) (wrote s)
  | Broken => mkSegment Broken [] d (joined s) (wrote s)
  end.

(** The QE of the session dies. *)
Definition qe_dies (s : Segment) : Segment :=
  match conn s with
  | Live q => with_conn Broken (with_disk (qe_exit q (disk s)) s)
  | _ => s
  end.

(** The session closes its connection. *)
Definition disconnect (s : Segment) : Segment :=
  match conn s with
  | Live q => with_conn NoQE (with_zombies ((q, None) :: zombies s) s)
  | _ => with_conn NoQE s
  end.

(** What becomes of a message: it is answered; it is executed but the connection is
    lost before the answer; the connection is lost and the QE will read it later;
    it never arrives; the segment is down. *)
Inductive Delivery := Answered (f : Fault) | Unheard (f : Fault) | Late | Undelivered | SegmentDown.

(** The end of the execution of a message by the session's QE. *)
Definition after_reply (r : QE * Disk * Reply) (s : Segment) : Segment :=
  match r with
  | (q, d, RDone) | (q, d, RError) => with_conn (Live q) (with_disk d s)
  | (q, d, RFatal) => with_conn NoQE (with_disk (qe_exit q d) s)
  | (q, d, RPanic) => with_conn NoQE (seg_restart (with_conn (Live q) (with_disk d s)))
  end.

(** The segment after the message, whether it answered with success, and whether the
    connection is lost. *)
Definition deliver (run : Fault -> QE -> Disk -> QE * Disk * Reply) (cmd : option DtxProtocolCommand)
    (dl : Delivery) (s : Segment) : Segment * bool * bool :=
  match conn s with
  | Broken => (with_conn NoQE s, false, true)
  | _ =>
      let q := match conn s with Live q => q | _ => new_QE end in
      match dl with
      | Answered f =>
          let r := run f q (disk s) in
          (after_reply r s, match r.2 with RDone => true | _ => false end,
           match r.2 with RDone | RError => false | _ => true end)
      | Unheard f => (disconnect (after_reply (run f q (disk s)) s), false, true)
      | Late => (with_conn NoQE (with_zombies ((q, cmd) :: zombies s) s), false, true)
      | Undelivered => (with_conn NoQE (with_zombies ((q, None) :: zombies s) s), false, true)
      | SegmentDown => (with_conn NoQE (seg_restart s), false, true)
      end
  end.

Definition deliver_command (cmd : DtxProtocolCommand) : Delivery -> Segment -> Segment * bool * bool :=
  deliver (performDtxProtocolCommand cmd) (Some cmd).

(** The message is executed. *)
Definition reached (dl : Delivery) (s : Segment) : bool :=
  match conn s, dl with
  | Broken, _ => false
  | _, (Answered _ | Unheard _) => true
  | _, _ => false
  end.

(** A query; that the transaction was here, and whether it wrote, is remembered. *)
Definition deliver_query (explicitBegin writes : bool) (dl : Delivery) (s : Segment) : Segment * bool * bool :=
  let '(s', ok, lost) := deliver (exec_query explicitBegin) None dl s in
  (mkSegment (conn s') (zombies s') (disk s') (joined s || reached dl s) (wrote s || (writes && reached dl s)),
   ok, lost).

(** A command of the recovery process, which has a QE of its own. *)
Definition deliver_recovery (cmd : DtxProtocolCommand) (dl : Delivery) (s : Segment) : Segment * bool :=
  match dl with
  | Answered f =>
      let '(_, d, r) := performDtxProtocolCommand cmd f new_QE (disk s) in
      (with_disk d s, match r with RDone => true | _ => false end)
  | Unheard f => let '(_, d, r) := performDtxProtocolCommand cmd f new_QE (disk s) in (with_disk d s, false)
  | Late => (with_zombies ((new_QE, Some cmd) :: zombies s) s, false)
  | Undelivered => (s, false)
  | SegmentDown => (seg_restart s, false)
  end.

(** A process of an earlier connection exits, after the command it had to read if
    [f] says so. *)
Definition zombie_step (k : nat) (f : option Fault) (s : Segment) : Segment :=
  match zombies s !! k with
  | None => s
  | Some (q, cmd) =>
      let '(q, d, r) := match cmd, f with
                        | Some cmd, Some f => performDtxProtocolCommand cmd f q (disk s)
                        | _, _ => (q, disk s, RDone)
                        end in
      let s := with_zombies (delete k (zombies s)) (with_disk (qe_exit q d) s) in
      match r with RPanic => seg_restart s | _ => s end
  end.

(** ** What the commands can do *)

(** Commands that commit, and those that abort a prepared transaction. *)
Definition commits (c : DtxProtocolCommand) : bool :=
  match c with
  | DTX_PROTOCOL_COMMAND_COMMIT_ONEPHASE | DTX_PROTOCOL_COMMAND_COMMIT_PREPARED
  | DTX_PROTOCOL_COMMAND_RETRY_COMMIT_PREPARED | DTX_PROTOCOL_COMMAND_RECOVERY_COMMIT_PREPARED => true
  | _ => false
  end.
Definition aborts_prepared (c : DtxProtocolCommand) : bool :=
  match c with
  | DTX_PROTOCOL_COMMAND_ABORT_SOME_PREPARED | DTX_PROTOCOL_COMMAND_ABORT_PREPARED
  | DTX_PROTOCOL_COMMAND_RETRY_ABORT_PREPARED | DTX_PROTOCOL_COMMAND_RECOVERY_ABORT_PREPARED => true
  | _ => false
  end.

(** The disk of a segment on which [n] processes have the transaction open. *)
Record disk_ok (n : nat) (d : Disk) : Prop := {
  do_one : (n <= 1)%nat;
  do_open : n <> 0%nat -> prepared d = false /\ fate d = None;
  do_prepared : prepared d = true -> fate d = None
}.

Definition open_count (q : QE) : nat := if qe_open q then 1%nat else 0%nat.

Section steps.
Context (A : DtxProtocolCommand -> Prop).

(** What may happen to the disk when only commands in [A] are executed. *)
Record disk_step (d d' : Disk) : Prop := {
  dst_fate : forall b, fate d = Some b -> fate d' = Some b;
  dst_prepared : prepared d = true ->
    (prepared d' = true /\ fate d' = None) \/ fate d' = Some true \/
    (fate d' = Some false /\ exists c, A c /\ aborts_prepared c = true);
  dst_commit : fate d' = Some true -> fate d = Some true \/ exists c, A c /\ commits c = true
}.

Lemma disk_step_refl d n : disk_ok n d -> disk_step d d.
Proof. intros []. constructor; auto. Qed.

Lemma disk_step_trans d1 d2 d3 : disk_step d1 d2 -> disk_step d2 d3 -> disk_step d1 d3.
Proof.
  intros [F1 P1 C1] [F2 P2 C2]. constructor.
  - auto.
  - intros H. destruct (P1 H) as [[H1 H2] | [H1 | [H1 H2]]]; [| apply F2 in H1; auto | apply F2 in H1; auto].
    auto.
  - intros H. destruct (C2 H) as [H1 |]; auto.
Qed.

Lemma abort_disk_step n d : disk_ok n d -> n <> 0%nat -> disk_ok 0 (abort_disk d) /\ disk_step d (abort_disk d).
Proof.
  intros [H1 H2 H3] Hn. destruct (H2 Hn) as [Hp Hf]. split; constructor; cbn; try congruence; try lia.
Qed.

Lemma qe_exit_step n q d :
  disk_ok (open_count q + n) d -> disk_ok n (qe_exit q d) /\ disk_step d (qe_exit q d).
Proof.
  unfold qe_exit, open_count. destruct (qe_open q); intros H.
  - destruct (abort_disk_step _ _ H) as [H1 H2]; [lia |]. replace n with 0%nat by (destruct H; lia). done.
  - split; [done | by eapply disk_step_refl].
Qed.

Lemma AbortOutOfAny_step n q d q' d' :
  disk_ok (open_count q + n) d -> AbortOutOfAnyTransaction q d = (q', d') ->
  disk_ok (open_count q' + n) d' /\ disk_step d d' /\ (qe_open q = false -> qe_open q' = false /\ d' = d).
Proof.
  unfold AbortOutOfAnyTransaction, open_count. destruct (qe_open q) eqn:E; intros H.
  - intros [= <- <-]. destruct (abort_disk_step _ _ H) as [H1 H2]; [lia |]. replace n with 0%nat by (destruct H; lia). done.
  - destruct (writer_context (qe_context q)); intros [= <- <-]; rewrite ?E; split_and!; try done; by eapply disk_step_refl.
Qed.

Lemma abort_block_step n q d :
  disk_ok (open_count q + n) d ->
  disk_ok n (abort_block q d).2 /\ disk_step d (abort_block q d).2 /\ (qe_open q = false -> (abort_block q d).2 = d).
Proof.
  unfold abort_block, open_count. cbn. destruct (qe_open q); intros H.
  - destruct (abort_disk_step _ _ H) as [H1 H2]; [lia |]. replace n with 0%nat by (destruct H; lia). done.
  - split_and!; try done. by eapply disk_step_refl.
Qed.

Lemma finish_step n q d (b raise : bool) d' cmd :
  disk_ok (open_count q + n) d -> A cmd -> (if b then commits cmd else aborts_prepared cmd) = true ->
  FinishPreparedTransaction b raise d = Some d' -> qe_open q = false ->
  disk_ok n d' /\ disk_step d d' /\ (prepared d = false -> d' = d).
Proof.
  unfold FinishPreparedTransaction, open_count. intros [H1 H2 H3] HA Hb H Hq. rewrite Hq in *.
  destruct (prepared d) eqn:Ep.
  - simplify_eq. assert (n = 0%nat) as -> by (destruct n; [done |]; destruct H2; [lia | congruence]).
    split_and!; [constructor; cbn; auto; lia || done | | done]. specialize (H3 eq_refl).
    constructor; cbn; rewrite ?H3; [done | |].
    + intros _. destruct b; [auto |]. right. right. eauto.
    + intros [= ->]. right. eauto.
  - destruct raise; simplify_eq. assert (disk_ok n d') by (constructor; [exact H1 | rewrite Ep; exact H2 | by rewrite Ep]).
    split_and!; [done | by eapply disk_step_refl | done].
Qed.

(** A QE whose context is not that of a writer has nothing open. *)
Definition qe_ok (q : QE) : Prop :=
  qe_open q = true -> qe_context q = DTX_CONTEXT_QE_TWO_PHASE_EXPLICIT_WRITER \/
                      qe_context q = DTX_CONTEXT_QE_TWO_PHASE_IMPLICIT_WRITER.

Record exec_ok (n : nat) (q : QE) (d : Disk) (r : QE * Disk * Reply) : Prop := {
  ex_disk : disk_ok (open_count r.1.1 + n) r.1.2;
  ex_step : disk_step d r.1.2;
  ex_qe : qe_ok r.1.1;
  ex_idle : qe_open q = false -> prepared d = false -> qe_open r.1.1 = false /\ r.1.2 = d
}.

Lemma exec_ok_same n q d r : disk_ok (open_count q + n) d -> qe_ok q -> exec_ok n q d (q, d, r).
Proof. intros H Hq. constructor; cbn; try done. by eapply disk_step_refl. Qed.

Lemma exec_ok_abort n q d r : disk_ok (open_count q + n) d -> qe_ok q -> exec_ok n q d (AbortOutOfAnyTransaction q d, r).
Proof.
  intros H Hq. destruct (AbortOutOfAnyTransaction q d) as [q' d'] eqn:E.
  destruct (AbortOutOfAny_step _ _ _ _ _ H E) as (H1 & H2 & H3). constructor; cbn; try done; [| auto].
  unfold AbortOutOfAnyTransaction in E. destruct (qe_open q) eqn:Eo, (writer_context (qe_context q)); simplify_eq; done.
Qed.

Lemma exec_ok_block n q d r : disk_ok (open_count q + n) d -> exec_ok n q d (abort_block q d, r).
Proof. intros H. destruct (abort_block_step _ _ _ H) as (H1 & H2 & H3). constructor; cbn [fst snd]; try done. auto. Qed.

Lemma exec_ok_left n q q' d r :
  disk_ok (open_count q + n) d -> qe_open q = false -> qe_open q' = false -> exec_ok n q d (q', d, r).
Proof.
  intros H Hq Hq'. unfold open_count in H. rewrite Hq in H. constructor; cbn; try done; [unfold open_count; by rewrite Hq' | by eapply disk_step_refl |].
  intros Ho. congruence.
Qed.

Lemma open_false q n d : disk_ok (open_count q + n) d -> prepared d = true -> qe_open q = false.
Proof.
  unfold open_count. intros [_ H _] Hp. destruct (qe_open q); [| done]. destruct H; [lia | congruence].
Qed.

Lemma exec_ok_finish n q d (b raise : bool) f c cmd :
  disk_ok (open_count q + n) d -> A cmd -> (if b then commits cmd else aborts_prepared cmd) = true ->
  qe_open q = false ->
  exec_ok n q d
    match f, FinishPreparedTransaction b raise d with
    | FailEarly, _ => (mkQE c false, d, RError)
    | FailBefore, _ | _, None => (new_QE, d, RError)
    | NoFault, Some d => (new_QE, d, RDone)
    | FailAfter, Some d => (new_QE, d, RError)
    end.
Proof.
  intros H HA Hb Hq.
  assert (Hsame : forall c r, exec_ok n q d (mkQE c false, d, r)) by (intros; by apply exec_ok_left).
  destruct (FinishPreparedTransaction b raise d) as [d' |] eqn:E; [| destruct f; apply Hsame].
  destruct (finish_step _ _ _ _ _ _ _ H HA Hb E Hq) as (H1 & H2 & H3).
  destruct f; try apply Hsame; constructor; cbn; try done; auto.
Qed.

Lemma perform_ok n cmd f q d :
  disk_ok (open_count q + n) d -> qe_ok q -> A cmd -> exec_ok n q d (performDtxProtocolCommand cmd f q d).
Proof.
  intros H Hq HA.
  assert (Hnot : forall c, qe_context q = c -> c <> DTX_CONTEXT_QE_TWO_PHASE_EXPLICIT_WRITER ->
                 c <> DTX_CONTEXT_QE_TWO_PHASE_IMPLICIT_WRITER -> qe_open q = false).
  { intros c <- H1 H2. destruct (qe_open q) eqn:E; [| done]. destruct (Hq E); congruence. }
  assert (Hreq : forall c r, exec_ok n q d r \/ qe_context q <> c -> exec_ok n q d (require c q d r)).
  { intros c r Hr. unfold require. destruct (decide _); [| by apply exec_ok_same]. by destruct Hr. }
  assert (Hf : forall (b raise : bool) c c', (if b then commits cmd else aborts_prepared cmd) = true ->
     c <> DTX_CONTEXT_QE_TWO_PHASE_EXPLICIT_WRITER -> c <> DTX_CONTEXT_QE_TWO_PHASE_IMPLICIT_WRITER ->
     exec_ok n q d match f, FinishPreparedTransaction b raise d with
       | FailEarly, _ => (mkQE c' false, d, RError)
       | FailBefore, _ | _, None => (new_QE, d, RError) | NoFault, Some d => (new_QE, d, RDone)
       | FailAfter, Some d => (new_QE, d, RError) end \/ qe_context q <> c).
  { intros b raise c c' Hb H1 H2. destruct (decide (qe_context q = c)) as [Hc |]; [left | by right].
    eapply exec_ok_finish; eauto. }
  assert (Hopen : forall d1, qe_open q = true -> (d1 = mkDisk true (fate d) \/ (d1 = mkDisk (prepared d) (Some true) /\ commits cmd = true)) ->
     disk_ok 0 d1 /\ disk_step d d1).
  { intros d1 Ho Hd. destruct H as [H1 H2 H3]. unfold open_count in *. rewrite Ho in *. destruct H2 as [Hp Hfa]; [lia |].
    destruct Hd as [-> | [-> Hc]]; split; constructor; cbn; rewrite ?Hp, ?Hfa; try done; try lia. intros _. right. eauto. }
  assert (Hn : qe_open q = true -> n = 0%nat).
  { intros Ho. destruct H. unfold open_count in *. rewrite Ho in *. lia. }
  destruct cmd; cbn [performDtxProtocolCommand]; try (apply Hreq, Hf; done).
  - by apply exec_ok_abort.
  - destruct (qe_context q); try (by apply exec_ok_same); unfold performDtxProtocolPrepare;
      (destruct (decide (f = FailEarly)) as [-> | Hfe]; [by apply exec_ok_block |]);
      (destruct (qe_open q) eqn:Eo; [| destruct f; try done; by apply exec_ok_left]); rewrite (Hn eq_refl) in *; destruct f; try done;
      try (destruct (Hopen (mkDisk true (fate d)) eq_refl ltac:(by left)); constructor; cbn; try done; intros; congruence);
      (destruct (abort_disk_step _ _ H) as [Ha Hb]; [unfold open_count; rewrite Eo; lia |]; constructor; cbn; try done; intros; congruence).
  - destruct (qe_context q) eqn:Ec; try (by apply exec_ok_same); try (by apply exec_ok_abort).
    apply (exec_ok_finish _ _ _ false true _ _ DTX_PROTOCOL_COMMAND_ABORT_SOME_PREPARED); try done. by apply (Hnot DTX_CONTEXT_QE_PREPARED).
  - destruct (qe_context q); try (by apply exec_ok_same); unfold performDtxProtocolCommitOnePhase;
      (destruct (decide (f = FailEarly)) as [-> | Hfe]; [by apply exec_ok_block |]);
      (destruct (qe_open q) eqn:Eo; [| destruct f; try done; by apply exec_ok_left]); rewrite (Hn eq_refl) in *; destruct f; try done;
      try (destruct (Hopen (mkDisk (prepared d) (Some true)) eq_refl ltac:(by right)); constructor; cbn; try done; intros; congruence);
      (destruct (abort_disk_step _ _ H) as [Ha Hb]; [unfold open_count; rewrite Eo; lia |]; constructor; cbn; try done; intros; congruence).
Qed.

(** ** Segments *)

Fixpoint zombie_opens (l : list (QE * option DtxProtocolCommand)) : nat :=
  match l with [] => 0%nat | z :: l => (open_count z.1 + zombie_opens l)%nat end.

Definition conn_opens (c : Conn) : nat := match c with Live q => open_count q | _ => 0%nat end.

Definition opens (s : Segment) : nat := (conn_opens (conn s) + zombie_opens (zombies s))%nat.

Definition pending (s : Segment) (c : DtxProtocolCommand) : Prop := exists q, (q, Some c) ∈ zombies s.

Record seg_ok (s : Segment) : Prop := {
  so_disk : disk_ok (opens s) (disk s);
  so_conn : forall q, conn s = Live q -> qe_ok q;
  so_zombies : Forall (fun z => qe_ok z.1) (zombies s);
  so_unjoined : joined s = false -> opens s = 0%nat /\ disk s = mkDisk false None /\ wrote s = false
}.

(** What a segment can do when only commands in [A] are executed or sent. *)
Record seg_step (s s' : Segment) : Prop := {
  ss_joined : joined s' = joined s;
  ss_wrote : wrote s' = wrote s;
  ss_disk : disk_step (disk s) (disk s');
  ss_pending : forall c, pending s' c -> pending s c \/ A c;
  ss_idle : opens s = 0%nat -> prepared (disk s) = false -> disk s' = disk s /\ opens s' = 0%nat
}.

Lemma seg_step_refl s : seg_ok s -> seg_step s s.
Proof. intros []. constructor; auto. by eapply disk_step_refl. Qed.

Lemma seg_step_trans s1 s2 s3 : seg_step s1 s2 -> seg_step s2 s3 -> seg_step s1 s3.
Proof.
  intros [J1 W1 D1 P1 I1] [J2 W2 D2 P2 I2]. constructor; try congruence.
  - by eapply disk_step_trans.
  - intros c Hc. destruct (P2 c Hc); auto.
  - intros H1 H2. destruct (I1 H1 H2) as [H3 H4]. rewrite <- H3. apply I2; congruence.
Qed.

Lemma seg_ok_unjoined s s' :
  seg_ok s -> seg_step s s' -> joined s' = false -> opens s' = 0%nat /\ disk s' = mkDisk false None /\ wrote s' = false.
Proof.
  intros [] [J W D P I] Hj. rewrite J in Hj. destruct (so_unjoined0 Hj) as (H1 & H2 & H3).
  destruct (I H1) as [H4 H5]; [by rewrite H2 |]. split_and!; congruence.
Qed.

(** Most steps keep the zombies or add one, and give a new disk. *)
Lemma seg_step_intro s s' :
  seg_ok s -> joined s' = joined s -> wrote s' = wrote s -> disk_ok (opens s') (disk s') ->
  disk_step (disk s) (disk s') -> (forall q, conn s' = Live q -> qe_ok q) ->
  Forall (fun z => qe_ok z.1) (zombies s') -> (forall c, pending s' c -> pending s c \/ A c) ->
  (opens s = 0%nat -> prepared (disk s) = false -> disk s' = disk s /\ opens s' = 0%nat) ->
  seg_ok s' /\ seg_step s s'.
Proof.
  intros Hs HJ HW HD HS HC HZ HP HI.
  assert (Hst : seg_step s s') by (by constructor). split; [| done]. constructor; try done.
  by eapply seg_ok_unjoined.
Qed.

Lemma zombies_exit n l d :
  disk_ok (n + zombie_opens l) d ->
  let d' := foldl (fun d (z : QE * option DtxProtocolCommand) => qe_exit z.1 d) d l in
  disk_ok n d' /\ disk_step d d' /\ (zombie_opens l = 0%nat -> d' = d).
Proof.
  revert d. induction l as [| z l IH]; intros d H; cbn in *.
  - rewrite Nat.add_0_r in H. split_and!; [done | by eapply disk_step_refl | done].
  - destruct (qe_exit_step (n + zombie_opens l) z.1 d) as [H1 H2].
    { by replace (open_count z.1 + (n + zombie_opens l))%nat with (n + (open_count z.1 + zombie_opens l))%nat by lia. }
    destruct (IH _ H1) as (H3 & H4 & H5). split_and!; [done | by eapply disk_step_trans |].
    intros H0. rewrite H5 by lia. unfold qe_exit, open_count in *. destruct (qe_open z.1); [lia | done].
Qed.

Lemma seg_restart_ok s : seg_ok s -> seg_ok (seg_restart s) /\ seg_step s (seg_restart s).
Proof.
  intros Hs. pose proof (so_disk _ Hs) as Hd. unfold opens in Hd.
  destruct (zombies_exit (conn_opens (conn s)) (zombies s) (disk s) Hd) as (H1 & H2 & H3).
  unfold seg_restart. set (d := foldl _ _ _) in *.
  assert (Hnil : forall c, pending (mkSegment Broken [] d true true) c -> False) by (intros c [q Hq]; by apply elem_of_nil in Hq).
  destruct (conn s) as [| q |] eqn:Ec; apply seg_step_intro; cbn; try done;
    try (intros c [q' Hq]; by apply elem_of_nil in Hq);
    try (unfold opens; rewrite Ec; cbn; intros H0 _; split; [apply H3; lia | done]).
  - destruct (qe_exit_step 0 q d) as [H4 H5]; [by rewrite Nat.add_0_r | done].
  - destruct (qe_exit_step 0 q d) as [H4 H5]; [by rewrite Nat.add_0_r | by eapply disk_step_trans].
  - unfold opens. rewrite Ec. cbn. intros H0 _. rewrite H3 by lia. split; [| done].
    unfold qe_exit, open_count in *. destruct (qe_open q); [lia | done].
Qed.

Lemma qe_dies_ok s : seg_ok s -> seg_ok (qe_dies s) /\ seg_step s (qe_dies s).
Proof.
  intros Hs. unfold qe_dies. pose proof (so_disk _ Hs) as Hd. unfold opens in Hd.
  destruct (conn s) as [| q |] eqn:Ec; try (split; [done | by apply seg_step_refl]). cbn in Hd.
  destruct (qe_exit_step _ _ _ Hd) as [H1 H2]. apply seg_step_intro; cbn; try done; [apply Hs | auto |].
  unfold opens. rewrite Ec. cbn. intros H0 _. unfold qe_exit, open_count in *. destruct (qe_open q); [lia | split; [done | lia]].
Qed.

Lemma pending_cons s q o c : pending (with_zombies ((q, o) :: zombies s) s) c -> pending s c \/ o = Some c.
Proof. intros [q' Hq]. cbn in Hq. apply elem_of_cons in Hq as [Hq | Hq]; [right; congruence | left; by exists q']. Qed.

(** The connection goes, its QE stays behind with what it has to read. *)
Lemma abandon_ok s q o :
  seg_ok s -> match conn s with Live q' => q = q' | _ => q = new_QE end -> (forall c, o = Some c -> A c) ->
  seg_ok (with_conn NoQE (with_zombies ((q, o) :: zombies s) s)) /\
  seg_step s (with_conn NoQE (with_zombies ((q, o) :: zombies s) s)).
Proof.
  intros Hs Hq Ho. pose proof (so_disk _ Hs) as Hd. unfold opens in Hd.
  assert (Hc : opens (with_conn NoQE (with_zombies ((q, o) :: zombies s) s)) = opens s).
  { unfold opens. cbn. destruct (conn s); subst q; done. }
  apply seg_step_intro; rewrite ?Hc; cbn; try done.
  - apply (disk_step_refl _ _ Hd).
  - constructor; [| apply Hs]. cbn. destruct (conn s) eqn:E; subst q; [done | by eapply so_conn | done].
  - intros c Hp. apply pending_cons in Hp as [|]; auto.
Qed.

Lemma disconnect_ok s : seg_ok s -> seg_ok (disconnect s) /\ seg_step s (disconnect s).
Proof.
  intros Hs. unfold disconnect. pose proof (so_disk _ Hs) as Hd.
  destruct (conn s) as [| q |] eqn:Ec.
  - apply seg_step_intro; cbn; try done; [| by eapply disk_step_refl | apply Hs | auto |]; unfold opens in *; rewrite Ec in *; done.
  - apply abandon_ok; [done | by rewrite Ec | done].
  - apply seg_step_intro; cbn; try done; [| by eapply disk_step_refl | apply Hs | auto |]; unfold opens in *; rewrite Ec in *; done.
Qed.

Lemma drop_broken_ok s : seg_ok s -> conn_opens (conn s) = 0%nat -> seg_ok (with_conn NoQE s) /\ seg_step s (with_conn NoQE s).
Proof.
  intros Hs Hc. pose proof (so_disk _ Hs) as Hd. unfold opens in Hd. rewrite Hc in Hd.
  apply seg_step_intro; cbn; try done; [by eapply disk_step_refl | apply Hs | auto |].
  unfold opens. rewrite Hc. done.
Qed.

Definition conn_qe (s : Segment) : QE := match conn s with Live q => q | _ => new_QE end.

Lemma conn_qe_opens s : (open_count (conn_qe s) + zombie_opens (zombies s))%nat = opens s.
Proof. unfold conn_qe, opens. by destruct (conn s). Qed.

Lemma conn_qe_ok s : seg_ok s -> qe_ok (conn_qe s).
Proof. intros Hs. unfold conn_qe. destruct (conn s) eqn:E; try done. by eapply so_conn. Qed.

Lemma after_reply_ok s r :
  seg_ok s -> exec_ok (zombie_opens (zombies s)) (conn_qe s) (disk s) r ->
  seg_ok (after_reply r s) /\ seg_step s (after_reply r s).
Proof.
  intros Hs [H1 H2 H3 H4]. destruct r as [[q d] rep]. cbn in *.
  assert (Hidle : opens s = 0%nat -> prepared (disk s) = false -> d = disk s /\ qe_open q = false /\ zombie_opens (zombies s) = 0%nat).
  { intros H0 Hp. rewrite <- conn_qe_opens in H0. unfold open_count in H0. destruct (qe_open (conn_qe s)) eqn:E; [lia |].
    destruct (H4 eq_refl Hp) as [Hq Hd]. split_and!; [done | done | lia]. }
  assert (Hlive : seg_ok (with_conn (Live q) (with_disk d s)) /\ seg_step s (with_conn (Live q) (with_disk d s))).
  { apply seg_step_intro; cbn; try done; [naive_solver | apply Hs | auto |].
    intros H0 Hp. destruct (Hidle H0 Hp) as (-> & Hq & Hz). split; [done |]. unfold opens. cbn. unfold open_count. rewrite Hq, Hz. done. }
  destruct rep; cbn; try done.
  - destruct (qe_exit_step _ _ _ H1) as [H5 H6].
    apply seg_step_intro; cbn; try done; [by eapply disk_step_trans | apply Hs | auto |].
    intros H0 Hp. destruct (Hidle H0 Hp) as (-> & Hq & Hz). unfold qe_exit, opens. rewrite Hq. cbn. done.
  - destruct Hlive as [L1 L2]. destruct (seg_restart_ok _ L1) as [R1 R2].
    destruct (drop_broken_ok _ R1) as [D1 D2]; [done |]. split; [done |].
    eapply seg_step_trans; [done |]. by eapply seg_step_trans.
Qed.

Lemma deliver_ok run cmd dl s s' ok lost :
  seg_ok s -> (forall f, exec_ok (zombie_opens (zombies s)) (conn_qe s) (disk s) (run f (conn_qe s) (disk s))) ->
  (forall c, cmd = Some c -> A c) -> deliver run cmd dl s = (s', ok, lost) -> seg_ok s' /\ seg_step s s'.
Proof.
  intros Hs Hr HA H. unfold deliver in H. fold (conn_qe s) in H.
  destruct (decide (conn s = Broken)) as [Hb | Hb].
  { rewrite Hb in H. simplify_eq. apply drop_broken_ok; [done |]. by rewrite Hb. }
  assert (Haband : forall o, (forall c, o = Some c -> A c) ->
    seg_ok (with_conn NoQE (with_zombies ((conn_qe s, o) :: zombies s) s)) /\
    seg_step s (with_conn NoQE (with_zombies ((conn_qe s, o) :: zombies s) s))).
  { intros o Ho. apply abandon_ok; [done | | done]. unfold conn_qe. by destruct (conn s). }
  assert (H' : match dl with
      | Answered f => (after_reply (run f (conn_qe s) (disk s)) s)
      | Unheard f => disconnect (after_reply (run f (conn_qe s) (disk s)) s)
      | Late => with_conn NoQE (with_zombies ((conn_qe s, cmd) :: zombies s) s)
      | Undelivered => with_conn NoQE (with_zombies ((conn_qe s, None) :: zombies s) s)
      | SegmentDown => with_conn NoQE (seg_restart s) end = s').
  { unfold conn_qe in *. destruct (conn s); [| | done]; destruct dl; simplify_eq; done. }
  clear H. subst s'. destruct dl.
  - by apply after_reply_ok.
  - destruct (after_reply_ok _ _ Hs (Hr f)) as [H1 H2]. destruct (disconnect_ok _ H1). split; [done | by eapply seg_step_trans].
  - by apply Haband.
  - by apply Haband.
  - destruct (seg_restart_ok _ Hs) as [H1 H2]. destruct (drop_broken_ok _ H1).
    { unfold seg_restart. by destruct (conn s). }
    split; [done | by eapply seg_step_trans].
Qed.

Lemma deliver_command_ok cmd dl s s' ok lost :
  seg_ok s -> A cmd -> deliver_command cmd dl s = (s', ok, lost) -> seg_ok s' /\ seg_step s s'.
Proof.
  intros Hs HA. apply deliver_ok; [done | | naive_solver]. intros f. apply perform_ok; [| by apply conn_qe_ok | done].
  rewrite conn_qe_opens. apply Hs.
Qed.

Lemma deliver_recovery_ok cmd dl s s' ok :
  seg_ok s -> A cmd -> deliver_recovery cmd dl s = (s', ok) -> seg_ok s' /\ seg_step s s'.
Proof.
  intros Hs HA H. pose proof (so_disk _ Hs) as Hd.
  assert (Hp : forall f q d r, performDtxProtocolCommand cmd f new_QE (disk s) = (q, d, r) ->
    cmd <> DTX_PROTOCOL_COMMAND_PREPARE -> seg_ok (with_disk d s) /\ seg_step s (with_disk d s)).
  { intros f q d r E _. pose proof (perform_ok (opens s) cmd f new_QE (disk s) Hd ltac:(done) HA) as [H1 H2 H3 H4].
    rewrite E in *. cbn in *. assert (Hq : qe_open q = false).
    { destruct cmd; cbn in E; unfold require in E; cbn in E; unfold performDtxProtocolCommitPrepared, performDtxProtocolAbortPrepared in E;
        repeat case_match; simplify_eq; done. }
    unfold open_count in H1. rewrite Hq in H1. apply seg_step_intro; cbn; try done; try apply Hs; [auto |].
    intros H0 Hpr. destruct (H4 eq_refl Hpr) as [_ ->]. done. }
  assert (Hp' : forall f q d r, performDtxProtocolCommand cmd f new_QE (disk s) = (q, d, r) ->
    seg_ok (with_disk d s) /\ seg_step s (with_disk d s)).
  { intros f q d r E. destruct (decide (cmd = DTX_PROTOCOL_COMMAND_PREPARE)) as [-> |]; [| by eapply Hp].
    cbn in E. simplify_eq. split; [by destruct s | by destruct s; apply seg_step_refl]. }
  destruct dl as [f | f | | |]; cbn in H.
  - destruct (performDtxProtocolCommand cmd f new_QE (disk s)) as [[q d] r] eqn:E. simplify_eq. by eapply Hp'.
  - destruct (performDtxProtocolCommand cmd f new_QE (disk s)) as [[q d] r] eqn:E. simplify_eq. by eapply Hp'.
  - simplify_eq. apply seg_step_intro; cbn; try done; try apply Hs.
    + by eapply disk_step_refl.
    + constructor; [done | apply Hs].
    + intros c Hc. apply pending_cons in Hc as [| [= <-]]; auto.
  - simplify_eq. split; [done | by apply seg_step_refl].
  - simplify_eq. by apply seg_restart_ok.
Qed.

Lemma zombie_opens_delete l k z : l !! k = Some z -> zombie_opens l = (open_count z.1 + zombie_opens (delete k l))%nat.
Proof.
  revert k. induction l as [| y l IH]; intros [| k] H; cbn in H; simplify_eq; try done.
  change (zombie_opens (delete (S k) (y :: l))) with (open_count y.1 + zombie_opens (delete k l))%nat.
  cbn [zombie_opens]. rewrite (IH _ H). lia.
Qed.

Lemma zombie_step_ok k f s :
  seg_ok s -> (forall c, pending s c -> A c) -> seg_ok (zombie_step k f s) /\ seg_step s (zombie_step k f s).
Proof.
  intros Hs HA. unfold zombie_step. destruct (zombies s !! k) as [[q cmd] |] eqn:E; [| split; [done | by apply seg_step_refl]].
  pose proof (so_disk _ Hs) as Hd. pose proof (zombie_opens_delete _ _ _ E) as Hz. cbn in Hz.
  set (n := (conn_opens (conn s) + zombie_opens (delete k (zombies s)))%nat).
  assert (Hn : opens s = (open_count q + n)%nat) by (unfold opens, n; lia). rewrite Hn in Hd.
  pose proof (so_zombies _ Hs) as Hzo.
  assert (Hq : qe_ok q) by (rewrite Forall_forall in Hzo; apply (Hzo (q, cmd)); by eapply list_elem_of_lookup_2).
  set (r := match cmd, f with Some cmd, Some f => performDtxProtocolCommand cmd f q (disk s) | _, _ => (q, disk s, RDone) end).
  assert (Hr : exec_ok n q (disk s) r).
  { unfold r. destruct cmd as [cmd |], f as [f |]; try (by apply exec_ok_same). apply perform_ok; [done | done |].
    apply HA. exists q. by eapply list_elem_of_lookup_2. }
  destruct r as [[q1 d1] rep]. destruct Hr as [H1 H2 H3 H4]. cbn in *. destruct (qe_exit_step _ _ _ H1) as [H5 H6].
  assert (Hsub : forall z, z ∈ delete k (zombies s) -> z ∈ zombies s).
  { intros z Hin. eapply elem_of_submseteq; [done |]. apply submseteq_delete. }
  assert (Hfin : seg_ok (with_zombies (delete k (zombies s)) (with_disk (qe_exit q1 d1) s)) /\
                 seg_step s (with_zombies (delete k (zombies s)) (with_disk (qe_exit q1 d1) s))).
  { apply seg_step_intro; cbn; try done.
    - by eapply disk_step_trans.
    - apply Hs.
    - rewrite Forall_forall in *. auto.
    - intros c [q' Hc]. left. exists q'. auto.
    - intros H0 Hp. rewrite Hn in H0. unfold open_count in H0. destruct (qe_open q) eqn:Eq; [lia |].
      destruct (H4 eq_refl Hp) as [Hq1 ->]. unfold qe_exit. rewrite Hq1. split; [done |]. unfold opens. cbn. unfold n in H0. lia. }
  destruct rep; try done. destruct Hfin as [F1 F2]. destruct (seg_restart_ok _ F1). split; [done | by eapply seg_step_trans].
Qed.

(** ** Queries *)

(** The connections of a session that has had no error. *)
Definition query_ok (s : Segment) : Prop :=
  if joined s then (exists q, conn s = Live q /\ qe_open q = true) \/ conn s = Broken
  else conn s = NoQE \/ conn s = Broken \/ conn s = Live new_QE.

Lemma exec_query_ok e f s :
  seg_ok s -> query_ok s -> conn s <> Broken ->
  let r := exec_query e f (conn_qe s) (disk s) in
  disk_ok (open_count r.1.1 + zombie_opens (zombies s)) r.1.2 /\ disk_step (disk s) r.1.2 /\ qe_ok r.1.1 /\
  (r.2 = RDone \/ r.2 = RError) /\ (r.2 = RDone -> qe_open r.1.1 = true).
Proof.
  intros Hs HQ Hb. pose proof (so_disk _ Hs) as Hd. rewrite <- conn_qe_opens in Hd. pose proof (conn_qe_ok _ Hs) as Hq.
  unfold query_ok in HQ. cbn. destruct (joined s) eqn:Ej.
  - destruct HQ as [(q & Hc & Ho) |]; [| done]. unfold conn_qe in *. rewrite Hc in *.
    assert (Hn : zombie_opens (zombies s) = 0%nat) by (destruct Hd; unfold open_count in *; rewrite Ho in *; lia).
    rewrite Hn in *. destruct (abort_disk_step _ _ Hd) as [A1 A2]; [unfold open_count; rewrite Ho; lia |].
    assert (Hsame : disk_step (disk s) (disk s)) by (by eapply disk_step_refl).
    unfold exec_query. destruct (setupQEDtxContext e q) as [c | rep] eqn:Es; unfold setupQEDtxContext in Es.
    + rewrite Ho, orb_true_r. assert (Hc' : c = DTX_CONTEXT_QE_TWO_PHASE_EXPLICIT_WRITER \/ c = DTX_CONTEXT_QE_TWO_PHASE_IMPLICIT_WRITER).
      { destruct (Hq Ho) as [E | E]; rewrite E in Es; [| destruct e]; simplify_eq; auto. }
      destruct f; cbn; split_and!; try done; auto; unfold qe_ok; cbn; auto.
      unfold open_count in *. cbn. by rewrite Ho in Hd.
    + assert (rep = RError) as -> by (destruct (Hq Ho) as [E | E]; rewrite E in Es; [| destruct e]; by simplify_eq).
      unfold abort_block. rewrite Ho. cbn. split_and!; try done. by right.
  - destruct (so_unjoined _ Hs Ej) as (H0 & Hdisk & _). rewrite <- conn_qe_opens in H0.
    assert (Hnew : conn_qe s = new_QE) by (unfold conn_qe; destruct HQ as [-> | [-> | ->]]; done).
    rewrite Hnew, Hdisk in *. assert (Hn : zombie_opens (zombies s) = 0%nat) by lia. rewrite Hn. cbn.
    destruct e, f; cbn; split_and!; try done; unfold qe_ok; cbn; auto; constructor; cbn; auto; done || lia.
Qed.

Lemma deliver_query_ok e w dl s s' ok lost :
  seg_ok s -> query_ok s -> deliver_query e w dl s = (s', ok, lost) ->
  seg_ok s' /\ disk_step (disk s) (disk s') /\ (forall c, pending s' c -> pending s c \/ A c) /\
  joined s' = joined s || reached dl s /\ wrote s' = wrote s || (w && reached dl s) /\
  (ok = true -> query_ok s' /\ joined s' = true).
Proof.
  intros Hs HQ H. unfold deliver_query in H. destruct (deliver (exec_query e) None dl s) as [[s1 ok1] lost1] eqn:E. simplify_eq.
  destruct (reached dl s) eqn:Er.
  - assert (Hb : conn s <> Broken) by (intros Hb; unfold reached in Er; by rewrite Hb in Er).
    unfold deliver in E. fold (conn_qe s) in E.
    assert (exists f, (dl = Answered f \/ dl = Unheard f)) as [f Hf].
    { unfold reached in Er. destruct (conn s), dl; try done; eauto. }
    destruct (exec_query_ok e f s Hs HQ Hb) as (E1 & E2 & E3 & E4 & E5).
    destruct (exec_query e f (conn_qe s) (disk s)) as [[q d] rep] eqn:Ex. cbn in *.
    assert (Hres : (after_reply (q, d, rep) s) = with_conn (Live q) (with_disk d s)) by (destruct E4 as [-> | ->]; done).
    rewrite !orb_true_r, andb_true_r. destruct Hf as [-> | ->].
    + assert (s1 = with_conn (Live q) (with_disk d s) /\ ok = match rep with RDone => true | _ => false end) as [-> ->].
      { destruct (conn s); try done; cbn in E; unfold conn_qe in *; rewrite Ex in E; simplify_eq; done. }
      cbn. split_and!; try done.
      * constructor; cbn; try done; [naive_solver | apply Hs].
      * auto.
      * intros Hok. split; [| done]. left. exists q. split; [done |]. apply E5. by destruct rep.
    + assert (s1 = disconnect (with_conn (Live q) (with_disk d s)) /\ ok = false) as [-> ->].
      { destruct (conn s); try done; cbn in E; unfold conn_qe in *; rewrite Ex in E; simplify_eq; by rewrite Hres. }
      cbn. split_and!; try done.
      * constructor; cbn; try done. constructor; [done | apply Hs].
      * intros c [q' Hc]. cbn in Hc. apply elem_of_cons in Hc as [Hc | Hc]; [by simplify_eq | left; by exists q'].
  - assert (deliver (fun _ q d => (q, d, RDone)) None dl s = (s1, ok, lost)) as E'.
    { unfold deliver in *. unfold reached in Er. destruct (conn s), dl; done. }
    destruct (deliver_ok (fun _ q d => (q, d, RDone)) None dl s s1 ok lost Hs) as [H1 H2];
      [intros f; apply exec_ok_same; [rewrite conn_qe_opens; apply Hs | by apply conn_qe_ok] | done | exact E' |].
    destruct H2 as [J W D P I]. rewrite andb_false_r, !orb_false_r. 
    assert (ok = false) as -> by (unfold deliver, reached in *; destruct (conn s), dl; simplify_eq; done).
    assert (mkSegment (conn s1) (zombies s1) (disk s1) (joined s) (wrote s) = s1) as Heq by (rewrite <- J, <- W; by destruct s1).
    rewrite Heq. by split_and!.
Qed.
End steps.

(** ** Successful answers *)

Lemma deliver_command_success cmd dl s s' lost :
  deliver_command cmd dl s = (s', true, lost) ->
  exists f q d, performDtxProtocolCommand cmd f (conn_qe s) (disk s) = (q, d, RDone) /\
                s' = with_conn (Live q) (with_disk d s) /\ lost = false.
Proof.
  unfold deliver_command, deliver, conn_qe. intros H. destruct (conn s) as [| q |], dl as [f | f | | |]; simplify_eq;
    exists f; (destruct (performDtxProtocolCommand cmd f _ (disk s)) as [[q' d] r]; cbn in *; destruct r; try done; by exists q', d).
Qed.

Lemma prepare_success dl s s' lost :
  deliver_command DTX_PROTOCOL_COMMAND_PREPARE dl s = (s', true, lost) -> prepared (disk s') = true.
Proof.
  intros (f & q & d & H & -> & _)%deliver_command_success. cbn in *.
  unfold performDtxProtocolPrepare in H. repeat case_match; by simplify_eq.
Qed.

Lemma onephase_success dl s s' lost :
  deliver_command DTX_PROTOCOL_COMMAND_COMMIT_ONEPHASE dl s = (s', true, lost) -> fate (disk s') = Some true.
Proof.
  intros (f & q & d & H & -> & _)%deliver_command_success. cbn in *.
  unfold performDtxProtocolCommitOnePhase in H. repeat case_match; by simplify_eq.
Qed.

Lemma commit_prepared_done raise f d q d' c :
  performDtxProtocolCommitPrepared raise f c d = (q, d', RDone) -> prepared d = true \/ fate d = Some true ->
  fate d' = Some true.
Proof.
  unfold performDtxProtocolCommitPrepared, FinishPreparedTransaction. intros H Hd.
  repeat case_match; simplify_eq; try done; cbn in *; destruct Hd; congruence.
Qed.

Lemma commit_success cmd dl s s' lost :
  cmd = DTX_PROTOCOL_COMMAND_COMMIT_PREPARED \/ cmd = DTX_PROTOCOL_COMMAND_RETRY_COMMIT_PREPARED ->
  deliver_command cmd dl s = (s', true, lost) -> prepared (disk s) = true \/ fate (disk s) = Some true ->
  fate (disk s') = Some true.
Proof.
  intros Hc (f & q & d & H & -> & _)%deliver_command_success Hd. cbn.
  destruct Hc as [-> | ->]; cbn in H; unfold require in H; (case_decide; [| done]); by eapply commit_prepared_done.
Qed.

Lemma recovery_commit_success dl s s' :
  deliver_recovery DTX_PROTOCOL_COMMAND_RECOVERY_COMMIT_PREPARED dl s = (s', true) ->
  prepared (disk s) = true \/ fate (disk s) = Some true -> fate (disk s') = Some true.
Proof.
  intros H Hd. destruct dl as [f | f | | |]; try (by cbn in H; repeat case_match; simplify_eq).
  change (deliver_recovery DTX_PROTOCOL_COMMAND_RECOVERY_COMMIT_PREPARED (Answered f) s) with
    (let '(_, d, r) := performDtxProtocolCommitPrepared false f DTX_CONTEXT_LOCAL_ONLY (disk s) in
     (with_disk d s, match r with RDone => true | _ => false end)) in H.
  destruct (performDtxProtocolCommitPrepared false f DTX_CONTEXT_LOCAL_ONLY (disk s)) as [[q d] r] eqn:E. destruct r; simplify_eq. cbn.
  by eapply commit_prepared_done.
Qed.
