(* ===== verification/DtxProtocol.v ===== *)
(** * Two-phase commit on the coordinator

    The session (QD) side of src/backend/cdb/cdbtm.c with its callers in
    src/backend/access/transam/xact.c, and the recovery process of
    src/backend/cdb/cdbdtxrecovery.c, for one distributed transaction [g] of the
    backend [me].  The segments are those of [DtxSegment], the shared memory and the
    log those of [DtxLog].

    A computation of the session runs against a list of events.  At each point where
    it waits for the segments or where its order relative to other processes matters,
    it takes one event: what others do meanwhile, and what the network does to the
    messages.  When no event is left the coordinator crashes there, so that the runs
    over all lists of events stop at every such point.  A computation returns, or
    raises an error at a level; [PG_TRY] catches the level ERROR only. *)
From S2P Require Import Prelude TransactionId DtxLog DtxSegment.

(** ** The world *)

Inductive elevel := ERROR | FATAL | PANIC.
Inductive Res (A : Type) := Ret (a : A) | Raise (l : elevel).
Arguments Ret {A} a.
Arguments Raise {A} l.

(** The variables of the session; the state of [MyTmGxactLocal] is in the [Proc]. *)
Record Session := mkSession {
  context : DtxContext;                (* [DistributedTransactionContext] *)
  writerGangLost : bool;
  dtxSegments : list nat;
  executorDidWriteXLog : bool;         (* [TopXactexecutorDidWriteXLog] *)
  hasXid : bool;                       (* [GetTopTransactionIdIfAny] is valid *)
  explicitBegin : bool;
  proc_exit_inprogress : bool
}.

Record World := mkWorld {
  log : Shared;
  segs : list Segment;
  sess : Session;
  clock : Z;
  inDoubt : bool;      (* [g] is in the hash table of the recovery process *)
  dtmStarted : bool    (* [shmDtmStarted] *)
}.

Definition set_log (c : Shared) (w : World) : World :=
  mkWorld c (segs w) (sess w) (clock w) (inDoubt w) (dtmStarted w).
Definition set_segs (l : list Segment) (w : World) : World :=
  mkWorld (log w) l (sess w) (clock w) (inDoubt w) (dtmStarted w).
Definition set_sess (s : Session) (w : World) : World :=
  mkWorld (log w) (segs w) s (clock w) (inDoubt w) (dtmStarted w).
Definition set_clock (t : Z) (w : World) : World :=
  mkWorld (log w) (segs w) (sess w) t (inDoubt w) (dtmStarted w).
Definition set_recovery (b st : bool) (w : World) : World :=
  mkWorld (log w) (segs w) (sess w) (clock w) b st.

Definition with_context (c : DtxContext) (s : Session) : Session :=
  mkSession c (writerGangLost s) (dtxSegments s) (executorDidWriteXLog s) (hasXid s) (explicitBegin s) (proc_exit_inprogress s).
Definition with_lost (b : bool) (s : Session) : Session :=
  mkSession (context s) b (dtxSegments s) (executorDidWriteXLog s) (hasXid s) (explicitBegin s) (proc_exit_inprogress s).
Definition with_segments (l : list nat) (s : Session) : Session :=
  mkSession (context s) (writerGangLost s) l (executorDidWriteXLog s) (hasXid s) (explicitBegin s) (proc_exit_inprogress s).
Definition with_wrote (b x : bool) (s : Session) : Session :=
  mkSession (context s) (writerGangLost s) (dtxSegments s) b x (explicitBegin s) (proc_exit_inprogress s).
Definition with_exit (b : bool) (s : Session) : Session :=
  mkSession (context s) (writerGangLost s) (dtxSegments s) (executorDidWriteXLog s) (hasXid s) (explicitBegin s) b.

(** ** Others *)

Inductive Action :=
| OtherLog (a : LogAction)                       (* another process of the coordinator *)
| ZombieStep (i k : nat) (f : option Fault)      (* a process of an earlier connection *)
| SegRestart (i : nat)                           (* a crash of a segment *)
| QEDies (i : nat)                               (* a crash of a QE *)
| OrphanGather (heard : bool)                    (* [gatherRMInDoubtTransactions] of the recovery process *)
| OrphanAbort (net : list Delivery).             (* [abortOrphanedTransactions] *)

(** An event.  [replies] are the fates of the messages of a broadcast. *)
Record Event := mkEvent {
  meanwhile : list Action;
  now : Z;
  no_gang : bool;                (* [AllocateGang] raises an error *)
  quiet : bool;                  (* a failure comes without an error message *)
  interrupt : option elevel;     (* a cancel, or a failure on the coordinator *)
  replies : list Delivery
}.

Section protocol.
Context (me : nat) (g : Z) (max_tm_gxacts gp_gxid_prefetch_num dtx_phase2_retry_second : Z).

(** Actions of the log that are not those of [me] or of the start-up. *)
Definition other_action (a : LogAction) : bool :=
  match a with
  | Activate p | Work p _ | DelayChkpt p | InsertCommit p | Inserted p | FlushCommit p
  | Notify p _ | InsertForget p | Forgotten p | EndXact p => negb (p =? me)%nat
  | Bump | BumpDone | InsertOther | FlushWal _ | CkptStart | CkptReadGxid | CkptGetVxids
  | CkptReadArray | CkptReadProc | CkptWrite => true
  | RecoverStart | RecoverForget | RecoverReset | Shutdown | Restart _ | StartupDone _ => false
  end.

Definition IsDtxInProgress (c : Shared) : bool := existsb (fun x => p_gxid x =? g) (allProcs c).

(** A broadcast of the recovery process to all segments. *)
Fixpoint recovery_broadcast (cmd : DtxProtocolCommand) (net : list Delivery) (l : list Segment) : list Segment * bool :=
  match l with
  | [] => ([], true)
  | s :: l =>
      let '(s', ok) := deliver_recovery cmd (default Undelivered (head net)) s in
      let '(l', oks) := recovery_broadcast cmd (tail net) l in
      (s' :: l', ok && oks)
  end.

Definition any_prepared (w : World) : bool := existsb (fun s => prepared (disk s)) (segs w).

Definition act (a : Action) (w : World) : World :=
  match a with
  | OtherLog a =>
      if other_action a
      then match log_step max_tm_gxacts gp_gxid_prefetch_num a (log w) with Some c => set_log c w | None => w end
      else w
  | ZombieStep i k f => set_segs (alter (zombie_step k f) i (segs w)) w
  | SegRestart i => set_segs (alter seg_restart i (segs w)) w
  | QEDies i => set_segs (alter qe_dies i (segs w)) w
  | OrphanGather heard => if dtmStarted w then set_recovery (heard && any_prepared w) true w else w
  | OrphanAbort net =>
      if dtmStarted w && inDoubt w && negb (IsDtxInProgress (log w))
      then set_recovery false true
             (set_segs (recovery_broadcast DTX_PROTOCOL_COMMAND_RECOVERY_ABORT_PREPARED net (segs w)).1 w)
      else w
  end.

Definition run_actions (l : list Action) (w : World) : World := foldl (fun w a => act a w) w l.

(** ** Computations *)

Definition M (A : Type) : Type := World -> list Event -> Res A * World * list Event.

Definition ret {A} (a : A) : M A := fun w es => (Ret a, w, es).
Definition bind {A B} (m : M A) (f : A -> M B) : M B := fun w es =>
  match m w es with
  | (Ret a, w, es) => f a w es
  | (Raise l, w, es) => (Raise l, w, es)
  end.
#[local] Notation "x <~ y ; z" := (bind y (fun x => z)) (at level 20, y at level 100, z at level 200).

Definition raise {A} (l : elevel) : M A := fun w es => (Raise l, w, es).
Definition get {A} (f : World -> A) : M A := fun w es => (Ret (f w), w, es).
Definition modify (f : World -> World) : M unit := fun w es => (Ret tt, f w, es).
Definition mlog (f : Shared -> Shared) : M unit := modify (fun w => set_log (f (log w)) w).
Definition msess (f : Session -> Session) : M unit := modify (fun w => set_sess (f (sess w)) w).

(** [PG_TRY] with a [PG_CATCH] that goes on with [h]. *)
Definition pg_try {A} (m : M A) (h : M A) : M A := fun w es =>
  match m w es with
  | (Raise ERROR, w, es) => h w es
  | r => r
  end.

(** The next event; a crash when there is none. *)
Definition next_event : M Event := fun w es =>
  match es with
  | [] => (Raise PANIC, w, [])
  | e :: es => (Ret e, set_clock (now e) (run_actions (meanwhile e) w), es)
  end.

(** Others run here. *)
Definition others : M unit := _ <~ next_event; ret tt.

(** The coordinator may fail here. *)
Definition CHECK_FOR_INTERRUPTS : M unit :=
  e <~ next_event; match interrupt e with Some ERROR => raise ERROR | Some FATAL => raise FATAL | _ => ret tt end.

Definition my_state (w : World) : DtxState :=
  match allProcs (log w) !! me with Some x => p_state x | None => DTX_STATE_NONE end.
Definition setState (s : DtxState) : M unit := mlog (setCurrentDtxState me s).

(** ** Dispatch (cdbtm.c, cdbdisp_dtx.c) *)

(** The messages to the segments [ts]: the segments after, whether all answered with
    success, whether a connection is lost. *)
Fixpoint broadcast (f : nat -> Delivery -> Segment -> Segment * bool * bool) (ts : list nat) (net : list Delivery)
    (l : list Segment) : list Segment * bool * bool :=
  match ts with
  | [] => (l, true, false)
  | t :: ts =>
      match l !! t with
      | None => let '(l', _, lost) := broadcast f ts (tail net) l in (l', false, lost)
      | Some s =>
          let '(s', ok, lost) := f t (default Undelivered (head net)) s in
          let '(l', oks, losts) := broadcast f ts (tail net) (<[t := s']> l) in
          (l', ok && oks, lost || losts)
      end
  end.

(** [AllocateGang] and the dispatch; a lost connection of the writer gang is noted
    when the gang is recycled. *)
Definition dispatch (f : nat -> Delivery -> Segment -> Segment * bool * bool) (ts : list nat) : M (Event * bool) :=
  e <~ next_event;
  if no_gang e then raise ERROR
  else
    r <~ get (fun w => broadcast f ts (replies e) (segs w));
    _ <~ modify (set_segs r.1.1);
    _ <~ (if r.2 then msess (with_lost true) else ret tt);
    ret (e, r.1.2).

Definition doDispatchDtxProtocolCommand (cmd : DtxProtocolCommand) (raiseError : bool) (ts : list nat) : M bool :=
  match ts with
  | [] => ret true
  | _ =>
      r <~ dispatch (fun _ => deliver_command cmd) ts;
      if negb r.2 && raiseError && negb (quiet r.1) then raise ERROR else ret r.2
  end.

Definition currentDtxDispatchProtocolCommand (cmd : DtxProtocolCommand) (raiseError : bool) : M bool :=
  ts <~ get (fun w => dtxSegments (sess w)); doDispatchDtxProtocolCommand cmd raiseError ts.

Definition ResetAllGangs : M unit := modify (fun w => set_segs (disconnect <$> segs w) w).

(** ** Commit *)

Definition doPrepareTransaction : M unit :=
  _ <~ CHECK_FOR_INTERRUPTS;
  _ <~ setState DTX_STATE_PREPARING;
  succeeded <~ currentDtxDispatchProtocolCommand DTX_PROTOCOL_COMMAND_PREPARE true;
  if succeeded then setState DTX_STATE_PREPARED else raise ERROR.

Definition doInsertForgetCommitted : M unit :=
  _ <~ mlog (fun c => RecordDistributedForgetCommitted (gxid_of me c)
                       (setCurrentDtxState me DTX_STATE_INSERTING_FORGET_COMMITTED c));
  _ <~ others;
  mlog (fun c => set_includeInCkpt me false (setCurrentDtxState me DTX_STATE_INSERTED_FORGET_COMMITTED c)).

Definition doNotifyingOnePhaseCommit : M unit :=
  ts <~ get (fun w => dtxSegments (sess w));
  match ts with
  | [] => ret tt
  | _ =>
      _ <~ setState DTX_STATE_NOTIFYING_ONE_PHASE_COMMIT;
      succeeded <~ currentDtxDispatchProtocolCommand DTX_PROTOCOL_COMMAND_COMMIT_ONEPHASE true;
      if succeeded then ret tt else raise ERROR
  end.

Definition broadcast_or_false (cmd : DtxProtocolCommand) : M bool :=
  pg_try (currentDtxDispatchProtocolCommand cmd true) (ret false).

(** The loop of [doNotifyingCommitPrepared].  Each round takes an event, so that the
    number of events is enough fuel. *)
Fixpoint commit_retry (fuel : nat) (start : Z) (timedout : bool) : M bool :=
  if timedout then ret false
  else match fuel with
       | O => raise PANIC
       | S fuel =>
           _ <~ ResetAllGangs;
           succeeded <~ broadcast_or_false DTX_PROTOCOL_COMMAND_RETRY_COMMIT_PREPARED;
           t <~ get clock;
           if succeeded then ret true
           else commit_retry fuel start (dtx_phase2_retry_second <? t - start)
       end.

Definition with_fuel {A} (m : nat -> M A) : M A := fun w es => m (S (length es)) w es.

Definition doNotifyingCommitPrepared : M unit :=
  _ <~ setState DTX_STATE_NOTIFYING_COMMIT_PREPARED;
  succeeded <~ broadcast_or_false DTX_PROTOCOL_COMMAND_COMMIT_PREPARED;
  start <~ get clock;
  succeeded <~ (if succeeded then ret true
               else _ <~ setState DTX_STATE_RETRY_COMMIT_PREPARED;
                    _ <~ msess (with_context DTX_CONTEXT_QD_RETRY_PHASE_2);
                    with_fuel (fun n => commit_retry n start (dtx_phase2_retry_second =? 0)));
  if succeeded then doInsertForgetCommitted else raise PANIC.

Definition isCurrentDtxActivated (w : World) : bool := negb (bool_decide (my_state w = DTX_STATE_NONE)).

(** [resetTmGxact], on the variables of the session. *)
Definition resetTmGxact (s : Session) : Session :=
  mkSession (context s) false [] (executorDidWriteXLog s) (hasXid s) false (proc_exit_inprogress s).

Definition prepareDtxTransaction : M unit :=
  w <~ get id;
  let s := sess w in
  if negb (bool_decide (context s = DTX_CONTEXT_QD_DISTRIBUTED_CAPABLE)) then ret tt
  else if negb (isCurrentDtxActivated w) then msess resetTmGxact
  else if negb (executorDidWriteXLog s) || (negb (hasXid s) && (length (dtxSegments s) <? 2)%nat)
  then _ <~ setState DTX_STATE_ONE_PHASE_COMMIT; doNotifyingOnePhaseCommit
  else doPrepareTransaction.

(** The insertion of the commit record by [XactLogCommitRecord]. *)
Definition XactLogCommitRecord (isDtxPrepared : bool) : M unit :=
  if isDtxPrepared then
    _ <~ mlog (fun c => XLogInsert (XLOG_XACT_DISTRIBUTED_COMMIT (gxid_of me c)) (insertingDistributedCommitted me c));
    _ <~ others;
    mlog (insertedDistributedCommitted me)
  else mlog (XLogInsert XLOG_OTHER).

Definition RecordTransactionCommit : M unit :=
  w <~ get id;
  let markXidCommitted := hasXid (sess w) in
  let isDtxPrepared := bool_decide (my_state w = DTX_STATE_PREPARED) in
  if isDtxPrepared then
    _ <~ mlog (set_delayChkpt me true);
    _ <~ others;
    _ <~ XactLogCommitRecord true;
    _ <~ others;
    _ <~ mlog (fun c => set_delayChkpt me false
                (XLogFlush (record_end (XLOG_XACT_DISTRIBUTED_COMMIT (gxid_of me c)) (wal c)) c));
    others
  else if markXidCommitted then
    _ <~ XactLogCommitRecord false;
    _ <~ others;
    mlog (fun c => XLogFlush (length (wal c)) c)
  else ret tt.

Definition notifyCommittedDtxTransactionIsNeeded (w : World) : bool :=
  bool_decide (context (sess w) = DTX_CONTEXT_QD_DISTRIBUTED_CAPABLE) && isCurrentDtxActivated w.

Definition notifyCommittedDtxTransaction : M unit :=
  w <~ get id;
  match my_state w with
  | DTX_STATE_INSERTED_COMMITTED => doNotifyingCommitPrepared
  | DTX_STATE_NOTIFYING_ONE_PHASE_COMMIT | DTX_STATE_ONE_PHASE_COMMIT => ret tt
  | _ => raise (if hasXid (sess w) then PANIC else ERROR)
  end.

Definition ProcArrayEndTransaction : M unit :=
  _ <~ mlog (ProcArrayEndGxact me); msess resetTmGxact.

Definition finishDistributedTransactionContext : M unit :=
  st <~ get my_state;
  if bool_decide (st = DTX_STATE_NONE) || bool_decide (st = DTX_STATE_RETRY_COMMIT_PREPARED)
     || bool_decide (st = DTX_STATE_RETRY_ABORT_PREPARED)
  then msess (with_context DTX_CONTEXT_LOCAL_ONLY)
  else raise FATAL.

Definition CommitTransaction : M unit :=
  _ <~ CHECK_FOR_INTERRUPTS;
  _ <~ prepareDtxTransaction;
  _ <~ CHECK_FOR_INTERRUPTS;
  _ <~ RecordTransactionCommit;
  needed <~ get notifyCommittedDtxTransactionIsNeeded;
  _ <~ (if needed then notifyCommittedDtxTransaction else ret tt);
  _ <~ ProcArrayEndTransaction;
  finishDistributedTransactionContext.

(** ** Abort *)

(** The loop of [retryAbortPrepared]. *)
Fixpoint abort_retry (fuel : nat) (start : Z) (timedout : bool) : M bool :=
  if timedout then ret false
  else match fuel with
       | O => raise PANIC
       | S fuel =>
           _ <~ ResetAllGangs;
           all <~ get (fun w => seq 0 (length (segs w)));
           _ <~ msess (with_segments all);
           succeeded <~ broadcast_or_false DTX_PROTOCOL_COMMAND_RETRY_ABORT_PREPARED;
           t <~ get clock;
           if succeeded then ret true
           else abort_retry fuel start (dtx_phase2_retry_second <? t - start)
       end.

Definition retryAbortPrepared : M unit :=
  start <~ get clock;
  succeeded <~ with_fuel (fun n => abort_retry n start (dtx_phase2_retry_second =? 0));
  if succeeded then ret tt else ResetAllGangs.

Definition doNotifyingAbort : M unit :=
  st <~ get my_state;
  match st with
  | DTX_STATE_NOTIFYING_ABORT_NO_PREPARED =>
      succeeded <~ currentDtxDispatchProtocolCommand DTX_PROTOCOL_COMMAND_ABORT_NO_PREPARED false;
      if succeeded then ret tt else ResetAllGangs
  | DTX_STATE_NOTIFYING_ABORT_SOME_PREPARED | DTX_STATE_NOTIFYING_ABORT_PREPARED =>
      succeeded <~ broadcast_or_false
        (if bool_decide (st = DTX_STATE_NOTIFYING_ABORT_SOME_PREPARED)
         then DTX_PROTOCOL_COMMAND_ABORT_SOME_PREPARED else DTX_PROTOCOL_COMMAND_ABORT_PREPARED);
      if succeeded then ret tt
      else _ <~ setState DTX_STATE_RETRY_ABORT_PREPARED;
           _ <~ msess (with_context DTX_CONTEXT_QD_RETRY_PHASE_2);
           retryAbortPrepared
  | DTX_STATE_RETRY_ABORT_PREPARED => retryAbortPrepared
  | _ => raise PANIC
  end.

(** The end of [rollbackDtxTransaction], once it has chosen the state of the abort. *)
Definition notify_abort : M unit :=
  w <~ get id;
  if proc_exit_inprogress (sess w)
  then match my_state w with
       | DTX_STATE_NOTIFYING_ABORT_SOME_PREPARED | DTX_STATE_RETRY_ABORT_PREPARED
       | DTX_STATE_NOTIFYING_ABORT_PREPARED => raise FATAL
       | _ => ResetAllGangs
       end
  else doNotifyingAbort.

Definition rollbackDtxTransaction : M unit :=
  w <~ get id;
  let s := sess w in
  if negb (bool_decide (context s = DTX_CONTEXT_QD_DISTRIBUTED_CAPABLE)) then ret tt
  else if negb (isCurrentDtxActivated w) then ret tt
  else match my_state w with
  | DTX_STATE_ACTIVE_DISTRIBUTED | DTX_STATE_ONE_PHASE_COMMIT | DTX_STATE_NOTIFYING_ONE_PHASE_COMMIT =>
      if bool_decide (dtxSegments s = []) || writerGangLost s then ret tt
      else _ <~ setState DTX_STATE_NOTIFYING_ABORT_NO_PREPARED; notify_abort
  | DTX_STATE_PREPARING =>
      _ <~ setState (if writerGangLost s then DTX_STATE_RETRY_ABORT_PREPARED
                    else DTX_STATE_NOTIFYING_ABORT_SOME_PREPARED);
      notify_abort
  | DTX_STATE_PREPARED => _ <~ setState DTX_STATE_NOTIFYING_ABORT_PREPARED; notify_abort
  | DTX_STATE_NOTIFYING_ABORT_NO_PREPARED => ResetAllGangs
  | DTX_STATE_NOTIFYING_ABORT_SOME_PREPARED | DTX_STATE_NOTIFYING_ABORT_PREPARED => raise FATAL
  | DTX_STATE_NOTIFYING_COMMIT_PREPARED | DTX_STATE_INSERTING_COMMITTED | DTX_STATE_INSERTED_COMMITTED
  | DTX_STATE_INSERTING_FORGET_COMMITTED | DTX_STATE_INSERTED_FORGET_COMMITTED
  | DTX_STATE_RETRY_COMMIT_PREPARED | DTX_STATE_RETRY_ABORT_PREPARED => ret tt
  | DTX_STATE_NONE => raise PANIC
  end.

Definition AtAbort_DispatcherState : M unit :=
  lost <~ get (fun w => writerGangLost (sess w)); if lost then ResetAllGangs else ret tt.

Definition AbortTransaction : M unit :=
  _ <~ AtAbort_DispatcherState;
  _ <~ rollbackDtxTransaction;
  ProcArrayEndTransaction.

Definition CleanupTransaction : M unit := finishDistributedTransactionContext.

(** ** A transaction of the session *)

(** A command that is dispatched: to which segments, which of them write, and whether
    the coordinator gets a local transaction id. *)
Record Query := mkQuery { q_segments : list nat; q_writers : list nat; q_xid : bool }.

Definition addToGxactDtxSegments (ts : list nat) (s : Session) : Session :=
  with_segments (dtxSegments s ++ filter (fun t => t ∉ dtxSegments s) (remove_dups ts)) s.

Definition run_query (q : Query) : M unit :=
  _ <~ CHECK_FOR_INTERRUPTS;
  _ <~ msess (addToGxactDtxSegments (q_segments q));
  e <~ get (fun w => explicitBegin (sess w));
  r <~ dispatch (fun t => deliver_query e (bool_decide (t ∈ q_writers q))) (remove_dups (q_segments q));
  if r.2 then
    msess (fun s => with_wrote (executorDidWriteXLog s || existsb (fun t => bool_decide (t ∈ q_writers q)) (q_segments q))
                      (hasXid s || q_xid q) s)
  else raise ERROR.

Fixpoint run_queries (qs : list Query) : M unit :=
  match qs with [] => ret tt | q :: qs => _ <~ run_query q; run_queries qs end.

(** The exit of the backend: [ShutdownPostgres] aborts, [ProcArrayRemove] takes it out
    of the process array, the connections are closed. *)
Definition proc_exit : M unit := fun w es =>
  let w := set_sess (with_exit true (sess w)) w in
  let leave w es := (Ret tt, set_segs (disconnect <$> segs w) (set_log (ProcArrayEndGxact me (log w)) w), es) in
  match AbortTransaction w es with
  | (Raise PANIC, w, es) => (Raise PANIC, w, es)
  | (_, w, es) => leave w es
  end.

(** The error handling of [PostgresMain]; an error during the abort leads to another
    abort (such an abort took an event, so the number of events is fuel enough). *)
Definition on_fatal (m : M unit) : M unit := fun w es =>
  match m w es with
  | (Raise FATAL, w, es) => proc_exit w es
  | r => r
  end.

Definition AbortCurrentTransaction : M unit := _ <~ AbortTransaction; CleanupTransaction.

Fixpoint abort_until_done (fuel : nat) : M unit :=
  match fuel with
  | O => raise PANIC
  | S fuel => pg_try AbortCurrentTransaction (abort_until_done fuel)
  end.

Definition session_transaction (qs : list Query) (commit : bool) : M unit :=
  on_fatal (pg_try (_ <~ run_queries qs; if commit then CommitTransaction else AbortCurrentTransaction)
                   (with_fuel abort_until_done)).

(** ** Recovery (cdbdtxrecovery.c) *)

(** The commit notifications and forget records of [recoverInDoubtTransactions]; the
    notification of another transaction does nothing here but succeed or fail. *)
Fixpoint recover_committed (n : nat) : M unit :=
  match n with
  | O => ret tt
  | S n =>
      c <~ get log;
      match shmCommittedGxidArray c !! recovered c with
      | None => ret tt
      | Some x =>
          e <~ next_event;
          ok <~ (if x =? g
                then r <~ get (fun w => recovery_broadcast DTX_PROTOCOL_COMMAND_RECOVERY_COMMIT_PREPARED (replies e) (segs w));
                     _ <~ modify (set_segs r.1); ret r.2
                else ret (negb (quiet e)));
          if ok then
            _ <~ mlog (fun c => with_array (shmCommittedGxidArray c) (S (recovered c)) (RecordDistributedForgetCommitted x c));
            recover_committed n
          else raise FATAL
      end
  end.

(** [gatherRMInDoubtTransactions] with [raiseError], then [abortRMInDoubtTransactions]. *)
Definition recoverInDoubtTransactions : M unit :=
  _ <~ mlog (fun c => with_array (shmCommittedGxidArray c) 0 c);
  n <~ get (fun w => length (shmCommittedGxidArray (log w)));
  _ <~ recover_committed n;
  _ <~ mlog (with_array [] 0);
  e <~ next_event;
  if no_gang e then raise ERROR
  else
    found <~ get (fun w => negb (quiet e) && any_prepared w);
    if found then
      e <~ next_event;
      r <~ get (fun w => recovery_broadcast DTX_PROTOCOL_COMMAND_RECOVERY_ABORT_PREPARED (replies e) (segs w));
      modify (set_segs r.1)
    else ret tt.

Definition recoverTM : M unit :=
  _ <~ others;
  _ <~ recoverInDoubtTransactions;
  modify (set_recovery false true).

(** ** Histories *)

(** A crash of the coordinator that kept [cut] records of the log, and its start-up:
    the session is gone, its QEs are alone. *)
Definition coordinator_crash (cut : nat) (ckpt_at_end : bool) (w : World) : option World :=
  c ← log_step max_tm_gxacts gp_gxid_prefetch_num (Restart cut) (log w);
  c ← log_step max_tm_gxacts gp_gxid_prefetch_num (StartupDone ckpt_at_end) c;
  Some (mkWorld c (disconnect <$> segs w)
          (mkSession DTX_CONTEXT_LOCAL_ONLY false [] false false false false) (clock w) false false).

(** The start of a distributed transaction: after any run from a new cluster that
    leaves nothing to recover, [me] takes a gxid. *)
Definition start_transaction (nprocs nsegs : nat) (explicit : bool) (acts : list LogAction) : option World :=
  c ← log_run max_tm_gxacts gp_gxid_prefetch_num acts (BootStrapXLOG nprocs);
  c ← log_step max_tm_gxacts gp_gxid_prefetch_num (Activate me) c;
  if bool_decide (shmCommittedGxidArray c = []) then
    Some (mkWorld c (replicate nsegs new_segment)
            (mkSession DTX_CONTEXT_QD_DISTRIBUTED_CAPABLE false [] false false explicit false) 0 false true)
  else None.

(** All that can happen: the session runs, or as much of it as there are events before
    a crash; then others act, the coordinator crashes and recovers, any number of
    times, completely or not. *)
Inductive reach (w0 : World) : World -> Prop :=
| reach_session qs commit es r w es' :
    session_transaction qs commit w0 es = (r, w, es') -> reach w0 w
| reach_act a w : reach w0 w -> reach w0 (act a w)
| reach_crash cut b w w' : reach w0 w -> coordinator_crash cut b w = Some w' -> reach w0 w'
| reach_recover es r w w' es' :
    reach w0 w -> dtmStarted w = false -> recoverTM w es = (r, w', es') -> reach w0 w'.

(** ** Fuel *)

(** A computation takes events, at least one if it ends in an error that can be
    caught. *)
Definition takes_events {A} (m : M A) : Prop := forall w es,
  match m w es with
  | (Raise ERROR, _, es') => (length es' < length es)%nat
  | (_, _, es') => (length es' <= length es)%nat
  end.

Lemma takes_bind {A B} (m : M A) (k : A -> M B) : takes_events m -> (forall a, takes_events (k a)) -> takes_events (bind m k).
Proof.
  intros Hm Hk w es. unfold bind. specialize (Hm w es). destruct (m w es) as [[[a | l] w'] es']; [| done].
  specialize (Hk a w' es'). destruct (k a w' es') as [[[b | []] w2] es2]; lia.
Qed.

Lemma takes_try {A} (m h : M A) : takes_events m -> takes_events h -> takes_events (pg_try m h).
Proof.
  intros Hm Hh w es. unfold pg_try. specialize (Hm w es). destruct (m w es) as [[[a | []] w'] es']; try done.
  specialize (Hh w' es'). destruct (h w' es') as [[[b | []] w2] es2]; lia.
Qed.

Lemma takes_ret {A} (a : A) : takes_events (ret a).
Proof. intros w es. cbn. lia. Qed.
Lemma takes_get {A} (f : World -> A) : takes_events (get f).
Proof. intros w es. cbn. lia. Qed.
Lemma takes_modify f : takes_events (modify f).
Proof. intros w es. cbn. lia. Qed.
Lemma takes_raise {A} l : l <> ERROR -> takes_events (@raise A l).
Proof. intros Hl w es. destruct l; cbn; done || lia. Qed.

Create HintDb takes.
#[local] Hint Resolve takes_bind takes_try takes_ret takes_get takes_modify takes_raise : takes.

(** A dispatch takes an event, whatever becomes of it. *)
Lemma dispatch_event f ts w es :
  match dispatch f ts w es with
  | (Raise PANIC, _, es') => es' = es /\ es = []
  | (_, _, es') => (length es' < length es)%nat
  end.
Proof.
  unfold dispatch, bind, next_event. destruct es as [| e es]; [done |]. cbn. destruct (no_gang e); cbn; [lia |].
  unfold get, modify, msess, ret. destruct (broadcast _ _ _ _) as [[l ok] []]; cbn; lia.
Qed.

Lemma takes_command cmd raiseError : takes_events (currentDtxDispatchProtocolCommand cmd raiseError).
Proof.
  apply takes_bind; [apply takes_get |]. intros [| t ts]; [apply takes_ret |]. intros w es.
  unfold doDispatchDtxProtocolCommand, bind. pose proof (dispatch_event (fun _ => deliver_command cmd) (t :: ts) w es) as H.
  destruct (dispatch _ _ w es) as [[[[e ok] | []] w'] es']; try lia; [| by destruct H as [-> _]].
  destruct (negb (e, ok).2 && raiseError && negb (quiet (e, ok).1)); cbn; lia.
Qed.

(** A broadcast that fails took an event. *)
Lemma failed_broadcast_event cmd w es w' es' :
  broadcast_or_false cmd w es = (Ret false, w', es') -> (length es' < length es)%nat.
Proof.
  unfold broadcast_or_false, pg_try, currentDtxDispatchProtocolCommand, bind, get.
  destruct (dtxSegments (sess w)) as [| t ts]; [done |].
  unfold doDispatchDtxProtocolCommand, bind. pose proof (dispatch_event (fun _ => deliver_command cmd) (t :: ts) w es) as H.
  destruct (dispatch _ _ w es) as [[[[e ok] | []] w1] es1]; try (by intros [= <- <-]); try done.
  destruct (negb (e, ok).2 && true && negb (quiet (e, ok).1)); [by intros [= <- <-] | by intros [= -> <- <-]].
Qed.

Lemma takes_broadcast cmd : takes_events (broadcast_or_false cmd).
Proof. apply takes_try; [apply takes_command | apply takes_ret]. Qed.
#[local] Hint Resolve takes_command takes_broadcast : takes.

(** More fuel than events changes nothing. *)
Lemma commit_retry_fuel n start timedout w es :
  (length es < n)%nat -> commit_retry n start timedout w es = commit_retry (S n) start timedout w es.
Proof.
  revert timedout w es. induction n as [| n IH]; intros timedout w es Hn; [lia |]. destruct timedout; [done |].
  cbn [commit_retry]. unfold bind, ResetAllGangs, modify, get, ret.
  set (w1 := set_segs (disconnect <$> segs w) w). pose proof (failed_broadcast_event DTX_PROTOCOL_COMMAND_RETRY_COMMIT_PREPARED w1 es) as Hb.
  destruct (broadcast_or_false _ w1 es) as [[[[|] | l] w2] es2]; [done | | done]. apply IH. specialize (Hb _ _ eq_refl). lia.
Qed.

Lemma abort_retry_fuel n start timedout w es :
  (length es < n)%nat -> abort_retry n start timedout w es = abort_retry (S n) start timedout w es.
Proof.
  revert timedout w es. induction n as [| n IH]; intros timedout w es Hn; [lia |]. destruct timedout; [done |].
  cbn [abort_retry]. unfold bind, ResetAllGangs, modify, msess, get, ret, modify.
  match goal with |- context [broadcast_or_false ?c ?w1 es] => pose proof (failed_broadcast_event c w1 es) as Hb;
    destruct (broadcast_or_false c w1 es) as [[[[|] | l] w2] es2] end; [done | | done]. apply IH. specialize (Hb _ _ eq_refl). lia.
Qed.

Lemma takes_abort_retry n start timedout : takes_events (abort_retry n start timedout).
Proof.
  revert timedout. induction n as [| n IH]; intros [|]; cbn [abort_retry]; auto with takes; try (by apply takes_raise).
  apply takes_bind; [apply takes_modify |]. intros _. apply takes_bind; [apply takes_get |]. intros all.
  apply takes_bind; [apply takes_modify |]. intros _. apply takes_bind; [apply takes_broadcast |]. intros ok.
  apply takes_bind; [apply takes_get |]. intros t. destruct ok; auto with takes.
Qed.

Lemma takes_rollback : takes_events rollbackDtxTransaction.
Proof.
  assert (Hretry : takes_events retryAbortPrepared).
  { apply takes_bind; [apply takes_get |]. intros start. apply takes_bind; [| intros []; [apply takes_ret | apply takes_modify]].
    intros w es. exact (takes_abort_retry _ _ _ w es). }
  assert (Hnotify : takes_events notify_abort).
  { apply takes_bind; [apply takes_get |]. intros w1. destruct (proc_exit_inprogress (sess w1)).
    - destruct (my_state w1); first [apply takes_modify | by apply takes_raise].
    - apply takes_bind; [apply takes_get |]. intros st. destruct st; try (by apply takes_raise); try exact Hretry;
        (apply takes_bind; [auto with takes | intros []; try apply takes_ret; try apply takes_modify]);
        (apply takes_bind; [apply takes_modify | intros _]; apply takes_bind; [apply takes_modify | intros _; exact Hretry]). }
  assert (Hset : forall st, takes_events (_ <~ setState st; notify_abort)).
  { intros st. apply takes_bind; [apply takes_modify | intros _; exact Hnotify]. }
  apply takes_bind; [apply takes_get |]. intros w1. cbv zeta. destruct (negb _); [apply takes_ret |]. destruct (negb _); [apply takes_ret |].
  destruct (my_state w1); try apply takes_ret; try (by apply takes_raise); try apply takes_modify; try apply Hset;
    (destruct (_ || _); [apply takes_ret | apply Hset]).
Qed.

Lemma takes_abort : takes_events AbortCurrentTransaction.
Proof.
  apply takes_bind.
  - apply takes_bind; [apply takes_bind; [apply takes_get | intros []; [apply takes_modify | apply takes_ret]] |]. intros _.
    apply takes_bind; [apply takes_rollback |]. intros _. apply takes_bind; [apply takes_modify | intros _; apply takes_modify].
  - intros _. apply takes_bind; [apply takes_get |]. intros st. destruct (_ || _); [apply takes_modify | by apply takes_raise].
Qed.

Lemma abort_until_done_fuel n w es :
  (length es < n)%nat -> abort_until_done n w es = abort_until_done (S n) w es.
Proof.
  revert w es. induction n as [| n IH]; intros w es Hn; [lia |].
  change (pg_try AbortCurrentTransaction (abort_until_done n) w es = pg_try AbortCurrentTransaction (abort_until_done (S n)) w es).
  unfold pg_try. pose proof (takes_abort w es) as H. destruct (AbortCurrentTransaction w es) as [[[a | []] w'] es']; try done.
  apply IH. lia.
Qed.
End protocol.
