(* ===== verification/DtxAtomicity.v ===== *)
(** * Distributed transactions are atomic

    The proofs about [DtxProtocol].  [Inv] is an invariant of all that can happen to a
    distributed transaction: it says what the disks of the segments, the commands that
    are still on their way and the log of the coordinator have to do with each other.
    Everything keeps it: the session with its errors, the processes of lost
    connections, crashes of segments, of QEs and of the coordinator, and recovery. *)
From S2P Require Import Prelude TransactionId DtxLog DtxSegment DtxProtocol.

Section atomicity.
Context (me : nat) (g : Z) (max_tm_gxacts gp_gxid_prefetch_num dtx_phase2_retry_second : Z).
Hypothesis Hprefetch : 0 < gp_gxid_prefetch_num < 2 ^ 31.

Notation linv := (log_inv gp_gxid_prefetch_num).
Notation lstep := (log_step max_tm_gxacts gp_gxid_prefetch_num).
Notation act := (act me g max_tm_gxacts gp_gxid_prefetch_num).

(** ** The invariant *)

Definition mine (c : Shared) (x : Proc) : Prop := allProcs c !! me = Some x.

Definition can_commit (s : DtxState) : bool :=
  match s with
  | DTX_STATE_ACTIVE_DISTRIBUTED | DTX_STATE_ONE_PHASE_COMMIT | DTX_STATE_NOTIFYING_ONE_PHASE_COMMIT
  | DTX_STATE_PREPARING | DTX_STATE_PREPARED => true
  | _ => false
  end.

(** The commit record is on disk. *)
Definition durable (c : Shared) : Prop := com (take (flushed c) (wal c)) g.

(** There is no commit record and there will be none. *)
Definition hopeless (c : Shared) : Prop :=
  ~ com (wal c) g /\ forall x, mine c x -> p_gxid x = g -> can_commit (p_state x) = false.

Definition all_committed (l : list Segment) : Prop :=
  forall s, s ∈ l -> joined s = true -> fate (disk s) = Some true.

Definition few_writers (l : list Segment) : Prop :=
  forall i j s t, l !! i = Some s -> l !! j = Some t -> wrote s = true -> wrote t = true -> i = j.

(** The transaction commits in one phase, if at all. *)
Definition onephase (w : World) : Prop :=
  few_writers (segs w) /\
  forall x, mine (log w) x -> p_gxid x = g -> p_state x <> DTX_STATE_ACTIVE_DISTRIBUTED.

(** The commands that may be on their way. *)
Definition allowed (w : World) (c : DtxProtocolCommand) : Prop :=
  match c with
  | DTX_PROTOCOL_COMMAND_COMMIT_ONEPHASE => onephase w
  | DTX_PROTOCOL_COMMAND_COMMIT_PREPARED | DTX_PROTOCOL_COMMAND_RETRY_COMMIT_PREPARED
  | DTX_PROTOCOL_COMMAND_RECOVERY_COMMIT_PREPARED => durable (log w)
  | DTX_PROTOCOL_COMMAND_ABORT_SOME_PREPARED | DTX_PROTOCOL_COMMAND_ABORT_PREPARED
  | DTX_PROTOCOL_COMMAND_RETRY_ABORT_PREPARED | DTX_PROTOCOL_COMMAND_RECOVERY_ABORT_PREPARED =>
      hopeless (log w) \/ (durable (log w) /\ all_committed (segs w))
  | DTX_PROTOCOL_COMMAND_ABORT_NO_PREPARED | DTX_PROTOCOL_COMMAND_PREPARE => True
  end.

Definition ready (l : list Segment) : Prop :=
  forall s, s ∈ l -> joined s = true -> prepared (disk s) = true \/ fate (disk s) = Some true.

Definition committing (c : Shared) : Prop :=
  com (wal c) g \/ exists x, mine c x /\ p_gxid x = g /\ p_state x = DTX_STATE_PREPARED.

Record Inv (w : World) : Prop := {
  iv_log : linv (log w);
  iv_phase : phase (log w) = Running;
  iv_g : 0 < g < nextGxid (log w);
  iv_owner : forall p x, allProcs (log w) !! p = Some x -> p_gxid x = g -> p = me;
  iv_segs : forall s, s ∈ segs w -> seg_ok s;
  iv_true : forall s, s ∈ segs w -> fate (disk s) = Some true -> durable (log w) \/ onephase w;
  iv_ready : committing (log w) -> ready (segs w);
  iv_forg : forg (wal (log w)) g -> durable (log w) /\ all_committed (segs w);
  iv_pend : forall s c, s ∈ segs w -> pending s c -> allowed w c;
  iv_arr : g ∈ shmCommittedGxidArray (log w) -> durable (log w);
  iv_started : dtmStarted w = true -> shmCommittedGxidArray (log w) = [];
  iv_down : dtmStarted w = false -> forall x, mine (log w) x -> p_gxid x <> g
}.

(** ** The log *)

Lemma take_flushed_mono w v f f' :
  (f <= f')%nat -> com (take f w) g -> com (take f' (w ++ v)) g.
Proof.
  intros Hf H. apply (com_take f). rewrite take_take, Nat.min_l by done.
  destruct (decide (f <= length w)%nat) as [Hl | Hl]; [by rewrite take_app_le |].
  rewrite take_ge in H by lia. rewrite take_app. apply com_app. left. by rewrite take_ge by lia.
Qed.

(** What another process may do to the log. *)
Record other_step (c c' : Shared) : Prop := {
  ot_wal : exists v, wal c' = wal c ++ v /\ ~ com v g /\ ~ forg v g;
  ot_flushed : (flushed c <= flushed c')%nat;
  ot_mine : allProcs c' !! me = allProcs c !! me;
  ot_owner : forall p x, allProcs c' !! p = Some x -> p_gxid x = g -> p = me;
  ot_next : nextGxid c <= nextGxid c';
  ot_array : shmCommittedGxidArray c' = shmCommittedGxidArray c;
  ot_recovered : recovered c' = recovered c;
  ot_phase : phase c' = Running
}.

Lemma same_wal (w w' : list WalRecord) : w' = w -> exists v, w' = w ++ v /\ ~ com v g /\ ~ forg v g.
Proof. intros ->. exists []. rewrite app_nil_r. split_and!; [done | apply com_nil | apply forg_nil]. Qed.

Lemma one_record (w w' : list WalRecord) r :
  w' = w ++ [r] -> r <> XLOG_XACT_DISTRIBUTED_COMMIT g -> r <> XLOG_XACT_DISTRIBUTED_FORGET g ->
  exists v, w' = w ++ v /\ ~ com v g /\ ~ forg v g.
Proof. intros -> H1 H2. exists [r]. split_and!; [done | |]; by intros ?%list_elem_of_singleton. Qed.

(** A change of a backend that is not [me] and that does not take a gxid. *)
Lemma alter_other c p f :
  p <> me -> (forall p x, allProcs c !! p = Some x -> p_gxid x = g -> p = me) -> 0 < g ->
  (forall x, p_gxid (f x) = p_gxid x \/ p_gxid (f x) <> g) ->
  alter f p (allProcs c) !! me = allProcs c !! me /\
  forall q x, alter f p (allProcs c) !! q = Some x -> p_gxid x = g -> q = me.
Proof.
  intros Hp Ho Hg Hf. split; [by rewrite list_lookup_alter_ne |]. intros q x Hq Hx.
  destruct (decide (p = q)) as [<- | Hne].
  - rewrite list_lookup_alter_eq in Hq. destruct (allProcs c !! p) as [y |] eqn:E; [| done]. cbn in Hq. simplify_eq.
    destruct (Hf y) as [H | H]; [| congruence]. eapply Ho; [done | congruence].
  - rewrite list_lookup_alter_ne in Hq by done. by eapply Ho.
Qed.

Lemma alter_twice {A} (f h : A -> A) (l : list A) p : alter f p (alter h p l) = alter (fun x => f (h x)) p l.
Proof. revert p. induction l as [| x l IH]; intros [| p]; cbn; try done. f_equal. apply IH. Qed.

Lemma gxid_of_other c p :
  p <> me -> (forall p x, allProcs c !! p = Some x -> p_gxid x = g -> p = me) -> 0 < g -> gxid_of p c <> g.
Proof.
  intros Hp Ho Hg. unfold gxid_of. destruct (allProcs c !! p) eqn:E; [| unfold InvalidDistributedTransactionId; lia].
  intros H. by apply (Ho _ _ E) in H.
Qed.

Lemma proc_other_step a c c' :
  other_action me a = true -> proc_action a c = Some c' -> linv c ->
  (forall p x, allProcs c !! p = Some x -> p_gxid x = g -> p = me) -> 0 < g < nextGxid c ->
  lstep a c = Some c' -> other_step c c'.
Proof.
  intros Ha Hp HI Ho Hg Hst. pose proof (step_next _ _ _ _ _ Hprefetch HI Hst) as Hn.
  assert (Hcase : exists p f, p <> me /\ allProcs c' = alter f p (allProcs c) /\
     (forall x, p_gxid (f x) = p_gxid x \/ p_gxid (f x) <> g) /\ phase c = Running /\
     phase c' = phase c /\ (shmCommittedGxidArray c' = shmCommittedGxidArray c /\ recovered c' = recovered c) /\ (flushed c <= flushed c')%nat /\
     (exists v, wal c' = wal c ++ v /\ ~ com v g /\ ~ forg v g) /\ nextGxid c <= nextGxid c').
  { destruct a; cbn in Hp; try discriminate Hp; apply on_proc_Some in Hp as [Hph ->]; cbn in Ha;
      apply negb_true_iff, Nat.eqb_neq in Ha; exists p; pose proof (gxid_of_other c p Ha Ho ltac:(lia)) as Hne;
      try (eexists; split_and!; [done | reflexivity | intros x; by left | done | done | done | done | cbn; lia | by apply same_wal | cbn in Hn |- *; lia]);
      try (eexists; split_and!; [done | reflexivity | intros x; by left | done | done | done | done | cbn; lia
              | by eapply one_record; [reflexivity | congruence | congruence] | cbn in Hn |- *; lia]).
    - eexists. split_and!; [done | reflexivity | intros x; right; cbn; lia | done | done | done | done | cbn; lia | by apply same_wal | cbn in Hn |- *; lia].
    - eexists (fun x => mkProc (p_gxid x) true (delayChkpt x) DTX_STATE_INSERTED_COMMITTED). split_and!; [done | | intros x; by left | done | done | done | done | cbn; lia | by apply same_wal | done].
      cbn. by rewrite alter_twice.
    - eexists (fun x => mkProc (p_gxid x) false (delayChkpt x) DTX_STATE_INSERTED_FORGET_COMMITTED). split_and!; [done | | intros x; by left | done | done | done | done | cbn; lia | by apply same_wal | done].
      cbn. by rewrite alter_twice.
    - assert (Hend : allProcs (ProcArrayEndGxact p c) = alter (fun _ => idle_proc) p (allProcs c) /\ phase (ProcArrayEndGxact p c) = phase c
         /\ (shmCommittedGxidArray (ProcArrayEndGxact p c) = shmCommittedGxidArray c /\ recovered (ProcArrayEndGxact p c) = recovered c) /\ flushed (ProcArrayEndGxact p c) = flushed c /\ wal (ProcArrayEndGxact p c) = wal c)
        by (unfold ProcArrayEndGxact; case_match; done).
      destruct Hend as (H1 & H2 & H3 & H4 & H5). exists (fun _ => idle_proc).
      split_and!; [done | done | intros x; right; cbn; unfold InvalidDistributedTransactionId; lia | done | done | apply H3 | apply H3 | lia | by apply same_wal | done]. }
  destruct Hcase as (p & f & Hpm & Hal & Hf & Hph & Hph' & [Har Hrc] & Hfl & Hw & Hnx).
  destruct (alter_other c p f Hpm Ho ltac:(lia) Hf) as [H1 H2]. constructor; try done; rewrite ?Hal; try done. congruence.
Qed.

Lemma other_action_step a c c' :
  other_action me a = true -> linv c -> phase_inv c ->
  (forall p x, allProcs c !! p = Some x -> p_gxid x = g -> p = me) -> 0 < g < nextGxid c ->
  lstep a c = Some c' -> other_step c c'.
Proof.
  intros Ha HI HP Ho Hg H. pose proof (step_next _ _ _ _ _ Hprefetch HI H) as Hn. pose proof H as H'.
  assert (Hproc : proc_action a c = Some c' -> other_step c c') by (intros; by eapply proc_other_step).
  unfold log_step in H. destruct a; try discriminate Ha; cbv beta iota in H; try (by apply Hproc);
    (case_bool_decide as Hph; [| done]); cbn in H;
    try (unfold ckpt_action in H; repeat case_match; simplify_option_eq; constructor; try done; cbn; try lia; first [by apply same_wal | by eapply one_record]).
  unfold bumpGxid_log in H. repeat case_match; simplify_eq. constructor; try done; cbn; try lia. by eapply one_record.
Qed.

Lemma other_durable c c' : other_step c c' -> durable c -> durable c'.
Proof. intros Ho H. pose proof (ot_flushed _ _ Ho). destruct (ot_wal _ _ Ho) as (v & Hv & _). unfold durable. rewrite Hv. by eapply take_flushed_mono. Qed.

Lemma other_com c c' : other_step c c' -> com (wal c') g -> com (wal c) g.
Proof. intros Ho. destruct (ot_wal _ _ Ho) as (v & Hv & Hc & _). rewrite Hv, com_app. tauto. Qed.

Lemma other_hopeless c c' : other_step c c' -> hopeless c -> hopeless c'.
Proof.
  intros Ho [H1 H2]. split; [intros Hc; by eapply H1, other_com |]. unfold mine. rewrite (ot_mine _ _ Ho). exact H2.
Qed.

Lemma inv_other_log w c' : Inv w -> other_step (log w) c' -> linv c' -> Inv (set_log c' w).
Proof.
  intros [I1 I2 I3 I4 I5 I6 I7 I8 I9 I10 I11 I12] Ho HI.
  pose proof (other_durable _ _ Ho) as Hd. pose proof (other_hopeless _ _ Ho) as Hh. pose proof (other_com _ _ Ho) as Hc.
  assert (H1 : onephase w -> onephase (set_log c' w)).
  { intros [F S]. split; [done |]. unfold mine. cbn. rewrite (ot_mine _ _ Ho). exact S. }
  constructor; cbn; try done.
  - apply Ho.
  - pose proof (ot_next _ _ Ho). lia.
  - apply Ho.
  - intros s Hs Hf. destruct (I6 s Hs Hf); auto.
  - intros [Hg | (x & Hx & Hx')]; apply I7; [left; auto | right; exists x; unfold mine in *; rewrite (ot_mine _ _ Ho) in Hx; done].
  - intros Hf. destruct (ot_wal _ _ Ho) as (v & Hv & _ & Hn). rewrite Hv, forg_app in Hf. destruct Hf as [Hf |]; [| done].
    destruct (I8 Hf). auto.
  - intros s c Hs Hp. pose proof (I9 s c Hs Hp) as HA. destruct c; cbn in *; try done; auto; destruct HA as [| []]; auto.
  - rewrite (ot_array _ _ Ho). auto.
  - rewrite (ot_array _ _ Ho). auto.
  - intros Hd' x. unfold mine. rewrite (ot_mine _ _ Ho). auto.
Qed.

(** ** The segments *)

Definition seg_evolve (w : World) (s s' : Segment) : Prop := seg_ok s' /\ seg_step (allowed w) s s'.

Lemma evolve_few w l l' : Forall2 (seg_evolve w) l l' -> few_writers l -> few_writers l'.
Proof.
  intros Hf Hw i j s t Hi Hj Hs Ht.
  destruct (Forall2_lookup_r _ _ _ _ _ Hf Hi) as (s0 & Hi0 & _ & Hs0). destruct (Forall2_lookup_r _ _ _ _ _ Hf Hj) as (t0 & Hj0 & _ & Ht0).
  eapply (Hw i j s0 t0); try done; [by rewrite <- (ss_wrote _ _ _ Hs0) | by rewrite <- (ss_wrote _ _ _ Ht0)].
Qed.

Lemma evolve_elem w l l' s' : Forall2 (seg_evolve w) l l' -> s' ∈ l' -> exists s, s ∈ l /\ seg_evolve w s s'.
Proof.
  intros Hf [i Hi]%list_elem_of_lookup. destruct (Forall2_lookup_r _ _ _ _ _ Hf Hi) as (s & Hs & He).
  exists s. split; [by eapply list_elem_of_lookup_2 | done].
Qed.

Lemma evolve_committed w l l' : Forall2 (seg_evolve w) l l' -> all_committed l -> all_committed l'.
Proof.
  intros Hf Ha s' Hs' Hj. destruct (evolve_elem _ _ _ _ Hf Hs') as (s & Hs & _ & [J _ D _ _]).
  apply D, Ha; [done | congruence].
Qed.

Lemma evolve_ready w l l' :
  (forall s, s ∈ l -> seg_ok s) -> committing (log w) -> l = segs w ->
  Forall2 (seg_evolve w) l l' -> ready l -> ready l'.
Proof.
  intros Hok Hc -> Hf Hr s' Hs' Hj. destruct (evolve_elem _ _ _ _ Hf Hs') as (s & Hs & _ & [J _ D _ _]).
  destruct (Hr s Hs ltac:(congruence)) as [Hp | Ht]; [| right; by apply D].
  destruct (dst_prepared _ _ _ D Hp) as [[] | [| (Hfa & c & HA & Hab)]]; [auto | auto |].
  pose proof (do_prepared _ _ (so_disk _ (Hok s Hs)) Hp) as Hnone.
  assert (hopeless (log w) \/ (durable (log w) /\ all_committed (segs w))) as [[H1 H2] | [_ H2]] by (destruct c; done).
  - exfalso. destruct Hc as [| (x & Hx & Hx1 & Hx2)]; [done |]. specialize (H2 x Hx Hx1). by rewrite Hx2 in H2.
  - specialize (H2 s Hs ltac:(congruence)). congruence.
Qed.

(** The segments evolve under allowed commands; nothing else that counts changes. *)
Lemma inv_segs w w' :
  Inv w -> log w' = log w -> dtmStarted w' = dtmStarted w -> Forall2 (seg_evolve w) (segs w) (segs w') -> Inv w'.
Proof.
  intros [I1 I2 I3 I4 I5 I6 I7 I8 I9 I10 I11 I12] Hl Hd Hf.
  assert (H1 : onephase w -> onephase w').
  { intros [F S]. split; [by eapply evolve_few | by rewrite Hl]. }
  assert (HA : forall c, allowed w c -> allowed w' c).
  { intros c. pose proof (evolve_committed _ _ _ Hf). destruct c; cbn; rewrite ?Hl; tauto. }
  constructor; rewrite ?Hl, ?Hd; try done.
  - intros s' Hs'. destruct (evolve_elem _ _ _ _ Hf Hs') as (s & _ & Hok & _). done.
  - intros s' Hs' Ht. destruct (evolve_elem _ _ _ _ Hf Hs') as (s & Hs & _ & [_ _ D _ _]).
    destruct (dst_commit _ _ _ D Ht) as [Hold | (c & Hc & Hcc)]; [destruct (I6 s Hs Hold); auto |].
    destruct c; try done; cbn in Hc; auto.
  - intros Hc. eapply evolve_ready; eauto.
  - intros Hg. destruct (I8 Hg). split; [done | by eapply evolve_committed].
  - intros s' c Hs' Hp. destruct (evolve_elem _ _ _ _ Hf Hs') as (s & Hs & _ & Hst).
    destruct (ss_pending _ _ _ Hst c Hp) as [Hp' | Hp']; eauto.
Qed.

Lemma evolve_refl w : Inv w -> Forall2 (seg_evolve w) (segs w) (segs w).
Proof.
  intros HI. apply Forall2_same_length_lookup_2; [done |]. intros i s s' H1 H2. simplify_eq.
  assert (seg_ok s) by (eapply iv_segs; [done |]; by eapply list_elem_of_lookup_2). split; [done | by apply seg_step_refl].
Qed.

Lemma evolve_alter w (f : Segment -> Segment) i :
  Inv w -> (forall s, s ∈ segs w -> seg_ok s -> seg_ok (f s) /\ seg_step (allowed w) s (f s)) ->
  Forall2 (seg_evolve w) (segs w) (alter f i (segs w)).
Proof.
  intros HI Hf. apply Forall2_same_length_lookup_2; [by rewrite length_alter |]. intros j s s' H1 H2.
  pose proof (list_elem_of_lookup_2 _ _ _ H1) as Hs. pose proof (iv_segs _ HI _ Hs) as Hok.
  destruct (decide (i = j)) as [<- | Hne].
  - rewrite list_lookup_alter_eq, H1 in H2. cbn in H2. simplify_eq. by apply Hf.
  - rewrite list_lookup_alter_ne, H1 in H2 by done. simplify_eq. split; [done | by apply seg_step_refl].
Qed.

Lemma evolve_map w (f : Segment -> Segment) :
  Inv w -> (forall s, seg_ok s -> seg_ok (f s) /\ seg_step (allowed w) s (f s)) ->
  Forall2 (seg_evolve w) (segs w) (f <$> segs w).
Proof.
  intros HI Hf. apply Forall2_same_length_lookup_2; [by rewrite length_fmap |]. intros j s s' H1 H2.
  rewrite list_lookup_fmap, H1 in H2. cbn in H2. simplify_eq. apply Hf. eapply iv_segs; [done |]. by eapply list_elem_of_lookup_2.
Qed.

Lemma recovery_broadcast_evolve w cmd net l :
  (forall s, s ∈ l -> seg_ok s) -> allowed w cmd -> Forall2 (seg_evolve w) l (recovery_broadcast cmd net l).1.
Proof.
  revert net. induction l as [| s l IH]; intros net Hok HA; cbn; [constructor |].
  destruct (deliver_recovery cmd (default Undelivered (head net)) s) as [s' ok] eqn:E.
  specialize (IH (tail net) ltac:(intros x Hx; apply Hok; by right) HA).
  destruct (recovery_broadcast cmd (tail net) l) as [l' oks] eqn:E'. cbn in *. constructor; [| done].
  eapply deliver_recovery_ok; [apply Hok; by left | done | done].
Qed.

(** ** What others do *)

(** What the session can rely on while others run. *)
Record frame (w w' : World) : Prop := {
  fr_sess : sess w' = sess w;
  fr_mine : allProcs (log w') !! me = allProcs (log w) !! me;
  fr_segs : Forall2 (fun s s' => joined s' = joined s /\ wrote s' = wrote s /\ (query_ok s -> query_ok s'))
              (segs w) (segs w');
  fr_durable : durable (log w) -> durable (log w');
  fr_com : com (wal (log w')) g <-> com (wal (log w)) g;
  fr_committed : all_committed (segs w) -> all_committed (segs w');
  fr_array : shmCommittedGxidArray (log w') = shmCommittedGxidArray (log w);
  fr_recovered : recovered (log w') = recovered (log w);
  fr_started : dtmStarted w' = dtmStarted w
}.

Lemma frame_refl w : frame w w.
Proof. constructor; try done. apply Forall2_same_length_lookup_2; [done |]. intros i s s' H1 H2. by simplify_eq. Qed.

Lemma Forall2_compose {A} (R1 R2 R3 : A -> A -> Prop) l1 l2 l3 :
  (forall x y z, R1 x y -> R2 y z -> R3 x z) -> Forall2 R1 l1 l2 -> Forall2 R2 l2 l3 -> Forall2 R3 l1 l3.
Proof.
  intros HR H1. revert l3. induction H1; intros l3 H3; inversion H3; subst; constructor; eauto.
Qed.

Lemma frame_trans w1 w2 w3 : frame w1 w2 -> frame w2 w3 -> frame w1 w3.
Proof.
  intros [A1 B1 C1 D1 E1 F1 G1 H1 I1] [A2 B2 C2 D2 E2 F2 G2 H2 I2]. constructor; try congruence; auto; [| tauto].
  eapply Forall2_compose; [| exact C1 | exact C2]. cbn. intros s1 s2 s3 (J1 & W1 & Q1) (J2 & W2 & Q2). split_and!; [congruence | congruence | auto].
Qed.

Lemma seg_restart_query s : query_ok s -> query_ok (seg_restart s).
Proof.
  unfold query_ok, seg_restart. destruct (conn s) as [| q |]; cbn; destruct (joined s); auto.
Qed.

Lemma qe_dies_query s : query_ok s -> query_ok (qe_dies s).
Proof. unfold query_ok, qe_dies. destruct (conn s) as [| q |] eqn:E; cbn; rewrite ?E; destruct (joined s); auto. Qed.

Lemma zombie_step_query k f s : query_ok s -> query_ok (zombie_step k f s).
Proof.
  intros H. unfold zombie_step. destruct (zombies s !! k) as [[q cmd] |]; [| done].
  destruct (match cmd with Some _ => _ | None => _ end) as [[q' d] r].
  assert (query_ok (with_zombies (delete k (zombies s)) (with_disk (qe_exit q' d) s))) by exact H.
  destruct r; try done. by apply seg_restart_query.
Qed.

Lemma deliver_recovery_query cmd dl s : query_ok s -> query_ok (deliver_recovery cmd dl s).1.
Proof.
  intros H. destruct dl as [f | f | | |]; cbn; try done; try (by apply seg_restart_query);
    destruct (performDtxProtocolCommand cmd f new_QE (disk s)) as [[q d] r]; exact H.
Qed.

Lemma recovery_broadcast_query cmd net l i s s' :
  l !! i = Some s -> (recovery_broadcast cmd net l).1 !! i = Some s' -> query_ok s -> query_ok s'.
Proof.
  revert net i. induction l as [| x l IH]; intros net i Hi Hi' HQ; [done |]. cbn in Hi'.
  pose proof (deliver_recovery_query cmd (default Undelivered (head net)) x) as Hd.
  destruct (deliver_recovery cmd (default Undelivered (head net)) x) as [x' ok].
  specialize (IH (tail net)). destruct (recovery_broadcast cmd (tail net) l) as [l' oks]. cbn in *.
  destruct i as [| i]; cbn in *; [simplify_eq; auto | eauto].
Qed.

Lemma segs_frame w l :
  Inv w -> Forall2 (seg_evolve w) (segs w) l ->
  (forall i s s', segs w !! i = Some s -> l !! i = Some s' -> query_ok s -> query_ok s') ->
  Inv (set_segs l w) /\ frame w (set_segs l w).
Proof.
  intros HI Hf HQ. split; [by eapply inv_segs |]. constructor; cbn; try done; [| by eapply evolve_committed].
  apply Forall2_same_length_lookup_2; [by eapply Forall2_length |]. intros i s s' H1 H2.
  destruct (Forall2_lookup_lr _ _ _ _ _ _ Hf H1 H2) as [_ []]. split_and!; try done. by eapply HQ.
Qed.

Lemma alter_frame w (f : Segment -> Segment) i :
  Inv w -> (forall s, s ∈ segs w -> seg_ok s -> seg_ok (f s) /\ seg_step (allowed w) s (f s)) ->
  (forall s, query_ok s -> query_ok (f s)) ->
  Inv (set_segs (alter f i (segs w)) w) /\ frame w (set_segs (alter f i (segs w)) w).
Proof.
  intros HI Hf HQ. apply segs_frame; [done | by apply evolve_alter |]. intros j s s' H1 H2.
  destruct (decide (i = j)) as [<- | Hne].
  - rewrite list_lookup_alter_eq, H1 in H2. cbn in H2. simplify_eq. apply HQ.
  - rewrite list_lookup_alter_ne, H1 in H2 by done. by simplify_eq.
Qed.

(** An abort of the recovery process, once the session is out of the process array. *)
Lemma orphan_allowed w :
  Inv w -> shmCommittedGxidArray (log w) = [] -> (forall p x, allProcs (log w) !! p = Some x -> p_gxid x <> g) ->
  allowed w DTX_PROTOCOL_COMMAND_RECOVERY_ABORT_PREPARED.
Proof.
  intros HI Harr Hno. cbn. destruct (decide (XLOG_XACT_DISTRIBUTED_COMMIT g ∈ wal (log w))) as [Hc | Hc].
  - right. destruct (li_live _ _ (iv_log _ HI) g Hc) as [Hf | [Ha | (p & x & Hp & Hx & _)]].
    + by apply iv_forg.
    + rewrite Harr in Ha. by apply elem_of_nil in Ha.
    + by apply Hno in Hp.
  - left. split; [done |]. intros x Hx Hg. by apply Hno in Hx.
Qed.

Lemma not_in_progress c : IsDtxInProgress g c = false -> forall p x, allProcs c !! p = Some x -> p_gxid x <> g.
Proof.
  unfold IsDtxInProgress. intros H p x Hp Hx. rewrite <- not_true_iff_false in H. apply H. apply existsb_exists.
  exists x. split; [apply list_elem_of_In; by eapply list_elem_of_lookup_2 | by apply Z.eqb_eq].
Qed.

Lemma running_phase_inv c : phase c = Running -> phase_inv c.
Proof. by intros H H'. Qed.

Lemma act_inv a w : Inv w -> Inv (act a w) /\ frame w (act a w).
Proof.
  intros HI. destruct a as [a | i k f | i | i | heard | net]; cbn.
  - destruct (other_action me a) eqn:Ea; [| split; [done | apply frame_refl]].
    destruct (lstep a (log w)) as [c' |] eqn:E; [| split; [done | apply frame_refl]].
    pose proof (running_phase_inv _ (iv_phase _ HI)) as HP.
    destruct (log_step_inv _ _ _ _ _ Hprefetch (iv_log _ HI) HP E) as [HL _].
    pose proof (other_action_step _ _ _ Ea (iv_log _ HI) HP (iv_owner _ HI) (iv_g _ HI) E) as Ho.
    split; [by apply inv_other_log |]. constructor; cbn; try done.
    + apply Ho.
    + apply (fr_segs _ _ (frame_refl w)).
    + by apply other_durable.
    + split; [by apply other_com |]. destruct (ot_wal _ _ Ho) as (v & -> & _). rewrite com_app. auto.
    + apply Ho.
    + apply Ho.
  - apply alter_frame; [done | | apply zombie_step_query]. intros s Hs Hok. apply zombie_step_ok; [done |].
    intros c. by apply iv_pend.
  - apply alter_frame; [done | intros s _; apply seg_restart_ok | apply seg_restart_query].
  - apply alter_frame; [done | intros s _; apply qe_dies_ok | apply qe_dies_query].
  - destruct (dtmStarted w) eqn:Ed; [| split; [done | apply frame_refl]].
    split; [apply (inv_segs w); [done | done | done | exact (evolve_refl w HI)] |].
    pose proof (frame_refl w) as [A B C D E F G H I]. by constructor.
  - destruct (dtmStarted w && inDoubt w && negb (IsDtxInProgress g (log w))) eqn:E; [| split; [done | apply frame_refl]].
    apply andb_true_iff in E as [[E1 _]%andb_true_iff E2%negb_true_iff].
    pose proof (orphan_allowed w HI (iv_started _ HI E1) (not_in_progress _ E2)) as HA.
    set (l := (recovery_broadcast DTX_PROTOCOL_COMMAND_RECOVERY_ABORT_PREPARED net (segs w)).1).
    assert (Hf : Forall2 (seg_evolve w) (segs w) l) by (apply recovery_broadcast_evolve; [apply (iv_segs _ HI) | done]).
    destruct (segs_frame w l HI Hf) as [HI' Hfr].
    { intros i s s' H1 H2. by eapply recovery_broadcast_query. }
    split; [apply (inv_segs (set_segs l w)); [done | done | done | exact (evolve_refl _ HI')] |].
    destruct Hfr as [A B C D E F G H I]. by constructor.
Qed.

Lemma run_actions_inv l w :
  Inv w -> Inv (run_actions me g max_tm_gxacts gp_gxid_prefetch_num l w) /\
           frame w (run_actions me g max_tm_gxacts gp_gxid_prefetch_num l w).
Proof.
  unfold run_actions. revert w. induction l as [| a l IH]; intros w HI; cbn; [split; [done | apply frame_refl] |].
  destruct (act_inv a w HI) as [H1 H2]. destruct (IH _ H1) as [H3 H4]. split; [done | by eapply frame_trans].
Qed.

(** ** Computations *)

(** [m] started in [P] returns a value in [Q] or raises an error in [E]. *)
Definition spec {A} (P : World -> Prop) (m : M A) (Q : A -> World -> Prop) (E : elevel -> World -> Prop) : Prop :=
  forall w es, P w ->
    match m w es with
    | (Ret a, w', _) => Q a w'
    | (Raise l, w', _) => E l w'
    end.

Lemma spec_ret {A} (a : A) (P : World -> Prop) Q E : (forall w, P w -> Q a w) -> spec P (ret a) Q E.
Proof. intros H w es HP. by apply H. Qed.

Lemma spec_raise {A} l (P : World -> Prop) Q E : (forall w, P w -> E l w) -> spec P (@raise A l) Q E.
Proof. intros H w es HP. by apply H. Qed.

Lemma spec_get {A} (f : World -> A) (P : World -> Prop) Q E : (forall w, P w -> Q (f w) w) -> spec P (get f) Q E.
Proof. intros H w es HP. by apply H. Qed.

Lemma spec_modify f (P : World -> Prop) Q E : (forall w, P w -> Q tt (f w)) -> spec P (modify f) Q E.
Proof. intros H w es HP. by apply H. Qed.

Lemma spec_bind {A B} (m : M A) (k : A -> M B) (P : World -> Prop) (R : A -> World -> Prop) Q E :
  spec P m R E -> (forall a, spec (R a) (k a) Q E) -> spec P (bind m k) Q E.
Proof.
  intros Hm Hk w es HP. unfold bind. specialize (Hm w es HP). destruct (m w es) as [[[a | l] w'] es']; [| done]. by apply Hk.
Qed.

Lemma spec_get_bind {A B} (f : World -> A) (k : A -> M B) (P : World -> Prop) Q E :
  (forall a, spec (fun w => P w /\ a = f w) (k a) Q E) -> spec P (bind (get f) k) Q E.
Proof. intros H. eapply (spec_bind _ _ _ (fun a w => P w /\ a = f w)); [by apply spec_get | done]. Qed.

Lemma spec_weaken {A} (m : M A) (P P' : World -> Prop) (Q Q' : A -> World -> Prop) (E E' : elevel -> World -> Prop) :
  spec P m Q E -> (forall w, P' w -> P w) -> (forall a w, Q a w -> Q' a w) -> (forall l w, E l w -> E' l w) -> spec P' m Q' E'.
Proof.
  intros H H1 H2 H3 w es HP. specialize (H w es (H1 _ HP)). destruct (m w es) as [[[a | l] w'] es']; auto.
Qed.

Lemma spec_try {A} (m h : M A) (P : World -> Prop) Q E E' :
  spec P m Q E' -> spec (E' ERROR) h Q E -> (forall l w, l <> ERROR -> E' l w -> E l w) -> spec P (pg_try m h) Q E.
Proof.
  intros Hm Hh HE w es HP. unfold pg_try. specialize (Hm w es HP). destruct (m w es) as [[[a | l] w'] es']; [done |].
  destruct l; [by apply Hh | by apply HE | by apply HE].
Qed.

Lemma spec_pre {A} (m : M A) (P : World -> Prop) Q E : (forall w, P w -> spec (eq w) m Q E) -> spec P m Q E.
Proof. intros H w es HP. by apply (H w HP w es). Qed.

(** Facts that others do not touch. *)
Definition stable (R : World -> Prop) : Prop := forall w w', frame w w' -> R w -> R w'.

Lemma clock_frame t w : frame w (set_clock t w).
Proof. pose proof (frame_refl w) as [A B C D E F G H I]. by constructor. Qed.

Lemma inv_clock t w : Inv w -> Inv (set_clock t w).
Proof. intros HI. apply (inv_segs w); [done | done | done | exact (evolve_refl w HI)]. Qed.

Notation next_event := (next_event me g max_tm_gxacts gp_gxid_prefetch_num).
Notation others := (others me g max_tm_gxacts gp_gxid_prefetch_num).
Notation CHECK_FOR_INTERRUPTS := (CHECK_FOR_INTERRUPTS me g max_tm_gxacts gp_gxid_prefetch_num).
Notation dispatch := (dispatch me g max_tm_gxacts gp_gxid_prefetch_num).
Notation doDispatch := (doDispatchDtxProtocolCommand me g max_tm_gxacts gp_gxid_prefetch_num).
Notation currentDispatch := (currentDtxDispatchProtocolCommand me g max_tm_gxacts gp_gxid_prefetch_num).

(** A crash leaves the invariant. *)
Definition crashed (l : elevel) (w : World) : Prop := l = PANIC /\ Inv w.

Lemma next_event_spec R :
  stable R -> spec (fun w => Inv w /\ R w) next_event (fun _ w => Inv w /\ R w) crashed.
Proof.
  intros HR w es [HI Hr]. destruct es as [| e es]; [done |]. cbn.
  destruct (run_actions_inv (meanwhile e) w HI) as [H1 H2]. split; [by apply inv_clock |].
  eapply HR; [eapply frame_trans; [exact H2 | apply clock_frame] | done].
Qed.

Lemma others_spec R : stable R -> spec (fun w => Inv w /\ R w) others (fun _ w => Inv w /\ R w) crashed.
Proof. intros HR. eapply spec_bind; [by apply next_event_spec | intros e; by apply spec_ret]. Qed.

Lemma interrupts_spec R :
  stable R -> spec (fun w => Inv w /\ R w) CHECK_FOR_INTERRUPTS (fun _ w => Inv w /\ R w)
                (fun l w => Inv w /\ (l <> PANIC -> R w)).
Proof.
  intros HR. eapply spec_bind.
  - eapply spec_weaken; [by apply next_event_spec | done | done |]. intros l w [-> HI]. done.
  - intros e. destruct (interrupt e) as [[| |] |]; (by apply spec_ret) || (apply spec_raise; intros w []; auto).
Qed.

(** ** Broadcasts *)

Lemma broadcast_spec (f : nat -> Delivery -> Segment -> Segment * bool * bool) (Rs P : Segment -> Prop) (S : Segment -> Segment -> Prop)
    ts net l l' oks losts :
  (forall s, seg_ok s -> S s s) -> (forall s1 s2 s3, S s1 s2 -> S s2 s3 -> S s1 s3) ->
  (forall t dl s s' ok lost, seg_ok s -> Rs s -> f t dl s = (s', ok, lost) ->
     seg_ok s' /\ Rs s' /\ S s s' /\ (ok = true -> P s')) ->
  (forall s, s ∈ l -> seg_ok s /\ Rs s) -> broadcast f ts net l = (l', oks, losts) ->
  Forall2 S l l' /\ (forall s, s ∈ l' -> seg_ok s /\ Rs s) /\
  (oks = true -> forall t, t ∈ ts -> exists s, l' !! t = Some s /\ P s) /\
  (forall t, t ∉ ts -> l' !! t = l !! t).
Proof.
  intros Hrefl Htrans Hf. revert net l l' oks losts. induction ts as [| t ts IH]; intros net l l' oks losts Hl H; cbn in H.
  - simplify_eq. split_and!; [| done | intros _ t Ht; by apply elem_of_nil in Ht | done].
    apply Forall2_same_length_lookup_2; [done |]. intros i s s' H1 H2. simplify_eq. apply Hrefl, Hl. by eapply list_elem_of_lookup_2.
  - destruct (l !! t) as [s |] eqn:Et.
    + destruct (f t (default Undelivered (head net)) s) as [[s' ok] lost] eqn:Ef.
      destruct (broadcast f ts (tail net) (<[t:=s']> l)) as [[l1 oks1] losts1] eqn:Eb. simplify_eq.
      destruct (Hl s) as [Hs1 Hs2]; [by eapply list_elem_of_lookup_2 |].
      destruct (Hf _ _ _ _ _ _ Hs1 Hs2 Ef) as (F1 & F2 & F3 & F4).
      assert (Hlt : (t < length l)%nat) by (by eapply lookup_lt_Some).
      assert (Hl' : forall x, x ∈ <[t:=s']> l -> seg_ok x /\ Rs x).
      { intros x [i Hi]%list_elem_of_lookup. destruct (decide (t = i)) as [<- |].
        - rewrite list_lookup_insert_eq in Hi by done. by simplify_eq.
        - rewrite list_lookup_insert_ne in Hi by done. apply Hl. by eapply list_elem_of_lookup_2. }
      destruct (IH _ _ _ _ _ Hl' Eb)
        as (B1 & B2 & B3 & B4). split_and!; try done.
      * eapply (Forall2_compose S S S); [by eauto | | exact B1].
        apply Forall2_same_length_lookup_2; [by rewrite length_insert |]. intros i x x' H1 H2.
        destruct (decide (t = i)) as [<- |]; [rewrite list_lookup_insert_eq in H2 by done | rewrite list_lookup_insert_ne in H2 by done]; simplify_eq; [done |].
        apply Hrefl, Hl. by eapply list_elem_of_lookup_2.
      * intros [-> Hoks]%andb_true_iff u Hu. destruct (decide (u ∈ ts)) as [Hin | Hin]; [by apply B3 |].
        apply elem_of_cons in Hu as [-> |]; [| done]. rewrite (B4 _ Hin), list_lookup_insert_eq by done. eauto.
      * intros u Hu. rewrite elem_of_cons in Hu. rewrite B4 by tauto. rewrite list_lookup_insert_ne; [done |]. intros ->. tauto.
    + destruct (broadcast f ts (tail net) l) as [[l1 oks1] losts1] eqn:Eb. simplify_eq.
      destruct (IH _ _ _ _ _ Hl Eb) as (B1 & B2 & B3 & B4). split_and!; try done.
      intros u Hu. rewrite elem_of_cons in Hu. apply B4. tauto.
Qed.

(** Facts that neither others nor a broadcast touch. *)
Record robust (R : World -> Prop) : Prop := {
  rb_stable : stable R;
  rb_segs : forall w l s', Inv w -> R w -> Forall2 (seg_evolve w) (segs w) l ->
    s' = sess w \/ s' = with_lost true (sess w) -> R (set_sess s' (set_segs l w))
}.

(** The invariant, and at an error that can be handled also [R]. *)
Definition failed (R : World -> Prop) (l : elevel) (w : World) : Prop :=
  Inv w /\ (l = PANIC \/ (l = ERROR /\ R w)).

Lemma inv_sess s' w : Inv w -> Inv (set_sess s' w).
Proof. intros HI. apply (inv_segs w); [done | done | done | exact (evolve_refl w HI)]. Qed.

Section dispatch.
Context (cmd : DtxProtocolCommand) (R : World -> Prop) (Rs P : Segment -> Prop).
Hypothesis HR : robust R.
Hypothesis HA : forall w, Inv w -> R w -> allowed w cmd /\ forall s, s ∈ segs w -> Rs s.
Hypothesis HP : forall dl s s' ok lost, seg_ok s -> Rs s -> deliver_command cmd dl s = (s', ok, lost) ->
  Rs s' /\ (ok = true -> P s').

Definition answered (ts : list nat) (ok : bool) (w : World) : Prop :=
  Inv w /\ R w /\ (ok = true -> forall t, t ∈ ts -> exists s, segs w !! t = Some s /\ P s).

Lemma broadcast_inv w ts net :
  Inv w -> R w ->
  let r := broadcast (fun _ => deliver_command cmd) ts net (segs w) in
  forall s', s' = sess w \/ s' = with_lost true (sess w) -> answered ts r.1.2 (set_sess s' (set_segs r.1.1 w)).
Proof.
  intros HI Hr. cbn zeta. destruct (broadcast _ ts net (segs w)) as [[l oks] losts] eqn:E. cbn [fst snd].
  destruct (HA w HI Hr) as [Hal Hrs].
  destruct (broadcast_spec (fun _ => deliver_command cmd) Rs P (seg_evolve w) ts net (segs w) l oks losts) as (B1 & B2 & B3 & B4); [| | | | done |].
  - intros s Hs. split; [done | by apply seg_step_refl].
  - intros s1 s2 s3 [_ H1] [H2 H3]. split; [done | by eapply seg_step_trans].
  - intros t dl s s' ok lost Hs Hs' Hd. destruct (HP _ _ _ _ _ Hs Hs' Hd) as [H1 H2].
    destruct (deliver_command_ok _ _ _ _ _ _ _ Hs Hal Hd) as [H3 H4]. split_and!; try done.
  - intros s Hs. split; [by apply (iv_segs _ HI) | auto].
  - intros s' Hs'. split_and!; [| by apply HR | exact B3]. apply inv_sess. by apply (inv_segs w).
Qed.

Lemma dispatch_spec ts :
  spec (fun w => Inv w /\ R w) (dispatch (fun _ => deliver_command cmd) ts)
    (fun r => answered ts r.2) (failed R).
Proof.
  eapply spec_bind.
  - eapply spec_weaken; [apply (next_event_spec R), HR | done | done |]. intros l w [-> HI]. split; [done | by left].
  - intros e. cbn beta. destruct (no_gang e); [apply spec_raise; intros w [HI Hr]; split; [done | by right] |].
    intros w es [HI Hr]. unfold bind, get, modify, msess, ret. cbn.
    pose proof (broadcast_inv w ts (replies e) HI Hr) as HB. cbn in HB.
    destruct (broadcast _ ts (replies e) (segs w)) as [[l oks] losts]. cbn in *. destruct losts; cbn.
    + apply (HB (with_lost true (sess w))). by right.
    + assert (set_segs l w = set_sess (sess w) (set_segs l w)) as -> by done. apply HB. by left.
Qed.

Lemma doDispatch_spec raiseError ts :
  spec (fun w => Inv w /\ R w) (doDispatch cmd raiseError ts) (answered ts) (failed R).
Proof.
  unfold doDispatchDtxProtocolCommand. destruct ts as [| t ts].
  - apply spec_ret. intros w []. split_and!; try done. intros _ t Ht. by apply elem_of_nil in Ht.
  - eapply spec_bind; [apply dispatch_spec |]. intros [e ok]. cbn.
    destruct (negb ok && raiseError && negb (quiet e)); [apply spec_raise; intros w (H1 & H2 & _); split; [done | by right] | by apply spec_ret].
Qed.

Lemma currentDispatch_spec raiseError ts :
  (forall w, R w -> dtxSegments (sess w) = ts) ->
  spec (fun w => Inv w /\ R w) (currentDispatch cmd raiseError) (answered ts) (failed R).
Proof.
  intros Hts. apply spec_get_bind. intros a w es [[HI Hr] ->]. rewrite (Hts w Hr). by apply doDispatch_spec.
Qed.

Lemma broadcast_or_false_spec ts :
  (forall w, R w -> dtxSegments (sess w) = ts) ->
  spec (fun w => Inv w /\ R w) (broadcast_or_false me g max_tm_gxacts gp_gxid_prefetch_num cmd) (answered ts) crashed.
Proof.
  intros Hts. eapply spec_try; [by apply (currentDispatch_spec true ts) | |].
  - apply spec_ret. intros w [HI [| [_ Hr]]]; [done |]. by split_and!.
  - intros l w Hl [HI [-> | [-> _]]]; done.
Qed.
End dispatch.

Lemma reset_evolve w : Inv w -> Forall2 (seg_evolve w) (segs w) (disconnect <$> segs w).
Proof. intros HI. apply evolve_map; [done |]. intros s. apply disconnect_ok. Qed.

Lemma ResetAllGangs_spec R : robust R -> spec (fun w => Inv w /\ R w) ResetAllGangs (fun _ w => Inv w /\ R w) crashed.
Proof.
  intros HR. apply spec_modify. intros w [HI Hr]. pose proof (reset_evolve w HI) as Hf. split; [by eapply inv_segs |].
  assert (set_segs (disconnect <$> segs w) w = set_sess (sess w) (set_segs (disconnect <$> segs w) w)) as -> by done.
  apply HR; auto.
Qed.

(** ** Steps of the session in the log *)

Definition At (st : DtxState) (inc dl : bool) (w : World) : Prop := mine (log w) (mkProc g inc dl st).

Lemma inv_my_step w c' x x' :
  Inv w -> mine (log w) x -> p_gxid x = g -> linv c' -> phase c' = phase (log w) -> nextGxid c' = nextGxid (log w) ->
  allProcs c' = <[me := x']> (allProcs (log w)) -> shmCommittedGxidArray c' = shmCommittedGxidArray (log w) ->
  (p_gxid x' = g -> p_state x' <> DTX_STATE_ACTIVE_DISTRIBUTED) ->
  (durable (log w) -> durable c') -> (hopeless (log w) -> hopeless c') -> (committing c' -> ready (segs w)) ->
  (forg (wal c') g -> durable c' /\ all_committed (segs w)) -> Inv (set_log c' w).
Proof.
  intros [I1 I2 I3 I4 I5 I6 I7 I8 I9 I10 I11 I12] Hx Hg HL Hph Hn Hp Har Hact Hd Hh Hc Hf.
  assert (Hme : (me < length (allProcs (log w)))%nat) by (by eapply lookup_lt_Some).
  assert (H1 : onephase w -> onephase (set_log c' w)).
  { intros [F S]. split; [done |]. unfold mine. cbn. rewrite Hp, list_lookup_insert_eq by done. intros y [= <-]. done. }
  constructor; cbn; try done; rewrite ?Hn, ?Har; try done; try congruence; auto.
  - intros p y Hy Hyg. destruct (decide (me = p)) as [| Hne]; [done |]. rewrite Hp, list_lookup_insert_ne in Hy by done. by eapply I4.
  - intros s Hs Ht. destruct (I6 s Hs Ht); auto.
  - intros s c Hs Hpd. pose proof (I9 s c Hs Hpd) as HA. destruct c; cbn in *; try done; auto; destruct HA as [| []]; auto.
  - intros Hdn. by destruct (I12 Hdn x Hx).
Qed.

Lemma At_ok w st inc dl : Inv w -> At st inc dl w -> proc_ok (wal (log w)) (nextGxid (log w)) (mkProc g inc dl st).
Proof. intros HI H. by apply (li_proc _ _ (iv_log _ HI) _ _ H). Qed.

Lemma At_lookup c x y : mine c x -> <[me := y]> (allProcs c) !! me = Some y.
Proof. intros H. apply list_lookup_insert_eq. by eapply lookup_lt_Some. Qed.

(** An action of [me] that the invariant of the log knows. *)
Lemma my_action_inv w a c' : Inv w -> proc_action a (log w) = Some c' -> linv c'.
Proof. intros HI. apply proc_action_inv; [done | apply HI]. Qed.

Lemma on_me w x f c' : Inv w -> mine (log w) x -> f x = true -> on_proc me f (log w) c' = Some c'.
Proof. intros HI Hx Hf. unfold on_proc. rewrite Hx, bool_decide_true, Hf by apply HI. done. Qed.

Lemma before_not_com w st inc dl : Inv w -> At st inc dl w -> before_commit st = true -> ~ com (wal (log w)) g.
Proof. intros HI HA Hb. pose proof (At_ok _ _ _ _ HI HA) as H. apply proc_ok_before in H; [| done]. apply H. Qed.

Lemma before_not_forg w st inc dl : Inv w -> At st inc dl w -> before_commit st = true -> ~ forg (wal (log w)) g.
Proof.
  intros HI HA Hb Hf. eapply before_not_com; eauto. rewrite <- (firstn_all (wal (log w))) in Hf |- *.
  by apply (li_forg _ _ (iv_log _ HI)).
Qed.

Lemma before_not_durable w st inc dl : Inv w -> At st inc dl w -> before_commit st = true -> ~ durable (log w).
Proof. intros HI HA Hb Hd. eapply before_not_com; eauto. by apply com_take in Hd. Qed.

Lemma before_include w st inc dl : Inv w -> At st inc dl w -> before_commit st = true -> inc = false.
Proof. intros HI HA Hb. pose proof (At_ok _ _ _ _ HI HA) as H. apply proc_ok_before in H; [| done]. apply H. Qed.

Lemma hopeless_intro w st inc dl : Inv w -> At st inc dl w -> before_commit st = true -> can_commit st = false -> hopeless (log w).
Proof.
  intros HI HA Hb Hc. split; [by eapply before_not_com |]. intros x Hx _. unfold At, mine in *. by simplify_eq.
Qed.

(** From one state before the commit to another. *)
Lemma set_state_inv w st st' :
  Inv w -> At st false false w -> before_commit st = true -> before_commit st' = true ->
  st' <> DTX_STATE_ACTIVE_DISTRIBUTED -> (can_commit st' = true -> can_commit st = true) ->
  (st' = DTX_STATE_PREPARED -> ready (segs w)) ->
  Inv (set_log (setCurrentDtxState me st' (log w)) w) /\ At st' false false (set_log (setCurrentDtxState me st' (log w)) w).
Proof.
  intros HI HA Hb Hb' Ha Hc Hr.
  assert (HL : linv (setCurrentDtxState me st' (log w))).
  { eapply (my_action_inv w (Work me st')); [done |]. cbn. eapply on_me; [done | done |]. cbn. by rewrite Hb, Hb'. }
  assert (Hp : allProcs (setCurrentDtxState me st' (log w)) = <[me := mkProc g false false st']> (allProcs (log w))).
  { cbn. by rewrite (alter_insert _ _ _ _ HA). }
  split.
  - eapply inv_my_step; try done.
    + intros [Hnc Hcc]. split; [done |]. unfold mine. rewrite Hp, (At_lookup _ _ _ HA). intros y [= <-] _. cbn.
      specialize (Hcc _ HA eq_refl). cbn in Hcc. destruct (can_commit st') eqn:E; [rewrite Hc in Hcc |]; done.
    + intros [Hcm | (y & Hy & _ & Hs)]; [by apply (before_not_com _ _ _ _ HI HA Hb) in Hcm |].
      unfold mine in Hy. rewrite Hp, (At_lookup _ _ _ HA) in Hy. simplify_eq. by apply Hr.
    + intros Hf. by apply (before_not_forg _ _ _ _ HI HA Hb) in Hf.
  - unfold At, mine. cbn [log set_log]. by rewrite Hp, (At_lookup _ _ _ HA).
Qed.

(** The session enters its commit critical section. *)
Lemma delay_inv w :
  Inv w -> At DTX_STATE_PREPARED false false w ->
  Inv (set_log (set_delayChkpt me true (log w)) w) /\ At DTX_STATE_PREPARED false true (set_log (set_delayChkpt me true (log w)) w).
Proof.
  intros HI HA.
  assert (HL : linv (set_delayChkpt me true (log w))).
  { eapply (my_action_inv w (DelayChkpt me)); [done |]. cbn. by eapply on_me. }
  assert (Hp : allProcs (set_delayChkpt me true (log w)) = <[me := mkProc g false true DTX_STATE_PREPARED]> (allProcs (log w))).
  { cbn. by rewrite (alter_insert _ _ _ _ HA). }
  split.
  - eapply inv_my_step; try done.
    + intros [_ Hcc]. by specialize (Hcc _ HA eq_refl).
    + intros _. apply (iv_ready _ HI). right. eexists. split; [exact HA |]. done.
    + intros Hf. by eapply before_not_forg in Hf.
  - unfold At, mine. cbn [log set_log]. by rewrite Hp, (At_lookup _ _ _ HA).
Qed.

Lemma insert_commit_step w (c' := XLogInsert (XLOG_XACT_DISTRIBUTED_COMMIT (gxid_of me (log w))) (insertingDistributedCommitted me (log w))) :
  Inv w -> At DTX_STATE_PREPARED false true w ->
  Inv (set_log c' w) /\ At DTX_STATE_INSERTING_COMMITTED false true (set_log c' w).
Proof.
  intros HI HA.
  assert (HL : linv c').
  { eapply (my_action_inv w (InsertCommit me)); [done |]. cbn. by eapply on_me. }
  assert (Hp : allProcs c' = <[me := mkProc g false true DTX_STATE_INSERTING_COMMITTED]> (allProcs (log w))).
  { unfold c'. cbn. by rewrite (alter_insert _ _ _ _ HA). }
  split.
  - eapply inv_my_step; try done.
    + unfold durable. cbn. intros Hd. by eapply take_flushed_mono.
    + intros [_ Hcc]. by specialize (Hcc _ HA eq_refl).
    + intros _. apply (iv_ready _ HI). right. eexists. split; [exact HA |]. done.
    + cbn. rewrite forg_app. intros [Hf | Hf]; [by eapply before_not_forg in Hf | by apply list_elem_of_singleton in Hf].
  - unfold At, mine. cbn [log set_log]. by rewrite Hp, (At_lookup _ _ _ HA).
Qed.

(** Steps after the commit record: the record stays, the state moves on. *)
Lemma after_commit_step w c' x x' :
  Inv w -> mine (log w) x -> p_gxid x = g -> p_gxid x' = g -> before_commit (p_state x') = false -> linv c' -> phase c' = phase (log w) ->
  nextGxid c' = nextGxid (log w) -> allProcs c' = <[me := x']> (allProcs (log w)) ->
  shmCommittedGxidArray c' = shmCommittedGxidArray (log w) -> wal c' = wal (log w) -> (flushed (log w) <= flushed c')%nat ->
  com (wal (log w)) g -> Inv (set_log c' w) /\ mine c' x'.
Proof.
  intros HI Hx Hg Hg' Hb HL Hph Hn Hp Har Hw Hf Hc.
  assert (Hd : durable (log w) -> durable c').
  { unfold durable. rewrite Hw. intros Hd. rewrite <- (app_nil_r (wal (log w))). by eapply take_flushed_mono. }
  split; [| unfold mine; by rewrite Hp, (At_lookup _ _ _ Hx)].
  eapply inv_my_step; try done.
  - intros _ E. by rewrite E in Hb.
  - intros [Hnc _]. done.
  - intros _. apply (iv_ready _ HI). by left.
  - rewrite Hw. intros Hfo. destruct (iv_forg _ HI Hfo). auto.
Qed.

Lemma At_com w st inc dl :
  Inv w -> At st inc dl w -> before_commit st = false -> st <> DTX_STATE_NONE -> com (wal (log w)) g.
Proof. intros HI HA Hb Hn. pose proof (At_ok _ _ _ _ HI HA) as H. unfold proc_ok in H. destruct st; try done; cbn in H; tauto. Qed.

Lemma inserted_step w :
  Inv w -> At DTX_STATE_INSERTING_COMMITTED false true w ->
  Inv (set_log (insertedDistributedCommitted me (log w)) w) /\
  At DTX_STATE_INSERTED_COMMITTED true true (set_log (insertedDistributedCommitted me (log w)) w).
Proof.
  intros HI HA. eapply (after_commit_step w _ _ (mkProc g true true DTX_STATE_INSERTED_COMMITTED)); try done.
  - eapply (my_action_inv w (Inserted me)); [done |]. cbn. by eapply on_me.
  - cbn. by rewrite alter_twice, (alter_insert _ _ _ _ HA).
  - by eapply At_com.
Qed.

Lemma take_mono w f f' : (f <= f')%nat -> com (take f w) g -> com (take f' w) g.
Proof. intros Hf H. rewrite <- (app_nil_r w). by eapply take_flushed_mono. Qed.

Lemma flush_commit_step w
    (c' := set_delayChkpt me false (XLogFlush (record_end (XLOG_XACT_DISTRIBUTED_COMMIT (gxid_of me (log w))) (wal (log w))) (log w))) :
  Inv w -> At DTX_STATE_INSERTED_COMMITTED true true w ->
  Inv (set_log c' w) /\ At DTX_STATE_INSERTED_COMMITTED true false (set_log c' w) /\ durable c'.
Proof.
  intros HI HA. pose proof (At_com _ _ _ _ HI HA eq_refl ltac:(done)) as Hc.
  destruct (after_commit_step w c' _ (mkProc g true false DTX_STATE_INSERTED_COMMITTED) HI HA) as [H1 H2]; try done.
  - eapply (my_action_inv w (FlushCommit me)); [done |]. cbn. by eapply on_me.
  - unfold c'. cbn. by rewrite (alter_insert _ _ _ _ HA).
  - unfold c'. cbn. lia.
  - split_and!; try done. unfold durable, c'. cbn. unfold gxid_of. rewrite HA. cbn.
    pose proof (record_end_spec _ _ Hc) as Hr.
    apply (take_mono _ (record_end (XLOG_XACT_DISTRIBUTED_COMMIT g) (wal (log w)) `min` length (wal (log w)))); [lia |].
    by rewrite <- take_take, firstn_all.
Qed.

Lemma notify_step w st st' :
  Inv w -> At st true false w -> st = DTX_STATE_INSERTED_COMMITTED \/ notifying st = true -> notifying st' = true ->
  Inv (set_log (setCurrentDtxState me st' (log w)) w) /\ At st' true false (set_log (setCurrentDtxState me st' (log w)) w).
Proof.
  intros HI HA Hst Hst'. eapply (after_commit_step w _ _ (mkProc g true false st')); try done.
  - by destruct st'.
  - eapply (my_action_inv w (Notify me st')); [done |]. cbn. eapply on_me; [done | done |]. cbn. rewrite Hst', !andb_true_r.
    apply orb_true_iff. destruct Hst; [left; by apply bool_decide_eq_true | by right].
  - cbn. by rewrite (alter_insert _ _ _ _ HA).
  - eapply At_com; [done | done | |]; destruct Hst as [-> | ?]; try done; by destruct st.
Qed.

Lemma forget_step w st
    (c' := RecordDistributedForgetCommitted (gxid_of me (log w)) (setCurrentDtxState me DTX_STATE_INSERTING_FORGET_COMMITTED (log w))) :
  Inv w -> At st true false w -> notifying st = true -> durable (log w) -> all_committed (segs w) ->
  Inv (set_log c' w) /\ At DTX_STATE_INSERTING_FORGET_COMMITTED true false (set_log c' w).
Proof.
  intros HI HA Hst Hd Hall.
  assert (HL : linv c').
  { eapply (my_action_inv w (InsertForget me)); [done |]. cbn. by eapply on_me. }
  assert (Hp : allProcs c' = <[me := mkProc g true false DTX_STATE_INSERTING_FORGET_COMMITTED]> (allProcs (log w))).
  { unfold c'. cbn. by rewrite (alter_insert _ _ _ _ HA). }
  assert (Hd' : durable c') by (unfold durable, c'; cbn; by eapply take_flushed_mono).
  split.
  - eapply inv_my_step; try done.
    + intros [Hnc _]. by apply com_take in Hd.
    + intros _. apply (iv_ready _ HI). left. by apply com_take in Hd.
  - unfold At, mine. cbn [log set_log]. by rewrite Hp, (At_lookup _ _ _ HA).
Qed.

Lemma forgotten_step w (c' := set_includeInCkpt me false (setCurrentDtxState me DTX_STATE_INSERTED_FORGET_COMMITTED (log w))) :
  Inv w -> At DTX_STATE_INSERTING_FORGET_COMMITTED true false w ->
  Inv (set_log c' w) /\ At DTX_STATE_INSERTED_FORGET_COMMITTED false false (set_log c' w).
Proof.
  intros HI HA. eapply (after_commit_step w _ _ (mkProc g false false DTX_STATE_INSERTED_FORGET_COMMITTED)); try done.
  - eapply (my_action_inv w (Forgotten me)); [done |]. cbn. by eapply on_me.
  - unfold c'. cbn. by rewrite alter_twice, (alter_insert _ _ _ _ HA).
  - by eapply At_com.
Qed.

(** The session has left the transaction. *)
Definition ended (w : World) : Prop := mine (log w) idle_proc.

Lemma end_step w st :
  Inv w -> At st false false w -> before_commit st = true \/ st = DTX_STATE_INSERTED_FORGET_COMMITTED ->
  Inv (set_log (ProcArrayEndGxact me (log w)) w) /\ ended (set_log (ProcArrayEndGxact me (log w)) w).
Proof.
  intros HI HA Hst. set (c' := ProcArrayEndGxact me (log w)).
  assert (HL : linv c').
  { eapply (my_action_inv w (EndXact me)); [done |]. cbn. eapply on_me; [done | done |]. cbn. rewrite andb_true_r.
    apply orb_true_iff. destruct Hst; [by left | right; by apply bool_decide_eq_true]. }
  assert (Hc : allProcs c' = <[me := idle_proc]> (allProcs (log w)) /\ phase c' = phase (log w) /\ nextGxid c' = nextGxid (log w) /\
               shmCommittedGxidArray c' = shmCommittedGxidArray (log w) /\ wal c' = wal (log w) /\ flushed c' = flushed (log w)).
  { unfold c', ProcArrayEndGxact. case_match; cbn; rewrite (alter_insert _ _ _ _ HA); done. }
  destruct Hc as (H1 & H2 & H3 & H4 & H5 & H6).
  assert (Hd : durable c' <-> durable (log w)) by (unfold durable; by rewrite H5, H6).
  pose proof (iv_g _ HI) as Hg.
  split.
  - eapply (inv_my_step w c' _ idle_proc); try done.
    + tauto.
    + intros [Hnc _]. split; [by rewrite H5 |]. unfold mine. rewrite H1, (At_lookup _ _ _ HA). intros y [= <-] Hy.
      cbn in Hy. unfold InvalidDistributedTransactionId in Hy. lia.
    + intros [Hcm | (y & Hy & Hyg & _)]; [apply (iv_ready _ HI); left; by rewrite <- H5 |].
      unfold mine in Hy. rewrite H1, (At_lookup _ _ _ HA) in Hy. simplify_eq. cbn in Hyg. unfold InvalidDistributedTransactionId in *. lia.
    + rewrite H5, Hd. apply (iv_forg _ HI).
  - unfold ended, mine. cbn [log set_log]. by rewrite H1, (At_lookup _ _ _ HA).
Qed.

(** A record or a flush that has nothing to do with the transaction. *)
Lemma insert_other_step w : Inv w -> Inv (set_log (XLogInsert XLOG_OTHER (log w)) w) /\ frame w (set_log (XLogInsert XLOG_OTHER (log w)) w).
Proof.
  intros HI. pose proof (act_inv (OtherLog InsertOther) w HI) as H. cbn in H. rewrite bool_decide_true in H by apply HI. done.
Qed.

Lemma flush_other_step n w : Inv w -> Inv (set_log (XLogFlush n (log w)) w) /\ frame w (set_log (XLogFlush n (log w)) w).
Proof.
  intros HI. pose proof (act_inv (OtherLog (FlushWal n)) w HI) as H. cbn in H. rewrite bool_decide_true in H by apply HI. done.
Qed.

(** ** Facts about the session *)

Definition participants (w : World) : Prop :=
  forall i s, segs w !! i = Some s -> joined s = true -> i ∈ dtxSegments (sess w).
Definition writers (w : World) : Prop :=
  forall s, s ∈ segs w -> wrote s = true -> executorDidWriteXLog (sess w) = true.

Lemma robust_and R1 R2 : robust R1 -> robust R2 -> robust (fun w => R1 w /\ R2 w).
Proof.
  intros [S1 B1] [S2 B2]. constructor.
  - intros w w' Hf []. split; eauto.
  - intros w l s' HI [] Hf Hs. split; auto.
Qed.

Lemma robust_at st inc dl : robust (At st inc dl).
Proof.
  constructor; [| done]. intros w w' Hf. unfold At, mine. by rewrite (fr_mine _ _ Hf).
Qed.

Lemma robust_durable : robust (fun w => durable (log w)).
Proof. constructor; [| done]. intros w w' Hf. apply Hf. Qed.

Lemma robust_committed : robust (fun w => all_committed (segs w)).
Proof.
  constructor; [intros w w' Hf; apply Hf |]. intros w l s' HI Ha Hf _. by eapply evolve_committed.
Qed.

Lemma robust_sess (f : Session -> Prop) : (forall s, f s -> f (with_lost true s)) -> robust (fun w => f (sess w)).
Proof.
  intros Hf. constructor.
  - intros w w' Hfr H. by rewrite (fr_sess _ _ Hfr).
  - intros w l s' HI H _ [-> | ->]; cbn; auto.
Qed.

Lemma robust_participants : robust participants.
Proof.
  constructor.
  - intros w w' Hf H i s Hi Hj. rewrite (fr_sess _ _ Hf).
    destruct (Forall2_lookup_r _ _ _ _ _ (fr_segs _ _ Hf) Hi) as (s0 & H0 & Hj0 & _). apply (H i s0 H0). congruence.
  - intros w l s' HI H Hf Hs i s Hi Hj. cbn in Hi. destruct (Forall2_lookup_r _ _ _ _ _ Hf Hi) as (s0 & H0 & _ & [J _ _ _ _]).
    assert (dtxSegments s' = dtxSegments (sess w)) as E by (destruct Hs as [-> | ->]; done). cbn. rewrite E. apply (H i s0 H0). congruence.
Qed.

Lemma robust_writers : robust writers.
Proof.
  constructor.
  - intros w w' Hf H s [i Hi]%list_elem_of_lookup Hw. rewrite (fr_sess _ _ Hf).
    destruct (Forall2_lookup_r _ _ _ _ _ (fr_segs _ _ Hf) Hi) as (s0 & H0 & _ & Hw0 & _). apply (H s0); [by eapply list_elem_of_lookup_2 | congruence].
  - intros w l s' HI H Hf Hs s Hin Hw. destruct (evolve_elem _ _ _ _ Hf Hin) as (s0 & H0 & _ & [_ W _ _ _]).
    assert (executorDidWriteXLog s' = executorDidWriteXLog (sess w)) as E by (destruct Hs as [-> | ->]; done). cbn. rewrite E. apply (H s0 H0). congruence.
Qed.

Definition capable (w : World) : Prop := context (sess w) = DTX_CONTEXT_QD_DISTRIBUTED_CAPABLE.

Lemma robust_capable : robust capable.
Proof. by apply (robust_sess (fun s => context s = DTX_CONTEXT_QD_DISTRIBUTED_CAPABLE)). Qed.

#[local] Hint Resolve robust_and robust_at robust_durable robust_committed robust_capable robust_participants robust_writers : robust.
#[local] Hint Resolve rb_stable : robust.

(** The session can still abort. *)
Definition can_abort (w : World) : Prop := exists st, At st false false w /\ before_commit st = true.

(** An error of the commit: a crash, or the transaction can be aborted. *)
Definition bad (l : elevel) (w : World) : Prop := Inv w /\ (l = PANIC \/ can_abort w).

Lemma crashed_bad l w : crashed l w -> bad l w.
Proof. intros [-> HI]. split; auto. Qed.

Lemma failed_bad st (R : World -> Prop) l w :
  before_commit st = true -> failed (fun w => At st false false w /\ R w) l w -> bad l w.
Proof. intros Hb [HI [-> | [-> [HA _]]]]; (split; [done |]); [by left |]. right. by exists st. Qed.

Lemma At_state w st inc dl : At st inc dl w -> my_state me w = st.
Proof. unfold At, mine, my_state. by intros ->. Qed.

(** ** The first phase *)

Lemma interrupts_bad st (R : World -> Prop) :
  robust R -> before_commit st = true ->
  spec (fun w => Inv w /\ At st false false w /\ R w) CHECK_FOR_INTERRUPTS (fun _ w => Inv w /\ At st false false w /\ R w) bad.
Proof.
  intros HR Hb. eapply spec_weaken; [apply (interrupts_spec (fun w => At st false false w /\ R w)) | done | done |].
  - auto with robust.
  - intros l w [HI Hl]. split; [done |]. destruct l; [| | by left]; right; destruct Hl as [HA _]; try done; by exists st.
Qed.

Lemma setState_spec st st' (R : World -> Prop) :
  before_commit st = true -> before_commit st' = true -> st' <> DTX_STATE_ACTIVE_DISTRIBUTED ->
  (can_commit st' = true -> can_commit st = true) -> (forall w c, R w -> R (set_log c w)) ->
  spec (fun w => Inv w /\ At st false false w /\ R w /\ (st' = DTX_STATE_PREPARED -> ready (segs w)))
    (setState me st') (fun _ w => Inv w /\ At st' false false w /\ R w) bad.
Proof.
  intros Hb Hb' Ha Hc HR. apply spec_modify. intros w (HI & HA & Hr & Hre).
  destruct (set_state_inv w st st' HI HA Hb Hb' Ha Hc Hre). auto.
Qed.

(** The targets of all queries have joined the transaction. *)
Definition touched (T : list nat) (w : World) : Prop :=
  forall t, t ∈ T -> exists s, segs w !! t = Some s /\ joined s = true.

Lemma robust_touched T : robust (touched T).
Proof.
  constructor.
  - intros w w' Hf H t Ht. destruct (H t Ht) as (s & Hs & Hj).
    destruct (Forall2_lookup_l _ _ _ _ _ (fr_segs _ _ Hf) Hs) as (s' & Hs' & Hj' & _). exists s'. split; [done | congruence].
  - intros w l s' HI H Hf _ t Ht. destruct (H t Ht) as (s & Hs & Hj).
    destruct (Forall2_lookup_l _ _ _ _ _ Hf Hs) as (s1 & Hs1 & _ & [J _ _ _ _]). exists s1. split; [done | congruence].
Qed.

Section commit.
Context (T : list nat).

Definition K (ts : list nat) (w : World) : Prop := dtxSegments (sess w) = ts /\ participants w /\ touched T w.
Definition finished (w : World) : Prop := all_committed (segs w) /\ touched T w.

Lemma robust_K ts : robust (K ts).
Proof. apply robust_and; [by apply (robust_sess (fun s => dtxSegments s = ts)) | auto using robust_touched with robust]. Qed.

Lemma robust_finished : robust finished.
Proof. apply robust_and; auto using robust_touched with robust. Qed.

#[local] Hint Resolve robust_K robust_finished : robust.

Lemma answered_ready ts w (P : Segment -> Prop) :
  K ts w -> (forall t, t ∈ ts -> exists s, segs w !! t = Some s /\ P s) -> forall s, s ∈ segs w -> joined s = true -> P s.
Proof.
  intros (Hts & Hp & _) HP s [i Hi]%list_elem_of_lookup Hj. specialize (Hp i s Hi Hj). rewrite Hts in Hp.
  destruct (HP i Hp) as (s' & Hs' & H). by simplify_eq.
Qed.

Lemma doPrepareTransaction_spec ts :
  spec (fun w => Inv w /\ At DTX_STATE_ACTIVE_DISTRIBUTED false false w /\ K ts w /\ capable w)
    (doPrepareTransaction me g max_tm_gxacts gp_gxid_prefetch_num)
    (fun _ w => Inv w /\ At DTX_STATE_PREPARED false false w /\ K ts w /\ capable w) bad.
Proof.
  eapply spec_bind; [apply (interrupts_bad _ (fun w => K ts w /\ capable w)); auto with robust |]. intros [].
  eapply spec_bind.
  { eapply spec_weaken; [apply (setState_spec DTX_STATE_ACTIVE_DISTRIBUTED DTX_STATE_PREPARING (fun w => K ts w /\ capable w)); done | | done | done].
    intros w (H1 & H2 & H3 & H4). by split_and!. }
  intros []. eapply (spec_bind _ _ _ (answered (fun w => At DTX_STATE_PREPARING false false w /\ K ts w /\ capable w) (fun s => prepared (disk s) = true) ts)).
  { eapply spec_weaken; [apply (currentDispatch_spec DTX_PROTOCOL_COMMAND_PREPARE
      (fun w => At DTX_STATE_PREPARING false false w /\ K ts w /\ capable w) (fun _ => True) (fun s => prepared (disk s) = true)) | done | done |].
    - auto with robust.
    - done.
    - intros dl s s' ok lost _ _ Hd. split; [done |]. intros ->. by eapply prepare_success.
    - intros w (_ & [H _] & _). done.
    - intros l w. by apply failed_bad. }
  intros [|].
  - eapply spec_weaken; [apply (setState_spec DTX_STATE_PREPARING DTX_STATE_PREPARED (fun w => K ts w /\ capable w)); done | | done | done].
    intros w (HI & (HA & HK & Hc) & Hans). split_and!; try done. intros _ s Hs Hj. left.
    eapply (answered_ready ts w (fun s => prepared (disk s) = true)); eauto.
  - apply spec_raise. intros w (HI & (HA & _) & _). split; [done |]. right. by exists DTX_STATE_PREPARING.
Qed.

(** ** Commit in one phase *)

Lemma few_writers_intro w ts :
  Inv w -> writers w -> K ts w -> executorDidWriteXLog (sess w) = false \/ (length ts < 2)%nat -> few_writers (segs w).
Proof.
  intros HI Hw (Hts & Hp & _) Hor i j s t Hi Hj Hs Ht.
  destruct Hor as [He | Hl]; [rewrite (Hw s) in He; [done | by eapply list_elem_of_lookup_2 | done] |].
  assert (Hjoin : forall k u, segs w !! k = Some u -> wrote u = true -> k ∈ ts).
  { intros k u Hk Hu. rewrite <- Hts. apply (Hp k u Hk). destruct (joined u) eqn:E; [done |].
    destruct (so_unjoined u (iv_segs _ HI u ltac:(by eapply list_elem_of_lookup_2)) E) as (_ & _ & Hwr). congruence. }
  pose proof (Hjoin _ _ Hi Hs) as H1. pose proof (Hjoin _ _ Hj Ht) as H2.
  destruct ts as [| a [| b ts]]; cbn in Hl; [by apply elem_of_nil in H1 | | lia].
  apply list_elem_of_singleton in H1, H2. congruence.
Qed.

(** The state of a one-phase commit, and the promise that goes with it. *)
Definition one_phase (w : World) : Prop :=
  (At DTX_STATE_ONE_PHASE_COMMIT false false w \/ At DTX_STATE_NOTIFYING_ONE_PHASE_COMMIT false false w).

Lemma robust_few : robust (fun w => few_writers (segs w)).
Proof.
  constructor.
  - intros w w' Hf Hw i j s t Hi Hj Hs Ht.
    destruct (Forall2_lookup_r _ _ _ _ _ (fr_segs _ _ Hf) Hi) as (s0 & Hi0 & _ & Hs0 & _).
    destruct (Forall2_lookup_r _ _ _ _ _ (fr_segs _ _ Hf) Hj) as (t0 & Hj0 & _ & Ht0 & _).
    eapply (Hw i j s0 t0); congruence.
  - intros w l s' HI Hw Hf _. by eapply evolve_few.
Qed.

Lemma doNotifyingOnePhaseCommit_spec ts :
  spec (fun w => Inv w /\ At DTX_STATE_ONE_PHASE_COMMIT false false w /\ (K ts w /\ capable w) /\ few_writers (segs w))
    (doNotifyingOnePhaseCommit me g max_tm_gxacts gp_gxid_prefetch_num)
    (fun _ w => Inv w /\ one_phase w /\ capable w /\ finished w) bad.
Proof.
  apply spec_get_bind. intros a. apply spec_pre. intros w0 [(HI & HA & [HK Hc] & Hf) ->]. pose proof HK as (Hts & Hpart & Ht).
  destruct (dtxSegments (sess w0)) as [| t l] eqn:El.
  { apply spec_ret. intros w <-. split_and!; [done | by left | done |].
    split; [| done]. intros s [i Hi]%list_elem_of_lookup Hj. specialize (Hpart i s Hi Hj). rewrite El in Hpart. by apply elem_of_nil in Hpart. }
  set (R := fun w => At DTX_STATE_NOTIFYING_ONE_PHASE_COMMIT false false w /\ (K ts w /\ capable w) /\ few_writers (segs w)).
  eapply spec_bind.
  { eapply spec_weaken; [apply (setState_spec DTX_STATE_ONE_PHASE_COMMIT DTX_STATE_NOTIFYING_ONE_PHASE_COMMIT
      (fun w => (K ts w /\ capable w) /\ few_writers (segs w))); done | | done | done].
    intros w <-. by split_and!. }
  intros []. eapply (spec_bind _ _ _ (answered R (fun s => fate (disk s) = Some true) ts)).
  { eapply spec_weaken; [apply (currentDispatch_spec DTX_PROTOCOL_COMMAND_COMMIT_ONEPHASE R (fun _ => True) (fun s => fate (disk s) = Some true)) | done | done |].
    - unfold R. auto using robust_few with robust.
    - intros w HIw (HAw & _ & Hfw). split; [| done]. split; [done |]. intros x Hx _ E. unfold At, mine in *. by simplify_eq.
    - intros dl s s' ok lost _ _ Hd. split; [done |]. intros ->. by eapply onephase_success.
    - intros w (_ & [[H _] _] & _). done.
    - intros e w. by apply failed_bad. }
  intros [|].
  - apply spec_ret. intros w (HIw & (HAw & [HKw Hcw] & _) & Hans). split_and!; [done | by right | done |].
    split; [| apply HKw]. intros s Hs Hj. eapply (answered_ready ts w (fun s => fate (disk s) = Some true)); eauto.
  - apply spec_raise. intros w (HIw & (HAw & _) & _). split; [done |]. right. by exists DTX_STATE_NOTIFYING_ONE_PHASE_COMMIT.
Qed.

Lemma prepareDtxTransaction_spec ts :
  spec (fun w => Inv w /\ At DTX_STATE_ACTIVE_DISTRIBUTED false false w /\ (K ts w /\ capable w) /\ writers w)
    (prepareDtxTransaction me g max_tm_gxacts gp_gxid_prefetch_num)
    (fun _ w => Inv w /\ ((At DTX_STATE_PREPARED false false w /\ K ts w /\ capable w) \/
                          (one_phase w /\ capable w /\ finished w))) bad.
Proof.
  apply spec_get_bind. intros a. apply spec_pre. intros w0 [(HI & HA & [HK Hc] & Hw) ->]. cbv zeta. cbn [id].
  rewrite bool_decide_true by exact Hc. cbn [negb]. unfold isCurrentDtxActivated. rewrite (At_state _ _ _ _ HA).
  rewrite bool_decide_false by done. cbn [negb].
  destruct (negb (executorDidWriteXLog (sess w0)) || (negb (hasXid (sess w0)) && (length (dtxSegments (sess w0)) <? 2)%nat)) eqn:E.
  - assert (Hfew : few_writers (segs w0)).
    { eapply few_writers_intro; [done | done | exact HK |]. apply orb_true_iff in E as [E | E]; [left; by apply negb_true_iff |].
      right. apply andb_true_iff in E as [_ E]. apply Nat.ltb_lt in E. destruct HK as [<- _]. done. }
    eapply spec_bind.
    { eapply spec_weaken; [apply (setState_spec DTX_STATE_ACTIVE_DISTRIBUTED DTX_STATE_ONE_PHASE_COMMIT
        (fun w => (K ts w /\ capable w) /\ few_writers (segs w))); done | | done | done].
      intros w <-. by split_and!. }
    intros []. eapply spec_weaken; [apply (doNotifyingOnePhaseCommit_spec ts) | done | | done]. intros _ w (H1 & H2 & H3 & H4). split; auto.
  - eapply spec_weaken; [apply (doPrepareTransaction_spec ts) | | | done].
    + intros w <-. by split_and!.
    + intros _ w (H1 & H2 & H3 & H4). split; auto.
Qed.

(** ** The commit record *)

Lemma mlog_spec f (P Q : World -> Prop) E : (forall w, P w -> Q (set_log (f (log w)) w)) -> spec P (mlog f) (fun _ => Q) E.
Proof. intros H. by apply spec_modify. Qed.

Lemma record_prepared_spec ts :
  spec (fun w => Inv w /\ At DTX_STATE_PREPARED false false w /\ K ts w /\ capable w)
    (RecordTransactionCommit me g max_tm_gxacts gp_gxid_prefetch_num)
    (fun _ w => Inv w /\ (At DTX_STATE_INSERTED_COMMITTED true false w /\ durable (log w)) /\ K ts w /\ capable w) bad.
Proof.
  assert (Hothers : forall st inc dl, spec (fun w => Inv w /\ At st inc dl w /\ K ts w /\ capable w) others
            (fun _ w => Inv w /\ At st inc dl w /\ K ts w /\ capable w) bad).
  { intros st inc dl. eapply spec_weaken; [apply (others_spec (fun w => At st inc dl w /\ K ts w /\ capable w)); auto with robust | done | done | apply crashed_bad]. }
  apply spec_get_bind. intros a. apply spec_pre. intros w0 [(HI & HA & HK & Hc) ->]. cbv zeta. cbn [id].
  rewrite (At_state _ _ _ _ HA), bool_decide_true by done.
  eapply (spec_bind _ _ _ (fun _ w => Inv w /\ At DTX_STATE_PREPARED false true w /\ K ts w /\ capable w)).
  { apply mlog_spec. intros w <-. destruct (delay_inv w0 HI HA). by split_and!. }
  intros []. eapply spec_bind; [apply Hothers |]. intros [].
  eapply (spec_bind _ _ _ (fun _ w => Inv w /\ At DTX_STATE_INSERTED_COMMITTED true true w /\ K ts w /\ capable w)).
  { eapply (spec_bind _ _ _ (fun _ w => Inv w /\ At DTX_STATE_INSERTING_COMMITTED false true w /\ K ts w /\ capable w)).
    { apply mlog_spec. intros w (H1 & H2 & H3 & H4). destruct (insert_commit_step w H1 H2). by split_and!. }
    intros []. eapply spec_bind; [apply Hothers |]. intros [].
    apply mlog_spec. intros w (H1 & H2 & H3 & H4). destruct (inserted_step w H1 H2). by split_and!. }
  intros []. eapply spec_bind; [apply Hothers |]. intros [].
  eapply (spec_bind _ _ _ (fun _ w => Inv w /\ (At DTX_STATE_INSERTED_COMMITTED true false w /\ durable (log w)) /\ K ts w /\ capable w)).
  { apply mlog_spec. intros w (H1 & H2 & H3 & H4). destruct (flush_commit_step w H1 H2) as (? & ? & ?). by split_and!. }
  intros []. eapply spec_weaken; [apply (others_spec (fun w => (At DTX_STATE_INSERTED_COMMITTED true false w /\ durable (log w)) /\ K ts w /\ capable w)) | done | done | apply crashed_bad].
  auto with robust.
Qed.

Lemma robust_one_phase : robust one_phase.
Proof.
  constructor.
  - intros w w' Hf [H | H]; [left | right]; by eapply (rb_stable _ (robust_at _ _ _)).
  - intros w l s' HI H _ _. done.
Qed.

Lemma record_onephase_spec :
  spec (fun w => Inv w /\ one_phase w /\ capable w /\ finished w)
    (RecordTransactionCommit me g max_tm_gxacts gp_gxid_prefetch_num)
    (fun _ w => Inv w /\ one_phase w /\ capable w /\ finished w) bad.
Proof.
  assert (Hrob : robust (fun w => one_phase w /\ capable w /\ finished w)) by auto using robust_one_phase with robust.
  apply spec_get_bind. intros a. apply spec_pre. intros w0 [(HI & HA & Hc & Hall) ->]. cbv zeta. cbn [id].
  rewrite bool_decide_false by (destruct HA as [HA | HA]; by rewrite (At_state _ _ _ _ HA)).
  destruct (hasXid (sess w0)); [| by apply spec_ret; intros w <-].
  eapply (spec_bind _ _ _ (fun _ w => Inv w /\ one_phase w /\ capable w /\ finished w)).
  { apply mlog_spec. intros w <-. destruct (insert_other_step w0 HI) as [H1 H2]. split; [done |]. eapply (rb_stable _ Hrob); eauto. }
  intros []. eapply spec_bind.
  { eapply spec_weaken; [apply (others_spec (fun w => one_phase w /\ capable w /\ finished w)) | done | done | apply crashed_bad]. apply Hrob. }
  intros []. apply mlog_spec. intros w (H1 & H2). destruct (flush_other_step (length (wal (log w))) w H1) as [H3 H4].
  split; [done |]. eapply (rb_stable _ Hrob); eauto.
Qed.

(** ** The second phase *)

(** The session notifies a commit that is on disk. *)
Definition second_phase (st : DtxState) (ts : list nat) (w : World) : Prop :=
  (At st true false w /\ durable (log w)) /\ K ts w.

Lemma robust_second st ts : robust (second_phase st ts).
Proof. unfold second_phase. auto with robust. Qed.

Definition commit_ready (s : Segment) : Prop := joined s = true -> prepared (disk s) = true \/ fate (disk s) = Some true.
Definition committed (s : Segment) : Prop := joined s = true -> fate (disk s) = Some true.

Lemma commit_broadcast_spec cmd st ts :
  cmd = DTX_PROTOCOL_COMMAND_COMMIT_PREPARED \/ cmd = DTX_PROTOCOL_COMMAND_RETRY_COMMIT_PREPARED ->
  spec (fun w => Inv w /\ second_phase st ts w) (broadcast_or_false me g max_tm_gxacts gp_gxid_prefetch_num cmd)
    (answered (second_phase st ts) committed ts) crashed.
Proof.
  intros Hcmd. apply (broadcast_or_false_spec cmd (second_phase st ts) commit_ready committed).
  - apply robust_second.
  - intros w HI ((HA & Hd) & HK). split; [by destruct Hcmd as [-> | ->] |].
    intros s Hs Hj. apply (iv_ready _ HI); [left; by apply com_take in Hd | done | done].
  - intros dl s s' ok lost Hok Hr Hdel.
    destruct (deliver_command_ok (eq cmd) _ _ _ _ _ _ Hok eq_refl Hdel) as [_ [J _ D _ _]]. split.
    + intros Hj. destruct (Hr ltac:(congruence)) as [Hp | Hf]; [| right; by apply D].
      destruct (dst_prepared _ _ _ D Hp) as [[] | [| (_ & c & <- & Hc)]]; [auto | auto |]. by destruct Hcmd as [-> | ->].
    + intros -> Hj. eapply commit_success; [done | done |]. apply Hr. congruence.
  - by intros w (_ & [H _]).
Qed.

Lemma commit_retry_spec ts n start timedout :
  spec (fun w => Inv w /\ second_phase DTX_STATE_RETRY_COMMIT_PREPARED ts w)
    (commit_retry me g max_tm_gxacts gp_gxid_prefetch_num dtx_phase2_retry_second n start timedout)
    (answered (second_phase DTX_STATE_RETRY_COMMIT_PREPARED ts) committed ts) crashed.
Proof.
  revert timedout. induction n as [| n IH]; intros timedout; cbn; destruct timedout; try (apply spec_ret; intros w []; by split_and!);
    [apply spec_raise; by intros w [] |].
  eapply spec_bind; [apply (ResetAllGangs_spec (second_phase DTX_STATE_RETRY_COMMIT_PREPARED ts)), robust_second |]. intros [].
  eapply spec_bind; [apply commit_broadcast_spec; auto |]. intros ok.
  apply spec_get_bind. intros t. destruct ok.
  - apply spec_ret. by intros w [H _].
  - eapply spec_weaken; [apply IH | | done | done]. by intros w [(H1 & H2 & _) _].
Qed.

Lemma doInsertForgetCommitted_spec st ts :
  notifying st = true ->
  spec (fun w => Inv w /\ second_phase st ts w /\ finished w)
    (doInsertForgetCommitted me g max_tm_gxacts gp_gxid_prefetch_num)
    (fun _ w => Inv w /\ At DTX_STATE_INSERTED_FORGET_COMMITTED false false w /\ finished w) crashed.
Proof.
  intros Hst.
  eapply (spec_bind _ _ _ (fun _ w => Inv w /\ At DTX_STATE_INSERTING_FORGET_COMMITTED true false w /\ finished w)).
  { apply mlog_spec. intros w (H1 & ((H2 & H3) & _) & H4). destruct (forget_step w st H1 H2 Hst H3 (proj1 H4)). by split_and!. }
  intros []. eapply spec_bind.
  { apply (others_spec (fun w => At DTX_STATE_INSERTING_FORGET_COMMITTED true false w /\ finished w)). auto with robust. }
  intros []. apply mlog_spec. intros w (H1 & H2 & H3). destruct (forgotten_step w H1 H2). by split_and!.
Qed.

Lemma answered_committed st ts w :
  answered (second_phase st ts) committed ts true w -> Inv w /\ second_phase st ts w /\ finished w.
Proof.
  intros (H1 & H2 & H3). split_and!; try done. split; [| apply H2]. intros s Hs Hj.
  eapply (answered_ready ts w committed); try done; [apply H2 | by apply H3].
Qed.

Lemma doNotifyingCommitPrepared_spec ts :
  spec (fun w => Inv w /\ (At DTX_STATE_INSERTED_COMMITTED true false w /\ durable (log w)) /\ K ts w)
    (doNotifyingCommitPrepared me g max_tm_gxacts gp_gxid_prefetch_num dtx_phase2_retry_second)
    (fun _ w => Inv w /\ At DTX_STATE_INSERTED_FORGET_COMMITTED false false w /\ finished w) crashed.
Proof.
  eapply (spec_bind _ _ _ (fun _ w => Inv w /\ second_phase DTX_STATE_NOTIFYING_COMMIT_PREPARED ts w)).
  { apply mlog_spec. intros w (H1 & (H2 & H3) & H4). destruct (notify_step w _ DTX_STATE_NOTIFYING_COMMIT_PREPARED H1 H2); auto.
    by split_and!. }
  intros []. eapply spec_bind; [apply commit_broadcast_spec; auto |]. intros ok.
  apply spec_get_bind. intros start.
  eapply (spec_bind _ _ _ (fun b w => exists st, notifying st = true /\ answered (second_phase st ts) committed ts b w)).
  { destruct ok; [apply spec_ret; intros w [H _]; by exists DTX_STATE_NOTIFYING_COMMIT_PREPARED |].
    eapply (spec_bind _ _ _ (fun _ w => Inv w /\ second_phase DTX_STATE_RETRY_COMMIT_PREPARED ts w)).
    { apply mlog_spec. intros w [(H1 & ((H2 & H3) & H4) & _) _].
      destruct (notify_step w _ DTX_STATE_RETRY_COMMIT_PREPARED H1 H2); auto. by split_and!. }
    intros []. eapply (spec_bind _ _ _ (fun _ w => Inv w /\ second_phase DTX_STATE_RETRY_COMMIT_PREPARED ts w)).
    { apply spec_modify. intros w [H1 H2]. split; [by apply inv_sess | done]. }
    intros []. intros w es Hw. unfold with_fuel.
    pose proof (commit_retry_spec ts (S (length es)) start (dtx_phase2_retry_second =? 0) w es Hw) as H.
    destruct (commit_retry _ _ _ _ _ _ _ _ w es) as [[[b | l] w'] es']; [by exists DTX_STATE_RETRY_COMMIT_PREPARED | done]. }
  intros [|].
  - apply spec_pre. intros w (st & Hst & H). eapply spec_weaken; [apply (doInsertForgetCommitted_spec st ts Hst) | | done | done].
    intros w' <-. by apply answered_committed.
  - apply spec_raise. intros w (st & _ & H & _). done.
Qed.

(** ** The end of a transaction *)

Lemma end_spec st (R : World -> Prop) E :
  before_commit st = true \/ st = DTX_STATE_INSERTED_FORGET_COMMITTED ->
  (forall w c s, R w -> R (set_sess s (set_log c w))) ->
  spec (fun w => Inv w /\ At st false false w /\ R w) (ProcArrayEndTransaction me) (fun _ w => Inv w /\ ended w /\ R w) E.
Proof.
  intros Hst HR w es (HI & HA & Hr). destruct (end_step w st HI HA Hst) as [H1 H2].
  unfold ProcArrayEndTransaction, bind, mlog, msess, modify. split_and!; [by apply inv_sess | done | by apply HR].
Qed.

Lemma finish_spec (R : World -> Prop) E :
  (forall w s, R w -> R (set_sess s w)) ->
  spec (fun w => Inv w /\ ended w /\ R w) (finishDistributedTransactionContext me) (fun _ w => Inv w /\ ended w /\ R w) E.
Proof.
  intros HR. apply spec_get_bind. intros a. apply spec_pre. intros w0 [(HI & He & Hr) ->].
  unfold my_state. unfold ended, mine in He. rewrite He. cbn. apply spec_modify. intros w <-. split_and!; [by apply inv_sess | done | auto].
Qed.

(** What follows the first phase. *)
Definition commit_rest : M unit :=
  bind CHECK_FOR_INTERRUPTS (fun _ =>
  bind (RecordTransactionCommit me g max_tm_gxacts gp_gxid_prefetch_num) (fun _ =>
  bind (get (notifyCommittedDtxTransactionIsNeeded me)) (fun needed =>
  bind (if needed then notifyCommittedDtxTransaction me g max_tm_gxacts gp_gxid_prefetch_num dtx_phase2_retry_second
        else ret tt) (fun _ =>
  bind (ProcArrayEndTransaction me) (fun _ => finishDistributedTransactionContext me))))).

Lemma commit_rest_prepared ts :
  spec (fun w => Inv w /\ At DTX_STATE_PREPARED false false w /\ K ts w /\ capable w) commit_rest
    (fun _ w => Inv w /\ ended w /\ finished w) bad.
Proof.
  eapply spec_bind; [apply (interrupts_bad _ (fun w => K ts w /\ capable w)); auto with robust |]. intros [].
  eapply spec_bind; [apply record_prepared_spec |]. intros [].
  apply spec_get_bind. intros needed. apply spec_pre. intros w0 [(HI & (HA & Hd) & HK & Hc) ->].
  unfold notifyCommittedDtxTransactionIsNeeded. rewrite bool_decide_true by exact Hc. unfold isCurrentDtxActivated.
  rewrite (At_state _ _ _ _ HA). rewrite bool_decide_false by done. cbn [negb andb].
  eapply (spec_bind _ _ _ (fun _ w => Inv w /\ At DTX_STATE_INSERTED_FORGET_COMMITTED false false w /\ finished w)).
  { apply spec_get_bind. intros a. apply spec_pre. intros w1 [<- ->]. cbn [id]. rewrite (At_state _ _ _ _ HA).
    eapply spec_weaken; [apply (doNotifyingCommitPrepared_spec ts) | | done | apply crashed_bad]. by intros w <-. }
  intros []. eapply spec_bind; [apply (end_spec _ finished); [by right | done] |].
  intros []. by apply (finish_spec finished).
Qed.

Lemma commit_rest_onephase :
  spec (fun w => Inv w /\ one_phase w /\ capable w /\ finished w) commit_rest
    (fun _ w => Inv w /\ ended w /\ finished w) bad.
Proof.
  assert (Hrob : robust (fun w => one_phase w /\ capable w /\ finished w)) by auto using robust_one_phase with robust.
  eapply spec_bind.
  { eapply spec_weaken; [apply (interrupts_spec _ (rb_stable _ Hrob)) | done | done |]. intros l w [HI Hl]. split; [done |].
    destruct l; [| | by left]; right; destruct Hl as [[HA | HA] _]; try done; eexists; (split; [exact HA | done]). }
  intros []. eapply spec_bind; [apply record_onephase_spec |]. intros [].
  apply spec_get_bind. intros needed.
  eapply (spec_bind _ _ _ (fun _ w => Inv w /\ one_phase w /\ capable w /\ finished w)).
  { destruct needed; [| apply spec_ret; by intros w []].
    apply spec_get_bind. intros a. apply spec_pre. intros w0 [[(HI & HA & Hc) _] ->]. cbn [id].
    assert (my_state me w0 = DTX_STATE_ONE_PHASE_COMMIT \/ my_state me w0 = DTX_STATE_NOTIFYING_ONE_PHASE_COMMIT) as [E | E]
      by (destruct HA as [HA | HA]; rewrite (At_state _ _ _ _ HA); auto); rewrite E; apply spec_ret; by intros w <-. }
  intros []. eapply (spec_bind _ _ _ (fun _ w => Inv w /\ ended w /\ finished w)).
  { apply spec_pre. intros w0 (HI & HA & Hc & Hall). destruct HA as [HA | HA].
    - eapply spec_weaken; [apply (end_spec DTX_STATE_ONE_PHASE_COMMIT finished); auto | by intros w <- | done | done].
    - eapply spec_weaken; [apply (end_spec DTX_STATE_NOTIFYING_ONE_PHASE_COMMIT finished); auto | by intros w <- | done | done]. }
  intros []. by apply (finish_spec finished).
Qed.

Lemma CommitTransaction_spec ts :
  spec (fun w => Inv w /\ At DTX_STATE_ACTIVE_DISTRIBUTED false false w /\ (K ts w /\ capable w) /\ writers w)
    (CommitTransaction me g max_tm_gxacts gp_gxid_prefetch_num dtx_phase2_retry_second)
    (fun _ w => Inv w /\ ended w /\ finished w) bad.
Proof.
  eapply spec_bind; [apply (interrupts_bad _ (fun w => (K ts w /\ capable w) /\ writers w)); auto with robust |]. intros [].
  eapply spec_bind; [apply (prepareDtxTransaction_spec ts) |]. intros [].
  apply spec_pre. intros w0 (HI & [H | H]).
  - eapply spec_weaken; [apply (commit_rest_prepared ts) | | done | done]. by intros w <-.
  - eapply spec_weaken; [apply commit_rest_onephase | | done | done]. by intros w <-.
Qed.

End commit.

(** ** Abort *)

Definition sending (ts : list nat) (w : World) : Prop := dtxSegments (sess w) = ts.

Lemma robust_sending ts : robust (sending ts).
Proof. by apply (robust_sess (fun s => dtxSegments s = ts)). Qed.

Lemma abort_allowed cmd st w :
  aborts_prepared cmd = true -> Inv w -> At st false false w -> before_commit st = true -> can_commit st = false -> allowed w cmd.
Proof. intros Hc HI HA Hb Hcc. pose proof (hopeless_intro _ _ _ _ HI HA Hb Hcc). destruct cmd; try done; by left. Qed.

Lemma abort_broadcast_spec cmd st ts :
  aborts_prepared cmd = true -> before_commit st = true -> can_commit st = false ->
  spec (fun w => Inv w /\ At st false false w /\ sending ts w) (broadcast_or_false me g max_tm_gxacts gp_gxid_prefetch_num cmd)
    (fun _ w => Inv w /\ At st false false w /\ sending ts w) crashed.
Proof.
  intros Hc Hb Hcc. eapply spec_weaken;
    [apply (broadcast_or_false_spec cmd (fun w => At st false false w /\ sending ts w) (fun _ => True) (fun _ => True)) | done | | done].
  - auto using robust_sending with robust.
  - intros w HI [HA _]. split; [by eapply abort_allowed | done].
  - done.
  - by intros w [_ H].
  - by intros b w (H1 & H2 & _).
Qed.

Lemma reset_at st : spec (fun w => Inv w /\ At st false false w) ResetAllGangs (fun _ w => Inv w /\ At st false false w) crashed.
Proof. apply ResetAllGangs_spec. auto with robust. Qed.

Lemma abort_retry_spec st n start timedout :
  before_commit st = true -> can_commit st = false ->
  spec (fun w => Inv w /\ At st false false w)
    (abort_retry me g max_tm_gxacts gp_gxid_prefetch_num dtx_phase2_retry_second n start timedout)
    (fun _ w => Inv w /\ At st false false w) crashed.
Proof.
  intros Hb Hc. revert timedout. induction n as [| n IH]; intros timedout; cbn; destruct timedout; try (by apply spec_ret);
    [apply spec_raise; by intros w [] |].
  eapply spec_bind; [apply reset_at |]. intros [].
  apply spec_get_bind. intros all.
  eapply (spec_bind _ _ _ (fun _ w => Inv w /\ At st false false w /\ sending all w)).
  { apply spec_modify. intros w [[H1 H2] _]. split; [by apply inv_sess | done]. }
  intros []. eapply spec_bind; [by apply (abort_broadcast_spec DTX_PROTOCOL_COMMAND_RETRY_ABORT_PREPARED) |]. intros ok.
  apply spec_get_bind. intros t. destruct ok.
  - apply spec_ret. by intros w [(H1 & H2 & _) _].
  - eapply spec_weaken; [apply IH | | done | done]. by intros w [(H1 & H2 & _) _].
Qed.

Lemma retryAbortPrepared_spec st :
  before_commit st = true -> can_commit st = false ->
  spec (fun w => Inv w /\ At st false false w)
    (retryAbortPrepared me g max_tm_gxacts gp_gxid_prefetch_num dtx_phase2_retry_second)
    (fun _ w => Inv w /\ At st false false w) crashed.
Proof.
  intros Hb Hc. apply spec_get_bind. intros start.
  eapply (spec_bind _ _ _ (fun _ w => Inv w /\ At st false false w)).
  { intros w es [Hw _]. unfold with_fuel.
    pose proof (abort_retry_spec st (S (length es)) start (dtx_phase2_retry_second =? 0) Hb Hc w es Hw) as H.
    by destruct (abort_retry _ _ _ _ _ _ _ _ w es) as [[[b | l] w'] es']. }
  intros [|]; [by apply spec_ret | apply reset_at].
Qed.

Lemma at_can_abort st w : At st false false w -> before_commit st = true -> can_abort w.
Proof. by exists st. Qed.

Lemma doNotifyingAbort_spec st :
  before_commit st = true -> can_commit st = false ->
  spec (fun w => Inv w /\ At st false false w)
    (doNotifyingAbort me g max_tm_gxacts gp_gxid_prefetch_num dtx_phase2_retry_second)
    (fun _ w => Inv w /\ can_abort w) bad.
Proof.
  intros Hb Hc. apply spec_get_bind. intros a. apply spec_pre. intros w0 [[HI HA] ->]. rewrite (At_state _ _ _ _ HA).
  assert (Hweak : forall w, Inv w /\ At st false false w -> Inv w /\ can_abort w) by (intros w []; split; [done | by eapply at_can_abort]).
  assert (Htwo : forall cmd, aborts_prepared cmd = true ->
    spec (eq w0) (bind (broadcast_or_false me g max_tm_gxacts gp_gxid_prefetch_num cmd) (fun ok : bool => if ok then ret tt else
      bind (setState me DTX_STATE_RETRY_ABORT_PREPARED) (fun _ => bind (msess (with_context DTX_CONTEXT_QD_RETRY_PHASE_2)) (fun _ =>
        retryAbortPrepared me g max_tm_gxacts gp_gxid_prefetch_num dtx_phase2_retry_second))))
      (fun _ w => Inv w /\ can_abort w) bad).
  { intros cmd Hcmd. eapply (spec_bind _ _ _ (fun _ w => Inv w /\ At st false false w /\ sending (dtxSegments (sess w0)) w)).
    { eapply spec_weaken; [by apply (abort_broadcast_spec cmd st (dtxSegments (sess w0))) | by intros w <- | done | apply crashed_bad]. }
    intros [|]; [apply spec_ret; intros w (H1 & H2 & _); auto |].
    eapply spec_bind.
    { eapply spec_weaken; [by apply (setState_spec st DTX_STATE_RETRY_ABORT_PREPARED (fun _ => True)) | | done | done]. by intros w (H1 & H2 & _). }
    intros []. eapply (spec_bind _ _ _ (fun _ w => Inv w /\ At DTX_STATE_RETRY_ABORT_PREPARED false false w)).
    { apply spec_modify. intros w (H1 & H2 & _). split; [by apply inv_sess | done]. }
    intros []. eapply spec_weaken; [by apply (retryAbortPrepared_spec DTX_STATE_RETRY_ABORT_PREPARED) | done | | apply crashed_bad].
    intros _ w []. split; [done | by eapply at_can_abort]. }
  destruct st; try discriminate Hb; try discriminate Hc; cbn [before_commit can_commit] in *.
  - set (R := fun w => At DTX_STATE_NOTIFYING_ABORT_NO_PREPARED false false w /\ sending (dtxSegments (sess w0)) w).
    eapply (spec_bind _ _ _ (fun _ w => Inv w /\ R w)).
    { eapply spec_weaken; [apply (currentDispatch_spec DTX_PROTOCOL_COMMAND_ABORT_NO_PREPARED R (fun _ => True) (fun _ => True) ltac:(unfold R; auto using robust_sending with robust))
        with (ts := dtxSegments (sess w0)) | by intros w <- | by intros b w (H1 & H2 & _) |]; try done.
      - by intros w [_ H].
      - intros l w. by apply failed_bad. }
    intros [|]; [apply spec_ret; intros w (H1 & H2 & _); auto |].
    eapply spec_weaken; [apply (reset_at DTX_STATE_NOTIFYING_ABORT_NO_PREPARED) | by intros w (H1 & H2 & _) | intros [] w Hw; by apply Hweak | apply crashed_bad].
  - by apply Htwo.
  - by apply Htwo.
  - eapply spec_weaken; [by apply (retryAbortPrepared_spec DTX_STATE_RETRY_ABORT_PREPARED) | by intros w <- | intros [] w Hw; by apply Hweak | apply crashed_bad].
Qed.

Lemma notify_abort_spec st :
  before_commit st = true -> can_commit st = false ->
  spec (fun w => Inv w /\ At st false false w)
    (notify_abort me g max_tm_gxacts gp_gxid_prefetch_num dtx_phase2_retry_second) (fun _ w => Inv w /\ can_abort w) bad.
Proof.
  intros Hb Hc. apply spec_get_bind. intros a. apply spec_pre. intros w0 [[HI HA] ->]. cbn [id].
  assert (can_abort w0) by (by eapply at_can_abort).
  destruct (proc_exit_inprogress (sess w0)).
  - rewrite (At_state _ _ _ _ HA).
    assert (Hreset : spec (eq w0) ResetAllGangs (fun _ w => Inv w /\ can_abort w) bad).
    { eapply spec_weaken; [apply (reset_at st) | by intros w <- | | apply crashed_bad]. intros _ w []. split; [done | by eapply at_can_abort]. }
    destruct st; try exact Hreset; apply spec_raise; intros w <-; (split; [done | by right]).
  - eapply spec_weaken; [by apply (doNotifyingAbort_spec st) | by intros w <- | done | done].
Qed.

Lemma rollbackDtxTransaction_spec :
  spec (fun w => Inv w /\ can_abort w)
    (rollbackDtxTransaction me g max_tm_gxacts gp_gxid_prefetch_num dtx_phase2_retry_second) (fun _ w => Inv w /\ can_abort w) bad.
Proof.
  apply spec_get_bind. intros a. apply spec_pre. intros w0 [[HI Hca] ->]. cbv zeta. cbn [id].
  pose proof Hca as (st & HA & Hb).
  assert (Hret : spec (eq w0) (ret tt) (fun _ w => Inv w /\ can_abort w) bad) by (apply spec_ret; by intros w <-).
  assert (Hfatal : forall l, spec (eq w0) (raise l) (fun (_ : unit) w => Inv w /\ can_abort w) bad).
  { intros l. apply spec_raise. intros w <-. split; [done | by right]. }
  assert (Hset : forall st', before_commit st' = true -> can_commit st' = false ->
    spec (eq w0) (bind (setState me st') (fun _ => notify_abort me g max_tm_gxacts gp_gxid_prefetch_num dtx_phase2_retry_second)) (fun _ w => Inv w /\ can_abort w) bad).
  { intros st' Hb' Hc'. eapply spec_bind.
    { eapply spec_weaken; [apply (setState_spec st st' (fun _ => True)); try done | | done | done].
      - intros ->. done.
      - by rewrite Hc'.
      - intros w <-. split_and!; try done. intros ->. done. }
    intros []. eapply spec_weaken; [by apply (notify_abort_spec st') | by intros w (H1 & H2 & _) | done | done]. }
  destruct (negb _); [done |]. destruct (negb _); [done |]. rewrite (At_state _ _ _ _ HA).
  destruct st; try discriminate Hb; try (by apply Hset); try apply Hfatal; try apply Hret;
    try (destruct (_ || _); [apply Hret | by apply Hset]); try (apply Hset; by destruct (writerGangLost (sess w0))).
  eapply spec_weaken; [apply (reset_at DTX_STATE_NOTIFYING_ABORT_NO_PREPARED) | by intros w <- | | apply crashed_bad].
  intros _ w []. split; [done | by eapply at_can_abort].
Qed.

Lemma AbortTransaction_spec :
  spec (fun w => Inv w /\ can_abort w)
    (AbortTransaction me g max_tm_gxacts gp_gxid_prefetch_num dtx_phase2_retry_second) (fun _ w => Inv w /\ ended w /\ True) bad.
Proof.
  eapply (spec_bind _ _ _ (fun _ w => Inv w /\ can_abort w)).
  { apply spec_get_bind. intros lost. destruct lost; [| apply spec_ret; by intros w []].
    apply spec_pre. intros w0 [[HI (st & HA & Hb)] _].
    eapply spec_weaken; [apply (reset_at st) | by intros w <- | | apply crashed_bad]. intros _ w []. split; [done | by eapply at_can_abort]. }
  intros []. eapply spec_bind; [apply rollbackDtxTransaction_spec |]. intros [].
  apply spec_pre. intros w0 [HI (st & HA & Hb)]. eapply spec_weaken; [apply (end_spec st (fun _ => True)); auto | by intros w <- | done | done].
Qed.

Lemma AbortCurrentTransaction_spec :
  spec (fun w => Inv w /\ can_abort w)
    (AbortCurrentTransaction me g max_tm_gxacts gp_gxid_prefetch_num dtx_phase2_retry_second) (fun _ w => Inv w /\ ended w) bad.
Proof.
  eapply spec_bind; [apply AbortTransaction_spec |]. intros [].
  eapply spec_weaken; [by apply (finish_spec (fun _ => True)) | done | | done]. by intros _ w (H1 & H2 & _).
Qed.

Lemma end_idle c : mine c idle_proc -> ProcArrayEndGxact me c = c.
Proof.
  intros H. unfold ProcArrayEndGxact, gxid_of. rewrite (alter_insert _ _ _ _ H), H. cbn.
  change (mkProc InvalidDistributedTransactionId false false DTX_STATE_NONE) with idle_proc.
  rewrite list_insert_id by done. by destruct c.
Qed.

Lemma proc_exit_spec :
  spec (fun w => Inv w /\ can_abort w)
    (proc_exit me g max_tm_gxacts gp_gxid_prefetch_num dtx_phase2_retry_second) (fun _ w => Inv w /\ ended w) crashed.
Proof.
  intros w es [HI Hca]. unfold proc_exit. set (w1 := set_sess (with_exit true (sess w)) w).
  assert (Hw1 : Inv w1 /\ can_abort w1) by (split; [by apply inv_sess | done]).
  pose proof (AbortTransaction_spec w1 es Hw1) as H.
  assert (Hleave : forall w2, Inv w2 -> ended w2 \/ can_abort w2 ->
    Inv (set_segs (disconnect <$> segs w2) (set_log (ProcArrayEndGxact me (log w2)) w2)) /\
    ended (set_segs (disconnect <$> segs w2) (set_log (ProcArrayEndGxact me (log w2)) w2))).
  { intros w2 HI2 Hor. assert (H3 : Inv (set_log (ProcArrayEndGxact me (log w2)) w2) /\ ended (set_log (ProcArrayEndGxact me (log w2)) w2)).
    { destruct Hor as [He | (st & HA & Hb)]; [| eapply end_step; eauto]. rewrite end_idle by done. by destruct w2. }
    destruct H3 as [H3 H4]. split; [| done]. apply (inv_segs _ _ H3); [done | done |]. exact (reset_evolve _ H3). }
  destruct (AbortTransaction _ _ _ _ _ w1 es) as [[[[] | l] w2] es2].
  - destruct H as (H1 & H2 & _). apply Hleave; auto.
  - destruct H as [H1 H2]. destruct l; [| | done]; apply Hleave; try done; destruct H2; try done; auto.
Qed.

(** ** Queries *)

(** A broadcast to different segments. *)
Lemma broadcast_once (f : nat -> Delivery -> Segment -> Segment * bool * bool) (G : nat -> Segment -> Segment -> bool -> Prop)
    ts net l l' oks losts :
  NoDup ts -> (forall t dl s s' ok lost, t ∈ ts -> l !! t = Some s -> f t dl s = (s', ok, lost) -> G t s s' ok) ->
  broadcast f ts net l = (l', oks, losts) ->
  length l' = length l /\ (oks = true -> forall t, t ∈ ts -> is_Some (l !! t)) /\
  forall t s s', l !! t = Some s -> l' !! t = Some s' ->
    (t ∉ ts /\ s' = s) \/ (t ∈ ts /\ exists ok, G t s s' ok /\ (oks = true -> ok = true)).
Proof.
  revert net l l' oks losts. induction ts as [| t0 ts IH]; intros net l l' oks losts Hnd HG H; cbn in H.
  { simplify_eq. split_and!; [done | by intros _ t ?%elem_of_nil |]. intros t s s' H1 H2. left. split; [apply not_elem_of_nil | congruence]. }
  apply NoDup_cons in Hnd as [Hn Hnd]. destruct (l !! t0) as [s0 |] eqn:E0.
  - destruct (f t0 (default Undelivered (head net)) s0) as [[s0' ok0] lost0] eqn:Ef.
    destruct (broadcast f ts (tail net) (<[t0 := s0']> l)) as [[l1 oks1] losts1] eqn:Eb. simplify_eq.
    apply IH in Eb as (IL & IS & IH'); [| done | intros t dl s s' ok lost Ht Hs; apply HG; [by right | by rewrite list_lookup_insert_ne in Hs by (intros ->; done)]].
    rewrite length_insert in IL. split_and!; [done | |].
    { intros [_ Ho]%andb_true_iff t [-> | Ht]%elem_of_cons; [done |]. specialize (IS Ho t Ht).
      by rewrite list_lookup_insert_ne in IS by (intros ->; done). }
    intros t s s' H1 H2. destruct (decide (t = t0)) as [-> | Hne].
    + right. split; [by left |]. exists ok0. assert (s = s0) as -> by congruence.
      assert (HG0 : G t0 s0 s0' ok0) by (eapply HG; [by left | done | done]).
      destruct (IH' t0 s0' s') as [[_ ->] | [? _]]; [apply list_lookup_insert_eq; by eapply lookup_lt_Some | done | | done].
      split; [done |]. by intros [? _]%andb_true_iff.
    + destruct (IH' t s s') as [[H3 H4] | [H3 (ok & H4 & H5)]]; [by rewrite list_lookup_insert_ne | done | |].
      * left. split; [| done]. rewrite elem_of_cons. intros [|]; done.
      * right. split; [by right |]. exists ok. split; [done |]. intros [_ ?]%andb_true_iff. auto.
  - destruct (broadcast f ts (tail net) l) as [[l1 oks1] losts1] eqn:Eb. simplify_eq.
    apply IH in Eb as (IL & IS & IH'); [| done | intros t dl s s' ok lost Ht; apply HG; by right].
    split_and!; [done | done |]. intros t s s' H1 H2. assert (t <> t0) by congruence.
    destruct (IH' t s s' H1 H2) as [[H3 H4] | [H3 (ok & H4 & H5)]].
    + left. split; [| done]. rewrite elem_of_cons. intros [|]; done.
    + right. split; [by right |]. exists ok. split; [done |]. done.
Qed.

Lemma active_not_allowed w c :
  Inv w -> At DTX_STATE_ACTIVE_DISTRIBUTED false false w -> allowed w c ->
  c = DTX_PROTOCOL_COMMAND_ABORT_NO_PREPARED \/ c = DTX_PROTOCOL_COMMAND_PREPARE.
Proof.
  intros HI HA Hal. pose proof (before_not_durable _ _ _ _ HI HA eq_refl) as Hd.
  assert (Hh : ~ hopeless (log w)) by (intros [_ H]; by specialize (H _ HA eq_refl)).
  destruct c; cbn in Hal; auto; exfalso; tauto || (destruct Hal as [_ H]; by apply (H _ HA)).
Qed.

Lemma active_not_committed w s :
  Inv w -> At DTX_STATE_ACTIVE_DISTRIBUTED false false w -> s ∈ segs w -> fate (disk s) <> Some true.
Proof.
  intros HI HA Hs Hf. destruct (iv_true _ HI s Hs Hf) as [Hd | [_ H]]; [by eapply (before_not_durable _ _ _ _ HI HA) | by apply (H _ HA)].
Qed.

(** In an active transaction the segments may change as they like, if they do not
    commit and send nothing. *)
Lemma inv_active w l :
  Inv w -> At DTX_STATE_ACTIVE_DISTRIBUTED false false w ->
  (forall s', s' ∈ l -> seg_ok s' /\ fate (disk s') <> Some true /\ forall c, pending s' c -> allowed w c) ->
  Inv (set_segs l w).
Proof.
  intros HI HA Hl. pose proof HI as [I1 I2 I3 I4 I5 I6 I7 I8 I9 I10 I11 I12]. constructor; cbn; try done.
  - intros s Hs. by apply Hl.
  - intros s Hs Hf. by destruct (Hl s Hs) as (_ & H & _).
  - intros [Hc | (x & Hx & _ & Hp)]; [by apply (before_not_com _ _ _ _ HI HA) in Hc |]. unfold At, mine in *. simplify_eq.
  - intros Hf. by apply (before_not_forg _ _ _ _ HI HA) in Hf.
  - intros s c Hs Hc. destruct (Hl s Hs) as (_ & _ & H). destruct (active_not_allowed w c HI HA (H c Hc)) as [-> | ->]; done.
Qed.

(** An active transaction between two queries. *)
Definition open_xact (w : World) : Prop :=
  At DTX_STATE_ACTIVE_DISTRIBUTED false false w /\ capable w /\ participants w /\ writers w /\
  forall s, s ∈ segs w -> query_ok s.

Lemma stable_query : stable (fun w => forall s, s ∈ segs w -> query_ok s).
Proof.
  intros w w' Hf H s' [i Hi]%list_elem_of_lookup. destruct (Forall2_lookup_r _ _ _ _ _ (fr_segs _ _ Hf) Hi) as (s & Hs & _ & _ & HQ).
  apply HQ, H. by eapply list_elem_of_lookup_2.
Qed.

Lemma stable_open : stable open_xact.
Proof.
  intros w w' Hf (H1 & H2 & H3 & H4 & H5). split_and!.
  - by eapply (rb_stable _ (robust_at _ _ _)).
  - by eapply (rb_stable _ robust_capable).
  - by eapply (rb_stable _ robust_participants).
  - by eapply (rb_stable _ robust_writers).
  - by eapply stable_query.
Qed.

Lemma query_broadcast w e q net l oks losts :
  Inv w -> open_xact w -> (forall t, t ∈ q_segments q -> t ∈ dtxSegments (sess w)) ->
  broadcast (fun t => deliver_query e (bool_decide (t ∈ q_writers q))) (remove_dups (q_segments q)) net (segs w) = (l, oks, losts) ->
  Inv (set_segs l w) /\ participants (set_segs l w) /\
  (forall s, s ∈ l -> wrote s = true ->
     executorDidWriteXLog (sess w) || existsb (fun t => bool_decide (t ∈ q_writers q)) (q_segments q) = true) /\
  (oks = true -> forall s, s ∈ l -> query_ok s) /\
  (forall T, touched T w -> oks = true -> touched (T ++ q_segments q) (set_segs l w)).
Proof.
  intros HI (HA & _ & HP & HW & HQ) Hts H.
  apply (broadcast_once _ (fun t s s' ok => seg_ok s' /\ disk_step (allowed w) (disk s) (disk s') /\ (forall c, pending s' c -> pending s c \/ allowed w c) /\
    (wrote s' = true -> wrote s = true \/ t ∈ q_writers q) /\ (joined s = true -> joined s' = true) /\
    (ok = true -> query_ok s' /\ joined s' = true))) in H as (Hlen & Hsome & Hall);
    [| apply NoDup_remove_dups |].
  2: { intros t dl s s' ok lost Ht Hs Hd. pose proof (list_elem_of_lookup_2 _ _ _ Hs) as Hin.
    destruct (deliver_query_ok (allowed w) _ _ _ _ _ _ _ (iv_segs _ HI s Hin) (HQ s Hin) Hd) as (D1 & D2 & D3 & D4 & D5 & D6).
    split_and!; try done; [rewrite D5 | by intros Hj; rewrite D4, Hj].
    intros [-> | [?%bool_decide_eq_true _]%andb_true_iff]%orb_true_iff; auto. }
  assert (Hback : forall t s', l !! t = Some s' -> exists s, segs w !! t = Some s).
  { intros t s' Ht. apply lookup_lt_is_Some_2. rewrite <- Hlen. by eapply lookup_lt_Some. }
  split_and!.
  - apply inv_active; try done. intros s' [t Ht]%list_elem_of_lookup. destruct (Hback _ _ Ht) as [s Hs].
    pose proof (list_elem_of_lookup_2 _ _ _ Hs) as Hin.
    destruct (Hall t s s' Hs Ht) as [[_ ->] | [_ (ok & (G1 & G2 & G3 & _) & _)]].
    + split_and!; [by apply (iv_segs _ HI) | by eapply active_not_committed | intros c; by apply (iv_pend _ HI)].
    + split_and!; [done | | intros c Hc; destruct (G3 c Hc); [by eapply iv_pend | done]].
      intros Hf. destruct (dst_commit _ _ _ G2 Hf) as [Hf' | (c & Hc & Hcc)]; [by eapply active_not_committed |].
      destruct (active_not_allowed w c HI HA Hc) as [-> | ->]; done.
  - intros t s' Ht Hj. cbn in Ht. destruct (Hback _ _ Ht) as [s Hs]. cbn.
    destruct (Hall t s s' Hs Ht) as [[_ ->] | [Hin _]]; [by apply (HP t s) |]. apply Hts. by apply elem_of_remove_dups.
  - intros s' [t Ht]%list_elem_of_lookup Hw. destruct (Hback _ _ Ht) as [s Hs]. pose proof (list_elem_of_lookup_2 _ _ _ Hs) as Hin.
    destruct (Hall t s s' Hs Ht) as [[_ ->] | [Ht' (ok & (_ & _ & _ & G4 & _) & _)]]; [by rewrite (HW s Hin Hw) |].
    destruct (G4 Hw) as [Hw' | Hw']; [by rewrite (HW s Hin Hw') |]. apply orb_true_iff. right. apply existsb_exists. exists t.
    split; [by apply list_elem_of_In, elem_of_remove_dups | by apply bool_decide_eq_true].
  - intros Hok s' [t Ht]%list_elem_of_lookup. destruct (Hback _ _ Ht) as [s Hs].
    destruct (Hall t s s' Hs Ht) as [[_ ->] | [_ (ok & (_ & _ & _ & _ & _ & G5) & Hoks)]]; [apply HQ; by eapply list_elem_of_lookup_2 | naive_solver].
  - intros T HT Hok t Ht. cbn.
    assert (is_Some (segs w !! t)) as [s Hs].
    { apply elem_of_app in Ht as [Ht | Ht]; [destruct (HT t Ht) as (s & Hs & _); by exists s | by apply Hsome, elem_of_remove_dups]. }
    assert (is_Some (l !! t)) as [s' Hs'] by (apply lookup_lt_is_Some; rewrite Hlen; by eapply lookup_lt_Some). exists s'. split; [done |].
    destruct (Hall t s s' Hs Hs') as [[Hn ->] | [_ (ok & (_ & _ & _ & _ & _ & G5) & Hoks)]]; [| naive_solver].
    rewrite elem_of_remove_dups in Hn. apply elem_of_app in Ht as [Ht |]; [| done]. destruct (HT t Ht) as (s1 & Hs1 & Hj). by simplify_eq.
Qed.

Lemma open_bad w : Inv w -> open_xact w -> forall l, bad l w.
Proof. intros HI [HA _] l. split; [done |]. right. by exists DTX_STATE_ACTIVE_DISTRIBUTED. Qed.

Lemma open_events : spec (fun w => Inv w /\ open_xact w) next_event (fun _ w => Inv w /\ open_xact w) bad.
Proof. eapply spec_weaken; [apply next_event_spec, stable_open | done | done | apply crashed_bad]. Qed.

Lemma add_segments ts s t : t ∈ ts \/ t ∈ dtxSegments s -> t ∈ dtxSegments (addToGxactDtxSegments ts s).
Proof.
  intros H. cbn. apply elem_of_app. destruct (decide (t ∈ dtxSegments s)); [by left |]. right.
  apply list_elem_of_filter. destruct H; [| done]. split; [done | by apply elem_of_remove_dups].
Qed.

Lemma run_query_spec T q :
  spec (fun w => Inv w /\ open_xact w /\ touched T w) (run_query me g max_tm_gxacts gp_gxid_prefetch_num q)
    (fun _ w => Inv w /\ open_xact w /\ touched (T ++ q_segments q) w) bad.
Proof.
  assert (HR0 : stable (fun w => open_xact w /\ touched T w)).
  { intros w w' Hf []. split; [by eapply stable_open | by eapply (rb_stable _ (robust_touched T))]. }
  eapply spec_bind.
  { eapply spec_weaken; [apply (interrupts_spec _ HR0) | done | done |].
    intros l w [HI H]. destruct l; [by apply open_bad, H | by apply open_bad, H | split; auto]. }
  intros []. set (R := fun w => (open_xact w /\ touched T w) /\ forall t, t ∈ q_segments q -> t ∈ dtxSegments (sess w)).
  assert (HR : stable R).
  { intros w w' Hf [H1 H2]. split; [by eapply HR0 |]. by rewrite (fr_sess _ _ Hf). }
  eapply (spec_bind _ _ _ (fun _ w => Inv w /\ R w)).
  { apply spec_modify. intros w (HI & (HA & HC & HP & HW & HQ) & HT). split; [by apply inv_sess |]. split; [split; [split_and!; try done | done] |].
    - intros i s Hi Hj. apply add_segments. right. by eapply HP.
    - intros t Ht. apply add_segments. by left. }
  intros []. apply spec_get_bind. intros e. eapply (spec_bind _ _ _ (fun r w => Inv w /\ At DTX_STATE_ACTIVE_DISTRIBUTED false false w /\
    capable w /\ participants w /\ (forall s, s ∈ segs w -> wrote s = true ->
     executorDidWriteXLog (sess w) || existsb (fun t => bool_decide (t ∈ q_writers q)) (q_segments q) = true) /\
    (r.2 = true -> (forall s, s ∈ segs w -> query_ok s) /\ touched (T ++ q_segments q) w))).
  - eapply (spec_bind _ _ _ (fun _ w => Inv w /\ R w)).
    { eapply spec_weaken; [by apply (next_event_spec R) | by intros w [] | done | apply crashed_bad]. }
    intros ev. destruct (no_gang ev); [apply spec_raise; intros w [HI [[HO _] _]]; by apply open_bad |].
    intros w es [HI [[HO HT] Hts]]. unfold bind, get, modify, msess, ret. cbn.
    destruct (broadcast _ _ (replies ev) (segs w)) as [[l oks] losts] eqn:E. cbn.
    destruct (query_broadcast w e q _ l oks losts HI HO Hts E) as (B1 & B2 & B3 & B4 & B5). destruct HO as (HA & HC & _).
    assert (B6 : oks = true -> (forall s, s ∈ l -> query_ok s) /\ touched (T ++ q_segments q) (set_segs l w)) by auto.
    destruct losts; cbn; (split; [| done]); [by apply inv_sess | done].
  - intros [ev [|]]; cbn.
    + apply spec_modify. intros w (HI & HA & HC & HP & HW & HQ). destruct (HQ eq_refl). split; [by apply inv_sess |]. by split_and!.
    + apply spec_raise. intros w (HI & HA & _). split; [done |]. right. by exists DTX_STATE_ACTIVE_DISTRIBUTED.
Qed.

Lemma run_queries_spec T qs :
  spec (fun w => Inv w /\ open_xact w /\ touched T w) (run_queries me g max_tm_gxacts gp_gxid_prefetch_num qs)
    (fun _ w => Inv w /\ open_xact w /\ touched (T ++ concat (q_segments <$> qs)) w) bad.
Proof.
  revert T. induction qs as [| q qs IH]; intros T; cbn; [rewrite app_nil_r; by apply spec_ret |].
  eapply spec_bind; [apply run_query_spec |]. intros []. rewrite app_assoc. apply IH.
Qed.

(** The queries of a transaction and its commit. *)
Lemma queries_commit_spec T qs :
  spec (fun w => Inv w /\ open_xact w /\ touched T w)
    (bind (run_queries me g max_tm_gxacts gp_gxid_prefetch_num qs)
      (fun _ => CommitTransaction me g max_tm_gxacts gp_gxid_prefetch_num dtx_phase2_retry_second))
    (fun _ w => Inv w /\ ended w /\ finished (T ++ concat (q_segments <$> qs)) w) bad.
Proof.
  eapply spec_bind; [apply run_queries_spec |]. intros []. apply spec_pre. intros w0 (HI & (HA & HC & HP & HW & _) & HT).
  eapply spec_weaken; [apply (CommitTransaction_spec (T ++ concat (q_segments <$> qs)) (dtxSegments (sess w0))) | by intros w <- | done | done].
Qed.

(** ** The session *)

Lemma abort_until_done_spec n :
  spec (fun w => Inv w /\ can_abort w)
    (abort_until_done me g max_tm_gxacts gp_gxid_prefetch_num dtx_phase2_retry_second n) (fun _ w => Inv w /\ ended w)
    (fun l w => bad l w /\ l <> ERROR).
Proof.
  induction n as [| n IH]; cbn.
  - apply spec_raise. intros w [HI H]. split; [split; auto | done].
  - eapply spec_try; [apply AbortCurrentTransaction_spec | |].
    + eapply spec_weaken; [exact IH | | done | done]. by intros w [HI [| H]].
    + done.
Qed.

(** The end of a session: the transaction is over, or the coordinator crashed. *)
Lemma session_transaction_spec qs commit :
  spec (fun w => Inv w /\ open_xact w)
    (session_transaction me g max_tm_gxacts gp_gxid_prefetch_num dtx_phase2_retry_second qs commit)
    (fun _ w => Inv w /\ ended w) crashed.
Proof.
  assert (H : spec (fun w => Inv w /\ open_xact w)
    (pg_try (bind (run_queries me g max_tm_gxacts gp_gxid_prefetch_num qs) (fun _ =>
        if commit then CommitTransaction me g max_tm_gxacts gp_gxid_prefetch_num dtx_phase2_retry_second
        else AbortCurrentTransaction me g max_tm_gxacts gp_gxid_prefetch_num dtx_phase2_retry_second))
      (with_fuel (abort_until_done me g max_tm_gxacts gp_gxid_prefetch_num dtx_phase2_retry_second)))
    (fun _ w => Inv w /\ ended w) (fun l w => bad l w /\ l <> ERROR)).
  { eapply spec_try.
    - assert (Hnil : forall w, Inv w /\ open_xact w -> Inv w /\ open_xact w /\ touched [] w).
      { intros w []. split_and!; [done | done |]. by intros t ?%elem_of_nil. }
      destruct commit.
      + eapply spec_weaken; [apply (queries_commit_spec []) | exact Hnil | by intros _ w (? & ? & _) | done].
      + eapply spec_bind; [eapply spec_weaken; [apply (run_queries_spec []) | exact Hnil | done | done] |]. intros [].
        eapply spec_weaken; [apply AbortCurrentTransaction_spec | | done | done].
        intros w (HI & [HA _] & _). split; [done | by exists DTX_STATE_ACTIVE_DISTRIBUTED].
    - intros w es HE. apply (abort_until_done_spec _ w es). by destruct HE as [HI [| H]].
    - intros l w Hl HE. by split. }
  intros w es HP. specialize (H w es HP). unfold session_transaction, on_fatal.
  destruct (pg_try _ _ w es) as [[[[] | l] w'] es']; [done |]. destruct H as [[HI Hl] Hne]. destruct l; [done | | done].
  destruct Hl as [| Hl]; [done |]. by apply (proc_exit_spec w' es').
Qed.

(** ** Recovery *)

(** No process runs the transaction. *)
Definition gone (w : World) : Prop := forall x, mine (log w) x -> p_gxid x <> g.

Lemma gone_all w : Inv w -> gone w -> forall p x, allProcs (log w) !! p = Some x -> p_gxid x <> g.
Proof. intros HI Hg p x Hp Hx. pose proof (iv_owner _ HI _ _ Hp Hx) as ->. by eapply Hg. Qed.

Lemma stable_gone : stable gone.
Proof. intros w w' Hf H. unfold gone, mine. by rewrite (fr_mine _ _ Hf). Qed.

(** A step of the recovery process in the log. *)
Lemma inv_recovery_step w c' v :
  Inv w -> linv c' -> phase c' = Running -> nextGxid c' = nextGxid (log w) -> allProcs c' = allProcs (log w) ->
  wal c' = wal (log w) ++ v -> ~ com v g -> (forg v g -> durable (log w) /\ all_committed (segs w)) ->
  flushed c' = flushed (log w) -> shmCommittedGxidArray c' = shmCommittedGxidArray (log w) \/ shmCommittedGxidArray c' = [] ->
  Inv (set_log c' w).
Proof.
  intros [I1 I2 I3 I4 I5 I6 I7 I8 I9 I10 I11 I12] HL Hph Hn Hp Hw Hc Hf Hfl Ha.
  assert (Hd : durable (log w) -> durable c').
  { unfold durable. rewrite Hw, Hfl. by apply take_flushed_mono. }
  assert (Hm : forall x, mine c' x <-> mine (log w) x) by (intros x; unfold mine; by rewrite Hp).
  assert (Hcom : com (wal c') g <-> com (wal (log w)) g) by (rewrite Hw, com_app; tauto).
  assert (Hh : hopeless (log w) -> hopeless c').
  { intros [H1 H2]. split; [by rewrite Hcom |]. intros x. rewrite Hm. apply H2. }
  assert (H1 : onephase w -> onephase (set_log c' w)).
  { intros [F S]. split; [done |]. intros x. cbn. rewrite Hm. apply S. }
  constructor; cbn; try done.
  - lia.
  - by rewrite Hp.
  - intros s Hs Ht. destruct (I6 s Hs Ht); auto.
  - intros [Hg | (x & Hx & Hx')]; apply I7; [left; tauto | right; exists x; split; [by apply Hm | done]].
  - rewrite Hw, forg_app. intros [Hg | Hg]; [destruct (I8 Hg) | destruct (Hf Hg)]; auto.
  - intros s c Hs Hpe. pose proof (I9 s c Hs Hpe) as HA. destruct c; cbn in *; try done; auto; destruct HA as [| []]; auto.
  - destruct Ha as [-> | ->]; [auto | intros H; by apply elem_of_nil in H].
  - destruct Ha as [-> | ->]; auto.
  - intros Hdn x. rewrite Hm. auto.
Qed.

Lemma recover_forget_inv w x :
  Inv w -> shmCommittedGxidArray (log w) !! recovered (log w) = Some x -> (x = g -> all_committed (segs w)) ->
  Inv (set_log (with_array (shmCommittedGxidArray (log w)) (S (recovered (log w))) (RecordDistributedForgetCommitted x (log w))) w).
Proof.
  intros HI Hx Hall. apply (inv_recovery_step w _ [XLOG_XACT_DISTRIBUTED_FORGET x]); try done; [| apply HI | | | by left].
  - refine (proj1 (system_action_inv gp_gxid_prefetch_num RecoverForget (log w) _ Hprefetch (iv_phase _ HI) (iv_log _ HI) _)).
    cbn. by rewrite Hx.
  - by intros ?%list_elem_of_singleton.
  - intros [= Hgx]%list_elem_of_singleton. split; [| by apply Hall]. rewrite <- Hgx in Hx. apply (iv_arr _ HI). by eapply list_elem_of_lookup_2.
Qed.

Lemma recover_start_inv w : Inv w -> Inv (set_log (with_array (shmCommittedGxidArray (log w)) 0 (log w)) w).
Proof.
  intros HI. apply (inv_recovery_step w _ []); try done; [| apply HI | by rewrite app_nil_r | apply com_nil | by intros ?%forg_nil | by left].
  by refine (proj1 (system_action_inv gp_gxid_prefetch_num RecoverStart (log w) _ Hprefetch (iv_phase _ HI) (iv_log _ HI) _)).
Qed.

Lemma recover_reset_inv w :
  Inv w -> (length (shmCommittedGxidArray (log w)) <= recovered (log w))%nat -> Inv (set_log (with_array [] 0 (log w)) w).
Proof.
  intros HI Hlen. apply (inv_recovery_step w _ []); try done; [| apply HI | by rewrite app_nil_r | apply com_nil | by intros ?%forg_nil | by right].
  apply with_array_inv; [apply HI | | |]; try (intros x Hx; by apply elem_of_nil in Hx).
  intros x Hx. left. apply (li_rec _ _ (iv_log _ HI)). by rewrite take_ge.
Qed.

Lemma recovery_broadcast_committed net l l' :
  recovery_broadcast DTX_PROTOCOL_COMMAND_RECOVERY_COMMIT_PREPARED net l = (l', true) -> ready l ->
  (forall s, s ∈ l -> seg_ok s) -> all_committed l'.
Proof.
  revert net l'. induction l as [| s l IH]; intros net l' H Hr Hok; cbn in H; [simplify_eq; intros s Hs; by apply elem_of_nil in Hs |].
  destruct (deliver_recovery _ (default Undelivered (head net)) s) as [s' ok] eqn:E.
  destruct (recovery_broadcast _ (tail net) l) as [l1 oks] eqn:E'. injection H as <- [-> ->]%andb_true_iff.
  intros x [-> | Hx]%elem_of_cons Hj.
  - eapply recovery_commit_success; [done |]. apply Hr; [by left |].
    destruct (deliver_recovery_ok (fun _ => True) DTX_PROTOCOL_COMMAND_RECOVERY_COMMIT_PREPARED (default Undelivered (head net)) s s' true) as [_ Hst]; [apply Hok; by left | done | done |].
    by rewrite <- (ss_joined _ _ _ Hst).
  - eapply IH; try done; [intros y Hy; apply Hr; by right | intros y Hy; apply Hok; by right].
Qed.

(** What the recovery process knows while it works on the array. *)
Definition recovering (n : nat) (w : World) : Prop :=
  gone w /\ (length (shmCommittedGxidArray (log w)) - recovered (log w) = n)%nat.

Lemma stable_recovering n : stable (recovering n).
Proof. intros w w' Hf [H1 H2]. split; [by eapply stable_gone |]. by rewrite (fr_array _ _ Hf), (fr_recovered _ _ Hf). Qed.

Definition unwell (l : elevel) (w : World) : Prop := Inv w /\ gone w.

Lemma next_event_gone R : stable R -> (forall w, R w -> gone w) ->
  spec (fun w => Inv w /\ R w) next_event (fun _ w => Inv w /\ R w) unwell.
Proof.
  intros HR Hg w es [HI Hr]. destruct es as [| e es]; [split; auto |].
  exact (next_event_spec R HR w (e :: es) (conj HI Hr)).
Qed.

(** The entry of the array that is next, and that others leave alone. *)
Definition next_entry (n : nat) (x : Z) (w : World) : Prop :=
  recovering (S n) w /\ shmCommittedGxidArray (log w) !! recovered (log w) = Some x.

Lemma stable_next_entry n x : stable (next_entry n x).
Proof. intros w w' Hf [H1 H2]. split; [by eapply stable_recovering |]. by rewrite (fr_array _ _ Hf), (fr_recovered _ _ Hf). Qed.

Lemma notify_in_doubt_spec n x e :
  spec (fun w => Inv w /\ next_entry n x w)
    (if x =? g
     then bind (get (fun w => recovery_broadcast DTX_PROTOCOL_COMMAND_RECOVERY_COMMIT_PREPARED (replies e) (segs w)))
            (fun r => bind (modify (set_segs r.1)) (fun _ => ret r.2))
     else ret (negb (quiet e)))
    (fun ok w => Inv w /\ next_entry n x w /\ (ok = true -> x = g -> all_committed (segs w))) unwell.
Proof.
  destruct (Z.eqb_spec x g) as [-> | Hne]; [| by apply spec_ret; intros w []].
  intros w es [HI [Hr Hx]]. unfold bind, get, modify, ret. cbn.
  assert (Hd : durable (log w)) by (apply (iv_arr _ HI); by eapply list_elem_of_lookup_2).
  destruct (recovery_broadcast _ (replies e) (segs w)) as [l ok] eqn:E. cbn.
  pose proof (recovery_broadcast_evolve w DTX_PROTOCOL_COMMAND_RECOVERY_COMMIT_PREPARED (replies e) (segs w) (iv_segs _ HI) Hd) as Hf.
  rewrite E in Hf. cbn in Hf. split_and!; try done; [by apply (inv_segs w) |]. intros -> _.
  eapply recovery_broadcast_committed; [done | | apply (iv_segs _ HI)]. apply (iv_ready _ HI). left. by apply com_take in Hd.
Qed.

Lemma recover_committed_spec n :
  spec (fun w => Inv w /\ recovering n w) (recover_committed me g max_tm_gxacts gp_gxid_prefetch_num n)
    (fun _ w => Inv w /\ recovering 0 w) unwell.
Proof.
  induction n as [| n IH]; cbn [recover_committed]; [by apply spec_ret |].
  apply spec_get_bind. intros c. apply spec_pre. intros w0 [[HI Hr] ->]. cbn [id].
  destruct (shmCommittedGxidArray (log w0) !! recovered (log w0)) as [x |] eqn:Ex.
  2: { apply lookup_ge_None in Ex. destruct Hr. lia. }
  eapply (spec_bind _ _ _ (fun _ w => Inv w /\ next_entry n x w)).
  { eapply spec_weaken; [apply (next_event_gone (next_entry n x)), (fun w H => proj1 (proj1 H)); apply stable_next_entry | | done | done].
    by intros w <-. }
  intros e. eapply spec_bind; [apply notify_in_doubt_spec |]. intros [|]; cbn.
  - eapply (spec_bind _ _ _ (fun _ w => Inv w /\ recovering n w)); [apply spec_modify | intros []; exact IH].
    intros w (H1 & [[H2 H3] H4] & H5). split; [apply recover_forget_inv; auto |]. split; [done |]. cbn. lia.
  - apply spec_raise. by intros w (H1 & [[H2 _] _] & _).
Qed.

Lemma abort_in_doubt_spec e :
  spec (fun w => Inv w /\ gone w /\ shmCommittedGxidArray (log w) = [])
    (bind (get (fun w => recovery_broadcast DTX_PROTOCOL_COMMAND_RECOVERY_ABORT_PREPARED (replies e) (segs w)))
       (fun r => modify (set_segs r.1)))
    (fun _ w => Inv w /\ gone w /\ shmCommittedGxidArray (log w) = []) unwell.
Proof.
  intros w es (HI & Hg & Ha). unfold bind, get, modify. cbn. split; [| done]. apply (inv_segs w); try done. cbn.
  apply recovery_broadcast_evolve; [apply (iv_segs _ HI) |]. apply orphan_allowed; try done. by apply gone_all.
Qed.

Lemma recoverInDoubtTransactions_spec :
  spec (fun w => Inv w /\ gone w) (recoverInDoubtTransactions me g max_tm_gxacts gp_gxid_prefetch_num)
    (fun _ w => Inv w /\ gone w /\ shmCommittedGxidArray (log w) = []) unwell.
Proof.
  set (R := fun w => gone w /\ shmCommittedGxidArray (log w) = []).
  assert (HR : stable R) by (intros w w' Hf [H1 H2]; split; [by eapply stable_gone | by rewrite (fr_array _ _ Hf)]).
  assert (Hev : spec (fun w => Inv w /\ R w) next_event (fun _ w => Inv w /\ R w) unwell) by (apply next_event_gone; [done | by intros w []]).
  eapply (spec_bind _ _ _ (fun _ w => Inv w /\ gone w /\ recovered (log w) = 0%nat)).
  { apply spec_modify. intros w [HI Hg]. split; [by apply recover_start_inv | done]. }
  intros []. apply spec_get_bind. intros n. eapply (spec_bind _ _ _ (fun _ w => Inv w /\ recovering 0 w)).
  { eapply spec_weaken; [apply (recover_committed_spec n) | | done | done]. intros w [(HI & Hg & Hr) ->].
    split; [done |]. split; [done | lia]. }
  intros []. eapply (spec_bind _ _ _ (fun _ w => Inv w /\ R w)).
  { apply spec_modify. intros w [HI [H1 H2]]. split; [apply recover_reset_inv; [done | lia] | done]. }
  intros []. eapply spec_bind; [exact Hev |]. intros e. destruct (no_gang e); [apply spec_raise; by intros w [HI [Hg _]] |].
  apply spec_get_bind. intros [|].
  - eapply (spec_bind _ _ _ (fun _ w => Inv w /\ R w)); [eapply spec_weaken; [exact Hev | by intros w [] | done | done] |].
    intros e'. apply abort_in_doubt_spec.
  - apply spec_ret. by intros w [].
Qed.

Lemma recoverTM_spec :
  spec (fun w => Inv w /\ gone w) (recoverTM me g max_tm_gxacts gp_gxid_prefetch_num) (fun _ w => Inv w /\ gone w) unwell.
Proof.
  eapply (spec_bind _ _ _ (fun _ w => Inv w /\ gone w)).
  { eapply spec_bind; [apply (next_event_gone gone); [apply stable_gone | done] | intros e; by apply spec_ret]. }
  intros []. eapply spec_bind; [apply recoverInDoubtTransactions_spec |]. intros []. apply spec_modify.
  intros w (HI & Hg & Ha). split; [| done]. pose proof HI as [I1 I2 I3 I4 I5 I6 I7 I8 I9 I10 I11 I12]. by constructor.
Qed.

(** ** Crashes *)

Lemma startup_facts cut b c c1 c2 :
  linv c -> lstep (Restart cut) c = Some c1 -> lstep (StartupDone b) c1 = Some c2 ->
  linv c2 /\ phase c2 = Running /\ nextGxid c <= nextGxid c2 /\ (forall p x, allProcs c2 !! p = Some x -> x = idle_proc) /\
  (exists v, wal c2 = take cut (wal c) ++ v /\ ~ com v g /\ ~ forg v g) /\ (flushed c <= cut <= flushed c2)%nat /\
  (forall x, x ∈ shmCommittedGxidArray c2 -> com (take cut (wal c)) x).
Proof.
  intros HI H1 H2. pose proof (step_next _ _ _ _ _ Hprefetch HI H1) as Hn. cbn in Hn.
  unfold log_step in H1. case_match eqn:E; [| done]. apply andb_true_iff in E as [E1%Nat.leb_le E2%Nat.leb_le].
  destruct (StartupXLOG max_tm_gxacts cut c) as [c1' | |] eqn:Es; try done. simplify_eq.
  destruct (restart_inv gp_gxid_prefetch_num max_tm_gxacts cut c c1 ltac:(lia) HI ltac:(lia) Es) as [HI1 HP1].
  assert (HI2 : linv c2) by (eapply (log_step_inv _ _ (StartupDone b)); [exact Hprefetch | exact HI1 | exact HP1 | exact H2]).
  unfold StartupXLOG in Es. destruct (redo_log max_tm_gxacts cut c) as [[n a] | |] eqn:Er; try done. cbn in Es. simplify_eq.
  destruct (redo_log_spec _ _ _ _ _ _ HI (conj E1 E2) Er) as (_ & _ & Ha & _). unfold log_step in H2. rewrite bool_decide_true in H2 by done. injection H2 as <-.
  assert (Hidle : forall p x, replicate (length (allProcs c)) idle_proc !! p = Some x -> x = idle_proc).
  { intros p x [-> _]%lookup_replicate. done. }
  destruct b; cbn in *.
  - split_and!; try done; try lia; [eexists; split_and!; [done | |]; by intros ?%list_elem_of_singleton].
  - split_and!; try done; try lia. by apply same_wal.
Qed.

Lemma inv_crash_log w c cut v sess' t b :
  Inv w -> linv c -> phase c = Running -> nextGxid (log w) <= nextGxid c ->
  (forall p x, allProcs c !! p = Some x -> x = idle_proc) ->
  wal c = take cut (wal (log w)) ++ v -> ~ com v g -> ~ forg v g -> (flushed (log w) <= cut <= flushed c)%nat ->
  (forall x, x ∈ shmCommittedGxidArray c -> com (take cut (wal (log w))) x) ->
  Inv (mkWorld c (segs w) sess' t b false).
Proof.
  intros [I1 I2 I3 I4 I5 I6 I7 I8 I9 I10 I11 I12] HL Hph Hn Hidle Hw Hc Hf Hfl Ha.
  assert (Hno : forall p x, allProcs c !! p = Some x -> p_gxid x <> g).
  { intros p x Hp. rewrite (Hidle p x Hp). cbn. unfold InvalidDistributedTransactionId. lia. }
  assert (Hkeep : forall f, (f <= cut)%nat -> com (take f (wal (log w))) g -> durable c).
  { intros f Hle H. unfold durable. rewrite Hw. eapply (take_flushed_mono _ _ f); [lia |].
    rewrite take_take, Nat.min_l by done. done. }
  assert (Hd : durable (log w) -> durable c) by (apply Hkeep; lia).
  assert (Hcom : com (wal c) g -> com (wal (log w)) g).
  { rewrite Hw, com_app. intros [H |]; [by apply com_take in H | done]. }
  assert (Hh : hopeless (log w) -> hopeless c).
  { intros [H1 _]. split; [by intros ?%Hcom |]. intros x Hx Hg. by destruct (Hno _ _ Hx). }
  assert (H1 : onephase w -> onephase (mkWorld c (segs w) sess' t b false)).
  { intros [F _]. split; [done |]. intros x Hx Hg. by destruct (Hno _ _ Hx). }
  constructor; cbn; try done.
  - lia.
  - intros p x Hp Hg. by destruct (Hno _ _ Hp).
  - intros s Hs Ht. destruct (I6 s Hs Ht); auto.
  - intros [Hg | (x & Hx & Hx' & _)]; [apply I7; left; auto | by destruct (Hno _ _ Hx)].
  - rewrite Hw, forg_app. intros [Hg |]; [| done]. apply forg_take in Hg. destruct (I8 Hg). auto.
  - intros s k Hs Hpe. pose proof (I9 s k Hs Hpe) as HA. destruct k; cbn in *; try done; auto; destruct HA as [| []]; auto.
  - intros Hg%Ha. by eapply (Hkeep cut).
  - intros _ x Hx. by eapply Hno.
Qed.

Lemma coordinator_crash_inv cut b w w' :
  Inv w -> coordinator_crash max_tm_gxacts gp_gxid_prefetch_num cut b w = Some w' -> Inv w' /\ gone w'.
Proof.
  intros HI H. unfold coordinator_crash in H.
  apply bind_Some in H as (c1 & E1 & (c2 & E2 & [= <-])%bind_Some).
  destruct (startup_facts cut b (log w) c1 c2 (iv_log _ HI) E1 E2) as (F1 & F2 & F3 & F4 & (v & F5 & F6 & F7) & F8 & F9).
  assert (HI' : Inv (set_segs (disconnect <$> segs w) w)) by (apply (inv_segs w); [done | done | done | by apply reset_evolve]).
  split; [exact (inv_crash_log _ c2 cut v _ _ _ HI' F1 F2 F3 F4 F5 F6 F7 F8 F9) |].
  intros x Hx. cbn in Hx. rewrite (F4 _ _ Hx). cbn. pose proof (iv_g _ HI). unfold InvalidDistributedTransactionId. lia.
Qed.

(** ** Histories *)

Lemma new_segment_ok : seg_ok new_segment /\ query_ok new_segment.
Proof.
  split; [| by left]. constructor; cbn; try done; try constructor; cbn; try done; lia.
Qed.

(** The first world of a transaction. *)
Lemma inv_start c l s t b :
  linv c -> phase c = Running -> (forall p x, allProcs c !! p = Some x -> p_gxid x = g -> p = me) -> 0 < g < nextGxid c ->
  mine c (mkProc g false false DTX_STATE_ACTIVE_DISTRIBUTED) -> shmCommittedGxidArray c = [] ->
  (forall x, x ∈ l -> x = new_segment) -> Inv (mkWorld c l s t b true).
Proof.
  intros HL Hph Ho Hg Hm Ha Hl. pose proof (li_proc _ _ HL _ _ Hm) as (_ & Hc & _).
  constructor; cbn; try done.
  - intros x Hx. rewrite (Hl x Hx). apply new_segment_ok.
  - intros x Hx. by rewrite (Hl x Hx).
  - intros [| (x & Hx & _ & Hp)]; [done |]. unfold mine in *. simplify_eq.
  - intros Hf. destruct Hc. rewrite <- (firstn_all (wal c)) in Hf |- *. by apply (li_forg _ _ HL).
  - intros x k Hx. rewrite (Hl x Hx). unfold pending, new_segment. cbn. intros (q & Hq). by apply elem_of_nil in Hq.
  - rewrite Ha. intros H. by apply elem_of_nil in H.
Qed.

Lemma activate_facts c0 c :
  linv c0 -> phase_inv c0 -> lstep (Activate me) c0 = Some c -> gxid_of me c = g ->
  linv c /\ phase c = Running /\ (forall p x, allProcs c !! p = Some x -> p_gxid x = g -> p = me) /\ 0 < g < nextGxid c /\
  mine c (mkProc g false false DTX_STATE_ACTIVE_DISTRIBUTED).
Proof.
  intros HI0 HP0 E1 Hg.
  destruct (log_step_inv _ _ _ _ _ Hprefetch HI0 HP0 E1) as [HI1 _]. pose proof (step_next _ _ _ _ _ Hprefetch HI0 E1) as Hn. cbn in Hn.
  unfold log_step, proc_action, on_proc in E1. destruct (allProcs c0 !! me) as [x |] eqn:Ex; [| done].
  case_match eqn:E; [| done]. injection E1 as <-. apply andb_true_iff in E as [E2%bool_decide_eq_true [E3%bool_decide_eq_true _]%andb_true_iff].
  pose proof (li_proc _ _ HI0 _ _ Ex) as Hidle. unfold proc_ok in Hidle. rewrite E3 in Hidle. subst x.
  assert (Hme : allProcs (take_gxid me c0) !! me = Some (mkProc (nextGxid c0) false false DTX_STATE_ACTIVE_DISTRIBUTED)).
  { cbn. by rewrite list_lookup_alter_eq, Ex. }
  unfold gxid_of in Hg. rewrite Hme in Hg. cbn [p_gxid] in Hg. rewrite <- Hg.
  pose proof (li_next _ _ HI0). split_and!; try done; try lia.
  intros p x Hp Hx. destruct (decide (p = me)) as [| Hne]; [done |]. exfalso.
  assert (p_gxid x <> 0) by lia. apply Hne. by eapply (li_distinct _ _ HI1 p me x _ Hp Hme).
Qed.

Lemma start_inv n k e acts w :
  start_transaction me max_tm_gxacts gp_gxid_prefetch_num n k e acts = Some w -> gxid_of me (log w) = g ->
  Inv w /\ open_xact w.
Proof.
  intros (c0 & E0 & (c & E1 & H)%bind_Some)%bind_Some Hg. case_bool_decide as Harr; [| done]. injection H as <-. cbn [log] in Hg.
  destruct (bootstrap_inv _ n Hprefetch) as [HI HP]. destruct (log_run_inv _ _ _ _ _ Hprefetch HI HP E0) as [HI0 HP0].
  destruct (activate_facts c0 c HI0 HP0 E1 Hg) as (F1 & F2 & F3 & F4 & F5).
  assert (Hnew : forall x, x ∈ replicate k new_segment -> x = new_segment) by (intros x [-> _]%elem_of_replicate; done).
  split; [by apply inv_start |]. split_and!; try done.
  - intros i s [-> _]%lookup_replicate. done.
  - intros s Hs. by rewrite (Hnew s Hs).
  - intros s Hs. rewrite (Hnew s Hs). apply new_segment_ok.
Qed.

Lemma reach_inv w0 w :
  Inv w0 -> open_xact w0 -> reach me g max_tm_gxacts gp_gxid_prefetch_num dtx_phase2_retry_second w0 w -> Inv w.
Proof.
  intros HI HO Hr. induction Hr as [qs commit es r w es' H | a w Hr IH | cut b w w' Hr IH H | es r w w' es' Hr IH Hns H].
  - pose proof (session_transaction_spec qs commit w0 es (conj HI HO)) as Hs. rewrite H in Hs. destruct r; apply Hs.
  - by apply act_inv.
  - by eapply coordinator_crash_inv.
  - pose proof (recoverTM_spec w es (conj IH (iv_down _ IH Hns))) as Hs. rewrite H in Hs. destruct r; apply Hs.
Qed.

Lemma committed_forgotten w :
  Inv w -> dtmStarted w = true -> IsDtxInProgress g (log w) = false -> com (wal (log w)) g -> all_committed (segs w).
Proof.
  intros HI Hs Hp Hc. destruct (li_live _ _ (iv_log _ HI) g Hc) as [Hf | [Ha | (p & x & Hx & Hg & _)]].
  - by apply iv_forg.
  - rewrite (iv_started _ HI Hs) in Ha. by apply elem_of_nil in Ha.
  - by destruct (not_in_progress _ Hp _ _ Hx).
Qed.

Lemma recovery_abort_success dl s s' :
  deliver_recovery DTX_PROTOCOL_COMMAND_RECOVERY_ABORT_PREPARED dl s = (s', true) -> prepared (disk s') = false.
Proof.
  intros H. destruct dl as [f | f | | |]; try (by cbn in H; repeat case_match; simplify_eq).
  change (deliver_recovery DTX_PROTOCOL_COMMAND_RECOVERY_ABORT_PREPARED (Answered f) s) with
    (let '(_, d, r) := performDtxProtocolAbortPrepared false f DTX_CONTEXT_LOCAL_ONLY (disk s) in
     (with_disk d s, match r with RDone => true | _ => false end)) in H.
  unfold performDtxProtocolAbortPrepared, FinishPreparedTransaction in H.
  destruct f, (prepared (disk s)) eqn:E; by simplify_eq.
Qed.

Lemma recovery_broadcast_aborted net l l' :
  recovery_broadcast DTX_PROTOCOL_COMMAND_RECOVERY_ABORT_PREPARED net l = (l', true) -> forall s, s ∈ l' -> prepared (disk s) = false.
Proof.
  revert net l'. induction l as [| s l IH]; intros net l' H; cbn in H; [simplify_eq; by intros s ?%elem_of_nil |].
  destruct (deliver_recovery _ (default Undelivered (head net)) s) as [s' ok] eqn:E.
  destruct (recovery_broadcast _ (tail net) l) as [l1 oks] eqn:E'. injection H as <- [-> ->]%andb_true_iff.
  intros x [-> | Hx]%elem_of_cons; [by eapply recovery_abort_success | by eapply IH].
Qed.

Lemma writers_agree w i j s t :
  Inv w -> segs w !! i = Some s -> segs w !! j = Some t -> wrote s = true -> wrote t = true ->
  fate (disk s) = Some true -> fate (disk t) <> Some false.
Proof.
  intros HI Hi Hj Hs Ht Hf Hff.
  pose proof (list_elem_of_lookup_2 _ _ _ Hi) as Hin. pose proof (list_elem_of_lookup_2 _ _ _ Hj) as Hjn.
  destruct (iv_true _ HI s Hin Hf) as [Hd | [Hfew _]]; [| by rewrite <- (Hfew i j s t Hi Hj Hs Ht), Hi in Hj; simplify_eq].
  pose proof (iv_segs _ HI t Hjn) as Hok.
  assert (Hjt : joined t = true).
  { destruct (joined t) eqn:E; [done |]. destruct (so_unjoined _ Hok E) as (_ & _ & Hw). congruence. }
  destruct (iv_ready _ HI (or_introl (com_take _ _ _ Hd)) t Hjn Hjt) as [Hp | Hp]; [| congruence].
  pose proof (do_prepared _ _ (so_disk _ Hok) Hp). congruence.
Qed.
End atomicity.

(** C1: a distributed transaction is atomic.  In any history of it - the session with
    all its errors, cancels and retries, lost and late messages, crashes of segments
    and QEs, the recovery process, crashes of the coordinator at any moment and any
    number of complete or partial recoveries - no two segments that the transaction
    wrote on ever disagree: when one has committed, none has aborted. *)
Theorem dtx_atomic me g max_tm_gxacts gp_gxid_prefetch_num dtx_phase2_retry_second nprocs nsegs explicit acts w0 w i j s t :
  0 < gp_gxid_prefetch_num < 2 ^ 31 ->
  start_transaction me max_tm_gxacts gp_gxid_prefetch_num nprocs nsegs explicit acts = Some w0 ->
  gxid_of me (log w0) = g ->
  reach me g max_tm_gxacts gp_gxid_prefetch_num dtx_phase2_retry_second w0 w ->
  segs w !! i = Some s -> segs w !! j = Some t -> wrote s = true -> wrote t = true ->
  fate (disk s) = Some true -> fate (disk t) <> Some false.
Proof.
  intros Hp Hw Hg Hr. destruct (start_inv me g _ _ Hp _ _ _ _ _ Hw Hg) as [HI HO].
  eapply writers_agree, reach_inv; eauto.
Qed.

(** C4: a commit that returns is a commit everywhere: when the queries of a
    transaction and its [CommitTransaction] return without an error, every segment
    that a query was sent to has committed. *)
Theorem commit_everywhere me g max_tm_gxacts gp_gxid_prefetch_num dtx_phase2_retry_second nprocs nsegs explicit acts w0 qs es w es' q t :
  0 < gp_gxid_prefetch_num < 2 ^ 31 ->
  start_transaction me max_tm_gxacts gp_gxid_prefetch_num nprocs nsegs explicit acts = Some w0 ->
  gxid_of me (log w0) = g ->
  bind (run_queries me g max_tm_gxacts gp_gxid_prefetch_num qs)
    (fun _ => CommitTransaction me g max_tm_gxacts gp_gxid_prefetch_num dtx_phase2_retry_second) w0 es = (Ret tt, w, es') ->
  q ∈ qs -> t ∈ q_segments q -> exists s, segs w !! t = Some s /\ fate (disk s) = Some true.
Proof.
  intros Hp Hw Hg Hr Hq Ht. destruct (start_inv me g _ _ Hp _ _ _ _ _ Hw Hg) as [HI HO].
  pose proof (queries_commit_spec me g max_tm_gxacts _ dtx_phase2_retry_second Hp [] qs w0 es) as H. rewrite Hr in H.
  destruct H as (_ & _ & Hall & Htouched).
  { split_and!; [done | done |]. by intros ? ?%elem_of_nil. }
  destruct (Htouched t) as (s & Hs & Hj).
  { cbn. rewrite list_elem_of_In, in_concat. exists (q_segments q). split; [| by apply list_elem_of_In].
    apply list_elem_of_In. by apply list_elem_of_fmap_2. }
  exists s. split; [done |]. apply Hall; [by eapply list_elem_of_lookup_2 | done].
Qed.


(** ** Examples *)

Definition sample_start : option World := start_transaction 0 10 512 1 2 false [Bump; BumpDone].
Definition sample_query : Query := mkQuery [0%nat; 1%nat] [0%nat; 1%nat] true.
Definition answered_event : Event := mkEvent [] 0 false false None [Answered NoFault; Answered NoFault].
Definition lossy_event : Event := mkEvent [] 0 false false None [Answered NoFault; Undelivered].
Definition silent_event : Event := mkEvent [] 0 false true None [].

(** The session, a crash that keeps [cut] records, and recovery. *)
Definition sample_history (es : list Event) (cut : nat) (res : list Event) : option (World * World) :=
  w0 ← sample_start;
  w ← coordinator_crash 10 512 cut false (session_transaction 0 1 10 512 60 [sample_query] true w0 es).1.2;
  if dtmStarted w then None else Some (w0, (recoverTM 0 1 10 512 w res).1.2).

Lemma sample_history_reach es cut res w0 w :
  sample_history es cut res = Some (w0, w) -> sample_start = Some w0 /\ reach 0 1 10 512 60 w0 w.
Proof.
  intros (w1 & H1 & (w2 & H2 & H)%bind_Some)%bind_Some. destruct (dtmStarted w2) eqn:Ed; [done |]. injection H as <- <-. split; [done |].
  destruct (session_transaction 0 1 10 512 60 [sample_query] true w1 es) as [[r w3] es3] eqn:Es.
  destruct (recoverTM 0 1 10 512 w2 res) as [[r' w4] es4] eqn:Er.
  eapply reach_recover; [| exact Ed | exact Er]. eapply reach_crash; [| exact H2]. eapply reach_session. exact Es.
Qed.

(** The second segment does not hear of the commit before the coordinator crashes. *)
Lemma dtx_atomic_witness :
  exists w0 w s t,
    sample_history (repeat answered_event 10 ++ [lossy_event]) 3 (repeat answered_event 5) = Some (w0, w) /\
    segs w !! 0%nat = Some s /\ segs w !! 1%nat = Some t /\ fate (disk s) = Some true /\ fate (disk t) = Some true /\
    fate (disk t) <> Some false.
Proof.
  destruct (sample_history (repeat answered_event 10 ++ [lossy_event]) 3 (repeat answered_event 5)) as [[w0 w] |] eqn:E;
    [| vm_compute in E; discriminate E].
  destruct (sample_history_reach _ _ _ _ _ E) as [H1 H2]. exists w0, w. pose proof E as E'. vm_compute in E'. injection E' as E1 E2.
  do 2 eexists. split; [reflexivity |]. rewrite <- E2. split; [reflexivity |]. split; [reflexivity |].
  split; [reflexivity |]. split; [reflexivity |]. rewrite <- E2 in H2.
  refine (dtx_atomic 0 1 10 512 60 1 2 false [Bump; BumpDone] w0 _ 0 1 _ _ _ H1 _ H2 _ _ _ _ _);
    [lia | rewrite <- E1; reflexivity | reflexivity | reflexivity | reflexivity | reflexivity | reflexivity].
Defined.

Lemma commit_everywhere_witness :
  exists w0 w es' s, sample_start = Some w0 /\
    bind (run_queries 0 1 10 512 [sample_query]) (fun _ => CommitTransaction 0 1 10 512 60) w0
      (repeat answered_event 10 ++ [lossy_event] ++ repeat answered_event 5) = (Ret tt, w, es') /\
    segs w !! 1%nat = Some s /\ fate (disk s) = Some true.
Proof.
  destruct sample_start as [w0 |] eqn:E; [| vm_compute in E; discriminate E]. pose proof E as E'. vm_compute in E'. injection E' as E1.
  destruct (bind (run_queries 0 1 10 512 [sample_query]) (fun _ => CommitTransaction 0 1 10 512 60) w0
      (repeat answered_event 10 ++ [lossy_event] ++ repeat answered_event 5)) as [[[[] | l] w] es'] eqn:Er;
    [| rewrite <- E1 in Er; vm_compute in Er; discriminate Er].
  destruct (commit_everywhere 0 1 10 512 60 1 2 false [Bump; BumpDone] w0 [sample_query] _ w es' sample_query 1
    ltac:(lia) E ltac:(rewrite <- E1; reflexivity) Er ltac:(left) ltac:(right; left)) as (s & Hs & Hf).
  exists w0, w, es', s. auto.
Defined.

